(* ===== verification/_CoqProject ===== *)
-Q . S2P
Prelude.v
Platform.v
Types.v
Format.v
Accounts.v
InterchainAccount.v
Protocols.v
LibraryBase.v
Osmosis.v
MarsLending.v
Middleware.v
TypeRegistry.v
IcQuerier.v
Astroport.v
LiquidStaking.v
Vaults.v
Duality.v
Vortex.v
IbcUtils.v
IbcTransfer.v
LibraryProofs.v
Queue.v
Processor.v
ProcessorFacts.v
Codec.v
LibraryCodec.v
AccountsTheorems.v
MiddlewareTheorems.v
TypeRegistryTheorems.v
IcQuerierTheorems.v
InterchainAccountTheorems.v
IbcTransferTheorems.v
OsmosisTheorems.v
MarsTheorems.v
AstroportTheorems.v
LiquidStakingTheorems.v
VaultsTheorems.v
DualityTheorems.v
VortexTheorems.v
ClearingQueue.v
Forwarder.v
ForwarderTheorems.v
Splitter.v
SplitterTheorems.v
ReverseSplitter.v
ReverseSplitterTheorems.v
LibraryTheorems.v
LibraryAccount.v
ProgramRegistry.v
ProcessorProofs.v
ProcessorRuns.v
ProcessorRetries.v
ProcessorLifecycle.v
ProcessorReports.v
AuthorizationUtils.v
Authorization.v
Routers.v
AuthorizationFacts.v
AuthorizationInvariants.v
Samples.v
ProcessorTheorems.v
AuthorizationTheorems.v
AuthorizationSettlement.v
AuthorizationAccess.v
RouterTheorems.v
EvmEncoder.v
EvmLibraryCalls.v
EvmCodecRef.v
EvmEncoderTheorems.v
ManagerLibrary.v
ProgramManager.v
ProgramManagerTheorems.v
Connector.v
ManagerProgress.v
ConnectorTheorems.v
ProgramChanges.v
ProgramChangesTheorems.v
MainLedger.v
MainDomain.v
System.v
