(* ===== verification/Prelude.v ===== *)
(** * Valence Protocol: verification library

    The program is the Valence protocol: a set of CosmWasm contracts with the packages they
    share, and the off-chain manager that deploys programs of them.

    - The _authorization contract_ ([contracts/authorization]) keeps a registry of
      authorizations (labelled subroutines with permissions, limits and a time window),
      checks the messages users want executed, hands them as batches with fresh
      execution ids to the _processor_ of the domain ([contracts/processor]), directly on
      the main domain and through a bridge (polytone or Hyperlane) elsewhere, and
      settles every execution when its result is reported.  For EVM domains it asks the
      _encoder broker_, which forwards to the _EVM encoder_, for ZK messages the
      _verification router_.
    - The processor keeps the batches in two priority queues
      ([packages/processor-utils/src/queue.rs]) and executes them when it is ticked,
      atomically or function by function, with retries, expirations and confirmations by
      third contracts, and reports each result.
    - The functions of a batch are calls of _libraries_ ([contracts/libraries]), contracts
      with an owner, a processor and a configuration ([packages/library-base],
      [library-utils]) that act on _accounts_ ([contracts/accounts]): they split, forward,
      gather or pay out funds, send them over IBC, provide liquidity, stake, lend and query
      other chains.  An account executes what its admin and the approved libraries ask for, and relays replies.
    - The _program registry_ keeps the configurations of programs; the _middleware_ stores
      values of other chains in storage accounts and asserts conditions on them.
    - The _program manager_ ([program-manager]) takes the description of a program (accounts,
      libraries, links between them, authorizations), predicts the addresses of its
      contracts, instantiates them on all their domains, and saves the program in the
      registry; later it updates a program or migrates it to a new one.  It reaches the chains
      through _connectors_ to their nodes ([domain/cosmos_cw.rs]).

    ** How the code is modelled

    An entry point is a computation [Exec storage ContractError A]: it takes the
    storage of the contract, a record with one field per cell of the contract's
    [state.rs], and returns [Ok] with a value and the new storage, [Err] with the
    contract's error, or [Panic] (an [expect], an index out of range, an overflow).
    Only [Ok] keeps the new storage, as on the chain.  Messages are returned in a
    [Response]; what the host does with them (delivery, replies) is in the theorems:
    [ProcessorRuns.tick_tx] and [ProcessorLifecycle.run_tx] run a message with the
    reply of its sub-message, [AccountsTheorems] follows a sub-message through an account,
    [System] delivers messages between the contracts.
    An operation of the program manager is a computation [Mgr A]: it takes the calls to the
    chains made so far and returns those made after it, whether it succeeds or not.  What the
    chains answer is a parameter ([ProgramManager.Chains]); [Connector.node_chains] makes
    them of connectors, whose methods are computations on the requests to the nodes.
    Unsigned integers are [N] with their bounds ([u64_max], [u128_max], and [usize_max]
    of wasm32), signed ones [Z]; maps of [cw_storage_plus] are [gmap]s, and iteration
    over them is in key order ([Platform.map_range]); a [HashMap] is iterated in an order
    that is a parameter ([LibraryBase.HashOrder]).

    Code outside the repository is a parameter, given by type classes whose laws
    state documented behaviour: [Platform] (address validation, time, expirations,
    payments), [JsonCodec] and [JsonText] (serialization, with its round trip),
    [SerdeJson] (untyped JSON values), [CwOwnable], [CwDenom], [CosmMath], [Int64Math],
    [EvmCodec] (the encoding of Solidity), [Groth16] (proofs), [AhoCorasick], [CosmosHash] and
    the encodings of protobuf messages.  What the chain and other contracts answer to
    queries is a record: [Authorization.Querier], [InterchainAccount.Querier],
    [LibraryBase.LibQuerier] with [Protocols.ProtocolQuerier].  [Codec], [LibraryCodec] and
    [EvmCodecRef] instantiate all of them, so that the witnesses run the contracts on concrete inputs.

    ** Files

    - [Prelude]: results, the state monad, lenses, machine integers, loops, and the
      tactics that decompose a successful computation ([exec_inv], [exec_case]).
    - [Platform]: CosmWasm types, storage cells, the classes above, [run_inv];
      [Format]: the texts that the contracts print and parse.
    - [Types]: the data of [authorization-utils], [processor-utils], [gmp-utils] and
      [encoder-utils], with their methods.
    - [Queue]: [QueueMap] and its refinement to lists.
    - [Processor]: the processor contract ([contract.rs], [callback.rs], [queue.rs],
      [state.rs], [error.rs]); [ProcessorFacts] and [ProcessorProofs]: its queues as
      lists, callbacks, single handlers; [ProcessorRuns] and [ProcessorRetries]:
      sequences of ticks; [ProcessorLifecycle]: all runs; [ProcessorReports]: the messages
      a transaction leaves with; [ProcessorTheorems]: single transactions, permissions and
      the witnesses.
    - [AuthorizationUtils]: conversions and message builders of the packages, and the
      builders of authorizations (Module [Builders]);
      [Authorization]: the authorization contract ([contract.rs], [authorization.rs],
      [domain.rs], [state.rs], [error.rs]); [AuthorizationFacts]: what an accepted
      message implies, handler by handler; [AuthorizationInvariants]: preservation of
      the invariants; [AuthorizationTheorems], [AuthorizationSettlement],
      [AuthorizationAccess]: the theorems.
    - [Routers], [RouterTheorems]: the encoder broker, the verification router and the SP1
      verifier behind it, plugged into the queries of the authorization contract; [EvmEncoder]: the EVM encoder, with
      [EvmLibraryCalls] on the calls of its libraries, [EvmEncoderTheorems] on what the
      processor of an EVM chain reads and reports; [ProgramRegistry].
    - [Accounts], [AccountsTheorems]: base and storage accounts, and
      sub-messages through an account; [InterchainAccount],
      [InterchainAccountTheorems]: accounts on other chains.
    - [LibraryBase]: the library framework; [LibraryProofs]: its interface [LibraryLaws]
      and what holds of every library behind it; [LibraryAccount]: account types and their
      texts; [LibraryTheorems].
    - [Splitter], [ReverseSplitter], [Forwarder], each with its [...Theorems],
      [ClearingQueue] with its theorems; [IbcUtils], [IbcTransfer], [IbcTransferTheorems]: the four libraries
      that transfer over IBC; [Protocols], [Osmosis], [OsmosisTheorems], [MarsLending],
      [MarsTheorems]: liquidity on Osmosis and lending on Mars; [Astroport],
      [LiquidStaking] (Drop and maxBTC), [Vaults] (Magma and Supervaults), [Duality] and
      [Vortex], each with its [...Theorems]: the other DeFi libraries.
    - [Middleware], [MiddlewareTheorems]: canonical types, asserter, type broker and ratio
      provider; [TypeRegistry], [TypeRegistryTheorems]: the registries of Osmosis types;
      [IcQuerier], [IcQuerierTheorems]: the library that queries other chains, from the
      registration of a query to the storage account.
    - [Codec], [LibraryCodec]: reference implementations of the classes; [Samples]:
      concrete states and runs.
    - [ManagerLibrary]: the configurations of libraries as the manager has them, with the
      code of its macro; [ProgramManager]: the data, the chains and [init];
      [ProgramManagerTheorems], [ManagerProgress]: what a deployment does, when it succeeds,
      and a program on two chains; [ProgramChanges], [ProgramChangesTheorems]: updates,
      migrations and the builder of programs; [Connector], [ConnectorTheorems]: the
      connectors to the nodes.
    - [MainLedger]: the executions of the authorization contract that belong to the main
      domain, transaction by transaction; [MainDomain]: both core contracts in one world,
      with a host that delivers their messages; [System]: one batch from end to end.

    ** What is shown

    - Queue: every trace of operations returns what the same trace returns on a list
      ([queue_trace_refines]), and queries return slices.
    - Processor: a tick serves the front of the right queue; a non-atomic batch of
      [n] functions completes in [n] successful ticks; an atomic batch with [n]
      retries is executed at most [n + 1] times; in every run each accepted batch is
      queued, awaited or reported, exactly once ([batches_reported_exactly_once]);
      only the right senders are obeyed; lost reports can be sent again.
    - Authorization: the registry stays well formed and the counters of executions
      exact in every reachable state; sending, ZK execution, callbacks and retries
      are characterised with their guards, state changes and outgoing messages; ZK
      messages cannot be replayed, and their two proofs are checked by the registered
      verifier; roles are enforced.
    - EVM domains: a batch that leaves for an EVM processor is read there as it was
      authorized ([evm_batch_end_to_end]), its calls are those that the messages ask for and
      fit the types of Solidity ([library_calls_exact]), and the reports of that processor
      settle the executions ([evm_callback_settles]).
    - System: a user's batch without confirmations or expiration goes from the authorization contract to the processor,
      is executed, reported and settled ([user_batch_end_to_end]); in every state the
      two contracts of the main domain reach, what one has open is what the other holds,
      once ([main_domain_in_step]), and no report is refused
      ([main_reports_never_refused]).  There it is assumed that libraries do not call the
      two contracts within the call of a function, that only calls that succeeded are
      confirmed, that external domains report their own executions once and that no bridge
      is one of the two contracts.
    - Accounts: who is obeyed, in every run; callbacks are relayed faithfully; an
      interchain account is registered once at a time and only pays affordable fees.
    - Libraries: for every library behind [LibraryLaws], the configuration stays as valid as
      the library demands, functions run for the processor and updates for the owner only,
      and functions keep the configuration but for the counters and tables of two libraries.  Amounts stay within
      balances, limits and ratios ([split_within_balance], [forward_within_limits],
      [gather_within_balances], [ibc_transfer_affordable], [gamm_provision_exact],
      [astroport_provision_within_balances]),
      obligations are paid once and in order, tick ranges are exact, positions and loans
      reach the configured accounts through replies, and a Vortex library has one contract at
      most ([vortex_single_contract]).
    - Registry and middleware: programs are kept and updated by their owners; assertions
      on prices are decided exactly; the registered queries of the interchain querier are
      those still open ([icq_registrations_exact]), a delivered pool is stored in its
      canonical form ([icq_pool_stored]), and pools survive the translation to canonical
      types and back ([pool_canonical_roundtrip]).
    - Program manager: a deployment that succeeds wires the program as described
      ([init_wires_program]), with contracts at the saved addresses
      ([init_contracts_deployed]); on chains that do what they are asked, a sound
      description is deployed if and only if no other domain shares the shard of the main
      domain in the map of connectors ([init_deploys]); an update saves exactly what it
      names, and the authorization contract that agreed with the program still does
      ([update_agrees_with_contract]); a migration moves the given
      funds ([migrate_moves_funds]); a saved program is read back as it was
      ([saved_program_read_back]); retries are bounded ([bridge_account_bounded]).
    - Theorems about behaviour that differs from what the code is meant to do or what
      comments and documentation say: [failed_function_report],
      [retry_budget_carried_over], [confirmation_during_execution_skips],
      [failed_attempt_confirmable], [hyperlane_callback_keeps_token],
      [polytone_callback_settles], [latest_id_update_ignored],
      [base_denom_update_unchecked], [ica_memo_update_ignored], [cl_lp_update_unchecked],
      [icq_registrations_exact], [reregistered_query_stays_open],
      [bank_result_not_canonical], [unstaker_voucher_never_updated],
      [upper_price_refused], [library_calls_exact], [update_elsewhere_refused],
      [saved_program_read_back], [broadcast_tx_found], [init_deploys].

    ** Bounds

    The loops of the code run over lists or ranges and are structural recursions here; their
    one fuel is in [Format.trim_start_go], the length of the text it shortens; the
    host of [MainDomain.route] delivers three levels deep, which is enough for a command,
    its report and the settlement ([main_reports_never_refused]).  The
    cursors of a queue only grow, by at most one per pushed batch, and the code
    panics when one would pass [u64::MAX]; theorems about runs assume [room] for
    their pushes, or a run shorter than [u64::MAX - 2] transactions.  The retries of a
    connector are counted down as in the code.

    ** Not modelled

    Tests, test contracts, examples, deployment scripts and end-to-end drivers, the template
    of a library, code generation for schemas, the connector in [domain/cosmos_evm.rs], which
    the crate leaves out, the cryptographic methods of the mock API, which are unimplemented,
    and the Solidity side.  The program manager runs one operation at a time: its sleeping is not
    modelled, and a call to a chain returns before the next one is made.  Of the locks on its
    connectors, the guards that an operation holds itself are modelled
    ([ProgramManager.get_or_create_connector]); other tasks do not share its connectors.  The [query] entry points are modelled by the functions they dispatch
    to. *)
From stdpp Require Export base gmap strings list list_numbers pretty sorting.

Declare Scope valence_scope.
Delimit Scope valence_scope with valence.

(** ** Results

    A CosmWasm entry point either returns [Ok], returns [Err] or traps
    (a Rust panic: [expect], [unwrap], an index out of bounds, an integer
    overflow under [overflow-checks = true]).  All three are values. *)
Inductive result (E A : Type) : Type :=
| Ok (a : A)
| Err (e : E)
| Panic.
Arguments Ok {E A} a.
Arguments Err {E A} e.
Arguments Panic {E A}.

#[global] Instance result_ret {E} : MRet (result E) := λ A a, Ok a.
#[global] Instance result_bind {E} : MBind (result E) := λ A B k m,
  match m with Ok a => k a | Err e => Err e | Panic => Panic end.

(** The computations of a contract: a storage of type [S] is threaded
    through, and is lost (the transaction is rolled back by the host) when
    the computation does not return [Ok]. *)
Definition Exec (S E A : Type) : Type := S → result E (A * S).

#[global] Instance Exec_ret {S E} : MRet (Exec S E) := λ A a s, Ok (a, s).
#[global] Instance Exec_bind {S E} : MBind (Exec S E) := λ A B k m s,
  match m s with Ok (a, s') => k a s' | Err e => Err e | Panic => Panic end.

(** Rust's [From] trait, which the [?] operator uses to convert errors. *)
Class From (E1 E2 : Type) := from : E1 → E2.
#[global] Hint Mode From + + : typeclass_instances.
#[global] Instance From_refl {E} : From E E | 10 := λ e, e.

Section Combinators.
Context {S E : Type}.

Definition fail {A} (e : E) : Exec S E A := λ _, Err e.
Definition panic {A} : Exec S E A := λ _, Panic.
Definition get_storage : Exec S E S := λ s, Ok (s, s).
Definition of_result {E' A} `{From E' E} (r : result E' A) : Exec S E A := λ s,
  match r with Ok a => Ok (a, s) | Err e => Err (from e) | Panic => Panic end.
(** [Option::expect] and [Option::unwrap]. *)
Definition expect {A} (o : option A) : Exec S E A := λ s,
  match o with Some a => Ok (a, s) | None => Panic end.
(** [Option::ok_or]. *)
Definition ok_or {A} (o : option A) (e : E) : Exec S E A := λ s,
  match o with Some a => Ok (a, s) | None => Err e end.
(** [if c { return Err(e) }]. *)
Definition fail_if (c : bool) (e : E) : Exec S E unit := λ s,
  if c then Err e else Ok ((), s).
End Combinators.

(** The same in the storage-free functions. *)
Definition expect_r {E A} (o : option A) : result E A :=
  match o with Some a => Ok a | None => Panic end.
Definition ok_or_r {E A} (o : option A) (e : E) : result E A :=
  match o with Some a => Ok a | None => Err e end.
(** [ensure!]. *)
Definition ensure_r {E} (c : bool) (e : E) : result E unit := if c then Ok () else Err e.
Definition map_err_r {E1 E2 A} (f : E1 → E2) (r : result E1 A) : result E2 A :=
  match r with Ok a => Ok a | Err e => Err (f e) | Panic => Panic end.

(** The [?] operator at a call whose error type is converted. *)
Definition lift {S E1 E2 A} `{From E1 E2} (m : Exec S E1 A) : Exec S E2 A := λ s,
  match m s with Ok p => Ok p | Err e => Err (from e) | Panic => Panic end.

(** [Result::map_err] with a function that ignores the error. *)
Definition map_err {S E1 E2 A} (e : E2) (m : Exec S E1 A) : Exec S E2 A := λ s,
  match m s with Ok p => Ok p | Err _ => Err e | Panic => Panic end.

(** A [for] loop whose body threads the storage. *)
Fixpoint for_each {S E A} (l : list A) (body : A → Exec S E unit) : Exec S E unit :=
  match l with
  | [] => mret ()
  | x :: l => _ ← body x; for_each l body
  end.

(** A [for] loop that also accumulates a value. *)
Fixpoint fold_each {S E A B} (l : list A) (acc : B) (body : B → A → Exec S E B)
    : Exec S E B :=
  match l with
  | [] => mret acc
  | x :: l => acc' ← body acc x; fold_each l acc' body
  end.

(** ** Lenses

    A storage cell is a projection of the storage record with its update. *)
Record lens (S T : Type) := Lens { lget : S → T; lset : T → S → S }.
Arguments Lens {S T}.
Arguments lget {S T}.
Arguments lset {S T}.

Class LensLaws {S T} (l : lens S T) : Prop := {
  lget_lset x s : lget l (lset l x s) = x;
  lset_lget s : lset l (lget l s) s = s;
  lset_lset x y s : lset l x (lset l y s) = lset l x s;
}.

(** Run a computation on a part of the storage. *)
Definition zoom {S T E A} (l : lens S T) (m : Exec T E A) : Exec S E A := λ s,
  match m (lget l s) with
  | Ok (a, t) => Ok (a, lset l t s)
  | Err e => Err e
  | Panic => Panic
  end.

(** ** Machine integers

    Unsigned integers are [N] with their bounds written out. *)
Definition u64_max : N := 18446744073709551615.
Definition u32_max : N := 4294967295.
Definition u128_max : N := 340282366920938463463374607431768211455.
(** The contracts run on the wasm32 target. *)
Definition usize_max : N := u32_max.
(** Signed integers are [Z]. *)
Definition i64_min : Z := -9223372036854775808.
Definition i64_max : Z := 9223372036854775807.
Definition in_i64 (z : Z) : Prop := (i64_min ≤ z ≤ i64_max)%Z.
(** [i64::try_from] on a [u64]. *)
Definition i64_try_from (n : N) : option Z :=
  if (Z.of_N n <=? i64_max)%Z then Some (Z.of_N n) else None.

Definition checked_add (max a b : N) : option N :=
  if (a + b <=? max)%N then Some (a + b)%N else None.
Definition checked_sub (a b : N) : option N :=
  if (b <=? a)%N then Some (a - b)%N else None.
Definition saturating_sub (a b : N) : N := (a - b)%N.
Definition wrapping_add (max a b : N) : N := ((a + b) mod (max + 1))%N.

(** [a..b] on unsigned integers. *)
Definition N_range (a b : N) : list N :=
  (λ k, (a + N.of_nat k)%N) <$> seq 0 (N.to_nat (b - a)).

Definition vec_len {A} (l : list A) : N := N.of_nat (length l).
(** [slice::get]. *)
Definition vec_get {A} (l : list A) (i : N) : option A := l !! N.to_nat i.

(** ** Proof support *)
Create HintDb valence.
#[export] Hint Constants Transparent : valence.

Lemma bind_result_ok {E A B} (m : result E A) (k : A → result E B) b :
  (x ← m; k x) = Ok b → ∃ a, m = Ok a ∧ k a = Ok b.
Proof. destruct m; simpl; naive_solver. Qed.

Lemma bind_result_iff {E A B} (m : result E A) (k : A → result E B) b :
  (x ← m; k x) = Ok b ↔ ∃ a, m = Ok a ∧ k a = Ok b.
Proof. destruct m; simpl; naive_solver. Qed.

Section ExecFacts.
Context {S E : Type}.

Lemma Exec_bind_ok {A B} (m : Exec S E A) (k : A → Exec S E B) s b s'' :
  (x ← m; k x) s = Ok (b, s'') ↔ ∃ a s', m s = Ok (a, s') ∧ k a s' = Ok (b, s'').
Proof.
  unfold mbind, Exec_bind. split.
  - destruct (m s) as [[a s']| |] eqn:?; naive_solver.
  - by intros (a & s' & -> & ?).
Qed.

Lemma Exec_bind_run {A B} (m : Exec S E A) (k : A → Exec S E B) s a s' :
  m s = Ok (a, s') → (x ← m; k x) s = k a s'.
Proof. unfold mbind, Exec_bind. by intros ->. Qed.

Lemma Exec_bind_err {A B} (m : Exec S E A) (k : A → Exec S E B) s e :
  m s = Err e → (x ← m; k x) s = Err e.
Proof. unfold mbind, Exec_bind. by intros ->. Qed.

Lemma mret_ok {A} (a b : A) (s s' : S) :
  (mret a : Exec S E A) s = Ok (b, s') ↔ a = b ∧ s = s'.
Proof. unfold mret, Exec_ret. naive_solver. Qed.

Lemma expect_ok {A} (o : option A) (s s' : S) a :
  (expect o : Exec S E A) s = Ok (a, s') ↔ o = Some a ∧ s = s'.
Proof. unfold expect. destruct o; naive_solver. Qed.

Lemma ok_or_ok {A} (o : option A) (e : E) (s s' : S) a :
  ok_or o e s = Ok (a, s') ↔ o = Some a ∧ s = s'.
Proof. unfold ok_or. destruct o; naive_solver. Qed.

Lemma fail_if_ok c (e : E) (s s' : S) u :
  fail_if c e s = Ok (u, s') ↔ c = false ∧ s = s'.
Proof. unfold fail_if. destruct c, u; naive_solver. Qed.

Lemma fail_ok {A} (e : E) (s s' : S) (a : A) : fail e s = Ok (a, s') ↔ False.
Proof. unfold fail. naive_solver. Qed.

Lemma panic_ok {A} (s s' : S) (a : A) : (panic : Exec S E A) s = Ok (a, s') ↔ False.
Proof. unfold panic. naive_solver. Qed.

Lemma get_storage_ok (a s s' : S) :
  (get_storage : Exec S E S) s = Ok (a, s') ↔ a = s ∧ s' = s.
Proof. unfold get_storage. naive_solver. Qed.

Lemma of_result_ok {E' A} `{From E' E} (r : result E' A) (s s' : S) a :
  (of_result r : Exec S E A) s = Ok (a, s') ↔ r = Ok a ∧ s = s'.
Proof. unfold of_result. destruct r; naive_solver. Qed.

Lemma lift_ok {E1 A} `{From E1 E} (m : Exec S E1 A) (s : S) p :
  (lift m : Exec S E A) s = Ok p ↔ m s = Ok p.
Proof. unfold lift. destruct (m s); naive_solver. Qed.

Lemma map_err_ok {E1 A} (e : E) (m : Exec S E1 A) (s : S) p :
  map_err e m s = Ok p ↔ m s = Ok p.
Proof. unfold map_err. destruct (m s); naive_solver. Qed.

Lemma zoom_ok {T A} (l : lens S T) (m : Exec T E A) (s s' : S) a :
  zoom l m s = Ok (a, s') ↔ ∃ t, m (lget l s) = Ok (a, t) ∧ s' = lset l t s.
Proof. unfold zoom. destruct (m (lget l s)) as [[? ?]| |]; naive_solver. Qed.

Lemma for_each_app {A} (l1 l2 : list A) (body : A → Exec S E unit) s :
  for_each (l1 ++ l2) body s = (_ ← for_each l1 body; for_each l2 body) s.
Proof.
  revert s. induction l1 as [|x l1 IH]; intros s; [done|]; simpl.
  unfold mbind, Exec_bind in *. destruct (body x s) as [[? s']| |]; [apply IH|done|done].
Qed.

Lemma for_each_snoc {A} (l : list A) x (body : A → Exec S E unit) s :
  for_each (l ++ [x]) body s = (_ ← for_each l body; body x) s.
Proof.
  rewrite for_each_app. unfold mbind, Exec_bind; simpl.
  destruct (for_each l body s) as [[? s']| |]; [|done..].
  unfold mbind, Exec_bind, mret, Exec_ret. by destruct (body x s') as [[[] ?]| |].
Qed.

(** Invariants of loops. *)
Lemma for_each_invariant {A} (P : S → Prop) (l : list A) (body : A → Exec S E unit) s u s' :
  (∀ x s u s', P s → body x s = Ok (u, s') → P s') →
  P s → for_each l body s = Ok (u, s') → P s'.
Proof.
  intros Hb. revert s. induction l as [|x l IH]; intros s Hs; simpl.
  - by intros [_ <-]%mret_ok.
  - intros (? & s1 & H1 & H2)%Exec_bind_ok. eauto.
Qed.
Lemma fold_each_invariant {A B} (P : S → Prop) (l : list A) (acc : B) (body : B → A → Exec S E B)
    s r s' :
  (∀ acc x s r s', P s → body acc x s = Ok (r, s') → P s') →
  P s → fold_each l acc body s = Ok (r, s') → P s'.
Proof.
  intros Hb. revert acc s. induction l as [|x l IH]; intros acc s Hs; simpl.
  - by intros [_ <-]%mret_ok.
  - intros (? & s1 & H1 & H2)%Exec_bind_ok. eauto.
Qed.
Lemma fold_each_rule {A B} (P : B → S → Prop) (l : list A) (acc : B)
    (body : B → A → Exec S E B) s r s' :
  (∀ acc x s r s', P acc s → body acc x s = Ok (r, s') → P r s') →
  P acc s → fold_each l acc body s = Ok (r, s') → P r s'.
Proof.
  intros Hb. revert acc s. induction l as [|x l IH]; intros acc s Hs; simpl.
  - by intros [<- <-]%mret_ok.
  - intros (? & s1 & H1 & H2)%Exec_bind_ok. eauto.
Qed.
Lemma for_each_Forall {A} (Q : S → A → Prop) (l : list A) (body : A → Exec S E unit) s u s' :
  (∀ x s u s', body x s = Ok (u, s') → Q s x ∧ s' = s) →
  for_each l body s = Ok (u, s') → Forall (Q s) l ∧ s' = s.
Proof.
  intros Hb. induction l as [|x l IH]; simpl.
  - by intros [_ <-]%mret_ok.
  - intros (? & s1 & [? ->]%Hb & H2)%Exec_bind_ok. naive_solver.
Qed.
End ExecFacts.

(** ** Transactions

    The storage after a handler, when it succeeds; a handler that fails leaves the
    storage as it was. *)
Definition after {S E A} (m : Exec S E A) (s : S) : S :=
  match m s with Ok (_, s') => s' | _ => s end.
Definition succeeds {S E A} (m : Exec S E A) (s : S) : bool :=
  match m s with Ok _ => true | _ => false end.
Definition after_all {S E A} (ms : list (Exec S E A)) (s : S) : S := foldl (λ s m, after m s) s ms.
Lemma after_ok {S E A} (m : Exec S E A) s :
  succeeds m s = true → ∃ r, m s = Ok (r, after m s).
Proof. unfold succeeds, after. destruct (m s) as [[r s']| |]; [by eexists|done..]. Qed.
Lemma after_invariant {S E A} (P : S → Prop) (m : Exec S E A) s :
  (∀ a s', m s = Ok (a, s') → P s') → P s → P (after m s).
Proof. intros Hm Hs. unfold after. destruct (m s) as [[a s']| |]; [by eapply Hm|done..]. Qed.
Lemma after_all_invariant {S E A} (P : S → Prop) (ms : list (Exec S E A)) s :
  (∀ m s a s', m ∈ ms → P s → m s = Ok (a, s') → P s') → P s → P (after_all ms s).
Proof.
  unfold after_all. revert s. induction ms as [|m ms IH]; intros s Hm Hs; simpl; [done|].
  apply IH.
  - intros m' s1 a s2 Hin. apply (Hm m' s1 a s2). by right.
  - apply after_invariant; [|done]. intros a s' Ha. eapply Hm; [|done|done]. by left.
Qed.

(** [exec_inv] decomposes every hypothesis that says a computation returned
    [Ok] into the results of its parts. *)
Ltac exec_inv_step :=
  match goal with
  | H : mbind ?k ?m ?s = Ok (?b, ?s'') |- _ =>
      apply (Exec_bind_ok m k s b s'') in H as (? & ? & ? & H)
  | H : mret _ _ = Ok (_, _) |- _ => apply mret_ok in H as [? ?]; simplify_eq
  | H : expect _ _ = Ok (_, _) |- _ => apply expect_ok in H as [? ?]; simplify_eq
  | H : ok_or _ _ _ = Ok (_, _) |- _ => apply ok_or_ok in H as [? ?]; simplify_eq
  | H : fail_if _ _ _ = Ok (_, _) |- _ => apply fail_if_ok in H as [? ?]; simplify_eq
  | H : fail _ _ = Ok _ |- _ => discriminate H
  | H : panic _ = Ok _ |- _ => discriminate H
  | H : get_storage _ = Ok (_, _) |- _ => apply get_storage_ok in H as [? ?]; simplify_eq
  | H : of_result _ _ = Ok (_, _) |- _ => apply of_result_ok in H as [? ?]; simplify_eq
  | H : lift _ _ = Ok _ |- _ => apply lift_ok in H
  | H : map_err _ _ _ = Ok _ |- _ => apply map_err_ok in H
  | H : zoom _ _ _ = Ok (_, _) |- _ => apply zoom_ok in H as (? & H & ?); simplify_eq
  | H : Ok _ = Ok _ |- _ => injection H as ?; simplify_eq
  | H : Err _ = Ok _ |- _ => discriminate H
  | H : Panic = Ok _ |- _ => discriminate H
  end.
Ltac exec_inv := repeat (exec_inv_step; simpl in * ).
(** [exec_case] also splits the branches of the code. *)
Ltac exec_case := repeat (first [exec_inv_step | case_match]; simplify_eq/=).

(** A guard [if a != b { return Err(..) }] that passes. *)
Lemma bool_decide_neq {A} `{EqDecision A} (a b : A) : a = b → bool_decide (a ≠ b) = false.
Proof. intros ->. apply bool_decide_eq_false_2. by intros []. Qed.
Lemma bool_decide_neq_false {A} `{EqDecision A} (a b : A) : bool_decide (a ≠ b) = false → a = b.
Proof. intros H%bool_decide_eq_false_1. by apply dec_stable in H. Qed.

(** ** Integers and ranges *)
Lemma checked_add_Some max a b c : checked_add max a b = Some c ↔ (c = a + b ∧ a + b ≤ max)%N.
Proof. unfold checked_add. case_match eqn:E; split; intros; simplify_eq; rewrite ?N.leb_le, ?N.leb_gt in *; naive_solver lia. Qed.

Lemma checked_add_fits max a b : (a + b ≤ max)%N → checked_add max a b = Some (a + b)%N.
Proof. intros. by apply checked_add_Some. Qed.

Lemma checked_sub_fits a b : (b ≤ a)%N → checked_sub a b = Some (a - b)%N.
Proof. unfold checked_sub. intros ->%N.leb_le. done. Qed.

Lemma N_range_nil a b : (b ≤ a)%N → N_range a b = [].
Proof. unfold N_range. intros. by replace (N.to_nat (b - a)) with 0%nat by lia. Qed.

Lemma N_range_snoc a b : (a ≤ b)%N → N_range a (b + 1) = N_range a b ++ [b].
Proof.
  unfold N_range. intros.
  replace (N.to_nat (b + 1 - a)) with (S (N.to_nat (b - a))) by lia.
  rewrite seq_S, fmap_app. simpl. do 2 f_equal. lia.
Qed.

Lemma N_range_cons a b : (a < b)%N → N_range a b = a :: N_range (a + 1) b.
Proof.
  unfold N_range. intros.
  replace (N.to_nat (b - a)) with (S (N.to_nat (b - (a + 1)))) by lia.
  simpl. f_equal; [lia|]. rewrite <-fmap_S_seq, <-list_fmap_compose.
  apply list_fmap_ext. intros. simpl. lia.
Qed.

#[export] Hint Resolve checked_add_fits checked_sub_fits : valence.

(** ** Lists *)
Lemma StronglySorted_irrefl_NoDup {A} (R : relation A) `{!Irreflexive R} l :
  StronglySorted R l → NoDup l.
Proof.
  induction 1 as [|x l _ IH Hx]; constructor; [|done].
  rewrite Forall_forall in Hx. intros Hin%Hx. by apply irreflexivity in Hin.
Qed.
Lemma Forall2_elem_r {A B} (P : A → B → Prop) l k y :
  Forall2 P l k → y ∈ k → ∃ x, x ∈ l ∧ P x y.
Proof.
  induction 1 as [|x z l k Hxz _ IH]; [by intros ?%elem_of_nil|].
  intros [->|(x' & ? & ?)%IH]%elem_of_cons; [exists x|exists x']; split; try done; set_solver.
Qed.
Lemma Forall2_elem_l {A B} (P : A → B → Prop) l k x :
  Forall2 P l k → x ∈ l → ∃ y, y ∈ k ∧ P x y.
Proof. intros Hf%Forall2_flip Hx. by eapply Forall2_elem_r in Hf as (y & ? & ?); [exists y|]. Qed.

(** ** Loops over results *)
Lemma mapM_result_Forall2 {E A B} (f : A → result E B) l k :
  mapM f l = Ok k ↔ Forall2 (λ x y, f x = Ok y) l k.
Proof.
  split.
  - revert k. induction l as [|x l IH]; intros k; simpl.
    + intros [= <-]. constructor.
    + intros (y & Hy & (ys & Hys & [= <-])%bind_result_ok)%bind_result_ok. constructor; auto.
  - induction 1 as [|x y l k Hxy _ IH]; simpl; [done|]. rewrite Hxy. simpl. by rewrite IH.
Qed.
Lemma expect_r_ok {E A} (o : option A) (a : A) : (expect_r o : result E A) = Ok a → o = Some a.
Proof. destruct o; naive_solver. Qed.
Lemma ok_or_r_ok {E A} (o : option A) (e : E) a : ok_or_r o e = Ok a ↔ o = Some a.
Proof. unfold ok_or_r. destruct o; naive_solver. Qed.
Lemma ensure_r_ok {E} c (e : E) u : ensure_r c e = Ok u ↔ c = true.
Proof. unfold ensure_r. destruct c, u; naive_solver. Qed.
Lemma map_err_r_ok {E1 E2 A} (f : E1 → E2) (r : result E1 A) a : map_err_r f r = Ok a ↔ r = Ok a.
Proof. unfold map_err_r. destruct r; naive_solver. Qed.

(** ** Sums *)
Definition sumN {A} (f : A → N) (l : list A) : N := foldr (λ x acc, (f x + acc)%N) 0%N l.
Section Sums.
Context {A : Type}.
Implicit Types (f g : A → N) (l : list A).
Open Scope N_scope.
Lemma sumN_cons f x l : sumN f (x :: l) = f x + sumN f l.
Proof. done. Qed.
#[local] Arguments sumN : simpl never.
Lemma sumN_app f l k : sumN f (l ++ k) = sumN f l + sumN f k.
Proof. induction l as [|x l IH]; [done|]. rewrite <-app_comm_cons, !sumN_cons, IH. lia. Qed.
Lemma sumN_elem f x l : x ∈ l → f x ≤ sumN f l.
Proof. induction 1 as [|y x l _ IH]; rewrite sumN_cons; lia. Qed.
Lemma sumN_zero f l : (∀ x, x ∈ l → f x = 0) → sumN f l = 0.
Proof.
  induction l as [|x l IH]; intros Hf; [done|]. rewrite ?sumN_cons.
  rewrite (Hf x), IH; [done| |by left]. intros y Hy. apply Hf. by right.
Qed.
Lemma sumN_pos f l : 0 < sumN f l → ∃ x, x ∈ l ∧ 0 < f x.
Proof.
  induction l as [|x l IH]; [done|]. rewrite sumN_cons. intros Hs.
  destruct (N.eq_dec (f x) 0) as [Hx|Hx].
  - destruct IH as (y & ? & ?); [lia|]. exists y. split; [by right|done].
  - exists x. split; [by left|lia].
Qed.
Lemma sumN_filter f (P : A → Prop) `{∀ x, Decision (P x)} l :
  sumN f (filter P l) = sumN (λ x, if decide (P x) then f x else 0) l.
Proof.
  induction l as [|x l IH]; [done|]. rewrite filter_cons, sumN_cons, <-IH.
  case_decide; rewrite ?sumN_cons; lia.
Qed.
Lemma sumN_ext f g l : (∀ x, x ∈ l → f x = g x) → sumN f l = sumN g l.
Proof.
  induction l as [|x l IH]; intros Hf; [done|]. rewrite ?sumN_cons.
  rewrite (Hf x), IH; [done| |by left]. intros y Hy. apply Hf. by right.
Qed.
(** The sum of the rounded parts of [b] is at most the rounded part of the sum. *)
Lemma sumN_div_le f (b d : N) l : d ≠ 0 → sumN (λ x, b * f x / d) l ≤ b * sumN f l / d.
Proof.
  intros Hd. induction l as [|x l IH]; [apply N.le_0_l|]. rewrite !sumN_cons.
  rewrite N.mul_add_distr_l. etransitivity; [apply N.add_le_mono_l, IH|].
  apply N.div_le_lower_bound; [done|]. rewrite N.mul_add_distr_l.
  apply N.add_le_mono; by apply N.mul_div_le.
Qed.
End Sums.
Lemma sumN_Forall2 {A B} (f : A → N) (g : B → N) l k :
  Forall2 (λ x y, f x = g y) l k → sumN f l = sumN g k.
Proof. induction 1 as [|x y l k Hxy _ IH]; [done|]. by rewrite !sumN_cons, Hxy, IH. Qed.
