(* ===== verification/Platform.v ===== *)
(** * The CosmWasm platform as the contracts see it

    Data of [cosmwasm_std], [cw_storage_plus], [cw_utils] and [cw_ownable] that
    the contracts build and take apart, the storage cells ([Item], [Map]) as
    finite maps, and, as type classes, the functions of those packages (and of
    [serde_json]) that the contracts call.  None of that code is part of the
    repository: the contracts are modelled for every implementation of the
    classes, and the laws a theorem needs are the [...Laws] classes. *)
From Stdlib Require Import Strings.Byte.
From S2P Require Import Prelude.

Abbreviation Addr := string (only parsing).
(** [Vec<u8>]: [Binary] and [HexBinary]. *)
Abbreviation Binary := (list byte) (only parsing).

#[global] Instance byte_eq_dec : EqDecision byte := Byte.byte_eq_dec.

(** ** cosmwasm_std *)
Inductive StdError :=
| GenericErr (msg : string)
| NotFound
| ExternalErr (msg : string).

Record Coin := mkCoin { coin_denom : string; coin_amount : N }.

Inductive WasmMsg :=
| WasmExecute (contract_addr : string) (msg : Binary) (funds : list Coin)
| WasmMigrate (contract_addr : string) (new_code_id : N) (msg : Binary)
| WasmInstantiate (admin : option string) (code_id : N) (msg : Binary) (funds : list Coin) (label : string).

Inductive CosmosMsg :=
| CosmosWasm (m : WasmMsg)
| CosmosBankSend (to_address : string) (amount : list Coin)
| CosmosStargate (type_url : string) (value : Binary)
(** [IbcMsg::Transfer], with a timeout as a time stamp (in nanoseconds). *)
| CosmosIbcTransfer (channel_id to_address : string) (amount : Coin) (timeout : N)
    (memo : option string).

Inductive ReplyOn := ReplyNever | ReplyAlways | ReplySuccess.
(** [gas_limit] is never set by the contracts. *)
Record SubMsg := mkSubMsg { sub_id : N; sub_msg : CosmosMsg; sub_reply_on : ReplyOn; sub_payload : Binary }.

Record Response := mkResponse {
  resp_messages : list SubMsg;
  resp_attributes : list (string * string);
}.
Definition Response_new : Response := mkResponse [] [].
(** [SubMsg::new]: a message without reply. *)
Definition SubMsg_new (m : CosmosMsg) : SubMsg := mkSubMsg 0 m ReplyNever [].
Definition SubMsg_reply_always (m : WasmMsg) (id : N) : SubMsg :=
  mkSubMsg id (CosmosWasm m) ReplyAlways [].
Definition SubMsg_reply_on_success (m : CosmosMsg) (id : N) : SubMsg := mkSubMsg id m ReplySuccess [].
(** [SubMsg::with_payload]. *)
Definition with_payload (payload : Binary) (m : SubMsg) : SubMsg :=
  mkSubMsg (sub_id m) (sub_msg m) (sub_reply_on m) payload.
Definition add_submessages (ms : list SubMsg) (r : Response) : Response :=
  mkResponse (resp_messages r ++ ms) (resp_attributes r).
Definition add_messages (ms : list CosmosMsg) (r : Response) : Response :=
  add_submessages (SubMsg_new <$> ms) r.
Definition add_message (m : CosmosMsg) (r : Response) : Response := add_messages [m] r.
Definition add_attribute (k v : string) (r : Response) : Response :=
  mkResponse (resp_messages r) (resp_attributes r ++ [(k, v)]).

Definition add_attributes (kvs : list (string * string)) (r : Response) : Response :=
  mkResponse (resp_messages r) (resp_attributes r ++ kvs).

(** [block_time] is in nanoseconds. *)
Record BlockInfo := mkBlock { block_height : N; block_time : N }.
Record Env := mkEnv { env_block : BlockInfo; env_contract : Addr }.
Record MessageInfo := mkInfo { info_sender : Addr; info_funds : list Coin }.
Inductive SubMsgResult := SubMsgOk | SubMsgErr (error : string).
Record Reply := mkReply { reply_id : N; reply_result : SubMsgResult }.

(** ** cw_utils *)
Inductive Expiration := AtHeight (h : N) | AtTime (t : N) | Never.
Inductive Duration := DurHeight (h : N) | DurTime (secs : N).

(** ** Token factory messages ([neutron_sdk], [cosmos_sdk_proto]) *)
Record ProtoCoin := mkProtoCoin { proto_denom : string; proto_amount : string }.
Record MsgCreateDenom := mkMsgCreateDenom { cd_sender : string; cd_subdenom : string }.
Record MsgMint := mkMsgMint {
  mm_sender : string;
  mm_amount : option ProtoCoin;
  mm_mint_to_address : string;
}.
Record MsgBurn := mkMsgBurn {
  mb_sender : string;
  mb_amount : option ProtoCoin;
  mb_burn_from_address : string;
}.

(** ** cw_ownable *)
Record Ownership := mkOwnership {
  own_owner : option Addr;
  own_pending_owner : option Addr;
  own_pending_expiry : option Expiration;
}.
Inductive OwnableAction :=
| TransferOwnership (new_owner : string) (expiry : option Expiration)
| AcceptOwnership
| RenounceOwnership.
Inductive OwnershipError := OwnershipErr (msg : string).

#[global] Instance Expiration_eq_dec : EqDecision Expiration. Proof. solve_decision. Defined.
#[global] Instance Duration_eq_dec : EqDecision Duration. Proof. solve_decision. Defined.
#[global] Instance StdError_eq_dec : EqDecision StdError. Proof. solve_decision. Defined.

(** ** Storage cells ([cw_storage_plus]) *)
Section Storage.
Context {S E : Type} `{From StdError E}.

Definition item_load {T} (l : lens S (option T)) : Exec S E T := λ s,
  match lget l s with Some x => Ok (x, s) | None => Err (from NotFound) end.
Definition item_save {T} (l : lens S (option T)) (x : T) : Exec S E unit := λ s,
  Ok ((), lset l (Some x) s).

Context {K : Type} `{Countable K} {V : Type}.

Definition map_load (l : lens S (gmap K V)) (k : K) : Exec S E V := λ s,
  match lget l s !! k with Some x => Ok (x, s) | None => Err (from NotFound) end.
Definition map_may_load (l : lens S (gmap K V)) (k : K) : Exec S E (option V) := λ s,
  Ok (lget l s !! k, s).
Definition map_has (l : lens S (gmap K V)) (k : K) : Exec S E bool := λ s,
  Ok (match lget l s !! k with Some _ => true | None => false end, s).
Definition map_save (l : lens S (gmap K V)) (k : K) (x : V) : Exec S E unit := λ s,
  Ok ((), lset l (<[k := x]> (lget l s)) s).
Definition map_remove (l : lens S (gmap K V)) (k : K) : Exec S E unit := λ s,
  Ok ((), lset l (delete k (lget l s)) s).
(** [Map::update]: the action sees the stored value, and its result is saved. *)
Definition map_update (l : lens S (gmap K V)) (k : K) (action : option V → result E V)
    : Exec S E unit :=
  cur ← map_may_load l k;
  v ← of_result (action cur);
  map_save l k v.
End Storage.

(** [Map::range] in ascending key order, from an exclusive lower bound. *)
Section Range.
Context {K V : Type} `{Countable K} (leb : K → K → bool).
Definition map_range (m : gmap K V) (start_after : option K) : list (K * V) :=
  filter (λ kv, Is_true (match start_after with
                         | Some k0 => negb (leb kv.1 k0)
                         | None => true
                         end))
    (merge_sort (λ x y : K * V, Is_true (leb x.1 y.1)) (map_to_list m)).
End Range.

(** A query to the contract at an address; the host reports a failed query with a text. *)
Definition query_contract {S A} (querier_error : StdError → string) (contracts : gmap Addr S)
    (addr : Addr) (f : S → result StdError A) : result StdError A :=
  match contracts !! addr with
  | Some s => map_err_r (λ e, GenericErr (querier_error e)) (f s)
  | None => Err (GenericErr "contract not found")
  end.

(** ** Interfaces of the packages *)

(** [cosmwasm_std] and [cw_utils] functions. A [None] is a panic. *)
Class Platform := {
  addr_validate : string → result StdError Addr;
  timestamp_seconds : N → N;
  timestamp_plus_seconds : N → N → option N;
  is_expired : Expiration → BlockInfo → bool;
  duration_after : Duration → BlockInfo → option Expiration;
  must_pay : MessageInfo → string → result StdError N;
  hex_from_hex : string → result StdError Binary;
}.

Class PlatformLaws `{Platform} : Prop := {
  addr_validate_same a x : addr_validate a = Ok x → x = a;
  is_expired_never b : is_expired Never b = false;
  is_expired_height h b : is_expired (AtHeight h) b = (h <=? block_height b)%N;
  is_expired_time t b : is_expired (AtTime t) b = (t <=? block_time b)%N;
  duration_after_height h b e : duration_after (DurHeight h) b = Some e →
    e = AtHeight (block_height b + h)%N;
  duration_after_time t b e : duration_after (DurTime t) b = Some e →
    e = AtTime (block_time b + t * 1000000000)%N;
  must_pay_one denom sender amount : (0 < amount)%N →
    must_pay (mkInfo sender [mkCoin denom amount]) denom = Ok amount;
  must_pay_none denom sender : ∃ e, must_pay (mkInfo sender []) denom = Err e;
}.

(** [to_json_binary] and [from_json] at a type. *)
Class JsonCodec (A : Type) := {
  to_json_binary : A → result StdError Binary;
  from_json : Binary → result StdError A;
}.

Class JsonCodecLaws (A : Type) `{JsonCodec A} : Prop := {
  to_json_total x : ∃ b, to_json_binary x = Ok b;
  from_to_json x b : to_json_binary x = Ok b → from_json b = Ok x;
}.

(** [serde_json]: values, with [as_object] giving the entries of an object in
    iteration order. *)
Class SerdeJson := {
  Value : Type;
  value_from_slice : Binary → result string Value;
  value_to_vec : Value → result string Binary;
  value_object : list (string * Value) → Value;
  as_object : Value → option (list (string * Value));
  object_insert : list (string * Value) → string → Value → list (string * Value);
  value_u64 : N → Value;
  value_get : Value → string → option Value;
  value_pointer : Value → string → option Value;
  value_eqb : Value → Value → bool;
}.

(** [MessageExt::to_bytes]; [None] is its error, on which the code panics. *)
Class TokenFactoryProto := {
  MsgCreateDenom_to_bytes : MsgCreateDenom → option Binary;
  MsgMint_to_bytes : MsgMint → option Binary;
  MsgBurn_to_bytes : MsgBurn → option Binary;
}.

Class TokenFactoryProtoLaws `{TokenFactoryProto} : Prop := {
  MsgCreateDenom_total m : is_Some (MsgCreateDenom_to_bytes m);
  MsgMint_total m : is_Some (MsgMint_to_bytes m);
  MsgBurn_total m : is_Some (MsgBurn_to_bytes m);
}.

(** [cw_ownable], on the ownership record it keeps in the contract's storage. *)
Class CwOwnable := {
  initialize_owner : option string → result StdError Ownership;
  assert_owner : option Ownership → Addr → result OwnershipError unit;
  is_owner : option Ownership → Addr → result StdError bool;
  update_ownership_lib : option Ownership → BlockInfo → Addr → OwnableAction →
    result OwnershipError Ownership;
  into_attributes : Ownership → list (string * string);
}.

Class CwOwnableLaws `{CwOwnable} : Prop := {
  assert_owner_spec o a : assert_owner o a = Ok () ↔
    ∃ ow, o = Some ow ∧ own_owner ow = Some a;
  is_owner_spec o a b : is_owner (Some o) a = Ok b ↔ b = bool_decide (own_owner o = Some a);
}.

(** ** Facts about the storage cells *)
Section StorageFacts.
Context {S E : Type} `{From StdError E}.

Lemma item_load_ok {T} (l : lens S (option T)) s x s' :
  (item_load l : Exec S E T) s = Ok (x, s') ↔ lget l s = Some x ∧ s' = s.
Proof. unfold item_load. case_match; naive_solver. Qed.
Lemma item_save_ok {T} (l : lens S (option T)) x s u s' :
  (item_save l x : Exec S E unit) s = Ok (u, s') ↔ s' = lset l (Some x) s.
Proof. unfold item_save. destruct u. naive_solver. Qed.

Context {K : Type} `{Countable K} {V : Type} (l : lens S (gmap K V)).
Lemma map_load_ok k s x s' :
  (map_load l k : Exec S E V) s = Ok (x, s') ↔ lget l s !! k = Some x ∧ s' = s.
Proof. unfold map_load. case_match; naive_solver. Qed.
Lemma map_may_load_ok k s x s' :
  (map_may_load l k : Exec S E (option V)) s = Ok (x, s') ↔ lget l s !! k = x ∧ s' = s.
Proof. unfold map_may_load. naive_solver. Qed.
Lemma map_has_ok k s b s' :
  (map_has l k : Exec S E bool) s = Ok (b, s') ↔
  b = bool_decide (is_Some (lget l s !! k)) ∧ s' = s.
Proof.
  unfold map_has. destruct (lget l s !! k) as [v|].
  - rewrite bool_decide_eq_true_2 by eauto. naive_solver.
  - rewrite bool_decide_eq_false_2 by (intros [??]; done). naive_solver.
Qed.
Lemma map_save_ok k x s u s' :
  (map_save l k x : Exec S E unit) s = Ok (u, s') ↔ s' = lset l (<[k:=x]> (lget l s)) s.
Proof. unfold map_save. destruct u. naive_solver. Qed.
Lemma map_remove_ok k s u s' :
  (map_remove l k : Exec S E unit) s = Ok (u, s') ↔ s' = lset l (delete k (lget l s)) s.
Proof. unfold map_remove. destruct u. naive_solver. Qed.
Lemma map_update_ok k f s u s' :
  (map_update l k f : Exec S E unit) s = Ok (u, s') ↔
  ∃ v, f (lget l s !! k) = Ok v ∧ s' = lset l (<[k:=v]> (lget l s)) s.
Proof.
  unfold map_update. split.
  - intros Hu. exec_inv. apply map_may_load_ok in H1 as [-> ->].
    apply map_save_ok in Hu as ->. eauto.
  - intros (v & Hv & ->). unfold mbind, Exec_bind, map_may_load, of_result.
    rewrite Hv. unfold map_save. by destruct u.
Qed.
End StorageFacts.

Lemma StronglySorted_filter {A} (R : relation A) (P : A → Prop) `{∀ x, Decision (P x)} l :
  StronglySorted R l → StronglySorted R (filter P l).
Proof.
  induction 1 as [|x l Hl IH Hx]; [constructor|]. rewrite filter_cons. case_decide; [|done].
  constructor; [done|]. rewrite Forall_forall in *. intros y [_ ?]%list_elem_of_filter. auto.
Qed.

(** [Map::range] enumerates the map, without repetition, in key order. *)
Section RangeFacts.
Context {K V : Type} `{Countable K} (leb : K → K → bool).
Implicit Types m : gmap K V.
Abbreviation key_le := (λ x y : K * V, Is_true (leb x.1 y.1)).

Lemma elem_of_map_range m k v : (k, v) ∈ map_range leb m None ↔ m !! k = Some v.
Proof.
  unfold map_range. rewrite list_elem_of_filter, merge_sort_Permutation, elem_of_map_to_list.
  naive_solver.
Qed.
Lemma NoDup_map_range m start : NoDup (map_range leb m start).
Proof. apply NoDup_filter. rewrite merge_sort_Permutation. apply NoDup_map_to_list. Qed.
Lemma StronglySorted_map_range m start :
  Transitive key_le → Total key_le → StronglySorted key_le (map_range leb m start).
Proof. intros ??. by apply StronglySorted_filter, StronglySorted_merge_sort. Qed.
End RangeFacts.

(** ** Computations that only read the storage *)
Class ReadOnly {S E A} (m : Exec S E A) : Prop :=
  read_only s a s' : m s = Ok (a, s') → s' = s.
Section ReadOnlyInstances.
Context {S E : Type}.
#[global] Instance mret_read_only {A} (a : A) : ReadOnly (mret a : Exec S E A).
Proof. by intros ??? [_ ->]%mret_ok. Qed.
#[global] Instance mbind_read_only {A B} (m : Exec S E A) (k : A → Exec S E B) :
  ReadOnly m → (∀ x, ReadOnly (k x)) → ReadOnly (mbind k m).
Proof. intros Hm Hk s b s' (a & s1 & H1 & H2)%Exec_bind_ok. by apply Hm in H1 as ->; apply Hk in H2. Qed.
#[global] Instance fail_read_only {A} (e : E) : ReadOnly (fail e : Exec S E A).
Proof. by intros ???. Qed.
#[global] Instance panic_read_only {A} : ReadOnly (panic : Exec S E A).
Proof. by intros ???. Qed.
#[global] Instance fail_if_read_only c (e : E) : ReadOnly (fail_if c e : Exec S E unit).
Proof. by intros ??? [_ ->]%fail_if_ok. Qed.
#[global] Instance expect_read_only {A} (o : option A) : ReadOnly (expect o : Exec S E A).
Proof. by intros ??? [_ ->]%expect_ok. Qed.
#[global] Instance ok_or_read_only {A} (o : option A) e : ReadOnly (ok_or o e : Exec S E A).
Proof. by intros ??? [_ ->]%ok_or_ok. Qed.
#[global] Instance of_result_read_only {E' A} `{From E' E} (r : result E' A) :
  ReadOnly (of_result r : Exec S E A).
Proof. by intros ??? [_ ->]%of_result_ok. Qed.
#[global] Instance get_storage_read_only : ReadOnly (get_storage : Exec S E S).
Proof. by intros ??? [_ ->]%get_storage_ok. Qed.
#[global] Instance lift_read_only {E1 A} `{From E1 E} (m : Exec S E1 A) :
  ReadOnly m → ReadOnly (lift m : Exec S E A).
Proof. intros Hm s a s' Hl%lift_ok. by eapply Hm. Qed.
#[global] Instance map_err_read_only {E1 A} e (m : Exec S E1 A) :
  ReadOnly m → ReadOnly (map_err e m : Exec S E A).
Proof. intros Hm s a s' Hl%map_err_ok. by eapply Hm. Qed.
#[global] Instance for_each_read_only {A} (l : list A) (body : A → Exec S E unit) :
  (∀ x, ReadOnly (body x)) → ReadOnly (for_each l body).
Proof. intros Hb. induction l; simpl; apply _. Qed.
#[global] Instance fold_each_read_only {A B} (l : list A) (acc : B) (body : B → A → Exec S E B) :
  (∀ acc x, ReadOnly (body acc x)) → ReadOnly (fold_each l acc body).
Proof. intros Hb. revert acc. induction l; simpl; apply _. Qed.

Context `{From StdError E}.
#[global] Instance item_load_read_only {T} (l : lens S (option T)) :
  ReadOnly (item_load l : Exec S E T).
Proof. by intros ??? [_ ->]%item_load_ok. Qed.
Context {K : Type} `{Countable K} {V : Type} (l : lens S (gmap K V)).
#[global] Instance map_load_read_only k : ReadOnly (map_load l k : Exec S E V).
Proof. by intros ??? [_ ->]%map_load_ok. Qed.
#[global] Instance map_may_load_read_only k : ReadOnly (map_may_load l k : Exec S E (option V)).
Proof. by intros ??? [_ ->]%map_may_load_ok. Qed.
#[global] Instance map_has_read_only k : ReadOnly (map_has l k : Exec S E bool).
Proof. by intros ??? [_ ->]%map_has_ok. Qed.
End ReadOnlyInstances.
(** The branches of a computation. *)
#[export] Hint Extern 5 (ReadOnly (match ?x with _ => _ end)) => destruct x : typeclass_instances.

(** Extends [exec_inv] with the storage operations. *)
Ltac storage_inv_step :=
  match goal with
  | H : item_load _ _ = Ok (_, _) |- _ => apply item_load_ok in H as [? ?]
  | H : item_save _ _ _ = Ok (_, _) |- _ => apply item_save_ok in H
  | H : map_load _ _ _ = Ok (_, _) |- _ => apply map_load_ok in H as [? ?]
  | H : map_may_load _ _ _ = Ok (_, _) |- _ => apply map_may_load_ok in H as [? ?]
  | H : map_has _ _ _ = Ok (_, _) |- _ => apply map_has_ok in H as [? ?]
  | H : map_save _ _ _ _ = Ok (_, _) |- _ => apply map_save_ok in H
  | H : map_remove _ _ _ = Ok (_, _) |- _ => apply map_remove_ok in H
  | H : map_update _ _ _ _ = Ok (_, _) |- _ => apply map_update_ok in H as (? & H & ?)
  end.
(** A read-only computation leaves the storage as it was. *)
Ltac read_only_step :=
  match goal with
  | H : ?m ?s = Ok (?a, ?s') |- _ =>
      is_var s';
      first [constr_eq s s'; fail 1 |
        let E := fresh in
        assert (s' = s) as E by (exact (read_only s a s' H)); subst s']
  end.
Ltac run_inv :=
  repeat (first [exec_inv_step | storage_inv_step | read_only_step]; simplify_eq/=).
Ltac run_case :=
  repeat (first [exec_inv_step | storage_inv_step | read_only_step | case_match]; simplify_eq/=).
