(* ===== verification/Types.v ===== *)
(** * Shared message and data types

    The types of [packages/authorization-utils], [packages/processor-utils],
    [packages/gmp-utils] and [packages/encoder-utils] that the authorization
    contract and the processor exchange, with their methods. *)
From Stdlib Require Import Strings.Byte Strings.Ascii.
From S2P Require Import Prelude Platform.

(** ** [authorization-utils/domain.rs] *)
Inductive Domain := DomainMain | DomainExternal (name : string).

Inductive PolytoneProxyState :=
| ProxyTimedOut
| ProxyPendingResponse
| ProxyCreated
| ProxyUnexpectedError (error : string).

Record PolytoneNote := mkPolytoneNote {
  note_address : Addr;
  note_timeout_seconds : N;
  note_state : PolytoneProxyState;
}.
Record PolytoneConnectors := mkPolytoneConnectors {
  polytone_note : PolytoneNote;
  polytone_proxy : Addr;
}.
Definition get_polytone_proxy_state (c : PolytoneConnectors) : PolytoneProxyState :=
  note_state (polytone_note c).
Definition set_polytone_proxy_state (c : PolytoneConnectors) (st : PolytoneProxyState)
    : PolytoneConnectors :=
  mkPolytoneConnectors
    (mkPolytoneNote (note_address (polytone_note c)) (note_timeout_seconds (polytone_note c)) st)
    (polytone_proxy c).

Record Encoder := mkEncoder { broker_address : Addr; encoder_version : string }.
Record HyperlaneConnector := mkHyperlaneConnector { mailbox : Addr; domain_id : N }.
Inductive CosmwasmBridge := Polytone_ (c : PolytoneConnectors).
Inductive EvmBridge := Hyperlane_ (c : HyperlaneConnector).
Inductive ExecutionEnvironment :=
| EnvCosmwasm (bridge : CosmwasmBridge)
| EnvEvm (encoder : Encoder) (bridge : EvmBridge).
Record ExternalDomain := mkExternalDomain {
  ed_name : string;
  execution_environment : ExecutionEnvironment;
  ed_processor : string;
}.

Definition get_connector_address (e : ExecutionEnvironment) : Addr :=
  match e with
  | EnvCosmwasm (Polytone_ c) => note_address (polytone_note c)
  | EnvEvm _ (Hyperlane_ c) => mailbox c
  end.
Definition get_callback_address (e : ExecutionEnvironment) : Addr :=
  match e with
  | EnvCosmwasm (Polytone_ c) => polytone_proxy c
  | EnvEvm _ (Hyperlane_ c) => mailbox c
  end.

(** ** [library-utils/library_account_type.rs] *)
Inductive LibraryAccountType :=
| LibAddr (addr : string)
| LibAccountId (id : N)
| LibLibraryId (id : N).
Definition lib_to_string (l : LibraryAccountType) : result StdError string :=
  match l with
  | LibAddr a => Ok a
  | LibAccountId _ | LibLibraryId _ => Err (GenericErr "LibraryAccountType must be an address")
  end.

(** ** [authorization-utils/authorization_message.rs] *)
Record EncoderInfo := mkEncoderInfo {
  info_broker_address : string;
  info_encoder_version : string;
}.
Inductive MessageType :=
| TyCosmwasmExecuteMsg
| TyCosmwasmMigrateMsg
| TyEvmCall (encoder : EncoderInfo) (library : string)
| TyEvmRawCall.
Inductive ParamRestriction :=
| MustBeIncluded (keys : list string)
| CannotBeIncluded (keys : list string)
| MustBeValue (keys : list string) (value : Binary)
| MustBeBytes (value : Binary).
Record Message := mkMessage {
  msg_name : string;
  params_restrictions : option (list ParamRestriction);
}.
Record MessageDetails := mkMessageDetails { message_type : MessageType; message : Message }.

(** ** [authorization-utils/function.rs] *)
Inductive RetryTimes := Indefinitely | Amount (n : N).
Record RetryLogic := mkRetryLogic { times : RetryTimes; interval : Duration }.
Record FunctionCallback := mkFunctionCallback {
  fc_contract_address : Addr;
  fc_callback_message : Binary;
}.
Record AtomicFunction := mkAtomicFunction {
  af_domain : Domain;
  af_message_details : MessageDetails;
  af_contract_address : LibraryAccountType;
}.
Record NonAtomicFunction := mkNonAtomicFunction {
  nf_domain : Domain;
  nf_message_details : MessageDetails;
  nf_contract_address : LibraryAccountType;
  nf_retry_logic : option RetryLogic;
  callback_confirmation : option FunctionCallback;
}.

(** The trait [Function]; [get_contract_address] unwraps, so it can panic. *)
Class Function (T : Type) := {
  fn_domain : T → Domain;
  fn_message_details : T → MessageDetails;
  fn_contract_address : T → option string;
}.
Definition unwrap_result {E A} (r : result E A) : option A :=
  match r with Ok a => Some a | _ => None end.
#[global] Instance AtomicFunction_Function : Function AtomicFunction := {
  fn_domain := af_domain;
  fn_message_details := af_message_details;
  fn_contract_address f := unwrap_result (lib_to_string (af_contract_address f));
}.
#[global] Instance NonAtomicFunction_Function : Function NonAtomicFunction := {
  fn_domain := nf_domain;
  fn_message_details := nf_message_details;
  fn_contract_address f := unwrap_result (lib_to_string (nf_contract_address f));
}.

(** ** [authorization-utils/authorization.rs] *)
Record AtomicSubroutine := mkAtomicSubroutine {
  as_functions : list AtomicFunction;
  as_retry_logic : option RetryLogic;
  as_expiration_time : option N;
}.
Record NonAtomicSubroutine := mkNonAtomicSubroutine {
  ns_functions : list NonAtomicFunction;
  ns_expiration_time : option N;
}.
Inductive Subroutine :=
| Atomic (config : AtomicSubroutine)
| NonAtomic (config : NonAtomicSubroutine).

(** [&dyn Function]. *)
Inductive DynFunction := DynAtomic (f : AtomicFunction) | DynNonAtomic (f : NonAtomicFunction).
#[global] Instance DynFunction_Function : Function DynFunction := {
  fn_domain d := match d with DynAtomic f => fn_domain f | DynNonAtomic f => fn_domain f end;
  fn_message_details d :=
    match d with DynAtomic f => fn_message_details f | DynNonAtomic f => fn_message_details f end;
  fn_contract_address d :=
    match d with DynAtomic f => fn_contract_address f | DynNonAtomic f => fn_contract_address f end;
}.
Definition get_function_by_index (s : Subroutine) (index : N) : option DynFunction :=
  match s with
  | Atomic c => DynAtomic <$> vec_get (as_functions c) index
  | NonAtomic c => DynNonAtomic <$> vec_get (ns_functions c) index
  end.
(** [unwrap_or_default] on the missing function; the outer [option] is the
    panic of [get_contract_address]. *)
Definition get_contract_address_by_function_index (s : Subroutine) (index : N) : option string :=
  match get_function_by_index s index with
  | Some f => fn_contract_address f
  | None => Some ""
  end.
Definition get_expiration_time (s : Subroutine) : option N :=
  match s with
  | Atomic c => as_expiration_time c
  | NonAtomic c => ns_expiration_time c
  end.

Inductive Priority := Medium | High.

(** ** [authorization-utils/msg.rs]: processor messages *)
Inductive ProcessorMessage :=
| CosmwasmExecuteMsg (msg : Binary)
| CosmwasmMigrateMsg (code_id : N) (msg : Binary)
| EvmCall (msg : Binary)
| EvmRawCall (msg : Binary).

(** [impl PartialEq<MessageType> for ProcessorMessage]. *)
Definition message_matches_type (m : ProcessorMessage) (t : MessageType) : bool :=
  match m, t with
  | CosmwasmExecuteMsg _, TyCosmwasmExecuteMsg => true
  | CosmwasmMigrateMsg _ _, TyCosmwasmMigrateMsg => true
  | EvmCall _, TyEvmCall _ _ => true
  | EvmRawCall _, TyEvmRawCall => true
  | _, _ => false
  end.
Definition get_msg (m : ProcessorMessage) : Binary :=
  match m with
  | CosmwasmExecuteMsg msg => msg
  | CosmwasmMigrateMsg _ msg => msg
  | EvmCall msg => msg
  | EvmRawCall msg => msg
  end.
Definition set_msg (m : ProcessorMessage) (msg : Binary) : ProcessorMessage :=
  match m with
  | CosmwasmExecuteMsg _ => CosmwasmExecuteMsg msg
  | CosmwasmMigrateMsg code_id _ => CosmwasmMigrateMsg code_id msg
  | EvmCall _ => EvmCall msg
  | EvmRawCall _ => EvmRawCall msg
  end.
Definition to_wasm_message (m : ProcessorMessage) (contract_addr : string)
    : result StdError WasmMsg :=
  match m with
  | CosmwasmExecuteMsg msg => Ok (WasmExecute contract_addr msg [])
  | CosmwasmMigrateMsg code_id msg => Ok (WasmMigrate contract_addr code_id msg)
  | EvmCall _ | EvmRawCall _ => Err (GenericErr "Msg type not supported")
  end.

(** The messages of the authorization module for a processor. *)
Inductive AuthorizationMsg :=
| EnqueueMsgs (id : N) (msgs : list ProcessorMessage) (subroutine : Subroutine)
    (priority : Priority) (expiration_time : option N)
| EvictMsgs (queue_position : N) (priority : Priority)
| InsertMsgs (queue_position id : N) (msgs : list ProcessorMessage) (subroutine : Subroutine)
    (priority : Priority) (expiration_time : option N)
| Pause
| Resume.

(** ** [authorization-utils/callback.rs] *)
Inductive OperationInitiator := InitOwner | InitUser (addr : Addr).
Inductive ExecutionResult :=
| InProcess
| Success
| Rejected (error : string)
| PartiallyExecuted (executed : N) (error : string)
| RemovedByOwner
| Timeout (retriable : bool)
| Expired (executed : N)
| UnexpectedError (error : string).
Record ProcessorCallbackInfo := mkProcessorCallbackInfo {
  cb_execution_id : N;
  cb_created_at : N;
  cb_last_updated_at : N;
  cb_initiator : OperationInitiator;
  cb_bridge_callback_address : option Addr;
  cb_processor_callback_address : Addr;
  cb_domain : Domain;
  cb_label : string;
  cb_messages : list ProcessorMessage;
  cb_ttl : option Expiration;
  cb_execution_result : ExecutionResult;
}.
Inductive InternalAuthorizationMsg :=
| ProcessorCallback (execution_id : N) (execution_result : ExecutionResult).

(** ** [gmp-utils/polytone.rs] *)
Record CallbackRequest := mkCallbackRequest { cr_receiver : string; cr_msg : Binary }.
Inductive PolytoneExecuteMsg :=
| PolytoneExecute (msgs : list CosmosMsg) (callback : option CallbackRequest)
    (timeout_seconds : N).
(** The content of a successful result is never read. *)
Inductive Callback :=
| CallbackQuery
| CallbackExecute (r : unit + string)
| CallbackFatalError (error : string).
Record CallbackMessage := mkCallbackMessage {
  initiator : Addr;
  initiator_msg : Binary;
  cm_result : Callback;
}.

(** ** [gmp-utils/hyperlane.rs] *)
Record DispatchMsg := mkDispatchMsg {
  dest_domain : N;
  recipient_addr : Binary;
  msg_body : Binary;
  hook : option string;
  metadata : option Binary;
}.
Inductive HyperlaneExecuteMsg := Dispatch (m : DispatchMsg).
Record HandleMsg := mkHandleMsg { hm_origin : N; hm_sender : Binary; hm_body : Binary }.

(** ** [authorization-utils/authorization.rs]: authorizations *)
Inductive PermissionTypeInfo :=
| WithCallLimitInfo (permissions : list (string * N))
| WithoutCallLimitInfo (permissions : list string).
Inductive AuthorizationModeInfo :=
| PermissionedInfo (p : PermissionTypeInfo)
| PermissionlessInfo.
Inductive PermissionType :=
| WithCallLimit (permissions : list (Addr * N))
| WithoutCallLimit (permissions : list Addr).
Inductive AuthorizationMode :=
| Permissioned (p : PermissionType)
| Permissionless.
Inductive AuthorizationDuration := Forever | Seconds (s : N) | Blocks (b : N).
Inductive AuthorizationState := Enabled | Disabled.
Record AuthorizationInfo := mkAuthorizationInfo {
  ai_label : string;
  ai_mode : AuthorizationModeInfo;
  ai_not_before : Expiration;
  ai_duration : AuthorizationDuration;
  ai_max_concurrent_executions : option N;
  ai_subroutine : Subroutine;
  ai_priority : option Priority;
}.
Record Authorization := mkAuthorization {
  label : string;
  mode : AuthorizationMode;
  not_before : Expiration;
  expiration : Expiration;
  max_concurrent_executions : N;
  subroutine : Subroutine;
  priority : Priority;
  state : AuthorizationState;
}.

(** ** [authorization-utils/zk_authorization.rs] *)
Record ZkAuthorizationInfo := mkZkAuthorizationInfo {
  zi_label : string;
  zi_mode : AuthorizationModeInfo;
  zi_registry : N;
  zi_vk : Binary;
  zi_verification_route : string;
  zi_metadata_hash : Binary;
  zi_validate_last_block_execution : bool;
}.
Record ZkAuthorization := mkZkAuthorization {
  zk_label : string;
  zk_mode : AuthorizationMode;
  zk_registry : N;
  zk_vk : Binary;
  zk_verification_route : string;
  zk_metadata_hash : Binary;
  zk_validate_last_block_execution : bool;
  zk_state : AuthorizationState;
}.
Record ZkMessage := mkZkMessage {
  zm_registry : N;
  zm_block_number : N;
  zm_domain : Domain;
  zm_authorization_contract : option string;
  zm_message : AuthorizationMsg;
}.

(** ** [authorization-utils/msg.rs]: the authorization contract's messages *)
Record PolytoneNoteInfo := mkPolytoneNoteInfo { ni_address : string; ni_timeout_seconds : N }.
Record PolytoneConnectorsInfo := mkPolytoneConnectorsInfo {
  ci_polytone_note : PolytoneNoteInfo;
  ci_polytone_proxy : string;
}.
Record HyperlaneConnectorInfo := mkHyperlaneConnectorInfo {
  hi_mailbox : string;
  hi_domain_id : N;
}.
Inductive CosmwasmBridgeInfo := PolytoneInfo (c : PolytoneConnectorsInfo).
Inductive EvmBridgeInfo := HyperlaneInfo (c : HyperlaneConnectorInfo).
Inductive ExecutionEnvironmentInfo :=
| EnvCosmwasmInfo (bridge : CosmwasmBridgeInfo)
| EnvEvmInfo (encoder : EncoderInfo) (bridge : EvmBridgeInfo).
Record ExternalDomainInfo := mkExternalDomainInfo {
  di_name : string;
  di_execution_environment : ExecutionEnvironmentInfo;
  di_processor : string;
}.
Record Mint := mkMint { mint_address : string; mint_amount : N }.
Inductive OwnerMsg := AddSubOwner (sub_owner : string) | RemoveSubOwner (sub_owner : string).
Inductive PermissionedMsg :=
| AddExternalDomains (external_domains : list ExternalDomainInfo)
| CreateAuthorizations (authorizations : list AuthorizationInfo)
| CreateZkAuthorizations (zk_authorizations : list ZkAuthorizationInfo)
| ModifyAuthorization (label : string) (not_before expiration : option Expiration)
    (max_concurrent_executions : option N) (priority : option Priority)
| ModifyZkAuthorization (label : string) (validate_last_block_execution : option bool)
| DisableAuthorization (label : string)
| EnableAuthorization (label : string)
| MintAuthorizations (label : string) (mints : list Mint)
| PermEvictMsgs (domain : Domain) (queue_position : N) (priority : Priority)
| PermInsertMsgs (label : string) (queue_position : N) (priority : Priority)
    (messages : list ProcessorMessage)
| PauseProcessor (domain : Domain)
| ResumeProcessor (domain : Domain)
| SetVerificationRouter (address : string)
| UpdateZkAuthorizationRoute (label new_route : string).
Inductive PermissionlessMsg :=
| SendMsgs (label : string) (messages : list ProcessorMessage) (ttl : option Expiration)
| RetryMsgs (execution_id : N)
| RetryBridgeCreation (domain_name : string)
| ExecuteZkAuthorization (label : string) (inputs proof payload : Binary).
Inductive AuthorizationExecuteMsg :=
| UpdateOwnership (action : OwnableAction)
| OwnerAction (m : OwnerMsg)
| PermissionedAction (m : PermissionedMsg)
| PermissionlessAction (m : PermissionlessMsg)
| InternalAuthorizationAction (m : InternalAuthorizationMsg)
| AuthPolytoneCallback (m : CallbackMessage)
| AuthHyperlaneCallback (m : HandleMsg).
(** [callback.rs]: what the authorization contract asks polytone to echo. *)
Inductive AuthPolytoneCallbackMsg := AuthExecutionID (id : N) | AuthCreateProxy (domain : string).

(** ** [processor-utils/processor.rs] *)
Record Polytone := mkPolytone {
  polytone_proxy_address : Addr;
  polytone_note_address : Addr;
  timeout_seconds : N;
  proxy_on_main_domain_state : PolytoneProxyState;
}.
Inductive ProcessorDomain := ProcMain | ProcExternal (p : Polytone).
Inductive ProcessorState := Paused | Active.
Record Config := mkConfig {
  authorization_contract : string;
  processor_domain : ProcessorDomain;
  proc_state : ProcessorState;
}.
Record CurrentRetry := mkCurrentRetry { retry_amounts : N; retry_cooldown : Expiration }.
Record MessageBatch := mkMessageBatch {
  batch_id : N;
  batch_msgs : list ProcessorMessage;
  batch_subroutine : Subroutine;
  batch_priority : Priority;
  batch_expiration_time : option N;
  batch_retry : option CurrentRetry;
}.

(** ** [processor-utils/callback.rs] and [processor-utils/msg.rs] *)
Record PendingCallback := mkPendingCallback {
  pc_address : Addr;
  pc_callback_msg : Binary;
  pc_message_batch : MessageBatch;
}.
Inductive PolytoneCallbackState :=
| CbUnexpectedError (error : string)
| CbPending
| CbTimedOut.
Record PendingPolytoneCallbackInfo := mkPendingPolytoneCallbackInfo {
  pp_execution_result : ExecutionResult;
  pp_state : PolytoneCallbackState;
}.
Inductive ProcPolytoneCallbackMsg := ProcExecutionID (id : N) | ProcCreateProxy.
Record PolytoneContracts := mkPolytoneContracts {
  pcs_proxy_address : string;
  pcs_note_address : string;
  pcs_timeout_seconds : N;
}.
Record ProcInstantiateMsg := mkProcInstantiateMsg {
  im_authorization_contract : string;
  im_polytone_contracts : option PolytoneContracts;
}.
Inductive ProcPermissionlessMsg :=
| Tick
| RetryCallback (execution_id : N)
| ProcRetryBridgeCreation.
Inductive InternalProcessorMsg :=
| LibraryCallback (execution_id : N) (msg : Binary)
| ExecuteAtomic (batch : MessageBatch).
Inductive ProcessorExecuteMsg :=
| AuthorizationModuleAction (m : AuthorizationMsg)
| ProcPermissionlessAction (m : ProcPermissionlessMsg)
| InternalProcessorAction (m : InternalProcessorMsg)
| ProcPolytoneCallback (m : CallbackMessage).

(** ** [authorization-utils/msg.rs]: instantiation *)
Record AuthInstantiateMsg := mkAuthInstantiateMsg {
  ai_owner : string;
  ai_sub_owners : list string;
  ai_processor : string;
}.

(** ** [encoder-utils/msg.rs] *)
Record EncoderMessage := mkEncoderMessage { em_library : string; em_data : Binary }.
Inductive ProcessorMessageToEncode :=
| EncodeSendMsgs (execution_id : N) (priority : Priority) (subroutine : Subroutine)
    (expiration_time : option N) (messages : list EncoderMessage)
| EncodeInsertMsgs (execution_id queue_position : N) (priority : Priority)
    (subroutine : Subroutine) (expiration_time : option N) (messages : list EncoderMessage)
| EncodeEvictMsgs (queue_position : N) (priority : Priority)
| EncodePause
| EncodeResume.
Inductive ProcessorMessageToDecode := HyperlaneCallback (callback : Binary).

#[global] Instance Domain_eq_dec : EqDecision Domain. Proof. solve_decision. Defined.
#[global] Instance PolytoneProxyState_eq_dec : EqDecision PolytoneProxyState.
Proof. solve_decision. Defined.
#[global] Instance Priority_eq_dec : EqDecision Priority. Proof. solve_decision. Defined.
#[global] Instance ExecutionResult_eq_dec : EqDecision ExecutionResult.
Proof. solve_decision. Defined.
#[global] Instance PolytoneCallbackState_eq_dec : EqDecision PolytoneCallbackState.
Proof. solve_decision. Defined.
#[global] Instance ProcessorState_eq_dec : EqDecision ProcessorState.
Proof. solve_decision. Defined.
#[global] Instance AuthorizationState_eq_dec : EqDecision AuthorizationState.
Proof. solve_decision. Defined.
#[global] Instance PermissionType_eq_dec : EqDecision PermissionType.
Proof. solve_decision. Defined.
#[global] Instance AuthorizationMode_eq_dec : EqDecision AuthorizationMode.
Proof. solve_decision. Defined.
