(* ===== verification/Format.v ===== *)
(** * Text: what the code uses of Rust's [str] and [fmt]

    Prefixes, trimming and number parsing of [str], and the [{:?}] format of strings,
    which the libraries use to build the keys of their hash maps. *)
From Stdlib Require Import Strings.Ascii Strings.Byte.
From S2P Require Import Prelude.

(** ** Prefixes and trimming *)
Abbreviation chars := (list ascii) (only parsing).

Fixpoint strip_prefix (p s : chars) : option chars :=
  match p, s with
  | [], _ => Some s
  | a :: p, b :: s => if bool_decide (a = b) then strip_prefix p s else None
  | _ :: _, [] => None
  end.
Definition starts_with (s p : string) : bool :=
  bool_decide (is_Some (strip_prefix (String.list_ascii_of_string p) (String.list_ascii_of_string s))).

(** Removes the pattern as often as it occurs; every round removes at least one
    character, so the length of the text bounds the rounds. *)
Fixpoint trim_start_go (fuel : nat) (p s : chars) : chars :=
  match fuel with
  | O => s
  | S fuel => match strip_prefix p s with
              | Some s' => trim_start_go fuel p s'
              | None => s
              end
  end.
Definition trim_start_matches (s p : string) : string :=
  let cs := String.list_ascii_of_string s in
  String.string_of_list_ascii (trim_start_go (length cs) (String.list_ascii_of_string p) cs).
Definition trim_end_matches (s p : string) : string :=
  let cs := reverse (String.list_ascii_of_string s) in
  String.string_of_list_ascii
    (reverse (trim_start_go (length cs) (reverse (String.list_ascii_of_string p)) cs)).

(** ** [str::parse] for unsigned integers up to [max] *)
Definition digit_value (a : ascii) : option N :=
  let n := N_of_ascii a in
  if ((48 <=? n) && (n <=? 57))%N then Some (n - 48)%N else None.
Fixpoint parse_digits (max acc : N) (s : string) : option N :=
  match s with
  | EmptyString => Some acc
  | String a s =>
      d ← digit_value a;
      acc ← checked_add max (acc * 10) d;
      parse_digits max acc s
  end.
Definition parse_uint (max : N) (s : string) : option N :=
  match s with
  | EmptyString => None
  | String "+" EmptyString => None
  | String "+" s => parse_digits max 0 s
  | _ => parse_digits max 0 s
  end.
(** [Display for ParseIntError], for a text that is not parsed. *)
Fixpoint digits_error (max acc : N) (s : string) : string :=
  match s with
  | EmptyString => ""
  | String a s =>
      match digit_value a with
      | None => "invalid digit found in string"
      | Some d => match checked_add max (acc * 10) d with
                  | None => "number too large to fit in target type"
                  | Some acc => digits_error max acc s
                  end
      end
  end.
Definition parse_int_error (max : N) (s : string) : string :=
  match s with
  | EmptyString => "cannot parse integer from empty string"
  | String "+" EmptyString => "invalid digit found in string"
  | String "+" s => digits_error max 0 s
  | _ => digits_error max 0 s
  end.
Definition parse_u64 : string → option N := parse_uint u64_max.
Definition parse_u128 : string → option N := parse_uint u128_max.

(** ** [to_be_bytes] of an integer of [k] bytes *)
Definition byte_of (n : N) : byte := default x00 (Byte.of_N n).
Fixpoint be_bytes (k : nat) (n : N) : list byte :=
  match k with
  | O => []
  | S k => be_bytes k (n / 256) ++ [byte_of (n mod 256)]
  end.
Definition u64_to_be_bytes : N → list byte := be_bytes 8.

(** ** [format!("{:?}", s)] on a string

    Quotes, backslashes and control characters are escaped; other characters are
    printed as they are (the text is taken to have no unprintable characters outside
    of ASCII). *)
Definition quote : ascii := ascii_of_N 34.
Definition backslash : ascii := ascii_of_N 92.
Definition hex_digit (n : N) : ascii := ascii_of_N (if (n <? 10)%N then 48 + n else 87 + n).
Definition escape_char (a : ascii) : chars :=
  let n := N_of_ascii a in
  if (n =? 0)%N then [backslash; "0"%char]
  else if (n =? 9)%N then [backslash; "t"%char]
  else if (n =? 10)%N then [backslash; "n"%char]
  else if (n =? 13)%N then [backslash; "r"%char]
  else if (n =? 34)%N then [backslash; quote]
  else if (n =? 92)%N then [backslash; backslash]
  else if ((n <? 32) || (n =? 127))%N then
    [backslash; "u"%char; "{"%char] ++
    (if (n <? 16)%N then [hex_digit n] else [hex_digit (n / 16); hex_digit (n mod 16)]) ++
    ["}"%char]
  else [a].
Definition debug_chars (s : string) : chars :=
  [quote] ++ (String.list_ascii_of_string s ≫= escape_char) ++ [quote].
Definition debug_str (s : string) : string := String.string_of_list_ascii (debug_chars s).

(** ** Facts *)
Lemma string_of_list_ascii_inj (l1 l2 : chars) :
  String.string_of_list_ascii l1 = String.string_of_list_ascii l2 → l1 = l2.
Proof.
  intros Hs%(f_equal String.list_ascii_of_string).
  by rewrite !String.list_ascii_of_string_of_list_ascii in Hs.
Qed.
Lemma list_ascii_of_string_app s1 s2 :
  String.list_ascii_of_string (s1 ++ s2) =
    String.list_ascii_of_string s1 ++ String.list_ascii_of_string s2.
Proof. induction s1 as [|a s1 IH]; simpl; [done|]. by rewrite IH. Qed.
Lemma list_ascii_of_string_inj s1 s2 :
  String.list_ascii_of_string s1 = String.list_ascii_of_string s2 → s1 = s2.
Proof.
  intros Hs%(f_equal String.string_of_list_ascii).
  by rewrite !String.string_of_list_ascii_of_string in Hs.
Qed.

Lemma string_app_assoc (s1 s2 s3 : string) :
  ((s1 ++ s2) ++ s3)%string = (s1 ++ (s2 ++ s3))%string.
Proof. induction s1 as [|a s1 IH]; [done|]. exact (f_equal (String a) IH). Qed.
Lemma string_app_nil_r (s : string) : (s ++ "")%string = s.
Proof. induction s as [|a s IH]; [done|]. exact (f_equal (String a) IH). Qed.

Lemma string_app_inv_head (p s1 s2 : string) : (p ++ s1)%string = (p ++ s2)%string → s1 = s2.
Proof.
  induction p as [|a p IH]; [done|]. intros He. apply IH.
  change (String a (p ++ s1) = String a (p ++ s2)) in He. by injection He.
Qed.

Lemma strip_prefix_app p s : strip_prefix p (p ++ s) = Some s.
Proof. induction p as [|a p IH]; simpl; [done|]. by rewrite bool_decide_eq_true_2. Qed.
Lemma strip_prefix_Some p s s' : strip_prefix p s = Some s' ↔ s = p ++ s'.
Proof.
  split; [|intros ->; apply strip_prefix_app]. revert s.
  induction p as [|a p IH]; intros [|b s]; simpl; try naive_solver.
  case_bool_decide; naive_solver.
Qed.
Lemma starts_with_app p s : starts_with (p ++ s) p = true.
Proof.
  unfold starts_with. rewrite list_ascii_of_string_app, strip_prefix_app.
  by apply bool_decide_eq_true_2.
Qed.

Lemma trim_start_go_none fuel p s : strip_prefix p s = None → trim_start_go fuel p s = s.
Proof. destruct fuel; simpl; [done|]. by intros ->. Qed.
(** Trimming a prefix that does not occur again. *)
Lemma trim_start_go_once p s :
  strip_prefix p s = None → trim_start_go (length (p ++ s)) p (p ++ s) = s.
Proof.
  intros Hs. destruct (length (p ++ s)) as [|f] eqn:Hf; simpl.
  - apply length_zero_iff_nil, app_eq_nil in Hf as [-> ->]. done.
  - rewrite strip_prefix_app. by apply trim_start_go_none.
Qed.
Lemma trim_start_once p s :
  strip_prefix (String.list_ascii_of_string p) (String.list_ascii_of_string s) = None →
  trim_start_matches (p ++ s) p = s.
Proof.
  intros Hs. unfold trim_start_matches. rewrite list_ascii_of_string_app, trim_start_go_once by done.
  apply String.string_of_list_ascii_of_string.
Qed.
Lemma trim_end_once p s :
  strip_prefix (reverse (String.list_ascii_of_string p))
    (reverse (String.list_ascii_of_string s)) = None →
  trim_end_matches (s ++ p) p = s.
Proof.
  intros Hs. unfold trim_end_matches.
  rewrite list_ascii_of_string_app, reverse_app, trim_start_go_once, reverse_involutive by done.
  apply String.string_of_list_ascii_of_string.
Qed.

(** A printed number is parsed back. *)
Lemma digit_value_char n : (n < 10)%N → digit_value (pretty_N_char n) = Some n.
Proof.
  intros Hn. assert (n ∈ N_range 0 10) as Hin.
  { unfold N_range. apply list_elem_of_fmap. exists (N.to_nat n). split; [lia|].
    apply elem_of_seq. simpl. lia. }
  revert Hin. change (N_range 0 10) with [0;1;2;3;4;5;6;7;8;9]%N.
  rewrite !elem_of_cons, elem_of_nil. intros Hin. by repeat destruct Hin as [->|Hin].
Qed.
Lemma parse_pretty_go max x s : (x ≤ max)%N →
  parse_digits max 0 (pretty_N_go x s) = parse_digits max x s.
Proof.
  revert s. induction (N.lt_wf_0 x) as [x _ IH]. intros s Hx.
  destruct (N.eq_dec x 0%N) as [->|Hx0]; [by rewrite pretty_N_go_0|].
  pose proof (N.div_mod x 10%N ltac:(lia)) as Hdm.
  pose proof (N.mod_lt x 10%N ltac:(lia)) as Hm.
  rewrite pretty_N_go_step by lia. 
  assert (x `div` 10 < x)%N as Hd by (apply N.div_lt; lia). rewrite IH; [|done|lia]. simpl.
  rewrite digit_value_char by done. simpl. rewrite checked_add_fits by lia. simpl. f_equal. lia.
Qed.
Lemma pretty_char_not_plus n : (n < 10)%N → pretty_N_char n ≠ "+"%char.
Proof. intros Hn He%(f_equal digit_value). by rewrite digit_value_char in He. Qed.
Lemma parse_uint_digits max a s :
  a ≠ "+"%char → parse_uint max (String a s) = parse_digits max 0 (String a s).
Proof. intros Ha. destruct a as [[][][][][][][][]]; try done. Qed.
Lemma pretty_N_go_head x s : (0 < x)%N →
  ∃ n t, (n < 10)%N ∧ pretty_N_go x s = String (pretty_N_char n) t.
Proof.
  revert s. induction (N.lt_wf_0 x) as [x _ IH]. intros s Hx.
  rewrite pretty_N_go_step by done.
  destruct (N.eq_dec (x `div` 10)%N 0%N) as [->|Hd].
  - rewrite pretty_N_go_0. exists (x `mod` 10)%N, s. split; [apply N.mod_lt; lia|done].
  - apply IH; [by apply N.div_lt|by apply N.neq_0_lt_0].
Qed.
Lemma parse_uint_pretty max (n : N) : (n ≤ max)%N → parse_uint max (pretty n) = Some n.
Proof.
  intros Hn. unfold pretty, pretty_N. case_decide as H0.
  { subst. change (parse_uint max _) with (acc ← checked_add max 0 0; Some acc).
    by rewrite checked_add_fits by lia. }
  destruct (pretty_N_go_head n "") as (d & t & Hd & Ht); [lia|].
  rewrite Ht, parse_uint_digits by (by apply pretty_char_not_plus).
  rewrite <-Ht, parse_pretty_go by done. done.
Qed.
Lemma parse_u64_pretty (n : N) : (n ≤ u64_max)%N → parse_u64 (pretty n) = Some n.
Proof. apply parse_uint_pretty. Qed.
Lemma parse_u128_pretty (n : N) : (n ≤ u128_max)%N → parse_u128 (pretty n) = Some n.
Proof. apply parse_uint_pretty. Qed.

(** The bytes determine the number. *)
Lemma byte_of_inj a b : (a < 256)%N → (b < 256)%N → byte_of a = byte_of b → a = b.
Proof.
  intros Ha Hb. unfold byte_of.
  destruct (Byte.of_N a) as [x|] eqn:Hx; [|apply Byte.of_N_None_iff in Hx; lia].
  destruct (Byte.of_N b) as [y|] eqn:Hy; [|apply Byte.of_N_None_iff in Hy; lia].
  simpl. intros ->. apply Byte.to_of_N in Hx, Hy. congruence.
Qed.
Lemma be_bytes_inj k a b :
  (a < 256 ^ N.of_nat k)%N → (b < 256 ^ N.of_nat k)%N → be_bytes k a = be_bytes k b → a = b.
Proof.
  revert a b. induction k as [|k IH]; intros a b Ha Hb; simpl; [simpl in *; lia|].
  rewrite Nat2N.inj_succ, N.pow_succ_r' in Ha, Hb. intros [He [= Hm]]%app_inj_tail_iff.
  apply IH in He; [|apply N.Div0.div_lt_upper_bound; lia..].
  apply byte_of_inj in Hm; [|apply N.mod_lt; lia..].
  pose proof (N.div_mod a 256 ltac:(lia)). pose proof (N.div_mod b 256 ltac:(lia)). lia.
Qed.
Lemma be_bytes_length k n : length (be_bytes k n) = k.
Proof. revert n. induction k as [|k IH]; intros n; simpl; [done|]. rewrite length_app, IH. simpl. lia. Qed.

(** ** The [{:?}] format is injective

    The escapes of two different characters are not prefixes of one another, and the
    closing quote is none of them. *)
Definition all_chars : chars := (λ n, ascii_of_nat n) <$> seq 0 256.
Lemma elem_of_all_chars a : a ∈ all_chars.
Proof.
  unfold all_chars. apply list_elem_of_fmap. exists (nat_of_ascii a). split.
  - by rewrite ascii_nat_embedding.
  - apply elem_of_seq. pose proof (nat_ascii_bounded a). lia.
Qed.
Definition escape_codes : list chars := [quote] :: (escape_char <$> all_chars).
Lemma escape_codes_prefix_free :
  forallb (λ c1, forallb (λ c2, bool_decide (c1 = c2) ||
    negb (bool_decide (is_Some (strip_prefix c1 c2)))) escape_codes) escape_codes = true.
Proof. vm_compute. reflexivity. Qed.

Lemma prefix_of_app (c1 c2 r1 r2 : chars) : c1 ++ r1 = c2 ++ r2 →
  is_Some (strip_prefix c1 c2) ∨ is_Some (strip_prefix c2 c1).
Proof.
  intros (l & [[-> _]|[-> _]])%app_eq_app; rewrite strip_prefix_app; eauto.
Qed.
Lemma escape_codes_unique c1 c2 r1 r2 : c1 ∈ escape_codes → c2 ∈ escape_codes →
  c1 ++ r1 = c2 ++ r2 → c1 = c2 ∧ r1 = r2.
Proof.
  intros H1 H2 He. assert (c1 = c2) as ->; [|by simplify_list_eq].
  pose proof escape_codes_prefix_free as Hf. rewrite forallb_forall in Hf.
  assert (∀ a b, a ∈ escape_codes → b ∈ escape_codes → is_Some (strip_prefix a b) → a = b) as Hu.
  { intros a b Ha Hb Hp. apply list_elem_of_In in Ha, Hb.
    apply Hf in Ha. rewrite forallb_forall in Ha. apply Ha in Hb.
    apply orb_true_iff in Hb as [Hb|Hb]; [by apply bool_decide_eq_true_1 in Hb|].
    by rewrite bool_decide_eq_true_2 in Hb. }
  apply prefix_of_app in He as [Hp|Hp]; [|symmetry]; by apply Hu.
Qed.
Lemma escape_char_code a : escape_char a ∈ escape_codes.
Proof. apply elem_of_cons. right. apply list_elem_of_fmap_2, elem_of_all_chars. Qed.
Lemma escape_char_inj a b : escape_char a = escape_char b → a = b.
Proof.
  assert (forallb (λ a, forallb (λ b, bool_decide (a = b) ||
    negb (bool_decide (escape_char a = escape_char b))) all_chars) all_chars = true) as Hf
    by (vm_compute; reflexivity).
  intros He. rewrite forallb_forall in Hf.
  specialize (Hf a (proj1 (list_elem_of_In _ _) (elem_of_all_chars a))).
  rewrite forallb_forall in Hf. specialize (Hf b (proj1 (list_elem_of_In _ _) (elem_of_all_chars b))).
  apply orb_true_iff in Hf as [Hb|Hb]; [by apply bool_decide_eq_true_1 in Hb|].
  by rewrite bool_decide_eq_true_2 in Hb.
Qed.
Lemma escape_char_not_quote a : escape_char a ≠ [quote].
Proof.
  assert (forallb (λ a, negb (bool_decide (escape_char a = [quote]))) all_chars = true) as Hf
    by (vm_compute; reflexivity).
  rewrite forallb_forall in Hf. specialize (Hf a (proj1 (list_elem_of_In _ _) (elem_of_all_chars a))).
  intros He. by rewrite bool_decide_eq_true_2 in Hf.
Qed.

(** A quoted text is the longest one: what follows it is determined too. *)
Lemma debug_chars_app s1 s2 r1 r2 :
  debug_chars s1 ++ r1 = debug_chars s2 ++ r2 → s1 = s2 ∧ r1 = r2.
Proof.
  unfold debug_chars. simpl. intros [= He]. rewrite <-!app_assoc in He. simpl in He.
  assert (String.list_ascii_of_string s1 = String.list_ascii_of_string s2 ∧ r1 = r2)
    as [?%list_ascii_of_string_inj ?]; [|done].
  revert He. generalize (String.list_ascii_of_string s2) as l2.
  induction (String.list_ascii_of_string s1) as [|a l1 IH]; intros [|b l2]; simpl.
  - by intros [= ->].
  - rewrite <-app_assoc. intros [Hc _]%(escape_codes_unique [quote] (escape_char b) r1 _).
    + by destruct (escape_char_not_quote b).
    + apply elem_of_cons. by left.
    + apply escape_char_code.
  - rewrite <-app_assoc. intros [Hc _]%(escape_codes_unique (escape_char a) [quote] _ r2).
    + by destruct (escape_char_not_quote a).
    + apply escape_char_code.
    + apply elem_of_cons. by left.
  - rewrite <-!app_assoc. intros [Hc Hr]%escape_codes_unique; [|apply escape_char_code..].
    apply escape_char_inj in Hc as ->. apply IH in Hr as [-> ->]. done.
Qed.
Lemma debug_str_app s1 s2 r1 r2 :
  (debug_str s1 ++ r1)%string = (debug_str s2 ++ r2)%string → s1 = s2 ∧ r1 = r2.
Proof.
  intros He%(f_equal String.list_ascii_of_string). rewrite !list_ascii_of_string_app in He.
  unfold debug_str in He. rewrite !String.list_ascii_of_string_of_list_ascii in He.
  by apply debug_chars_app in He as [-> ->%list_ascii_of_string_inj].
Qed.
(** A text in parentheses after a name. *)
Lemma debug_wrapped_app name close s1 s2 r1 r2 :
  ((name ++ debug_str s1 ++ close) ++ r1)%string = ((name ++ debug_str s2 ++ close) ++ r2)%string →
  s1 = s2 ∧ r1 = r2.
Proof.
  rewrite !string_app_assoc.
  by intros [-> He%string_app_inv_head]%string_app_inv_head%debug_str_app.
Qed.
