(* ===== verification/Accounts.v ===== *)
(** * The accounts

    [packages/account-utils] and the contracts [contracts/accounts/base_account] and
    [contracts/accounts/storage_account].  An account holds funds (or values) and
    executes what its admin and the libraries the admin approved ask for.  The base
    account also relays the replies of sub-messages to the library that sent them, as
    an event attribute that the library parses out of its own reply. *)
From Stdlib Require Import Strings.Byte.
From S2P Require Import Prelude Platform.

(** [format!("{action:?}")] and [format!("{result:?}")] on the types of [cw_ownable]. *)
Class CwOwnableDebug := {
  debug_action : OwnableAction → string;
  debug_ownership : Ownership → string;
}.
(** [to_json_string], and [from_json] on a string. *)
Class JsonText (A : Type) := {
  to_json_string : A → result StdError string;
  from_json_text : string → result StdError A;
}.
Class JsonTextLaws (A : Type) `{JsonText A} : Prop := {
  to_json_string_total x : ∃ t, to_json_string x = Ok t;
  from_to_json_text x t : to_json_string x = Ok t → from_json_text t = Ok x;
}.

(** ** [account-utils/msg.rs] *)
Record AccInstantiateMsg := mkAccInstantiateMsg {
  acc_admin : string;
  acc_approved_libraries : list string;
}.
Inductive AccountExecuteMsg :=
| AccApproveLibrary (library : string)
| AccRemoveLibrary (library : string)
| AccExecuteMsg (msgs : list CosmosMsg)
| AccExecuteSubmsgs (msgs : list SubMsg) (payload : option string)
| AccUpdateOwnership (action : OwnableAction).

(** ** [account-utils/error.rs] *)
Inductive AccUnauthorizedReason := NotAdmin | NotApprovedLibrary | NotAdminOrApprovedLibrary.
Inductive AccError :=
| AccStd (e : StdError)
| AccOwnershipError (e : OwnershipError)
| AccUnauthorized (r : AccUnauthorizedReason).
#[global] Instance From_Std_Acc : From StdError AccError := AccStd.
#[global] Instance From_Ownership_Acc : From OwnershipError AccError := AccOwnershipError.

(** The result of a sub-message, with its events, as the account relays it. *)
Record Event := mkEvent { event_ty : string; event_attributes : list (string * string) }.
Record SubMsgResponse := mkSubMsgResponse {
  response_events : list Event;
  response_data : option Binary;
  msg_responses : list (string * Binary);
}.
Inductive SubMsgOutcome := OutcomeOk (r : SubMsgResponse) | OutcomeErr (error : string).
Record HostReply := mkHostReply {
  host_reply_id : N;
  host_reply_payload : Binary;
  host_reply_gas_used : N;
  host_reply_result : SubMsgOutcome;
}.

Definition VALENCE_CALLBACK_KEY : string := "valence_callback".
Definition VALENCE_PAYLOAD_KEY : string := "valence_payload".
Definition WASM_EVENT_TYPE : string := "wasm".

Record ValenceCallback := mkValenceCallback {
  cb_id : N;
  cb_result : SubMsgOutcome;
  cb_payload : Binary;
}.
Definition ValenceCallback_from (value : HostReply) : ValenceCallback :=
  mkValenceCallback (host_reply_id value) (host_reply_result value) (host_reply_payload value).
Definition callback_into_attribute `{JsonText ValenceCallback} (c : ValenceCallback)
    : result StdError (string * string) :=
  value ← to_json_string c;
  Ok (VALENCE_CALLBACK_KEY, value).

(** The nested loops over events and attributes, with their early return. *)
Definition find_attribute (key : string) (events : list Event) : option string :=
  snd <$> find (λ kv : string * string, bool_decide (kv.1 = key))
    (filter (λ e, event_ty e = WASM_EVENT_TYPE) events ≫= event_attributes).
Definition ValenceCallback_try_from `{JsonText ValenceCallback} (value : SubMsgOutcome)
    : result StdError ValenceCallback :=
  match value with
  | OutcomeErr e => Err (GenericErr e)
  | OutcomeOk r =>
      match find_attribute VALENCE_CALLBACK_KEY (response_events r) with
      | Some v => from_json_text v
      | None => Err (GenericErr "valence callback not found")
      end
  end.
Definition parse_valence_payload {T} `{JsonText T} (resp : SubMsgOutcome) : result StdError T :=
  match resp with
  | OutcomeErr _ => Err (GenericErr "valence payload not found")
  | OutcomeOk r =>
      match find_attribute VALENCE_PAYLOAD_KEY (response_events r) with
      | Some v => from_json_text v
      | None => Err (GenericErr "valence payload not found")
      end
  end.

(** ** The base account *)
Module BaseAccount.

Record storage := mkStorage {
  s_contract_info : option (string * string);
  s_ownership : option Ownership;
  s_approved_libraries : gmap Addr ();
}.
Definition empty_storage : storage := mkStorage None None ∅.
Definition CONTRACT_INFO : lens storage (option (string * string)) :=
  Lens s_contract_info (λ x s, mkStorage x (s_ownership s) (s_approved_libraries s)).
Definition OWNERSHIP : lens storage (option Ownership) :=
  Lens s_ownership (λ x s, mkStorage (s_contract_info s) x (s_approved_libraries s)).
Definition APPROVED_LIBRARIES : lens storage (gmap Addr ()) :=
  Lens s_approved_libraries (λ x s, mkStorage (s_contract_info s) (s_ownership s) x).

Definition CONTRACT_NAME : string := "valence-base-account".
Definition CONTRACT_VERSION : string := "0.2.0".

Section Contract.
Context `{Platform} `{CwOwnable} `{CwOwnableDebug} `{JsonText ValenceCallback}.
Abbreviation M := (Exec storage AccError).

Definition instantiate (_env : Env) (_info : MessageInfo) (msg : AccInstantiateMsg)
    : Exec storage StdError Response :=
  _ ← item_save CONTRACT_INFO (CONTRACT_NAME, CONTRACT_VERSION);
  ownership ← of_result (initialize_owner (Some (acc_admin msg)));
  _ ← item_save OWNERSHIP ownership;
  _ ← for_each (acc_approved_libraries msg) (λ library,
        addr ← of_result (addr_validate library);
        map_save APPROVED_LIBRARIES addr ());
  mret (add_attribute "admin" (acc_admin msg) (add_attribute "method" "instantiate" Response_new)).

Definition assert_owner_ (sender : Addr) : M unit :=
  s ← get_storage;
  of_result (assert_owner (s_ownership s) sender).

Definition approve_library (info : MessageInfo) (library : string) : M Response :=
  _ ← assert_owner_ (info_sender info);
  library_addr ← of_result (addr_validate library);
  _ ← map_save APPROVED_LIBRARIES library_addr ();
  mret (add_attribute "library" library_addr (add_attribute "method" "approve_library" Response_new)).

Definition remove_library (info : MessageInfo) (library : string) : M Response :=
  _ ← assert_owner_ (info_sender info);
  library_addr ← of_result (addr_validate library);
  _ ← map_remove APPROVED_LIBRARIES library_addr;
  mret (add_attribute "library" library_addr (add_attribute "method" "remove_library" Response_new)).

Definition execute_submsgs (info : MessageInfo) (msgs : list SubMsg) (payload : option string)
    : M Response :=
  approved ← map_has APPROVED_LIBRARIES (info_sender info);
  _ ← fail_if (negb approved) (AccUnauthorized NotApprovedLibrary);
  let resp := add_submessages msgs Response_new in
  mret match payload with
       | Some json_encoded_str => add_attribute VALENCE_PAYLOAD_KEY json_encoded_str resp
       | None => resp
       end.

(** [is_owner(..)? || APPROVED_LIBRARIES.has(..)]. *)
Definition assert_owner_or_library (sender : Addr) : M unit :=
  s ← get_storage;
  owner ← of_result (is_owner (s_ownership s) sender);
  approved ← map_has APPROVED_LIBRARIES sender;
  fail_if (negb (owner || approved)) (AccUnauthorized NotAdminOrApprovedLibrary).

Definition execute_msg (info : MessageInfo) (msgs : list CosmosMsg) : M Response :=
  _ ← assert_owner_or_library (info_sender info);
  mret (add_attribute "sender" (info_sender info)
         (add_attribute "method" "execute_msg" (add_messages msgs Response_new))).

Definition update_ownership (env : Env) (info : MessageInfo) (action : OwnableAction) : M Response :=
  s ← get_storage;
  result ← of_result (update_ownership_lib (s_ownership s) (env_block env) (info_sender info) action);
  _ ← item_save OWNERSHIP result;
  mret (add_attributes [("method", "update_ownership"); ("action", debug_action action);
          ("result", debug_ownership result)] Response_new).

Definition execute (env : Env) (info : MessageInfo) (msg : AccountExecuteMsg) : M Response :=
  match msg with
  | AccApproveLibrary library => approve_library info library
  | AccRemoveLibrary library => remove_library info library
  | AccExecuteMsg msgs => execute_msg info msgs
  | AccUpdateOwnership action => update_ownership env info action
  | AccExecuteSubmsgs msgs payload => execute_submsgs info msgs payload
  end.

(** [QueryMsg::ListApprovedLibraries]. *)
Definition list_approved_libraries (s : storage) : list Addr :=
  fst <$> map_range String.leb (s_approved_libraries s) None.

Definition reply (_env : Env) (msg : HostReply) : M Response :=
  response_attr ← of_result (callback_into_attribute (ValenceCallback_from msg));
  mret (add_attributes [response_attr] Response_new).
End Contract.
End BaseAccount.

(** ** The storage account

    The values it stores ([ValenceType] of [middleware-utils]) are only saved, returned
    and printed with [{:?}]. *)
Module StorageAccount.

Record storage (V : Type) := mkStorage {
  s_contract_info : option (string * string);
  s_ownership : option Ownership;
  s_approved_libraries : gmap Addr ();
  s_valence_type_store : gmap string V;
}.
Arguments mkStorage {V}.
Arguments s_contract_info {V}.
Arguments s_ownership {V}.
Arguments s_approved_libraries {V}.
Arguments s_valence_type_store {V}.

Inductive ExecuteMsg (V : Type) :=
| ApproveLibrary (library : string)
| RemoveLibrary (library : string)
| StoreValenceType (key : string) (variant : V)
| UpdateOwnership (action : OwnableAction).
Arguments ApproveLibrary {V}.
Arguments RemoveLibrary {V}.
Arguments StoreValenceType {V}.
Arguments UpdateOwnership {V}.

Definition CONTRACT_NAME : string := "valence-storage-account".
Definition CONTRACT_VERSION : string := "0.2.0".

Section Contract.
Context `{Platform} `{CwOwnable} `{CwOwnableDebug} {ValenceType : Type}.
Context (debug_valence_type : ValenceType → string).
Abbreviation St := (storage ValenceType).
Abbreviation M := (Exec (storage ValenceType) AccError).

Definition empty_storage : St := mkStorage None None ∅ ∅.
Definition CONTRACT_INFO : lens St (option (string * string)) :=
  Lens s_contract_info (λ x s,
    mkStorage x (s_ownership s) (s_approved_libraries s) (s_valence_type_store s)).
Definition OWNERSHIP : lens St (option Ownership) :=
  Lens s_ownership (λ x s,
    mkStorage (s_contract_info s) x (s_approved_libraries s) (s_valence_type_store s)).
Definition APPROVED_LIBRARIES : lens St (gmap Addr ()) :=
  Lens s_approved_libraries (λ x s,
    mkStorage (s_contract_info s) (s_ownership s) x (s_valence_type_store s)).
Definition VALENCE_TYPE_STORE : lens St (gmap string ValenceType) :=
  Lens s_valence_type_store (λ x s,
    mkStorage (s_contract_info s) (s_ownership s) (s_approved_libraries s) x).

Definition instantiate (_env : Env) (_info : MessageInfo) (msg : AccInstantiateMsg)
    : Exec St StdError Response :=
  _ ← item_save CONTRACT_INFO (CONTRACT_NAME, CONTRACT_VERSION);
  ownership ← of_result (initialize_owner (Some (acc_admin msg)));
  _ ← item_save OWNERSHIP ownership;
  _ ← for_each (acc_approved_libraries msg) (λ library,
        addr ← of_result (addr_validate library);
        map_save APPROVED_LIBRARIES addr ());
  mret (add_attribute "admin" (acc_admin msg) (add_attribute "method" "instantiate" Response_new)).

Definition assert_owner_ (sender : Addr) : M unit :=
  s ← get_storage;
  of_result (assert_owner (s_ownership s) sender).
Definition assert_owner_or_library (sender : Addr) : M unit :=
  s ← get_storage;
  owner ← of_result (is_owner (s_ownership s) sender);
  approved ← map_has APPROVED_LIBRARIES sender;
  fail_if (negb (owner || approved)) (AccUnauthorized NotAdminOrApprovedLibrary).

Definition try_store_valence_type (info : MessageInfo) (key : string) (variant : ValenceType)
    : M Response :=
  _ ← assert_owner_or_library (info_sender info);
  _ ← map_save VALENCE_TYPE_STORE key variant;
  mret (add_attributes [("method", "store_valence_type"); ("key", key);
          ("variant", debug_valence_type variant)] Response_new).

Definition approve_library (info : MessageInfo) (library : string) : M Response :=
  _ ← assert_owner_ (info_sender info);
  library_addr ← of_result (addr_validate library);
  _ ← map_save APPROVED_LIBRARIES library_addr ();
  mret (add_attribute "library" library_addr (add_attribute "method" "approve_library" Response_new)).

Definition remove_library (info : MessageInfo) (library : string) : M Response :=
  _ ← assert_owner_ (info_sender info);
  library_addr ← of_result (addr_validate library);
  _ ← map_remove APPROVED_LIBRARIES library_addr;
  mret (add_attribute "library" library_addr (add_attribute "method" "remove_library" Response_new)).

Definition update_ownership (env : Env) (info : MessageInfo) (action : OwnableAction) : M Response :=
  s ← get_storage;
  result ← of_result (update_ownership_lib (s_ownership s) (env_block env) (info_sender info) action);
  _ ← item_save OWNERSHIP result;
  mret (add_attributes [("method", "update_ownership"); ("action", debug_action action);
          ("result", debug_ownership result)] Response_new).

Definition execute (env : Env) (info : MessageInfo) (msg : ExecuteMsg ValenceType) : M Response :=
  match msg with
  | ApproveLibrary library => approve_library info library
  | RemoveLibrary library => remove_library info library
  | UpdateOwnership action => update_ownership env info action
  | StoreValenceType key variant => try_store_valence_type info key variant
  end.

(** [QueryMsg::ListApprovedLibraries] and [QueryMsg::QueryValenceType]. *)
Definition list_approved_libraries (s : St) : list Addr :=
  fst <$> map_range String.leb (s_approved_libraries s) None.
Definition query_valence_type (key : string) (s : St) : result StdError ValenceType :=
  match s_valence_type_store s !! key with
  | Some val => Ok val
  | None => Err (GenericErr "no value associated with storage key")
  end.
End Contract.
End StorageAccount.
