(* ===== verification/InterchainAccount.v ===== *)
(** * The interchain account

    [packages/account-utils/src/ica.rs], the parts of [packages/ibc-utils] that it uses,
    and the contract [contracts/accounts/interchain_account].  The account controls an
    account on a remote chain: it registers it (a state machine that the answers of the
    IBC module drive), and submits the messages of its admin and approved libraries to it,
    paying the relayers' fees. *)
From Stdlib Require Import Strings.Byte.
From S2P Require Import Prelude Platform Types Accounts.

(** ** [ibc-utils/src/neutron.rs] *)
Definition NTRN_DENOM : string := "untrn".

(** [IbcFee] of [neutron_sdk]. *)
Record IbcFee := mkIbcFee { recv_fee : list Coin; ack_fee : list Coin; timeout_fee : list Coin }.

Definition is_ntrn (a : Coin) : Prop := coin_denom a = NTRN_DENOM.
#[global] Instance is_ntrn_dec a : Decision (is_ntrn a).
Proof. unfold is_ntrn. apply _. Defined.
Definition min_ntrn_ibc_fee (fee : IbcFee) : IbcFee :=
  mkIbcFee (recv_fee fee) (filter is_ntrn (ack_fee fee)) (filter is_ntrn (timeout_fee fee)).

(** A loop of [total += coin.amount]; [None] is the panic of an overflow. *)
Fixpoint add_amounts (total : N) (coins : list Coin) : option N :=
  match coins with
  | [] => Some total
  | coin :: coins => total ← checked_add u128_max total (coin_amount coin); add_amounts total coins
  end.
Definition flatten_ntrn_ibc_fee (ibc_fee : IbcFee) : option N :=
  total ← add_amounts 0 (recv_fee ibc_fee);
  total ← add_amounts total (ack_fee ibc_fee);
  add_amounts total (timeout_fee ibc_fee).

Record OpenAckVersion := mkOpenAckVersion {
  ack_version : string;
  controller_connection_id : string;
  host_connection_id : string;
  ack_address : string;
  ack_encoding : string;
  ack_tx_type : string;
}.

Record MsgRegisterInterchainAccount := mkMsgRegisterInterchainAccount {
  reg_from_address : string;
  reg_connection_id : string;
  reg_interchain_account_id : string;
  reg_register_fee : list ProtoCoin;
}.

(** Code of other packages: the protobuf encoding (a [None] is its error, on which the
    code panics), [Display for Binary] and [serde_json::from_str]. *)
Class IcaPackages := {
  MsgRegister_to_bytes : MsgRegisterInterchainAccount → option Binary;
  binary_to_string : Binary → string;
  parse_open_ack : string → option OpenAckVersion;
}.
Class IcaPackagesLaws `{IcaPackages} : Prop := {
  MsgRegister_total m : is_Some (MsgRegister_to_bytes m);
}.

Record AnyMsg := mkAnyMsg { any_type_url : string; any_value : Binary }.
(** [CosmosMsg<NeutronMsg>]: a message without a custom part, or [NeutronMsg::SubmitTx]. *)
Inductive NeutronCosmosMsg :=
| NeutronPlain (m : CosmosMsg)
| NeutronSubmitTx (connection_id interchain_account_id : string) (msgs : list AnyMsg)
    (memo : string) (timeout : N) (fee : IbcFee).
(** [Response<NeutronMsg>]. *)
Record NeutronResponse := mkNeutronResponse {
  nresp_messages : list NeutronCosmosMsg;
  nresp_attributes : list (string * string);
}.

Definition register_ica_msg `{IcaPackages} (sender connection_id interchain_account_id : string)
    (ica_registration_fee : Coin) : option NeutronCosmosMsg :=
  let register_fee :=
    [mkProtoCoin (coin_denom ica_registration_fee) (pretty (coin_amount ica_registration_fee))] in
  value ← MsgRegister_to_bytes
            (mkMsgRegisterInterchainAccount sender connection_id interchain_account_id register_fee);
  Some (NeutronPlain
    (CosmosStargate "/neutron.interchaintxs.v1.MsgRegisterInterchainAccount" value)).

(** ** [account-utils/src/ica.rs] *)
Record RemoteDomainInfo := mkRemoteDomainInfo { connection_id : string; ica_timeout_seconds : N }.
Definition validate_remote_domain (self : RemoteDomainInfo) : result StdError unit :=
  if bool_decide (connection_id self = "") then Err (GenericErr "connection_id cannot be empty")
  else if (ica_timeout_seconds self =? 0)%N
  then Err (GenericErr "ica_timeout_seconds cannot be zero")
  else Ok ().
Record IcaInformation := mkIcaInformation {
  ica_address : string;
  ica_port_id : string;
  ica_controller_connection_id : string;
}.
Inductive IcaState := IcaNotCreated | IcaClosed | IcaInProgress | IcaCreated (i : IcaInformation).
(** [Display for IcaState]. *)
Definition ica_state_to_string (s : IcaState) : string :=
  match s with
  | IcaNotCreated => "NotCreated"
  | IcaClosed => "Closed"
  | IcaInProgress => "InProgress"
  | IcaCreated _ => "Created"
  end.

(** ** The contract *)
Module InterchainAccount.

Record InstantiateMsg := mkInstantiateMsg {
  ica_admin : string;
  ica_approved_libraries : list string;
  remote_domain_information : RemoteDomainInfo;
}.
Inductive ExecuteMsg :=
| IcaApproveLibrary (library : string)
| IcaRemoveLibrary (library : string)
| IcaExecuteMsg (msgs : list CosmosMsg)
| ExecuteIcaMsg (msgs : list AnyMsg)
| RegisterIca
| IcaUpdateOwnership (action : OwnableAction).

Inductive ContractError :=
| Std (e : StdError)
| OwnershipE (e : OwnershipError)
| Unauthorized (r : AccUnauthorizedReason)
| InvalidIcaState (current_state : string)
| NotEnoughBalanceForIcaRegistration
| CannotCoverIbcFee.
#[global] Instance From_Std : From StdError ContractError := Std.
#[global] Instance From_Ownership : From OwnershipError ContractError := OwnershipE.

Record storage := mkStorage {
  s_contract_info : option (string * string);
  s_ownership : option Ownership;
  s_approved_libraries : gmap Addr ();
  s_remote_domain_info : option RemoteDomainInfo;
  s_ica_state : option IcaState;
}.
Definition empty_storage : storage := mkStorage None None ∅ None None.
Definition CONTRACT_INFO : lens storage (option (string * string)) :=
  Lens s_contract_info (λ x s,
    mkStorage x (s_ownership s) (s_approved_libraries s) (s_remote_domain_info s) (s_ica_state s)).
Definition OWNERSHIP : lens storage (option Ownership) :=
  Lens s_ownership (λ x s,
    mkStorage (s_contract_info s) x (s_approved_libraries s) (s_remote_domain_info s) (s_ica_state s)).
Definition APPROVED_LIBRARIES : lens storage (gmap Addr ()) :=
  Lens s_approved_libraries (λ x s,
    mkStorage (s_contract_info s) (s_ownership s) x (s_remote_domain_info s) (s_ica_state s)).
Definition REMOTE_DOMAIN_INFO : lens storage (option RemoteDomainInfo) :=
  Lens s_remote_domain_info (λ x s,
    mkStorage (s_contract_info s) (s_ownership s) (s_approved_libraries s) x (s_ica_state s)).
Definition ICA_STATE : lens storage (option IcaState) :=
  Lens s_ica_state (λ x s,
    mkStorage (s_contract_info s) (s_ownership s) (s_approved_libraries s) (s_remote_domain_info s) x).

(** What the chain answers during a transaction. *)
Record Querier := mkQuerier {
  iq_balance : Addr → string → result StdError N;
  iq_register_fee : result StdError (list Coin);
  iq_min_ibc_fee : result string IbcFee;
}.
(** [SudoMsg] of [neutron_sdk], which the IBC modules of the chain call the contract
    with; of a packet, the contract only looks at two fields. *)
Record RequestPacket := mkRequestPacket { sequence : option N; source_channel : option string }.
Inductive SudoMsg :=
| SudoResponse (request : RequestPacket) (data : Binary)
| SudoError (request : RequestPacket) (details : string)
| SudoTimeout (request : RequestPacket)
| SudoOpenAck (port_id channel_id counterparty_channel_id counterparty_version : string)
| SudoQueryResult.

Definition CONTRACT_NAME : string := "valence-interchain-account".
Definition CONTRACT_VERSION : string := "0.2.0".
Definition INTERCHAIN_ACCOUNT_ID : string := "valence-ica".

Section Contract.
Context `{Platform} `{CwOwnable} `{CwOwnableDebug} `{IcaPackages}.
Abbreviation M := (Exec storage ContractError).

Definition instantiate (_env : Env) (_info : MessageInfo) (msg : InstantiateMsg)
    : Exec storage StdError Response :=
  _ ← item_save CONTRACT_INFO (CONTRACT_NAME, CONTRACT_VERSION);
  ownership ← of_result (initialize_owner (Some (ica_admin msg)));
  _ ← item_save OWNERSHIP ownership;
  _ ← for_each (ica_approved_libraries msg) (λ library,
        addr ← of_result (addr_validate library);
        map_save APPROVED_LIBRARIES addr ());
  _ ← of_result (validate_remote_domain (remote_domain_information msg));
  _ ← item_save REMOTE_DOMAIN_INFO (remote_domain_information msg);
  _ ← item_save ICA_STATE IcaNotCreated;
  mret (add_attribute "admin" (ica_admin msg) (add_attribute "method" "instantiate" Response_new)).

Definition assert_owner_ (sender : Addr) : M unit :=
  s ← get_storage;
  of_result (assert_owner (s_ownership s) sender).
Definition assert_owner_or_library (sender : Addr) : M unit :=
  s ← get_storage;
  owner ← of_result (is_owner (s_ownership s) sender);
  approved ← map_has APPROVED_LIBRARIES sender;
  fail_if (negb (owner || approved)) (Unauthorized NotAdminOrApprovedLibrary).

Definition approve_library (info : MessageInfo) (library : string) : M NeutronResponse :=
  _ ← assert_owner_ (info_sender info);
  library_addr ← of_result (addr_validate library);
  _ ← map_save APPROVED_LIBRARIES library_addr ();
  mret (mkNeutronResponse [] [("method", "approve_library"); ("library", library_addr)]).
Definition remove_library (info : MessageInfo) (library : string) : M NeutronResponse :=
  _ ← assert_owner_ (info_sender info);
  library_addr ← of_result (addr_validate library);
  _ ← map_remove APPROVED_LIBRARIES library_addr;
  mret (mkNeutronResponse [] [("method", "remove_library"); ("library", library_addr)]).

(** [change_custom] only drops messages with a custom part, which the messages of the
    model do not have. *)
Definition execute_msg (info : MessageInfo) (msgs : list CosmosMsg) : M NeutronResponse :=
  _ ← assert_owner_or_library (info_sender info);
  mret (mkNeutronResponse (NeutronPlain <$> msgs)
          [("method", "execute_msg"); ("sender", info_sender info)]).

(** [query_balance(..).unwrap_or_default().amount >= coin.amount]. *)
Definition covers (q : Querier) (env : Env) (coin : Coin) : bool :=
  (coin_amount coin <=?
     default 0%N (unwrap_result (iq_balance q (env_contract env) (coin_denom coin))))%N.
Definition find_fee (q : Querier) (env : Env) (fees : list Coin) : option Coin :=
  head (filter (λ coin, Is_true (covers q env coin)) fees).

Definition try_register_ica (q : Querier) (env : Env) : M NeutronResponse :=
  state ← item_load ICA_STATE;
  _ ← match state with
      | IcaNotCreated | IcaClosed => mret ()
      | _ => fail (InvalidIcaState (ica_state_to_string state))
      end;
  remote_domain_info ← item_load REMOTE_DOMAIN_INFO;
  ica_registration_fee ← of_result (iq_register_fee q);
  fee_to_attach ← ok_or (find_fee q env ica_registration_fee) NotEnoughBalanceForIcaRegistration;
  register_ica_msg ← expect (register_ica_msg (env_contract env) (connection_id remote_domain_info)
                               INTERCHAIN_ACCOUNT_ID fee_to_attach);
  _ ← item_save ICA_STATE IcaInProgress;
  mret (mkNeutronResponse [register_ica_msg] [("method", "register_ica")]).

Definition execute_ica_msg (q : Querier) (env : Env) (info : MessageInfo) (msgs : list AnyMsg)
    : M NeutronResponse :=
  _ ← assert_owner_or_library (info_sender info);
  remote_domain_info ← item_load REMOTE_DOMAIN_INFO;
  min_fee ← of_result (map_err_r GenericErr (iq_min_ibc_fee q));
  let ibc_fee := min_ntrn_ibc_fee min_fee in
  untrn_fee ← expect (flatten_ntrn_ibc_fee ibc_fee);
  balance ← of_result (iq_balance q (env_contract env) NTRN_DENOM);
  _ ← fail_if (balance <? untrn_fee)%N CannotCoverIbcFee;
  mret (mkNeutronResponse
    [NeutronSubmitTx (connection_id remote_domain_info) INTERCHAIN_ACCOUNT_ID msgs ""
       (ica_timeout_seconds remote_domain_info) ibc_fee]
    [("method", "execute_ica_msg"); ("sender", info_sender info)]).

Definition update_ownership (env : Env) (info : MessageInfo) (action : OwnableAction)
    : M NeutronResponse :=
  s ← get_storage;
  result ← of_result (update_ownership_lib (s_ownership s) (env_block env) (info_sender info) action);
  _ ← item_save OWNERSHIP result;
  mret (mkNeutronResponse [] [("method", "update_ownership"); ("action", debug_action action);
          ("result", debug_ownership result)]).

Definition execute (q : Querier) (env : Env) (info : MessageInfo) (msg : ExecuteMsg)
    : M NeutronResponse :=
  match msg with
  | IcaApproveLibrary library => approve_library info library
  | IcaRemoveLibrary library => remove_library info library
  | IcaExecuteMsg msgs => execute_msg info msgs
  | ExecuteIcaMsg msgs => execute_ica_msg q env info msgs
  | RegisterIca => try_register_ica q env
  | IcaUpdateOwnership action => update_ownership env info action
  end.

(** The packet of a closed channel has no sequence or no channel. *)
Definition closed_channel (request : RequestPacket) : bool :=
  match sequence request, source_channel request with Some _, Some _ => false | _, _ => true end.
Definition close_if (c : bool) : Exec storage StdError unit :=
  if c then item_save ICA_STATE IcaClosed else mret ().
Definition sudo (_env : Env) (msg : SudoMsg) : Exec storage StdError Response :=
  match msg with
  | SudoResponse request data =>
      _ ← close_if (closed_channel request);
      mret (add_attributes [("method", "sudo_response"); ("data", binary_to_string data)] Response_new)
  | SudoError request details =>
      _ ← close_if (closed_channel request);
      mret (add_attributes [("method", "sudo_error"); ("details", details)] Response_new)
  | SudoTimeout _ =>
      _ ← item_save ICA_STATE IcaClosed;
      mret (add_attribute "method" "sudo_timeout" Response_new)
  | SudoOpenAck port_id _ _ counterparty_version =>
      parsed_version ← ok_or (parse_open_ack counterparty_version)
                         (GenericErr "Failed to parse counterparty version");
      _ ← item_save ICA_STATE (IcaCreated (mkIcaInformation (ack_address parsed_version) port_id
            (controller_connection_id parsed_version)));
      mret (add_attribute "method" "sudo_open_ack" Response_new)
  | SudoQueryResult => mret Response_new
  end.

(** The queries. *)
Definition list_approved_libraries (s : storage) : list Addr :=
  fst <$> map_range String.leb (s_approved_libraries s) None.
Definition get_ica_state (s : storage) : result StdError IcaState :=
  match s_ica_state s with Some x => Ok x | None => Err NotFound end.
Definition get_remote_domain_info (s : storage) : result StdError RemoteDomainInfo :=
  match s_remote_domain_info s with Some x => Ok x | None => Err NotFound end.
End Contract.
End InterchainAccount.
