(* ===== verification/Protocols.v ===== *)
(** * The third-party protocols the DeFi libraries talk to

    Lending on Mars ([packages/lending-utils/src/mars.rs], which restates its
    messages), the pools of Osmosis ([osmosis_std]) and the interchain queries of Neutron
    ([neutron_sdk]).  The protocols are not part of the repository: their answers to the
    queries of the libraries are the record [ProtocolQuerier], the encoding of their
    messages and the parsing of numbers are type classes, and the [Int64] arithmetic of
    [cosmwasm_std] comes with its laws. *)
From Stdlib Require Import Strings.Byte.
From S2P Require Import Prelude Platform Accounts InterchainAccount.

(** ** [mars.rs] *)
Inductive AccountKind :=
| KindDefault
| HighLeveredStrategy
| FundManager (vault_addr : string).
Record MarsAccount := mkMarsAccount { mars_account_id : string; mars_account_kind : AccountKind }.
Inductive ActionAmount := ExactAmount (amount : N) | AccountBalance.
Record ActionCoin := mkActionCoin { action_denom : string; action_amount : ActionAmount }.
Inductive MarsAction :=
| MarsDeposit (coin : Coin)
| MarsWithdrawToWallet (coin : ActionCoin) (recipient : string)
| MarsBorrow (coin : Coin)
| MarsRepay (recipient_account_id : option string) (coin : ActionCoin)
| MarsLend (coin : ActionCoin)
| MarsReclaim (coin : ActionCoin).
Inductive MarsExecuteMsg :=
| CreateCreditAccount (kind : AccountKind)
| UpdateCreditAccount (account_id : option string) (account_kind : option AccountKind)
    (actions : list MarsAction)
| RepayFromWallet (account_id : string).

(** ** Osmosis

    The fields of its messages that the libraries read and write. *)
Record ClPool := mkClPool {
  cl_token0 : string;
  cl_token1 : string;
  cl_current_tick : Z;
  cl_tick_spacing : N;
}.
(** The [token] of each pool asset. *)
Record GammPool := mkGammPool {
  gamm_pool_assets : list (option ProtoCoin);
  gamm_total_shares : option ProtoCoin;
}.
Record MsgJoinPool := mkMsgJoinPool {
  jp_sender : string;
  jp_pool_id : N;
  jp_share_out_amount : string;
  jp_token_in_maxs : list ProtoCoin;
}.
Record MsgExitPool := mkMsgExitPool {
  xp_sender : string;
  xp_pool_id : N;
  xp_share_in_amount : string;
  xp_token_out_mins : list ProtoCoin;
}.
Record MsgJoinSwapExternAmountIn := mkMsgJoinSwapExternAmountIn {
  js_sender : string;
  js_pool_id : N;
  js_token_in : option ProtoCoin;
  js_share_out_min_amount : string;
}.
Record MsgCreatePosition := mkMsgCreatePosition {
  cp_pool_id : N;
  cp_sender : string;
  cp_lower_tick : Z;
  cp_upper_tick : Z;
  cp_tokens_provided : list ProtoCoin;
  cp_token_min_amount0 : string;
  cp_token_min_amount1 : string;
}.
Record MsgWithdrawPosition := mkMsgWithdrawPosition {
  wp_position_id : N;
  wp_sender : string;
  wp_liquidity_amount : string;
}.
Record MsgTransferPositions := mkMsgTransferPositions {
  tp_position_ids : list N;
  tp_sender : string;
  tp_new_owner : string;
}.

(** ** Interchain queries: keys of a remote store, and the values under them *)
Record KVKey := mkKVKey { kv_path : string; kv_key : Binary }.
Record StorageValue := mkStorageValue {
  storage_prefix : string;
  storage_key : Binary;
  storage_value : Binary;
}.
Record InterchainQueryResult := mkInterchainQueryResult {
  kv_results : list StorageValue;
  icq_height : N;
  icq_revision : N;
}.

(** ** The answers of the protocols during a transaction *)
Record ProtocolQuerier := mkProtocolQuerier {
  (** The credit accounts of an owner, of the credit manager at an address. *)
  pq_mars_accounts : string → string → result StdError (list MarsAccount);
  (** [PoolmanagerQuerier::pool] and [spot_price], whose answer is a text. *)
  pq_pool : N → result StdError (option AnyMsg);
  pq_spot_price : N → string → string → result StdError string;
  (** [GammQuerier]: the shares for coins, and the coins for shares. *)
  pq_join_no_swap_shares : N → list ProtoCoin → result StdError string;
  pq_join_shares : N → list ProtoCoin → result StdError string;
  pq_exit_coins : N → string → result StdError (list ProtoCoin);
  (** The [liquidity] of a position, which may be missing at two places. *)
  pq_position : N → result StdError (option (option string));
  (** The module [interchainqueries]: the deposit of a new query, the deposit of a
      registered one, and its last result (the error is a [NeutronError]). *)
  pq_icq_deposit : result StdError (list Coin);
  pq_icq_registered_deposit : N → result StdError (list Coin);
  pq_icq_result : N → result string InterchainQueryResult;
  (** A smart query of any contract: its address and the JSON of the query and of the
      answer. *)
  pq_wasm_smart : string → Binary → result StdError Binary;
}.
(** [QuerierWrapper::query_wasm_smart]. *)
Definition query_wasm_smart {Q A} `{JsonCodec Q} `{JsonCodec A} (q : ProtocolQuerier)
    (contract_addr : string) (msg : Q) : result StdError A :=
  msg ← to_json_binary msg;
  answer ← pq_wasm_smart q contract_addr msg;
  from_json answer.

(** ** Encoding and parsing *)
Class OsmosisProto := {
  ClPool_try_from : AnyMsg → option ClPool;
  GammPool_try_from : AnyMsg → option GammPool;
  (** [Into<CosmosMsg>]. *)
  MsgJoinPool_into : MsgJoinPool → CosmosMsg;
  MsgExitPool_into : MsgExitPool → CosmosMsg;
  MsgJoinSwapExternAmountIn_into : MsgJoinSwapExternAmountIn → CosmosMsg;
  MsgCreatePosition_into : MsgCreatePosition → CosmosMsg;
  MsgWithdrawPosition_into : MsgWithdrawPosition → CosmosMsg;
  MsgTransferPositions_into : MsgTransferPositions → CosmosMsg;
  (** [TryFrom<SubMsgResult>]: the position id; the two amounts. *)
  MsgCreatePositionResponse_try_from : SubMsgOutcome → result StdError N;
  MsgWithdrawPositionResponse_try_from : SubMsgOutcome → result StdError (string * string);
  cosmwasm_to_proto_coins : list Coin → list ProtoCoin;
  try_proto_to_cosmwasm_coins : list ProtoCoin → result StdError (list Coin);
}.
(** [FromStr] of [Uint128] and [Decimal]; a [Decimal256] is its number of atoms, with
    [FromStr] and [Display]. *)
Class NumberText := {
  uint128_from_str : string → result StdError N;
  decimal_from_str : string → result StdError N;
  decimal256_from_str : string → result StdError N;
  decimal256_to_string : N → string;
}.

(** ** [Int64] of [cosmwasm_std] *)
Class Int64Math := {
  int64_checked_add : Z → Z → result StdError Z;
  int64_checked_sub : Z → Z → result StdError Z;
  int64_checked_mul : Z → Z → result StdError Z;
  (** With the text of the error. *)
  int64_checked_div_euclid : Z → Z → result string Z;
  int64_try_from_uint64 : N → result StdError Z;
}.
Class Int64MathLaws `{Int64Math} : Prop := {
  int64_add_spec a b r : int64_checked_add a b = Ok r ↔ r = (a + b)%Z ∧ in_i64 r;
  int64_sub_spec a b r : int64_checked_sub a b = Ok r ↔ r = (a - b)%Z ∧ in_i64 r;
  int64_mul_spec a b r : int64_checked_mul a b = Ok r ↔ r = (a * b)%Z ∧ in_i64 r;
  (** Euclidean division: the remainder is not negative. *)
  int64_div_euclid_spec a b r :
    int64_checked_div_euclid a b = Ok r ↔
    (∃ m, a = b * r + m ∧ 0 ≤ m < Z.abs b)%Z ∧ in_i64 r;
  int64_try_from_spec n r : int64_try_from_uint64 n = Ok r ↔ i64_try_from n = Some r;
}.
