(* ===== verification/LibraryBase.v ===== *)
(** * The library framework

    [packages/library-utils] and [packages/library-base]: what every library shares.
    A library is a contract with an owner, a processor and a configuration: the
    processor calls its functions, the owner updates its configuration, which is kept
    twice, as it was given ([LibraryConfig], the raw configuration) and validated
    ([Config]).  [instantiate] and [execute] are generic in the configurations, in the
    functions of the library and in its own storage cells, as in the source. *)
From Stdlib Require Import Strings.Byte.
From S2P Require Import Prelude Platform Types Format Accounts InterchainAccount Protocols.

(** ** [cw_denom] and the numbers of [cosmwasm_std]

    The denominations as the libraries take them apart; a [Decimal] is its number of
    atoms, of which there are [decimal_one] in [1.0].  A [None] is a panic. *)
Inductive UncheckedDenom := UncheckedNative (denom : string) | UncheckedCw20 (addr : string).
Inductive CheckedDenom := CheckedNative (denom : string) | CheckedCw20 (addr : Addr).
#[global] Instance UncheckedDenom_eq_dec : EqDecision UncheckedDenom. Proof. solve_decision. Defined.
#[global] Instance CheckedDenom_eq_dec : EqDecision CheckedDenom. Proof. solve_decision. Defined.
Abbreviation Decimal := N (only parsing).
Definition decimal_one : Decimal := 1000000000000000000.

Class CosmMath := {
  (** [Uint128::multiply_ratio], with a [Decimal]'s numerator and denominator. *)
  multiply_ratio : N → N → N → option N;
  (** The same with the text of its error. *)
  checked_multiply_ratio : N → N → N → result string N;
  (** [Decimal::to_uint_ceil] and [Decimal += Decimal]. *)
  to_uint_ceil : Decimal → N;
  decimal_add : Decimal → Decimal → option Decimal;
  (** The checked operations of [Uint128], with their errors. *)
  uint128_checked_div : N → N → result StdError N;
  uint128_checked_mul : N → N → result StdError N;
  uint128_checked_add : N → N → result StdError N;
  uint128_checked_sub : N → N → result StdError N;
}.
Class CosmMathLaws `{CosmMath} : Prop := {
  multiply_ratio_spec a n d r :
    multiply_ratio a n d = Some r ↔ d ≠ 0%N ∧ r = (a * n / d)%N ∧ (r ≤ u128_max)%N;
  checked_multiply_ratio_spec a n d r :
    checked_multiply_ratio a n d = Ok r ↔ d ≠ 0%N ∧ r = (a * n / d)%N ∧ (r ≤ u128_max)%N;
  to_uint_ceil_spec d : to_uint_ceil d = ((d + (decimal_one - 1)) / decimal_one)%N;
  decimal_add_spec a b : decimal_add a b = checked_add u128_max a b;
  uint128_checked_div_spec a b r :
    uint128_checked_div a b = Ok r ↔ b ≠ 0%N ∧ r = (a / b)%N;
  uint128_checked_mul_spec a b r :
    uint128_checked_mul a b = Ok r ↔ r = (a * b)%N ∧ (r ≤ u128_max)%N;
  uint128_checked_add_spec a b r :
    uint128_checked_add a b = Ok r ↔ r = (a + b)%N ∧ (r ≤ u128_max)%N;
  uint128_checked_sub_spec a b r :
    uint128_checked_sub a b = Ok r ↔ (b ≤ a)%N ∧ r = (a - b)%N;
}.

Class CwDenom := {
  get_transfer_to_message : CheckedDenom → Addr → N → result StdError CosmosMsg;
  (** [Display for CheckedDenom]. *)
  checked_denom_to_string : CheckedDenom → string;
  (** [Display for StdError]. *)
  std_error_to_string : StdError → string;
}.
Class CwDenomLaws `{CwDenom} : Prop := {
  transfer_native d who amount :
    get_transfer_to_message (CheckedNative d) who amount =
      Ok (CosmosBankSend who [mkCoin d amount]);
  transfer_cw20 a who amount : ∃ body,
    get_transfer_to_message (CheckedCw20 a) who amount = Ok (CosmosWasm (WasmExecute a body []));
}.

(** The queries of the libraries: what the chain answers during a transaction.  The
    error of [into_checked] is the text it displays. *)
Record LibQuerier := mkLibQuerier {
  q_bank_balance : Addr → string → result StdError N;
  q_into_checked : UncheckedDenom → result string CheckedDenom;
  q_denom_balance : CheckedDenom → Addr → result StdError N;
  q_dynamic_ratio : Addr → list string → string → result StdError (gmap string Decimal);
  (** [query_min_ibc_fee] of [neutron_sdk], with the text of its error. *)
  q_min_ibc_fee : result string IbcFee;
  (** The query [IcaState] of an interchain account. *)
  q_ica_state : string → result StdError IcaState;
  q_protocols : ProtocolQuerier;
}.
(** [into_checked] keeps the name of a denomination. *)
Class LibQuerierLaws (q : LibQuerier) : Prop := {
  into_checked_native d c : q_into_checked q (UncheckedNative d) = Ok c → c = CheckedNative d;
  into_checked_cw20 a c : q_into_checked q (UncheckedCw20 a) = Ok c → c = CheckedCw20 a;
}.

(** [HashMap] iterates in an order that is not specified. *)
Class HashOrder := { hash_iter : ∀ {V : Type}, gmap string V → list (string * V) }.
Class HashOrderLaws `{HashOrder} : Prop := {
  hash_iter_perm {V} (m : gmap string V) : hash_iter m ≡ₚ map_to_list m;
}.

(** [{:?}] on denominations and account types. *)
Definition debug_unchecked (d : UncheckedDenom) : string :=
  match d with
  | UncheckedNative s => "Native(" ++ debug_str s ++ ")"
  | UncheckedCw20 s => "Cw20(" ++ debug_str s ++ ")"
  end.
Definition debug_checked (d : CheckedDenom) : string :=
  match d with
  | CheckedNative s => "Native(" ++ debug_str s ++ ")"
  | CheckedCw20 s => "Cw20(Addr(" ++ debug_str s ++ "))"
  end.
Definition debug_account (l : LibraryAccountType) : string :=
  match l with
  | LibAddr s => "Addr(" ++ debug_str s ++ ")"
  | LibAccountId id => "AccountId(" ++ pretty id ++ ")"
  | LibLibraryId id => "LibraryId(" ++ pretty id ++ ")"
  end.

(** ** [library-utils/error.rs] *)
Inductive LibUnauthorizedReason := LibNotAllowed.
Inductive LibraryError :=
| LibStd (e : StdError)
| LibOwnershipError (e : OwnershipError)
| LibUnauthorized (r : LibUnauthorizedReason)
| ConfigurationError (msg : string)
| ExecutionError (msg : string).
#[global] Instance From_Std_Lib : From StdError LibraryError := LibStd.
#[global] Instance From_Ownership_Lib : From OwnershipError LibraryError := LibOwnershipError.

(** [Display for LibraryError]. *)
Definition library_error_to_string `{CwDenom} (e : LibraryError) : string :=
  match e with
  | LibStd e => std_error_to_string e
  | LibOwnershipError (OwnershipErr e) => e
  | LibUnauthorized LibNotAllowed => "Unauthorized: This address is not allowed to execute this action"
  | ConfigurationError msg => "Configuration error: " ++ msg
  | ExecutionError msg => "Execution error: " ++ msg
  end.

(** [?] on a storage-free result. *)
Definition try_ {E1 E2 A} `{From E1 E2} (r : result E1 A) : result E2 A := map_err_r from r.

(** ** [library-utils/lib.rs] and [msg.rs] *)
Inductive OptionUpdate (T : Type) := UpdNone | UpdSet (value : option T).
Arguments UpdNone {T}.
Arguments UpdSet {T}.
(** [if let Some(value) = &self.field { raw_config.field = value.clone() }] and the
    same for an optional field, in the code that [ValenceLibraryInterface] derives. *)
Definition set_field {T} (u : option T) (old : T) : T := default old u.
Definition set_option_field {T} (u : OptionUpdate T) (old : option T) : option T :=
  match u with UpdSet value => value | UpdNone => old end.
(** [get_diff_update], field by field. *)
Definition diff_field {T} `{EqDecision T} (old new : T) : option T :=
  if decide (old = new) then None else Some new.
Definition diff_option_field {T} `{EqDecision T} (old new : option T) : OptionUpdate T :=
  if decide (old = new) then UpdNone else UpdSet new.

Record LibInstantiateMsg (T : Type) := mkLibInstantiateMsg {
  li_owner : string;
  li_processor : string;
  li_config : T;
}.
Arguments mkLibInstantiateMsg {T}.
Arguments li_owner {T}.
Arguments li_processor {T}.
Arguments li_config {T}.
Inductive LibExecuteMsg (F U : Type) :=
| ProcessFunction (function : F)
| UpdateConfig (new_config : U)
| UpdateProcessor (processor : string)
| LibUpdateOwnership (action : OwnableAction).
Arguments ProcessFunction {F U}.
Arguments UpdateConfig {F U}.
Arguments UpdateProcessor {F U}.
Arguments LibUpdateOwnership {F U}.

(** The traits [LibraryConfigValidation] and [LibraryConfigUpdateTrait]. *)
Class LibraryConfigValidation (T U : Type) := {
  validate : LibQuerier → T → result LibraryError U;
}.
Class LibraryConfigUpdateTrait (V T : Type) := {
  update_raw_config : V → T → T;
}.

Section OnBehalf.
Context `{JsonCodec AccountExecuteMsg}.
Definition execute_on_behalf_of (msgs : list CosmosMsg) (account : Addr) : result StdError CosmosMsg :=
  msg ← to_json_binary (AccExecuteMsg msgs);
  Ok (CosmosWasm (WasmExecute account msg [])).
Definition execute_submsgs_on_behalf_of (msgs : list SubMsg) (payload : option string) (account : Addr)
    : result StdError CosmosMsg :=
  msg ← to_json_binary (AccExecuteSubmsgs msgs payload);
  Ok (CosmosWasm (WasmExecute account msg [])).
End OnBehalf.

(** ** [LibraryAccountType] ([library_account_type.rs]) *)
Definition to_addr `{Platform} (l : LibraryAccountType) : result StdError Addr :=
  match l with
  | LibAddr addr => addr_validate addr
  | LibAccountId _ | LibLibraryId _ => Err (GenericErr "LibraryAccountType must be an address")
  end.
(** [LibraryAccountType::to_string]. *)
Definition account_to_string (l : LibraryAccountType) : result StdError string :=
  match l with
  | LibAddr addr => Ok addr
  | LibAccountId _ | LibLibraryId _ => Err (GenericErr "LibraryAccountType must be an address")
  end.

(** [if let Some(addr) = self.addr { config.addr = addr.to_addr(api)? }]. *)
Definition update_addr `{Platform} (u : option LibraryAccountType) (old : Addr) : result LibraryError Addr :=
  match u with Some a => try_ (to_addr a) | None => Ok old end.

(** ** [library-utils/liquidity_utils.rs] *)
Record AssetData := mkAssetData { asset1 : string; asset2 : string }.
Record DecimalRange := mkDecimalRange { range_min : Decimal; range_max : Decimal }.
(** [DecimalRange::contains]. *)
Definition range_contains (self : DecimalRange) (value : Decimal) : result LibraryError unit :=
  ensure_r ((range_min self <=? value)%N && (value <=? range_max self)%N)
    (ExecutionError "Value is not within the expected range").

(** [CosmosMsg::Wasm(WasmMsg::Execute { .. })]. *)
Definition wasm_execute {M} `{JsonCodec M} (contract_addr : string) (msg : M) (funds : list Coin)
    : result LibraryError CosmosMsg :=
  msg ← try_ (to_json_binary msg);
  Ok (CosmosWasm (WasmExecute contract_addr msg funds)).

(** ** The storage of a library, and the entry points ([library-base]) *)
Module Library.

(** [Ext] are the storage cells of the library itself. *)
Record storage (Raw Cfg Ext : Type) := mkStorage {
  s_contract_info : option (string * string);
  s_ownership : option Ownership;
  s_processor : option Addr;
  s_raw_library_config : option Raw;
  s_config : option Cfg;
  s_ext : Ext;
}.
Arguments mkStorage {Raw Cfg Ext}.
Arguments s_contract_info {Raw Cfg Ext}.
Arguments s_ownership {Raw Cfg Ext}.
Arguments s_processor {Raw Cfg Ext}.
Arguments s_raw_library_config {Raw Cfg Ext}.
Arguments s_config {Raw Cfg Ext}.
Arguments s_ext {Raw Cfg Ext}.

Section Framework.
Context {Raw Cfg Ext : Type}.
Abbreviation St := (storage Raw Cfg Ext).
Abbreviation M := (Exec (storage Raw Cfg Ext) LibraryError).

Definition empty_storage (ext : Ext) : St := mkStorage None None None None None ext.
Definition CONTRACT_INFO : lens St (option (string * string)) :=
  Lens s_contract_info (λ x s, mkStorage x (s_ownership s) (s_processor s)
    (s_raw_library_config s) (s_config s) (s_ext s)).
Definition OWNERSHIP : lens St (option Ownership) :=
  Lens s_ownership (λ x s, mkStorage (s_contract_info s) x (s_processor s)
    (s_raw_library_config s) (s_config s) (s_ext s)).
Definition PROCESSOR : lens St (option Addr) :=
  Lens s_processor (λ x s, mkStorage (s_contract_info s) (s_ownership s) x
    (s_raw_library_config s) (s_config s) (s_ext s)).
Definition library_config_item : lens St (option Raw) :=
  Lens s_raw_library_config (λ x s, mkStorage (s_contract_info s) (s_ownership s) (s_processor s)
    x (s_config s) (s_ext s)).
Definition CONFIG_KEY : lens St (option Cfg) :=
  Lens s_config (λ x s, mkStorage (s_contract_info s) (s_ownership s) (s_processor s)
    (s_raw_library_config s) x (s_ext s)).
Definition EXT : lens St Ext :=
  Lens s_ext (λ x s, mkStorage (s_contract_info s) (s_ownership s) (s_processor s)
    (s_raw_library_config s) (s_config s) x).

Definition save_config (config : Cfg) : M unit := item_save CONFIG_KEY config.
Definition load_config : M Cfg := item_load CONFIG_KEY.
Definition save_raw_library_config (config : Raw) : M unit := item_save library_config_item config.
Definition load_raw_library_config : M Raw := item_load library_config_item.
Definition get_processor : M Addr := item_load PROCESSOR.

Context `{Platform} `{CwOwnable} `{CwOwnableDebug}.

Definition assert_processor (sender : Addr) : M unit :=
  processor ← item_load PROCESSOR;
  fail_if (bool_decide (sender ≠ processor)) (LibUnauthorized LibNotAllowed).
Definition assert_owner_ (sender : Addr) : M unit :=
  s ← get_storage;
  of_result (assert_owner (s_ownership s) sender).

Definition instantiate `{LibraryConfigValidation Raw Cfg} (q : LibQuerier)
    (contract_name contract_version : string) (msg : LibInstantiateMsg Raw) : M Response :=
  _ ← item_save CONTRACT_INFO (contract_name, contract_version);
  ownership ← of_result (initialize_owner (Some (li_owner msg)));
  _ ← item_save OWNERSHIP ownership;
  processor ← of_result (addr_validate (li_processor msg));
  _ ← item_save PROCESSOR processor;
  _ ← save_raw_library_config (li_config msg);
  config ← of_result (validate q (li_config msg));
  _ ← save_config config;
  mret (add_attributes [("method", "instantiate"); ("processor", li_processor msg);
          ("owner", debug_str (li_owner msg))] Response_new).

(** [update_raw], which the macro derives: load, overwrite the given fields, save. *)
Definition update_raw {U} `{LibraryConfigUpdateTrait U Raw} (new_config : U) : M unit :=
  raw_config ← load_raw_library_config;
  save_raw_library_config (update_raw_config new_config raw_config).

Definition execute {F U} `{LibraryConfigUpdateTrait U Raw}
    (process_function : Env → MessageInfo → F → Cfg → M Response)
    (update_config : Env → MessageInfo → U → M unit)
    (env : Env) (info : MessageInfo) (msg : LibExecuteMsg F U) : M Response :=
  match msg with
  | ProcessFunction function =>
      _ ← assert_processor (info_sender info);
      config ← load_config;
      process_function env info function config
  | UpdateConfig new_config =>
      _ ← assert_owner_ (info_sender info);
      _ ← update_raw new_config;
      _ ← update_config env info new_config;
      mret (add_attribute "method" "update_config" Response_new)
  | UpdateProcessor processor =>
      _ ← assert_owner_ (info_sender info);
      addr ← of_result (addr_validate processor);
      _ ← item_save PROCESSOR addr;
      mret (add_attributes [("method", "update_processor"); ("processor", processor)] Response_new)
  | LibUpdateOwnership action =>
      s ← get_storage;
      result ← of_result (update_ownership_lib (s_ownership s) (env_block env)
                            (info_sender info) action);
      _ ← item_save OWNERSHIP result;
      mret (add_attributes [("method", "update_ownership"); ("action", debug_action action);
              ("result", debug_ownership result)] Response_new)
  end.
End Framework.
End Library.
