(* ===== verification/Osmosis.v ===== *)
(** * The Osmosis libraries

    [packages/osmosis-utils/src/utils.rs] and the libraries that provide and withdraw
    liquidity: [contracts/libraries/osmosis-gamm-lper] and [osmosis-gamm-withdrawer] for
    the classic pools, [osmosis-cl-lper] and [osmosis-cl-withdrawer] for concentrated
    liquidity.  The last two send a message that they need the answer of: it goes to the
    input account as a sub-message, with the configuration as its payload, and the reply
    finishes the work. *)
From Stdlib Require Import Strings.Byte.
From S2P Require Import Prelude Platform Types Accounts InterchainAccount Protocols LibraryBase.
Import Library.

(** ** [osmosis-utils]: messages *)
Section Messages.
Context `{OsmosisProto}.
Definition get_provide_liquidity_msg (input_addr : string) (pool_id : N) (provision_coins : list Coin)
    (share_out_amt : string) : CosmosMsg :=
  MsgJoinPool_into (mkMsgJoinPool input_addr pool_id share_out_amt
    (cosmwasm_to_proto_coins provision_coins)).
Definition get_withdraw_liquidity_msg (input_addr : string) (pool_id share_in_amount : N)
    (token_out_mins : list ProtoCoin) : CosmosMsg :=
  MsgExitPool_into (mkMsgExitPool input_addr pool_id (pretty share_in_amount) token_out_mins).
(** [proto_coin_in[0]] is an index. *)
Definition get_provide_ss_liquidity_msg (input_addr : string) (pool_id : N) (provision_coin : Coin)
    (share_out_amt : string) : result StdError CosmosMsg :=
  proto_coin ← expect_r (cosmwasm_to_proto_coins [provision_coin] !! 0);
  Ok (MsgJoinSwapExternAmountIn_into
        (mkMsgJoinSwapExternAmountIn input_addr pool_id (Some proto_coin) share_out_amt)).

(** ** [gamm_utils] *)
Definition query_spot_price `{NumberText} (q : LibQuerier) (pool_id : N)
    (pool_asset_1 pool_asset_2 : string) : result StdError Decimal :=
  spot_price ← pq_spot_price (q_protocols q) pool_id pool_asset_1 pool_asset_2;
  decimal_from_str spot_price.
Definition query_pool_config (q : LibQuerier) (pool_id : N) : result StdError GammPool :=
  pool ← pq_pool (q_protocols q) pool_id;
  pool ← ok_or_r pool (GenericErr "failed to get pool");
  ok_or_r (GammPool_try_from pool) (GenericErr "failed to decode proto").
Definition query_pool_liquidity_token (q : LibQuerier) (pool_id : N) : result StdError string :=
  pool ← query_pool_config q pool_id;
  match gamm_total_shares pool with
  | Some c => Ok (proto_denom c)
  | None => Err (GenericErr "failed to get LP token of given pool")
  end.

(** ** [cl_utils] *)
Definition query_cl_pool (q : LibQuerier) (pool_id : N) : result StdError ClPool :=
  proto_pool ← pq_pool (q_protocols q) pool_id;
  proto_pool ← ok_or_r proto_pool (GenericErr "failed to query pool");
  ok_or_r (ClPool_try_from proto_pool) (GenericErr "failed to decode proto pool").
End Messages.

Record TickRange := mkTickRange { lower_tick : Z; upper_tick : Z }.

Section Ticks.
Context `{Int64Math}.
(** [TryFrom<Pool>]: the bucket the current tick is in. *)
Definition TickRange_try_from (value : ClPool) : result StdError TickRange :=
  tick_spacing ← ok_or_r (i64_try_from (cl_tick_spacing value))
                   (GenericErr "out of range integral type conversion attempted");
  quotient ← map_err_r GenericErr (int64_checked_div_euclid (cl_current_tick value) tick_spacing);
  lower_bound ← int64_checked_mul quotient tick_spacing;
  upper_bound ← int64_checked_add lower_bound tick_spacing;
  Ok (mkTickRange lower_bound upper_bound).
Definition TickRange_validate (self : TickRange) : result LibraryError unit :=
  ensure_r (lower_tick self <? upper_tick self)%Z
    (ExecutionError "lower tick must be less than upper tick").
(** [tick % spacing == 0] on [i64], where zero ticks are compatible with any spacing; the
    remainder of a division by zero is a panic. *)
Definition tick_compatible (tick spacing : Z) : result LibraryError bool :=
  if (tick =? 0)%Z then Ok true
  else if (spacing =? 0)%Z then Panic
  else Ok (Z.rem tick spacing =? 0)%Z.
Definition ensure_pool_spacing_compatibility (self : TickRange) (pool : ClPool)
    : result LibraryError unit :=
  spacing_i64 ← ok_or_r (i64_try_from (cl_tick_spacing pool)) (LibStd (GenericErr "failed to cast"));
  lower_compatible ← tick_compatible (lower_tick self) spacing_i64;
  upper_compatible ← tick_compatible (upper_tick self) spacing_i64;
  ensure_r (lower_compatible && upper_compatible)
    (ExecutionError "tick range is not a multiple of the other").
Definition ensure_contains (self other : TickRange) : result LibraryError unit :=
  ensure_r ((lower_tick self <=? lower_tick other)%Z && (upper_tick other <=? upper_tick self)%Z)
    (ExecutionError "other tick range is not contained by this range").
Definition amplify_range_bidirectionally (self : TickRange) (multiple : N) : result StdError TickRange :=
  _ ← ensure_r (negb (multiple =? 0)%N) (GenericErr "cannot have zero multiple");
  multiple_scaled ← int64_try_from_uint64 multiple;
  distance ← int64_checked_sub (upper_tick self) (lower_tick self);
  extension ← int64_checked_mul distance multiple_scaled;
  lower_tick ← int64_checked_sub (lower_tick self) extension;
  upper_tick ← int64_checked_add (upper_tick self) extension;
  Ok (mkTickRange lower_tick upper_tick).
End Ticks.

(** [if let Some(range) = expected { range.contains(value)? }]. *)
Definition check_expected (expected : option DecimalRange) (value : Decimal) : result LibraryError unit :=
  match expected with Some range => range_contains range value | None => Ok () end.

(** ** [osmosis-gamm-lper] *)
Module OsmosisGammLper.
Inductive FunctionMsgs :=
| ProvideDoubleSidedLiquidity (expected_spot_price : option DecimalRange)
| ProvideSingleSidedLiquidity (expected_spot_price : option DecimalRange) (asset : string) (limit : N).
Record LiquidityProviderConfig := mkLiquidityProviderConfig { pool_id : N; asset_data : AssetData }.
Record LibraryConfig := mkLibraryConfig {
  raw_input_addr : LibraryAccountType;
  raw_output_addr : LibraryAccountType;
  raw_lp_config : LiquidityProviderConfig;
}.
Record Config := mkConfig {
  input_addr : Addr;
  output_addr : Addr;
  lp_config : LiquidityProviderConfig;
}.
Record LibraryConfigUpdate := mkLibraryConfigUpdate {
  upd_input_addr : option LibraryAccountType;
  upd_output_addr : option LibraryAccountType;
  upd_lp_config : option LiquidityProviderConfig;
}.
#[global] Instance gamm_lper_update_raw : LibraryConfigUpdateTrait LibraryConfigUpdate LibraryConfig := {
  update_raw_config u c :=
    mkLibraryConfig (set_field (upd_input_addr u) (raw_input_addr c))
      (set_field (upd_output_addr u) (raw_output_addr c)) (set_field (upd_lp_config u) (raw_lp_config c));
}.
Abbreviation M := (Exec (storage LibraryConfig Config ()) LibraryError).

Section Contract.
Context `{Platform} `{CosmMath} `{JsonCodec AccountExecuteMsg} `{OsmosisProto} `{NumberText}.

Definition do_validate (cfg : LibraryConfig) : result LibraryError (Addr * Addr * N) :=
  input_addr ← try_ (to_addr (raw_input_addr cfg));
  output_addr ← try_ (to_addr (raw_output_addr cfg));
  Ok (input_addr, output_addr, pool_id (raw_lp_config cfg)).
(** The loop over the assets of the pool, with its two flags. *)
Definition pool_has (assets : list (option ProtoCoin)) (denom : string) : bool :=
  existsb (λ a, match a with Some c => bool_decide (denom = proto_denom c) | None => false end) assets.
#[global] Instance gamm_lper_validation : LibraryConfigValidation LibraryConfig Config := {
  validate q cfg :=
    '(input_addr, output_addr, _) ← do_validate cfg;
    pool ← try_ (query_pool_config q (pool_id (raw_lp_config cfg)));
    let assets := gamm_pool_assets pool in
    let data := asset_data (raw_lp_config cfg) in
    _ ← ensure_r (pool_has assets (asset1 data) && pool_has assets (asset2 data))
          (ExecutionError "Pool does not contain expected assets");
    Ok (mkConfig input_addr output_addr (raw_lp_config cfg));
}.
Definition update_fields (_q : LibQuerier) (u : LibraryConfigUpdate) (c : Config)
    : result LibraryError Config :=
  input_addr ← update_addr (upd_input_addr u) (input_addr c);
  output_addr ← update_addr (upd_output_addr u) (output_addr c);
  Ok (mkConfig input_addr output_addr (set_field (upd_lp_config u) (lp_config c))).
Definition update_config (q : LibQuerier) (_env : Env) (_info : MessageInfo)
    (u : LibraryConfigUpdate) : M unit :=
  config ← load_config;
  config ← of_result (update_fields q u config);
  save_config config.

Definition calculate_share_out_amt_no_swap (q : LibQuerier) (pool_id : N) (coins_in : list Coin)
    : result StdError N :=
  shares_out ← pq_join_no_swap_shares (q_protocols q) pool_id (cosmwasm_to_proto_coins coins_in);
  uint128_from_str shares_out.
Definition calculate_share_out_amt_swap (q : LibQuerier) (pool_id : N) (coin_in : list Coin)
    : result StdError N :=
  shares_out ← pq_join_shares (q_protocols q) pool_id (cosmwasm_to_proto_coins coin_in);
  uint128_from_str shares_out.

(** All of the first asset and its value in the second, or all of the second asset. *)
Definition calculate_provision_amounts (asset_1_bal asset_2_bal : Coin) (pool_ratio : Decimal)
    : result StdError (list Coin) :=
  expected_asset_2_provision_amt ← map_err_r GenericErr
    (checked_multiply_ratio (coin_amount asset_1_bal) pool_ratio decimal_one);
  if (coin_amount asset_2_bal <? expected_asset_2_provision_amt)%N then
    amount ← map_err_r GenericErr
      (checked_multiply_ratio (coin_amount asset_2_bal) decimal_one pool_ratio);
    Ok [mkCoin (coin_denom asset_1_bal) amount; asset_2_bal]
  else
    Ok [asset_1_bal; mkCoin (coin_denom asset_2_bal) expected_asset_2_provision_amt].

(** The two messages the input account executes: to join the pool, and to pass on the
    shares. *)
Definition join_and_transfer (cfg : Config) (join : CosmosMsg) (share_out_amt : N) (pool : GammPool)
    : result LibraryError Response :=
  shares ← try_ (ok_or_r (gamm_total_shares pool) (GenericErr "failed to get shares"));
  delegated ← try_ (execute_on_behalf_of
    [join; CosmosBankSend (output_addr cfg) [mkCoin (proto_denom shares) share_out_amt]]
    (input_addr cfg));
  Ok (add_message delegated Response_new).

Definition provide_single_sided_liquidity (q : LibQuerier) (cfg : Config) (asset : string) (limit : N)
    (expected_spot_price : option DecimalRange) : result LibraryError Response :=
  let id := pool_id (lp_config cfg) in
  let data := asset_data (lp_config cfg) in
  input_acc_asset_bal ← try_ (q_bank_balance q (input_addr cfg) asset);
  pool ← try_ (query_pool_config q id);
  pool_ratio ← try_ (query_spot_price q id (asset1 data) (asset2 data));
  _ ← check_expected expected_spot_price pool_ratio;
  let provision_amount := if (limit <? input_acc_asset_bal)%N then limit else input_acc_asset_bal in
  share_out_amt ← try_ (calculate_share_out_amt_swap q id [mkCoin asset provision_amount]);
  liquidity_provision_msg ← try_ (get_provide_ss_liquidity_msg (input_addr cfg) id
    (mkCoin asset provision_amount) (pretty share_out_amt));
  join_and_transfer cfg liquidity_provision_msg share_out_amt pool.

Definition provide_double_sided_liquidity (q : LibQuerier) (cfg : Config)
    (expected_spot_price : option DecimalRange) : result LibraryError Response :=
  let id := pool_id (lp_config cfg) in
  let data := asset_data (lp_config cfg) in
  bal_asset_1 ← try_ (q_bank_balance q (input_addr cfg) (asset1 data));
  bal_asset_2 ← try_ (q_bank_balance q (input_addr cfg) (asset2 data));
  pool_ratio ← try_ (query_spot_price q id (asset1 data) (asset2 data));
  pool ← try_ (query_pool_config q id);
  _ ← check_expected expected_spot_price pool_ratio;
  provision_coins ← try_ (calculate_provision_amounts (mkCoin (asset1 data) bal_asset_1)
    (mkCoin (asset2 data) bal_asset_2) pool_ratio);
  share_out_amt ← try_ (calculate_share_out_amt_no_swap q id provision_coins);
  join_and_transfer cfg
    (get_provide_liquidity_msg (input_addr cfg) id provision_coins (pretty share_out_amt))
    share_out_amt pool.

Definition process_function (q : LibQuerier) (_env : Env) (_info : MessageInfo) (msg : FunctionMsgs)
    (cfg : Config) : M Response :=
  match msg with
  | ProvideDoubleSidedLiquidity expected_spot_price =>
      of_result (provide_double_sided_liquidity q cfg expected_spot_price)
  | ProvideSingleSidedLiquidity expected_spot_price asset limit =>
      of_result (provide_single_sided_liquidity q cfg asset limit expected_spot_price)
  end.
End Contract.
End OsmosisGammLper.

(** ** [osmosis-gamm-withdrawer] *)
Module OsmosisGammWithdrawer.
Inductive FunctionMsgs := WithdrawLiquidity (expected_spot_price : option DecimalRange).
Record LiquidityWithdrawerConfig := mkLiquidityWithdrawerConfig { pool_id : N; asset_data : AssetData }.
Record LibraryConfig := mkLibraryConfig {
  raw_input_addr : LibraryAccountType;
  raw_output_addr : LibraryAccountType;
  raw_lw_config : LiquidityWithdrawerConfig;
}.
Record Config := mkConfig {
  input_addr : Addr;
  output_addr : Addr;
  lw_config : LiquidityWithdrawerConfig;
}.
Record LibraryConfigUpdate := mkLibraryConfigUpdate {
  upd_input_addr : option LibraryAccountType;
  upd_output_addr : option LibraryAccountType;
  upd_lw_config : option LiquidityWithdrawerConfig;
}.
#[global] Instance gamm_withdrawer_update_raw : LibraryConfigUpdateTrait LibraryConfigUpdate LibraryConfig := {
  update_raw_config u c :=
    mkLibraryConfig (set_field (upd_input_addr u) (raw_input_addr c))
      (set_field (upd_output_addr u) (raw_output_addr c)) (set_field (upd_lw_config u) (raw_lw_config c));
}.
Abbreviation M := (Exec (storage LibraryConfig Config ()) LibraryError).

Section Contract.
Context `{Platform} `{JsonCodec AccountExecuteMsg} `{OsmosisProto} `{NumberText}.

Definition do_validate (cfg : LibraryConfig) : result LibraryError (Addr * Addr * N) :=
  input_addr ← try_ (to_addr (raw_input_addr cfg));
  output_addr ← try_ (to_addr (raw_output_addr cfg));
  Ok (input_addr, output_addr, pool_id (raw_lw_config cfg)).
#[global] Instance gamm_withdrawer_validation : LibraryConfigValidation LibraryConfig Config := {
  validate q cfg :=
    '(input_addr, output_addr, pool_id) ← do_validate cfg;
    _ ← try_ (pq_pool (q_protocols q) pool_id);
    Ok (mkConfig input_addr output_addr (raw_lw_config cfg));
}.
Definition update_fields (_q : LibQuerier) (u : LibraryConfigUpdate) (c : Config)
    : result LibraryError Config :=
  input_addr ← update_addr (upd_input_addr u) (input_addr c);
  output_addr ← update_addr (upd_output_addr u) (output_addr c);
  Ok (mkConfig input_addr output_addr (set_field (upd_lw_config u) (lw_config c))).
Definition update_config (q : LibQuerier) (_env : Env) (_info : MessageInfo)
    (u : LibraryConfigUpdate) : M unit :=
  config ← load_config;
  config ← of_result (update_fields q u config);
  save_config config.

Definition try_withdraw_liquidity (q : LibQuerier) (cfg : Config)
    (expected_spot_price : option DecimalRange) : result LibraryError Response :=
  let id := pool_id (lw_config cfg) in
  let data := asset_data (lw_config cfg) in
  _ ← match expected_spot_price with
      | Some acceptable_spot_price_range =>
          pool_ratio ← try_ (query_spot_price q id (asset1 data) (asset2 data));
          range_contains acceptable_spot_price_range pool_ratio
      | None => Ok ()
      end;
  lp_token ← try_ (query_pool_liquidity_token q id);
  input_acc_lp_token_bal ← try_ (q_bank_balance q (input_addr cfg) lp_token);
  _ ← ensure_r (0 <? input_acc_lp_token_bal)%N
        (LibStd (GenericErr "input account must have LP tokens to withdraw"));
  tokens_out ← try_ (pq_exit_coins (q_protocols q) id (pretty input_acc_lp_token_bal));
  let remove_liquidity_msg :=
    get_withdraw_liquidity_msg (input_addr cfg) id input_acc_lp_token_bal tokens_out in
  coins_out ← try_ (try_proto_to_cosmwasm_coins tokens_out);
  delegated ← try_ (execute_on_behalf_of
    [remove_liquidity_msg; CosmosBankSend (output_addr cfg) coins_out] (input_addr cfg));
  Ok (add_message delegated Response_new).
Definition process_function (q : LibQuerier) (_env : Env) (_info : MessageInfo) (msg : FunctionMsgs)
    (cfg : Config) : M Response :=
  match msg with
  | WithdrawLiquidity expected_spot_price => of_result (try_withdraw_liquidity q cfg expected_spot_price)
  end.
End Contract.
End OsmosisGammWithdrawer.

(** ** [osmosis-cl-lper] *)
Module OsmosisClLper.
Inductive FunctionMsgs :=
| ProvideLiquidityCustom (tick_range : TickRange) (token_min_amount_0 token_min_amount_1 : option N)
| ProvideLiquidityDefault (bucket_amount : N).
Record LiquidityProviderConfig := mkLiquidityProviderConfig {
  pool_id : N;
  pool_asset_1 : string;
  pool_asset_2 : string;
  global_tick_range : TickRange;
}.
Record LibraryConfig := mkLibraryConfig {
  raw_input_addr : LibraryAccountType;
  raw_output_addr : LibraryAccountType;
  raw_lp_config : LiquidityProviderConfig;
}.
Record Config := mkConfig {
  input_addr : Addr;
  output_addr : Addr;
  lp_config : LiquidityProviderConfig;
}.
Record LibraryConfigUpdate := mkLibraryConfigUpdate {
  upd_input_addr : option LibraryAccountType;
  upd_output_addr : option LibraryAccountType;
  upd_lp_config : option LiquidityProviderConfig;
}.
#[global] Instance cl_lper_update_raw : LibraryConfigUpdateTrait LibraryConfigUpdate LibraryConfig := {
  update_raw_config u c :=
    mkLibraryConfig (set_field (upd_input_addr u) (raw_input_addr c))
      (set_field (upd_output_addr u) (raw_output_addr c)) (set_field (upd_lp_config u) (raw_lp_config c));
}.
Definition REPLY_ID : N := 314.
Abbreviation M := (Exec (storage LibraryConfig Config ()) LibraryError).

Section Contract.
Context `{Platform} `{JsonCodec AccountExecuteMsg} `{OsmosisProto} `{Int64Math}.
Context `{JsonText Config} `{JsonText ValenceCallback}.

Definition do_validate (cfg : LibraryConfig) : result LibraryError (Addr * Addr * N) :=
  input_addr ← try_ (to_addr (raw_input_addr cfg));
  output_addr ← try_ (to_addr (raw_output_addr cfg));
  _ ← TickRange_validate (global_tick_range (raw_lp_config cfg));
  Ok (input_addr, output_addr, pool_id (raw_lp_config cfg)).
#[global] Instance cl_lper_validation : LibraryConfigValidation LibraryConfig Config := {
  validate q cfg :=
    '(input_addr, output_addr, pool_id) ← do_validate cfg;
    pool ← try_ (query_cl_pool q pool_id);
    let pool_assets := [cl_token0 pool; cl_token1 pool] in
    let asset_1_found := bool_decide (pool_asset_1 (raw_lp_config cfg) ∈ pool_assets) in
    let asset_2_found := bool_decide (pool_asset_2 (raw_lp_config cfg) ∈ pool_assets) in
    _ ← ensure_r (asset_1_found && asset_2_found)
          (ExecutionError "Pool does not contain expected assets");
    Ok (mkConfig input_addr output_addr (raw_lp_config cfg));
}.
Definition update_fields (_q : LibQuerier) (u : LibraryConfigUpdate) (c : Config)
    : result LibraryError Config :=
  input_addr ← update_addr (upd_input_addr u) (input_addr c);
  output_addr ← update_addr (upd_output_addr u) (output_addr c);
  Ok (mkConfig input_addr output_addr (set_field (upd_lp_config u) (lp_config c))).
Definition update_config (q : LibQuerier) (_env : Env) (_info : MessageInfo)
    (u : LibraryConfigUpdate) : M unit :=
  config ← load_config;
  config ← of_result (update_fields q u config);
  save_config config.

(** The balances of the input account, as coins. *)
Definition input_balances (q : LibQuerier) (cfg : Config) : result LibraryError (list Coin) :=
  bal_asset_1 ← try_ (q_bank_balance q (input_addr cfg) (pool_asset_1 (lp_config cfg)));
  bal_asset_2 ← try_ (q_bank_balance q (input_addr cfg) (pool_asset_2 (lp_config cfg)));
  Ok [mkCoin (pool_asset_1 (lp_config cfg)) bal_asset_1;
      mkCoin (pool_asset_2 (lp_config cfg)) bal_asset_2].
(** The message that creates the position is a sub-message of the input account, and the
    call of the account one of the library, both with a reply on success; the
    configuration travels as the payload. *)
Definition delegate_position (cfg : Config) (create_cl_position_msg : CosmosMsg)
    : result LibraryError Response :=
  payload ← try_ (to_json_string cfg);
  delegated_input_acc_msgs ← try_ (execute_submsgs_on_behalf_of
    [SubMsg_reply_on_success create_cl_position_msg REPLY_ID] (Some payload) (input_addr cfg));
  Ok (add_submessages [SubMsg_reply_on_success delegated_input_acc_msgs REPLY_ID] Response_new).

Definition provide_liquidity_custom (q : LibQuerier) (cfg : Config) (tick_range : TickRange)
    (token_min_amount_0 token_min_amount_1 : N) : result LibraryError Response :=
  _ ← TickRange_validate tick_range;
  balances ← input_balances q cfg;
  pool_cfg ← try_ (query_cl_pool q (pool_id (lp_config cfg)));
  _ ← ensure_pool_spacing_compatibility tick_range pool_cfg;
  _ ← ensure_contains (global_tick_range (lp_config cfg)) tick_range;
  delegate_position cfg (MsgCreatePosition_into (mkMsgCreatePosition (pool_id (lp_config cfg))
    (input_addr cfg) (lower_tick tick_range) (upper_tick tick_range)
    (cosmwasm_to_proto_coins balances) (pretty token_min_amount_0) (pretty token_min_amount_1))).

Definition provide_liquidity_default (q : LibQuerier) (cfg : Config) (bucket_count : N)
    : result LibraryError Response :=
  balances ← input_balances q cfg;
  pool_cfg ← try_ (query_cl_pool q (pool_id (lp_config cfg)));
  active_bucket ← try_ (TickRange_try_from pool_cfg);
  derived_tick_range ← try_ (amplify_range_bidirectionally active_bucket bucket_count);
  _ ← ensure_contains (global_tick_range (lp_config cfg)) derived_tick_range;
  delegate_position cfg (MsgCreatePosition_into (mkMsgCreatePosition (pool_id (lp_config cfg))
    (input_addr cfg) (lower_tick derived_tick_range) (upper_tick derived_tick_range)
    (cosmwasm_to_proto_coins balances) "0" "0")).

Definition process_function (q : LibQuerier) (_env : Env) (_info : MessageInfo) (msg : FunctionMsgs)
    (cfg : Config) : M Response :=
  match msg with
  | ProvideLiquidityCustom tick_range token_min_amount_0 token_min_amount_1 =>
      of_result (provide_liquidity_custom q cfg tick_range (default 0%N token_min_amount_0)
        (default 0%N token_min_amount_1))
  | ProvideLiquidityDefault bucket_amount => of_result (provide_liquidity_default q cfg bucket_amount)
  end.

(** The position goes to the output account. *)
Definition handle_liquidity_provision_reply_id (result_ : SubMsgOutcome) : result LibraryError Response :=
  cfg ← try_ (parse_valence_payload result_ : result StdError Config);
  valence_callback ← try_ (ValenceCallback_try_from result_);
  position_id ← try_ (MsgCreatePositionResponse_try_from (cb_result valence_callback));
  msg ← try_ (execute_on_behalf_of [MsgTransferPositions_into (mkMsgTransferPositions [position_id]
    (input_addr cfg) (output_addr cfg))] (input_addr cfg));
  Ok (add_message msg Response_new).
Definition reply (_env : Env) (msg : HostReply) : M Response :=
  if (host_reply_id msg =? REPLY_ID)%N
  then of_result (handle_liquidity_provision_reply_id (host_reply_result msg))
  else fail (LibStd (GenericErr "unknown reply id")).
End Contract.
End OsmosisClLper.

(** ** [osmosis-cl-withdrawer] *)
Module OsmosisClWithdrawer.
(** [liquidity_amount] is a [Decimal256], its atoms. *)
Inductive FunctionMsgs := WithdrawLiquidity (position_id : N) (liquidity_amount : option N).
Record LibraryConfig := mkLibraryConfig {
  raw_input_addr : LibraryAccountType;
  raw_output_addr : LibraryAccountType;
  raw_pool_id : N;
}.
Record Config := mkConfig { input_addr : Addr; output_addr : Addr; pool_id : N }.
Record LibraryConfigUpdate := mkLibraryConfigUpdate {
  upd_input_addr : option LibraryAccountType;
  upd_output_addr : option LibraryAccountType;
  upd_pool_id : option N;
}.
#[global] Instance cl_withdrawer_update_raw : LibraryConfigUpdateTrait LibraryConfigUpdate LibraryConfig := {
  update_raw_config u c :=
    mkLibraryConfig (set_field (upd_input_addr u) (raw_input_addr c))
      (set_field (upd_output_addr u) (raw_output_addr c)) (set_field (upd_pool_id u) (raw_pool_id c));
}.
Definition REPLY_ID : N := 314.
Abbreviation M := (Exec (storage LibraryConfig Config ()) LibraryError).

Section Contract.
Context `{Platform} `{JsonCodec AccountExecuteMsg} `{OsmosisProto} `{NumberText}.
Context `{JsonText Config} `{JsonText ValenceCallback}.

Definition do_validate (cfg : LibraryConfig) : result LibraryError (Addr * Addr * N) :=
  input_addr ← try_ (to_addr (raw_input_addr cfg));
  output_addr ← try_ (to_addr (raw_output_addr cfg));
  Ok (input_addr, output_addr, raw_pool_id cfg).
#[global] Instance cl_withdrawer_validation : LibraryConfigValidation LibraryConfig Config := {
  validate q cfg :=
    '(input_addr, output_addr, pool_id) ← do_validate cfg;
    _ ← try_ (query_cl_pool q pool_id);
    Ok (mkConfig input_addr output_addr pool_id);
}.
Definition update_fields (q : LibQuerier) (u : LibraryConfigUpdate) (c : Config)
    : result LibraryError Config :=
  input_addr ← update_addr (upd_input_addr u) (input_addr c);
  output_addr ← update_addr (upd_output_addr u) (output_addr c);
  pool_id ← match upd_pool_id u with
            | Some pool => _ ← try_ (query_cl_pool q pool); Ok pool
            | None => Ok (pool_id c)
            end;
  Ok (mkConfig input_addr output_addr pool_id).
Definition update_config (q : LibQuerier) (_env : Env) (_info : MessageInfo)
    (u : LibraryConfigUpdate) : M unit :=
  config ← load_config;
  config ← of_result (update_fields q u config);
  save_config config.

(** How much of a position of [total] liquidity is withdrawn. *)
Definition liquidity_to_withdraw (liquidity_amount : option N) (total_position_liquidity : N)
    : result LibraryError N :=
  match liquidity_amount with
  | Some amt =>
      _ ← ensure_r (amt <=? total_position_liquidity)%N
            (LibStd (GenericErr ("insufficient liquidity: " ++ decimal256_to_string amt ++ " > " ++
               decimal256_to_string total_position_liquidity)));
      Ok amt
  | None => Ok total_position_liquidity
  end.
Definition try_liquidate_cl_position (q : LibQuerier) (cfg : Config) (position_id : N)
    (liquidity_amount : option N) : result LibraryError Response :=
  response ← try_ (pq_position (q_protocols q) position_id);
  position_liquidity ← try_ (ok_or_r (response ≫= id) (GenericErr "failed to get cl position"));
  total_position_liquidity ← try_ (decimal256_from_str position_liquidity);
  liquidity_to_withdraw ← liquidity_to_withdraw liquidity_amount total_position_liquidity;
  let liquidate_position_msg := MsgWithdrawPosition_into
    (mkMsgWithdrawPosition position_id (input_addr cfg) (pretty liquidity_to_withdraw)) in
  payload ← try_ (to_json_string cfg);
  delegated_input_acc_msgs ← try_ (execute_submsgs_on_behalf_of
    [SubMsg_reply_on_success liquidate_position_msg REPLY_ID] (Some payload) (input_addr cfg));
  Ok (add_submessages [SubMsg_reply_on_success delegated_input_acc_msgs REPLY_ID] Response_new).
Definition process_function (q : LibQuerier) (_env : Env) (_info : MessageInfo) (msg : FunctionMsgs)
    (cfg : Config) : M Response :=
  match msg with
  | WithdrawLiquidity position_id liquidity_amount =>
      of_result (try_liquidate_cl_position q cfg position_id liquidity_amount)
  end.

(** The coins that are not empty. *)
Definition withdrawn_coins (pool : ClPool) (amt_0 amt_1 : N) : list Coin :=
  (if (amt_0 =? 0)%N then [] else [mkCoin (cl_token0 pool) amt_0]) ++
  (if (amt_1 =? 0)%N then [] else [mkCoin (cl_token1 pool) amt_1]).
Definition handle_liquidity_withdrawal_reply (q : LibQuerier) (result_ : SubMsgOutcome)
    : result LibraryError Response :=
  cfg ← try_ (parse_valence_payload result_ : result StdError Config);
  valence_callback ← try_ (ValenceCallback_try_from result_);
  '(amount0, amount1) ← try_ (MsgWithdrawPositionResponse_try_from (cb_result valence_callback));
  pool ← try_ (query_cl_pool q (pool_id cfg));
  amt_0 ← try_ (uint128_from_str amount0);
  amt_1 ← try_ (uint128_from_str amount1);
  msg ← try_ (execute_on_behalf_of
    [CosmosBankSend (output_addr cfg) (withdrawn_coins pool amt_0 amt_1)] (input_addr cfg));
  Ok (add_message msg Response_new).
Definition reply (q : LibQuerier) (_env : Env) (msg : HostReply) : M Response :=
  if (host_reply_id msg =? REPLY_ID)%N
  then of_result (handle_liquidity_withdrawal_reply q (host_reply_result msg))
  else fail (LibStd (GenericErr "unknown reply id")).
End Contract.
End OsmosisClWithdrawer.
