(* ===== verification/MarsLending.v ===== *)
(** * The Mars lending library

    [contracts/libraries/mars-lending]: lends the funds of the input account, withdraws,
    borrows and repays, through the credit account the input account owns at the credit
    manager of Mars.  When there is none yet, lending first creates it, and goes on in the
    reply. *)
From Stdlib Require Import Strings.Byte.
From S2P Require Import Prelude Platform Types Accounts Protocols LibraryBase.
Import Library.

Module MarsLending.
Inductive FunctionMsgs :=
| Lend
| Borrow (coin : Coin)
| Repay (coin : Coin)
| Withdraw (amount : option N).
Record LibraryConfig := mkLibraryConfig {
  raw_input_addr : LibraryAccountType;
  raw_output_addr : LibraryAccountType;
  raw_credit_manager_addr : string;
  raw_denom : string;
}.
Record Config := mkConfig {
  input_addr : Addr;
  output_addr : Addr;
  credit_manager_addr : Addr;
  denom : string;
}.
Record LibraryConfigUpdate := mkLibraryConfigUpdate {
  upd_input_addr : option LibraryAccountType;
  upd_output_addr : option LibraryAccountType;
  upd_credit_manager_addr : option string;
  upd_denom : option string;
}.
#[global] Instance mars_update_raw : LibraryConfigUpdateTrait LibraryConfigUpdate LibraryConfig := {
  update_raw_config u c :=
    mkLibraryConfig (set_field (upd_input_addr u) (raw_input_addr c))
      (set_field (upd_output_addr u) (raw_output_addr c))
      (set_field (upd_credit_manager_addr u) (raw_credit_manager_addr c))
      (set_field (upd_denom u) (raw_denom c));
}.
Definition CREATE_CREDIT_ACC_REPLY_ID : N := 1.
Abbreviation M := (Exec (storage LibraryConfig Config ()) LibraryError).

Section Contract.
Context `{Platform} `{JsonCodec AccountExecuteMsg} `{JsonCodec MarsExecuteMsg} `{JsonText Config}.

Definition do_validate (cfg : LibraryConfig) : result LibraryError (Addr * Addr * Addr) :=
  input_addr ← try_ (to_addr (raw_input_addr cfg));
  output_addr ← try_ (to_addr (raw_output_addr cfg));
  credit_manager_addr ← try_ (addr_validate (raw_credit_manager_addr cfg));
  Ok (input_addr, output_addr, credit_manager_addr).
#[global] Instance mars_validation : LibraryConfigValidation LibraryConfig Config := {
  validate _q cfg :=
    '(input_addr, output_addr, credit_manager_address) ← do_validate cfg;
    Ok (mkConfig input_addr output_addr credit_manager_address (raw_denom cfg));
}.
Definition update_fields (_q : LibQuerier) (u : LibraryConfigUpdate) (c : Config)
    : result LibraryError Config :=
  input_addr ← update_addr (upd_input_addr u) (input_addr c);
  output_addr ← update_addr (upd_output_addr u) (output_addr c);
  credit_manager_addr ← match upd_credit_manager_addr u with
                        | Some a => try_ (addr_validate a)
                        | None => Ok (credit_manager_addr c)
                        end;
  Ok (mkConfig input_addr output_addr credit_manager_addr (set_field (upd_denom u) (denom c))).
Definition update_config (q : LibQuerier) (_env : Env) (_info : MessageInfo)
    (u : LibraryConfigUpdate) : M unit :=
  config ← load_config;
  config ← of_result (update_fields q u config);
  save_config config.

(** The first credit account of an owner. *)
Definition get_credit_account (q : LibQuerier) (credit_manager_addr owner : string)
    : result LibraryError MarsAccount :=
  credit_accounts ← try_ (pq_mars_accounts (q_protocols q) credit_manager_addr owner);
  ok_or_r (head credit_accounts) (ExecutionError "No credit account found").
(** A call of the credit manager. *)
Definition credit_manager_msg (cfg : Config) (msg : MarsExecuteMsg) (funds : list Coin)
    : result StdError CosmosMsg :=
  msg ← to_json_binary msg;
  Ok (CosmosWasm (WasmExecute (credit_manager_addr cfg) msg funds)).
Definition update_account (credit_account : MarsAccount) (actions : list MarsAction) : MarsExecuteMsg :=
  UpdateCreditAccount (Some (mars_account_id credit_account)) (Some KindDefault) actions.

(** [Display for Coin]. *)
Definition display_coin (c : Coin) : string := (pretty (coin_amount c) ++ coin_denom c)%string.
Definition lend (cfg : Config) (credit_account : MarsAccount) (balance : Coin)
    : result LibraryError Response :=
  lend_msg ← try_ (credit_manager_msg cfg (update_account credit_account
    [MarsDeposit balance; MarsLend (mkActionCoin (denom cfg) AccountBalance)]) [balance]);
  execute_msg ← try_ (execute_on_behalf_of [lend_msg] (input_addr cfg));
  Ok (add_attributes [("method", "lend"); ("account_id", mars_account_id credit_account);
        ("owner", input_addr cfg); ("amount", display_coin balance)]
        (add_message execute_msg Response_new)).

(** The balance that is lent; there must be one. *)
Definition funds_to_lend (q : LibQuerier) (cfg : Config) : result LibraryError Coin :=
  balance ← try_ (q_bank_balance q (input_addr cfg) (denom cfg));
  _ ← ensure_r (negb (balance =? 0)%N) (ExecutionError "No funds to lend");
  Ok (mkCoin (denom cfg) balance).
Definition create_credit_account (cfg : Config) : result LibraryError Response :=
  create_credit_acc_msg ← try_ (credit_manager_msg cfg (CreateCreditAccount KindDefault) []);
  payload ← try_ (to_json_string cfg);
  delegated_input_acc_msgs ← try_ (execute_submsgs_on_behalf_of
    [SubMsg_reply_on_success create_credit_acc_msg CREATE_CREDIT_ACC_REPLY_ID] (Some payload)
    (input_addr cfg));
  Ok (add_attribute "method" "create_credit_account" (add_submessages
    [SubMsg_reply_on_success delegated_input_acc_msgs CREATE_CREDIT_ACC_REPLY_ID] Response_new)).
Definition try_lend (q : LibQuerier) (cfg : Config) : result LibraryError Response :=
  balance ← funds_to_lend q cfg;
  match get_credit_account q (credit_manager_addr cfg) (input_addr cfg) with
  | Ok credit_account => lend cfg credit_account balance
  | Err _ => create_credit_account cfg
  | Panic => Panic
  end.

Definition try_withdraw (q : LibQuerier) (cfg : Config) (amount : option N)
    : result LibraryError Response :=
  credit_acc ← get_credit_account q (credit_manager_addr cfg) (input_addr cfg);
  let withdrawal_amount := match amount with Some amt => ExactAmount amt | None => AccountBalance end in
  let coin := mkActionCoin (denom cfg) withdrawal_amount in
  withdraw_msg ← try_ (credit_manager_msg cfg (update_account credit_acc
    [MarsReclaim coin; MarsWithdrawToWallet coin (output_addr cfg)]) []);
  execute_msg ← try_ (execute_on_behalf_of [withdraw_msg] (input_addr cfg));
  Ok (add_attributes [("method", "withdraw"); ("account_id", mars_account_id credit_acc);
        ("owner", input_addr cfg); ("output", output_addr cfg)]
        (add_message execute_msg Response_new)).
Definition try_borrow (q : LibQuerier) (cfg : Config) (coin : Coin) : result LibraryError Response :=
  credit_acc ← get_credit_account q (credit_manager_addr cfg) (input_addr cfg);
  borrow_message ← try_ (credit_manager_msg cfg (update_account credit_acc
    [MarsBorrow coin;
     MarsWithdrawToWallet (mkActionCoin (coin_denom coin) (ExactAmount (coin_amount coin)))
       (output_addr cfg)]) []);
  execute_msg ← try_ (execute_on_behalf_of [borrow_message] (input_addr cfg));
  Ok (add_attributes [("method", "borrow"); ("account_id", mars_account_id credit_acc);
        ("denom", coin_denom coin); ("amount", pretty (coin_amount coin)); ("owner", input_addr cfg)]
        (add_message execute_msg Response_new)).
Definition try_repay (q : LibQuerier) (cfg : Config) (coin : Coin) : result LibraryError Response :=
  credit_acc ← get_credit_account q (credit_manager_addr cfg) (input_addr cfg);
  repay_message ← try_ (credit_manager_msg cfg (RepayFromWallet (mars_account_id credit_acc)) [coin]);
  execute_msg ← try_ (execute_on_behalf_of [repay_message] (input_addr cfg));
  Ok (add_attributes [("method", "repay"); ("account_id", mars_account_id credit_acc);
        ("owner", input_addr cfg); ("output", output_addr cfg)]
        (add_message execute_msg Response_new)).

Definition process_function (q : LibQuerier) (_env : Env) (_info : MessageInfo) (msg : FunctionMsgs)
    (cfg : Config) : M Response :=
  of_result match msg with
            | Lend => try_lend q cfg
            | Withdraw amount => try_withdraw q cfg amount
            | Borrow coin => try_borrow q cfg coin
            | Repay coin => try_repay q cfg coin
            end.

Definition lend_after_creation (q : LibQuerier) (result_ : SubMsgOutcome) : result LibraryError Response :=
  cfg ← try_ (parse_valence_payload result_ : result StdError Config);
  balance ← funds_to_lend q cfg;
  credit_account ← get_credit_account q (credit_manager_addr cfg) (input_addr cfg);
  lend cfg credit_account balance.
Definition reply (q : LibQuerier) (_env : Env) (msg : HostReply) : M Response :=
  if (host_reply_id msg =? CREATE_CREDIT_ACC_REPLY_ID)%N
  then of_result (lend_after_creation q (host_reply_result msg))
  else fail (LibStd (GenericErr "unknown reply id")).
End Contract.
End MarsLending.
