(* ===== verification/Middleware.v ===== *)
(** * The middleware

    The canonical types of [packages/middleware-utils] and their queries; the asserter
    ([contracts/middleware/asserter]), which compares values of storage accounts; the
    broker of the type registries ([contracts/middleware/broker]); and the provider of
    ratios for the splitters ([contracts/middleware/dynamic-ratio-query-provider]). *)
From Stdlib Require Import Strings.Byte.
From S2P Require Import Prelude Platform Types Accounts InterchainAccount Protocols LibraryBase.

(** ** [middleware-utils] *)
Inductive ValencePrimitive :=
| PrimDecimal (d : Decimal)
| PrimUint64 (n : N)
| PrimUint128 (n : N)
| PrimUint256 (n : N)
| PrimString (s : string).
Record ValenceXykPool := mkValenceXykPool {
  pool_assets : list Coin;
  total_shares : string;
  domain_specific_fields : gmap string Binary;
}.
Inductive XykPoolQuery := GetPrice | GetPoolAssetAmount (target_denom : string).
Record ValenceBankBalance := mkValenceBankBalance { balance_assets : list Coin }.
Inductive BankBalanceQuery := GetDenomAmount (denom : string).
Inductive ValenceType := XykPool (p : ValenceXykPool) | BankBalance (b : ValenceBankBalance).

(** The queries of a type registry, and what it answers for a native type. *)
Inductive RegistryQueryMsg :=
| FromCanonical (obj : ValenceType)
| ToCanonical (type_url : string) (binary : Binary)
| QueryKVKey (type_id : string) (params : gmap string Binary)
| ReconstructProto (type_id : string) (icq_result : InterchainQueryResult).
Record NativeTypeWrapper := mkNativeTypeWrapper { native_binary : Binary }.

Inductive MiddlewareError :=
| MiddlewareStd (e : StdError)
| ParseIntError (e : string)
| DecodeError (e : string)
| NeutronE (e : string)
| SemverError (e : string)
| CanonicalConversionError (e : string).
#[global] Instance From_Std_Middleware : From StdError MiddlewareError := MiddlewareStd.

(** [Decimal::from_ratio] on two [Uint128]; a [None] is a panic. *)
Class DecimalRatio := { decimal_from_ratio : N → N → option Decimal }.
Class DecimalRatioLaws `{DecimalRatio} : Prop := {
  decimal_from_ratio_spec a b r :
    decimal_from_ratio a b = Some r ↔
    b ≠ 0%N ∧ r = (a * decimal_one / b)%N ∧ (r ≤ u128_max)%N;
}.

(** [iter().find(|c| c.denom == denom)]. *)
Definition find_coin (denom : string) (coins : list Coin) : option Coin :=
  head (filter (λ c, coin_denom c = denom) coins).

Section Queries.
Context `{DecimalRatio} `{JsonCodec XykPoolQuery} `{JsonCodec BankBalanceQuery}.

Definition query_xyk_pool (self : ValenceXykPool) (msg : Binary) : result StdError ValencePrimitive :=
  query_msg ← from_json msg;
  match query_msg with
  | GetPrice =>
      match pool_assets self with
      | [a; b] =>
          if (coin_amount a =? 0)%N || (coin_amount b =? 0)%N
          then Err (GenericErr "price can't be calculated if any of the assets amount is zero")
          else
            price ← expect_r (decimal_from_ratio (coin_amount a) (coin_amount b));
            Ok (PrimDecimal price)
      | _ => Err (GenericErr "price can be calculated iff xyk pool contains exactly 2 assets")
      end
  | GetPoolAssetAmount target_denom =>
      match find_coin target_denom (pool_assets self) with
      | Some coin => Ok (PrimUint128 (coin_amount coin))
      | None => Err (GenericErr "target coin not found")
      end
  end.
Fixpoint denom_amount (denom : string) (coins : list Coin) : result StdError ValencePrimitive :=
  match coins with
  | [] => Err (GenericErr "denom not found")
  | coin :: coins =>
      if bool_decide (coin_denom coin = denom) then Ok (PrimUint128 (coin_amount coin))
      else denom_amount denom coins
  end.
Definition query_bank_balance (self : ValenceBankBalance) (msg : Binary)
    : result StdError ValencePrimitive :=
  query_msg ← from_json msg;
  match query_msg with GetDenomAmount denom => denom_amount denom (balance_assets self) end.
Definition query_valence (self : ValenceType) (query : Binary) : result StdError ValencePrimitive :=
  match self with
  | XykPool var => query_xyk_pool var query
  | BankBalance var => query_bank_balance var query
  end.
End Queries.

(** [try_unpack_domain_specific_value] unwraps the lookup of the key. *)
Definition try_unpack_domain_specific_value {T} `{JsonCodec T} (key : string)
    (fields : gmap string Binary) : result StdError T :=
  match fields !! key with
  | Some binary => from_json binary
  | None => Panic
  end.
Definition get_domain_specific_field {T} `{JsonCodec T} (self : ValenceXykPool) (key : string)
    : result StdError T :=
  try_unpack_domain_specific_value key (domain_specific_fields self).

(** ** The asserter *)
Module Asserter.
Inductive Predicate := LT | LTE | EQ | GT | GTE.
Record QueryInfo := mkQueryInfo {
  storage_account : string;
  storage_slot_key : string;
  info_query : Binary;
}.
Inductive AssertionValue := Variable_ (query_info : QueryInfo) | Constant (value : ValencePrimitive).
Inductive ExecuteMsg := Assert (a : AssertionValue) (predicate : Predicate) (b : AssertionValue).

(** [Predicate::eval], given the [<] and [==] of the type. *)
Definition eval {T} (ltb eqb : T → T → bool) (self : Predicate) (a b : T) : bool :=
  match self with
  | LT => ltb a b
  | LTE => ltb a b || eqb a b
  | EQ => eqb a b
  | GT => ltb b a
  | GTE => ltb b a || eqb a b
  end.

(** The storage accounts of the chain: the slot of a key. *)
Definition StorageAccounts : Type := string → string → result StdError ValenceType.

Section Contract.
Context `{DecimalRatio} `{JsonCodec XykPoolQuery} `{JsonCodec BankBalanceQuery}.

Definition get_comparable_value (querier : StorageAccounts) (value : AssertionValue)
    : result StdError ValencePrimitive :=
  match value with
  | Variable_ query_info =>
      valence_type ← querier (storage_account query_info) (storage_slot_key query_info);
      query_valence valence_type (info_query query_info)
  | Constant value_type => Ok value_type
  end.
Definition evaluate_assertion (querier : StorageAccounts) (a : AssertionValue) (predicate : Predicate)
    (b : AssertionValue) : result StdError bool :=
  a_cmp ← get_comparable_value querier a;
  b_cmp ← get_comparable_value querier b;
  match a_cmp, b_cmp with
  | PrimDecimal a, PrimDecimal b | PrimUint256 a, PrimUint256 b
  | PrimUint128 a, PrimUint128 b | PrimUint64 a, PrimUint64 b => Ok (eval N.ltb N.eqb predicate a b)
  | PrimString a, PrimString b => Ok (eval String.ltb String.eqb predicate a b)
  | _, _ => Err (GenericErr "variant mismatch")
  end.

(** The contract has no state but its version. *)
Definition storage : Type := option (string * string).
Definition CONTRACT_INFO : lens storage (option (string * string)) := Lens (λ s, s) (λ x _, x).
Definition CONTRACT_NAME : string := "valence-middleware-asserter".
Definition CONTRACT_VERSION : string := "0.2.0".
Definition instantiate (_env : Env) (_info : MessageInfo) : Exec storage MiddlewareError Response :=
  _ ← item_save CONTRACT_INFO (CONTRACT_NAME, CONTRACT_VERSION);
  mret Response_new.
Definition execute (querier : StorageAccounts) (_env : Env) (_info : MessageInfo) (msg : ExecuteMsg)
    : Exec storage MiddlewareError Response :=
  match msg with
  | Assert a predicate b =>
      holds ← of_result (evaluate_assertion querier a predicate b);
      if (holds : bool) then mret Response_new
      else fail (MiddlewareStd (GenericErr "assertion failed"))
  end.
End Contract.
End Asserter.

(** ** The broker of the type registries *)
Module TypeBroker.
Record TypeRegistry := mkTypeRegistry { registry_address : Addr; registry_version_text : string }.
Inductive ExecuteMsg := SetRegistry (version address : string).
Record QueryMsg := mkQueryMsg { query_registry_version : option string; registry_query : RegistryQueryMsg }.
Record storage := mkStorage {
  s_contract_info : option (string * string);
  s_active_registries : gmap string TypeRegistry;
  s_latest : option string;
}.
Definition empty_storage : storage := mkStorage None ∅ None.
Definition CONTRACT_INFO : lens storage (option (string * string)) :=
  Lens s_contract_info (λ x s, mkStorage x (s_active_registries s) (s_latest s)).
Definition ACTIVE_REGISTRIES : lens storage (gmap string TypeRegistry) :=
  Lens s_active_registries (λ x s, mkStorage (s_contract_info s) x (s_latest s)).
Definition LATEST : lens storage (option string) :=
  Lens s_latest (λ x s, mkStorage (s_contract_info s) (s_active_registries s) x).
Definition CONTRACT_NAME : string := "valence-middleware-broker".
Definition CONTRACT_VERSION : string := "0.2.0".
(** [Version::from_str] of [semver], then [to_string]; with the text of the error. *)
Class Semver := { semver_normalize : string → result string string }.

Section Contract.
Context `{Platform} `{Semver}.
Abbreviation M := (Exec storage MiddlewareError).
Definition instantiate (_env : Env) (_info : MessageInfo) : M Response :=
  _ ← item_save CONTRACT_INFO (CONTRACT_NAME, CONTRACT_VERSION);
  mret Response_new.
Definition try_add_new_registry (version addr : string) : M Response :=
  addr ← of_result (addr_validate addr);
  version ← of_result (map_err_r SemverError (semver_normalize version));
  _ ← map_save ACTIVE_REGISTRIES version (mkTypeRegistry addr version);
  _ ← item_save LATEST version;
  mret Response_new.
Definition execute (_env : Env) (_info : MessageInfo) (msg : ExecuteMsg) : M Response :=
  match msg with SetRegistry version address => try_add_new_registry version address end.

(** A query is passed on to a registry, the given one or the latest; the answer is
    decoded and encoded again. *)
Context `{JsonCodec RegistryQueryMsg} `{JsonCodec NativeTypeWrapper} `{JsonCodec KVKey}.
Context `{JsonCodec ValenceType}.
Definition try_decode_proto (q : ProtocolQuerier) (registry type_id : string)
    (icq_result : InterchainQueryResult) : result StdError Binary :=
  resp ← (query_wasm_smart q registry (ReconstructProto type_id icq_result)
    : result StdError NativeTypeWrapper);
  to_json_binary resp.
Definition try_get_kv_key (q : ProtocolQuerier) (registry type_id : string)
    (params : gmap string Binary) : result StdError Binary :=
  response ← (query_wasm_smart q registry (QueryKVKey type_id params) : result StdError KVKey);
  to_json_binary response.
Definition try_to_canonical (q : ProtocolQuerier) (registry type_url : string) (binary : Binary)
    : result StdError Binary :=
  response ← (query_wasm_smart q registry (ToCanonical type_url binary) : result StdError ValenceType);
  to_json_binary response.
Definition try_from_canonical (q : ProtocolQuerier) (registry : string) (canonical : ValenceType)
    : result StdError Binary :=
  response ← (query_wasm_smart q registry (FromCanonical canonical)
    : result StdError NativeTypeWrapper);
  to_json_binary response.
Definition query (q : ProtocolQuerier) (s : storage) (msg : QueryMsg) : result StdError Binary :=
  target_version ← match query_registry_version msg with
                   | Some version => Ok version
                   | None => ok_or_r (s_latest s) NotFound
                   end;
  registry ← ok_or_r (s_active_registries s !! target_version) NotFound;
  match registry_query msg with
  | ReconstructProto type_id icq_result =>
      try_decode_proto q (registry_address registry) type_id icq_result
  | QueryKVKey type_id params => try_get_kv_key q (registry_address registry) type_id params
  | ToCanonical type_url binary => try_to_canonical q (registry_address registry) type_url binary
  | FromCanonical obj => try_from_canonical q (registry_address registry) obj
  end.
End Contract.
End TypeBroker.

(** ** The provider of dynamic ratios *)
Module RatioProvider.
Definition DenomSplitMap : Type := gmap string (gmap string Decimal).
Record InstantiateMsg := mkInstantiateMsg { rp_admin : string; rp_split_cfg : DenomSplitMap }.
Inductive ExecuteMsg := UpdateRatios (split_cfg : DenomSplitMap) | RpUpdateOwnership (action : OwnableAction).
Record storage := mkStorage {
  s_contract_info : option (string * string);
  s_ownership : option Ownership;
  s_denom_splits : DenomSplitMap;
}.
Definition empty_storage : storage := mkStorage None None ∅.
Definition CONTRACT_INFO : lens storage (option (string * string)) :=
  Lens s_contract_info (λ x s, mkStorage x (s_ownership s) (s_denom_splits s)).
Definition OWNERSHIP : lens storage (option Ownership) :=
  Lens s_ownership (λ x s, mkStorage (s_contract_info s) x (s_denom_splits s)).
Definition DENOM_SPLITS : lens storage DenomSplitMap :=
  Lens s_denom_splits (λ x s, mkStorage (s_contract_info s) (s_ownership s) x).
Definition CONTRACT_NAME : string := "valence-dynamic-ratio-query-provider".
Definition CONTRACT_VERSION : string := "0.2.0".

Section Contract.
Context `{Platform} `{CwOwnable} `{CwOwnableDebug} `{HashOrder}.
Abbreviation M := (Exec storage StdError).
Definition save_splits (split_cfg : DenomSplitMap) : M unit :=
  for_each (hash_iter split_cfg) (λ '(denom, split), map_save DENOM_SPLITS denom split).
Definition instantiate (_env : Env) (_info : MessageInfo) (msg : InstantiateMsg) : M Response :=
  _ ← item_save CONTRACT_INFO (CONTRACT_NAME, CONTRACT_VERSION);
  ownership ← of_result (initialize_owner (Some (rp_admin msg)));
  _ ← item_save OWNERSHIP ownership;
  _ ← save_splits (rp_split_cfg msg);
  mret (add_attribute "method" "instantiate" Response_new).
Definition update_ownership (env : Env) (info : MessageInfo) (action : OwnableAction) : M Response :=
  s ← get_storage;
  result ← of_result (map_err_r (λ '(OwnershipErr e), GenericErr e)
             (update_ownership_lib (s_ownership s) (env_block env) (info_sender info) action));
  _ ← item_save OWNERSHIP result;
  mret (add_attributes [("method", "update_ownership"); ("action", debug_action action);
          ("result", debug_ownership result)] Response_new).
Definition execute (env : Env) (info : MessageInfo) (msg : ExecuteMsg) : M Response :=
  match msg with
  | UpdateRatios split_cfg =>
      s ← get_storage;
      owner ← of_result (is_owner (s_ownership s) (info_sender info));
      _ ← fail_if (negb owner) (GenericErr "unauthorized");
      _ ← save_splits split_cfg;
      mret (add_attribute "method" "execute" Response_new)
  | RpUpdateOwnership action => update_ownership env info action
  end.

(** The share of a receiver, for each of the denominations. *)
Fixpoint denom_ratios (splits : DenomSplitMap) (receiver : Addr) (denoms : list string)
    (acc : gmap string Decimal) : result StdError (gmap string Decimal) :=
  match denoms with
  | [] => Ok acc
  | denom :: denoms =>
      configured_splits ← match splits !! denom with Some x => Ok x | None => Err NotFound end;
      match configured_splits !! receiver with
      | Some share => denom_ratios splits receiver denoms (<[denom := share]> acc)
      | None => Err (GenericErr ("denom " ++ denom ++ " does not have an entry for receiver " ++ receiver))
      end
  end.
Definition query_dynamic_ratio (s : storage) (denoms : list string) (params : string)
    : result StdError (gmap string Decimal) :=
  receiver ← addr_validate params;
  denom_ratios (s_denom_splits s) receiver denoms ∅.
End Contract.
End RatioProvider.
