(* ===== verification/TypeRegistry.v ===== *)
(** * The type registry of Osmosis

    [contracts/middleware/type-registries/osmosis/osmo-26-0-0], and the macro
    [register_types] of [packages/middleware-utils] that generates its dispatcher.  A type
    registry translates between the types of another chain and the canonical types, and
    knows under which keys of that chain's store the values are found. *)
From Stdlib Require Import Strings.Byte.
From S2P Require Import Prelude Platform Types Format Accounts InterchainAccount Protocols LibraryBase.
From S2P Require Import Middleware.

(** ** The traits of [middleware-utils] *)
Inductive RegistryExecuteMsg : Set := .
Class ValenceTypeAdapter (T External : Type) := {
  try_to_canonical : T → result MiddlewareError ValenceType;
  try_from_canonical : ValenceType → result MiddlewareError External;
}.
Class IcqIntegration (T : Type) := {
  get_kv_key : gmap string Binary → result MiddlewareError KVKey;
  decode_and_reconstruct : string → InterchainQueryResult → result MiddlewareError Binary;
}.

(** ** [register_types!]

    What the macro generates for one entry, and the dispatcher over all of them. *)
Record RegisteredType := mkRegisteredType {
  type_id : string;
  arm_to_canonical : Binary → result StdError Binary;
  arm_from_canonical : ValenceType → option (result StdError Binary);
  arm_kv_key : gmap string Binary → result StdError Binary;
  arm_reconstruct : InterchainQueryResult → result StdError Binary;
}.
Section Macro.
Context `{JsonCodec ValenceType} `{JsonCodec NativeTypeWrapper} `{JsonCodec KVKey}.

(** [type_id => { native_type: Native, adapter: T }], with [T::from(native)].  In
    [arm_from_canonical], [None] is a type that cannot represent the object, and the next
    entry is tried. *)
Definition register_type (T Native : Type) `{ValenceTypeAdapter T Native} `{IcqIntegration T}
    `{JsonCodec Native} (from_native : Native → T) (id : string) : RegisteredType := {|
  type_id := id;
  arm_to_canonical binary :=
    native ← (from_json binary : result StdError Native);
    canonical ← map_err_r (λ _, GenericErr "failed to convert to canonical")
                  (try_to_canonical (from_native native));
    to_json_binary canonical;
  arm_from_canonical obj :=
    match (try_from_canonical obj : result MiddlewareError Native) with
    | Ok native => Some (binary ← to_json_binary native; to_json_binary (mkNativeTypeWrapper binary))
    | Err _ => None
    | Panic => Some Panic
    end;
  arm_kv_key params :=
    kv_key ← map_err_r (λ _, GenericErr "failed to get kvkey") (get_kv_key (T := T) params);
    to_json_binary kv_key;
  arm_reconstruct icq_result :=
    binary ← map_err_r (λ _, GenericErr "failed to reconstruct type from proto")
               (decode_and_reconstruct (T := T) id icq_result);
    to_json_binary (mkNativeTypeWrapper binary);
|}.
Definition find_type (types : list RegisteredType) (id : string) : result StdError RegisteredType :=
  ok_or_r (head (filter (λ t, type_id t = id) types)) (GenericErr "unknown type").
Fixpoint from_canonical (types : list RegisteredType) (obj : ValenceType) : result StdError Binary :=
  match types with
  | [] => Err (GenericErr "no matching type found for conversion")
  | t :: types => match arm_from_canonical t obj with
                  | Some r => r
                  | None => from_canonical types obj
                  end
  end.
Definition handle_query (types : list RegisteredType) (msg : RegistryQueryMsg)
    : result StdError Binary :=
  match msg with
  | ToCanonical type_url binary => t ← find_type types type_url; arm_to_canonical t binary
  | FromCanonical obj => from_canonical types obj
  | QueryKVKey type_id params => t ← find_type types type_id; arm_kv_key t params
  | ReconstructProto type_id icq_result => t ← find_type types type_id; arm_reconstruct t icq_result
  end.
End Macro.

(** [u128::from_str(..)?]. *)
Definition parse_amount (amount : string) : result MiddlewareError N :=
  ok_or_r (parse_u128 amount) (ParseIntError (parse_int_error u128_max amount)).

(** ** The types of [osmosis_std] and [neutron_sdk]; [PoolParams] is left abstract *)
Record PoolAsset := mkPoolAsset { asset_token : option ProtoCoin; asset_weight : string }.
Record Pool (PoolParams : Type) := mkPool {
  gp_address : string;
  gp_id : N;
  gp_pool_params : option PoolParams;
  gp_future_pool_governor : string;
  gp_total_shares : option ProtoCoin;
  gp_pool_assets : list PoolAsset;
  gp_total_weight : string;
}.
Arguments mkPool {PoolParams}.
Arguments gp_address {PoolParams}.
Arguments gp_id {PoolParams}.
Arguments gp_pool_params {PoolParams}.
Arguments gp_future_pool_governor {PoolParams}.
Arguments gp_total_shares {PoolParams}.
Arguments gp_pool_assets {PoolParams}.
Arguments gp_total_weight {PoolParams}.
Record QueryBalanceResponse := mkQueryBalanceResponse { balance : option ProtoCoin }.
Record Balances := mkBalances { balances_coins : list Coin }.

Class OsmosisIcq (PoolParams : Type) := {
  (** [Any::decode] of [prost], and [TryInto<Pool>]. *)
  Any_decode : Binary → result string AnyMsg;
  Pool_try_from_any : AnyMsg → option (Pool PoolParams);
  (** [From<cosmwasm_std::Coin>]. *)
  ProtoCoin_from : Coin → ProtoCoin;
  (** [neutron_sdk]: the bytes of an address, the key of a balance ([None] is an error),
      the store of the bank, and [KVReconstruct] for balances. *)
  decode_and_convert : string → result string Binary;
  create_account_denom_balance_key : Binary → string → option Binary;
  BANK_STORE_KEY : string;
  reconstruct_balances : list StorageValue → result string Balances;
}.
Class OsmosisIcqLaws (PoolParams : Type) `{OsmosisIcq PoolParams} : Prop := {
  ProtoCoin_from_spec c : ProtoCoin_from c = mkProtoCoin (coin_denom c) (pretty (coin_amount c));
}.

(** ** The registry *)
Module OsmosisRegistry.
Definition ADDR_KEY : string := "addr".
Definition DENOM_KEY : string := "denom".
Definition ADDRESS_KEY : string := "address".
Definition ID_KEY : string := "id".
Definition FUTURE_POOL_GOVERNOR_KEY : string := "future_pool_governor".
Definition TOTAL_WEIGHT_KEY : string := "total_weight".
Definition SHARES_DENOM_KEY : string := "shares_denom".
Definition POOL_PARAMS_KEY : string := "pool_params".
Definition STORAGE_PREFIX : string := "gamm".
(** [format!("pool_asset_{}_weight", denom)]. *)
Definition weight_key (denom : string) : string := ("pool_asset_" ++ denom ++ "_weight")%string.

Section Contract.
Context {PoolParams : Type} `{OsmosisIcq PoolParams}.
Context `{JsonCodec string} `{JsonCodec N} `{JsonCodec (option PoolParams)}.
Context `{JsonCodec (Pool PoolParams)} `{JsonCodec QueryBalanceResponse} `{JsonCodec Balances}.
Context `{JsonCodec ValenceType} `{JsonCodec NativeTypeWrapper} `{JsonCodec KVKey}.

(** [OsmosisBankBalance]. *)
Record OsmosisBankBalance := mkOsmosisBankBalance { bank_balance : QueryBalanceResponse }.
Definition bank_to_canonical (self : OsmosisBankBalance) : result MiddlewareError ValenceType :=
  match balance (bank_balance self) with
  | Some coin =>
      amount_u128 ← parse_amount (proto_amount coin);
      Ok (BankBalance (mkValenceBankBalance [mkCoin (proto_denom coin) amount_u128]))
  | None => Err (MiddlewareStd (GenericErr "failed to find coin in QueryBalanceResponse"))
  end.
Definition bank_from_canonical (canonical : ValenceType) : result MiddlewareError QueryBalanceResponse :=
  match canonical with
  | BankBalance b =>
      match balance_assets b with
      | [] => Ok (mkQueryBalanceResponse None)
      | [coin] => Ok (mkQueryBalanceResponse (Some (ProtoCoin_from coin)))
      | _ => Err (MiddlewareStd (GenericErr "failed to convert multiple coins into QueryBalanceResponse"))
      end
  | _ => Err (MiddlewareStd (GenericErr "failed to convert ValenceType into QueryBalanceResponse"))
  end.
Definition bank_kv_key (params : gmap string Binary) : result MiddlewareError KVKey :=
  addr ← try_ (try_unpack_domain_specific_value ADDR_KEY params : result StdError string);
  denom ← try_ (try_unpack_domain_specific_value DENOM_KEY params : result StdError string);
  converted_addr_bytes ← map_err_r NeutronE (decode_and_convert addr);
  balance_key ← expect_r (create_account_denom_balance_key converted_addr_bytes denom);
  Ok (mkKVKey BANK_STORE_KEY balance_key).
Definition bank_reconstruct (_query_id : string) (icq_result : InterchainQueryResult)
    : result MiddlewareError Binary :=
  balances ← map_err_r NeutronE (reconstruct_balances (kv_results icq_result));
  try_ (to_json_binary balances).

(** [OsmosisXykPool]. *)
Record OsmosisXykPool := mkOsmosisXykPool { xyk_pool : Pool PoolParams }.
(** The weights of the assets become fields. *)
Fixpoint pack_weights (assets : list PoolAsset) (fields : gmap string Binary)
    : result MiddlewareError (gmap string Binary) :=
  match assets with
  | [] => Ok fields
  | asset :: assets =>
      fields ← match asset_token asset with
               | Some token =>
                   weight ← try_ (to_json_binary (asset_weight asset));
                   Ok (<[weight_key (proto_denom token) := weight]> fields)
               | None => Ok fields
               end;
      pack_weights assets fields
  end.
Fixpoint canonical_assets (assets : list PoolAsset) : result MiddlewareError (list Coin) :=
  match assets with
  | [] => Ok []
  | asset :: assets =>
      match asset_token asset with
      | Some t =>
          amount ← parse_amount (proto_amount t);
          rest ← canonical_assets assets;
          Ok (mkCoin (proto_denom t) amount :: rest)
      | None => canonical_assets assets
      end
  end.
Definition pool_to_canonical (self : OsmosisXykPool) : result MiddlewareError ValenceType :=
  let pool := xyk_pool self in
  address ← try_ (to_json_binary (gp_address pool));
  id ← try_ (to_json_binary (gp_id pool));
  future_pool_governor ← try_ (to_json_binary (gp_future_pool_governor pool));
  total_weight ← try_ (to_json_binary (gp_total_weight pool));
  pool_params ← try_ (to_json_binary (gp_pool_params pool));
  let fields := list_to_map [(ADDRESS_KEY, address); (ID_KEY, id);
    (FUTURE_POOL_GOVERNOR_KEY, future_pool_governor); (TOTAL_WEIGHT_KEY, total_weight);
    (POOL_PARAMS_KEY, pool_params)] in
  fields ← match gp_total_shares pool with
           | Some shares =>
               denom ← try_ (to_json_binary (proto_denom shares));
               Ok (<[SHARES_DENOM_KEY := denom]> fields)
           | None => Ok fields
           end;
  fields ← pack_weights (gp_pool_assets pool) fields;
  assets ← canonical_assets (gp_pool_assets pool);
  let total_shares := default "" (proto_amount <$> gp_total_shares pool) in
  Ok (XykPool (mkValenceXykPool assets total_shares fields)).
Definition pool_asset (inner : ValenceXykPool) (asset : Coin) : result MiddlewareError PoolAsset :=
  weight ← try_ (get_domain_specific_field inner (weight_key (coin_denom asset)) : result StdError string);
  Ok (mkPoolAsset (Some (mkProtoCoin (coin_denom asset) (pretty (coin_amount asset)))) weight).
Definition pool_from_canonical (canonical : ValenceType) : result MiddlewareError (Pool PoolParams) :=
  match canonical with
  | XykPool inner =>
      address ← try_ (get_domain_specific_field inner ADDRESS_KEY : result StdError string);
      id ← try_ (get_domain_specific_field inner ID_KEY : result StdError N);
      future_pool_governor ←
        try_ (get_domain_specific_field inner FUTURE_POOL_GOVERNOR_KEY : result StdError string);
      pool_params ← try_ (get_domain_specific_field inner POOL_PARAMS_KEY
        : result StdError (option PoolParams));
      shares_denom ← try_ (get_domain_specific_field inner SHARES_DENOM_KEY : result StdError string);
      total_weight ← try_ (get_domain_specific_field inner TOTAL_WEIGHT_KEY : result StdError string);
      pool_assets ← mapM (pool_asset inner) (pool_assets inner);
      Ok (mkPool address id pool_params future_pool_governor
            (Some (mkProtoCoin shares_denom (total_shares inner))) pool_assets total_weight)
  | _ => Err (CanonicalConversionError "canonical inner type mismatch")
  end.
Definition pool_kv_key (params : gmap string Binary) : result MiddlewareError KVKey :=
  id ← try_ (try_unpack_domain_specific_value "pool_id" params : result StdError N);
  Ok (mkKVKey STORAGE_PREFIX (x02 :: u64_to_be_bytes id)).
Definition pool_reconstruct (_query_id : string) (icq_result : InterchainQueryResult)
    : result MiddlewareError Binary :=
  first ← expect_r (head (kv_results icq_result));
  any_msg ← map_err_r DecodeError (Any_decode (storage_value first));
  osmo_pool ← ok_or_r (Pool_try_from_any any_msg) (MiddlewareStd (GenericErr "failed to parse into pool"));
  map_err_r MiddlewareStd (to_json_binary osmo_pool).

#[global] Instance bank_adapter : ValenceTypeAdapter OsmosisBankBalance QueryBalanceResponse := {
  try_to_canonical := bank_to_canonical;
  try_from_canonical := bank_from_canonical;
}.
#[global] Instance bank_icq : IcqIntegration OsmosisBankBalance := {
  get_kv_key := bank_kv_key;
  decode_and_reconstruct := bank_reconstruct;
}.
#[global] Instance pool_adapter : ValenceTypeAdapter OsmosisXykPool (Pool PoolParams) := {
  try_to_canonical := pool_to_canonical;
  try_from_canonical := pool_from_canonical;
}.
#[global] Instance pool_icq : IcqIntegration OsmosisXykPool := {
  get_kv_key := pool_kv_key;
  decode_and_reconstruct := pool_reconstruct;
}.
Definition POOL_TYPE : string := "/osmosis.gamm.v1beta1.Pool".
Definition BALANCE_TYPE : string := "/cosmos.bank.v1beta1.QueryBalanceResponse".
Definition registered_types : list RegisteredType := [
  register_type OsmosisXykPool (Pool PoolParams) mkOsmosisXykPool POOL_TYPE;
  register_type OsmosisBankBalance QueryBalanceResponse mkOsmosisBankBalance BALANCE_TYPE].

(** The contract has no state but its version, and no messages. *)
Definition storage : Type := option (string * string).
Definition CONTRACT_INFO : lens storage (option (string * string)) := Lens (λ s, s) (λ x _, x).
Definition CONTRACT_NAME : string := "valence-middleware-osmosis".
Definition CONTRACT_VERSION : string := "0.2.0".
Definition instantiate (_env : Env) (_info : MessageInfo) : Exec storage StdError Response :=
  _ ← item_save CONTRACT_INFO (CONTRACT_NAME, CONTRACT_VERSION);
  mret Response_new.
(** [unimplemented!]; there is no message. *)
Definition execute (_env : Env) (_info : MessageInfo) (_msg : RegistryExecuteMsg)
    : Exec storage StdError Response := panic.
Definition query (msg : RegistryQueryMsg) : result StdError Binary := handle_query registered_types msg.
End Contract.
End OsmosisRegistry.
