(* ===== verification/IcQuerier.v ===== *)
(** * The interchain querier

    [contracts/libraries/neutron-ic-querier]: registers queries of the state of other
    chains with the module [interchainqueries] of Neutron, and when a result is delivered
    has it translated to its canonical form by the type registries, through the broker,
    and stored in a storage account. *)
From Stdlib Require Import Strings.Byte.
From S2P Require Import Prelude Platform Types Accounts InterchainAccount Protocols LibraryBase.
From S2P Require Import Middleware.
Import Library.

(** [neutron_sdk]: the messages of the module as [CosmosMsg::Custom], and
    [serde_json_wasm::from_slice] of its response; both with the text of the error. *)
Class NeutronIcq := {
  register_interchain_query : list KVKey → string → N → result string CosmosMsg;
  remove_interchain_query : N → CosmosMsg;
  MsgRegisterInterchainQueryResponse_from_slice : Binary → result string N;
}.
(** The removal of a query names it. *)
Class NeutronIcqLaws `{NeutronIcq} : Prop := {
  remove_interchain_query_inj i j : remove_interchain_query i = remove_interchain_query j → i = j;
}.

Module NeutronIcQuerier.
Inductive FunctionMsgs :=
| RegisterKvQuery (target_query : string)
| DeregisterKvQuery (target_query : string).
Record QuerierConfig := mkQuerierConfig { broker_addr : string; connection_id : string }.
Record QueryDefinition := mkQueryDefinition {
  registry_version : option string;
  type_url : string;
  update_period : N;
  params : gmap string Binary;
  query_id : option N;
}.
Record LibraryConfig := mkLibraryConfig {
  raw_storage_account : LibraryAccountType;
  raw_querier_config : QuerierConfig;
  raw_query_definitions : gmap string QueryDefinition;
}.
Record Config := mkConfig {
  storage_acc_addr : Addr;
  querier_config : QuerierConfig;
  query_definitions : gmap string QueryDefinition;
  registered_queries : gmap N string;
  pending_query_registrations : gmap N string;
}.
Record LibraryConfigUpdate := mkLibraryConfigUpdate {
  upd_storage_account : option LibraryAccountType;
  upd_querier_config : option QuerierConfig;
  upd_query_definitions : option (gmap string QueryDefinition);
}.
#[global] Instance icq_update_raw : LibraryConfigUpdateTrait LibraryConfigUpdate LibraryConfig := {
  update_raw_config u c :=
    mkLibraryConfig (set_field (upd_storage_account u) (raw_storage_account c))
      (set_field (upd_querier_config u) (raw_querier_config c))
      (set_field (upd_query_definitions u) (raw_query_definitions c));
}.
Definition set_query_id (id : option N) (d : QueryDefinition) : QueryDefinition :=
  mkQueryDefinition (registry_version d) (type_url d) (update_period d) (params d) id.
Definition with_queries (defs : gmap string QueryDefinition) (registered pending : gmap N string)
    (c : Config) : Config :=
  mkConfig (storage_acc_addr c) (querier_config c) defs registered pending.
Abbreviation M := (Exec (storage LibraryConfig Config ()) LibraryError).
(** [SudoMsg]: the result of a key-value query; all others are ignored. *)
Inductive SudoMsg := KVQueryResult (query_id : N) | SudoOther.

Section Contract.
Context `{Platform} `{NeutronIcq}.
Context `{JsonCodec TypeBroker.QueryMsg} `{JsonCodec KVKey} `{JsonCodec NativeTypeWrapper}.
Context `{JsonCodec ValenceType} `{JsonCodec (StorageAccount.ExecuteMsg ValenceType)}.

Definition check_querier_config (c : QuerierConfig) : result LibraryError unit :=
  _ ← ensure_r (negb (bool_decide (connection_id c = EmptyString)))
        (ConfigurationError "connection_id cannot be empty");
  _ ← try_ (addr_validate (broker_addr c));
  Ok ().
(** The checks that instantiation and updates share. *)
Definition check_definition (d : QueryDefinition) : result LibraryError unit :=
  _ ← ensure_r (0 <? update_period d)%N
        (ConfigurationError "query update period must be greater than 0");
  ensure_r (negb (bool_decide (type_url d = EmptyString)))
    (ConfigurationError "query type_url cannot be empty").
Fixpoint check_definitions (check : QueryDefinition → result LibraryError unit)
    (l : list (string * QueryDefinition)) : result LibraryError unit :=
  match l with
  | [] => Ok ()
  | (_, d) :: l => _ ← check d; check_definitions check l
  end.
Definition do_validate (cfg : LibraryConfig)
    : result LibraryError (Addr * QuerierConfig * gmap string QueryDefinition) :=
  storage_addr ← try_ (to_addr (raw_storage_account cfg));
  _ ← check_querier_config (raw_querier_config cfg);
  _ ← check_definitions (λ d,
        _ ← check_definition d;
        ensure_r (bool_decide (query_id d = None))
          (ConfigurationError "query_id should only be set after query is registered"))
        (map_range String.leb (raw_query_definitions cfg) None);
  Ok (storage_addr, raw_querier_config cfg, raw_query_definitions cfg).
#[global] Instance icq_validation : LibraryConfigValidation LibraryConfig Config := {
  validate _q cfg :=
    '(storage_acc_addr, querier_config, query_definitions) ← do_validate cfg;
    Ok (mkConfig storage_acc_addr querier_config query_definitions ∅ ∅);
}.
Definition update_fields (_q : LibQuerier) (u : LibraryConfigUpdate) (c : Config)
    : result LibraryError Config :=
  storage_acc_addr ← update_addr (upd_storage_account u) (storage_acc_addr c);
  querier_config ← match upd_querier_config u with
                   | Some querier_config => _ ← check_querier_config querier_config; Ok querier_config
                   | None => Ok (querier_config c)
                   end;
  _ ← match upd_query_definitions u with
      | Some query_definitions =>
          check_definitions check_definition (map_range String.leb query_definitions None)
      | None => Ok ()
      end;
  Ok (mkConfig storage_acc_addr querier_config (query_definitions c) (registered_queries c)
        (pending_query_registrations c)).
Definition update_config (q : LibQuerier) (_env : Env) (_info : MessageInfo)
    (u : LibraryConfigUpdate) : M unit :=
  config ← load_config;
  config ← of_result (update_fields q u config);
  save_config config.

Definition deregister_kv_query (q : LibQuerier) (info : MessageInfo) (cfg : Config)
    (target_query : string) : M Response :=
  query_definition ← ok_or (query_definitions cfg !! target_query)
    (LibStd (GenericErr "query definition not found"));
  id ← ok_or (query_id query_definition) (LibStd (GenericErr "query is not registered"));
  let cfg := with_queries (<[target_query := set_query_id None query_definition]> (query_definitions cfg))
               (delete id (registered_queries cfg)) (pending_query_registrations cfg) cfg in
  _ ← save_config cfg;
  deposit ← of_result (pq_icq_registered_deposit (q_protocols q) id);
  mret (add_message (CosmosBankSend (info_sender info) deposit)
         (add_message (remove_interchain_query id) Response_new)).

(** The fee is attached, or the contract can pay it. *)
Definition insufficient_fee : StdError := GenericErr "insufficient icq registration fee amount".
Fixpoint check_attached (funds : list Coin) (fee_coin : Coin) : result LibraryError unit :=
  match funds with
  | [] => Ok ()
  | coin :: funds =>
      _ ← if bool_decide (coin_denom coin = coin_denom fee_coin)
          then ensure_r (coin_amount fee_coin <=? coin_amount coin)%N (LibStd insufficient_fee)
          else Ok ();
      check_attached funds fee_coin
  end.
Fixpoint check_fees (q : LibQuerier) (contract : Addr) (funds fees : list Coin)
    : result LibraryError unit :=
  match fees with
  | [] => Ok ()
  | fee_coin :: fees =>
      _ ← check_attached funds fee_coin;
      contract_fee_denom_bal ← try_ (q_bank_balance q contract (coin_denom fee_coin));
      _ ← ensure_r (coin_amount fee_coin <=? contract_fee_denom_bal)%N (LibStd insufficient_fee);
      check_fees q contract funds fees
  end.
Definition register_kv_query (q : LibQuerier) (env : Env) (info : MessageInfo) (cfg : Config)
    (target_query : string) : M Response :=
  query_definition ← ok_or (query_definitions cfg !! target_query)
    (LibStd (GenericErr "query definition not found"));
  icq_registration_fee ← of_result (pq_icq_deposit (q_protocols q));
  _ ← of_result (check_fees q (env_contract env) (info_funds info) icq_registration_fee);
  query_kv_key ← of_result (query_wasm_smart (q_protocols q) (broker_addr (querier_config cfg))
    (TypeBroker.mkQueryMsg (registry_version query_definition)
       (QueryKVKey (type_url query_definition) (params query_definition))) : result StdError KVKey);
  kv_registration_msg ← of_result (map_err_r GenericErr (register_interchain_query [query_kv_key]
    (connection_id (querier_config cfg)) (update_period query_definition)));
  let nonce := N.of_nat (size (pending_query_registrations cfg)) in
  let cfg := with_queries (query_definitions cfg) (registered_queries cfg)
               (<[nonce := target_query]> (pending_query_registrations cfg)) cfg in
  _ ← save_config cfg;
  mret (add_submessages [SubMsg_reply_on_success kv_registration_msg nonce] Response_new).

Definition process_function (q : LibQuerier) (env : Env) (info : MessageInfo) (msg : FunctionMsgs)
    (cfg : Config) : M Response :=
  match msg with
  | RegisterKvQuery target_query => register_kv_query q env info cfg target_query
  | DeregisterKvQuery target_query => deregister_kv_query q info cfg target_query
  end.

(** The module has registered the query: its id is recorded. *)
Definition reply (_env : Env) (msg : HostReply) : Exec (storage LibraryConfig Config ()) StdError Response :=
  submsg_response ← of_result match host_reply_result msg with
                              | OutcomeOk r => Ok r
                              | OutcomeErr e => Err (GenericErr e)
                              end;
  binary ← ok_or (response_data submsg_response) (GenericErr "no data in reply");
  id ← of_result (map_err_r GenericErr (MsgRegisterInterchainQueryResponse_from_slice binary));
  config ← item_load CONFIG_KEY;
  match pending_query_registrations config !! host_reply_id msg with
  | Some target_query_id =>
      query_definition ← ok_or (query_definitions config !! target_query_id)
        (GenericErr "query definition not found");
      let config := with_queries
        (<[target_query_id := set_query_id (Some id) query_definition]> (query_definitions config))
        (<[id := target_query_id]> (registered_queries config))
        (delete (host_reply_id msg) (pending_query_registrations config)) config in
      _ ← item_save CONFIG_KEY config;
      mret Response_new
  | None =>
      fail (GenericErr "no pending query registration found for the given submsg reply id")
  end.

(** The result of a query has been delivered. *)
Definition handle_sudo_kv_query_result (q : LibQuerier) (id : N)
    : Exec (storage LibraryConfig Config ()) StdError Response :=
  registered_query_result ← of_result (map_err_r (λ _, GenericErr "failed to get the raw icq result")
    (pq_icq_result (q_protocols q) id));
  cfg ← item_load CONFIG_KEY;
  target_query_identifier ← ok_or (registered_queries cfg !! id)
    (GenericErr "no registered query found for the given query id");
  target_query_definition ← ok_or (query_definitions cfg !! target_query_identifier)
    (GenericErr "no query definition found for the given query id");
  let ask {A} `{JsonCodec A} (query : RegistryQueryMsg) : result StdError A :=
    query_wasm_smart (q_protocols q) (broker_addr (querier_config cfg))
      (TypeBroker.mkQueryMsg (registry_version target_query_definition) query) in
  proto_reconstruction_response ← of_result (ask (ReconstructProto (type_url target_query_definition)
    registered_query_result) : result StdError NativeTypeWrapper);
  valence_canonical_response ← of_result (ask (ToCanonical (type_url target_query_definition)
    (native_binary proto_reconstruction_response)) : result StdError ValenceType);
  msg ← of_result (to_json_binary
    (StorageAccount.StoreValenceType target_query_identifier valence_canonical_response));
  mret (add_message (CosmosWasm (WasmExecute (storage_acc_addr cfg) msg [])) Response_new).
Definition sudo (q : LibQuerier) (_env : Env) (msg : SudoMsg)
    : Exec (storage LibraryConfig Config ()) StdError Response :=
  match msg with
  | KVQueryResult query_id => handle_sudo_kv_query_result q query_id
  | SudoOther => mret Response_new
  end.
End Contract.
End NeutronIcQuerier.
