(* ===== verification/Astroport.v ===== *)
(** * The Astroport libraries

    [contracts/libraries/astroport-lper] and [astroport-withdrawer], with
    [packages/astroport-utils]: liquidity of the pools of Astroport, which come in two
    versions, with a native token or a cw20 token for the shares.  The package restates
    the messages of both versions; the data they have in common is declared once here. *)
From Stdlib Require Import Strings.Byte.
From S2P Require Import Prelude Platform Types Accounts Protocols LibraryBase.
Import Library.

(** ** [astroport_native_lp_token.rs] and [astroport_cw20_lp_token.rs] *)
Inductive AssetInfo := Token (contract_addr : Addr) | NativeToken (denom : string).
Record Asset := mkAsset { asset_info : AssetInfo; asset_amount : N }.
Record PoolResponse := mkPoolResponse { pool_response_assets : list Asset; total_share : N }.
Record SimulationResponse := mkSimulationResponse {
  return_amount : N;
  spread_amount : N;
  commission_amount : N;
}.
Inductive PairType := Xyk | Stable | CustomPair (name : string).
Record PairInfo := mkPairInfo {
  asset_infos : list AssetInfo;
  pair_contract_addr : Addr;
  liquidity_token : string;
  pair_type : PairType;
}.
#[global] Instance PairType_eq_dec : EqDecision PairType. Proof. solve_decision. Defined.
Inductive NativePoolExecuteMsg :=
| NativeSwap (offer_asset : Asset) (ask_asset_info : option AssetInfo) (belief_price max_spread : option Decimal)
    (to : option string)
| NativeProvideLiquidity (assets : list Asset) (slippage_tolerance : option Decimal) (auto_stake : option bool)
    (receiver : option string) (min_lp_to_receive : option N)
| NativeWithdrawLiquidity (assets : list Asset) (min_assets_to_receive : option (list Asset)).
Inductive Cw20PoolExecuteMsg :=
| Cw20Swap (offer_asset : Asset) (ask_asset_info : option AssetInfo) (belief_price max_spread : option Decimal)
    (to : option string)
| Cw20ProvideLiquidity (assets : list Asset) (slippage_tolerance : option Decimal) (auto_stake : option bool)
    (receiver : option string).
Inductive Cw20HookMsg := HookWithdrawLiquidity (assets : list Asset).
Inductive NativePoolQueryMsg :=
| NativePoolConfig
| NativePair
| NativePool
| NativeSimulation (offer_asset : Asset) (ask_asset_info : option AssetInfo)
| NativeReverseSimulation (offer_asset_info : option AssetInfo) (ask_asset : Asset)
| NativeSimulateProvide (assets : list Asset) (slippage_tolerance : option Decimal)
| NativeSimulateWithdraw (lp_amount : N)
| NativeShare (amount : N).
Inductive Cw20PoolQueryMsg :=
| Cw20Pair
| Cw20Pool
| Cw20Simulation (offer_asset : Asset) (ask_asset_info : option AssetInfo)
| Cw20Share (amount : N).
(** The messages of [cw20] that the withdrawer uses. *)
Inductive Cw20ExecuteMsg := Cw20Send (contract : string) (amount : N) (msg : Binary).
Inductive Cw20QueryMsg := Cw20Balance (address : string).
Record Cw20BalanceResponse := mkCw20BalanceResponse { cw20_balance : N }.

(** [Decimal::checked_from_ratio], with the text of its error, and the text of an
    [OverflowError] of a multiplication. *)
Class CheckedRatio := {
  checked_from_ratio : N → N → result string Decimal;
  overflow_mul : string;
}.
Class CheckedRatioLaws `{CheckedRatio} : Prop := {
  checked_from_ratio_spec a b r :
    checked_from_ratio a b = Ok r ↔ b ≠ 0%N ∧ r = (a * decimal_one / b)%N ∧ (r ≤ u128_max)%N;
}.

(** ** [lib.rs] *)
Inductive PoolType := NativeLpToken (pair_type : PairType) | Cw20LpToken (pair_type : PairType).
(** [DecimalCheckedOps::checked_mul_uint128]; the product fits 256 bits. *)
Definition checked_mul_uint128 `{CheckedRatio} (self : Decimal) (other : N) : result string N :=
  if (self =? 0)%N || (other =? 0)%N then Ok 0%N
  else
    let multiply_ratio := (other * self / decimal_one)%N in
    if (u128_max <? multiply_ratio)%N then Err overflow_mul else Ok multiply_ratio.

Section Pools.
Context `{CwDenom}.
(** [Asset::as_coin] and [Asset::to_coin]. *)
Definition native_as_coin (a : Asset) : result StdError Coin :=
  match asset_info a with
  | Token _ => Err (GenericErr "Cannot convert token asset to coin")
  | NativeToken denom => Ok (mkCoin denom (asset_amount a))
  end.
Definition cw20_to_coin (a : Asset) : result StdError Coin :=
  match asset_info a with
  | NativeToken denom => Ok (mkCoin denom (asset_amount a))
  | Token _ => Err (GenericErr "Cannot convert token asset to Coin")
  end.
(** [AssetTrait::as_coin], for the assets of a pool of this type. *)
Definition as_coin (t : PoolType) (a : Asset) : result LibraryError Coin :=
  map_err_r (λ e, ExecutionError (std_error_to_string e))
    match t with NativeLpToken _ => native_as_coin a | Cw20LpToken _ => cw20_to_coin a end.
Fixpoint pool_amounts (t : PoolType) (assets : list Asset) (asset1_denom asset2_denom : string)
    (balances : N * N) : result LibraryError (N * N) :=
  match assets with
  | [] => Ok balances
  | asset :: assets =>
      coin ← map_err_r (λ e, ExecutionError (library_error_to_string e)) (as_coin t asset);
      let balances :=
        if bool_decide (coin_denom coin = asset1_denom) then (coin_amount coin, balances.2)
        else if bool_decide (coin_denom coin = asset2_denom) then (balances.1, coin_amount coin)
        else balances in
      pool_amounts t assets asset1_denom asset2_denom balances
  end.
Definition get_pool_asset_amounts (t : PoolType) (assets : list Asset) (asset1_denom asset2_denom : string)
    : result LibraryError (N * N) :=
  '(asset1_balance, asset2_balance) ← pool_amounts t assets asset1_denom asset2_denom (0, 0)%N;
  if (asset1_balance =? 0)%N || (asset2_balance =? 0)%N
  then Err (ExecutionError "All pool assets must be non-zero")
  else Ok (asset1_balance, asset2_balance).
Context `{JsonCodec NativePoolQueryMsg} `{JsonCodec Cw20PoolQueryMsg} `{JsonCodec PoolResponse}.
Definition query_pool (q : LibQuerier) (pool_addr : string) (pool_type : PoolType)
    : result LibraryError (list Asset) :=
  response ← try_ (match pool_type with
                   | NativeLpToken _ => query_wasm_smart (q_protocols q) pool_addr NativePool
                   | Cw20LpToken _ => query_wasm_smart (q_protocols q) pool_addr Cw20Pool
                   end : result StdError PoolResponse);
  Ok (pool_response_assets response).
End Pools.
(** [Decimal::checked_from_ratio(..)] with its error as an execution error. *)
Definition pool_ratio `{CheckedRatio} (a b : N) : result LibraryError Decimal :=
  map_err_r ExecutionError (checked_from_ratio a b).

(** ** The liquidity provider *)
Module AstroportLper.
Inductive FunctionMsgs :=
| ProvideDoubleSidedLiquidity (expected_pool_ratio_range : option DecimalRange)
| ProvideSingleSidedLiquidity (asset : string) (limit : option N)
    (expected_pool_ratio_range : option DecimalRange).
Record LiquidityProviderConfig := mkLiquidityProviderConfig {
  pool_type : PoolType;
  asset_data : AssetData;
  max_spread : option Decimal;
}.
Record LibraryConfig := mkLibraryConfig {
  raw_input_addr : LibraryAccountType;
  raw_output_addr : LibraryAccountType;
  raw_pool_addr : string;
  raw_lp_config : LiquidityProviderConfig;
}.
Record Config := mkConfig {
  input_addr : Addr;
  output_addr : Addr;
  pool_addr : Addr;
  lp_config : LiquidityProviderConfig;
}.
Record LibraryConfigUpdate := mkLibraryConfigUpdate {
  upd_input_addr : option LibraryAccountType;
  upd_output_addr : option LibraryAccountType;
  upd_pool_addr : option string;
  upd_lp_config : option LiquidityProviderConfig;
}.
#[global] Instance astro_lper_update_raw : LibraryConfigUpdateTrait LibraryConfigUpdate LibraryConfig := {
  update_raw_config u c :=
    mkLibraryConfig (set_field (upd_input_addr u) (raw_input_addr c))
      (set_field (upd_output_addr u) (raw_output_addr c))
      (set_field (upd_pool_addr u) (raw_pool_addr c)) (set_field (upd_lp_config u) (raw_lp_config c));
}.
Abbreviation M := (Exec (storage LibraryConfig Config ()) LibraryError).

Section Contract.
Context `{Platform} `{CwDenom} `{CosmMath} `{CheckedRatio} `{JsonCodec AccountExecuteMsg}.
Context `{JsonCodec NativePoolQueryMsg} `{JsonCodec Cw20PoolQueryMsg} `{JsonCodec PoolResponse}.
Context `{JsonCodec PairInfo} `{JsonCodec SimulationResponse}.
Context `{JsonCodec NativePoolExecuteMsg} `{JsonCodec Cw20PoolExecuteMsg}.

(** Both assets of the pair are native and are the configured ones, in this order. *)
Fixpoint check_assets (l : list (AssetInfo * string)) : result LibraryError unit :=
  match l with
  | [] => Ok ()
  | (Token _, _) :: _ => Err (ConfigurationError "Pool asset is not a native token")
  | (NativeToken denom, expected_asset) :: l =>
      if bool_decide (denom = expected_asset) then check_assets l
      else Err (ConfigurationError "Pool asset does not match the expected asset")
  end.
Definition check_pair (info : PairInfo) (expected : PairType) (assets : AssetData) : result LibraryError unit :=
  _ ← ensure_r (bool_decide (Astroport.pair_type info = expected))
        (ConfigurationError "Pool type does not match the expected pair type");
  check_assets (zip (asset_infos info) [asset1 assets; asset2 assets]).
Definition ensure_correct_pool (q : LibQuerier) (pool_addr : string) (pool_type : PoolType) (assets : AssetData)
    : result LibraryError unit :=
  match pool_type with
  | NativeLpToken pair_type =>
      pool_response ← try_ (query_wasm_smart (q_protocols q) pool_addr NativePair : result StdError PairInfo);
      check_pair pool_response pair_type assets
  | Cw20LpToken pair_type =>
      pool_response ← try_ (query_wasm_smart (q_protocols q) pool_addr Cw20Pair : result StdError PairInfo);
      check_pair pool_response pair_type assets
  end.
Definition do_validate (cfg : LibraryConfig) : result LibraryError (Addr * Addr * Addr) :=
  input_addr ← try_ (to_addr (raw_input_addr cfg));
  output_addr ← try_ (to_addr (raw_output_addr cfg));
  pool_addr ← try_ (addr_validate (raw_pool_addr cfg));
  Ok (input_addr, output_addr, pool_addr).
#[global] Instance astro_lper_validation : LibraryConfigValidation LibraryConfig Config := {
  validate q cfg :=
    '(input_addr, output_addr, pool_addr) ← do_validate cfg;
    _ ← ensure_correct_pool q (raw_pool_addr cfg) (pool_type (raw_lp_config cfg))
          (asset_data (raw_lp_config cfg));
    Ok (mkConfig input_addr output_addr pool_addr (raw_lp_config cfg));
}.
Definition update_fields (q : LibQuerier) (u : LibraryConfigUpdate) (c : Config) : result LibraryError Config :=
  input_addr ← update_addr (upd_input_addr u) (input_addr c);
  output_addr ← update_addr (upd_output_addr u) (output_addr c);
  pool_addr ← match upd_pool_addr u with
              | Some a => try_ (addr_validate a)
              | None => Ok (pool_addr c)
              end;
  let lp_config := set_field (upd_lp_config u) (lp_config c) in
  _ ← ensure_correct_pool q pool_addr (pool_type lp_config) (asset_data lp_config);
  Ok (mkConfig input_addr output_addr pool_addr lp_config).
Definition update_config (q : LibQuerier) (_env : Env) (_info : MessageInfo) (u : LibraryConfigUpdate) : M unit :=
  config ← load_config;
  config ← of_result (update_fields q u config);
  save_config config.

(** The messages of a pool, in the version of its type. *)
Definition native_asset (c : Coin) : Asset := mkAsset (NativeToken (coin_denom c)) (coin_amount c).
Definition provide_liquidity_msg (cfg : Config) (assets : list Asset) (funds : list Coin)
    : result LibraryError CosmosMsg :=
  match pool_type (lp_config cfg) with
  | NativeLpToken _ => wasm_execute (pool_addr cfg)
      (NativeProvideLiquidity assets None (Some false) (Some (output_addr cfg)) None) funds
  | Cw20LpToken _ => wasm_execute (pool_addr cfg)
      (Cw20ProvideLiquidity assets None (Some false) (Some (output_addr cfg))) funds
  end.
Definition swap_msg (cfg : Config) (offer_asset : Asset) (funds : list Coin) : result LibraryError CosmosMsg :=
  match pool_type (lp_config cfg) with
  | NativeLpToken _ => wasm_execute (pool_addr cfg)
      (NativeSwap offer_asset None None (max_spread (lp_config cfg)) None) funds
  | Cw20LpToken _ => wasm_execute (pool_addr cfg)
      (Cw20Swap offer_asset None None (max_spread (lp_config cfg)) None) funds
  end.
Definition simulate (q : LibQuerier) (cfg : Config) (offer_asset : Asset) : result LibraryError N :=
  simulation ← try_ (match pool_type (lp_config cfg) with
    | NativeLpToken _ => query_wasm_smart (q_protocols q) (pool_addr cfg) (NativeSimulation offer_asset None)
    | Cw20LpToken _ => query_wasm_smart (q_protocols q) (pool_addr cfg) (Cw20Simulation offer_asset None)
    end : result StdError SimulationResponse);
  Ok (return_amount simulation).

Definition create_provide_liquidity_msg (cfg : Config) (amount1 amount2 : N) : result LibraryError CosmosMsg :=
  let coins := [mkCoin (asset1 (asset_data (lp_config cfg))) amount1;
                mkCoin (asset2 (asset_data (lp_config cfg))) amount2] in
  provide_liquidity_msg cfg (native_asset <$> coins) coins.
(** Half of the coin is swapped, and provided with what the swap is expected to return. *)
Definition create_xyk_liquidity_msg (q : LibQuerier) (cfg : Config) (asset_balance other_asset : Coin)
    : result LibraryError (list CosmosMsg) :=
  half ← match uint128_checked_div (coin_amount asset_balance) 2 with Ok n => Ok n | _ => Panic end;
  let offer_asset := mkCoin (coin_denom asset_balance) half in
  returned ← simulate q cfg (native_asset offer_asset);
  let ask_asset := mkCoin (coin_denom other_asset) returned in
  swap ← swap_msg cfg (native_asset offer_asset) [offer_asset];
  provide ← provide_liquidity_msg cfg [native_asset offer_asset; native_asset ask_asset]
              [offer_asset; ask_asset];
  Ok [swap; provide].
Definition create_stable_or_custom_liquidity_msg (cfg : Config) (asset_balance other_asset : Coin)
    : result LibraryError (list CosmosMsg) :=
  msg ← provide_liquidity_msg cfg
          [native_asset asset_balance; mkAsset (NativeToken (coin_denom other_asset)) 0] [asset_balance];
  Ok [msg].
Definition create_single_sided_liquidity_msg (q : LibQuerier) (cfg : Config) (asset_balance other_asset : Coin)
    : result LibraryError (list CosmosMsg) :=
  match pool_type (lp_config cfg) with
  | NativeLpToken Xyk | Cw20LpToken Xyk => create_xyk_liquidity_msg q cfg asset_balance other_asset
  | NativeLpToken (Stable | CustomPair _) | Cw20LpToken (Stable | CustomPair _) =>
      create_stable_or_custom_liquidity_msg cfg asset_balance other_asset
  end.

Definition query_asset_balances (q : LibQuerier) (cfg : Config) : result LibraryError (Coin * Coin) :=
  balance_asset1 ← try_ (q_bank_balance q (input_addr cfg) (asset1 (asset_data (lp_config cfg))));
  balance_asset2 ← try_ (q_bank_balance q (input_addr cfg) (asset2 (asset_data (lp_config cfg))));
  Ok (mkCoin (asset1 (asset_data (lp_config cfg))) balance_asset1,
      mkCoin (asset2 (asset_data (lp_config cfg))) balance_asset2).
(** The amounts of the two configured assets in the pool. *)
Definition pool_balances (q : LibQuerier) (cfg : Config) : result LibraryError (N * N) :=
  pool_response ← query_pool q (pool_addr cfg) (pool_type (lp_config cfg));
  get_pool_asset_amounts (pool_type (lp_config cfg)) pool_response
    (asset1 (asset_data (lp_config cfg))) (asset2 (asset_data (lp_config cfg))).
Definition calculate_provide_amounts (balance1 balance2 pool_asset1_balance pool_asset2_balance : N)
    (pool_asset_ratio : Decimal) : result LibraryError (N * N) :=
  required_asset1_amount ← map_err_r ExecutionError (checked_mul_uint128 pool_asset_ratio balance2);
  if (required_asset1_amount <=? balance1)%N then Ok (required_asset1_amount, balance2)
  else
    ratio ← pool_ratio pool_asset2_balance pool_asset1_balance;
    amount2 ← map_err_r ExecutionError (checked_mul_uint128 ratio balance1);
    Ok (balance1, amount2).
Definition provide_double_sided_liquidity (q : LibQuerier) (cfg : Config)
    (expected_pool_ratio_range : option DecimalRange) : result LibraryError Response :=
  '(balance_asset1, balance_asset2) ← query_asset_balances q cfg;
  '(pool_asset1_balance, pool_asset2_balance) ← pool_balances q cfg;
  pool_asset_ratios ← pool_ratio pool_asset1_balance pool_asset2_balance;
  _ ← match expected_pool_ratio_range with
      | Some range => range_contains range pool_asset_ratios
      | None => Ok ()
      end;
  '(asset1_provide_amount, asset2_provide_amount) ← calculate_provide_amounts (coin_amount balance_asset1)
    (coin_amount balance_asset2) pool_asset1_balance pool_asset2_balance pool_asset_ratios;
  cosmos_msg ← create_provide_liquidity_msg cfg asset1_provide_amount asset2_provide_amount;
  input_account_msgs ← try_ (execute_on_behalf_of [cosmos_msg] (input_addr cfg));
  Ok (add_attributes [("method", "provide_double_sided_liquidity");
        ("asset1_amount", pretty asset1_provide_amount); ("asset2_amount", pretty asset2_provide_amount)]
        (add_message input_account_msgs Response_new)).
Definition provide_single_sided_liquidity (q : LibQuerier) (cfg : Config) (asset : string) (limit : option N)
    (expected_pool_ratio_range : option DecimalRange) : result LibraryError Response :=
  '(balance_asset1, balance_asset2) ← query_asset_balances q cfg;
  '(pool_asset1_balance, pool_asset2_balance) ← pool_balances q cfg;
  '(asset_balance, other_asset) ←
    if bool_decide (asset = asset1 (asset_data (lp_config cfg))) then Ok (balance_asset1, balance_asset2)
    else if bool_decide (asset = asset2 (asset_data (lp_config cfg))) then Ok (balance_asset2, balance_asset1)
    else Err (ExecutionError "Asset to provide liquidity for is not part of the pool");
  _ ← match expected_pool_ratio_range with
      | Some range =>
          pool_asset_ratios ← pool_ratio pool_asset1_balance pool_asset2_balance;
          range_contains range pool_asset_ratios
      | None => Ok ()
      end;
  let asset_balance := match limit with
                       | Some limit => if (limit <? coin_amount asset_balance)%N
                                       then mkCoin (coin_denom asset_balance) limit else asset_balance
                       | None => asset_balance
                       end in
  messages ← create_single_sided_liquidity_msg q cfg asset_balance other_asset;
  input_account_msgs ← try_ (execute_on_behalf_of messages (input_addr cfg));
  Ok (add_attributes [("method", "provide_single_sided_liquidity");
        ("asset_amount", pretty (coin_amount asset_balance))] (add_message input_account_msgs Response_new)).
Definition process_function (q : LibQuerier) (_env : Env) (_info : MessageInfo) (msg : FunctionMsgs) (cfg : Config)
    : M Response :=
  of_result match msg with
            | ProvideDoubleSidedLiquidity range => provide_double_sided_liquidity q cfg range
            | ProvideSingleSidedLiquidity asset limit range =>
                provide_single_sided_liquidity q cfg asset limit range
            end.
End Contract.
End AstroportLper.

(** ** The withdrawer *)
Module AstroportWithdrawer.
Inductive FunctionMsgs := WithdrawLiquidity (expected_pool_ratio_range : option DecimalRange).
Record LiquidityWithdrawerConfig := mkLiquidityWithdrawerConfig {
  pool_type : PoolType;
  asset_data : AssetData;
}.
Record LibraryConfig := mkLibraryConfig {
  raw_input_addr : LibraryAccountType;
  raw_output_addr : LibraryAccountType;
  raw_pool_addr : string;
  raw_withdrawer_config : LiquidityWithdrawerConfig;
}.
Record Config := mkConfig {
  input_addr : Addr;
  output_addr : Addr;
  pool_addr : Addr;
  withdrawer_config : LiquidityWithdrawerConfig;
}.
Record LibraryConfigUpdate := mkLibraryConfigUpdate {
  upd_input_addr : option LibraryAccountType;
  upd_output_addr : option LibraryAccountType;
  upd_pool_addr : option string;
  upd_withdrawer_config : option LiquidityWithdrawerConfig;
}.
#[global] Instance astro_withdrawer_update_raw : LibraryConfigUpdateTrait LibraryConfigUpdate LibraryConfig := {
  update_raw_config u c :=
    mkLibraryConfig (set_field (upd_input_addr u) (raw_input_addr c))
      (set_field (upd_output_addr u) (raw_output_addr c)) (set_field (upd_pool_addr u) (raw_pool_addr c))
      (set_field (upd_withdrawer_config u) (raw_withdrawer_config c));
}.
Abbreviation M := (Exec (storage LibraryConfig Config ()) LibraryError).

Section Contract.
Context `{Platform} `{CwDenom} `{CheckedRatio} `{JsonCodec AccountExecuteMsg}.
Context `{JsonCodec NativePoolQueryMsg} `{JsonCodec Cw20PoolQueryMsg} `{JsonCodec PoolResponse}.
Context `{JsonCodec PairInfo} `{JsonCodec (list Asset)} `{JsonCodec NativePoolExecuteMsg}.
Context `{JsonCodec Cw20QueryMsg} `{JsonCodec Cw20BalanceResponse} `{JsonCodec Cw20ExecuteMsg}.
Context `{JsonCodec Cw20HookMsg}.

Definition do_validate (cfg : LibraryConfig) : result LibraryError (Addr * Addr * Addr) :=
  input_addr ← try_ (to_addr (raw_input_addr cfg));
  output_addr ← try_ (to_addr (raw_output_addr cfg));
  pool_addr ← try_ (addr_validate (raw_pool_addr cfg));
  Ok (input_addr, output_addr, pool_addr).
#[global] Instance astro_withdrawer_validation : LibraryConfigValidation LibraryConfig Config := {
  validate _q cfg :=
    '(input_addr, output_addr, pool_addr) ← do_validate cfg;
    Ok (mkConfig input_addr output_addr pool_addr (raw_withdrawer_config cfg));
}.
Definition update_fields (_q : LibQuerier) (u : LibraryConfigUpdate) (c : Config) : result LibraryError Config :=
  input_addr ← update_addr (upd_input_addr u) (input_addr c);
  output_addr ← update_addr (upd_output_addr u) (output_addr c);
  pool_addr ← match upd_pool_addr u with
              | Some a => try_ (addr_validate a)
              | None => Ok (pool_addr c)
              end;
  Ok (mkConfig input_addr output_addr pool_addr (set_field (upd_withdrawer_config u) (withdrawer_config c))).
Definition update_config (q : LibQuerier) (_env : Env) (_info : MessageInfo) (u : LibraryConfigUpdate) : M unit :=
  config ← load_config;
  config ← of_result (update_fields q u config);
  save_config config.

(** Shares as a native token. *)
Definition native_liquidity_token (q : LibQuerier) (cfg : Config) : result LibraryError string :=
  pair_info ← try_ (query_wasm_smart (q_protocols q) (pool_addr cfg) NativePair : result StdError PairInfo);
  Ok (liquidity_token pair_info).
Definition native_withdraw_liquidity_msgs (q : LibQuerier) (cfg : Config) : result LibraryError (list CosmosMsg) :=
  token ← native_liquidity_token q cfg;
  balance ← try_ (q_bank_balance q (input_addr cfg) token);
  _ ← ensure_r (negb (balance =? 0)%N) (ExecutionError "Nothing to withdraw");
  withdrawn_assets ← try_ (query_wasm_smart (q_protocols q) (pool_addr cfg) (NativeShare balance)
    : result StdError (list Asset));
  withdraw_msg ← wasm_execute (pool_addr cfg) (NativeWithdrawLiquidity [] (Some withdrawn_assets))
                   [mkCoin token balance];
  withdrawn_coins ← try_ (mapM native_as_coin withdrawn_assets);
  Ok [withdraw_msg; CosmosBankSend (output_addr cfg) withdrawn_coins].
(** Shares as a cw20 token. *)
Definition cw20_liquidity_token (q : LibQuerier) (cfg : Config) : result LibraryError Addr :=
  pair_info ← try_ (query_wasm_smart (q_protocols q) (pool_addr cfg) Cw20Pair : result StdError PairInfo);
  Ok (liquidity_token pair_info).
Definition cw20_withdraw_liquidity_msgs (q : LibQuerier) (cfg : Config) : result LibraryError (list CosmosMsg) :=
  token_addr ← cw20_liquidity_token q cfg;
  balance_response ← try_ (query_wasm_smart (q_protocols q) token_addr (Cw20Balance (input_addr cfg))
    : result StdError Cw20BalanceResponse);
  _ ← ensure_r (negb (cw20_balance balance_response =? 0)%N) (ExecutionError "Nothing to withdraw");
  withdrawn_assets ← try_ (query_wasm_smart (q_protocols q) (pool_addr cfg)
    (Cw20Share (cw20_balance balance_response)) : result StdError (list Asset));
  hook ← try_ (to_json_binary (HookWithdrawLiquidity []));
  withdraw_msg ← wasm_execute token_addr (Cw20Send (pool_addr cfg) (cw20_balance balance_response) hook) [];
  withdrawn_coins ← try_ (mapM cw20_to_coin withdrawn_assets);
  Ok [withdraw_msg; CosmosBankSend (output_addr cfg) withdrawn_coins].
Definition create_withdraw_liquidity_msgs (q : LibQuerier) (cfg : Config) : result LibraryError (list CosmosMsg) :=
  match pool_type (withdrawer_config cfg) with
  | NativeLpToken _ => native_withdraw_liquidity_msgs q cfg
  | Cw20LpToken _ => cw20_withdraw_liquidity_msgs q cfg
  end.
Definition check_ratio (q : LibQuerier) (cfg : Config) (range : DecimalRange) : result LibraryError unit :=
  pool_response ← query_pool q (pool_addr cfg) (pool_type (withdrawer_config cfg));
  '(pool_asset1_balance, pool_asset2_balance) ← get_pool_asset_amounts (pool_type (withdrawer_config cfg))
    pool_response (asset1 (asset_data (withdrawer_config cfg))) (asset2 (asset_data (withdrawer_config cfg)));
  pool_asset_ratios ← pool_ratio pool_asset1_balance pool_asset2_balance;
  range_contains range pool_asset_ratios.
Definition withdraw_liquidity (q : LibQuerier) (cfg : Config) (expected_pool_ratio_range : option DecimalRange)
    : result LibraryError Response :=
  _ ← match expected_pool_ratio_range with
      | Some range => check_ratio q cfg range
      | None => Ok ()
      end;
  msgs ← create_withdraw_liquidity_msgs q cfg;
  input_account_msgs ← try_ (execute_on_behalf_of msgs (input_addr cfg));
  Ok (add_attribute "method" "withdraw_liquidity" (add_message input_account_msgs Response_new)).
Definition process_function (q : LibQuerier) (_env : Env) (_info : MessageInfo) (msg : FunctionMsgs) (cfg : Config)
    : M Response :=
  of_result match msg with WithdrawLiquidity range => withdraw_liquidity q cfg range end.
End Contract.
End AstroportWithdrawer.
