(* ===== verification/LiquidStaking.v ===== *)
(** * The liquid staking libraries

    [contracts/libraries/drop-liquid-staker], [drop-liquid-unstaker] and
    [max-btc-issuer], with the messages of Drop that [packages/liquid-staking-utils]
    restates: everything the input account holds is sent to a contract, which issues a
    derivative, or a voucher that the unstaker later redeems. *)
From Stdlib Require Import Strings.Byte.
From S2P Require Import Prelude Platform Types Accounts Protocols LibraryBase.
Import Library.

(** ** [drop.rs], and the messages of [cw721] that the unstaker uses *)
Inductive LiquidStakerExecuteMsg := Bond (receiver ref : option string) | Unbond.
Inductive ReceiveNftMsg := NftWithdraw (receiver : option string).
Inductive Cw721ExecuteMsg := SendNft (contract token_id : string) (msg : Binary).
Inductive Cw721QueryMsg := OwnerOf (token_id : string) (include_expired : option bool).
Record OwnerOfResponse := mkOwnerOfResponse { owner_of : string }.

(** ** The staker *)
Module DropLiquidStaker.
Inductive FunctionMsgs := LiquidStake (ref : option string).
Record LibraryConfig := mkLibraryConfig {
  raw_input_addr : LibraryAccountType;
  raw_output_addr : LibraryAccountType;
  raw_liquid_staker_addr : string;
  raw_denom : string;
}.
Record Config := mkConfig {
  input_addr : Addr;
  output_addr : Addr;
  liquid_staker_addr : Addr;
  denom : string;
}.
Record LibraryConfigUpdate := mkLibraryConfigUpdate {
  upd_input_addr : option LibraryAccountType;
  upd_output_addr : option LibraryAccountType;
  upd_liquid_staker_addr : option string;
  upd_denom : option string;
}.
#[global] Instance staker_update_raw : LibraryConfigUpdateTrait LibraryConfigUpdate LibraryConfig := {
  update_raw_config u c :=
    mkLibraryConfig (set_field (upd_input_addr u) (raw_input_addr c))
      (set_field (upd_output_addr u) (raw_output_addr c))
      (set_field (upd_liquid_staker_addr u) (raw_liquid_staker_addr c))
      (set_field (upd_denom u) (raw_denom c));
}.
Abbreviation M := (Exec (storage LibraryConfig Config ()) LibraryError).

Section Contract.
Context `{Platform} `{JsonCodec AccountExecuteMsg} `{JsonCodec LiquidStakerExecuteMsg}.

Definition do_validate (cfg : LibraryConfig) : result LibraryError (Addr * Addr * Addr) :=
  input_addr ← try_ (to_addr (raw_input_addr cfg));
  output_addr ← try_ (to_addr (raw_output_addr cfg));
  liquid_staker_addr ← try_ (addr_validate (raw_liquid_staker_addr cfg));
  Ok (input_addr, output_addr, liquid_staker_addr).
#[global] Instance staker_validation : LibraryConfigValidation LibraryConfig Config := {
  validate _q cfg :=
    '(input_addr, output_addr, liquid_staker_addr) ← do_validate cfg;
    Ok (mkConfig input_addr output_addr liquid_staker_addr (raw_denom cfg));
}.
Definition update_fields (_q : LibQuerier) (u : LibraryConfigUpdate) (c : Config) : result LibraryError Config :=
  input_addr ← update_addr (upd_input_addr u) (input_addr c);
  output_addr ← update_addr (upd_output_addr u) (output_addr c);
  liquid_staker_addr ← match upd_liquid_staker_addr u with
                       | Some a => try_ (addr_validate a)
                       | None => Ok (liquid_staker_addr c)
                       end;
  Ok (mkConfig input_addr output_addr liquid_staker_addr (set_field (upd_denom u) (denom c))).
Definition update_config (q : LibQuerier) (_env : Env) (_info : MessageInfo) (u : LibraryConfigUpdate) : M unit :=
  config ← load_config;
  config ← of_result (update_fields q u config);
  save_config config.

Definition liquid_stake (q : LibQuerier) (cfg : Config) (ref : option string) : result LibraryError Response :=
  balance ← try_ (q_bank_balance q (input_addr cfg) (denom cfg));
  _ ← ensure_r (negb (balance =? 0)%N) (ExecutionError "No funds to stake");
  stake_msg ← wasm_execute (liquid_staker_addr cfg) (Bond (Some (output_addr cfg)) ref)
                [mkCoin (denom cfg) balance];
  input_account_msgs ← try_ (execute_on_behalf_of [stake_msg] (input_addr cfg));
  Ok (add_attribute "method" "liquid_stake" (add_message input_account_msgs Response_new)).
Definition process_function (q : LibQuerier) (_env : Env) (_info : MessageInfo) (msg : FunctionMsgs) (cfg : Config)
    : M Response :=
  of_result match msg with LiquidStake ref => liquid_stake q cfg ref end.
End Contract.
End DropLiquidStaker.

(** ** The unstaker *)
Module DropLiquidUnstaker.
Inductive FunctionMsgs := Unstake | Withdraw (token_id : string).
Record LibraryConfig := mkLibraryConfig {
  raw_input_addr : LibraryAccountType;
  raw_output_addr : LibraryAccountType;
  raw_liquid_unstaker_addr : string;
  raw_withdrawal_manager_addr : string;
  raw_voucher_addr : string;
  raw_denom : string;
}.
Record Config := mkConfig {
  input_addr : Addr;
  output_addr : Addr;
  liquid_unstaker_addr : Addr;
  voucher_addr : Addr;
  withdrawal_manager_addr : Addr;
  denom : string;
}.
Record LibraryConfigUpdate := mkLibraryConfigUpdate {
  upd_input_addr : option LibraryAccountType;
  upd_output_addr : option LibraryAccountType;
  upd_liquid_unstaker_addr : option string;
  upd_withdrawal_manager_addr : option string;
  upd_voucher_addr : option string;
  upd_denom : option string;
}.
#[global] Instance unstaker_update_raw : LibraryConfigUpdateTrait LibraryConfigUpdate LibraryConfig := {
  update_raw_config u c :=
    mkLibraryConfig (set_field (upd_input_addr u) (raw_input_addr c))
      (set_field (upd_output_addr u) (raw_output_addr c))
      (set_field (upd_liquid_unstaker_addr u) (raw_liquid_unstaker_addr c))
      (set_field (upd_withdrawal_manager_addr u) (raw_withdrawal_manager_addr c))
      (set_field (upd_voucher_addr u) (raw_voucher_addr c)) (set_field (upd_denom u) (raw_denom c));
}.
Abbreviation M := (Exec (storage LibraryConfig Config ()) LibraryError).

Section Contract.
Context `{Platform} `{JsonCodec AccountExecuteMsg} `{JsonCodec LiquidStakerExecuteMsg} `{JsonCodec ReceiveNftMsg}.
Context `{JsonCodec Cw721ExecuteMsg} `{JsonCodec Cw721QueryMsg} `{JsonCodec OwnerOfResponse}.

Definition do_validate (cfg : LibraryConfig) : result LibraryError (Addr * Addr * Addr * Addr * Addr) :=
  input_addr ← try_ (to_addr (raw_input_addr cfg));
  output_addr ← try_ (to_addr (raw_output_addr cfg));
  liquid_unstaker_addr ← try_ (addr_validate (raw_liquid_unstaker_addr cfg));
  voucher_addr ← try_ (addr_validate (raw_voucher_addr cfg));
  withdrawal_manager_addr ← try_ (addr_validate (raw_withdrawal_manager_addr cfg));
  Ok (input_addr, output_addr, liquid_unstaker_addr, voucher_addr, withdrawal_manager_addr).
#[global] Instance unstaker_validation : LibraryConfigValidation LibraryConfig Config := {
  validate _q cfg :=
    '(input_addr, output_addr, liquid_unstaker_addr, voucher_addr, withdrawal_manager_addr) ← do_validate cfg;
    Ok (mkConfig input_addr output_addr liquid_unstaker_addr voucher_addr withdrawal_manager_addr (raw_denom cfg));
}.
(** There is no case for [voucher_addr]. *)
Definition update_fields (_q : LibQuerier) (u : LibraryConfigUpdate) (c : Config) : result LibraryError Config :=
  input_addr ← update_addr (upd_input_addr u) (input_addr c);
  output_addr ← update_addr (upd_output_addr u) (output_addr c);
  liquid_unstaker_addr ← match upd_liquid_unstaker_addr u with
                         | Some a => try_ (addr_validate a)
                         | None => Ok (liquid_unstaker_addr c)
                         end;
  withdrawal_manager_addr ← match upd_withdrawal_manager_addr u with
                            | Some a => try_ (addr_validate a)
                            | None => Ok (withdrawal_manager_addr c)
                            end;
  Ok (mkConfig input_addr output_addr liquid_unstaker_addr (voucher_addr c) withdrawal_manager_addr
        (set_field (upd_denom u) (denom c))).
Definition update_config (q : LibQuerier) (_env : Env) (_info : MessageInfo) (u : LibraryConfigUpdate) : M unit :=
  config ← load_config;
  config ← of_result (update_fields q u config);
  save_config config.

Definition unstake (q : LibQuerier) (cfg : Config) : result LibraryError Response :=
  balance ← try_ (q_bank_balance q (input_addr cfg) (denom cfg));
  _ ← ensure_r (negb (balance =? 0)%N) (ExecutionError "No funds to unstake");
  unstake_msg ← wasm_execute (liquid_unstaker_addr cfg) Unbond [mkCoin (denom cfg) balance];
  input_account_msgs ← try_ (execute_on_behalf_of [unstake_msg] (input_addr cfg));
  Ok (add_attribute "method" "liquid_unstake" (add_message input_account_msgs Response_new)).
Definition verify_voucher_ownership (q : LibQuerier) (voucher_contract : string) (cfg : Config) (token_id : string)
    : result LibraryError unit :=
  owner_response ← map_err_r (λ _, ExecutionError "Voucher does not exist")
    (query_wasm_smart (q_protocols q) voucher_contract (OwnerOf token_id None) : result StdError OwnerOfResponse);
  ensure_r (bool_decide (owner_of owner_response = input_addr cfg))
    (ExecutionError "Voucher does not belong to input account").
Definition create_send_nft_with_hook_msg (nft_contract_addr receiving_contract_addr token_id receiver : string)
    : result StdError CosmosMsg :=
  hook_msg ← to_json_binary (NftWithdraw (Some receiver));
  msg ← to_json_binary (SendNft receiving_contract_addr token_id hook_msg);
  Ok (CosmosWasm (WasmExecute nft_contract_addr msg [])).
Definition withdraw (q : LibQuerier) (cfg : Config) (token_id : string) : result LibraryError Response :=
  _ ← verify_voucher_ownership q (voucher_addr cfg) cfg token_id;
  withdraw_msg ← try_ (create_send_nft_with_hook_msg (voucher_addr cfg) (withdrawal_manager_addr cfg) token_id
                         (output_addr cfg));
  input_account_msgs ← try_ (execute_on_behalf_of [withdraw_msg] (input_addr cfg));
  Ok (add_attribute "method" "withdraw" (add_message input_account_msgs Response_new)).
Definition process_function (q : LibQuerier) (_env : Env) (_info : MessageInfo) (msg : FunctionMsgs) (cfg : Config)
    : M Response :=
  of_result match msg with Unstake => unstake q cfg | Withdraw token_id => withdraw q cfg token_id end.
End Contract.
End DropLiquidUnstaker.

(** ** The issuer of maxBTC ([maxbtc_msg.rs] has its message) *)
Inductive MaxBtcExecuteMsg := MaxBtcDeposit (recipient : string).
Module MaxBtcIssuer.
Inductive FunctionMsgs := Issue.
Record LibraryConfig := mkLibraryConfig {
  raw_input_addr : LibraryAccountType;
  raw_output_addr : LibraryAccountType;
  raw_maxbtc_issuer_addr : string;
  raw_btc_denom : string;
}.
Record Config := mkConfig {
  input_addr : Addr;
  output_addr : Addr;
  maxbtc_issuer_addr : Addr;
  btc_denom : string;
}.
Record LibraryConfigUpdate := mkLibraryConfigUpdate {
  upd_input_addr : option LibraryAccountType;
  upd_output_addr : option LibraryAccountType;
  upd_maxbtc_issuer_addr : option string;
  upd_btc_denom : option string;
}.
#[global] Instance maxbtc_update_raw : LibraryConfigUpdateTrait LibraryConfigUpdate LibraryConfig := {
  update_raw_config u c :=
    mkLibraryConfig (set_field (upd_input_addr u) (raw_input_addr c))
      (set_field (upd_output_addr u) (raw_output_addr c))
      (set_field (upd_maxbtc_issuer_addr u) (raw_maxbtc_issuer_addr c))
      (set_field (upd_btc_denom u) (raw_btc_denom c));
}.
Abbreviation M := (Exec (storage LibraryConfig Config ()) LibraryError).

Section Contract.
Context `{Platform} `{JsonCodec AccountExecuteMsg} `{JsonCodec MaxBtcExecuteMsg}.

Definition check_denom (btc_denom : string) : result LibraryError unit :=
  ensure_r (negb (bool_decide (btc_denom = "")))
    (ConfigurationError "Invalid maxBTC Issuer config: btc_denom cannot be empty.").
Definition do_validate (cfg : LibraryConfig) : result LibraryError (Addr * Addr * Addr) :=
  input_addr ← try_ (to_addr (raw_input_addr cfg));
  output_addr ← try_ (to_addr (raw_output_addr cfg));
  maxbtc_issuer_addr ← try_ (addr_validate (raw_maxbtc_issuer_addr cfg));
  _ ← check_denom (raw_btc_denom cfg);
  Ok (input_addr, output_addr, maxbtc_issuer_addr).
#[global] Instance maxbtc_validation : LibraryConfigValidation LibraryConfig Config := {
  validate _q cfg :=
    '(input_addr, output_addr, maxbtc_issuer_addr) ← do_validate cfg;
    Ok (mkConfig input_addr output_addr maxbtc_issuer_addr (raw_btc_denom cfg));
}.
Definition update_fields (_q : LibQuerier) (u : LibraryConfigUpdate) (c : Config) : result LibraryError Config :=
  input_addr ← update_addr (upd_input_addr u) (input_addr c);
  output_addr ← update_addr (upd_output_addr u) (output_addr c);
  maxbtc_issuer_addr ← match upd_maxbtc_issuer_addr u with
                       | Some a => try_ (addr_validate a)
                       | None => Ok (maxbtc_issuer_addr c)
                       end;
  btc_denom ← match upd_btc_denom u with
              | Some d => _ ← check_denom d; Ok d
              | None => Ok (btc_denom c)
              end;
  Ok (mkConfig input_addr output_addr maxbtc_issuer_addr btc_denom).
Definition update_config (q : LibQuerier) (_env : Env) (_info : MessageInfo) (u : LibraryConfigUpdate) : M unit :=
  config ← load_config;
  config ← of_result (update_fields q u config);
  save_config config.

Definition issue (q : LibQuerier) (cfg : Config) : result LibraryError Response :=
  balance ← try_ (q_bank_balance q (input_addr cfg) (btc_denom cfg));
  _ ← ensure_r (negb (balance =? 0)%N) (ExecutionError "No funds to deposit");
  deposit_msg ← wasm_execute (maxbtc_issuer_addr cfg) (MaxBtcDeposit (output_addr cfg))
                  [mkCoin (btc_denom cfg) balance];
  input_account_msgs ← try_ (execute_on_behalf_of [deposit_msg] (input_addr cfg));
  Ok (add_attribute "method" "issue_maxbtc" (add_message input_account_msgs Response_new)).
Definition process_function (q : LibQuerier) (_env : Env) (_info : MessageInfo) (msg : FunctionMsgs) (cfg : Config)
    : M Response :=
  of_result match msg with Issue => issue q cfg end.
End Contract.
End MaxBtcIssuer.
