(* ===== verification/Vaults.v ===== *)
(** * The vault libraries

    [contracts/libraries/magma-lper] and [magma-withdrawer], and [supervaults-lper] and
    [supervaults-withdrawer], with the packages [magma-utils] and [supervaults-utils]:
    liquidity of vaults that manage a position of two assets and issue shares. *)
From Stdlib Require Import Strings.Byte.
From S2P Require Import Prelude Platform Types Format Accounts Protocols LibraryBase MarsLending.
Import Library.

(** ** [magma-utils] *)
Record DepositMsg := mkDepositMsg { deposit_amount0_min : string; deposit_amount1_min : string; deposit_to : string }.
Record WithdrawMsg := mkWithdrawMsg {
  withdraw_shares : string;
  withdraw_amount0_min : string;
  withdraw_amount1_min : string;
  withdraw_to : string;
}.
Inductive MagmaExecuteMsg := MagmaDeposit (msg : DepositMsg) | MagmaWithdraw (msg : WithdrawMsg).
Inductive MagmaQueryMsg := MagmaBalance (address : string).
Record MagmaBalanceResponse := mkMagmaBalanceResponse { magma_balance : string }.

(** ** [supervaults-utils]: the messages of [mmvault] that the libraries use *)
Inductive MmvaultExecuteMsg := MmvaultDeposit | MmvaultWithdraw (amount : N).
Inductive MmvaultQueryMsg :=
| MmvaultGetConfig
| MmvaultGetPrices
| SimulateProvideLiquidity (amount_0 amount_1 : N) (sender : Addr)
| SimulateWithdrawLiquidity (amount : N).
(** The fields of its configuration and of its prices that are read. *)
Record MmvaultConfig := mkMmvaultConfig {
  mmvault_lp_denom : string;
  mmvault_token_0 : string;
  mmvault_token_1 : string;
}.
(** A [PrecDec] is its number of atoms. *)
Definition PrecDec : Type := N.
Record CombinedPriceResponse := mkCombinedPriceResponse { price_0_to_1 : PrecDec }.
Class PrecDecText := { precdec_to_string : PrecDec → string }.
Record PrecDecimalRange := mkPrecDecimalRange { prec_min : PrecDec; prec_max : PrecDec }.
Section Supervaults.
Context `{PrecDecText} `{JsonCodec MmvaultQueryMsg} `{JsonCodec MmvaultConfig} `{JsonCodec CombinedPriceResponse}.
Context `{JsonCodec N} `{JsonCodec (N * N)}.
(** [Display for PrecDecimalRange]. *)
Definition PrecDecimalRange_fmt (r : PrecDecimalRange) : string :=
  ("[" +:+ precdec_to_string (prec_min r) +:+ ", " +:+ precdec_to_string (prec_max r) +:+ "]")%string.
Definition ensure_contains (self : PrecDecimalRange) (val : PrecDec) : result LibraryError unit :=
  ensure_r ((prec_min self <=? val)%N && (val <? prec_max self)%N)
    (ExecutionError ("expected range: " +:+ PrecDecimalRange_fmt self +:+ ", got: " +:+ precdec_to_string val)%string).
Definition ensure_correct_vault (q : LibQuerier) (vault_addr : string) (asset_data : AssetData) (lp_denom : string)
    : result LibraryError unit :=
  vault_config ← try_ (query_wasm_smart (q_protocols q) vault_addr MmvaultGetConfig : result StdError MmvaultConfig);
  _ ← ensure_r (bool_decide (asset1 asset_data = mmvault_token_0 vault_config) &&
                bool_decide (asset2 asset_data = mmvault_token_1 vault_config))
        (ConfigurationError "Vault validation failed due to asset mismatch");
  ensure_r (bool_decide (mmvault_lp_denom vault_config = lp_denom))
    (ConfigurationError ("Vault LP denom mismatch; expected: " +:+ lp_denom +:+ ", got " +:+
                         mmvault_lp_denom vault_config)%string).
Definition query_vault_price (q : LibQuerier) (vault_addr : string) : result LibraryError PrecDec :=
  price_response ← try_ (query_wasm_smart (q_protocols q) vault_addr MmvaultGetPrices
    : result StdError CombinedPriceResponse);
  Ok (price_0_to_1 price_response).
Definition query_simulate_provide_liquidity (q : LibQuerier) (vault_addr : string) (sender : Addr)
    (amount_0 amount_1 : N) : result LibraryError N :=
  try_ (query_wasm_smart (q_protocols q) vault_addr (SimulateProvideLiquidity amount_0 amount_1 sender)
    : result StdError N).
Definition query_simulate_withdraw_liquidity (q : LibQuerier) (vault_addr : string) (amount : N)
    : result LibraryError (N * N) :=
  try_ (query_wasm_smart (q_protocols q) vault_addr (SimulateWithdrawLiquidity amount) : result StdError (N * N)).
Definition check_price (q : LibQuerier) (vault_addr : string) (expected : option PrecDecimalRange)
    : result LibraryError unit :=
  match expected with
  | Some range => vault_price ← query_vault_price q vault_addr; ensure_contains range vault_price
  | None => Ok ()
  end.
End Supervaults.
Definition get_mmvault_withdraw_msg (amount : N) : MmvaultExecuteMsg := MmvaultWithdraw amount.
Definition get_mmvault_deposit_msg : MmvaultExecuteMsg := MmvaultDeposit.

(** ** Magma *)
Module MagmaLper.
Inductive FunctionMsgs := ProvideLiquidity (token_min_amount_0 token_min_amount_1 : option string).
Record LiquidityProviderConfig := mkLiquidityProviderConfig { vault_addr : string; asset_data : AssetData }.
Record LibraryConfig := mkLibraryConfig {
  raw_input_addr : LibraryAccountType;
  raw_output_addr : LibraryAccountType;
  raw_lp_config : LiquidityProviderConfig;
}.
Record Config := mkConfig {
  input_addr : Addr;
  output_addr : Addr;
  lp_config : LiquidityProviderConfig;
}.
Record LibraryConfigUpdate := mkLibraryConfigUpdate {
  upd_input_addr : option LibraryAccountType;
  upd_output_addr : option LibraryAccountType;
  upd_lp_config : option LiquidityProviderConfig;
}.
#[global] Instance magma_lper_update_raw : LibraryConfigUpdateTrait LibraryConfigUpdate LibraryConfig := {
  update_raw_config u c :=
    mkLibraryConfig (set_field (upd_input_addr u) (raw_input_addr c))
      (set_field (upd_output_addr u) (raw_output_addr c))
      (set_field (upd_lp_config u) (raw_lp_config c));
}.
Abbreviation M := (Exec (storage LibraryConfig Config ()) LibraryError).

Section Contract.
Context `{Platform} `{JsonCodec AccountExecuteMsg} `{JsonCodec MagmaExecuteMsg}.

Definition do_validate (cfg : LibraryConfig) : result LibraryError (Addr * Addr) :=
  input_addr ← try_ (to_addr (raw_input_addr cfg));
  output_addr ← try_ (to_addr (raw_output_addr cfg));
  _ ← try_ (addr_validate (vault_addr (raw_lp_config cfg)));
  Ok (input_addr, output_addr).
#[global] Instance magma_lper_validation : LibraryConfigValidation LibraryConfig Config := {
  validate _q cfg :=
    '(input_addr, output_addr) ← do_validate cfg;
    Ok (mkConfig input_addr output_addr (raw_lp_config cfg));
}.
Definition update_fields (_q : LibQuerier) (u : LibraryConfigUpdate) (c : Config) : result LibraryError Config :=
  input_addr ← update_addr (upd_input_addr u) (input_addr c);
  output_addr ← update_addr (upd_output_addr u) (output_addr c);
  lp_config ← match upd_lp_config u with
              | Some lp_config => _ ← try_ (addr_validate (vault_addr lp_config)); Ok lp_config
              | None => Ok (lp_config c)
              end;
  Ok (mkConfig input_addr output_addr lp_config).
Definition update_config (q : LibQuerier) (_env : Env) (_info : MessageInfo) (u : LibraryConfigUpdate) : M unit :=
  config ← load_config;
  config ← of_result (update_fields q u config);
  save_config config.

Definition provide_liquidity (q : LibQuerier) (cfg : Config) (token_min_amount_0 token_min_amount_1 : option string)
    : result LibraryError Response :=
  let deposit_msg := mkDepositMsg (default "0" token_min_amount_0) (default "0" token_min_amount_1)
    (output_addr cfg) in
  bal_asset_0 ← try_ (q_bank_balance q (input_addr cfg) (asset1 (asset_data (lp_config cfg))));
  bal_asset_1 ← try_ (q_bank_balance q (input_addr cfg) (asset2 (asset_data (lp_config cfg))));
  let bal_asset_0 := mkCoin (asset1 (asset_data (lp_config cfg))) bal_asset_0 in
  let bal_asset_1 := mkCoin (asset2 (asset_data (lp_config cfg))) bal_asset_1 in
  cosmos_msg ← wasm_execute (vault_addr (lp_config cfg)) (MagmaDeposit deposit_msg) [bal_asset_0; bal_asset_1];
  delegate_msg ← try_ (execute_on_behalf_of [cosmos_msg] (input_addr cfg));
  Ok (add_attributes [("method", "deposit"); ("asset_1", MarsLending.display_coin bal_asset_0);
        ("asset_2", MarsLending.display_coin bal_asset_1)] (add_message delegate_msg Response_new)).
Definition process_function (q : LibQuerier) (_env : Env) (_info : MessageInfo) (msg : FunctionMsgs) (cfg : Config)
    : M Response :=
  of_result match msg with ProvideLiquidity min0 min1 => provide_liquidity q cfg min0 min1 end.
End Contract.
End MagmaLper.

Module MagmaWithdrawer.
Inductive FunctionMsgs := WithdrawLiquidity (token_min_amount_0 token_min_amount_1 : option string).
Record LibraryConfig := mkLibraryConfig {
  raw_input_addr : LibraryAccountType;
  raw_output_addr : LibraryAccountType;
  raw_vault_addr : string;
}.
Record Config := mkConfig {
  input_addr : Addr;
  output_addr : Addr;
  vault_addr : Addr;
}.
Record LibraryConfigUpdate := mkLibraryConfigUpdate {
  upd_input_addr : option LibraryAccountType;
  upd_output_addr : option LibraryAccountType;
  upd_vault_addr : option string;
}.
#[global] Instance magma_withdrawer_update_raw : LibraryConfigUpdateTrait LibraryConfigUpdate LibraryConfig := {
  update_raw_config u c :=
    mkLibraryConfig (set_field (upd_input_addr u) (raw_input_addr c))
      (set_field (upd_output_addr u) (raw_output_addr c))
      (set_field (upd_vault_addr u) (raw_vault_addr c));
}.
Abbreviation M := (Exec (storage LibraryConfig Config ()) LibraryError).

Section Contract.
Context `{Platform} `{JsonCodec AccountExecuteMsg} `{JsonCodec MagmaExecuteMsg}.
Context `{JsonCodec MagmaQueryMsg} `{JsonCodec MagmaBalanceResponse}.

Definition do_validate (cfg : LibraryConfig) : result LibraryError (Addr * Addr * Addr) :=
  input_addr ← try_ (to_addr (raw_input_addr cfg));
  output_addr ← try_ (to_addr (raw_output_addr cfg));
  vault_addr ← try_ (addr_validate (raw_vault_addr cfg));
  Ok (input_addr, output_addr, vault_addr).
#[global] Instance magma_withdrawer_validation : LibraryConfigValidation LibraryConfig Config := {
  validate _q cfg :=
    '(input_addr, output_addr, vault_addr) ← do_validate cfg;
    Ok (mkConfig input_addr output_addr vault_addr);
}.
Definition update_fields (_q : LibQuerier) (u : LibraryConfigUpdate) (c : Config) : result LibraryError Config :=
  input_addr ← update_addr (upd_input_addr u) (input_addr c);
  output_addr ← update_addr (upd_output_addr u) (output_addr c);
  vault_addr ← match upd_vault_addr u with
               | Some a => try_ (addr_validate a)
               | None => Ok (vault_addr c)
               end;
  Ok (mkConfig input_addr output_addr vault_addr).
Definition update_config (q : LibQuerier) (_env : Env) (_info : MessageInfo) (u : LibraryConfigUpdate) : M unit :=
  config ← load_config;
  config ← of_result (update_fields q u config);
  save_config config.

Definition withdraw_liquidity (q : LibQuerier) (cfg : Config) (token_min_amount_0 token_min_amount_1 : option string)
    : result LibraryError Response :=
  shares ← try_ (query_wasm_smart (q_protocols q) (vault_addr cfg) (MagmaBalance (input_addr cfg))
    : result StdError MagmaBalanceResponse);
  _ ← ensure_r (negb (bool_decide (magma_balance shares = "0")))
        (ExecutionError "No available shares for withdrawal");
  let withdraw_msg := mkWithdrawMsg (magma_balance shares) (default "0" token_min_amount_0)
    (default "0" token_min_amount_1) (output_addr cfg) in
  cosmos_msg ← wasm_execute (vault_addr cfg) (MagmaWithdraw withdraw_msg) [];
  withdraw_liquidity_msg ← try_ (execute_on_behalf_of [cosmos_msg] (input_addr cfg));
  Ok (add_attributes [("method", "withdraw"); ("shares", magma_balance shares)]
        (add_message withdraw_liquidity_msg Response_new)).
Definition process_function (q : LibQuerier) (_env : Env) (_info : MessageInfo) (msg : FunctionMsgs) (cfg : Config)
    : M Response :=
  of_result match msg with WithdrawLiquidity min0 min1 => withdraw_liquidity q cfg min0 min1 end.
End Contract.
End MagmaWithdrawer.

(** ** Supervaults *)
Module SupervaultsLper.
Inductive FunctionMsgs := ProvideLiquidity (expected_vault_ratio_range : option PrecDecimalRange).
Record LiquidityProviderConfig := mkLiquidityProviderConfig { asset_data : AssetData; lp_denom : string }.
Record LibraryConfig := mkLibraryConfig {
  raw_input_addr : LibraryAccountType;
  raw_output_addr : LibraryAccountType;
  raw_vault_addr : string;
  raw_lp_config : LiquidityProviderConfig;
}.
Record Config := mkConfig {
  input_addr : Addr;
  output_addr : Addr;
  vault_addr : Addr;
  lp_config : LiquidityProviderConfig;
}.
Record LibraryConfigUpdate := mkLibraryConfigUpdate {
  upd_input_addr : option LibraryAccountType;
  upd_output_addr : option LibraryAccountType;
  upd_vault_addr : option string;
  upd_lp_config : option LiquidityProviderConfig;
}.
#[global] Instance supervaults_lper_update_raw : LibraryConfigUpdateTrait LibraryConfigUpdate LibraryConfig := {
  update_raw_config u c :=
    mkLibraryConfig (set_field (upd_input_addr u) (raw_input_addr c))
      (set_field (upd_output_addr u) (raw_output_addr c))
      (set_field (upd_vault_addr u) (raw_vault_addr c))
      (set_field (upd_lp_config u) (raw_lp_config c));
}.
Abbreviation M := (Exec (storage LibraryConfig Config ()) LibraryError).

Section Contract.
Context `{Platform} `{PrecDecText} `{JsonCodec AccountExecuteMsg} `{JsonCodec MmvaultExecuteMsg}.
Context `{JsonCodec MmvaultQueryMsg} `{JsonCodec MmvaultConfig} `{JsonCodec CombinedPriceResponse}.
Context `{JsonCodec N} `{JsonCodec (N * N)}.

Definition do_validate (cfg : LibraryConfig) : result LibraryError (Addr * Addr * Addr) :=
  input_addr ← try_ (to_addr (raw_input_addr cfg));
  output_addr ← try_ (to_addr (raw_output_addr cfg));
  vault_addr ← try_ (addr_validate (raw_vault_addr cfg));
  Ok (input_addr, output_addr, vault_addr).
#[global] Instance supervaults_lper_validation : LibraryConfigValidation LibraryConfig Config := {
  validate q cfg :=
    '(input_addr, output_addr, vault_addr) ← do_validate cfg;
    _ ← ensure_correct_vault q vault_addr (asset_data (raw_lp_config cfg)) (lp_denom (raw_lp_config cfg));
    Ok (mkConfig input_addr output_addr vault_addr (raw_lp_config cfg));
}.
Definition update_fields (q : LibQuerier) (u : LibraryConfigUpdate) (c : Config) : result LibraryError Config :=
  input_addr ← update_addr (upd_input_addr u) (input_addr c);
  output_addr ← update_addr (upd_output_addr u) (output_addr c);
  vault_addr ← match upd_vault_addr u with
               | Some a => try_ (addr_validate a)
               | None => Ok (vault_addr c)
               end;
  let lp_config := set_field (upd_lp_config u) (lp_config c) in
  _ ← ensure_correct_vault q vault_addr (asset_data lp_config) (lp_denom lp_config);
  Ok (mkConfig input_addr output_addr vault_addr lp_config).
Definition update_config (q : LibQuerier) (_env : Env) (_info : MessageInfo) (u : LibraryConfigUpdate) : M unit :=
  config ← load_config;
  config ← of_result (update_fields q u config);
  save_config config.

Definition try_provide_liquidity (q : LibQuerier) (cfg : Config)
    (expected_vault_ratio_range : option PrecDecimalRange) : result LibraryError Response :=
  let data := asset_data (lp_config cfg) in
  balance_asset1 ← try_ (q_bank_balance q (input_addr cfg) (asset1 data));
  balance_asset2 ← try_ (q_bank_balance q (input_addr cfg) (asset2 data));
  let provision_assets := filter (λ c, coin_amount c ≠ 0%N)
    [mkCoin (asset1 data) balance_asset1; mkCoin (asset2 data) balance_asset2] in
  _ ← ensure_r (negb (bool_decide (provision_assets = [])))
        (ExecutionError "liquidity provision requires at least one input denom");
  _ ← check_price q (vault_addr cfg) expected_vault_ratio_range;
  provide_liquidity_msg ← wasm_execute (vault_addr cfg) get_mmvault_deposit_msg provision_assets;
  shares_amount ← query_simulate_provide_liquidity q (vault_addr cfg) (input_addr cfg) balance_asset1 balance_asset2;
  let transfer_shares_msg := CosmosBankSend (output_addr cfg) [mkCoin (lp_denom (lp_config cfg)) shares_amount] in
  execute_msg ← try_ (execute_on_behalf_of [provide_liquidity_msg; transfer_shares_msg] (input_addr cfg));
  Ok (add_attribute "method" "provide_liquidity" (add_message execute_msg Response_new)).
Definition process_function (q : LibQuerier) (_env : Env) (_info : MessageInfo) (msg : FunctionMsgs) (cfg : Config)
    : M Response :=
  of_result match msg with ProvideLiquidity range => try_provide_liquidity q cfg range end.
End Contract.
End SupervaultsLper.

Module SupervaultsWithdrawer.
Inductive FunctionMsgs := WithdrawLiquidity (expected_vault_ratio_range : option PrecDecimalRange).
Record LiquidityWithdrawerConfig := mkLiquidityWithdrawerConfig { asset_data : AssetData; lp_denom : string }.
Record LibraryConfig := mkLibraryConfig {
  raw_input_addr : LibraryAccountType;
  raw_output_addr : LibraryAccountType;
  raw_vault_addr : string;
  raw_lw_config : LiquidityWithdrawerConfig;
}.
Record Config := mkConfig {
  input_addr : Addr;
  output_addr : Addr;
  vault_addr : Addr;
  lw_config : LiquidityWithdrawerConfig;
}.
Record LibraryConfigUpdate := mkLibraryConfigUpdate {
  upd_input_addr : option LibraryAccountType;
  upd_output_addr : option LibraryAccountType;
  upd_vault_addr : option string;
  upd_lw_config : option LiquidityWithdrawerConfig;
}.
#[global] Instance supervaults_withdrawer_update_raw : LibraryConfigUpdateTrait LibraryConfigUpdate LibraryConfig := {
  update_raw_config u c :=
    mkLibraryConfig (set_field (upd_input_addr u) (raw_input_addr c))
      (set_field (upd_output_addr u) (raw_output_addr c))
      (set_field (upd_vault_addr u) (raw_vault_addr c))
      (set_field (upd_lw_config u) (raw_lw_config c));
}.
Abbreviation M := (Exec (storage LibraryConfig Config ()) LibraryError).

Section Contract.
Context `{Platform} `{PrecDecText} `{JsonCodec AccountExecuteMsg} `{JsonCodec MmvaultExecuteMsg}.
Context `{JsonCodec MmvaultQueryMsg} `{JsonCodec MmvaultConfig} `{JsonCodec CombinedPriceResponse}.
Context `{JsonCodec N} `{JsonCodec (N * N)}.

Definition do_validate (cfg : LibraryConfig) : result LibraryError (Addr * Addr * Addr) :=
  input_addr ← try_ (to_addr (raw_input_addr cfg));
  output_addr ← try_ (to_addr (raw_output_addr cfg));
  vault_addr ← try_ (addr_validate (raw_vault_addr cfg));
  Ok (input_addr, output_addr, vault_addr).
#[global] Instance supervaults_withdrawer_validation : LibraryConfigValidation LibraryConfig Config := {
  validate q cfg :=
    '(input_addr, output_addr, vault_addr) ← do_validate cfg;
    _ ← ensure_correct_vault q vault_addr (asset_data (raw_lw_config cfg)) (lp_denom (raw_lw_config cfg));
    Ok (mkConfig input_addr output_addr vault_addr (raw_lw_config cfg));
}.
Definition update_fields (q : LibQuerier) (u : LibraryConfigUpdate) (c : Config) : result LibraryError Config :=
  input_addr ← update_addr (upd_input_addr u) (input_addr c);
  output_addr ← update_addr (upd_output_addr u) (output_addr c);
  vault_addr ← match upd_vault_addr u with
               | Some a => try_ (addr_validate a)
               | None => Ok (vault_addr c)
               end;
  let lw_config := set_field (upd_lw_config u) (lw_config c) in
  _ ← ensure_correct_vault q vault_addr (asset_data lw_config) (lp_denom lw_config);
  Ok (mkConfig input_addr output_addr vault_addr lw_config).
Definition update_config (q : LibQuerier) (_env : Env) (_info : MessageInfo) (u : LibraryConfigUpdate) : M unit :=
  config ← load_config;
  config ← of_result (update_fields q u config);
  save_config config.

(** The coins that are not zero. *)
Definition withdrawn_assets (l : list (N * string)) : list Coin :=
  omap (λ '(amount, asset), if (amount =? 0)%N then None else Some (mkCoin asset amount)) l.
Definition try_withdraw_liquidity (q : LibQuerier) (cfg : Config)
    (expected_vault_ratio_range : option PrecDecimalRange) : result LibraryError Response :=
  input_acc_lp_bal ← try_ (q_bank_balance q (input_addr cfg) (lp_denom (lw_config cfg)));
  _ ← ensure_r (negb (input_acc_lp_bal =? 0)%N)
        (ExecutionError "input account must have lp shares in order to withdraw");
  _ ← check_price q (vault_addr cfg) expected_vault_ratio_range;
  withdraw_msg ← wasm_execute (vault_addr cfg) (get_mmvault_withdraw_msg input_acc_lp_bal)
                   [mkCoin (lp_denom (lw_config cfg)) input_acc_lp_bal];
  '(amount_asset1, amount_asset2) ← query_simulate_withdraw_liquidity q (vault_addr cfg) input_acc_lp_bal;
  let withdrawn_assets := withdrawn_assets
    [(amount_asset1, asset1 (asset_data (lw_config cfg))); (amount_asset2, asset2 (asset_data (lw_config cfg)))] in
  _ ← ensure_r (negb (bool_decide (withdrawn_assets = []))) (ExecutionError "Nothing is being withdrawn!");
  let transfer_assets_msg := CosmosBankSend (output_addr cfg) withdrawn_assets in
  execute_msg ← try_ (execute_on_behalf_of [withdraw_msg; transfer_assets_msg] (input_addr cfg));
  Ok (add_attribute "method" "withdraw_liquidity" (add_message execute_msg Response_new)).
Definition process_function (q : LibQuerier) (_env : Env) (_info : MessageInfo) (msg : FunctionMsgs) (cfg : Config)
    : M Response :=
  of_result match msg with WithdrawLiquidity range => try_withdraw_liquidity q cfg range end.
End Contract.
End SupervaultsWithdrawer.
