(* ===== verification/Duality.v ===== *)
(** * The Duality libraries

    [contracts/libraries/duality-lper] and [duality-withdrawer], with
    [packages/duality-utils]: the input account deposits in a pool, or withdraws from it,
    and when this is done the reply sends what the input account then holds to the output
    account. *)
From Stdlib Require Import Strings.Byte.
From S2P Require Import Prelude Platform Types Format Accounts Protocols LibraryBase MarsLending.
Import Library.

(** ** [duality-utils] *)
Inductive DualityExecuteMsg := DualityDeposit | DualityWithdraw (amount : N).
Inductive DualityQueryMsg := DualityGetConfig.
Record TokenData := mkTokenData { token_denom : string }.
Record PairData := mkPairData { token_0 : TokenData; token_1 : TokenData }.
Record PoolConfig := mkPoolConfig { pool_lp_denom : string; pair_data : PairData }.
Section Pool.
Context `{CwDenom} `{JsonCodec DualityQueryMsg} `{JsonCodec PoolConfig}.
Definition query_pool_config (q : LibQuerier) (pool_addr : string) : result LibraryError PoolConfig :=
  map_err_r (λ e, ExecutionError ("Failed to query pool config: " +:+ std_error_to_string e)%string)
    (query_wasm_smart (q_protocols q) pool_addr DualityGetConfig).
End Pool.

Module DualityLper.
Inductive FunctionMsgs := ProvideLiquidity.
Record LiquidityProviderConfig := mkLiquidityProviderConfig { pool_addr : string; asset_data : AssetData }.
Record LibraryConfig := mkLibraryConfig {
  raw_input_addr : LibraryAccountType;
  raw_output_addr : LibraryAccountType;
  raw_lp_config : LiquidityProviderConfig;
}.
Record Config := mkConfig {
  input_addr : Addr;
  output_addr : Addr;
  lp_config : LiquidityProviderConfig;
}.
Record LibraryConfigUpdate := mkLibraryConfigUpdate {
  upd_input_addr : option LibraryAccountType;
  upd_output_addr : option LibraryAccountType;
  upd_lp_config : option LiquidityProviderConfig;
}.
#[global] Instance duality_lper_update_raw : LibraryConfigUpdateTrait LibraryConfigUpdate LibraryConfig := {
  update_raw_config u c :=
    mkLibraryConfig (set_field (upd_input_addr u) (raw_input_addr c))
      (set_field (upd_output_addr u) (raw_output_addr c))
      (set_field (upd_lp_config u) (raw_lp_config c));
}.
Abbreviation M := (Exec (storage LibraryConfig Config ()) LibraryError).

Definition DEPOSIT_REPLY_ID : N := 1.
Section Contract.
Context `{Platform} `{CwDenom} `{JsonCodec AccountExecuteMsg} `{JsonCodec DualityExecuteMsg} `{JsonText Config}.
Context `{JsonCodec DualityQueryMsg} `{JsonCodec PoolConfig}.

Definition ensure_correct_pool (q : LibQuerier) (pool_addr : string) (assets : AssetData) : result LibraryError unit :=
  pool_config ← query_pool_config q pool_addr;
  if negb (bool_decide (token_denom (token_0 (pair_data pool_config)) = asset1 assets)) ||
     negb (bool_decide (token_denom (token_1 (pair_data pool_config)) = asset2 assets))
  then Err (ExecutionError "Pool configuration does not match the provided asset data")
  else Ok ().
Definition do_validate (cfg : LibraryConfig) : result LibraryError (Addr * Addr) :=
  input_addr ← try_ (to_addr (raw_input_addr cfg));
  output_addr ← try_ (to_addr (raw_output_addr cfg));
  _ ← try_ (addr_validate (pool_addr (raw_lp_config cfg)));
  Ok (input_addr, output_addr).
#[global] Instance duality_lper_validation : LibraryConfigValidation LibraryConfig Config := {
  validate q cfg :=
    '(input_addr, output_addr) ← do_validate cfg;
    _ ← ensure_correct_pool q (pool_addr (raw_lp_config cfg)) (asset_data (raw_lp_config cfg));
    Ok (mkConfig input_addr output_addr (raw_lp_config cfg));
}.
Definition update_fields (q : LibQuerier) (u : LibraryConfigUpdate) (c : Config) : result LibraryError Config :=
  input_addr ← update_addr (upd_input_addr u) (input_addr c);
  output_addr ← update_addr (upd_output_addr u) (output_addr c);
  lp_config ← match upd_lp_config u with
              | Some lp_config => _ ← try_ (addr_validate (pool_addr lp_config)); Ok lp_config
              | None => Ok (lp_config c)
              end;
  _ ← ensure_correct_pool q (pool_addr lp_config) (asset_data lp_config);
  Ok (mkConfig input_addr output_addr lp_config).
Definition update_config (q : LibQuerier) (_env : Env) (_info : MessageInfo) (u : LibraryConfigUpdate) : M unit :=
  config ← load_config;
  config ← of_result (update_fields q u config);
  save_config config.

Definition provide_liquidity (q : LibQuerier) (cfg : Config) : result LibraryError Response :=
  let data := asset_data (lp_config cfg) in
  bal_asset_1 ← try_ (q_bank_balance q (input_addr cfg) (asset1 data));
  bal_asset_2 ← try_ (q_bank_balance q (input_addr cfg) (asset2 data));
  let bal_asset_1 := mkCoin (asset1 data) bal_asset_1 in
  let bal_asset_2 := mkCoin (asset2 data) bal_asset_2 in
  deposit_msg ← wasm_execute (pool_addr (lp_config cfg)) DualityDeposit [bal_asset_1; bal_asset_2];
  payload ← try_ (to_json_string cfg);
  delegated_input_acc_msgs ← try_ (execute_submsgs_on_behalf_of
    [SubMsg_reply_on_success deposit_msg DEPOSIT_REPLY_ID] (Some payload) (input_addr cfg));
  Ok (add_attributes [("method", "deposit"); ("asset_1", MarsLending.display_coin bal_asset_1);
        ("asset_2", MarsLending.display_coin bal_asset_2)] (add_submessages
        [SubMsg_reply_on_success delegated_input_acc_msgs DEPOSIT_REPLY_ID] Response_new)).
Definition process_function (q : LibQuerier) (_env : Env) (_info : MessageInfo) (msg : FunctionMsgs) (cfg : Config)
    : M Response :=
  of_result match msg with ProvideLiquidity => provide_liquidity q cfg end.

Definition send_shares (q : LibQuerier) (cfg : Config) : result LibraryError Response :=
  pool_config ← query_pool_config q (pool_addr (lp_config cfg));
  balance ← try_ (q_bank_balance q (input_addr cfg) (pool_lp_denom pool_config));
  _ ← ensure_r (negb (balance =? 0)%N) (ExecutionError "No deposited funds");
  let balance := mkCoin (pool_lp_denom pool_config) balance in
  execute_msg ← try_ (execute_on_behalf_of [CosmosBankSend (output_addr cfg) [balance]] (input_addr cfg));
  Ok (add_attributes [("method", "provide_liquidity"); ("lp amount", MarsLending.display_coin balance);
        ("output_addr", output_addr cfg)] (add_message execute_msg Response_new)).
Definition reply (q : LibQuerier) (_env : Env) (msg : HostReply) : M Response :=
  if (host_reply_id msg =? DEPOSIT_REPLY_ID)%N
  then of_result (cfg ← try_ (parse_valence_payload (host_reply_result msg) : result StdError Config);
                  send_shares q cfg)
  else fail (LibStd (GenericErr "unknown reply id")).
End Contract.
End DualityLper.

Module DualityWithdrawer.
Inductive FunctionMsgs := WithdrawLiquidity (amount : option N).
Record LibraryConfig := mkLibraryConfig {
  raw_input_addr : LibraryAccountType;
  raw_output_addr : LibraryAccountType;
  raw_pool_addr : string;
}.
Record Config := mkConfig {
  input_addr : Addr;
  output_addr : Addr;
  pool_addr : Addr;
}.
Record LibraryConfigUpdate := mkLibraryConfigUpdate {
  upd_input_addr : option LibraryAccountType;
  upd_output_addr : option LibraryAccountType;
  upd_pool_addr : option string;
}.
#[global] Instance duality_withdrawer_update_raw : LibraryConfigUpdateTrait LibraryConfigUpdate LibraryConfig := {
  update_raw_config u c :=
    mkLibraryConfig (set_field (upd_input_addr u) (raw_input_addr c))
      (set_field (upd_output_addr u) (raw_output_addr c))
      (set_field (upd_pool_addr u) (raw_pool_addr c));
}.
Abbreviation M := (Exec (storage LibraryConfig Config ()) LibraryError).

Definition WITHDRAW_REPLY_ID : N := 1.
Section Contract.
Context `{Platform} `{CwDenom} `{JsonCodec AccountExecuteMsg} `{JsonCodec DualityExecuteMsg} `{JsonText Config}.
Context `{JsonCodec DualityQueryMsg} `{JsonCodec PoolConfig}.

Definition do_validate (cfg : LibraryConfig) : result LibraryError (Addr * Addr * Addr) :=
  input_addr ← try_ (to_addr (raw_input_addr cfg));
  output_addr ← try_ (to_addr (raw_output_addr cfg));
  pool_addr ← try_ (addr_validate (raw_pool_addr cfg));
  Ok (input_addr, output_addr, pool_addr).
#[global] Instance duality_withdrawer_validation : LibraryConfigValidation LibraryConfig Config := {
  validate _q cfg :=
    '(input_addr, output_addr, pool_addr) ← do_validate cfg;
    Ok (mkConfig input_addr output_addr pool_addr);
}.
Definition update_fields (_q : LibQuerier) (u : LibraryConfigUpdate) (c : Config) : result LibraryError Config :=
  input_addr ← update_addr (upd_input_addr u) (input_addr c);
  output_addr ← update_addr (upd_output_addr u) (output_addr c);
  pool_addr ← match upd_pool_addr u with
              | Some a => try_ (addr_validate a)
              | None => Ok (pool_addr c)
              end;
  Ok (mkConfig input_addr output_addr pool_addr).
Definition update_config (q : LibQuerier) (_env : Env) (_info : MessageInfo) (u : LibraryConfigUpdate) : M unit :=
  config ← load_config;
  config ← of_result (update_fields q u config);
  save_config config.

(** The exact amount, which must be there, or everything. *)
Definition withdrawal_amount (amount : option N) (balance_lp : N) : result LibraryError N :=
  match amount with
  | Some amt => if (balance_lp <? amt)%N || (amt =? 0)%N
                then Err (ExecutionError "Withdraw amount is either zero or bigger than balance")
                else Ok amt
  | None => Ok balance_lp
  end.
Definition withdraw_liquidity (q : LibQuerier) (cfg : Config) (amount : option N) : result LibraryError Response :=
  pool_config ← query_pool_config q (pool_addr cfg);
  balance_lp ← try_ (q_bank_balance q (input_addr cfg) (pool_lp_denom pool_config));
  _ ← ensure_r (negb (balance_lp =? 0)%N) (ExecutionError "No withdrawn funds");
  withdrawal_amount ← withdrawal_amount amount balance_lp;
  withdraw_msg ← wasm_execute (pool_addr cfg) (DualityWithdraw withdrawal_amount)
                   [mkCoin (pool_lp_denom pool_config) withdrawal_amount];
  payload ← try_ (to_json_string cfg);
  execute_msg ← try_ (execute_submsgs_on_behalf_of
    [SubMsg_reply_on_success withdraw_msg WITHDRAW_REPLY_ID] (Some payload) (input_addr cfg));
  Ok (add_attribute "method" "withdraw" (add_submessages
        [SubMsg_reply_on_success execute_msg WITHDRAW_REPLY_ID] Response_new)).
Definition process_function (q : LibQuerier) (_env : Env) (_info : MessageInfo) (msg : FunctionMsgs) (cfg : Config)
    : M Response :=
  of_result match msg with WithdrawLiquidity amount => withdraw_liquidity q cfg amount end.

Definition send_withdrawn (q : LibQuerier) (cfg : Config) : result LibraryError Response :=
  pool_config ← query_pool_config q (pool_addr cfg);
  let denom_1 := token_denom (token_0 (pair_data pool_config)) in
  let denom_2 := token_denom (token_1 (pair_data pool_config)) in
  balance_asset_1 ← try_ (q_bank_balance q (input_addr cfg) denom_1);
  balance_asset_2 ← try_ (q_bank_balance q (input_addr cfg) denom_2);
  _ ← ensure_r (negb ((balance_asset_1 =? 0)%N && (balance_asset_2 =? 0)%N)) (ExecutionError "No withdrawn funds");
  let coin_1 := mkCoin denom_1 balance_asset_1 in
  let coin_2 := mkCoin denom_2 balance_asset_2 in
  execute_msg ← try_ (execute_on_behalf_of [CosmosBankSend (output_addr cfg) [coin_1; coin_2]] (input_addr cfg));
  Ok (add_attributes [("method", "withdraw_liquidity"); ("asset_1", MarsLending.display_coin coin_1);
        ("asset_2", MarsLending.display_coin coin_2); ("output_addr", output_addr cfg)]
        (add_message execute_msg Response_new)).
Definition reply (q : LibQuerier) (_env : Env) (msg : HostReply) : M Response :=
  if (host_reply_id msg =? WITHDRAW_REPLY_ID)%N
  then of_result (cfg ← try_ (parse_valence_payload (host_reply_result msg) : result StdError Config);
                  send_withdrawn q cfg)
  else fail (LibStd (GenericErr "unknown reply id")).
End Contract.
End DualityWithdrawer.
