(* ===== verification/Vortex.v ===== *)
(** * The Vortex library

    [contracts/libraries/vortex-lper], with [packages/vortex-utils]: providing liquidity
    instantiates a Vortex contract, and the reply has the input account create a position
    there with all it holds; withdrawing ends the round of that contract. *)
From Stdlib Require Import Strings.Byte.
From S2P Require Import Prelude Platform Types Format Accounts Protocols LibraryBase Osmosis.
Import Library.

(** ** [vortex-utils] *)
Record VortexInstantiateMsg := mkVortexInstantiateMsg {
  vi_pool_id : N;
  vi_principal_denom : string;
  vi_counterparty_denom : string;
  vi_round_duration : N;
  vi_position_admin : option string;
  vi_counterparty_owner : option string;
  vi_principal_funds_owner : string;
  vi_auction_duration : N;
  vi_principal_first : bool;
}.
Record CreatePositionMsg := mkCreatePositionMsg {
  cpm_lower_tick : Z;
  cpm_upper_tick : Z;
  cpm_principal_token_min_amount : N;
  cpm_counterparty_token_min_amount : N;
}.
Inductive VortexExecuteMsg := CreatePosition (msg : CreatePositionMsg) | EndRound.
Inductive VortexQueryMsg := VortexState.
(** The fields that the library reads; a [Timestamp] is its nanoseconds. *)
Record StateResponse := mkStateResponse { vs_position_id : option N; vs_round_end_time : N }.
(** [cw_utils::parse_instantiate_response_data]: the address of the new contract, or the
    debug text of the error. *)
Class InstantiateResponse := { parse_instantiate_response_data : Binary → result string string }.

Module VortexLper.
Inductive FunctionMsgs :=
| ProvideLiquidity (tick_range : TickRange) (principal_token_min_amount counterparty_token_min_amount : N)
| WithdrawLiquidity.
Record LiquidityProviderConfig := mkLiquidityProviderConfig {
  vortex_code : N;
  label : string;
  pool_id : N;
  round_duration : N;
  auction_duration : N;
  asset_data : AssetData;
  principal_first : bool;
}.
Record LibraryConfig := mkLibraryConfig {
  raw_input_addr : LibraryAccountType;
  raw_output_addr : LibraryAccountType;
  raw_output_addr_2 : LibraryAccountType;
  raw_lp_config : LiquidityProviderConfig;
}.
Record Config := mkConfig {
  input_addr : Addr;
  output_addr : Addr;
  output_addr_2 : Addr;
  lp_config : LiquidityProviderConfig;
}.
Record LibraryConfigUpdate := mkLibraryConfigUpdate {
  upd_input_addr : option LibraryAccountType;
  upd_output_addr : option LibraryAccountType;
  upd_output_addr_2 : option LibraryAccountType;
  upd_lp_config : option LiquidityProviderConfig;
}.
#[global] Instance vortex_lper_update_raw : LibraryConfigUpdateTrait LibraryConfigUpdate LibraryConfig := {
  update_raw_config u c :=
    mkLibraryConfig (set_field (upd_input_addr u) (raw_input_addr c))
      (set_field (upd_output_addr u) (raw_output_addr c))
      (set_field (upd_output_addr_2 u) (raw_output_addr_2 c))
      (set_field (upd_lp_config u) (raw_lp_config c));
}.
(** [state.rs]: the address of the contract, once there is one. *)
Abbreviation St := (storage LibraryConfig Config (option string)).
Definition VORTEX_CONTRACT_ADDR : lens St (option string) := EXT.
Abbreviation M := (Exec St LibraryError).
Record ReplyPayload := mkReplyPayload { rp_config : Config; rp_create_position_msg : CreatePositionMsg }.
Definition REPLY_ID_INSTANTIATE_VORTEX : N := 1.

Section Contract.
Context `{Platform} `{OsmosisProto} `{InstantiateResponse} `{JsonCodec AccountExecuteMsg}.
Context `{JsonCodec VortexInstantiateMsg} `{JsonCodec VortexExecuteMsg} `{JsonCodec VortexQueryMsg}.
Context `{JsonCodec StateResponse} `{JsonCodec ReplyPayload}.

Definition do_validate (cfg : LibraryConfig) : result LibraryError (Addr * Addr * Addr) :=
  input_addr ← try_ (to_addr (raw_input_addr cfg));
  output_addr ← try_ (to_addr (raw_output_addr cfg));
  output_addr_2 ← try_ (to_addr (raw_output_addr_2 cfg));
  Ok (input_addr, output_addr, output_addr_2).
#[global] Instance vortex_lper_validation : LibraryConfigValidation LibraryConfig Config := {
  validate _q cfg :=
    '(input_addr, output_addr, output_addr_2) ← do_validate cfg;
    Ok (mkConfig input_addr output_addr output_addr_2 (raw_lp_config cfg));
}.
Definition update_fields (_q : LibQuerier) (u : LibraryConfigUpdate) (c : Config) : result LibraryError Config :=
  input_addr ← update_addr (upd_input_addr u) (input_addr c);
  output_addr ← update_addr (upd_output_addr u) (output_addr c);
  output_addr_2 ← update_addr (upd_output_addr_2 u) (output_addr_2 c);
  Ok (mkConfig input_addr output_addr output_addr_2 (set_field (upd_lp_config u) (lp_config c))).
Definition update_config (q : LibQuerier) (_env : Env) (_info : MessageInfo) (u : LibraryConfigUpdate) : M unit :=
  config ← load_config;
  config ← of_result (update_fields q u config);
  save_config config.

Definition instantiate_msg (cfg : Config) : VortexInstantiateMsg :=
  mkVortexInstantiateMsg (pool_id (lp_config cfg)) (asset1 (asset_data (lp_config cfg)))
    (asset2 (asset_data (lp_config cfg))) (round_duration (lp_config cfg)) (Some (input_addr cfg))
    (Some (output_addr_2 cfg)) (output_addr cfg) (auction_duration (lp_config cfg)) (principal_first (lp_config cfg)).
Definition provide_liquidity (q : LibQuerier) (cfg : Config) (tick_range : TickRange)
    (principal_token_min_amount counterparty_token_min_amount : N) : result LibraryError Response :=
  instantiate_msg_bin ← try_ (to_json_binary (instantiate_msg cfg));
  let instantiate_cosmos_msg := CosmosWasm (WasmInstantiate None (vortex_code (lp_config cfg)) instantiate_msg_bin []
    (label (lp_config cfg))) in
  _ ← TickRange_validate tick_range;
  pool_cfg ← try_ (query_cl_pool q (pool_id (lp_config cfg)));
  _ ← ensure_pool_spacing_compatibility tick_range pool_cfg;
  let payload := mkCreatePositionMsg (lower_tick tick_range) (upper_tick tick_range) principal_token_min_amount
    counterparty_token_min_amount in
  reply_payload ← try_ (to_json_binary (mkReplyPayload cfg payload));
  let inst_submsg := with_payload reply_payload
    (SubMsg_reply_on_success instantiate_cosmos_msg REPLY_ID_INSTANTIATE_VORTEX) in
  Ok (add_attribute "method" "deposit" (add_submessages [inst_submsg] Response_new)).
Definition withdraw_liquidity (q : LibQuerier) (env : Env) (cfg : Config) (vortex_addr : string)
    : result LibraryError Response :=
  state ← try_ (query_wasm_smart (q_protocols q) vortex_addr VortexState : result StdError StateResponse);
  _ ← ensure_r (negb (block_time (env_block env) <? vs_round_end_time state)%N)
        (ExecutionError "Current round has not ended yet");
  _ ← ensure_r (bool_decide (is_Some (vs_position_id state))) (ExecutionError "No position found");
  cosmos_msg ← wasm_execute vortex_addr EndRound [];
  withdraw_msg ← try_ (execute_on_behalf_of [cosmos_msg] (input_addr cfg));
  Ok (add_attribute "method" "withdraw" (add_message withdraw_msg Response_new)).
Definition process_function (q : LibQuerier) (env : Env) (_info : MessageInfo) (msg : FunctionMsgs) (cfg : Config)
    : M Response :=
  match msg with
  | ProvideLiquidity tick_range min0 min1 =>
      s ← get_storage;
      _ ← fail_if (bool_decide (is_Some (lget VORTEX_CONTRACT_ADDR s))) (LibStd (GenericErr "Vortex contract already exists"));
      of_result (provide_liquidity q cfg tick_range min0 min1)
  | WithdrawLiquidity =>
      vortex_addr ← item_load VORTEX_CONTRACT_ADDR;
      of_result (withdraw_liquidity q env cfg vortex_addr)
  end.

(** The address of the new contract: the first of the message responses, which must be
    there. *)
Definition new_contract (outcome : SubMsgOutcome) : result LibraryError string :=
  response ← match outcome with OutcomeOk r => Ok r | OutcomeErr e => Err (LibStd (GenericErr e)) end;
  match msg_responses response with
  | [] => Panic
  | (_, bytes) :: _ =>
      map_err_r (λ e, LibStd (GenericErr ("failed to parse reply message: " +:+ e)%string))
        (parse_instantiate_response_data bytes)
  end.
(** [funds.sort_by(|a, b| a.denom.cmp(&b.denom))]. *)
Definition sort_funds (funds : list Coin) : list Coin :=
  merge_sort (λ a b, Is_true (String.leb (coin_denom a) (coin_denom b))) funds.
Definition create_position (q : LibQuerier) (cfg : Config) (msg : CreatePositionMsg) (contract_address : string)
    : result LibraryError Response :=
  let data := asset_data (lp_config cfg) in
  bal_asset_0 ← try_ (q_bank_balance q (input_addr cfg) (asset1 data));
  bal_asset_1 ← try_ (q_bank_balance q (input_addr cfg) (asset2 data));
  let funds := sort_funds [mkCoin (asset1 data) bal_asset_0; mkCoin (asset2 data) bal_asset_1] in
  cosmos_msg ← wasm_execute contract_address (CreatePosition msg) funds;
  delegate_msg ← try_ (execute_on_behalf_of [cosmos_msg] (input_addr cfg));
  Ok (add_attributes [("action", "instantiate_vortex_and_create_position"); ("vortex_addr", contract_address)]
        (add_message delegate_msg Response_new)).
Definition reply (q : LibQuerier) (_env : Env) (msg : HostReply) : M Response :=
  if (host_reply_id msg =? REPLY_ID_INSTANTIATE_VORTEX)%N
  then
    reply_payload ← of_result (from_json (host_reply_payload msg) : result StdError ReplyPayload);
    contract_address ← of_result (new_contract (host_reply_result msg));
    _ ← item_save VORTEX_CONTRACT_ADDR contract_address;
    of_result (create_position q (rp_config reply_payload) (rp_create_position_msg reply_payload) contract_address)
  else fail (ExecutionError "Unknown reply ID").
Definition query_vortex_address : M string := item_load VORTEX_CONTRACT_ADDR.
End Contract.
End VortexLper.
