(* ===== verification/IbcUtils.v ===== *)
(** * Messages over IBC

    [packages/ibc-utils]: the transfer messages of the libraries, with their routing
    through the packet-forward middleware and their memos ([types.rs], [generic.rs]), and
    the transfers of Neutron, which pay the relayers ([neutron.rs], of which the parts that
    the interchain account uses are in [InterchainAccount.v]); the helpers for interchain
    accounts of [packages/library-utils/src/ica.rs]. *)
From Stdlib Require Import Strings.Byte.
From S2P Require Import Prelude Platform Types Accounts InterchainAccount LibraryBase.

(** ** [types.rs] *)
Record PacketForwardMiddlewareConfig := mkPfm {
  local_to_hop_chain_channel_id : string;
  hop_to_destination_chain_channel_id : string;
  hop_chain_receiver_address : option string;
}.
Record ForwardMetadata := mkForwardMetadata { fwd_receiver : string; fwd_port : string; fwd_channel : string }.
Record PacketMetadata := mkPacketMetadata { pm_forward : option ForwardMetadata }.
Record EurekaConfig := mkEurekaConfig {
  callback_contract : string;
  action_contract : string;
  eureka_recover_address : string;
  eureka_source_channel : string;
  eureka_config_memo : option string;
  eureka_timeout : option N;
}.
Record EurekaFee := mkEurekaFee {
  fee_coin : Coin;
  fee_receiver : string;
  fee_timeout_timestamp : N;
}.
Record IbcInfo := mkIbcInfo {
  info_encoding : string;
  info_eureka_fee : EurekaFee;
  info_memo : string;
  info_receiver : string;
  info_recover_address : string;
  info_source_channel : string;
}.
Record IbcTransfer := mkIbcTransfer { ibc_info : IbcInfo }.
Record ActionData := mkActionData { ibc_transfer : IbcTransfer }.
Record ActionWrapper := mkActionWrapper {
  wrapped_action : ActionData;
  exact_out : bool;
  action_timeout_timestamp : N;
}.
Record WasmMessage := mkWasmMessage { wasm_action : ActionWrapper }.
Record WasmData := mkWasmData { wasm_contract : string; wasm_msg : WasmMessage }.
(** [IbcDstCallback] of [cosmwasm_std]. *)
Record IbcDstCallback := mkIbcDstCallback { dst_address : string; dst_gas_limit : option N }.
Record EurekaMemo := mkEurekaMemo { dest_callback : IbcDstCallback; memo_wasm : WasmData }.

(** ** Messages of other packages *)
Record NeutronFee := mkNeutronFee {
  nf_recv_fee : list ProtoCoin;
  nf_ack_fee : list ProtoCoin;
  nf_timeout_fee : list ProtoCoin;
}.
(** [MsgTransfer] of [ibc_proto]; [neutron_sdk]'s has a fee. [timeout_height] is [None]. *)
Record MsgTransfer := mkMsgTransfer {
  source_port : string;
  transfer_channel : string;
  transfer_sender : string;
  transfer_receiver : string;
  transfer_token : option ProtoCoin;
  timeout_timestamp : N;
  transfer_memo : string;
  transfer_fee : option NeutronFee;
}.
Class IbcPackages := {
  (** A [None] is an error, on which the code panics. *)
  NeutronMsgTransfer_to_bytes : MsgTransfer → option Binary;
  (** With the text of the error. *)
  MsgTransfer_to_bytes : MsgTransfer → result string Binary;
  MsgTransfer_type_url : string;
}.
Class IbcPackagesLaws `{IbcPackages} : Prop := {
  NeutronMsgTransfer_total m : is_Some (NeutronMsgTransfer_to_bytes m);
}.

Definition DEFAULT_TIMEOUT_SECONDS : N := 600.
Definition DEFAULT_EUREKA_TIMEOUT_SECONDS : N := 43200.

Section Send.
Context `{Platform} `{CwDenom} `{CosmMath} `{IbcPackages}.
Context `{JsonText PacketMetadata} `{JsonText EurekaMemo}.

(** The memo that makes the hop chain forward a transfer. *)
Definition forward_memo (to_ : string) (pfm_config : PacketForwardMiddlewareConfig)
    : result StdError string :=
  to_json_string (mkPacketMetadata (Some (mkForwardMetadata to_ "transfer"
    (hop_to_destination_chain_channel_id pfm_config)))).

(** ** [generic.rs] *)
Definition ibc_send_message (env : Env) (channel to_ denom : string) (amount : N) (memo : string)
    (timeout_seconds : option N) (denom_to_pfm_map : gmap string PacketForwardMiddlewareConfig)
    : result StdError CosmosMsg :=
  match denom_to_pfm_map !! denom with
  | None =>
      timeout ← expect_r (timestamp_plus_seconds (block_time (env_block env))
                  (default DEFAULT_TIMEOUT_SECONDS timeout_seconds));
      Ok (CosmosIbcTransfer channel to_ (mkCoin denom amount) timeout (Some memo))
  | Some pfm_config =>
      timeout ← expect_r (timestamp_plus_seconds (block_time (env_block env))
                  (default DEFAULT_TIMEOUT_SECONDS timeout_seconds));
      memo ← forward_memo to_ pfm_config;
      Ok (CosmosIbcTransfer (local_to_hop_chain_channel_id pfm_config)
            (default "pfm" (hop_chain_receiver_address pfm_config)) (mkCoin denom amount) timeout
            (Some memo))
  end.

Definition build_eureka_memo (env : Env) (receiver : string) (eureka_fee : EurekaFee)
    (eureka_config : EurekaConfig) : result StdError string :=
  timeout ← expect_r (timestamp_plus_seconds (block_time (env_block env))
              (default DEFAULT_EUREKA_TIMEOUT_SECONDS (eureka_timeout eureka_config)));
  to_json_string (mkEurekaMemo (mkIbcDstCallback (callback_contract eureka_config) None)
    (mkWasmData (action_contract eureka_config)
      (mkWasmMessage (mkActionWrapper
        (mkActionData (mkIbcTransfer (mkIbcInfo "application/x-solidity-abi" eureka_fee
          (default "" (eureka_config_memo eureka_config)) receiver
          (eureka_recover_address eureka_config) (eureka_source_channel eureka_config))))
        false (timestamp_seconds timeout))))).

(** ** [neutron.rs] *)
Definition proto_coin (c : Coin) : ProtoCoin := mkProtoCoin (coin_denom c) (pretty (coin_amount c)).
Definition get_transfer_fee (ibc_fee : IbcFee) : NeutronFee :=
  mkNeutronFee (proto_coin <$> recv_fee ibc_fee) (proto_coin <$> ack_fee ibc_fee)
    (proto_coin <$> timeout_fee ibc_fee).

(** The amount that is transferred: the fees must be paid from the same account. *)
Definition transfer_amount (denom : string) (amount sender_ntrn_balance total_fee : N)
    : result StdError N :=
  if bool_decide (denom = NTRN_DENOM) then
    if (amount =? sender_ntrn_balance)%N then uint128_checked_sub amount total_fee
    else
      amount_plus_fee ← uint128_checked_add total_fee amount;
      if (sender_ntrn_balance <? amount_plus_fee)%N
      then Err (GenericErr ("Insufficient balance to cover for IBC fees '" ++ NTRN_DENOM ++
             "' in sender account (required: " ++ pretty amount_plus_fee ++ ", available: " ++
             pretty sender_ntrn_balance ++ ")."))
      else Ok amount
  else
    if (sender_ntrn_balance <? total_fee)%N
    then Err (GenericErr ("Insufficient balance to cover for IBC fees '" ++ NTRN_DENOM ++
           "' in sender account (required: " ++ pretty total_fee ++ ", available: " ++
           pretty sender_ntrn_balance ++ ")."))
    else Ok amount.

(** [neutron::ibc_send_message]. *)
Definition neutron_ibc_send_message (q : LibQuerier) (env : Env) (channel : string) (sender : Addr)
    (to_ : string) (denom : CheckedDenom) (amount : N) (memo : string) (timeout_seconds : option N)
    (denom_to_pfm_map : gmap string PacketForwardMiddlewareConfig) : result StdError CosmosMsg :=
  min_fee ← map_err_r GenericErr (q_min_ibc_fee q);
  let ibc_fee := min_ntrn_ibc_fee min_fee in
  total_fee ← expect_r (flatten_ntrn_ibc_fee ibc_fee);
  sender_ntrn_balance ← q_bank_balance q sender NTRN_DENOM;
  let denom := checked_denom_to_string denom in
  transfer_amount ← transfer_amount denom amount sender_ntrn_balance total_fee;
  let coin := mkProtoCoin denom (pretty transfer_amount) in
  msg ← match denom_to_pfm_map !! denom with
        | None =>
            timeout ← expect_r (timestamp_plus_seconds (block_time (env_block env))
                        (default DEFAULT_TIMEOUT_SECONDS timeout_seconds));
            Ok (mkMsgTransfer "transfer" channel sender to_ (Some coin) timeout memo
                  (Some (get_transfer_fee ibc_fee)))
        | Some pfm_config =>
            timeout ← expect_r (timestamp_plus_seconds (block_time (env_block env))
                        (default DEFAULT_TIMEOUT_SECONDS timeout_seconds));
            memo ← forward_memo to_ pfm_config;
            Ok (mkMsgTransfer "transfer" (local_to_hop_chain_channel_id pfm_config) sender
                  (default "pfm" (hop_chain_receiver_address pfm_config)) (Some coin) timeout memo
                  (Some (get_transfer_fee ibc_fee)))
        end;
  value ← expect_r (NeutronMsgTransfer_to_bytes msg);
  Ok (CosmosStargate "/neutron.transfer.MsgTransfer" value).
End Send.

(** ** [library-utils/src/ica.rs] *)
Definition ica_execute_on_behalf_of `{JsonCodec InterchainAccount.ExecuteMsg} (msgs : list AnyMsg)
    (account : Addr) : result StdError CosmosMsg :=
  msg ← to_json_binary (InterchainAccount.ExecuteIcaMsg msgs);
  Ok (CosmosWasm (WasmExecute account msg [])).
Definition get_remote_ica_address (q : LibQuerier) (contract_addr : string) : result StdError string :=
  ica_state ← q_ica_state q contract_addr;
  match ica_state with
  | IcaCreated ica_information => Ok (ica_address ica_information)
  | _ => Err (GenericErr "ICA not created")
  end.
