(* ===== verification/IbcTransfer.v ===== *)
(** * The libraries that transfer over IBC

    [contracts/libraries/generic-ibc-transfer] and [neutron-ibc-transfer], which share
    their configuration, and [ica-ibc-transfer] and [ica-cctp-transfer], which act through
    an interchain account. *)
From Stdlib Require Import Strings.Byte.
From S2P Require Import Prelude Platform Types Accounts InterchainAccount LibraryBase IbcUtils.
Import Library.

(** ** The configuration of [generic-ibc-transfer] and [neutron-ibc-transfer] *)
Module GenericIbcTransfer.

Inductive FunctionMsgs := IbcTransfer | EurekaTransfer (eureka_fee : EurekaFee).
Inductive IbcTransferAmount := FullAmount | FixedAmount (amount : N).
Record RemoteChainInfo := mkRemoteChainInfo {
  channel_id : string;
  ibc_transfer_timeout : option N;
}.
Record LibraryConfig := mkLibraryConfig {
  raw_input_addr : LibraryAccountType;
  raw_output_addr : LibraryAccountType;
  raw_denom : UncheckedDenom;
  raw_amount : IbcTransferAmount;
  raw_memo : string;
  raw_remote_chain_info : RemoteChainInfo;
  raw_denom_to_pfm_map : gmap string PacketForwardMiddlewareConfig;
  raw_eureka_config : option EurekaConfig;
}.
Record Config := mkConfig {
  input_addr : Addr;
  output_addr : string;
  denom : CheckedDenom;
  amount : IbcTransferAmount;
  memo : string;
  remote_chain_info : RemoteChainInfo;
  denom_to_pfm_map : gmap string PacketForwardMiddlewareConfig;
  eureka_config : option EurekaConfig;
}.
Record LibraryConfigUpdate := mkLibraryConfigUpdate {
  upd_input_addr : option LibraryAccountType;
  upd_output_addr : option LibraryAccountType;
  upd_denom : option UncheckedDenom;
  upd_amount : option IbcTransferAmount;
  upd_memo : option string;
  upd_remote_chain_info : option RemoteChainInfo;
  upd_denom_to_pfm_map : option (gmap string PacketForwardMiddlewareConfig);
  upd_eureka_config : OptionUpdate EurekaConfig;
}.
#[global] Instance ibc_update_raw : LibraryConfigUpdateTrait LibraryConfigUpdate LibraryConfig := {
  update_raw_config u c := mkLibraryConfig
    (set_field (upd_input_addr u) (raw_input_addr c))
    (set_field (upd_output_addr u) (raw_output_addr c))
    (set_field (upd_denom u) (raw_denom c))
    (set_field (upd_amount u) (raw_amount c))
    (set_field (upd_memo u) (raw_memo c))
    (set_field (upd_remote_chain_info u) (raw_remote_chain_info c))
    (set_field (upd_denom_to_pfm_map u) (raw_denom_to_pfm_map c))
    (set_option_field (upd_eureka_config u) (raw_eureka_config c));
}.
(** [LibraryConfig::new] and [with_pfm_map]. *)
Definition LibraryConfig_new (input_addr output_addr : LibraryAccountType) (denom : UncheckedDenom)
    (amount : IbcTransferAmount) (memo : string) (remote_chain_info : RemoteChainInfo) : LibraryConfig :=
  mkLibraryConfig input_addr output_addr denom amount memo remote_chain_info ∅ None.
Definition LibraryConfig_with_pfm_map (input_addr output_addr : LibraryAccountType)
    (denom : UncheckedDenom) (amount : IbcTransferAmount) (memo : string)
    (remote_chain_info : RemoteChainInfo)
    (denom_to_pfm_map : gmap string PacketForwardMiddlewareConfig) : LibraryConfig :=
  mkLibraryConfig input_addr output_addr denom amount memo remote_chain_info denom_to_pfm_map None.

Abbreviation M := (Exec (storage LibraryConfig Config ()) LibraryError).

Section Contract.
Context `{Platform} `{CwDenom} `{CosmMath} `{JsonCodec AccountExecuteMsg} `{IbcPackages}.
Context `{JsonText PacketMetadata} `{JsonText EurekaMemo}.

Definition validate_amount (amount : IbcTransferAmount) : result LibraryError unit :=
  match amount with
  | FixedAmount 0%N =>
      Err (ConfigurationError "Invalid IBC transfer config: amount cannot be zero.")
  | _ => Ok ()
  end.
Definition validate_remote_chain_info (i : RemoteChainInfo) : result LibraryError unit :=
  if bool_decide (channel_id i = "")
  then Err (ConfigurationError
         "Invalid IBC transfer config: remote_chain_info's channel_id cannot be empty.")
  else match ibc_transfer_timeout i with
       | Some 0%N => Err (ConfigurationError
           "Invalid IBC transfer config: remote_chain_info's ibc_transfer_timeout cannot be zero.")
       | _ => Ok ()
       end.
Definition do_validate (cfg : LibraryConfig) : result LibraryError Addr :=
  input_addr ← try_ (to_addr (raw_input_addr cfg));
  _ ← validate_amount (raw_amount cfg);
  _ ← validate_remote_chain_info (raw_remote_chain_info cfg);
  Ok input_addr.
#[global] Instance ibc_validation : LibraryConfigValidation LibraryConfig Config := {
  validate q cfg :=
    input_addr ← do_validate cfg;
    output_addr ← try_ (account_to_string (raw_output_addr cfg));
    denom ← map_err_r ConfigurationError (q_into_checked q (raw_denom cfg));
    Ok (mkConfig input_addr output_addr denom (raw_amount cfg) (raw_memo cfg)
          (raw_remote_chain_info cfg) (raw_denom_to_pfm_map cfg) (raw_eureka_config cfg));
}.

(** The fields of an update, one after the other. *)
Definition update_fields (q : LibQuerier) (u : LibraryConfigUpdate) (c : Config) : result LibraryError Config :=
  input_addr ← match upd_input_addr u with
               | Some a => try_ (to_addr a)
               | None => Ok (input_addr c)
               end;
  output_addr ← match upd_output_addr u with
                | Some a => try_ (account_to_string a)
                | None => Ok (output_addr c)
                end;
  denom ← match upd_denom u with
          | Some d => map_err_r ConfigurationError (q_into_checked q d)
          | None => Ok (denom c)
          end;
  amount ← match upd_amount u with
           | Some amount => _ ← validate_amount amount; Ok amount
           | None => Ok (amount c)
           end;
  remote_chain_info ← match upd_remote_chain_info u with
                      | Some i => _ ← validate_remote_chain_info i; Ok i
                      | None => Ok (remote_chain_info c)
                      end;
  Ok (mkConfig input_addr output_addr denom amount (set_field (upd_memo u) (memo c))
        remote_chain_info (set_field (upd_denom_to_pfm_map u) (denom_to_pfm_map c))
        (set_option_field (upd_eureka_config u) (eureka_config c))).
Definition update_config (q : LibQuerier) (_env : Env) (_info : MessageInfo)
    (u : LibraryConfigUpdate) : M unit :=
  config ← load_config;
  config ← of_result (update_fields q u config);
  save_config config.

(** The amount to transfer, given the balance of the input account. *)
Definition amount_to_send (cfg : Config) (balance : N) : result LibraryError N :=
  match amount cfg with
  | FullAmount => Ok balance
  | FixedAmount amount =>
      if (balance <? amount)%N
      then Err (ExecutionError ("Insufficient balance for denom '" ++
             checked_denom_to_string (denom cfg) ++ "' in config (required: " ++ pretty amount ++
             ", available: " ++ pretty balance ++ ")."))
      else Ok amount
  end.
Definition std_to_execution (e : StdError) : LibraryError := ExecutionError (std_error_to_string e).

(** ** [generic-ibc-transfer] *)
Definition process_function (q : LibQuerier) (env : Env) (_info : MessageInfo) (msg : FunctionMsgs)
    (cfg : Config) : M Response :=
  balance ← of_result (q_denom_balance q (denom cfg) (input_addr cfg));
  amount ← of_result (amount_to_send cfg balance);
  match msg with
  | IbcTransfer =>
      ibc_send_msg ← of_result (map_err_r std_to_execution (ibc_send_message env
        (channel_id (remote_chain_info cfg)) (output_addr cfg)
        (checked_denom_to_string (denom cfg)) amount (memo cfg)
        (ibc_transfer_timeout (remote_chain_info cfg)) (denom_to_pfm_map cfg)));
      input_account_msgs ← of_result (execute_on_behalf_of [ibc_send_msg] (input_addr cfg));
      mret (add_message input_account_msgs (add_attribute "method" "ibc-transfer" Response_new))
  | EurekaTransfer eureka_fee =>
      eureka_config ← ok_or (eureka_config cfg) (ExecutionError "No Eureka config provided.");
      eureka_memo ← of_result (build_eureka_memo env (output_addr cfg) eureka_fee eureka_config);
      ibc_send_msg ← of_result (map_err_r std_to_execution (ibc_send_message env
        (channel_id (remote_chain_info cfg)) (callback_contract eureka_config)
        (checked_denom_to_string (denom cfg)) amount eureka_memo
        (ibc_transfer_timeout (remote_chain_info cfg)) ∅));
      input_account_msgs ← of_result (execute_on_behalf_of [ibc_send_msg] (input_addr cfg));
      mret (add_message input_account_msgs
              (add_attribute "method" "ibc-eureka-transfer" Response_new))
  end.

(** ** [neutron-ibc-transfer] *)
Definition neutron_error (e : StdError) : LibraryError :=
  match e with GenericErr msg => ExecutionError msg | _ => std_to_execution e end.
Definition neutron_process_function (q : LibQuerier) (env : Env) (_info : MessageInfo)
    (msg : FunctionMsgs) (cfg : Config) : M Response :=
  balance ← of_result (q_denom_balance q (denom cfg) (input_addr cfg));
  amount ← of_result (amount_to_send cfg balance);
  match msg with
  | IbcTransfer =>
      ibc_send_msg ← of_result (map_err_r neutron_error (neutron_ibc_send_message q env
        (channel_id (remote_chain_info cfg)) (input_addr cfg) (output_addr cfg) (denom cfg) amount
        (memo cfg) (ibc_transfer_timeout (remote_chain_info cfg)) (denom_to_pfm_map cfg)));
      input_account_msgs ← of_result (execute_on_behalf_of [ibc_send_msg] (input_addr cfg));
      mret (add_message input_account_msgs (add_attribute "method" "ibc-transfer" Response_new))
  | EurekaTransfer eureka_fee =>
      eureka_config ← ok_or (eureka_config cfg) (ExecutionError "No Eureka config provided.");
      eureka_memo ← of_result (build_eureka_memo env (output_addr cfg) eureka_fee eureka_config);
      ibc_send_msg ← of_result (neutron_ibc_send_message q env
        (channel_id (remote_chain_info cfg)) (input_addr cfg) (callback_contract eureka_config)
        (denom cfg) amount eureka_memo (ibc_transfer_timeout (remote_chain_info cfg)) ∅);
      input_account_msgs ← of_result (execute_on_behalf_of [ibc_send_msg] (input_addr cfg));
      mret (add_message input_account_msgs
              (add_attribute "method" "ibc-eureka-transfer" Response_new))
  end.
End Contract.
End GenericIbcTransfer.

(** ** [ica-ibc-transfer] *)
Module IcaIbcTransfer.

Inductive FunctionMsgs := Transfer | EurekaTransfer (eureka_fee : EurekaFee).
Record RemoteChainInfo := mkRemoteChainInfo {
  channel_id : string;
  ibc_transfer_timeout : option N;
}.
Record LibraryConfig := mkLibraryConfig {
  raw_input_addr : LibraryAccountType;
  raw_amount : N;
  raw_denom : string;
  raw_receiver : string;
  raw_memo : string;
  raw_remote_chain_info : RemoteChainInfo;
  raw_denom_to_pfm_map : gmap string PacketForwardMiddlewareConfig;
  raw_eureka_config : option EurekaConfig;
}.
Record Config := mkConfig {
  input_addr : Addr;
  amount : N;
  denom : string;
  receiver : string;
  memo : string;
  remote_chain_info : RemoteChainInfo;
  denom_to_pfm_map : gmap string PacketForwardMiddlewareConfig;
  eureka_config : option EurekaConfig;
}.
Record LibraryConfigUpdate := mkLibraryConfigUpdate {
  upd_input_addr : option LibraryAccountType;
  upd_amount : option N;
  upd_denom : option string;
  upd_receiver : option string;
  upd_memo : option string;
  upd_remote_chain_info : option RemoteChainInfo;
  upd_denom_to_pfm_map : option (gmap string PacketForwardMiddlewareConfig);
  upd_eureka_config : OptionUpdate EurekaConfig;
}.
#[global] Instance ica_ibc_update_raw : LibraryConfigUpdateTrait LibraryConfigUpdate LibraryConfig := {
  update_raw_config u c := mkLibraryConfig
    (set_field (upd_input_addr u) (raw_input_addr c))
    (set_field (upd_amount u) (raw_amount c))
    (set_field (upd_denom u) (raw_denom c))
    (set_field (upd_receiver u) (raw_receiver c))
    (set_field (upd_memo u) (raw_memo c))
    (set_field (upd_remote_chain_info u) (raw_remote_chain_info c))
    (set_field (upd_denom_to_pfm_map u) (raw_denom_to_pfm_map c))
    (set_option_field (upd_eureka_config u) (raw_eureka_config c));
}.
Definition DEFAULT_IBC_TIMEOUT : N := 600.
Abbreviation M := (Exec (storage LibraryConfig Config ()) LibraryError).

Section Contract.
Context `{Platform} `{CwDenom} `{JsonCodec InterchainAccount.ExecuteMsg} `{IbcPackages}.
Context `{JsonText PacketMetadata} `{JsonText EurekaMemo}.

Definition check_amount (amount : N) : result LibraryError unit :=
  if (amount =? 0)%N
  then Err (ConfigurationError "Invalid ICA IBC transfer config: amount cannot be zero.") else Ok ().
Definition check_denom (denom : string) : result LibraryError unit :=
  if bool_decide (denom = "")
  then Err (ConfigurationError "Invalid ICA IBC transfer config: denom cannot be empty.") else Ok ().
Definition check_channel (i : RemoteChainInfo) : result LibraryError unit :=
  if bool_decide (channel_id i = "")
  then Err (ConfigurationError "Invalid ICA IBC transfer config: channel_id cannot be empty.")
  else Ok ().
Definition check_receiver (receiver : string) : result LibraryError unit :=
  if bool_decide (receiver = "")
  then Err (ConfigurationError "Invalid ICA IBC transfer config: receiver cannot be empty.")
  else Ok ().
Definition check_timeout (i : RemoteChainInfo) : result LibraryError unit :=
  match ibc_transfer_timeout i with
  | Some 0%N => Err (ConfigurationError "Invalid ICA IBC transfer config: timeout cannot be zero.")
  | _ => Ok ()
  end.
Definition do_validate (cfg : LibraryConfig) : result LibraryError Addr :=
  input_addr ← try_ (to_addr (raw_input_addr cfg));
  _ ← check_amount (raw_amount cfg);
  _ ← check_denom (raw_denom cfg);
  _ ← check_channel (raw_remote_chain_info cfg);
  _ ← check_receiver (raw_receiver cfg);
  _ ← check_timeout (raw_remote_chain_info cfg);
  Ok input_addr.
#[global] Instance ica_ibc_validation : LibraryConfigValidation LibraryConfig Config := {
  validate q cfg :=
    input_addr ← do_validate cfg;
    Ok (mkConfig input_addr (raw_amount cfg) (raw_denom cfg) (raw_receiver cfg) (raw_memo cfg)
          (raw_remote_chain_info cfg) (raw_denom_to_pfm_map cfg) (raw_eureka_config cfg));
}.

(** The fields of an update, one after the other; the memo is not among them. *)
Definition update_fields (u : LibraryConfigUpdate) (c : Config) : result LibraryError Config :=
  input_addr ← match upd_input_addr u with
               | Some a => try_ (to_addr a)
               | None => Ok (input_addr c)
               end;
  amount ← match upd_amount u with
           | Some amount => _ ← check_amount amount; Ok amount
           | None => Ok (amount c)
           end;
  denom ← match upd_denom u with
          | Some denom => _ ← check_denom denom; Ok denom
          | None => Ok (denom c)
          end;
  receiver ← match upd_receiver u with
             | Some receiver => _ ← check_receiver receiver; Ok receiver
             | None => Ok (receiver c)
             end;
  remote_chain_info ← match upd_remote_chain_info u with
                      | Some i => _ ← check_channel i; _ ← check_timeout i; Ok i
                      | None => Ok (remote_chain_info c)
                      end;
  Ok (mkConfig input_addr amount denom receiver (memo c) remote_chain_info
        (set_field (upd_denom_to_pfm_map u) (denom_to_pfm_map c))
        (set_option_field (upd_eureka_config u) (eureka_config c))).
Definition update_config (_q : LibQuerier) (_env : Env) (_info : MessageInfo)
    (u : LibraryConfigUpdate) : M unit :=
  config ← load_config;
  config ← of_result (update_fields u config);
  save_config config.

Definition create_msg_transfer (env : Env) (source_channel receiver denom : string) (amount : N)
    (memo : string) (timeout_seconds : option N)
    (denom_to_pfm_map : gmap string PacketForwardMiddlewareConfig) (sender : string)
    : result StdError MsgTransfer :=
  timeout_timestamp ← expect_r (timestamp_plus_seconds (block_time (env_block env))
                        (default DEFAULT_IBC_TIMEOUT timeout_seconds));
  let token := Some (mkProtoCoin denom (pretty amount)) in
  match denom_to_pfm_map !! denom with
  | None =>
      Ok (mkMsgTransfer "transfer" source_channel sender receiver token timeout_timestamp memo None)
  | Some pfm_config =>
      pfm_memo ← forward_memo receiver pfm_config;
      Ok (mkMsgTransfer "transfer" (local_to_hop_chain_channel_id pfm_config) sender
            (default "pfm" (hop_chain_receiver_address pfm_config)) token timeout_timestamp
            pfm_memo None)
  end.
(** The [Any] around the transfer, for the interchain account. *)
Definition submit_transfer (proto_msg : MsgTransfer) (input_addr : Addr) : result LibraryError CosmosMsg :=
  value ← map_err_r (λ e, ExecutionError ("Failed to encode MsgTransfer: " ++ e))
            (MsgTransfer_to_bytes proto_msg);
  try_ (ica_execute_on_behalf_of [mkAnyMsg MsgTransfer_type_url value] input_addr).

Definition process_function (q : LibQuerier) (env : Env) (_info : MessageInfo) (msg : FunctionMsgs)
    (cfg : Config) : M Response :=
  remote_address ← of_result (get_remote_ica_address q (input_addr cfg));
  match msg with
  | Transfer =>
      proto_msg ← of_result (create_msg_transfer env (channel_id (remote_chain_info cfg))
        (receiver cfg) (denom cfg) (amount cfg) (memo cfg)
        (ibc_transfer_timeout (remote_chain_info cfg)) (denom_to_pfm_map cfg) remote_address);
      input_account_msgs ← of_result (submit_transfer proto_msg (input_addr cfg));
      mret (add_attribute "method" "ica_ibc_transfer" (add_message input_account_msgs Response_new))
  | EurekaTransfer eureka_fee =>
      eureka_config ← ok_or (eureka_config cfg) (ExecutionError "No Eureka config provided.");
      eureka_memo ← of_result (build_eureka_memo env (receiver cfg) eureka_fee eureka_config);
      proto_msg ← of_result (create_msg_transfer env (channel_id (remote_chain_info cfg))
        (callback_contract eureka_config) (denom cfg) (amount cfg) eureka_memo
        (ibc_transfer_timeout (remote_chain_info cfg)) ∅ remote_address);
      input_account_msgs ← of_result (submit_transfer proto_msg (input_addr cfg));
      mret (add_attribute "method" "ica_eureka_ibc_transfer"
              (add_message input_account_msgs Response_new))
  end.
End Contract.
End IcaIbcTransfer.

(** ** [ica-cctp-transfer] *)
Module IcaCctpTransfer.

Inductive FunctionMsgs := Transfer.
Record LibraryConfig := mkLibraryConfig {
  raw_input_addr : LibraryAccountType;
  raw_amount : N;
  raw_denom : string;
  raw_destination_domain_id : N;
  raw_mint_recipient : Binary;
}.
Record Config := mkConfig {
  input_addr : Addr;
  amount : N;
  denom : string;
  destination_domain_id : N;
  mint_recipient : Binary;
}.
Record LibraryConfigUpdate := mkLibraryConfigUpdate {
  upd_input_addr : option LibraryAccountType;
  upd_amount : option N;
  upd_denom : option string;
  upd_destination_domain_id : option N;
  upd_mint_recipient : option Binary;
}.
#[global] Instance cctp_update_raw : LibraryConfigUpdateTrait LibraryConfigUpdate LibraryConfig := {
  update_raw_config u c := mkLibraryConfig
    (set_field (upd_input_addr u) (raw_input_addr c))
    (set_field (upd_amount u) (raw_amount c))
    (set_field (upd_denom u) (raw_denom c))
    (set_field (upd_destination_domain_id u) (raw_destination_domain_id c))
    (set_field (upd_mint_recipient u) (raw_mint_recipient c));
}.
(** [proto.rs]; the encoding is derived by [prost]. *)
Record MsgDepositForBurn := mkMsgDepositForBurn {
  burn_from : string;
  burn_amount : string;
  destination_domain : N;
  burn_mint_recipient : Binary;
  burn_token : string;
}.
Definition MsgDepositForBurn_type_url : string := "/circle.cctp.v1.MsgDepositForBurn".
Class CctpProto := { MsgDepositForBurn_encode : MsgDepositForBurn → Binary }.
Abbreviation M := (Exec (storage LibraryConfig Config ()) LibraryError).

Section Contract.
Context `{Platform} `{JsonCodec InterchainAccount.ExecuteMsg} `{CctpProto}.

Definition do_validate (cfg : LibraryConfig) : result LibraryError Addr :=
  input_addr ← try_ (to_addr (raw_input_addr cfg));
  if (raw_amount cfg =? 0)%N
  then Err (ConfigurationError "Invalid transfer config: amount cannot be zero.")
  else Ok input_addr.
#[global] Instance cctp_validation : LibraryConfigValidation LibraryConfig Config := {
  validate q cfg :=
    input_addr ← do_validate cfg;
    Ok (mkConfig input_addr (raw_amount cfg) (raw_denom cfg) (raw_destination_domain_id cfg)
          (raw_mint_recipient cfg));
}.
Definition update_fields (u : LibraryConfigUpdate) (c : Config) : result LibraryError Config :=
  input_addr ← match upd_input_addr u with
               | Some a => try_ (to_addr a)
               | None => Ok (input_addr c)
               end;
  amount ← match upd_amount u with
           | Some 0%N =>
               Err (ConfigurationError "Invalid IBC transfer config: amount cannot be zero.")
           | Some amount => Ok amount
           | None => Ok (amount c)
           end;
  Ok (mkConfig input_addr amount (set_field (upd_denom u) (denom c))
        (set_field (upd_destination_domain_id u) (destination_domain_id c))
        (set_field (upd_mint_recipient u) (mint_recipient c))).
Definition update_config (_q : LibQuerier) (_env : Env) (_info : MessageInfo)
    (u : LibraryConfigUpdate) : M unit :=
  config ← load_config;
  config ← of_result (update_fields u config);
  save_config config.
Definition process_function (q : LibQuerier) (_env : Env) (_info : MessageInfo) (msg : FunctionMsgs)
    (cfg : Config) : M Response :=
  remote_address ← of_result (get_remote_ica_address q (input_addr cfg));
  match msg with
  | Transfer =>
      let proto_msg := mkMsgDepositForBurn remote_address (pretty (amount cfg))
                         (destination_domain_id cfg) (mint_recipient cfg) (denom cfg) in
      let any_msg := mkAnyMsg MsgDepositForBurn_type_url (MsgDepositForBurn_encode proto_msg) in
      input_account_msgs ← of_result (ica_execute_on_behalf_of [any_msg] (input_addr cfg));
      mret (add_attribute "method" "cctp_transfer" (add_message input_account_msgs Response_new))
  end.
End Contract.
End IcaCctpTransfer.
