(* ===== verification/LibraryProofs.v ===== *)
(** * The library framework: who may do what, and the configuration

    The interface [LibraryLaws] states what the entry points rely on from a library:
    which cells its functions and its configuration updates touch, what its functions
    may change in its configuration, and that both keep it valid.  The theorems about [Library.execute] are proved against
    it; each library discharges it. *)
From S2P Require Import Prelude Platform Types Format Accounts LibraryBase.
Import Library.

Lemma try_ok {E1 E2 A} `{From E1 E2} (r : result E1 A) a : (try_ r : result E2 A) = Ok a ↔ r = Ok a.
Proof. unfold try_, map_err_r. destruct r; naive_solver. Qed.

(** ** The keys of the hash maps are injective *)
Lemma debug_unchecked_app d1 d2 r1 r2 :
  (debug_unchecked d1 ++ r1)%string = (debug_unchecked d2 ++ r2)%string → d1 = d2 ∧ r1 = r2.
Proof.
  destruct d1 as [a|a], d2 as [b|b]; intros He; try discriminate He.
  all: by apply debug_wrapped_app in He as [-> ->].
Qed.
Lemma debug_checked_app d1 d2 r1 r2 :
  (debug_checked d1 ++ r1)%string = (debug_checked d2 ++ r2)%string → d1 = d2 ∧ r1 = r2.
Proof.
  destruct d1 as [a|a], d2 as [b|b]; intros He; try discriminate He.
  all: by apply debug_wrapped_app in He as [-> ->].
Qed.
Lemma debug_unchecked_inj d1 d2 : debug_unchecked d1 = debug_unchecked d2 → d1 = d2.
Proof.
  intros He. apply (debug_unchecked_app d1 d2 "" ""). by rewrite !string_app_nil_r.
Qed.
Lemma debug_checked_inj d1 d2 : debug_checked d1 = debug_checked d2 → d1 = d2.
Proof.
  intros He. apply (debug_checked_app d1 d2 "" ""). by rewrite !string_app_nil_r.
Qed.
(** [into_checked] loses nothing. *)
Lemma into_checked_inj q d1 d2 c `{!LibQuerierLaws q} :
  q_into_checked q d1 = Ok c → q_into_checked q d2 = Ok c → d1 = d2.
Proof.
  destruct d1, d2; intros H1 H2;
    repeat match goal with
    | H : q_into_checked _ (UncheckedNative _) = Ok _ |- _ => apply into_checked_native in H
    | H : q_into_checked _ (UncheckedCw20 _) = Ok _ |- _ => apply into_checked_cw20 in H
    end; by simplify_eq.
Qed.

(** A library: its two functions, for every state of the chain. *)
Record LibraryFns (Raw Cfg Ext F U : Type) := mkLibraryFns {
  lib_process : LibQuerier → Env → MessageInfo → F → Cfg → Exec (storage Raw Cfg Ext) LibraryError Response;
  lib_update : LibQuerier → Env → MessageInfo → U → Exec (storage Raw Cfg Ext) LibraryError unit;
}.
Arguments mkLibraryFns {Raw Cfg Ext F U}.
Arguments lib_process {Raw Cfg Ext F U}.
Arguments lib_update {Raw Cfg Ext F U}.

Section Framework.
Context {Raw Cfg Ext F U : Type} (lib : LibraryFns Raw Cfg Ext F U).
(** What holds of every configuration, and how far a function may change it. *)
Context (Valid : Cfg → Prop) (Kept : Cfg → Cfg → Prop).
Context `{CVa : LibraryConfigValidation Raw Cfg} `{CUp : LibraryConfigUpdateTrait U Raw}.
Abbreviation St := (storage Raw Cfg Ext).

Definition config_valid (s : St) : Prop := ∀ c, s_config s = Some c → Valid c.
(** The cells a library's own code leaves alone. *)
Definition same_base (s s' : St) : Prop :=
  s_contract_info s' = s_contract_info s ∧ s_ownership s' = s_ownership s ∧
  s_processor s' = s_processor s ∧ s_raw_library_config s' = s_raw_library_config s.

Class LibraryLaws (QOk : LibQuerier → Prop) : Prop := {
  validate_valid q raw c : QOk q → validate q raw = Ok c → Valid c;
  update_valid q env info u s v s' :
    QOk q → lib_update lib q env info u s = Ok (v, s') → config_valid s → config_valid s';
  update_frame q env info u s v s' :
    lib_update lib q env info u s = Ok (v, s') →
    same_base s s' ∧ s_ext s' = s_ext s ∧ is_Some (s_config s');
  process_config q env info f c s r s' :
    lib_process lib q env info f c s = Ok (r, s') → s_config s = Some c →
    ∃ c', s_config s' = Some c' ∧ Kept c c' ∧ (Valid c → Valid c');
  process_frame q env info f c s r s' :
    lib_process lib q env info f c s = Ok (r, s') → same_base s s';
}.

Context `{CPl : Platform} `{COw : CwOwnable} `{CDb : CwOwnableDebug}.

Definition lib_execute q env info (msg : LibExecuteMsg F U) : Exec St LibraryError Response :=
  execute (lib_process lib q) (lib_update lib q) env info msg.

(** The states of the library: its instantiation and the transactions that succeeded,
    under queriers that satisfy [QOk]. *)
Inductive lib_reach (QOk : LibQuerier → Prop) (ext : Ext) : St → Prop :=
| reach_start q name version msg r s :
    QOk q → instantiate q name version msg (empty_storage ext) = Ok (r, s) → lib_reach QOk ext s
| reach_tx q env info msg s r s' :
    QOk q → lib_reach QOk ext s → lib_execute q env info msg s = Ok (r, s') →
    lib_reach QOk ext s'.

Lemma assert_processor_ok sender (s s' : St) u :
  assert_processor sender s = Ok (u, s') ↔ s_processor s = Some sender ∧ s' = s.
Proof.
  unfold assert_processor. split.
  - intros Ha. run_inv. by match goal with Hb : bool_decide _ = false |- _ =>
      apply bool_decide_neq_false in Hb as -> end.
  - intros [Hp ->]. unfold mbind, Exec_bind, item_load, fail_if. simpl. rewrite Hp.
    rewrite bool_decide_neq by done. by destruct u.
Qed.
#[global] Instance lib_assert_owner_ro sender : ReadOnly (assert_owner_ sender : Exec St LibraryError unit).
Proof. unfold assert_owner_. apply _. Qed.
Lemma lib_assert_owner_ok `{!CwOwnableLaws} sender (s s' : St) u :
  assert_owner_ sender s = Ok (u, s') → ∃ o, s_ownership s = Some o ∧ own_owner o = Some sender.
Proof. unfold assert_owner_. intros Ha. run_inv. destruct u. by apply assert_owner_spec. Qed.

(** The branches of [execute]. *)
Lemma lib_execute_process q env info f s r s' :
  lib_execute q env info (ProcessFunction f) s = Ok (r, s') ↔
  ∃ c, s_processor s = Some (info_sender info) ∧ s_config s = Some c ∧
    lib_process lib q env info f c s = Ok (r, s').
Proof.
  unfold lib_execute, execute, load_config. split.
  - intros (? & ? & [Hp ->]%assert_processor_ok & He)%Exec_bind_ok.
    apply Exec_bind_ok in He as (c & s1 & [Hc ->]%item_load_ok & He). eauto.
  - intros (c & Hp & Hc & He). apply Exec_bind_ok. exists (), s.
    split; [by apply assert_processor_ok|]. apply Exec_bind_ok. exists c, s.
    split; [by apply item_load_ok|done].
Qed.
Lemma lib_execute_update q env info u s r s' :
  lib_execute q env info (UpdateConfig u) s = Ok (r, s') →
  ∃ raw v, assert_owner_ (info_sender info) s = Ok ((), s) ∧ s_raw_library_config s = Some raw ∧
    lib_update lib q env info u (lset library_config_item (Some (update_raw_config u raw)) s) = Ok (v, s') ∧
    resp_messages r = [].
Proof.
  unfold lib_execute, execute. intros ([] & s1 & Ho & He)%Exec_bind_ok.
  pose proof (read_only _ _ _ Ho) as ->.
  unfold update_raw, load_raw_library_config, save_raw_library_config in He. run_inv. by repeat eexists.
Qed.

(** An instantiated library has all its cells, with a validated configuration. *)
Lemma lib_instantiate_ok q name version msg ext r s :
  instantiate q name version msg (empty_storage ext : St) = Ok (r, s) →
  ∃ c, validate q (li_config msg) = Ok c ∧ s_config s = Some c ∧
    s_raw_library_config s = Some (li_config msg) ∧ s_ext s = ext ∧ is_Some (s_ownership s).
Proof. unfold instantiate, save_raw_library_config, save_config. intros Hi. run_inv. by eexists. Qed.

Context (QOk : LibQuerier → Prop) `{!LibraryLaws QOk}.

(** Every transaction keeps the configuration present and valid. *)
Lemma lib_execute_config q env info msg s r s' :
  QOk q → lib_execute q env info msg s = Ok (r, s') →
  (∃ c, s_config s = Some c ∧ Valid c) → ∃ c', s_config s' = Some c' ∧ Valid c'.
Proof.
  intros Hq He (c & Hc & Hv). destruct msg.
  - apply lib_execute_process in He as (c0 & _ & Hc0 & He). simplify_eq.
    apply process_config in He as (c' & Hc' & _ & Hv'); eauto.
  - apply lib_execute_update in He as (raw & v & _ & _ & Hu & _).
    pose proof Hu as (_ & _ & [c' Hc'])%update_frame. exists c'. split; [done|].
    eapply update_valid; [done|exact Hu| |done]. intros c1. simpl. naive_solver.
  - unfold lib_execute, execute in He.
    apply Exec_bind_ok in He as (? & s1 & Ho & He). apply read_only in Ho as ->. run_inv. eauto.
  - unfold lib_execute, execute in He. run_inv. eauto.
Qed.
Lemma lib_reach_config ext s :
  lib_reach QOk ext s → ∃ c, s_config s = Some c ∧ Valid c.
Proof.
  induction 1 as [q name version msg r s Hq Hi|q env info msg s r s' Hq _ IH He].
  - apply lib_instantiate_ok in Hi as (c & Hv%validate_valid & Hc & _); eauto.
  - by eapply lib_execute_config.
Qed.

(** What an accepted message may change, and who may send it. *)
Lemma lib_execute_access `{!CwOwnableLaws} q env info msg s r s' :
  lib_execute q env info msg s = Ok (r, s') →
  let by_owner := ∃ o, s_ownership s = Some o ∧ own_owner o = Some (info_sender info) in
  match msg with
  | ProcessFunction f =>
      s_processor s = Some (info_sender info) ∧ same_base s s' ∧
      ∃ c c', s_config s = Some c ∧ s_config s' = Some c' ∧ Kept c c'
  | UpdateConfig u =>
      by_owner ∧ s_ownership s' = s_ownership s ∧ s_processor s' = s_processor s ∧
      s_ext s' = s_ext s ∧ resp_messages r = [] ∧
      ∃ raw, s_raw_library_config s = Some raw ∧
             s_raw_library_config s' = Some (update_raw_config u raw)
  | UpdateProcessor p =>
      by_owner ∧ ∃ addr, addr_validate p = Ok addr ∧ s' = lset PROCESSOR (Some addr) s ∧
      resp_messages r = []
  | LibUpdateOwnership action =>
      ∃ o, update_ownership_lib (s_ownership s) (env_block env) (info_sender info) action = Ok o ∧
           s' = lset OWNERSHIP (Some o) s ∧ resp_messages r = []
  end.
Proof.
  intros He by_owner. destruct msg.
  - apply lib_execute_process in He as (c0 & Hp & Hc & He). split_and!; [done|by eapply process_frame|].
    apply process_config in He as (c' & Hc' & Hk & _); eauto.
  - apply lib_execute_update in He as (raw & v & Ho%lib_assert_owner_ok & Hraw & Hu & Hr).
    apply update_frame in Hu as ((?&?&?&?) & ? & _). simpl in *. split_and!; try done. by eexists.
  - unfold lib_execute, execute in He.
    apply Exec_bind_ok in He as (? & s1 & Ho & He). pose proof (read_only _ _ _ Ho) as ->.
    apply lib_assert_owner_ok in Ho. run_inv. split; [done|]. by eexists.
  - unfold lib_execute, execute in He. run_inv. by eexists.
Qed.
End Framework.
Arguments LibraryLaws {Raw Cfg Ext F U} lib Valid Kept {CVa} QOk.
Arguments lib_reach {Raw Cfg Ext F U} lib {CVa CUp CPl COw CDb} QOk ext.

(** A library whose update loads the configuration, changes fields and saves it, and
    whose functions only read the storage. *)
Lemma simple_library_laws {Raw Cfg Ext F U : Type} (lib : LibraryFns Raw Cfg Ext F U)
    (Valid : Cfg → Prop) (QOk : LibQuerier → Prop) `{LibraryConfigValidation Raw Cfg}
    (fields : LibQuerier → U → Cfg → result LibraryError Cfg) :
  (∀ q env info u s, lib_update lib q env info u s =
     (c ← load_config; c ← of_result (fields q u c); save_config c) s) →
  (∀ q env info f c, ReadOnly (lib_process lib q env info f c)) →
  (∀ q raw c, QOk q → validate q raw = Ok c → Valid c) →
  (∀ q u c c', QOk q → fields q u c = Ok c' → Valid c → Valid c') →
  LibraryLaws lib Valid eq QOk.
Proof.
  intros Hu Hp Hv Hf.
  assert (∀ q env info u s v s', lib_update lib q env info u s = Ok (v, s') →
    ∃ c c', s_config s = Some c ∧ fields q u c = Ok c' ∧ s' = lset CONFIG_KEY (Some c') s) as Hupd.
  { intros q env info u s v s'. rewrite Hu. unfold load_config, save_config. intros He. run_inv. eauto. }
  split.
  - eauto.
  - intros q env info u s v s' Hq (c & c' & Hc & Hf' & ->)%Hupd Hs c1 [= <-]. eapply Hf; eauto.
  - intros q env info u s v s' (c & c' & Hc & Hf' & ->)%Hupd. done.
  - intros q env info f c s r s' ->%read_only Hc. eauto.
  - intros q env info f c s r s' ->%read_only. done.
Qed.

(** ** What a library has its input account do *)
(** The input account [input] executes the messages [ms]. *)
Definition relays `{JsonCodec AccountExecuteMsg} (input : Addr) (ms : list CosmosMsg) (r : Response) : Prop :=
  ∃ m, execute_on_behalf_of ms input = Ok m ∧ resp_messages r = [SubMsg_new m].
(** The message calls the contract at [addr]. *)
Definition calls {A} `{JsonCodec A} (addr : string) (msg : A) (funds : list Coin) (m : CosmosMsg) : Prop :=
  ∃ body, from_json body = Ok msg ∧ m = CosmosWasm (WasmExecute addr body funds).
Lemma wasm_execute_ok {A} `{JsonCodec A} `{!JsonCodecLaws A} addr (msg : A) funds m :
  wasm_execute addr msg funds = Ok m → calls addr msg funds m.
Proof.
  unfold wasm_execute. intros (b & Hb%try_ok%from_to_json & [= <-])%bind_result_ok. by exists b.
Qed.
Lemma wasm_execute_total {A} `{JsonCodec A} `{!JsonCodecLaws A} addr (msg : A) funds :
  ∃ m, wasm_execute addr msg funds = Ok m ∧ calls addr msg funds m.
Proof.
  unfold wasm_execute. destruct (to_json_total msg) as [b Hb]. rewrite Hb. eexists. split; [done|].
  exists b. split; [by apply from_to_json|done].
Qed.
Lemma execute_on_behalf_total `{JsonCodec AccountExecuteMsg} `{!JsonCodecLaws AccountExecuteMsg} ms input :
  ∃ m, execute_on_behalf_of ms input = Ok m.
Proof. unfold execute_on_behalf_of. destruct (to_json_total (AccExecuteMsg ms)) as [b ->]. by eexists. Qed.
