(* ===== verification/Queue.v ===== *)
(** * [QueueMap]: the double-ended queue of the processor

    [packages/processor-utils/src/queue.rs].  A queue is a map from [u64] keys
    to elements with two cursors: the live elements are those with keys in
    [(start_index, end_index]].  The storage record holds the three cells; the
    operations are the methods.  The specification is a plain list, which the second
    part shows to be implemented. *)
From S2P Require Import Prelude Platform.

Module QueueMap.

Record storage (T : Type) := mkStorage {
  q_elements : gmap N T;
  q_start_index : option N;
  q_end_index : option N;
}.
Arguments mkStorage {T}.
Arguments q_elements {T}.
Arguments q_start_index {T}.
Arguments q_end_index {T}.

Inductive Order := Ascending | Descending.

Section Ops.
Context {T : Type}.
Abbreviation Q := (storage T).

Definition elements : lens Q (gmap N T) :=
  Lens q_elements (λ m q, mkStorage m (q_start_index q) (q_end_index q)).
Definition start_index_item : lens Q (option N) :=
  Lens q_start_index (λ i q, mkStorage (q_elements q) i (q_end_index q)).
Definition end_index_item : lens Q (option N) :=
  Lens q_end_index (λ i q, mkStorage (q_elements q) (q_start_index q) i).

(** [QueueMap::new] over an empty storage. *)
Definition new : Q := mkStorage ∅ None None.

(** [self.start_index.load(storage).or(Ok(0))]. *)
Definition start_index : Exec Q StdError N := λ q, Ok (default 0%N (q_start_index q), q).
Definition end_index : Exec Q StdError N := λ q, Ok (default 0%N (q_end_index q), q).

Definition push_back (value : T) : Exec Q StdError unit :=
  end_index ← end_index;
  end_index ← expect (checked_add u64_max end_index 1);
  _ ← map_save elements end_index value;
  item_save end_index_item end_index.

Definition pop_front : Exec Q StdError (option T) :=
  start_index ← start_index;
  end_index ← end_index;
  if (start_index =? end_index)%N then mret None else
  start_index ← expect (checked_add u64_max start_index 1);
  value ← map_load elements start_index;
  _ ← map_remove elements start_index;
  _ ← item_save start_index_item start_index;
  mret (Some value).

Definition len : Exec Q StdError N :=
  start_index ← start_index;
  end_index ← end_index;
  mret (saturating_sub end_index start_index).

Definition is_empty : Exec Q StdError bool :=
  n ← len;
  mret (n =? 0)%N.

(** The bodies of the two shifting loops. *)
Definition shift_up (i : N) : Exec Q StdError unit :=
  elem ← map_may_load elements i;
  match elem with
  | Some elem =>
      j ← expect (checked_add u64_max i 1);
      map_save elements j elem
  | None => mret ()
  end.
Definition shift_down (i : N) : Exec Q StdError unit :=
  elem ← map_may_load elements i;
  match elem with
  | Some elem =>
      j ← expect (checked_sub i 1);
      map_save elements j elem
  | None => mret ()
  end.

Definition insert_at (index : N) (value : T) : Exec Q StdError unit :=
  n ← len;
  _ ← fail_if (n <? index)%N (GenericErr "Index out of bounds");
  start_index ← start_index;
  end_index ← end_index;
  actual_index ← expect (sum ← checked_add u64_max start_index index; checked_add u64_max sum 1);
  upper ← expect (checked_add u64_max end_index 2);
  _ ← for_each (reverse (N_range actual_index upper)) shift_up;
  _ ← map_save elements actual_index value;
  end_index ← expect (checked_add u64_max end_index 1);
  item_save end_index_item end_index.

Definition remove_at (index : N) : Exec Q StdError (option T) :=
  n ← len;
  _ ← fail_if (n <=? index)%N (GenericErr "Index out of bounds");
  if (index =? 0)%N then pop_front else
  start_index ← start_index;
  end_index ← end_index;
  actual_index ← expect (sum ← checked_add u64_max start_index index; checked_add u64_max sum 1);
  value ← map_load elements actual_index;
  _ ← map_remove elements actual_index;
  lower ← expect (checked_add u64_max actual_index 1);
  upper ← expect (checked_add u64_max end_index 1);
  _ ← for_each (N_range lower upper) shift_down;
  end_index ← expect (checked_sub end_index 1);
  _ ← item_save end_index_item end_index;
  mret (Some value).

(** [Map::range] between two inclusive bounds. *)
Definition range_inclusive (m : gmap N T) (lo hi : N) (order : Order) : list T :=
  let asc := filter (λ kv, Is_true ((lo <=? kv.1) && (kv.1 <=? hi))%N) (map_range N.leb m None) in
  snd <$> match order with Ascending => asc | Descending => reverse asc end.

Definition query (start end_ : option N) (order : Order) : Exec Q StdError (list T) :=
  start_index ← start_index;
  end_index ← end_index;
  let queue_len := saturating_sub end_index start_index in
  let start := default 0%N start in
  let end_ := default queue_len end_ in
  _ ← fail_if ((end_ <? start) || (queue_len <? end_))%N (GenericErr "Invalid range");
  actual_start ← expect (x ← checked_add u64_max start_index start; checked_add u64_max x 1);
  actual_end ← expect (x ← checked_add u64_max start_index end_; checked_add u64_max x 1);
  q ← get_storage;
  mret (range_inclusive (q_elements q) actual_start (saturating_sub actual_end 1) order).

(** ** Specification: a list *)

Inductive op := OpPush (v : T) | OpPop | OpInsert (i : N) (v : T) | OpRemove (i : N).

Definition run_op (o : op) : Exec Q StdError (option T) :=
  match o with
  | OpPush v => _ ← push_back v; mret None
  | OpPop => pop_front
  | OpInsert i v => _ ← insert_at i v; mret None
  | OpRemove i => remove_at i
  end.

Definition out_of_bounds : StdError := GenericErr "Index out of bounds".

Definition spec_op (o : op) (l : list T) : result StdError (option T * list T) :=
  match o with
  | OpPush v => Ok (None, l ++ [v])
  | OpPop => Ok (head l, tail l)
  | OpInsert i v =>
      if (i <=? vec_len l)%N
      then Ok (None, take (N.to_nat i) l ++ v :: drop (N.to_nat i) l)
      else Err out_of_bounds
  | OpRemove i =>
      if (i <? vec_len l)%N
      then Ok (l !! N.to_nat i, delete (N.to_nat i) l)
      else Err out_of_bounds
  end.

(** One transaction: an operation that fails leaves the storage unchanged. *)
Definition transact {S A} (m : Exec S StdError A) (s : S) : result StdError A * S :=
  match m s with
  | Ok (a, s') => (Ok a, s')
  | Err e => (Err e, s)
  | Panic => (Panic, s)
  end.
Fixpoint run_trace {S A B} (step : A → Exec S StdError B) (ops : list A) (s : S)
    : list (result StdError B) * S :=
  match ops with
  | [] => ([], s)
  | o :: ops =>
      let '(r, s') := transact (step o) s in
      let '(rs, s'') := run_trace step ops s' in
      (r :: rs, s'')
  end.

(** The list a storage represents. *)
Definition queue_rep (q : Q) (l : list T) : Prop :=
  let st := default 0%N (q_start_index q) in
  let en := default 0%N (q_end_index q) in
  en = (st + vec_len l)%N ∧ (en ≤ u64_max)%N ∧
  ∀ i : nat, (i < length l)%nat → q_elements q !! (st + 1 + N.of_nat i)%N = l !! i.

(** The largest key in use: the operations panic only when it would pass
    [u64::MAX]. *)
Definition high_water (q : Q) : N := default 0%N (q_end_index q).
End Ops.
Arguments storage : clear implicits.
Arguments op : clear implicits.
End QueueMap.

(** * [QueueMap] implements a list

    Every method simulates the list operation it stands for, and so does every
    sequence of calls. *)
Import QueueMap.

Section Facts.
Context {T : Type}.
Implicit Types (q : storage T) (l : list T).

Abbreviation st q := (default 0%N (q_start_index q)).
Abbreviation en q := (default 0%N (q_end_index q)).

(** Storages that differ in their elements only. *)
Definition with_elements (m : gmap N T) (q : storage T) : storage T :=
  mkStorage m (q_start_index q) (q_end_index q).

Lemma with_elements_id q : with_elements (q_elements q) q = q.
Proof. by destruct q. Qed.

Lemma queue_rep_lookup q l (i : N) :
  queue_rep q l → (i < vec_len l)%N → q_elements q !! (st q + 1 + i)%N = l !! N.to_nat i.
Proof.
  intros (_ & _ & Hl) Hi. unfold vec_len in *.
  specialize (Hl (N.to_nat i) ltac:(lia)). by rewrite N2Nat.id in Hl.
Qed.

Lemma queue_rep_unique q l1 l2 : queue_rep q l1 → queue_rep q l2 → l1 = l2.
Proof.
  intros (H1 & _ & L1) (H2 & _ & L2). unfold vec_len in *.
  assert (length l1 = length l2) as Hlen by lia.
  apply list_eq_same_length with (n := length l2); [done|done|].
  intros i x y Hi Hx Hy. rewrite <-L1 in Hx by lia. rewrite <-L2 in Hy by lia.
  congruence.
Qed.

Lemma len_rep q l : queue_rep q l → len q = Ok (vec_len l, q).
Proof.
  intros (Hen & _ & _). unfold len, mbind, Exec_bind, start_index, end_index, mret, Exec_ret.
  do 2 f_equal. unfold saturating_sub. simpl. lia.
Qed.

Lemma new_rep : queue_rep (new : storage T) [].
Proof. split_and!; simpl; [done|done|]. intros i Hi. simpl in Hi. lia. Qed.

Lemma push_back_run q l v :
  queue_rep q l → (high_water q + 1 ≤ u64_max)%N →
  ∃ q', push_back v q = Ok ((), q') ∧ queue_rep q' (l ++ [v]) ∧
        high_water q' = (high_water q + 1)%N.
Proof.
  intros (Hen & Hmax & Hl) Hfit. unfold high_water, vec_len in *.
  unfold push_back, mbind, Exec_bind, end_index, expect.
  rewrite checked_add_fits by lia. eexists; split_and!; [done| |done].
  split_and!; simpl in *.
  - unfold vec_len. rewrite length_app. simpl. lia.
  - lia.
  - intros i Hi. rewrite length_app in Hi. simpl in Hi.
    destruct (decide (i = length l)) as [->|].
    + rewrite lookup_app_r, Nat.sub_diag by lia. simpl.
      replace (st q + 1 + N.of_nat (length l))%N with (en q + 1)%N by lia.
      apply lookup_insert_eq.
    + rewrite lookup_app_l by lia. rewrite lookup_insert_ne by lia. apply Hl. lia.
Qed.

Lemma push_back_overflow q v : (u64_max < high_water q + 1)%N → push_back v q = Panic.
Proof.
  unfold high_water, push_back, mbind, Exec_bind, end_index, expect. intros.
  unfold checked_add. by rewrite (proj2 (N.leb_gt _ _)) by lia.
Qed.

Lemma pop_front_nil q : queue_rep q [] → pop_front q = Ok (None, q).
Proof.
  intros (Hen & _ & _). unfold pop_front, mbind, Exec_bind, start_index, end_index.
  change (vec_len []) with 0%N in Hen. rewrite N.add_0_r in Hen.
  by rewrite (proj2 (N.eqb_eq _ _)) by done.
Qed.

Lemma pop_front_cons q x l :
  queue_rep q (x :: l) →
  ∃ q', pop_front q = Ok (Some x, q') ∧ queue_rep q' l ∧ high_water q' = high_water q.
Proof.
  intros (Hen & Hmax & Hl). unfold vec_len in Hen. simpl in Hen.
  unfold pop_front, mbind, Exec_bind, start_index, end_index.
  rewrite (proj2 (N.eqb_neq _ _)) by lia. unfold expect.
  rewrite checked_add_fits by lia. unfold map_load. simpl.
  pose proof (Hl 0%nat ltac:(simpl; lia)) as H0. rewrite N.add_0_r in H0. rewrite H0. simpl.
  eexists; split_and!; [done| |done]. split_and!; simpl; [unfold vec_len; lia|done|].
  intros i Hi. rewrite lookup_delete_ne by lia.
  pose proof (Hl (S i) ltac:(simpl; lia)) as HS. simpl in HS. rewrite <-HS. f_equal. lia.
Qed.

(** The result of the two shifting loops, element by element. *)
Lemma shift_up_loop a b q :
  (a ≤ b)%N → (b ≤ u64_max)%N →
  ∃ m, for_each (reverse (N_range a b)) shift_up q = Ok ((), with_elements m q) ∧
    (∀ j, (j ≤ a ∨ b < j)%N → m !! j = q_elements q !! j) ∧
    (∀ i x, (a ≤ i < b)%N → q_elements q !! i = Some x → m !! (i + 1)%N = Some x).
Proof.
  intros Hab Hb. remember (N.to_nat (b - a)) as n eqn:Hn.
  revert b q Hab Hb Hn. induction n as [|n IH]; intros b q Hab Hb Hn.
  { rewrite N_range_nil by lia. exists (q_elements q). split_and!; [|done|lia].
    by rewrite with_elements_id. }
  replace b with (b - 1 + 1)%N by lia. rewrite N_range_snoc by lia.
  rewrite reverse_snoc. simpl. set (c := (b - 1)%N).
  assert (∃ q1, shift_up c q = Ok ((), q1) ∧ q_start_index q1 = q_start_index q ∧
      q_end_index q1 = q_end_index q ∧
      (∀ j, (j ≠ c + 1)%N → q_elements q1 !! j = q_elements q !! j) ∧
      ∀ x, q_elements q !! c = Some x → q_elements q1 !! (c + 1)%N = Some x)
    as (q1 & Hq1 & Hs & He & Hne & Heq).
  { unfold shift_up, mbind, Exec_bind, map_may_load. simpl.
    destruct (q_elements q !! c) as [x|] eqn:Hc.
    - unfold expect. rewrite checked_add_fits by (unfold c; lia). eexists; split; [done|]; cbn; split_and!; [done|done| |].
      + intros j Hj. by rewrite lookup_insert_ne.
      + intros y [= <-]. apply lookup_insert_eq.
    - eexists; split_and!; [done..|]. naive_solver. }
  unfold mbind at 1, Exec_bind at 1. rewrite Hq1.
  destruct (IH c q1) as (m & Hm & Hout & Hin); [unfold c in *; lia..|].
  exists m. rewrite Hm. split_and!.
  - unfold with_elements. by rewrite Hs, He.
  - intros j Hj. rewrite Hout by (unfold c in *; lia). apply Hne. unfold c in *; lia.
  - intros i x Hi Hx. destruct (decide (i = c)) as [->|].
    + rewrite Hout by (unfold c in *; lia). by apply Heq.
    + apply Hin; [unfold c in *; lia|]. rewrite Hne; [done|unfold c in *; lia].
Qed.

Lemma shift_down_loop a b q :
  (0 < a)%N → (a ≤ b)%N →
  ∃ m, for_each (N_range a b) shift_down q = Ok ((), with_elements m q) ∧
    (∀ j, (j + 1 < a ∨ b ≤ j + 1)%N → m !! j = q_elements q !! j) ∧
    (∀ i x, (a ≤ i < b)%N → q_elements q !! i = Some x → m !! (i - 1)%N = Some x).
Proof.
  intros Ha Hab. remember (N.to_nat (b - a)) as n eqn:Hn.
  revert b Hab Hn. induction n as [|n IH]; intros b Hab Hn.
  { rewrite N_range_nil by lia. exists (q_elements q). split_and!; [|done|lia].
    by rewrite with_elements_id. }
  replace b with (b - 1 + 1)%N by lia. rewrite N_range_snoc by lia.
  rewrite for_each_snoc. set (c := (b - 1)%N).
  destruct (IH c) as (m & Hm & Hout & Hin); [unfold c in *; lia..|].
  unfold mbind at 1, Exec_bind at 1. rewrite Hm.
  unfold shift_down, mbind, Exec_bind, map_may_load. simpl.
  rewrite (Hout c) by (unfold c in *; lia).
  destruct (q_elements q !! c) as [x|] eqn:Hc.
  - unfold expect. rewrite checked_sub_fits by (unfold c; lia).
    eexists. split_and!; [done| |].
    + intros j Hj. rewrite lookup_insert_ne by (unfold c in *; lia). apply Hout. unfold c in *; lia.
    + intros i y Hi Hy. destruct (decide (i = c)) as [->|].
      * rewrite lookup_insert_eq. congruence.
      * rewrite lookup_insert_ne by (unfold c in *; lia). apply Hin; [unfold c in *; lia|done].
  - exists m. split_and!; [done| |].
    + intros j Hj. apply Hout. unfold c in *; lia.
    + intros i y Hi Hy. destruct (decide (i = c)) as [->|]; [congruence|].
      apply Hin; [unfold c in *; lia|done].
Qed.

Lemma insert_at_oob q l i v :
  queue_rep q l → (vec_len l < i)%N → insert_at i v q = Err out_of_bounds.
Proof.
  intros Hq Hi. unfold insert_at, mbind, Exec_bind. rewrite (len_rep q l Hq).
  unfold fail_if. by rewrite (proj2 (N.ltb_lt _ _) Hi).
Qed.

Lemma insert_at_run q l i v :
  queue_rep q l → (i ≤ vec_len l)%N → (high_water q + 2 ≤ u64_max)%N →
  ∃ q', insert_at i v q = Ok ((), q') ∧
        queue_rep q' (take (N.to_nat i) l ++ v :: drop (N.to_nat i) l) ∧
        high_water q' = (high_water q + 1)%N.
Proof.
  intros Hq Hi Hfit. pose proof Hq as (Hen & Hmax & _). unfold high_water in *.
  unfold insert_at, mbind, Exec_bind. rewrite (len_rep q l Hq).
  unfold fail_if. rewrite (proj2 (N.ltb_ge _ _) Hi).
  unfold start_index, end_index, expect, mbind, option_bind.
  rewrite !checked_add_fits by lia.
  destruct (shift_up_loop (st q + i + 1) (en q + 2) q) as (m & -> & Hout & Hin); [lia..|].
  eexists. split; [done|]. split; [|done].
  unfold vec_len in *. split_and!; cbn.
  - unfold vec_len. rewrite length_app, length_take, length_cons, length_drop. lia.
  - lia.
  - intros k Hk. rewrite length_app, length_take, length_cons, length_drop in Hk.
    destruct (lt_eq_lt_dec k (N.to_nat i)) as [[Hlt| ->]|Hgt].
    + rewrite lookup_insert_ne by lia. rewrite Hout by lia.
      rewrite lookup_app_l, lookup_take_lt by (rewrite ?length_take; lia).
      rewrite (queue_rep_lookup q l) by (done || unfold vec_len; lia). f_equal. lia.
    + replace (st q + 1 + N.of_nat (N.to_nat i))%N with (st q + i + 1)%N by lia.
      rewrite lookup_insert_eq, list_lookup_middle by (rewrite length_take; lia). done.
    + rewrite lookup_insert_ne by lia.
      rewrite lookup_app_r, length_take by (rewrite length_take; lia).
      replace (k - N.to_nat i `min` length l)%nat with (S (k - 1 - N.to_nat i))%nat by lia.
      simpl. rewrite lookup_drop.
      replace (N.to_nat i + (k - 1 - N.to_nat i))%nat with (k - 1)%nat by lia.
      destruct (lookup_lt_is_Some_2 l (k - 1)) as [x Hx]; [lia|]. rewrite Hx.
      replace (st q + 1 + N.of_nat k)%N with (st q + 1 + N.of_nat (k - 1) + 1)%N by lia.
      apply Hin; [lia|]. rewrite (queue_rep_lookup q l) by (done || unfold vec_len; lia).
      by rewrite Nat2N.id.
Qed.

Lemma remove_at_oob q l i :
  queue_rep q l → (vec_len l ≤ i)%N → remove_at i q = Err out_of_bounds.
Proof.
  intros Hq Hi. unfold remove_at, mbind, Exec_bind. rewrite (len_rep q l Hq).
  unfold fail_if. by rewrite (proj2 (N.leb_le _ _) Hi).
Qed.

Lemma remove_at_run q l i :
  queue_rep q l → (i < vec_len l)%N → (high_water q + 1 ≤ u64_max)%N →
  ∃ q', remove_at i q = Ok (l !! N.to_nat i, q') ∧ queue_rep q' (delete (N.to_nat i) l) ∧
        (high_water q' ≤ high_water q)%N.
Proof.
  intros Hq Hi Hfit. pose proof Hq as (Hen & Hmax & _).
  unfold remove_at, mbind, Exec_bind. rewrite (len_rep q l Hq).
  unfold fail_if. rewrite (proj2 (N.leb_gt _ _) Hi).
  destruct (N.eqb_spec i 0) as [->|Hi0].
  { destruct l as [|x l]; [unfold vec_len in Hi; simpl in Hi; lia|].
    destruct (pop_front_cons q x l Hq) as (q' & Hp & Hq' & Hw).
    exists q'. rewrite Hw. by split_and!. }
  unfold start_index, end_index, expect, mbind, option_bind, high_water, vec_len in *.
  rewrite !checked_add_fits by lia. unfold map_load. cbn.
  destruct (lookup_lt_is_Some_2 l (N.to_nat i)) as [x Hx]; [lia|]. rewrite Hx.
  replace (st q + i + 1)%N with (st q + 1 + i)%N by lia.
  rewrite (queue_rep_lookup q l), Hx by (done || unfold vec_len; lia). cbn.
  set (q1 := mkStorage _ _ _).
  destruct (shift_down_loop (st q + 1 + i + 1) (en q + 1) q1) as (m & -> & Hout & Hin); [lia..|].
  rewrite checked_sub_fits by lia. cbn. eexists. split; [done|]. cbn. split; [|lia].
  split_and!; cbn.
  - unfold vec_len. rewrite length_delete by (rewrite Hx; eauto). lia.
  - lia.
  - intros k Hk. rewrite length_delete in Hk by (rewrite Hx; eauto).
    destruct (decide (k < N.to_nat i)%nat).
    + rewrite list_lookup_delete_lt, Hout by lia. cbn. rewrite lookup_delete_ne by lia.
      rewrite (queue_rep_lookup q l) by (done || unfold vec_len; lia). by rewrite Nat2N.id.
    + rewrite list_lookup_delete_ge by lia.
      destruct (lookup_lt_is_Some_2 l (S k)) as [y Hy]; [lia|]. rewrite Hy.
      replace (st q + 1 + N.of_nat k)%N with (st q + 1 + N.of_nat (S k) - 1)%N by lia.
      apply Hin; [lia|]. cbn. rewrite lookup_delete_ne by lia.
      rewrite (queue_rep_lookup q l) by (done || unfold vec_len; lia). by rewrite Nat2N.id.
Qed.

(** ** Queries *)
Lemma length_N_range a b : length (N_range a b) = N.to_nat (b - a).
Proof. unfold N_range. by rewrite length_fmap, length_seq. Qed.

Lemma lookup_N_range a b j k :
  N_range a b !! j = Some k ↔ k = (a + N.of_nat j)%N ∧ (k < b)%N.
Proof.
  unfold N_range. rewrite list_lookup_fmap, fmap_Some. setoid_rewrite lookup_seq.
  naive_solver lia.
Qed.

Lemma StronglySorted_zip_range a b (xs : list T) :
  StronglySorted (λ x y : N * T, Is_true (x.1 <=? y.1)%N) (zip (N_range a b) xs).
Proof.
  remember (N.to_nat (b - a)) as n eqn:Hn. revert a xs Hn.
  induction n as [|n IH]; intros a xs Hn.
  { rewrite N_range_nil by lia. constructor. }
  rewrite N_range_cons by lia. destruct xs as [|x xs]; [constructor|]. simpl.
  constructor; [apply IH; lia|]. apply Forall_forall. intros [k y] Hky.
  apply list_elem_of_lookup in Hky as [j Hj].
  rewrite lookup_zip_with in Hj. apply bind_Some in Hj as (k' & Hk & Hj).
  apply lookup_N_range in Hk. apply bind_Some in Hj as (? & ? & ?). simplify_eq/=.
  apply Is_true_eq_left, N.leb_le. lia.
Qed.

Lemma range_inclusive_slice (m : gmap N T) lo hi1 xs order :
  (lo ≤ hi1)%N → (0 < hi1)%N → vec_len xs = (hi1 - lo)%N →
  (∀ j : nat, (j < length xs)%nat → m !! (lo + N.of_nat j)%N = xs !! j) →
  range_inclusive m lo (hi1 - 1) order =
    match order with Ascending => xs | Descending => reverse xs end.
Proof.
  intros Hle Hpos Hlen Hm. unfold vec_len in Hlen. unfold range_inclusive.
  set (A := filter _ _). assert (A = zip (N_range lo hi1) xs) as ->.
  { apply (StronglySorted_unique_strong (λ x y : N * T, Is_true (x.1 <=? y.1)%N)).
    - unfold A. intros [k1 v1] [k2 v2] [_ H1%elem_of_map_range]%list_elem_of_filter H2 Hk1 Hk2.
      simpl in *. apply Is_true_eq_true, N.leb_le in Hk1. apply Is_true_eq_true, N.leb_le in Hk2.
      assert (k1 = k2) as <- by lia. f_equal.
      apply list_elem_of_lookup in H2 as [j Hj]. rewrite lookup_zip_with in Hj.
      apply bind_Some in Hj as (k & Hk & Hj). apply bind_Some in Hj as (v & Hv & Hj). simplify_eq.
      apply lookup_N_range in Hk as [-> _].
      rewrite Hm in H1 by (by eapply lookup_lt_Some). congruence.
    - apply StronglySorted_filter, StronglySorted_map_range.
      + intros [??] [??] [??] ?%Is_true_eq_true%N.leb_le ?%Is_true_eq_true%N.leb_le. simpl in *.
        apply Is_true_eq_left, N.leb_le. lia.
      + intros [i ?] [j ?]. simpl.
        destruct (N.le_ge_cases i j); [left|right]; by apply Is_true_eq_left, N.leb_le.
    - apply StronglySorted_zip_range.
    - apply NoDup_Permutation.
      + apply NoDup_filter, NoDup_map_range.
      + eapply (NoDup_fmap_1 fst). rewrite fst_zip by (rewrite length_N_range; lia).
        apply NoDup_fmap_2; [intros ???; lia|]. apply NoDup_seq.
      + intros [k v]. unfold A. rewrite list_elem_of_filter, elem_of_map_range. simpl. split.
        * intros [[H1 H2]%andb_prop_elim Hk].
          apply Is_true_eq_true, N.leb_le in H1. apply Is_true_eq_true, N.leb_le in H2.
          apply list_elem_of_lookup. exists (N.to_nat (k - lo)). rewrite lookup_zip_with.
          rewrite (proj2 (lookup_N_range lo hi1 (N.to_nat (k - lo)) k)) by lia. simpl.
          rewrite <-Hm by lia. rewrite N2Nat.id, N.add_comm, N.sub_add, Hk by lia. done.
        * intros [j Hj]%list_elem_of_lookup. rewrite lookup_zip_with in Hj.
          apply bind_Some in Hj as (k' & Hk & Hj). apply bind_Some in Hj as (v' & Hv & Hj).
          simplify_eq. apply lookup_N_range in Hk as [-> ?].
          rewrite Hm by (by eapply lookup_lt_Some). split; [|done].
          apply andb_prop_intro; split; apply Is_true_eq_left, N.leb_le; lia. }
  assert ((zip (N_range lo hi1) xs).*2 = xs) as Hsnd by (apply snd_zip; rewrite length_N_range; lia).
  destruct order; [done|]. by rewrite fmap_reverse, Hsnd.
Qed.

Lemma query_slice q l s e order :
  queue_rep q l → (high_water q + 1 ≤ u64_max)%N →
  let from := default 0%N s in
  let to := default (vec_len l) e in
  query s e order q =
    if ((from <=? to) && (to <=? vec_len l))%N
    then let slice := take (N.to_nat (to - from)) (drop (N.to_nat from) l) in
         Ok (match order with Ascending => slice | Descending => reverse slice end, q)
    else Err (GenericErr "Invalid range").
Proof.
  intros Hq Hfit from to. pose proof Hq as (Hen & Hmax & _). unfold high_water in *.
  unfold query, mbind, Exec_bind, start_index, end_index, fail_if, saturating_sub.
  replace (en q - st q)%N with (vec_len l) by lia. fold from to.
  rewrite !N.ltb_antisym, <-negb_andb.
  destruct ((from <=? to) && (to <=? vec_len l))%N eqn:Hr; simpl; [|done].
  apply andb_prop in Hr as [H1%N.leb_le H2%N.leb_le].
  unfold expect, mbind, option_bind. rewrite !checked_add_fits by lia.
  unfold get_storage, mret, Exec_ret. do 2 f_equal.
  apply range_inclusive_slice; [lia|lia| |].
  - unfold vec_len in *. rewrite length_take, length_drop. lia.
  - intros j Hj. rewrite length_take, length_drop in Hj. unfold vec_len in *.
    rewrite lookup_take_lt, lookup_drop by lia.
    replace (st q + from + 1 + N.of_nat j)%N with (st q + 1 + (from + N.of_nat j))%N by lia.
    rewrite (queue_rep_lookup q l) by (done || unfold vec_len; lia). f_equal. lia.
Qed.

(** ** One operation *)
Lemma run_op_refines q l o :
  queue_rep q l → (high_water q + 2 ≤ u64_max)%N →
  match spec_op o l with
  | Ok (r, l') => ∃ q', run_op o q = Ok (r, q') ∧ queue_rep q' l' ∧
                        (high_water q' ≤ high_water q + 1)%N
  | Err e => run_op o q = Err e
  | Panic => False
  end.
Proof.
  intros Hq Hfit. destruct o as [v| |i v|i]; simpl.
  - destruct (push_back_run q l v Hq) as (q' & Hr & ? & Hw); [lia|].
    exists q'. unfold mbind, Exec_bind. rewrite Hr, Hw. by split_and!.
  - destruct l as [|x l].
    + exists q. rewrite pop_front_nil by done. split_and!; [done|done|lia].
    + destruct (pop_front_cons q x l Hq) as (q' & Hr & ? & Hw).
      exists q'. split_and!; [done|done|lia].
  - destruct (N.leb_spec i (vec_len l)).
    + destruct (insert_at_run q l i v Hq) as (q' & Hr & ? & Hw); [done..|].
      exists q'. unfold mbind, Exec_bind. rewrite Hr, Hw. by split_and!.
    + unfold mbind, Exec_bind. by rewrite (insert_at_oob q l).
  - destruct (N.ltb_spec i (vec_len l)).
    + destruct (remove_at_run q l i Hq) as (q' & Hr & ? & ?); [lia..|].
      exists q'. split_and!; [done|done|lia].
    + by rewrite (remove_at_oob q l).
Qed.
End Facts.

(** The same trace on the specification: each operation is a step of a
    list-valued state. *)
Definition spec_step {T} (o : op T) : Exec (list T) StdError (option T) := λ l, spec_op o l.

(** C11 [QueueMap] refines a list.  Any sequence of [push_back], [pop_front],
    [insert_at] and [remove_at] calls on a storage that represents the list [l]
    returns exactly what the same sequence returns on [l] itself (popped and
    removed elements, and the out-of-bounds errors), and leaves a storage that
    represents the resulting list, as long as the [u64] cursor has room for one
    increment per call and the two keys the insertion loop may touch. *)
Theorem queue_trace_refines {T} (ops : list (op T)) (q : storage T) (l : list T) :
  queue_rep q l →
  (high_water q + vec_len ops + 2 ≤ u64_max)%N →
  let '(rs, q') := run_trace run_op ops q in
  let '(rs', l') := run_trace spec_step ops l in
  rs = rs' ∧ queue_rep q' l'.
Proof.
  revert q l. induction ops as [|o ops IH]; intros q l Hq Hfit; [done|].
  unfold vec_len in Hfit. simpl in *.
  pose proof (run_op_refines q l o Hq ltac:(lia)) as Ho.
  unfold transact, spec_step at 1. destruct (spec_op o l) as [[r l1]|e|] eqn:Hs; [| |done].
  - destruct Ho as (q1 & -> & Hq1 & Hw).
    specialize (IH q1 l1 Hq1 ltac:(unfold vec_len; lia)). repeat case_match. naive_solver.
  - rewrite Ho. specialize (IH q l Hq ltac:(unfold vec_len; lia)).
    repeat case_match. naive_solver.
Qed.

(** The queue of the unit test [test_insert_and_remove_at]. *)
Lemma queue_trace_refines_witness :
  let ops := [OpPush 1; OpPush 3; OpPush 4; OpInsert 1 2; OpRemove 1; OpRemove 9; OpPop] in
  let '(rs, q') := run_trace run_op ops (QueueMap.new : storage nat) in
  let '(rs', l') := run_trace spec_step ops [] in
  rs = rs' ∧ queue_rep q' l'.
Proof.
  exact (queue_trace_refines
    [OpPush 1; OpPush 3; OpPush 4; OpInsert 1 2; OpRemove 1; OpRemove 9; OpPop]
    QueueMap.new [] new_rep ltac:(by apply N.leb_le)).
Defined.

(** [query] returns the requested slice of the represented list, in either
    order, and rejects exactly the ranges that are reversed or reach past the
    end. *)
Theorem query_returns_slice {T} (q : storage T) (l : list T) (s e : option N) (order : Order) :
  queue_rep q l → (high_water q + 1 ≤ u64_max)%N →
  let from := default 0%N s in
  let to := default (vec_len l) e in
  query s e order q =
    if ((from <=? to) && (to <=? vec_len l))%N
    then let slice := take (N.to_nat (to - from)) (drop (N.to_nat from) l) in
         Ok (match order with Ascending => slice | Descending => reverse slice end, q)
    else Err (GenericErr "Invalid range").
Proof. apply query_slice. Qed.

Lemma query_returns_slice_witness :
  query (Some 1%N) None Descending
    (mkStorage {[ 1%N := "a"; 2%N := "b"; 3%N := "c" ]} None (Some 3%N)) =
  Ok (["c"; "b"], mkStorage {[ 1%N := "a"; 2%N := "b"; 3%N := "c" ]} None (Some 3%N)).
Proof.
  refine (query_returns_slice _ ["a"; "b"; "c"] (Some 1%N) None Descending _ _).
  - split_and!; [done|by apply N.leb_le|].
    intros [|[|[|i]]] Hi; [reflexivity..|simpl in Hi; lia].
  - by apply N.leb_le.
Defined.
