(* ===== verification/Processor.v ===== *)
(** * The processor contract

    [contracts/processor/src] and the methods of [MessageBatch] in
    [packages/processor-utils/src/processor.rs].  The storage record has one
    field per storage constant of [state.rs]; each lens is named as the
    constant.  Every handler is a computation on that storage that returns the
    [Response] (the messages sent and the attributes) or an error. *)
From S2P Require Import Prelude Platform Types Queue.

Module Processor.

(** ** Errors ([error.rs]) *)
Inductive CallbackErrorReason :=
| PendingCallbackNotFound
| InvalidCallbackSender
| UnauthorizedPolytoneCallbackSender
| InvalidPolytoneCallback
| PolytonePendingCallbackNotFound
| PolytoneCallbackStillPending
| PolytoneCallbackNotRetriable.
Inductive UnauthorizedReason :=
| NotAuthorizationModule
| NotProcessor
| InvalidPolytoneCallbackInitiator
| NotExternalDomainProcessor.
Inductive ContractError :=
| Std (e : StdError)
| Unauthorized (r : UnauthorizedReason)
| ProcessorPaused
| NoMessagesToProcess
| CallbackError (r : CallbackErrorReason).
#[global] Instance From_Std : From StdError ContractError := Std.

(** ** Storage ([state.rs]) *)
Record storage := mkStorage {
  s_contract_info : option (string * string);
  s_config : option Config;
  s_med_priority_queue : QueueMap.storage MessageBatch;
  s_high_priority_queue : QueueMap.storage MessageBatch;
  s_execution_id_to_batch : gmap N MessageBatch;
  s_non_atomic_batch_current_function_index : gmap N N;
  s_pending_callback : gmap N PendingCallback;
  s_pending_polytone_callbacks : gmap N PendingPolytoneCallbackInfo;
}.
Definition empty_storage : storage :=
  mkStorage None None QueueMap.new QueueMap.new ∅ ∅ ∅ ∅.

Definition CONTRACT_INFO : lens storage (option (string * string)) :=
  Lens s_contract_info (λ x s, mkStorage x (s_config s) (s_med_priority_queue s)
    (s_high_priority_queue s) (s_execution_id_to_batch s)
    (s_non_atomic_batch_current_function_index s) (s_pending_callback s)
    (s_pending_polytone_callbacks s)).
Definition CONFIG : lens storage (option Config) :=
  Lens s_config (λ x s, mkStorage (s_contract_info s) x (s_med_priority_queue s)
    (s_high_priority_queue s) (s_execution_id_to_batch s)
    (s_non_atomic_batch_current_function_index s) (s_pending_callback s)
    (s_pending_polytone_callbacks s)).
Definition MED_PRIORITY_QUEUE : lens storage (QueueMap.storage MessageBatch) :=
  Lens s_med_priority_queue (λ x s, mkStorage (s_contract_info s) (s_config s) x
    (s_high_priority_queue s) (s_execution_id_to_batch s)
    (s_non_atomic_batch_current_function_index s) (s_pending_callback s)
    (s_pending_polytone_callbacks s)).
Definition HIGH_PRIORITY_QUEUE : lens storage (QueueMap.storage MessageBatch) :=
  Lens s_high_priority_queue (λ x s, mkStorage (s_contract_info s) (s_config s)
    (s_med_priority_queue s) x (s_execution_id_to_batch s)
    (s_non_atomic_batch_current_function_index s) (s_pending_callback s)
    (s_pending_polytone_callbacks s)).
Definition EXECUTION_ID_TO_BATCH : lens storage (gmap N MessageBatch) :=
  Lens s_execution_id_to_batch (λ x s, mkStorage (s_contract_info s) (s_config s)
    (s_med_priority_queue s) (s_high_priority_queue s) x
    (s_non_atomic_batch_current_function_index s) (s_pending_callback s)
    (s_pending_polytone_callbacks s)).
Definition NON_ATOMIC_BATCH_CURRENT_FUNCTION_INDEX : lens storage (gmap N N) :=
  Lens s_non_atomic_batch_current_function_index (λ x s, mkStorage (s_contract_info s)
    (s_config s) (s_med_priority_queue s) (s_high_priority_queue s)
    (s_execution_id_to_batch s) x (s_pending_callback s) (s_pending_polytone_callbacks s)).
Definition PENDING_CALLBACK : lens storage (gmap N PendingCallback) :=
  Lens s_pending_callback (λ x s, mkStorage (s_contract_info s) (s_config s)
    (s_med_priority_queue s) (s_high_priority_queue s) (s_execution_id_to_batch s)
    (s_non_atomic_batch_current_function_index s) x (s_pending_polytone_callbacks s)).
Definition PENDING_POLYTONE_CALLBACKS : lens storage (gmap N PendingPolytoneCallbackInfo) :=
  Lens s_pending_polytone_callbacks (λ x s, mkStorage (s_contract_info s) (s_config s)
    (s_med_priority_queue s) (s_high_priority_queue s) (s_execution_id_to_batch s)
    (s_non_atomic_batch_current_function_index s) (s_pending_callback s) x).

Definition set_state (st : ProcessorState) (c : Config) : Config :=
  mkConfig (authorization_contract c) (processor_domain c) st.
Definition set_domain (d : ProcessorDomain) (c : Config) : Config :=
  mkConfig (authorization_contract c) d (proc_state c).
Definition set_retry (r : option CurrentRetry) (b : MessageBatch) : MessageBatch :=
  mkMessageBatch (batch_id b) (batch_msgs b) (batch_subroutine b) (batch_priority b)
    (batch_expiration_time b) r.
Definition set_proxy_state (st : PolytoneProxyState) (p : Polytone) : Polytone :=
  mkPolytone (polytone_proxy_address p) (polytone_note_address p) (timeout_seconds p) st.

(** ** The queues ([queue.rs]) *)
Definition get_queue_map (priority : Priority) : lens storage (QueueMap.storage MessageBatch) :=
  match priority with
  | High => HIGH_PRIORITY_QUEUE
  | Medium => MED_PRIORITY_QUEUE
  end.
(** A method call on the queue of a priority, with its [StdError] converted. *)
Definition queue_do {A} (p : Priority) (m : Exec (QueueMap.storage MessageBatch) StdError A)
    : Exec storage ContractError A :=
  lift (zoom (get_queue_map p) m).

Section Contract.
Context `{Platform} `{SerdeJson}.
Context `{JsonCodec AuthorizationExecuteMsg} `{JsonCodec ProcessorExecuteMsg}.
Context `{JsonCodec PolytoneExecuteMsg} `{JsonCodec ProcPolytoneCallbackMsg}.

Definition put_back_into_queue (batch : MessageBatch) (retry_amounts : N)
    (retry_logic : RetryLogic) (block : BlockInfo) : Exec storage ContractError unit :=
  amounts ← expect (checked_add u64_max retry_amounts 1);
  cooldown ← expect (duration_after (interval retry_logic) block);
  let batch := set_retry (Some (mkCurrentRetry amounts cooldown)) batch in
  _ ← queue_do (batch_priority batch) (QueueMap.push_back batch);
  map_save EXECUTION_ID_TO_BATCH (batch_id batch) batch.

(** ** Message batches ([processor-utils/processor.rs]) *)
Definition create_cosmos_msg (msg : ProcessorMessage) (contract_address : string)
    : result StdError CosmosMsg :=
  m ← to_wasm_message msg contract_address;
  mret (CosmosWasm m).

Definition process_functions {F} `{Function F} (msgs : list ProcessorMessage) (functions : list F)
    : result StdError (list CosmosMsg) :=
  mapM (λ mf : ProcessorMessage * F,
    addr ← expect_r (fn_contract_address mf.2);
    create_cosmos_msg mf.1 addr) (zip msgs functions).

(** [impl From<MessageBatch> for Result<Vec<CosmosMsg>, StdError>]. *)
Definition batch_into_msgs (val : MessageBatch) : result StdError (list CosmosMsg) :=
  match batch_subroutine val with
  | Atomic config => process_functions (batch_msgs val) (as_functions config)
  | NonAtomic config => process_functions (batch_msgs val) (ns_functions config)
  end.

Definition create_message_by_index (b : MessageBatch) (index : N)
    : result StdError (list SubMsg) :=
  contract_address ← expect_r (get_contract_address_by_function_index (batch_subroutine b) index);
  msg ← expect_r (vec_get (batch_msgs b) index);
  m ← to_wasm_message msg contract_address;
  mret [SubMsg_reply_always m (batch_id b)].

(** Inserts the execution id into the object under the first key. *)
Definition append_execution_id (json : Value) (execution_id : N) : Value :=
  match as_object json with
  | Some ((k, v) :: rest) =>
      match as_object v with
      | Some inner =>
          value_object
            ((k, value_object (object_insert inner "execution_id" (value_u64 execution_id))) :: rest)
      | None => json
      end
  | _ => json
  end.

Definition create_message_by_index_with_execution_id (b : MessageBatch) (index execution_id : N)
    : result StdError (list SubMsg) :=
  msg ← expect_r (vec_get (batch_msgs b) index);
  json ← map_err_r (λ _, GenericErr "Invalid json") (value_from_slice (get_msg msg));
  let json := append_execution_id json execution_id in
  bytes ← map_err_r GenericErr (value_to_vec json);
  let new_msg := set_msg msg bytes in
  contract_address ← expect_r (get_contract_address_by_function_index (batch_subroutine b) index);
  m ← to_wasm_message new_msg contract_address;
  mret [SubMsg_reply_always m execution_id].

(** ** Callbacks ([callback.rs]) *)
Definition create_callback_message (config : Config) (execution_id : N)
    (execution_result : ExecutionResult) (processor_address : Addr)
    : Exec storage ContractError CosmosMsg :=
  payload ← of_result (to_json_binary
    (InternalAuthorizationAction (ProcessorCallback execution_id execution_result)));
  let authorization_callback :=
    CosmosWasm (WasmExecute (authorization_contract config) payload []) in
  match processor_domain config with
  | ProcMain => mret authorization_callback
  | ProcExternal polytone =>
      _ ← map_save PENDING_POLYTONE_CALLBACKS execution_id
            (mkPendingPolytoneCallbackInfo execution_result CbPending);
      cb_msg ← of_result (to_json_binary (ProcExecutionID execution_id));
      msg ← of_result (to_json_binary (PolytoneExecute [authorization_callback]
              (Some (mkCallbackRequest processor_address cb_msg)) (timeout_seconds polytone)));
      mret (CosmosWasm (WasmExecute (polytone_note_address polytone) msg []))
  end.

Definition handle_successful_non_atomic_callback (index execution_id : N) (batch : MessageBatch)
    (messages : list CosmosMsg) (processor_address : Addr)
    : Exec storage ContractError (list CosmosMsg) :=
  next_index ← expect (checked_add usize_max index 1);
  if (vec_len (batch_msgs batch) <=? next_index)%N then
    config ← item_load CONFIG;
    msg ← create_callback_message config execution_id Success processor_address;
    _ ← map_remove NON_ATOMIC_BATCH_CURRENT_FUNCTION_INDEX execution_id;
    _ ← map_remove EXECUTION_ID_TO_BATCH execution_id;
    mret (messages ++ [msg])
  else
    _ ← map_save NON_ATOMIC_BATCH_CURRENT_FUNCTION_INDEX execution_id next_index;
    let batch := set_retry None batch in
    _ ← queue_do (batch_priority batch) (QueueMap.push_back batch);
    mret messages.

Definition handle_successful_atomic_callback (config : Config) (execution_id : N)
    (messages : list CosmosMsg) (processor_address : Addr)
    : Exec storage ContractError (list CosmosMsg) :=
  msg ← create_callback_message config execution_id Success processor_address;
  mret (messages ++ [msg]).

Definition handle_unsuccessful_callback (execution_id : N) (batch : MessageBatch)
    (messages : list CosmosMsg) (error : string) (config : Config) (block : BlockInfo)
    (index : option N) (processor_address : Addr)
    : Exec storage ContractError (list CosmosMsg) :=
  let retry_logic :=
    match batch_subroutine batch with
    | Atomic config => as_retry_logic config
    | NonAtomic config =>
        f ← vec_get (ns_functions config) (default 0%N index);
        nf_retry_logic f
    end in
  let retry_amounts :=
    match batch_retry batch with Some retry => retry_amounts retry | None => 0%N end in
  let index := default 0%N index in
  match retry_logic with
  | Some retry_logic =>
      match times retry_logic with
      | Amount max_retries =>
          if (max_retries <=? retry_amounts)%N then
            let execution_result :=
              if (index =? 0)%N then Rejected error else PartiallyExecuted index error in
            msg ← create_callback_message config execution_id execution_result processor_address;
            _ ← map_remove NON_ATOMIC_BATCH_CURRENT_FUNCTION_INDEX execution_id;
            _ ← map_remove EXECUTION_ID_TO_BATCH execution_id;
            mret (messages ++ [msg])
          else
            _ ← put_back_into_queue batch retry_amounts retry_logic block;
            mret messages
      | Indefinitely =>
          _ ← put_back_into_queue batch retry_amounts retry_logic block;
          mret messages
      end
  | None =>
      msg ← create_callback_message config execution_id (Rejected error) processor_address;
      _ ← map_remove NON_ATOMIC_BATCH_CURRENT_FUNCTION_INDEX execution_id;
      _ ← map_remove EXECUTION_ID_TO_BATCH execution_id;
      mret (messages ++ [msg])
  end.

(** ** Entry points and handlers ([contract.rs]) *)
Definition CONTRACT_NAME : string := "valence-processor".
Definition CONTRACT_VERSION : string := "0.2.0".
Definition MAX_PAGE_LIMIT : N := 250.

(** The message that asks the polytone note to create the proxy. *)
Definition create_proxy_msg (polytone : Polytone) (receiver : Addr)
    : Exec storage ContractError CosmosMsg :=
  cb_msg ← of_result (to_json_binary ProcCreateProxy);
  msg ← of_result (to_json_binary (PolytoneExecute []
          (Some (mkCallbackRequest receiver cb_msg)) (timeout_seconds polytone)));
  mret (CosmosWasm (WasmExecute (polytone_note_address polytone) msg [])).

Definition instantiate (env : Env) (_info : MessageInfo) (msg : ProcInstantiateMsg)
    : Exec storage ContractError Response :=
  _ ← item_save CONTRACT_INFO (CONTRACT_NAME, CONTRACT_VERSION);
  domain ← match im_polytone_contracts msg with
           | Some pc =>
               proxy ← of_result (addr_validate (pcs_proxy_address pc));
               note ← of_result (addr_validate (pcs_note_address pc));
               mret (ProcExternal (mkPolytone proxy note (pcs_timeout_seconds pc)
                                     ProxyPendingResponse))
           | None => mret ProcMain
           end;
  let config := mkConfig (im_authorization_contract msg) domain Active in
  _ ← item_save CONFIG config;
  msgs ← match processor_domain config with
         | ProcMain => mret []
         | ProcExternal polytone =>
             msg ← create_proxy_msg polytone (env_contract env);
             mret [msg]
         end;
  mret (add_attribute "method" "instantiate_processor" (add_messages msgs Response_new)).

Definition pause_processor : Exec storage ContractError Response :=
  c ← item_load CONFIG;
  _ ← item_save CONFIG (set_state Paused c);
  mret (add_attribute "method" "pause_processor" Response_new).

Definition resume_processor : Exec storage ContractError Response :=
  c ← item_load CONFIG;
  _ ← item_save CONFIG (set_state Active c);
  mret (add_attribute "method" "resume_processor" Response_new).

(** [if let Some(t) = expiration_time { if t < env.block.time.seconds() ... }]. *)
Definition batch_expired (expiration_time : option N) (env : Env) : bool :=
  match expiration_time with
  | Some t => (t <? timestamp_seconds (block_time (env_block env)))%N
  | None => false
  end.

Definition enqueue_messages (env : Env) (id : N) (msgs : list ProcessorMessage)
    (subroutine : Subroutine) (priority : Priority) (expiration_time : option N)
    : Exec storage ContractError Response :=
  if batch_expired expiration_time env then
    config ← item_load CONFIG;
    callback_msg ← create_callback_message config id (Expired 0) (env_contract env);
    mret (add_attribute "action" "expired_batch"
           (add_attribute "method" "enqueue_messages" (add_message callback_msg Response_new)))
  else
    let message_batch := mkMessageBatch id msgs subroutine priority expiration_time None in
    _ ← queue_do priority (QueueMap.push_back message_batch);
    _ ← map_save EXECUTION_ID_TO_BATCH id message_batch;
    mret (add_attribute "method" "enqueue_messages" Response_new).

Definition evict_messages (env : Env) (queue_position : N) (priority : Priority)
    : Exec storage ContractError Response :=
  batch ← queue_do priority (QueueMap.remove_at queue_position);
  match batch with
  | Some batch =>
      config ← item_load CONFIG;
      _ ← map_remove EXECUTION_ID_TO_BATCH (batch_id batch);
      _ ← map_remove NON_ATOMIC_BATCH_CURRENT_FUNCTION_INDEX (batch_id batch);
      _ ← map_remove PENDING_CALLBACK (batch_id batch);
      callback_msg ← create_callback_message config (batch_id batch) RemovedByOwner
                       (env_contract env);
      mret (add_attribute "messages_removed" (pretty (vec_len (batch_msgs batch)))
             (add_attribute "method" "evict_messages" (add_message callback_msg Response_new)))
  | None =>
      mret (add_attribute "messages_removed" "0"
             (add_attribute "method" "evict_messages" Response_new))
  end.

Definition insert_messages (env : Env) (queue_position id : N) (msgs : list ProcessorMessage)
    (subroutine : Subroutine) (priority : Priority) (expiration_time : option N)
    : Exec storage ContractError Response :=
  if batch_expired expiration_time env then
    config ← item_load CONFIG;
    callback_msg ← create_callback_message config id (Expired 0) (env_contract env);
    mret (add_attribute "action" "expired_batch"
           (add_attribute "method" "insert_messages" (add_message callback_msg Response_new)))
  else
    let message_batch := mkMessageBatch id msgs subroutine priority expiration_time None in
    _ ← queue_do priority (QueueMap.insert_at queue_position message_batch);
    _ ← map_save EXECUTION_ID_TO_BATCH id message_batch;
    mret (add_attribute "method" "insert_messages" Response_new).

(** The branch of [process_tick] for an expired batch. *)
Definition tick_expired (env : Env) (batch : MessageBatch)
    : Exec storage ContractError Response :=
  config ← item_load CONFIG;
  functions_executed ← match batch_subroutine batch with
                       | Atomic _ => mret 0%N
                       | NonAtomic _ =>
                           index ← map_may_load NON_ATOMIC_BATCH_CURRENT_FUNCTION_INDEX
                                     (batch_id batch);
                           mret (default 0%N index)
                       end;
  _ ← map_remove NON_ATOMIC_BATCH_CURRENT_FUNCTION_INDEX (batch_id batch);
  _ ← map_remove EXECUTION_ID_TO_BATCH (batch_id batch);
  callback_msg ← create_callback_message config (batch_id batch) (Expired functions_executed)
                   (env_contract env);
  mret (add_attribute "action" "expired_batch"
         (add_attribute "method" "tick" (add_message callback_msg Response_new))).

(** The branch of [process_tick] that executes a batch. *)
Definition tick_execute (env : Env) (batch : MessageBatch)
    : Exec storage ContractError Response :=
  messages ←
    match batch_subroutine batch with
    | Atomic _ =>
        msg ← of_result (to_json_binary (InternalProcessorAction (ExecuteAtomic batch)));
        mret [SubMsg_reply_always (WasmExecute (env_contract env) msg []) (batch_id batch)]
    | NonAtomic subroutine =>
        index_stored ← map_may_load NON_ATOMIC_BATCH_CURRENT_FUNCTION_INDEX (batch_id batch);
        current_index ← match index_stored with
                        | Some index => mret index
                        | None =>
                            _ ← map_save NON_ATOMIC_BATCH_CURRENT_FUNCTION_INDEX
                                  (batch_id batch) 0%N;
                            mret 0%N
                        end;
        function ← expect (vec_get (ns_functions subroutine) current_index);
        match callback_confirmation function with
        | Some callback =>
            messages ← of_result (create_message_by_index_with_execution_id batch current_index
                                    (batch_id batch));
            _ ← map_save PENDING_CALLBACK (batch_id batch)
                  (mkPendingCallback (fc_contract_address callback)
                     (fc_callback_message callback) batch);
            mret messages
        | None => of_result (create_message_by_index batch current_index)
        end
    end;
  mret (add_attribute "method" "tick" (add_submessages messages Response_new)).

(** The retry cooldown of a batch has not passed yet. *)
Definition cooling_down (env : Env) (batch : MessageBatch) : bool :=
  match batch_retry batch with
  | Some current_retry => negb (is_expired (retry_cooldown current_retry) (env_block env))
  | None => false
  end.

Definition process_tick (env : Env) : Exec storage ContractError Response :=
  config ← item_load CONFIG;
  _ ← fail_if (bool_decide (proc_state config = Paused)) ProcessorPaused;
  high_len ← queue_do High QueueMap.len;
  let queue := if (high_len =? 0)%N then Medium else High in
  message_batch ← queue_do queue QueueMap.pop_front;
  match message_batch with
  | Some batch =>
      if batch_expired (batch_expiration_time batch) env then tick_expired env batch
      else if cooling_down env batch then
        _ ← queue_do queue (QueueMap.push_back batch);
        mret (add_attribute "action" "pushed_function_back_to_queue"
               (add_attribute "method" "tick" Response_new))
      else tick_execute env batch
  | None => fail NoMessagesToProcess
  end.

Definition retry_callback (env : Env) (execution_id : N) : Exec storage ContractError Response :=
  pending_callback ← map_err (CallbackError PolytonePendingCallbackNotFound)
    (map_load PENDING_POLYTONE_CALLBACKS execution_id : Exec storage StdError _);
  _ ← fail_if (bool_decide (pp_state pending_callback ≠ CbTimedOut))
        (CallbackError PolytoneCallbackStillPending);
  config ← item_load CONFIG;
  callback_msg ← create_callback_message config execution_id
                   (pp_execution_result pending_callback) (env_contract env);
  mret (add_attribute "method" "retry_callback" (add_message callback_msg Response_new)).

Definition retry_bridge_creation (env : Env) : Exec storage ContractError Response :=
  config ← item_load CONFIG;
  match processor_domain config with
  | ProcMain => fail (Unauthorized NotExternalDomainProcessor)
  | ProcExternal polytone =>
      _ ← fail_if (bool_decide (proxy_on_main_domain_state polytone ≠ ProxyTimedOut))
            (CallbackError PolytoneCallbackNotRetriable);
      msg ← create_proxy_msg polytone (env_contract env);
      _ ← item_save CONFIG
            (set_domain (ProcExternal (set_proxy_state ProxyPendingResponse polytone)) config);
      mret (add_attribute "method" "retry_bridge_creation" (add_message msg Response_new))
  end.

Definition process_callback (env : Env) (info : MessageInfo) (execution_id : N) (msg : Binary)
    : Exec storage ContractError Response :=
  pending_callback ← map_err (CallbackError PendingCallbackNotFound)
    (map_load PENDING_CALLBACK execution_id : Exec storage StdError _);
  _ ← fail_if (bool_decide (info_sender info ≠ pc_address pending_callback))
        (CallbackError InvalidCallbackSender);
  index ← map_load NON_ATOMIC_BATCH_CURRENT_FUNCTION_INDEX execution_id;
  messages ←
    (if bool_decide (msg ≠ pc_callback_msg pending_callback) then
       config ← item_load CONFIG;
       handle_unsuccessful_callback execution_id (pc_message_batch pending_callback) []
         "Invalid callback message received" config (env_block env) (Some index)
         (env_contract env)
     else
       handle_successful_non_atomic_callback index execution_id
         (pc_message_batch pending_callback) [] (env_contract env));
  _ ← map_remove PENDING_CALLBACK execution_id;
  mret (add_attribute "method" "callback" (add_messages messages Response_new)).

Definition execute_atomic (info : MessageInfo) (env : Env) (batch : MessageBatch)
    : Exec storage ContractError Response :=
  _ ← fail_if (bool_decide (info_sender info ≠ env_contract env)) (Unauthorized NotProcessor);
  messages ← of_result (batch_into_msgs batch);
  mret (add_attribute "method" "execute_atomic" (add_messages messages Response_new)).

(** The update of a pending polytone callback with a new state. *)
Definition set_polytone_callback_state (st : PolytoneCallbackState)
    (callback_info : option PendingPolytoneCallbackInfo)
    : result ContractError PendingPolytoneCallbackInfo :=
  match callback_info with
  | Some info => Ok (mkPendingPolytoneCallbackInfo (pp_execution_result info) st)
  | None => Err (CallbackError PolytonePendingCallbackNotFound)
  end.

Definition process_polytone_callback (env : Env) (info : MessageInfo)
    (callback_msg : CallbackMessage) : Exec storage ContractError Response :=
  _ ← fail_if (bool_decide (initiator callback_msg ≠ env_contract env))
        (Unauthorized InvalidPolytoneCallbackInitiator);
  config ← item_load CONFIG;
  match processor_domain config with
  | ProcMain => fail (Unauthorized NotExternalDomainProcessor)
  | ProcExternal polytone =>
      _ ← fail_if (bool_decide (info_sender info ≠ polytone_note_address polytone))
            (CallbackError UnauthorizedPolytoneCallbackSender);
      polytone ←
        match from_json (initiator_msg callback_msg) with
        | Ok (ProcExecutionID execution_id) =>
            match cm_result callback_msg with
            | CallbackExecute (inl _) =>
                _ ← map_remove PENDING_POLYTONE_CALLBACKS execution_id;
                mret polytone
            | CallbackExecute (inr error) =>
                _ ← map_update PENDING_POLYTONE_CALLBACKS execution_id
                      (set_polytone_callback_state
                         (if bool_decide (error = "timeout") then CbTimedOut
                          else CbUnexpectedError error));
                mret polytone
            | CallbackFatalError error =>
                _ ← map_update PENDING_POLYTONE_CALLBACKS execution_id
                      (set_polytone_callback_state (CbUnexpectedError error));
                mret polytone
            | CallbackQuery => fail (CallbackError InvalidPolytoneCallback)
            end
        | Ok ProcCreateProxy =>
            match cm_result callback_msg with
            | CallbackExecute result =>
                mret (set_proxy_state
                  (match result with
                   | inr err => if bool_decide (err = "timeout") then ProxyTimedOut
                                else ProxyCreated
                   | inl _ => ProxyCreated
                   end) polytone)
            | CallbackFatalError error => mret (set_proxy_state (ProxyUnexpectedError error) polytone)
            | CallbackQuery => fail (CallbackError InvalidPolytoneCallback)
            end
        | Err _ => fail (CallbackError InvalidPolytoneCallback)
        | Panic => panic
        end;
      _ ← item_save CONFIG (set_domain (ProcExternal polytone) config);
      mret (add_attribute "function" "process_polytone_callback" Response_new)
  end.

Definition execute (env : Env) (info : MessageInfo) (msg : ProcessorExecuteMsg)
    : Exec storage ContractError Response :=
  match msg with
  | AuthorizationModuleAction authorization_module_msg =>
      config ← item_load CONFIG;
      let authorized_sender :=
        match processor_domain config with
        | ProcMain => authorization_contract config
        | ProcExternal polytone => polytone_proxy_address polytone
        end in
      _ ← fail_if (bool_decide (info_sender info ≠ authorized_sender))
            (Unauthorized NotAuthorizationModule);
      match authorization_module_msg with
      | EnqueueMsgs id msgs subroutine priority expiration_time =>
          enqueue_messages env id msgs subroutine priority expiration_time
      | EvictMsgs queue_position priority => evict_messages env queue_position priority
      | InsertMsgs queue_position id msgs subroutine priority expiration_time =>
          insert_messages env queue_position id msgs subroutine priority expiration_time
      | Pause => pause_processor
      | Resume => resume_processor
      end
  | ProcPermissionlessAction permissionless_msg =>
      match permissionless_msg with
      | Tick => process_tick env
      | RetryCallback execution_id => retry_callback env execution_id
      | ProcRetryBridgeCreation => retry_bridge_creation env
      end
  | InternalProcessorAction internal_processor_msg =>
      match internal_processor_msg with
      | LibraryCallback execution_id msg => process_callback env info execution_id msg
      | ExecuteAtomic batch => execute_atomic info env batch
      end
  | ProcPolytoneCallback callback_msg => process_polytone_callback env info callback_msg
  end.

Definition reply (env : Env) (msg : Reply) : Exec storage ContractError Response :=
  config ← item_load CONFIG;
  batch ← map_load EXECUTION_ID_TO_BATCH (reply_id msg);
  index ← map_may_load NON_ATOMIC_BATCH_CURRENT_FUNCTION_INDEX (reply_id msg);
  messages ←
    match index with
    | Some index =>
        match reply_result msg with
        | SubMsgOk =>
            pending ← map_has PENDING_CALLBACK (reply_id msg);
            if negb pending then
              handle_successful_non_atomic_callback index (reply_id msg) batch []
                (env_contract env)
            else mret []
        | SubMsgErr error =>
            handle_unsuccessful_callback (reply_id msg) batch [] error config (env_block env)
              (Some index) (env_contract env)
        end
    | None =>
        match reply_result msg with
        | SubMsgOk =>
            handle_successful_atomic_callback config (reply_id msg) [] (env_contract env)
        | SubMsgErr error =>
            handle_unsuccessful_callback (reply_id msg) batch [] error config (env_block env)
              None (env_contract env)
        end
    end;
  mret (add_attribute "method" "reply" (add_messages messages Response_new)).

(** ** Queries *)
Definition get_config : Exec storage StdError Config := item_load CONFIG.
Definition get_queue (from_ to_ : option N) (priority : Priority)
    : Exec storage StdError (list MessageBatch) :=
  zoom (get_queue_map priority) (QueueMap.query from_ to_ QueueMap.Ascending).
(** [&&] does not look at the medium queue when the high queue has elements. *)
Definition is_queue_empty : Exec storage StdError bool :=
  h ← zoom (get_queue_map High) QueueMap.is_empty;
  if (h : bool) then zoom (get_queue_map Medium) QueueMap.is_empty else mret false.
Definition get_pending_polytone_callbacks (start_after limit : option N)
    : Exec storage StdError (list PendingPolytoneCallbackInfo) :=
  let limit := N.min (default MAX_PAGE_LIMIT limit) MAX_PAGE_LIMIT in
  s ← get_storage;
  mret (snd <$> take (N.to_nat limit)
                  (map_range N.leb (s_pending_polytone_callbacks s) start_after)).
Definition get_pending_polytone_callback (execution_id : N)
    : Exec storage StdError PendingPolytoneCallbackInfo :=
  map_load PENDING_POLYTONE_CALLBACKS execution_id.
End Contract.
End Processor.
