(* ===== verification/ProcessorFacts.v ===== *)
(** * Processor: shared lemmas

    The two queues of the processor seen as lists, the effect of the queue calls
    on the storage, and the shape of the callback messages. *)
From S2P Require Import Prelude Platform Types Queue Processor.
Import Processor.

(** The queue cell of a priority, and the lists the two cells represent. *)
Abbreviation queue_at p s := (lget (get_queue_map p) s).
Definition reps (s : storage) (qs : Priority → list MessageBatch) : Prop :=
  ∀ p, QueueMap.queue_rep (queue_at p s) (qs p).
Definition upd {A} (qs : Priority → A) (p : Priority) (x : A) : Priority → A :=
  λ p', if decide (p' = p) then x else qs p'.

(** Both [u64] cursors have room for [n] more pushes. *)
Definition room (s : storage) (n : N) : Prop :=
  ∀ p, (QueueMap.high_water (queue_at p s) + n + 2 ≤ u64_max)%N.

(** The cells other than the queues. *)
Definition rest_of (s : storage) :=
  (s_contract_info s, s_config s, s_execution_id_to_batch s,
   s_non_atomic_batch_current_function_index s, s_pending_callback s,
   s_pending_polytone_callbacks s).

#[global] Instance get_queue_map_lens p : LensLaws (get_queue_map p).
Proof. destruct p; split; by try intros []. Qed.

Lemma upd_eq {A} (qs : Priority → A) p x : upd qs p x p = x.
Proof. unfold upd. by rewrite decide_True. Qed.
Lemma upd_ne {A} (qs : Priority → A) p p' x : p' ≠ p → upd qs p x p' = qs p'.
Proof. unfold upd. intros. by rewrite decide_False. Qed.

Section QueueCells.
Implicit Types (s : storage) (p : Priority) (q : QueueMap.storage MessageBatch).

Lemma queue_at_lset p q s : queue_at p (lset (get_queue_map p) q s) = q.
Proof. apply lget_lset. Qed.
Lemma queue_at_lset_ne p p' q s : p' ≠ p → queue_at p' (lset (get_queue_map p) q s) = queue_at p' s.
Proof. by destruct p, p'. Qed.
Lemma rest_of_lset p q s : rest_of (lset (get_queue_map p) q s) = rest_of s.
Proof. by destruct p. Qed.

Lemma queue_at_info p x s : queue_at p (lset CONTRACT_INFO x s) = queue_at p s.
Proof. by destruct p. Qed.
Lemma queue_at_config p x s : queue_at p (lset CONFIG x s) = queue_at p s.
Proof. by destruct p. Qed.
Lemma queue_at_batches p x s : queue_at p (lset EXECUTION_ID_TO_BATCH x s) = queue_at p s.
Proof. by destruct p. Qed.
Lemma queue_at_index p x s :
  queue_at p (lset NON_ATOMIC_BATCH_CURRENT_FUNCTION_INDEX x s) = queue_at p s.
Proof. by destruct p. Qed.
Lemma queue_at_pending p x s : queue_at p (lset PENDING_CALLBACK x s) = queue_at p s.
Proof. by destruct p. Qed.
Lemma queue_at_polytone p x s : queue_at p (lset PENDING_POLYTONE_CALLBACKS x s) = queue_at p s.
Proof. by destruct p. Qed.

Lemma reps_lset s qs p q l :
  reps s qs → QueueMap.queue_rep q l → reps (lset (get_queue_map p) q s) (upd qs p l).
Proof.
  intros Hs Hq p'. destruct (decide (p' = p)) as [->|].
  - by rewrite queue_at_lset, upd_eq.
  - by rewrite queue_at_lset_ne, upd_ne.
Qed.
Lemma room_lset s p q n m :
  room s n → (m ≤ n)%N →
  (QueueMap.high_water q + m ≤ QueueMap.high_water (queue_at p s) + n)%N →
  room (lset (get_queue_map p) q s) m.
Proof.
  intros Hs Hm Hq p'. destruct (decide (p' = p)) as [->|].
  - rewrite queue_at_lset. specialize (Hs p). lia.
  - rewrite queue_at_lset_ne by done. specialize (Hs p'). lia.
Qed.

Lemma reps_same s s' qs : (∀ p, queue_at p s' = queue_at p s) → reps s qs → reps s' qs.
Proof. intros He Hs p. rewrite He. apply Hs. Qed.
Lemma room_same s s' n m :
  (∀ p, queue_at p s' = queue_at p s) → (m ≤ n)%N → room s n → room s' m.
Proof. intros He Hm Hs p. rewrite He. specialize (Hs p). lia. Qed.
Lemma room_le s n m : room s n → (m ≤ n)%N → room s m.
Proof. intros Hs Hm. by eapply room_same. Qed.
End QueueCells.

Create Rewrite HintDb proc.
#[export] Hint Rewrite queue_at_lset queue_at_info queue_at_config queue_at_batches
  queue_at_index queue_at_pending queue_at_polytone @upd_eq : proc.

(** ** The queue calls on the whole storage *)
Section QueueCalls.
Implicit Types (s : storage) (qs : Priority → list MessageBatch).

Lemma queue_do_ok {A} p (m : Exec (QueueMap.storage MessageBatch) StdError A) s a q' :
  m (queue_at p s) = Ok (a, q') → queue_do p m s = Ok (a, lset (get_queue_map p) q' s).
Proof. intros Hm. unfold queue_do, lift, zoom. by rewrite Hm. Qed.

Lemma queue_do_push p b s qs n :
  reps s qs → room s (n + 1) →
  ∃ q', queue_do p (QueueMap.push_back b) s = Ok ((), lset (get_queue_map p) q' s) ∧
        reps (lset (get_queue_map p) q' s) (upd qs p (qs p ++ [b])) ∧
        room (lset (get_queue_map p) q' s) n.
Proof.
  intros Hs Hr. destruct (push_back_run (queue_at p s) (qs p) b (Hs p)) as (q' & Hq & Hrep & Hw).
  { specialize (Hr p). lia. }
  exists q'. rewrite (queue_do_ok _ _ _ _ _ Hq). split_and!; [done|by apply reps_lset|].
  eapply room_lset; [done|lia|lia].
Qed.

Lemma queue_do_len p s qs : reps s qs → queue_do p QueueMap.len s = Ok (vec_len (qs p), s).
Proof.
  intros Hs. rewrite (queue_do_ok _ _ _ _ _ (len_rep _ _ (Hs p))). by rewrite lset_lget.
Qed.

Lemma queue_do_pop_nil p s qs :
  reps s qs → qs p = [] → queue_do p QueueMap.pop_front s = Ok (None, s).
Proof.
  intros Hs Hp. specialize (Hs p). rewrite Hp in Hs.
  rewrite (queue_do_ok _ _ _ _ _ (pop_front_nil _ Hs)). by rewrite lset_lget.
Qed.

Lemma queue_do_pop p s qs b l n :
  reps s qs → room s n → qs p = b :: l →
  ∃ q', queue_do p QueueMap.pop_front s = Ok (Some b, lset (get_queue_map p) q' s) ∧
        reps (lset (get_queue_map p) q' s) (upd qs p l) ∧
        room (lset (get_queue_map p) q' s) n.
Proof.
  intros Hs Hr Hp. pose proof (Hs p) as Hq. rewrite Hp in Hq.
  destruct (pop_front_cons _ _ _ Hq) as (q' & Hpop & Hrep & Hw).
  exists q'. rewrite (queue_do_ok _ _ _ _ _ Hpop). split_and!; [done|by apply reps_lset|].
  eapply room_lset; [done|lia|lia].
Qed.

Lemma queue_do_insert p i b s qs n :
  reps s qs → room s (n + 1) → (i ≤ vec_len (qs p))%N →
  ∃ q', queue_do p (QueueMap.insert_at i b) s = Ok ((), lset (get_queue_map p) q' s) ∧
        reps (lset (get_queue_map p) q' s)
          (upd qs p (take (N.to_nat i) (qs p) ++ b :: drop (N.to_nat i) (qs p))) ∧
        room (lset (get_queue_map p) q' s) n.
Proof.
  intros Hs Hr Hi.
  destruct (insert_at_run (queue_at p s) (qs p) i b (Hs p) Hi) as (q' & Hq & Hrep & Hw).
  { specialize (Hr p). lia. }
  exists q'. rewrite (queue_do_ok _ _ _ _ _ Hq). split_and!; [done|by apply reps_lset|].
  eapply room_lset; [done|lia|lia].
Qed.

Lemma queue_do_remove p i s qs n b :
  reps s qs → room s n → qs p !! N.to_nat i = Some b →
  ∃ q', queue_do p (QueueMap.remove_at i) s = Ok (Some b, lset (get_queue_map p) q' s) ∧
        reps (lset (get_queue_map p) q' s) (upd qs p (delete (N.to_nat i) (qs p))) ∧
        room (lset (get_queue_map p) q' s) n.
Proof.
  intros Hs Hr Hb. pose proof (lookup_lt_Some _ _ _ Hb).
  destruct (remove_at_run (queue_at p s) (qs p) i (Hs p)) as (q' & Hq & Hrep & Hw).
  { unfold vec_len. lia. }
  { specialize (Hr p). lia. }
  rewrite Hb in Hq.
  exists q'. rewrite (queue_do_ok _ _ _ _ _ Hq). split_and!; [done|by apply reps_lset|].
  eapply room_lset; [done|lia|lia].
Qed.
End QueueCalls.

(** ** Callback messages *)
Section Callbacks.
Context `{Platform} `{SerdeJson}.
Context `{JsonCodec AuthorizationExecuteMsg} `{JsonCodec ProcessorExecuteMsg}.
Context `{JsonCodec PolytoneExecuteMsg} `{JsonCodec ProcPolytoneCallbackMsg}.

(** The message [m] reports the result of an execution to the authorization
    contract: directly on the main domain, wrapped for the polytone note on an
    external one. *)
Definition reports_to_authorization (config : Config) (id : N) (res : ExecutionResult)
    (m : CosmosMsg) : Prop :=
  ∃ payload,
    to_json_binary (InternalAuthorizationAction (ProcessorCallback id res)) = Ok payload ∧
    m = CosmosWasm (WasmExecute (authorization_contract config) payload []).
Definition is_callback (config : Config) (self : Addr) (id : N) (res : ExecutionResult)
    (m : CosmosMsg) : Prop :=
  match processor_domain config with
  | ProcMain => reports_to_authorization config id res m
  | ProcExternal polytone =>
      ∃ inner cb body,
        reports_to_authorization config id res inner ∧
        to_json_binary (ProcExecutionID id) = Ok cb ∧
        to_json_binary (PolytoneExecute [inner] (Some (mkCallbackRequest self cb))
                          (timeout_seconds polytone)) = Ok body ∧
        m = CosmosWasm (WasmExecute (polytone_note_address polytone) body [])
  end.

(** The storage after a callback was created. *)
Definition after_callback (config : Config) (id : N) (res : ExecutionResult) (s : storage)
    : storage :=
  match processor_domain config with
  | ProcMain => s
  | ProcExternal _ =>
      lset PENDING_POLYTONE_CALLBACKS
        (<[id := mkPendingPolytoneCallbackInfo res CbPending]> (s_pending_polytone_callbacks s)) s
  end.

Lemma queue_at_after_callback p config id res s :
  queue_at p (after_callback config id res s) = queue_at p s.
Proof. unfold after_callback. by case_match; destruct p. Qed.

Context `{!JsonCodecLaws AuthorizationExecuteMsg} `{!JsonCodecLaws ProcessorExecuteMsg}.
Context `{!JsonCodecLaws PolytoneExecuteMsg} `{!JsonCodecLaws ProcPolytoneCallbackMsg}.

Lemma create_callback_run config id res self s :
  ∃ m, create_callback_message config id res self s = Ok (m, after_callback config id res s) ∧
       is_callback config self id res m.
Proof.
  unfold create_callback_message, is_callback, after_callback, reports_to_authorization.
  destruct (to_json_total (InternalAuthorizationAction (ProcessorCallback id res))) as [pl Hpl].
  unfold mbind, Exec_bind, of_result. rewrite Hpl.
  destruct (processor_domain config) as [|poly].
  - eexists. split; [done|]. eauto.
  - destruct (to_json_total (ProcExecutionID id)) as [cb Hcb]. rewrite Hcb. simpl.
    edestruct (to_json_total (PolytoneExecute
      [CosmosWasm (WasmExecute (authorization_contract config) pl [])]
      (Some (mkCallbackRequest self cb)) (timeout_seconds poly))) as [b Hb]. rewrite Hb.
    eexists. split; [done|]. naive_solver.
Qed.
End Callbacks.
#[export] Hint Rewrite @queue_at_after_callback : proc.
