(* ===== verification/Codec.v ===== *)
(** * A reference implementation of the package interfaces

    The contracts are modelled for any implementation of the classes of
    [Platform].  This file gives one that satisfies the laws, so that the
    theorems that assume the laws can be applied: every message type is put in
    bijection with positive numbers, and serialized as the bits of that number. *)
From Stdlib Require Import Strings.Byte.
From S2P Require Import Prelude Platform Types.

#[global] Instance byte_countable : Countable byte :=
  inj_countable Byte.to_N Byte.of_N Byte.of_to_N.

(** An inductive or record type is countable when it embeds in a type that is. *)
Tactic Notation "by_iso" uconstr(f) uconstr(g) := refine (inj_countable' f g _); by intros [].

#[global] Instance Coin_eq_dec : EqDecision Coin. Proof. solve_decision. Defined.
#[global] Instance Coin_countable : Countable Coin.
Proof.
  by_iso (λ '(mkCoin a0 a1), (a0, a1)) (λ '(a0, a1), mkCoin a0 a1).
Defined.
#[global] Instance WasmMsg_eq_dec : EqDecision WasmMsg. Proof. solve_decision. Defined.
#[global] Instance WasmMsg_countable : Countable WasmMsg.
Proof.
  by_iso (λ x, match x with
    | WasmExecute a0 a1 a2 => (inl (a0, (a1, a2)))
    | WasmMigrate a0 a1 a2 => (inr (inl (a0, (a1, a2))))
    | WasmInstantiate a0 a1 a2 a3 a4 => (inr (inr (a0, (a1, (a2, (a3, a4)))))) end)
    (λ y, match y with
    | (inl (a0, (a1, a2))) => WasmExecute a0 a1 a2
    | (inr (inl (a0, (a1, a2)))) => WasmMigrate a0 a1 a2
    | (inr (inr (a0, (a1, (a2, (a3, a4)))))) => WasmInstantiate a0 a1 a2 a3 a4 end).
Defined.
#[global] Instance CosmosMsg_eq_dec : EqDecision CosmosMsg. Proof. solve_decision. Defined.
#[global] Instance CosmosMsg_countable : Countable CosmosMsg.
Proof.
  by_iso (λ x, match x with
    | CosmosWasm a0 => (inl a0)
    | CosmosBankSend a0 a1 => (inr (inl (a0, a1)))
    | CosmosStargate a0 a1 => (inr (inr (inl (a0, a1))))
    | CosmosIbcTransfer a0 a1 a2 a3 a4 => (inr (inr (inr (a0, (a1, (a2, (a3, a4))))))) end)
    (λ y, match y with
    | (inl a0) => CosmosWasm a0
    | (inr (inl (a0, a1))) => CosmosBankSend a0 a1
    | (inr (inr (inl (a0, a1)))) => CosmosStargate a0 a1
    | (inr (inr (inr (a0, (a1, (a2, (a3, a4))))))) => CosmosIbcTransfer a0 a1 a2 a3 a4 end).
Defined.
#[global] Instance Expiration_countable : Countable Expiration.
Proof.
  by_iso (λ x, match x with
    | AtHeight a0 => (inl a0)
    | AtTime a0 => (inr (inl a0))
    | Never => (inr (inr ())) end)
    (λ y, match y with
    | (inl a0) => AtHeight a0
    | (inr (inl a0)) => AtTime a0
    | (inr (inr _)) => Never end).
Defined.
#[global] Instance Duration_countable : Countable Duration.
Proof.
  by_iso (λ x, match x with
    | DurHeight a0 => (inl a0)
    | DurTime a0 => (inr a0) end)
    (λ y, match y with
    | (inl a0) => DurHeight a0
    | (inr a0) => DurTime a0 end).
Defined.
#[global] Instance OwnableAction_eq_dec : EqDecision OwnableAction. Proof. solve_decision. Defined.
#[global] Instance OwnableAction_countable : Countable OwnableAction.
Proof.
  by_iso (λ x, match x with
    | TransferOwnership a0 a1 => (inl (a0, a1))
    | AcceptOwnership => (inr (inl ()))
    | RenounceOwnership => (inr (inr ())) end)
    (λ y, match y with
    | (inl (a0, a1)) => TransferOwnership a0 a1
    | (inr (inl _)) => AcceptOwnership
    | (inr (inr _)) => RenounceOwnership end).
Defined.
#[global] Instance Domain_countable : Countable Domain.
Proof.
  by_iso (λ x, match x with
    | DomainMain => (inl ())
    | DomainExternal a0 => (inr a0) end)
    (λ y, match y with
    | (inl _) => DomainMain
    | (inr a0) => DomainExternal a0 end).
Defined.
#[global] Instance PolytoneProxyState_countable : Countable PolytoneProxyState.
Proof.
  by_iso (λ x, match x with
    | ProxyTimedOut => (inl ())
    | ProxyPendingResponse => (inr (inl ()))
    | ProxyCreated => (inr (inr (inl ())))
    | ProxyUnexpectedError a0 => (inr (inr (inr a0))) end)
    (λ y, match y with
    | (inl _) => ProxyTimedOut
    | (inr (inl _)) => ProxyPendingResponse
    | (inr (inr (inl _))) => ProxyCreated
    | (inr (inr (inr a0))) => ProxyUnexpectedError a0 end).
Defined.
#[global] Instance PolytoneNote_eq_dec : EqDecision PolytoneNote. Proof. solve_decision. Defined.
#[global] Instance PolytoneNote_countable : Countable PolytoneNote.
Proof.
  by_iso (λ '(mkPolytoneNote a0 a1 a2), (a0, (a1, a2))) (λ '(a0, (a1, a2)), mkPolytoneNote a0 a1 a2).
Defined.
#[global] Instance PolytoneConnectors_eq_dec : EqDecision PolytoneConnectors. Proof. solve_decision. Defined.
#[global] Instance PolytoneConnectors_countable : Countable PolytoneConnectors.
Proof.
  by_iso (λ '(mkPolytoneConnectors a0 a1), (a0, a1)) (λ '(a0, a1), mkPolytoneConnectors a0 a1).
Defined.
#[global] Instance Encoder_eq_dec : EqDecision Encoder. Proof. solve_decision. Defined.
#[global] Instance Encoder_countable : Countable Encoder.
Proof.
  by_iso (λ '(mkEncoder a0 a1), (a0, a1)) (λ '(a0, a1), mkEncoder a0 a1).
Defined.
#[global] Instance HyperlaneConnector_eq_dec : EqDecision HyperlaneConnector. Proof. solve_decision. Defined.
#[global] Instance HyperlaneConnector_countable : Countable HyperlaneConnector.
Proof.
  by_iso (λ '(mkHyperlaneConnector a0 a1), (a0, a1)) (λ '(a0, a1), mkHyperlaneConnector a0 a1).
Defined.
#[global] Instance CosmwasmBridge_eq_dec : EqDecision CosmwasmBridge. Proof. solve_decision. Defined.
#[global] Instance CosmwasmBridge_countable : Countable CosmwasmBridge.
Proof.
  by_iso (λ '(Polytone_ a0), a0) Polytone_.
Defined.
#[global] Instance EvmBridge_eq_dec : EqDecision EvmBridge. Proof. solve_decision. Defined.
#[global] Instance EvmBridge_countable : Countable EvmBridge.
Proof.
  by_iso (λ '(Hyperlane_ a0), a0) Hyperlane_.
Defined.
#[global] Instance ExecutionEnvironment_eq_dec : EqDecision ExecutionEnvironment. Proof. solve_decision. Defined.
#[global] Instance ExecutionEnvironment_countable : Countable ExecutionEnvironment.
Proof.
  by_iso (λ x, match x with
    | EnvCosmwasm a0 => (inl a0)
    | EnvEvm a0 a1 => (inr (a0, a1)) end)
    (λ y, match y with
    | (inl a0) => EnvCosmwasm a0
    | (inr (a0, a1)) => EnvEvm a0 a1 end).
Defined.
#[global] Instance ExternalDomain_eq_dec : EqDecision ExternalDomain. Proof. solve_decision. Defined.
#[global] Instance ExternalDomain_countable : Countable ExternalDomain.
Proof.
  by_iso (λ '(mkExternalDomain a0 a1 a2), (a0, (a1, a2))) (λ '(a0, (a1, a2)), mkExternalDomain a0 a1 a2).
Defined.
#[global] Instance LibraryAccountType_eq_dec : EqDecision LibraryAccountType. Proof. solve_decision. Defined.
#[global] Instance LibraryAccountType_countable : Countable LibraryAccountType.
Proof.
  by_iso (λ x, match x with
    | LibAddr a0 => (inl a0)
    | LibAccountId a0 => (inr (inl a0))
    | LibLibraryId a0 => (inr (inr a0)) end)
    (λ y, match y with
    | (inl a0) => LibAddr a0
    | (inr (inl a0)) => LibAccountId a0
    | (inr (inr a0)) => LibLibraryId a0 end).
Defined.
#[global] Instance EncoderInfo_eq_dec : EqDecision EncoderInfo. Proof. solve_decision. Defined.
#[global] Instance EncoderInfo_countable : Countable EncoderInfo.
Proof.
  by_iso (λ '(mkEncoderInfo a0 a1), (a0, a1)) (λ '(a0, a1), mkEncoderInfo a0 a1).
Defined.
#[global] Instance MessageType_eq_dec : EqDecision MessageType. Proof. solve_decision. Defined.
#[global] Instance MessageType_countable : Countable MessageType.
Proof.
  by_iso (λ x, match x with
    | TyCosmwasmExecuteMsg => (inl ())
    | TyCosmwasmMigrateMsg => (inr (inl ()))
    | TyEvmCall a0 a1 => (inr (inr (inl (a0, a1))))
    | TyEvmRawCall => (inr (inr (inr ()))) end)
    (λ y, match y with
    | (inl _) => TyCosmwasmExecuteMsg
    | (inr (inl _)) => TyCosmwasmMigrateMsg
    | (inr (inr (inl (a0, a1)))) => TyEvmCall a0 a1
    | (inr (inr (inr _))) => TyEvmRawCall end).
Defined.
#[global] Instance ParamRestriction_eq_dec : EqDecision ParamRestriction. Proof. solve_decision. Defined.
#[global] Instance ParamRestriction_countable : Countable ParamRestriction.
Proof.
  by_iso (λ x, match x with
    | MustBeIncluded a0 => (inl a0)
    | CannotBeIncluded a0 => (inr (inl a0))
    | MustBeValue a0 a1 => (inr (inr (inl (a0, a1))))
    | MustBeBytes a0 => (inr (inr (inr a0))) end)
    (λ y, match y with
    | (inl a0) => MustBeIncluded a0
    | (inr (inl a0)) => CannotBeIncluded a0
    | (inr (inr (inl (a0, a1)))) => MustBeValue a0 a1
    | (inr (inr (inr a0))) => MustBeBytes a0 end).
Defined.
#[global] Instance Message_eq_dec : EqDecision Message. Proof. solve_decision. Defined.
#[global] Instance Message_countable : Countable Message.
Proof.
  by_iso (λ '(mkMessage a0 a1), (a0, a1)) (λ '(a0, a1), mkMessage a0 a1).
Defined.
#[global] Instance MessageDetails_eq_dec : EqDecision MessageDetails. Proof. solve_decision. Defined.
#[global] Instance MessageDetails_countable : Countable MessageDetails.
Proof.
  by_iso (λ '(mkMessageDetails a0 a1), (a0, a1)) (λ '(a0, a1), mkMessageDetails a0 a1).
Defined.
#[global] Instance RetryTimes_eq_dec : EqDecision RetryTimes. Proof. solve_decision. Defined.
#[global] Instance RetryTimes_countable : Countable RetryTimes.
Proof.
  by_iso (λ x, match x with
    | Indefinitely => (inl ())
    | Amount a0 => (inr a0) end)
    (λ y, match y with
    | (inl _) => Indefinitely
    | (inr a0) => Amount a0 end).
Defined.
#[global] Instance RetryLogic_eq_dec : EqDecision RetryLogic. Proof. solve_decision. Defined.
#[global] Instance RetryLogic_countable : Countable RetryLogic.
Proof.
  by_iso (λ '(mkRetryLogic a0 a1), (a0, a1)) (λ '(a0, a1), mkRetryLogic a0 a1).
Defined.
#[global] Instance FunctionCallback_eq_dec : EqDecision FunctionCallback. Proof. solve_decision. Defined.
#[global] Instance FunctionCallback_countable : Countable FunctionCallback.
Proof.
  by_iso (λ '(mkFunctionCallback a0 a1), (a0, a1)) (λ '(a0, a1), mkFunctionCallback a0 a1).
Defined.
#[global] Instance AtomicFunction_eq_dec : EqDecision AtomicFunction. Proof. solve_decision. Defined.
#[global] Instance AtomicFunction_countable : Countable AtomicFunction.
Proof.
  by_iso (λ '(mkAtomicFunction a0 a1 a2), (a0, (a1, a2))) (λ '(a0, (a1, a2)), mkAtomicFunction a0 a1 a2).
Defined.
#[global] Instance NonAtomicFunction_eq_dec : EqDecision NonAtomicFunction. Proof. solve_decision. Defined.
#[global] Instance NonAtomicFunction_countable : Countable NonAtomicFunction.
Proof.
  by_iso (λ '(mkNonAtomicFunction a0 a1 a2 a3 a4), (a0, (a1, (a2, (a3, a4))))) (λ '(a0, (a1, (a2, (a3, a4)))), mkNonAtomicFunction a0 a1 a2 a3 a4).
Defined.
#[global] Instance AtomicSubroutine_eq_dec : EqDecision AtomicSubroutine. Proof. solve_decision. Defined.
#[global] Instance AtomicSubroutine_countable : Countable AtomicSubroutine.
Proof.
  by_iso (λ '(mkAtomicSubroutine a0 a1 a2), (a0, (a1, a2))) (λ '(a0, (a1, a2)), mkAtomicSubroutine a0 a1 a2).
Defined.
#[global] Instance NonAtomicSubroutine_eq_dec : EqDecision NonAtomicSubroutine. Proof. solve_decision. Defined.
#[global] Instance NonAtomicSubroutine_countable : Countable NonAtomicSubroutine.
Proof.
  by_iso (λ '(mkNonAtomicSubroutine a0 a1), (a0, a1)) (λ '(a0, a1), mkNonAtomicSubroutine a0 a1).
Defined.
#[global] Instance Subroutine_eq_dec : EqDecision Subroutine. Proof. solve_decision. Defined.
#[global] Instance Subroutine_countable : Countable Subroutine.
Proof.
  by_iso (λ x, match x with
    | Atomic a0 => (inl a0)
    | NonAtomic a0 => (inr a0) end)
    (λ y, match y with
    | (inl a0) => Atomic a0
    | (inr a0) => NonAtomic a0 end).
Defined.
#[global] Instance Priority_countable : Countable Priority.
Proof.
  by_iso (λ x, match x with
    | Medium => (inl ())
    | High => (inr ()) end)
    (λ y, match y with
    | (inl _) => Medium
    | (inr _) => High end).
Defined.
#[global] Instance ProcessorMessage_eq_dec : EqDecision ProcessorMessage. Proof. solve_decision. Defined.
#[global] Instance ProcessorMessage_countable : Countable ProcessorMessage.
Proof.
  by_iso (λ x, match x with
    | CosmwasmExecuteMsg a0 => (inl a0)
    | CosmwasmMigrateMsg a0 a1 => (inr (inl (a0, a1)))
    | EvmCall a0 => (inr (inr (inl a0)))
    | EvmRawCall a0 => (inr (inr (inr a0))) end)
    (λ y, match y with
    | (inl a0) => CosmwasmExecuteMsg a0
    | (inr (inl (a0, a1))) => CosmwasmMigrateMsg a0 a1
    | (inr (inr (inl a0))) => EvmCall a0
    | (inr (inr (inr a0))) => EvmRawCall a0 end).
Defined.
#[global] Instance AuthorizationMsg_eq_dec : EqDecision AuthorizationMsg. Proof. solve_decision. Defined.
#[global] Instance AuthorizationMsg_countable : Countable AuthorizationMsg.
Proof.
  by_iso (λ x, match x with
    | EnqueueMsgs a0 a1 a2 a3 a4 => (inl (a0, (a1, (a2, (a3, a4)))))
    | EvictMsgs a0 a1 => (inr (inl (a0, a1)))
    | InsertMsgs a0 a1 a2 a3 a4 a5 => (inr (inr (inl (a0, (a1, (a2, (a3, (a4, a5))))))))
    | Pause => (inr (inr (inr (inl ()))))
    | Resume => (inr (inr (inr (inr ())))) end)
    (λ y, match y with
    | (inl (a0, (a1, (a2, (a3, a4))))) => EnqueueMsgs a0 a1 a2 a3 a4
    | (inr (inl (a0, a1))) => EvictMsgs a0 a1
    | (inr (inr (inl (a0, (a1, (a2, (a3, (a4, a5)))))))) => InsertMsgs a0 a1 a2 a3 a4 a5
    | (inr (inr (inr (inl _)))) => Pause
    | (inr (inr (inr (inr _)))) => Resume end).
Defined.
#[global] Instance OperationInitiator_eq_dec : EqDecision OperationInitiator. Proof. solve_decision. Defined.
#[global] Instance OperationInitiator_countable : Countable OperationInitiator.
Proof.
  by_iso (λ x, match x with
    | InitOwner => (inl ())
    | InitUser a0 => (inr a0) end)
    (λ y, match y with
    | (inl _) => InitOwner
    | (inr a0) => InitUser a0 end).
Defined.
#[global] Instance ExecutionResult_countable : Countable ExecutionResult.
Proof.
  by_iso (λ x, match x with
    | InProcess => (inl ())
    | Success => (inr (inl ()))
    | Rejected a0 => (inr (inr (inl a0)))
    | PartiallyExecuted a0 a1 => (inr (inr (inr (inl (a0, a1)))))
    | RemovedByOwner => (inr (inr (inr (inr (inl ())))))
    | Timeout a0 => (inr (inr (inr (inr (inr (inl a0))))))
    | Expired a0 => (inr (inr (inr (inr (inr (inr (inl a0)))))))
    | UnexpectedError a0 => (inr (inr (inr (inr (inr (inr (inr a0))))))) end)
    (λ y, match y with
    | (inl _) => InProcess
    | (inr (inl _)) => Success
    | (inr (inr (inl a0))) => Rejected a0
    | (inr (inr (inr (inl (a0, a1))))) => PartiallyExecuted a0 a1
    | (inr (inr (inr (inr (inl _))))) => RemovedByOwner
    | (inr (inr (inr (inr (inr (inl a0)))))) => Timeout a0
    | (inr (inr (inr (inr (inr (inr (inl a0))))))) => Expired a0
    | (inr (inr (inr (inr (inr (inr (inr a0))))))) => UnexpectedError a0 end).
Defined.
#[global] Instance ProcessorCallbackInfo_eq_dec : EqDecision ProcessorCallbackInfo. Proof. solve_decision. Defined.
#[global] Instance ProcessorCallbackInfo_countable : Countable ProcessorCallbackInfo.
Proof.
  by_iso (λ '(mkProcessorCallbackInfo a0 a1 a2 a3 a4 a5 a6 a7 a8 a9 a10), (a0, (a1, (a2, (a3, (a4, (a5, (a6, (a7, (a8, (a9, a10))))))))))) (λ '(a0, (a1, (a2, (a3, (a4, (a5, (a6, (a7, (a8, (a9, a10)))))))))), mkProcessorCallbackInfo a0 a1 a2 a3 a4 a5 a6 a7 a8 a9 a10).
Defined.
#[global] Instance InternalAuthorizationMsg_eq_dec : EqDecision InternalAuthorizationMsg. Proof. solve_decision. Defined.
#[global] Instance InternalAuthorizationMsg_countable : Countable InternalAuthorizationMsg.
Proof.
  by_iso (λ '(ProcessorCallback a0 a1), (a0, a1)) (λ '(a0, a1), ProcessorCallback a0 a1).
Defined.
#[global] Instance CallbackRequest_eq_dec : EqDecision CallbackRequest. Proof. solve_decision. Defined.
#[global] Instance CallbackRequest_countable : Countable CallbackRequest.
Proof.
  by_iso (λ '(mkCallbackRequest a0 a1), (a0, a1)) (λ '(a0, a1), mkCallbackRequest a0 a1).
Defined.
#[global] Instance PolytoneExecuteMsg_eq_dec : EqDecision PolytoneExecuteMsg. Proof. solve_decision. Defined.
#[global] Instance PolytoneExecuteMsg_countable : Countable PolytoneExecuteMsg.
Proof.
  by_iso (λ '(PolytoneExecute a0 a1 a2), (a0, (a1, a2))) (λ '(a0, (a1, a2)), PolytoneExecute a0 a1 a2).
Defined.
#[global] Instance Callback_eq_dec : EqDecision Callback. Proof. solve_decision. Defined.
#[global] Instance Callback_countable : Countable Callback.
Proof.
  by_iso (λ x, match x with
    | CallbackQuery => (inl ())
    | CallbackExecute a0 => (inr (inl a0))
    | CallbackFatalError a0 => (inr (inr a0)) end)
    (λ y, match y with
    | (inl _) => CallbackQuery
    | (inr (inl a0)) => CallbackExecute a0
    | (inr (inr a0)) => CallbackFatalError a0 end).
Defined.
#[global] Instance CallbackMessage_eq_dec : EqDecision CallbackMessage. Proof. solve_decision. Defined.
#[global] Instance CallbackMessage_countable : Countable CallbackMessage.
Proof.
  by_iso (λ '(mkCallbackMessage a0 a1 a2), (a0, (a1, a2))) (λ '(a0, (a1, a2)), mkCallbackMessage a0 a1 a2).
Defined.
#[global] Instance DispatchMsg_eq_dec : EqDecision DispatchMsg. Proof. solve_decision. Defined.
#[global] Instance DispatchMsg_countable : Countable DispatchMsg.
Proof.
  by_iso (λ '(mkDispatchMsg a0 a1 a2 a3 a4), (a0, (a1, (a2, (a3, a4))))) (λ '(a0, (a1, (a2, (a3, a4)))), mkDispatchMsg a0 a1 a2 a3 a4).
Defined.
#[global] Instance HyperlaneExecuteMsg_eq_dec : EqDecision HyperlaneExecuteMsg. Proof. solve_decision. Defined.
#[global] Instance HyperlaneExecuteMsg_countable : Countable HyperlaneExecuteMsg.
Proof.
  by_iso (λ '(Dispatch a0), a0) Dispatch.
Defined.
#[global] Instance HandleMsg_eq_dec : EqDecision HandleMsg. Proof. solve_decision. Defined.
#[global] Instance HandleMsg_countable : Countable HandleMsg.
Proof.
  by_iso (λ '(mkHandleMsg a0 a1 a2), (a0, (a1, a2))) (λ '(a0, (a1, a2)), mkHandleMsg a0 a1 a2).
Defined.
#[global] Instance PermissionTypeInfo_eq_dec : EqDecision PermissionTypeInfo. Proof. solve_decision. Defined.
#[global] Instance PermissionTypeInfo_countable : Countable PermissionTypeInfo.
Proof.
  by_iso (λ x, match x with
    | WithCallLimitInfo a0 => (inl a0)
    | WithoutCallLimitInfo a0 => (inr a0) end)
    (λ y, match y with
    | (inl a0) => WithCallLimitInfo a0
    | (inr a0) => WithoutCallLimitInfo a0 end).
Defined.
#[global] Instance AuthorizationModeInfo_eq_dec : EqDecision AuthorizationModeInfo. Proof. solve_decision. Defined.
#[global] Instance AuthorizationModeInfo_countable : Countable AuthorizationModeInfo.
Proof.
  by_iso (λ x, match x with
    | PermissionedInfo a0 => (inl a0)
    | PermissionlessInfo => (inr ()) end)
    (λ y, match y with
    | (inl a0) => PermissionedInfo a0
    | (inr _) => PermissionlessInfo end).
Defined.
#[global] Instance PermissionType_countable : Countable PermissionType.
Proof.
  by_iso (λ x, match x with
    | WithCallLimit a0 => (inl a0)
    | WithoutCallLimit a0 => (inr a0) end)
    (λ y, match y with
    | (inl a0) => WithCallLimit a0
    | (inr a0) => WithoutCallLimit a0 end).
Defined.
#[global] Instance AuthorizationMode_countable : Countable AuthorizationMode.
Proof.
  by_iso (λ x, match x with
    | Permissioned a0 => (inl a0)
    | Permissionless => (inr ()) end)
    (λ y, match y with
    | (inl a0) => Permissioned a0
    | (inr _) => Permissionless end).
Defined.
#[global] Instance AuthorizationDuration_eq_dec : EqDecision AuthorizationDuration. Proof. solve_decision. Defined.
#[global] Instance AuthorizationDuration_countable : Countable AuthorizationDuration.
Proof.
  by_iso (λ x, match x with
    | Forever => (inl ())
    | Seconds a0 => (inr (inl a0))
    | Blocks a0 => (inr (inr a0)) end)
    (λ y, match y with
    | (inl _) => Forever
    | (inr (inl a0)) => Seconds a0
    | (inr (inr a0)) => Blocks a0 end).
Defined.
#[global] Instance AuthorizationState_countable : Countable AuthorizationState.
Proof.
  by_iso (λ x, match x with
    | Enabled => (inl ())
    | Disabled => (inr ()) end)
    (λ y, match y with
    | (inl _) => Enabled
    | (inr _) => Disabled end).
Defined.
#[global] Instance AuthorizationInfo_eq_dec : EqDecision AuthorizationInfo. Proof. solve_decision. Defined.
#[global] Instance AuthorizationInfo_countable : Countable AuthorizationInfo.
Proof.
  by_iso (λ '(mkAuthorizationInfo a0 a1 a2 a3 a4 a5 a6), (a0, (a1, (a2, (a3, (a4, (a5, a6))))))) (λ '(a0, (a1, (a2, (a3, (a4, (a5, a6)))))), mkAuthorizationInfo a0 a1 a2 a3 a4 a5 a6).
Defined.
#[global] Instance Authorization_eq_dec : EqDecision Authorization. Proof. solve_decision. Defined.
#[global] Instance Authorization_countable : Countable Authorization.
Proof.
  by_iso (λ '(mkAuthorization a0 a1 a2 a3 a4 a5 a6 a7), (a0, (a1, (a2, (a3, (a4, (a5, (a6, a7)))))))) (λ '(a0, (a1, (a2, (a3, (a4, (a5, (a6, a7))))))), mkAuthorization a0 a1 a2 a3 a4 a5 a6 a7).
Defined.
#[global] Instance ZkAuthorizationInfo_eq_dec : EqDecision ZkAuthorizationInfo. Proof. solve_decision. Defined.
#[global] Instance ZkAuthorizationInfo_countable : Countable ZkAuthorizationInfo.
Proof.
  by_iso (λ '(mkZkAuthorizationInfo a0 a1 a2 a3 a4 a5 a6), (a0, (a1, (a2, (a3, (a4, (a5, a6))))))) (λ '(a0, (a1, (a2, (a3, (a4, (a5, a6)))))), mkZkAuthorizationInfo a0 a1 a2 a3 a4 a5 a6).
Defined.
#[global] Instance ZkAuthorization_eq_dec : EqDecision ZkAuthorization. Proof. solve_decision. Defined.
#[global] Instance ZkAuthorization_countable : Countable ZkAuthorization.
Proof.
  by_iso (λ '(mkZkAuthorization a0 a1 a2 a3 a4 a5 a6 a7), (a0, (a1, (a2, (a3, (a4, (a5, (a6, a7)))))))) (λ '(a0, (a1, (a2, (a3, (a4, (a5, (a6, a7))))))), mkZkAuthorization a0 a1 a2 a3 a4 a5 a6 a7).
Defined.
#[global] Instance ZkMessage_eq_dec : EqDecision ZkMessage. Proof. solve_decision. Defined.
#[global] Instance ZkMessage_countable : Countable ZkMessage.
Proof.
  by_iso (λ '(mkZkMessage a0 a1 a2 a3 a4), (a0, (a1, (a2, (a3, a4))))) (λ '(a0, (a1, (a2, (a3, a4)))), mkZkMessage a0 a1 a2 a3 a4).
Defined.
#[global] Instance PolytoneNoteInfo_eq_dec : EqDecision PolytoneNoteInfo. Proof. solve_decision. Defined.
#[global] Instance PolytoneNoteInfo_countable : Countable PolytoneNoteInfo.
Proof.
  by_iso (λ '(mkPolytoneNoteInfo a0 a1), (a0, a1)) (λ '(a0, a1), mkPolytoneNoteInfo a0 a1).
Defined.
#[global] Instance PolytoneConnectorsInfo_eq_dec : EqDecision PolytoneConnectorsInfo. Proof. solve_decision. Defined.
#[global] Instance PolytoneConnectorsInfo_countable : Countable PolytoneConnectorsInfo.
Proof.
  by_iso (λ '(mkPolytoneConnectorsInfo a0 a1), (a0, a1)) (λ '(a0, a1), mkPolytoneConnectorsInfo a0 a1).
Defined.
#[global] Instance HyperlaneConnectorInfo_eq_dec : EqDecision HyperlaneConnectorInfo. Proof. solve_decision. Defined.
#[global] Instance HyperlaneConnectorInfo_countable : Countable HyperlaneConnectorInfo.
Proof.
  by_iso (λ '(mkHyperlaneConnectorInfo a0 a1), (a0, a1)) (λ '(a0, a1), mkHyperlaneConnectorInfo a0 a1).
Defined.
#[global] Instance CosmwasmBridgeInfo_eq_dec : EqDecision CosmwasmBridgeInfo. Proof. solve_decision. Defined.
#[global] Instance CosmwasmBridgeInfo_countable : Countable CosmwasmBridgeInfo.
Proof.
  by_iso (λ '(PolytoneInfo a0), a0) PolytoneInfo.
Defined.
#[global] Instance EvmBridgeInfo_eq_dec : EqDecision EvmBridgeInfo. Proof. solve_decision. Defined.
#[global] Instance EvmBridgeInfo_countable : Countable EvmBridgeInfo.
Proof.
  by_iso (λ '(HyperlaneInfo a0), a0) HyperlaneInfo.
Defined.
#[global] Instance ExecutionEnvironmentInfo_eq_dec : EqDecision ExecutionEnvironmentInfo. Proof. solve_decision. Defined.
#[global] Instance ExecutionEnvironmentInfo_countable : Countable ExecutionEnvironmentInfo.
Proof.
  by_iso (λ x, match x with
    | EnvCosmwasmInfo a0 => (inl a0)
    | EnvEvmInfo a0 a1 => (inr (a0, a1)) end)
    (λ y, match y with
    | (inl a0) => EnvCosmwasmInfo a0
    | (inr (a0, a1)) => EnvEvmInfo a0 a1 end).
Defined.
#[global] Instance ExternalDomainInfo_eq_dec : EqDecision ExternalDomainInfo. Proof. solve_decision. Defined.
#[global] Instance ExternalDomainInfo_countable : Countable ExternalDomainInfo.
Proof.
  by_iso (λ '(mkExternalDomainInfo a0 a1 a2), (a0, (a1, a2))) (λ '(a0, (a1, a2)), mkExternalDomainInfo a0 a1 a2).
Defined.
#[global] Instance Mint_eq_dec : EqDecision Mint. Proof. solve_decision. Defined.
#[global] Instance Mint_countable : Countable Mint.
Proof.
  by_iso (λ '(mkMint a0 a1), (a0, a1)) (λ '(a0, a1), mkMint a0 a1).
Defined.
#[global] Instance OwnerMsg_eq_dec : EqDecision OwnerMsg. Proof. solve_decision. Defined.
#[global] Instance OwnerMsg_countable : Countable OwnerMsg.
Proof.
  by_iso (λ x, match x with
    | AddSubOwner a0 => (inl a0)
    | RemoveSubOwner a0 => (inr a0) end)
    (λ y, match y with
    | (inl a0) => AddSubOwner a0
    | (inr a0) => RemoveSubOwner a0 end).
Defined.
#[global] Instance PermissionedMsg_eq_dec : EqDecision PermissionedMsg. Proof. solve_decision. Defined.
#[global] Instance PermissionedMsg_countable : Countable PermissionedMsg.
Proof.
  by_iso (λ x, match x with
    | AddExternalDomains a0 => (inl a0)
    | CreateAuthorizations a0 => (inr (inl a0))
    | CreateZkAuthorizations a0 => (inr (inr (inl a0)))
    | ModifyAuthorization a0 a1 a2 a3 a4 => (inr (inr (inr (inl (a0, (a1, (a2, (a3, a4))))))))
    | ModifyZkAuthorization a0 a1 => (inr (inr (inr (inr (inl (a0, a1))))))
    | DisableAuthorization a0 => (inr (inr (inr (inr (inr (inl a0))))))
    | EnableAuthorization a0 => (inr (inr (inr (inr (inr (inr (inl a0)))))))
    | MintAuthorizations a0 a1 => (inr (inr (inr (inr (inr (inr (inr (inl (a0, a1)))))))))
    | PermEvictMsgs a0 a1 a2 => (inr (inr (inr (inr (inr (inr (inr (inr (inl (a0, (a1, a2)))))))))))
    | PermInsertMsgs a0 a1 a2 a3 => (inr (inr (inr (inr (inr (inr (inr (inr (inr (inl (a0, (a1, (a2, a3)))))))))))))
    | PauseProcessor a0 => (inr (inr (inr (inr (inr (inr (inr (inr (inr (inr (inl a0)))))))))))
    | ResumeProcessor a0 => (inr (inr (inr (inr (inr (inr (inr (inr (inr (inr (inr (inl a0))))))))))))
    | SetVerificationRouter a0 => (inr (inr (inr (inr (inr (inr (inr (inr (inr (inr (inr (inr (inl a0)))))))))))))
    | UpdateZkAuthorizationRoute a0 a1 => (inr (inr (inr (inr (inr (inr (inr (inr (inr (inr (inr (inr (inr (a0, a1)))))))))))))) end)
    (λ y, match y with
    | (inl a0) => AddExternalDomains a0
    | (inr (inl a0)) => CreateAuthorizations a0
    | (inr (inr (inl a0))) => CreateZkAuthorizations a0
    | (inr (inr (inr (inl (a0, (a1, (a2, (a3, a4)))))))) => ModifyAuthorization a0 a1 a2 a3 a4
    | (inr (inr (inr (inr (inl (a0, a1)))))) => ModifyZkAuthorization a0 a1
    | (inr (inr (inr (inr (inr (inl a0)))))) => DisableAuthorization a0
    | (inr (inr (inr (inr (inr (inr (inl a0))))))) => EnableAuthorization a0
    | (inr (inr (inr (inr (inr (inr (inr (inl (a0, a1))))))))) => MintAuthorizations a0 a1
    | (inr (inr (inr (inr (inr (inr (inr (inr (inl (a0, (a1, a2))))))))))) => PermEvictMsgs a0 a1 a2
    | (inr (inr (inr (inr (inr (inr (inr (inr (inr (inl (a0, (a1, (a2, a3))))))))))))) => PermInsertMsgs a0 a1 a2 a3
    | (inr (inr (inr (inr (inr (inr (inr (inr (inr (inr (inl a0))))))))))) => PauseProcessor a0
    | (inr (inr (inr (inr (inr (inr (inr (inr (inr (inr (inr (inl a0)))))))))))) => ResumeProcessor a0
    | (inr (inr (inr (inr (inr (inr (inr (inr (inr (inr (inr (inr (inl a0))))))))))))) => SetVerificationRouter a0
    | (inr (inr (inr (inr (inr (inr (inr (inr (inr (inr (inr (inr (inr (a0, a1)))))))))))))) => UpdateZkAuthorizationRoute a0 a1 end).
Defined.
#[global] Instance PermissionlessMsg_eq_dec : EqDecision PermissionlessMsg. Proof. solve_decision. Defined.
#[global] Instance PermissionlessMsg_countable : Countable PermissionlessMsg.
Proof.
  by_iso (λ x, match x with
    | SendMsgs a0 a1 a2 => (inl (a0, (a1, a2)))
    | RetryMsgs a0 => (inr (inl a0))
    | RetryBridgeCreation a0 => (inr (inr (inl a0)))
    | ExecuteZkAuthorization a0 a1 a2 a3 => (inr (inr (inr (a0, (a1, (a2, a3)))))) end)
    (λ y, match y with
    | (inl (a0, (a1, a2))) => SendMsgs a0 a1 a2
    | (inr (inl a0)) => RetryMsgs a0
    | (inr (inr (inl a0))) => RetryBridgeCreation a0
    | (inr (inr (inr (a0, (a1, (a2, a3)))))) => ExecuteZkAuthorization a0 a1 a2 a3 end).
Defined.
#[global] Instance AuthorizationExecuteMsg_eq_dec : EqDecision AuthorizationExecuteMsg. Proof. solve_decision. Defined.
#[global] Instance AuthorizationExecuteMsg_countable : Countable AuthorizationExecuteMsg.
Proof.
  by_iso (λ x, match x with
    | UpdateOwnership a0 => (inl a0)
    | OwnerAction a0 => (inr (inl a0))
    | PermissionedAction a0 => (inr (inr (inl a0)))
    | PermissionlessAction a0 => (inr (inr (inr (inl a0))))
    | InternalAuthorizationAction a0 => (inr (inr (inr (inr (inl a0)))))
    | AuthPolytoneCallback a0 => (inr (inr (inr (inr (inr (inl a0))))))
    | AuthHyperlaneCallback a0 => (inr (inr (inr (inr (inr (inr a0)))))) end)
    (λ y, match y with
    | (inl a0) => UpdateOwnership a0
    | (inr (inl a0)) => OwnerAction a0
    | (inr (inr (inl a0))) => PermissionedAction a0
    | (inr (inr (inr (inl a0)))) => PermissionlessAction a0
    | (inr (inr (inr (inr (inl a0))))) => InternalAuthorizationAction a0
    | (inr (inr (inr (inr (inr (inl a0)))))) => AuthPolytoneCallback a0
    | (inr (inr (inr (inr (inr (inr a0)))))) => AuthHyperlaneCallback a0 end).
Defined.
#[global] Instance AuthPolytoneCallbackMsg_eq_dec : EqDecision AuthPolytoneCallbackMsg. Proof. solve_decision. Defined.
#[global] Instance AuthPolytoneCallbackMsg_countable : Countable AuthPolytoneCallbackMsg.
Proof.
  by_iso (λ x, match x with
    | AuthExecutionID a0 => (inl a0)
    | AuthCreateProxy a0 => (inr a0) end)
    (λ y, match y with
    | (inl a0) => AuthExecutionID a0
    | (inr a0) => AuthCreateProxy a0 end).
Defined.
#[global] Instance Polytone_eq_dec : EqDecision Polytone. Proof. solve_decision. Defined.
#[global] Instance Polytone_countable : Countable Polytone.
Proof.
  by_iso (λ '(mkPolytone a0 a1 a2 a3), (a0, (a1, (a2, a3)))) (λ '(a0, (a1, (a2, a3))), mkPolytone a0 a1 a2 a3).
Defined.
#[global] Instance ProcessorDomain_eq_dec : EqDecision ProcessorDomain. Proof. solve_decision. Defined.
#[global] Instance ProcessorDomain_countable : Countable ProcessorDomain.
Proof.
  by_iso (λ x, match x with
    | ProcMain => (inl ())
    | ProcExternal a0 => (inr a0) end)
    (λ y, match y with
    | (inl _) => ProcMain
    | (inr a0) => ProcExternal a0 end).
Defined.
#[global] Instance ProcessorState_countable : Countable ProcessorState.
Proof.
  by_iso (λ x, match x with
    | Paused => (inl ())
    | Active => (inr ()) end)
    (λ y, match y with
    | (inl _) => Paused
    | (inr _) => Active end).
Defined.
#[global] Instance Config_eq_dec : EqDecision Config. Proof. solve_decision. Defined.
#[global] Instance Config_countable : Countable Config.
Proof.
  by_iso (λ '(mkConfig a0 a1 a2), (a0, (a1, a2))) (λ '(a0, (a1, a2)), mkConfig a0 a1 a2).
Defined.
#[global] Instance CurrentRetry_eq_dec : EqDecision CurrentRetry. Proof. solve_decision. Defined.
#[global] Instance CurrentRetry_countable : Countable CurrentRetry.
Proof.
  by_iso (λ '(mkCurrentRetry a0 a1), (a0, a1)) (λ '(a0, a1), mkCurrentRetry a0 a1).
Defined.
#[global] Instance MessageBatch_eq_dec : EqDecision MessageBatch. Proof. solve_decision. Defined.
#[global] Instance MessageBatch_countable : Countable MessageBatch.
Proof.
  by_iso (λ '(mkMessageBatch a0 a1 a2 a3 a4 a5), (a0, (a1, (a2, (a3, (a4, a5)))))) (λ '(a0, (a1, (a2, (a3, (a4, a5))))), mkMessageBatch a0 a1 a2 a3 a4 a5).
Defined.
#[global] Instance PendingCallback_eq_dec : EqDecision PendingCallback. Proof. solve_decision. Defined.
#[global] Instance PendingCallback_countable : Countable PendingCallback.
Proof.
  by_iso (λ '(mkPendingCallback a0 a1 a2), (a0, (a1, a2))) (λ '(a0, (a1, a2)), mkPendingCallback a0 a1 a2).
Defined.
#[global] Instance PolytoneCallbackState_countable : Countable PolytoneCallbackState.
Proof.
  by_iso (λ x, match x with
    | CbUnexpectedError a0 => (inl a0)
    | CbPending => (inr (inl ()))
    | CbTimedOut => (inr (inr ())) end)
    (λ y, match y with
    | (inl a0) => CbUnexpectedError a0
    | (inr (inl _)) => CbPending
    | (inr (inr _)) => CbTimedOut end).
Defined.
#[global] Instance PendingPolytoneCallbackInfo_eq_dec : EqDecision PendingPolytoneCallbackInfo. Proof. solve_decision. Defined.
#[global] Instance PendingPolytoneCallbackInfo_countable : Countable PendingPolytoneCallbackInfo.
Proof.
  by_iso (λ '(mkPendingPolytoneCallbackInfo a0 a1), (a0, a1)) (λ '(a0, a1), mkPendingPolytoneCallbackInfo a0 a1).
Defined.
#[global] Instance ProcPolytoneCallbackMsg_eq_dec : EqDecision ProcPolytoneCallbackMsg. Proof. solve_decision. Defined.
#[global] Instance ProcPolytoneCallbackMsg_countable : Countable ProcPolytoneCallbackMsg.
Proof.
  by_iso (λ x, match x with
    | ProcExecutionID a0 => (inl a0)
    | ProcCreateProxy => (inr ()) end)
    (λ y, match y with
    | (inl a0) => ProcExecutionID a0
    | (inr _) => ProcCreateProxy end).
Defined.
#[global] Instance PolytoneContracts_eq_dec : EqDecision PolytoneContracts. Proof. solve_decision. Defined.
#[global] Instance PolytoneContracts_countable : Countable PolytoneContracts.
Proof.
  by_iso (λ '(mkPolytoneContracts a0 a1 a2), (a0, (a1, a2))) (λ '(a0, (a1, a2)), mkPolytoneContracts a0 a1 a2).
Defined.
#[global] Instance ProcInstantiateMsg_eq_dec : EqDecision ProcInstantiateMsg. Proof. solve_decision. Defined.
#[global] Instance ProcInstantiateMsg_countable : Countable ProcInstantiateMsg.
Proof.
  by_iso (λ '(mkProcInstantiateMsg a0 a1), (a0, a1)) (λ '(a0, a1), mkProcInstantiateMsg a0 a1).
Defined.
#[global] Instance ProcPermissionlessMsg_eq_dec : EqDecision ProcPermissionlessMsg. Proof. solve_decision. Defined.
#[global] Instance ProcPermissionlessMsg_countable : Countable ProcPermissionlessMsg.
Proof.
  by_iso (λ x, match x with
    | Tick => (inl ())
    | RetryCallback a0 => (inr (inl a0))
    | ProcRetryBridgeCreation => (inr (inr ())) end)
    (λ y, match y with
    | (inl _) => Tick
    | (inr (inl a0)) => RetryCallback a0
    | (inr (inr _)) => ProcRetryBridgeCreation end).
Defined.
#[global] Instance InternalProcessorMsg_eq_dec : EqDecision InternalProcessorMsg. Proof. solve_decision. Defined.
#[global] Instance InternalProcessorMsg_countable : Countable InternalProcessorMsg.
Proof.
  by_iso (λ x, match x with
    | LibraryCallback a0 a1 => (inl (a0, a1))
    | ExecuteAtomic a0 => (inr a0) end)
    (λ y, match y with
    | (inl (a0, a1)) => LibraryCallback a0 a1
    | (inr a0) => ExecuteAtomic a0 end).
Defined.
#[global] Instance ProcessorExecuteMsg_eq_dec : EqDecision ProcessorExecuteMsg. Proof. solve_decision. Defined.
#[global] Instance ProcessorExecuteMsg_countable : Countable ProcessorExecuteMsg.
Proof.
  by_iso (λ x, match x with
    | AuthorizationModuleAction a0 => (inl a0)
    | ProcPermissionlessAction a0 => (inr (inl a0))
    | InternalProcessorAction a0 => (inr (inr (inl a0)))
    | ProcPolytoneCallback a0 => (inr (inr (inr a0))) end)
    (λ y, match y with
    | (inl a0) => AuthorizationModuleAction a0
    | (inr (inl a0)) => ProcPermissionlessAction a0
    | (inr (inr (inl a0))) => InternalProcessorAction a0
    | (inr (inr (inr a0))) => ProcPolytoneCallback a0 end).
Defined.

(** ** Serialization as bits *)
Fixpoint bits_of_positive (p : positive) : list byte :=
  match p with
  | xH => []
  | xO p => x00 :: bits_of_positive p
  | xI p => x01 :: bits_of_positive p
  end.
Fixpoint positive_of_bits (l : list byte) : positive :=
  match l with
  | [] => xH
  | x00 :: l => xO (positive_of_bits l)
  | _ :: l => xI (positive_of_bits l)
  end.
Lemma positive_of_bits_of_positive p : positive_of_bits (bits_of_positive p) = p.
Proof. by induction p as [p IH|p IH|]; simpl; rewrite ?IH. Qed.

#[global] Instance ref_codec {A} `{Countable A} : JsonCodec A := {
  to_json_binary x := Ok (bits_of_positive (encode x));
  from_json b := match decode (positive_of_bits b) with
                 | Some x => Ok x
                 | None => Err (ExternalErr "parse")
                 end;
}.
#[global] Instance ref_codec_laws {A} `{Countable A} : JsonCodecLaws A.
Proof.
  split.
  - intros x. by eexists.
  - intros x b [= <-]. simpl. by rewrite positive_of_bits_of_positive, decode_encode.
Qed.

(** ** [cosmwasm_std] and [cw_utils] *)
Definition ref_nanos : N := 1000000000.
Definition ref_hex_digit (a : Ascii.ascii) : option N :=
  let n := Ascii.N_of_ascii a in
  if ((48 <=? n) && (n <=? 57))%N then Some (n - 48)%N
  else if ((97 <=? n) && (n <=? 102))%N then Some (n - 87)%N
  else None.
Fixpoint ref_from_hex (s : string) : option (list byte) :=
  match s with
  | EmptyString => Some []
  | String a (String b s) =>
      x ← ref_hex_digit a; y ← ref_hex_digit b; c ← Byte.of_N (16 * x + y);
      l ← ref_from_hex s; Some (c :: l)
  | _ => None
  end.
#[global] Instance ref_platform : Platform := {
  addr_validate a := if bool_decide (a = "") then Err (GenericErr "empty address") else Ok a;
  timestamp_seconds t := (t / ref_nanos)%N;
  timestamp_plus_seconds t s := checked_add u64_max t (s * ref_nanos);
  is_expired e b := match e with
                    | AtHeight h => (h <=? block_height b)%N
                    | AtTime t => (t <=? block_time b)%N
                    | Never => false
                    end;
  duration_after d b := match d with
                        | DurHeight h => AtHeight <$> checked_add u64_max (block_height b) h
                        | DurTime s => AtTime <$> checked_add u64_max (block_time b) (s * ref_nanos)
                        end;
  must_pay info denom := match info_funds info with
                         | [c] => if bool_decide (coin_denom c = denom ∧ coin_amount c ≠ 0%N)
                                  then Ok (coin_amount c) else Err (GenericErr "payment")
                         | _ => Err (GenericErr "payment")
                         end;
  hex_from_hex s := match ref_from_hex s with
                    | Some l => Ok l
                    | None => Err (GenericErr "hex")
                    end;
}.
#[global] Instance ref_platform_laws : PlatformLaws.
Proof.
  split; try done.
  - intros a x Ha. simpl in Ha. by case_bool_decide; simplify_eq.
  - intros h b e He. simpl in He. unfold checked_add in He. by case_match; simplify_eq/=.
  - intros t b e He. cbn -[N.mul] in He. unfold checked_add in He. by case_match; simplify_eq/=.
  - intros denom sender amount Ha. simpl. rewrite bool_decide_eq_true_2; [done|]. split; [done|lia].
  - intros denom sender. by eexists.
Qed.

(** ** [serde_json]: objects over numbers *)
Inductive RefValue := RNum (n : N) | RObj (kvs : list (string * RefValue)).
Definition ref_get (v : RefValue) (k : string) : option RefValue :=
  match v with
  | RObj kvs => snd <$> find (λ kv : string * RefValue, bool_decide (kv.1 = k)) kvs
  | RNum _ => None
  end.
Fixpoint ref_eqb (v w : RefValue) : bool :=
  match v, w with
  | RNum n, RNum m => (n =? m)%N
  | RObj l, RObj k =>
      (fix go l k := match l, k with
       | [], [] => true
       | (a, x) :: l, (b, y) :: k => bool_decide (a = b) && ref_eqb x y && go l k
       | _, _ => false
       end) l k
  | _, _ => false
  end.
(** Any input is read as the call of a message [msg] without parameters. *)
#[global] Instance ref_serde_json : SerdeJson := {
  Value := RefValue;
  value_from_slice b := match b with [] => Err "EOF" | _ => Ok (RObj [("msg", RObj [])]) end;
  value_to_vec _ := Ok [x7b; x7d];
  value_object := RObj;
  as_object v := match v with RObj kvs => Some kvs | RNum _ => None end;
  object_insert kvs k v := kvs ++ [(k, v)];
  value_u64 := RNum;
  value_get := ref_get;
  value_pointer v _ := Some v;
  value_eqb := ref_eqb;
}.

(** ** [cw_ownable] *)
#[global] Instance ref_cw_ownable : CwOwnable := {
  initialize_owner o := Ok (mkOwnership o None None);
  assert_owner o a :=
    match o with
    | Some ow => if bool_decide (own_owner ow = Some a) then Ok ()
                 else Err (OwnershipErr "Caller is not the contract's current owner")
    | None => Err (OwnershipErr "not found")
    end;
  is_owner o a :=
    match o with
    | Some ow => Ok (bool_decide (own_owner ow = Some a))
    | None => Err NotFound
    end;
  update_ownership_lib o b sender action :=
    match o with
    | None => Err (OwnershipErr "not found")
    | Some ow =>
        match action with
        | TransferOwnership new_owner expiry =>
            if bool_decide (own_owner ow = Some sender)
            then Ok (mkOwnership (own_owner ow) (Some new_owner) expiry)
            else Err (OwnershipErr "not owner")
        | AcceptOwnership =>
            if bool_decide (own_pending_owner ow = Some sender)
            then Ok (mkOwnership (Some sender) None None)
            else Err (OwnershipErr "not pending owner")
        | RenounceOwnership =>
            if bool_decide (own_owner ow = Some sender)
            then Ok (mkOwnership None None None)
            else Err (OwnershipErr "not owner")
        end
    end;
  into_attributes ow := [("owner", default "none" (own_owner ow))];
}.
#[global] Instance ref_cw_ownable_laws : CwOwnableLaws.
Proof.
  split.
  - intros [ow|] a; simpl; [|naive_solver]. case_bool_decide; naive_solver.
  - intros ow a b; simpl. naive_solver.
Qed.

(** ** Token factory messages *)
#[global] Instance ref_token_factory : TokenFactoryProto := {
  MsgCreateDenom_to_bytes m := Some (bits_of_positive (encode (cd_sender m, cd_subdenom m)));
  MsgMint_to_bytes m :=
    Some (bits_of_positive (encode (mm_sender m,
      ((λ c, (proto_denom c, proto_amount c)) <$> mm_amount m, mm_mint_to_address m))));
  MsgBurn_to_bytes m :=
    Some (bits_of_positive (encode (mb_sender m,
      ((λ c, (proto_denom c, proto_amount c)) <$> mb_amount m, mb_burn_from_address m))));
}.
#[global] Instance ref_token_factory_laws : TokenFactoryProtoLaws.
Proof. split; intros m; by eexists. Qed.
