(* ===== verification/LibraryCodec.v ===== *)
(** * Reference implementations of the interfaces of accounts and libraries

    As [Codec], for the classes of [Accounts] and [LibraryBase]; the witnesses run the
    libraries with them. *)
From Stdlib Require Import Strings.Byte Strings.Ascii.
From S2P Require Import Prelude Platform Types Codec Format Accounts InterchainAccount Protocols LibraryBase.

#[global] Instance ReplyOn_eq_dec : EqDecision ReplyOn. Proof. solve_decision. Defined.
#[global] Instance ReplyOn_countable : Countable ReplyOn.
Proof.
  by_iso (λ x, match x with ReplyNever => None | ReplyAlways => Some true | ReplySuccess => Some false end)
    (λ y, match y with None => ReplyNever | Some true => ReplyAlways | Some false => ReplySuccess end).
Defined.
#[global] Instance SubMsg_eq_dec : EqDecision SubMsg. Proof. solve_decision. Defined.
#[global] Instance SubMsg_countable : Countable SubMsg.
Proof. by_iso (λ '(mkSubMsg a b c d), (a, (b, (c, d)))) (λ '(a, (b, (c, d))), mkSubMsg a b c d). Defined.
#[global] Instance AccountExecuteMsg_eq_dec : EqDecision AccountExecuteMsg.
Proof. solve_decision. Defined.
#[global] Instance AccountExecuteMsg_countable : Countable AccountExecuteMsg.
Proof.
  by_iso (λ x, match x with
    | AccApproveLibrary a => inl (inl a)
    | AccRemoveLibrary a => inl (inr a)
    | AccExecuteMsg a => inr (inl a)
    | AccExecuteSubmsgs a b => inr (inr (inl (a, b)))
    | AccUpdateOwnership a => inr (inr (inr a)) end)
    (λ y, match y with
    | inl (inl a) => AccApproveLibrary a
    | inl (inr a) => AccRemoveLibrary a
    | inr (inl a) => AccExecuteMsg a
    | inr (inr (inl (a, b))) => AccExecuteSubmsgs a b
    | inr (inr (inr a)) => AccUpdateOwnership a end).
Defined.
#[global] Instance Event_eq_dec : EqDecision Event. Proof. solve_decision. Defined.
#[global] Instance Event_countable : Countable Event.
Proof. by_iso (λ '(mkEvent a b), (a, b)) (λ '(a, b), mkEvent a b). Defined.
#[global] Instance SubMsgResponse_eq_dec : EqDecision SubMsgResponse. Proof. solve_decision. Defined.
#[global] Instance SubMsgResponse_countable : Countable SubMsgResponse.
Proof. by_iso (λ '(mkSubMsgResponse a b c), (a, (b, c))) (λ '(a, (b, c)), mkSubMsgResponse a b c). Defined.
#[global] Instance SubMsgOutcome_eq_dec : EqDecision SubMsgOutcome. Proof. solve_decision. Defined.
#[global] Instance SubMsgOutcome_countable : Countable SubMsgOutcome.
Proof.
  by_iso (λ x, match x with OutcomeOk a => inl a | OutcomeErr a => inr a end)
    (λ y, match y with inl a => OutcomeOk a | inr a => OutcomeErr a end).
Defined.
#[global] Instance ValenceCallback_eq_dec : EqDecision ValenceCallback. Proof. solve_decision. Defined.
#[global] Instance ValenceCallback_countable : Countable ValenceCallback.
Proof. by_iso (λ '(mkValenceCallback a b c), (a, (b, c))) (λ '(a, (b, c)), mkValenceCallback a b c). Defined.

(** ** Texts as bits *)
Fixpoint text_of_positive (p : positive) : string :=
  match p with
  | xH => EmptyString
  | xO p => String "0"%char (text_of_positive p)
  | xI p => String "1"%char (text_of_positive p)
  end.
Fixpoint positive_of_text (t : string) : positive :=
  match t with
  | EmptyString => xH
  | String "0"%char t => xO (positive_of_text t)
  | String _ t => xI (positive_of_text t)
  end.
Lemma positive_of_text_of_positive p : positive_of_text (text_of_positive p) = p.
Proof. by induction p as [p IH|p IH|]; simpl; rewrite ?IH. Qed.
#[global] Instance ref_json_text {A} `{Countable A} : JsonText A := {
  to_json_string x := Ok (text_of_positive (encode x));
  from_json_text t := match decode (positive_of_text t) with
                      | Some x => Ok x
                      | None => Err (ExternalErr "parse")
                      end;
}.
#[global] Instance ref_json_text_laws {A} `{Countable A} : JsonTextLaws A.
Proof.
  split.
  - intros x. by eexists.
  - intros x t [= <-]. simpl. by rewrite positive_of_text_of_positive, decode_encode.
Qed.
#[global] Instance ref_ownable_debug : CwOwnableDebug := {
  debug_action _ := "action";
  debug_ownership _ := "ownership";
}.

(** ** Numbers and denominations *)
#[global] Instance ref_cosm_math : CosmMath := {
  multiply_ratio a n d :=
    if (d =? 0)%N then None
    else let r := (a * n / d)%N in if (r <=? u128_max)%N then Some r else None;
  checked_multiply_ratio a n d :=
    if (d =? 0)%N then Err "Denominator must not be zero"
    else let r := (a * n / d)%N in if (r <=? u128_max)%N then Ok r else Err "Multiplication overflow";
  to_uint_ceil d := ((d + (decimal_one - 1)) / decimal_one)%N;
  decimal_add := checked_add u128_max;
  uint128_checked_div a b := if (b =? 0)%N then Err (GenericErr "Divide by zero") else Ok (a / b)%N;
  uint128_checked_mul a b :=
    if (a * b <=? u128_max)%N then Ok (a * b)%N else Err (GenericErr "Overflow");
  uint128_checked_add a b :=
    if (a + b <=? u128_max)%N then Ok (a + b)%N else Err (GenericErr "Overflow");
  uint128_checked_sub a b := if (b <=? a)%N then Ok (a - b)%N else Err (GenericErr "Overflow");
}.
#[global] Instance ref_cosm_math_laws : CosmMathLaws.
Proof.
  split; try done.
  - intros a n d r. cbn -[N.div N.mul u128_max].
    destruct (N.eqb_spec d 0); [naive_solver|]. destruct (N.leb_spec (a * n / d) u128_max); naive_solver lia.
  - intros a n d r. cbn -[N.div N.mul u128_max].
    destruct (N.eqb_spec d 0); [naive_solver|]. destruct (N.leb_spec (a * n / d) u128_max); naive_solver lia.
  - intros a b r. cbn -[N.div]. destruct (N.eqb_spec b 0); naive_solver.
  - intros a b r. cbn -[N.mul u128_max].
    destruct (N.leb_spec (a * b) u128_max); naive_solver lia.
  - intros a b r. cbn -[N.add u128_max].
    destruct (N.leb_spec (a + b) u128_max); naive_solver lia.
  - intros a b r. cbn -[N.sub]. destruct (N.leb_spec b a); naive_solver lia.
Qed.
#[global] Instance ref_cw_denom : CwDenom := {
  get_transfer_to_message d who amount :=
    match d with
    | CheckedNative d => Ok (CosmosBankSend who [mkCoin d amount])
    | CheckedCw20 a => Ok (CosmosWasm (WasmExecute a (bits_of_positive (encode (who, amount))) []))
    end;
  checked_denom_to_string d := match d with CheckedNative d => d | CheckedCw20 a => a end;
  std_error_to_string e := match e with GenericErr m => m | NotFound => "not found" | ExternalErr m => m end;
}.
#[global] Instance ref_cw_denom_laws : CwDenomLaws.
Proof. split; [done|]. intros a who amount. by eexists. Qed.
#[global] Instance ref_hash_order : HashOrder := { hash_iter V m := map_to_list m }.
#[global] Instance ref_hash_order_laws : HashOrderLaws.
Proof. by split. Qed.

(** A chain on which every account holds [balance] of everything. *)
Definition ref_into_checked (d : UncheckedDenom) : result string CheckedDenom :=
  match d with
  | UncheckedNative s => Ok (CheckedNative s)
  | UncheckedCw20 s => Ok (CheckedCw20 s)
  end.
(** No protocol answers. *)
Definition no_answer {A} : result StdError A := Err (GenericErr "no such contract").
Definition no_protocols : ProtocolQuerier :=
  mkProtocolQuerier (λ _ _, no_answer) (λ _, no_answer) (λ _ _ _, no_answer) (λ _ _, no_answer)
    (λ _ _, no_answer) (λ _ _, no_answer) (λ _, no_answer) no_answer (λ _, no_answer)
    (λ _, Err "no such query") (λ _ _, no_answer).
Definition ref_lib_querier (balance : N) : LibQuerier :=
  mkLibQuerier (λ _ _, Ok balance) ref_into_checked (λ _ _, Ok balance)
    (λ _ ds _, Ok (list_to_map ((λ d, (d, decimal_one)) <$> ds)))
    (Ok (mkIbcFee [] [mkCoin "untrn" 10; mkCoin "uatom" 1] [mkCoin "untrn" 20]))
    (λ _, Ok (IcaCreated (mkIcaInformation "remote" "port" "connection-0")))
    no_protocols.
Definition with_protocols (q : LibQuerier) (p : ProtocolQuerier) : LibQuerier :=
  mkLibQuerier (q_bank_balance q) (q_into_checked q) (q_denom_balance q) (q_dynamic_ratio q)
    (q_min_ibc_fee q) (q_ica_state q) p.
(** A chain with these contracts. *)
Definition with_contracts (q : LibQuerier) (answer : string → Binary → result StdError Binary)
    : LibQuerier :=
  let p := q_protocols q in
  with_protocols q (mkProtocolQuerier (pq_mars_accounts p) (pq_pool p) (pq_spot_price p)
    (pq_join_no_swap_shares p) (pq_join_shares p) (pq_exit_coins p) (pq_position p)
    (pq_icq_deposit p) (pq_icq_registered_deposit p) (pq_icq_result p) answer).
#[global] Instance ref_lib_querier_laws balance : LibQuerierLaws (ref_lib_querier balance).
Proof. split; intros d c [= <-]; done. Qed.

(** ** The packages of the DeFi libraries *)
Definition check_i64 (z : Z) : result StdError Z :=
  if (i64_min <=? z)%Z && (z <=? i64_max)%Z then Ok z else Err (GenericErr "Overflow").
Lemma check_i64_ok z r : check_i64 z = Ok r ↔ r = z ∧ in_i64 r.
Proof.
  unfold check_i64, in_i64. destruct (Z.leb_spec i64_min z), (Z.leb_spec z i64_max); simpl; naive_solver lia.
Qed.
(** Euclidean division by a divisor of any sign. *)
Definition div_euclid (a b : Z) : Z := (Z.sgn b * (a / Z.abs b))%Z.
Lemma div_euclid_spec a b r :
  b ≠ 0%Z → r = div_euclid a b ↔ ∃ m, (a = b * r + m ∧ 0 ≤ m < Z.abs b)%Z.
Proof.
  intros Hb. assert (0 < Z.abs b)%Z as Hpos by lia. unfold div_euclid.
  assert (b = Z.sgn b * Z.abs b)%Z as Hs by lia. assert (Z.sgn b * Z.sgn b = 1)%Z as H1 by lia.
  revert Hs H1 Hpos. generalize (Z.sgn b) (Z.abs b). intros s d -> H1 Hd. split.
  - intros ->. exists (a mod d)%Z. pose proof (Z.mod_pos_bound a d Hd). pose proof (Z.div_mod a d).
    replace (s * d * (s * (a / d)))%Z with (s * s * (d * (a / d)))%Z by ring. rewrite H1. lia.
  - intros (m & -> & Hm). rewrite <-(Z.div_unique_pos (s * d * r + m) d (s * r) m) by lia.
    rewrite Z.mul_assoc, H1. lia.
Qed.
#[global] Instance ref_int64_math : Int64Math := {
  int64_checked_add a b := check_i64 (a + b);
  int64_checked_sub a b := check_i64 (a - b);
  int64_checked_mul a b := check_i64 (a * b);
  int64_checked_div_euclid a b :=
    if (b =? 0)%Z then Err "Divide by zero"
    else map_err_r (λ _, "Overflow") (check_i64 (div_euclid a b));
  int64_try_from_uint64 n := ok_or_r (i64_try_from n) (GenericErr "Conversion error");
}.
#[global] Instance ref_int64_math_laws : Int64MathLaws.
Proof.
  split; intros; simpl; rewrite ?check_i64_ok, ?ok_or_r_ok; try done.
  destruct (Z.eqb_spec b 0) as [->|Hb].
  - split; [done|]. intros [(m & _ & Hm) _]. simpl in Hm. lia.
  - rewrite map_err_r_ok, check_i64_ok, div_euclid_spec by done. done.
Qed.

Definition ref_any (url : string) {A} `{Countable A} (x : A) : CosmosMsg :=
  CosmosStargate url (bits_of_positive (encode x)).
Definition ref_any_get {A} `{Countable A} (a : AnyMsg) : option A := decode (positive_of_bits (any_value a)).
(** Of the decimals, the whole ones. *)
Definition ref_from_str (scale : N) (t : string) : result StdError N :=
  ok_or_r ((λ n, n * scale)%N <$> parse_u64 t) (GenericErr "parse").
#[global] Instance ProtoCoin_eq_dec : EqDecision ProtoCoin. Proof. solve_decision. Defined.
#[global] Instance ProtoCoin_countable : Countable ProtoCoin.
Proof. by_iso (λ '(mkProtoCoin a b), (a, b)) (λ '(a, b), mkProtoCoin a b). Defined.
(** Pools are serialized tuples; the answer of a created position is its id in the data. *)
#[global] Instance ref_osmosis_proto : OsmosisProto := {
  ClPool_try_from a :=
    '(t0, t1, tick, spacing) ← ref_any_get (A := string * string * Z * N) a;
    Some (mkClPool t0 t1 tick spacing);
  GammPool_try_from a :=
    '(assets, shares) ← ref_any_get (A := list (option ProtoCoin) * option ProtoCoin) a;
    Some (mkGammPool assets shares);
  MsgJoinPool_into m := ref_any "/osmosis.gamm.v1beta1.MsgJoinPool"
    (jp_sender m, jp_pool_id m, jp_share_out_amount m, jp_token_in_maxs m);
  MsgExitPool_into m := ref_any "/osmosis.gamm.v1beta1.MsgExitPool"
    (xp_sender m, xp_pool_id m, xp_share_in_amount m, xp_token_out_mins m);
  MsgJoinSwapExternAmountIn_into m := ref_any "/osmosis.gamm.v1beta1.MsgJoinSwapExternAmountIn"
    (js_sender m, js_pool_id m, js_token_in m, js_share_out_min_amount m);
  MsgCreatePosition_into m := ref_any "/osmosis.concentratedliquidity.v1beta1.MsgCreatePosition"
    (cp_pool_id m, cp_sender m, cp_lower_tick m, cp_upper_tick m, cp_tokens_provided m,
     cp_token_min_amount0 m, cp_token_min_amount1 m);
  MsgWithdrawPosition_into m := ref_any "/osmosis.concentratedliquidity.v1beta1.MsgWithdrawPosition"
    (wp_position_id m, wp_sender m, wp_liquidity_amount m);
  MsgTransferPositions_into m := ref_any "/osmosis.concentratedliquidity.v1beta1.MsgTransferPositions"
    (tp_position_ids m, tp_sender m, tp_new_owner m);
  MsgCreatePositionResponse_try_from o :=
    match o with
    | OutcomeOk r => ok_or_r (response_data r ≫= λ b, decode (positive_of_bits b)) (GenericErr "decode")
    | OutcomeErr e => Err (GenericErr e)
    end;
  MsgWithdrawPositionResponse_try_from o :=
    match o with
    | OutcomeOk r => ok_or_r (response_data r ≫= λ b, decode (positive_of_bits b)) (GenericErr "decode")
    | OutcomeErr e => Err (GenericErr e)
    end;
  cosmwasm_to_proto_coins cs := (λ c, mkProtoCoin (coin_denom c) (pretty (coin_amount c))) <$> cs;
  try_proto_to_cosmwasm_coins cs := 
    ok_or_r (mapM (λ c, mkCoin (proto_denom c) <$> parse_u64 (proto_amount c)) cs) (GenericErr "parse");
}.
#[global] Instance ref_number_text : NumberText := {
  uint128_from_str := ref_from_str 1;
  decimal_from_str := ref_from_str decimal_one;
  decimal256_from_str := ref_from_str decimal_one;
  decimal256_to_string n := pretty (n / decimal_one)%N;
}.
