(* ===== verification/AccountsTheorems.v ===== *)
(** * Accounts: who is obeyed, and the relay of replies

    Runs of an account are the transactions that succeeded, after its instantiation;
    the abstract specification of the approvals is a set, folded over the run. *)
From Stdlib Require Import Strings.Byte.
From S2P Require Import Prelude Platform Types Format Accounts LibraryBase Codec LibraryCodec.

(** ** The approvals of a run *)
Section Approvals.
Context `{Platform}.

(** The address a text stands for, when it is valid. *)
Definition valid_addr (a : string) : option Addr := unwrap_result (addr_validate a).
Lemma valid_addr_ok a x : addr_validate a = Ok x → valid_addr a = Some x.
Proof. unfold valid_addr. by intros ->. Qed.
Definition approval_step (A : gset Addr) (msg : AccountExecuteMsg) : gset Addr :=
  match msg with
  | AccApproveLibrary l => match valid_addr l with Some a => {[a]} ∪ A | None => A end
  | AccRemoveLibrary l => match valid_addr l with Some a => A ∖ {[a]} | None => A end
  | _ => A
  end.
(** The libraries the admin approved, and did not remove since. *)
Definition approvals (m0 : AccInstantiateMsg) (log : list AccountExecuteMsg) : gset Addr :=
  foldl approval_step (list_to_set (omap valid_addr (acc_approved_libraries m0))) log.
End Approvals.

Section BaseAccountProofs.
Import BaseAccount.
Context `{CPl : Platform} `{COw : CwOwnable} `{CDb : CwOwnableDebug} `{CJt : JsonText ValenceCallback}.

#[global] Instance base_assert_owner_ro a : ReadOnly (BaseAccount.assert_owner_ a).
Proof. unfold assert_owner_. apply _. Qed.
#[global] Instance base_assert_owner_or_library_ro a :
  ReadOnly (BaseAccount.assert_owner_or_library a).
Proof. unfold assert_owner_or_library. apply _. Qed.

Definition account_owner (s : storage) : option Addr := s_ownership s ≫= own_owner.
Definition approved (s : storage) : gset Addr := dom (s_approved_libraries s).

(** The account after its instantiation and the messages [log]. *)
Inductive account_run (m0 : AccInstantiateMsg) : list AccountExecuteMsg → storage → Prop :=
| account_start env info r s :
    instantiate env info m0 empty_storage = Ok (r, s) → account_run m0 [] s
| account_tx log env info msg r s s' :
    account_run m0 log s → execute env info msg s = Ok (r, s') → account_run m0 (log ++ [msg]) s'.

Lemma approve_all_ok libs (s s' : storage) u :
  for_each libs (λ library,
    addr ← of_result (addr_validate library);
    map_save APPROVED_LIBRARIES addr () : Exec storage StdError unit) s = Ok (u, s') →
  approved s' = approved s ∪ list_to_set (omap valid_addr libs) ∧ s_ownership s' = s_ownership s.
Proof.
  revert s. induction libs as [|l libs IH]; intros s; simpl.
  - intros [_ <-]%mret_ok. split; [set_solver|done].
  - intros (? & s1 & Hl & Hs)%Exec_bind_ok. run_inv.
    apply IH in Hs as [-> ->]. erewrite valid_addr_ok by done. split; [|done].
    unfold approved. simpl. rewrite dom_insert_L. set_solver.
Qed.

Lemma instantiate_account env info m0 r s :
  instantiate env info m0 empty_storage = Ok (r, s) →
  approved s = approvals m0 [] ∧ is_Some (s_ownership s).
Proof.
  unfold instantiate. intros Hi. run_inv.
  match goal with H : for_each _ _ _ = Ok _ |- _ => apply approve_all_ok in H as [-> ->] end.
  unfold approvals, approved. simpl. rewrite dom_empty_L. split; [set_solver|done].
Qed.

(** Every message changes the approvals as the specification does. *)
Lemma execute_approvals env info msg s r s' :
  execute env info msg s = Ok (r, s') →
  approved s' = approval_step (approved s) msg ∧ (is_Some (s_ownership s) → is_Some (s_ownership s')).
Proof.
  unfold execute, approve_library, remove_library, execute_msg, update_ownership, execute_submsgs.
  intros He. destruct msg; run_inv;
    repeat match goal with
    | H : addr_validate _ = Ok _ |- _ => apply valid_addr_ok in H; rewrite H
    end; unfold approved; simpl; rewrite ?dom_insert_L, ?dom_delete_L; split; try done; by eexists.
Qed.
Lemma account_run_approvals m0 log s :
  account_run m0 log s → approved s = approvals m0 log ∧ is_Some (s_ownership s).
Proof.
  induction 1 as [env info r s Hi|log env info msg r s s' _ [Ha Ho] He].
  - by eapply instantiate_account.
  - apply execute_approvals in He as [-> Ho']. rewrite Ha. split; [|auto].
    unfold approvals. by rewrite foldl_app.
Qed.

Context `{!CwOwnableLaws}.

Lemma assert_owner_or_library_run sender s o :
  s_ownership s = Some o →
  assert_owner_or_library sender s =
    if bool_decide (account_owner s = Some sender ∨ sender ∈ approved s)
    then Ok ((), s) else Err (AccUnauthorized NotAdminOrApprovedLibrary).
Proof.
  intros Ho. unfold assert_owner_or_library, account_owner, approved, map_has.
  unfold mbind, Exec_bind, get_storage, of_result, fail_if. rewrite Ho.
  rewrite (proj2 (is_owner_spec o sender _) eq_refl). simpl.
  destruct (s_approved_libraries s !! sender) as [u|] eqn:Hl.
  - assert (sender ∈ dom (s_approved_libraries s)) by (by apply elem_of_dom_2 in Hl).
    rewrite orb_true_r. rewrite bool_decide_eq_true_2 by auto. done.
  - assert (sender ∉ dom (s_approved_libraries s)) by (by apply not_elem_of_dom).
    rewrite orb_false_r. repeat case_bool_decide; naive_solver.
Qed.
Lemma execute_msg_run env info msgs s :
  is_Some (s_ownership s) → account_owner s = Some (info_sender info) ∨ info_sender info ∈ approved s →
  ∃ r, execute env info (AccExecuteMsg msgs) s = Ok (r, s) ∧ resp_messages r = SubMsg_new <$> msgs.
Proof.
  intros [o Ho] Ha. simpl. unfold execute_msg.
  erewrite Exec_bind_run
    by (rewrite (assert_owner_or_library_run _ _ o), bool_decide_eq_true_2; done).
  by eexists.
Qed.
(** Messages leave the account only for its admin and approved libraries. *)
Lemma execute_emits env info msg s r s' :
  is_Some (s_ownership s) →
  execute env info msg s = Ok (r, s') → resp_messages r ≠ [] →
  account_owner s = Some (info_sender info) ∨ info_sender info ∈ approved s.
Proof.
  intros [o Ho] He Hr. destruct msg; simpl in He.
  - unfold approve_library in He. by run_inv.
  - unfold remove_library in He. by run_inv.
  - unfold execute_msg in He. apply Exec_bind_ok in He as (u & s1 & Hu & _).
    rewrite (assert_owner_or_library_run _ _ o) in Hu by done. by case_bool_decide.
  - unfold execute_submsgs in He. run_inv. right. apply elem_of_dom.
    match goal with Hn : negb _ = false |- _ => apply negb_false_iff in Hn as Hn' end.
    by apply bool_decide_eq_true_1 in Hn'.
  - unfold update_ownership in He. by run_inv.
Qed.
End BaseAccountProofs.

(** C20 Whom an account obeys.  In every run of a base account, whatever its
    transactions: the admin and the libraries that were approved at instantiation or by
    a later [ApproveLibrary], and not removed since, get any messages executed,
    unchanged and in order; sub-messages with replies are executed for those libraries
    only; and no message leaves the account for anybody else. *)
Theorem account_obeys_admin_and_approved
    `{Platform} `{COw : CwOwnable} `{!CwOwnableLaws} `{CwOwnableDebug} `{JsonText ValenceCallback}
    (m0 : AccInstantiateMsg) (log : list AccountExecuteMsg) (s : BaseAccount.storage) :
  account_run m0 log s →
  ∀ env info,
    let trusted := account_owner s = Some (info_sender info) ∨
                   info_sender info ∈ approvals m0 log in
    (∀ msgs, trusted → ∃ r, BaseAccount.execute env info (AccExecuteMsg msgs) s = Ok (r, s) ∧
       resp_messages r = SubMsg_new <$> msgs) ∧
    (∀ msgs payload, info_sender info ∈ approvals m0 log →
       ∃ r, BaseAccount.execute env info (AccExecuteSubmsgs msgs payload) s = Ok (r, s) ∧
       resp_messages r = msgs) ∧
    (∀ msgs payload, info_sender info ∉ approvals m0 log →
       BaseAccount.execute env info (AccExecuteSubmsgs msgs payload) s =
         Err (AccUnauthorized NotApprovedLibrary)) ∧
    (∀ msg r s', BaseAccount.execute env info msg s = Ok (r, s') → resp_messages r ≠ [] → trusted).
Proof.
  intros Hrun env info trusted. apply account_run_approvals in Hrun as [Ha Ho].
  unfold trusted. rewrite <-Ha. split_and!.
  - intros msgs Ht. by apply execute_msg_run.
  - unfold approved. intros msgs payload [u Hl]%elem_of_dom. simpl. unfold BaseAccount.execute_submsgs.
    unfold mbind, Exec_bind, map_has, fail_if. simpl. rewrite Hl. simpl.
    eexists. split; [done|]. by destruct payload.
  - unfold approved. intros msgs payload Hl%not_elem_of_dom. simpl. unfold BaseAccount.execute_submsgs.
    unfold mbind, Exec_bind, map_has, fail_if. simpl. by rewrite Hl.
  - intros msg r s' He Hr. by eapply execute_emits.
Qed.


(** An account whose admin approved "forwarder" at the start and "splitter" later, and
    then removed "forwarder". *)
Definition sample_account_tx (msg : AccountExecuteMsg) : Exec BaseAccount.storage AccError Response :=
  BaseAccount.execute (mkEnv (mkBlock 1 1) "account") (mkInfo "admin" []) msg.
Definition sample_account_log : list AccountExecuteMsg :=
  [AccApproveLibrary "splitter"; AccRemoveLibrary "forwarder"].
Definition sample_account_init : Exec BaseAccount.storage StdError Response :=
  BaseAccount.instantiate (mkEnv (mkBlock 1 1) "account") (mkInfo "admin" [])
    (mkAccInstantiateMsg "admin" ["forwarder"]).
Definition sample_account : BaseAccount.storage :=
  after_all (sample_account_tx <$> sample_account_log)
    (after sample_account_init BaseAccount.empty_storage).
Lemma sample_account_run :
  account_run (mkAccInstantiateMsg "admin" ["forwarder"]) sample_account_log sample_account.
Proof.
  unfold sample_account, sample_account_log, after_all. simpl.
  set (s0 := after sample_account_init BaseAccount.empty_storage).
  set (s1 := after (sample_account_tx (AccApproveLibrary "splitter")) s0).
  destruct (after_ok sample_account_init BaseAccount.empty_storage) as [r0 H0]; [by vm_compute|].
  destruct (after_ok (sample_account_tx (AccApproveLibrary "splitter")) s0) as [r1 H1]; [by vm_compute|].
  destruct (after_ok (sample_account_tx (AccRemoveLibrary "forwarder")) s1) as [r2 H2]; [by vm_compute|].
  apply (account_tx _ [AccApproveLibrary "splitter"] (mkEnv (mkBlock 1 1) "account")
    (mkInfo "admin" []) _ r2 s1); [|exact H2].
  apply (account_tx _ [] (mkEnv (mkBlock 1 1) "account") (mkInfo "admin" []) _ r1 s0); [|exact H1].
  by apply (account_start _ (mkEnv (mkBlock 1 1) "account") (mkInfo "admin" []) r0).
Qed.
Lemma account_obeys_admin_and_approved_witness :
  (∃ r, BaseAccount.execute (mkEnv (mkBlock 2 2) "account") (mkInfo "splitter" [])
     (AccExecuteMsg []) sample_account = Ok (r, sample_account)) ∧
  BaseAccount.execute (mkEnv (mkBlock 2 2) "account") (mkInfo "forwarder" [])
     (AccExecuteSubmsgs [] None) sample_account = Err (AccUnauthorized NotApprovedLibrary).
Proof.
  split.
  - destruct (account_obeys_admin_and_approved _ _ _ sample_account_run
      (mkEnv (mkBlock 2 2) "account") (mkInfo "splitter" [])) as (Hx & _).
    destruct (Hx []) as (r & Hr & _); [right; by vm_compute|]. by exists r.
  - destruct (account_obeys_admin_and_approved _ _ _ sample_account_run
      (mkEnv (mkBlock 2 2) "account") (mkInfo "forwarder" [])) as (_ & _ & Hx & _).
    apply Hx. apply (bool_decide_unpack _). by vm_compute.
Defined.

(** ** Replies

    The reply of the account is the attribute of an event of the library's own
    sub-message; the host puts it in an event of type "wasm". *)
Lemma find_attribute_here key v pre attrs attrs' post :
  Forall (λ e, event_ty e = WASM_EVENT_TYPE → key ∉ (fst <$> event_attributes e)) pre →
  key ∉ (fst <$> attrs) →
  find_attribute key (pre ++ mkEvent WASM_EVENT_TYPE (attrs ++ (key, v) :: attrs') :: post) = Some v.
Proof.
  intros Hpre Hattrs. unfold find_attribute.
  assert (∀ l rest, key ∉ (fst <$> l) →
    find (λ kv : string * string, bool_decide (kv.1 = key)) (l ++ rest) =
    find (λ kv : string * string, bool_decide (kv.1 = key)) rest) as Hskip.
  { induction l as [|[k w] l IH]; intros rest Hl; simpl; [done|].
    rewrite fmap_cons, not_elem_of_cons in Hl. destruct Hl as [Hk Hl]. simpl in Hk.
    rewrite bool_decide_eq_false_2 by congruence. by apply IH. }
  rewrite filter_app, filter_cons_True by done. rewrite bind_app, bind_cons. simpl.
  rewrite Hskip.
  - rewrite <-app_assoc, Hskip by done. simpl. by rewrite bool_decide_eq_true_2.
  - intros (kv & -> & (e & He & Hf)%list_elem_of_bind)%list_elem_of_fmap.
    apply list_elem_of_filter in Hf as [Hty Hin]. rewrite Forall_forall in Hpre.
    apply (Hpre e Hin Hty). by apply list_elem_of_fmap_2.
Qed.

(** Replies are relayed faithfully.  The attribute that the account answers a reply
    with, put by the host in a "wasm" event among other events that do not carry the
    callback key, is parsed by the library back into the id, the result and the payload
    of that reply, whatever its result was. *)
Theorem callback_relay_roundtrip
    `{Platform} `{CwOwnable} `{CwOwnableDebug} `{JsonText ValenceCallback} `{!JsonTextLaws ValenceCallback}
    (env : Env) (msg : HostReply) (s : BaseAccount.storage) :
  ∃ attr, BaseAccount.reply env msg s = Ok (add_attributes [attr] Response_new, s) ∧
  ∀ pre attrs attrs' post data responses,
    Forall (λ e, event_ty e = WASM_EVENT_TYPE →
                 VALENCE_CALLBACK_KEY ∉ (fst <$> event_attributes e)) pre →
    VALENCE_CALLBACK_KEY ∉ (fst <$> attrs) →
    ValenceCallback_try_from (OutcomeOk (mkSubMsgResponse
      (pre ++ mkEvent WASM_EVENT_TYPE (attrs ++ attr :: attrs') :: post) data responses)) =
    Ok (mkValenceCallback (host_reply_id msg) (host_reply_result msg) (host_reply_payload msg)).
Proof.
  destruct (to_json_string_total (ValenceCallback_from msg)) as [t Ht].
  exists (VALENCE_CALLBACK_KEY, t). split.
  - unfold BaseAccount.reply, callback_into_attribute, mbind, Exec_bind, of_result. by rewrite Ht.
  - intros pre attrs attrs' post data responses Hpre Hattrs. unfold ValenceCallback_try_from.
    cbn [response_events]. rewrite (find_attribute_here _ t) by done. by apply from_to_json_text.
Qed.
Lemma callback_relay_roundtrip_witness : ∃ attr,
  BaseAccount.reply (mkEnv (mkBlock 1 1) "account") (mkHostReply 7 [x01] 0 (OutcomeErr "out of gas"))
    sample_account = Ok (add_attributes [attr] Response_new, sample_account) ∧
  ValenceCallback_try_from (OutcomeOk (mkSubMsgResponse
    [mkEvent "execute" []; mkEvent WASM_EVENT_TYPE ([("_contract_address", "account")] ++ attr :: [])]
    None [])) = Ok (mkValenceCallback 7 (OutcomeErr "out of gas") [x01]).
Proof.
  destruct (callback_relay_roundtrip (mkEnv (mkBlock 1 1) "account")
    (mkHostReply 7 [x01] 0 (OutcomeErr "out of gas")) sample_account) as (attr & Hr & Ht).
  exists attr. split; [exact Hr|]. apply (Ht [mkEvent "execute" []]).
  - repeat constructor. done.
  - apply (bool_decide_unpack _). by vm_compute.
Defined.

(** * Sub-messages through a base account

    A library that needs the answer of a message sends it to the input account as a
    sub-message, with a payload, and asks for the reply of its own call.  The account
    answers with the payload, and later with the callback, as attributes; the host
    collects them in the events of the library's reply.  Here: that both can be parsed out
    of those events, whatever else happened in between. *)

(** A contract's attributes become an event of type "wasm", which starts with its address;
    [e] does not carry [key]. *)
Definition wasm_event (account : Addr) (r : Response) : Event :=
  mkEvent WASM_EVENT_TYPE (("_contract_address", account) :: resp_attributes r).
Definition silent (key : string) (e : Event) : Prop :=
  event_ty e = WASM_EVENT_TYPE → key ∉ (fst <$> event_attributes e).
(** The events of a call of [account]: what came before, the answer [ra] of the account,
    the events of its sub-message, the account's answer [rr] to the reply, and the rest. *)
Definition relay_events (account : Addr) (pre : list Event) (ra : Response) (mid : list Event)
    (rr : Response) (post : list Event) : list Event :=
  pre ++ wasm_event account ra :: mid ++ wasm_event account rr :: post.
(** Nobody else uses the keys of the account before it does. *)
Definition quiet (pre mid : list Event) : Prop :=
  Forall (silent VALENCE_PAYLOAD_KEY) pre ∧ Forall (silent VALENCE_CALLBACK_KEY) (pre ++ mid).

Section Relay.
Context `{CPl : Platform} `{COw : CwOwnable} `{CDb : CwOwnableDebug}.
Context `{CCb : JsonText ValenceCallback} `{!JsonTextLaws ValenceCallback}.
Context `{CJs : JsonCodec AccountExecuteMsg} `{!JsonCodecLaws AccountExecuteMsg}.

(** An account that approved the library runs the sub-messages it is sent. *)
Lemma account_runs_submsgs msgs payload account m library env (a : BaseAccount.storage) funds :
  execute_submsgs_on_behalf_of msgs (Some payload) account = Ok m →
  library ∈ approved a →
  ∃ body msg, m = CosmosWasm (WasmExecute account body []) ∧ from_json body = Ok msg ∧
    BaseAccount.execute env (mkInfo library funds) msg a =
      Ok (mkResponse msgs [(VALENCE_PAYLOAD_KEY, payload)], a).
Proof.
  unfold execute_submsgs_on_behalf_of, approved. intros (body & Hb & [= <-])%bind_result_ok [u Hl]%elem_of_dom.
  exists body, (AccExecuteSubmsgs msgs (Some payload)).
  split_and!; [done|by apply from_to_json|]. simpl. unfold BaseAccount.execute_submsgs.
  unfold mbind, Exec_bind, map_has, fail_if. simpl. by rewrite Hl.
Qed.
(** It answers a reply with the callback. *)
Lemma account_relays env (msg : HostReply) (a : BaseAccount.storage) :
  ∃ t, to_json_string (ValenceCallback_from msg) = Ok t ∧
    BaseAccount.reply env msg a = Ok (mkResponse [] [(VALENCE_CALLBACK_KEY, t)], a).
Proof.
  destruct (to_json_string_total (ValenceCallback_from msg)) as [t Ht]. exists t. split; [done|].
  unfold BaseAccount.reply, callback_into_attribute, mbind, Exec_bind, of_result. by rewrite Ht.
Qed.

Lemma callback_key_new : VALENCE_CALLBACK_KEY ∉ ["_contract_address"].
Proof. apply (bool_decide_unpack _). by vm_compute. Qed.
Lemma payload_key_new : VALENCE_PAYLOAD_KEY ∉ ["_contract_address"].
Proof. apply (bool_decide_unpack _). by vm_compute. Qed.

(** The payload is read back, *)
Lemma relay_payload {T} `{CT : JsonText T} `{!JsonTextLaws T} account pre ra mid rr post data rs (x : T) t :
  quiet pre mid → to_json_string x = Ok t → resp_attributes ra = [(VALENCE_PAYLOAD_KEY, t)] →
  parse_valence_payload (OutcomeOk (mkSubMsgResponse (relay_events account pre ra mid rr post) data rs)) =
    Ok x.
Proof.
  intros [Hpre _] Ht Hra. unfold parse_valence_payload, relay_events, wasm_event. cbn [response_events].
  rewrite Hra. change (?x :: ?y :: []) with ([x] ++ y :: []).
  rewrite (find_attribute_here _ t pre _ []) by (done || apply payload_key_new).
  by apply from_to_json_text.
Qed.
(** and so is the callback. *)
Lemma relay_callback account pre mid post data rs (msg : HostReply) ra rr p t :
  quiet pre mid → to_json_string (ValenceCallback_from msg) = Ok t →
  resp_attributes ra = [(VALENCE_PAYLOAD_KEY, p)] → resp_attributes rr = [(VALENCE_CALLBACK_KEY, t)] →
  ValenceCallback_try_from (OutcomeOk (mkSubMsgResponse (relay_events account pre ra mid rr post) data rs)) =
    Ok (ValenceCallback_from msg).
Proof.
  intros [_ Hq] Ht Hra Hrr. unfold ValenceCallback_try_from, relay_events. cbn [response_events].
  assert (Forall (silent VALENCE_CALLBACK_KEY) (pre ++ wasm_event account ra :: mid)) as Hq'.
  { apply Forall_app in Hq as [Hpre Hmid]. apply Forall_app. split; [done|]. constructor; [|done].
    intros _. unfold wasm_event. rewrite Hra. apply (bool_decide_unpack _). by vm_compute. }
  rewrite (app_comm_cons mid), app_assoc. set (before := pre ++ _ :: mid) in *.
  unfold wasm_event. rewrite Hrr. change (?x :: ?y :: []) with ([x] ++ y :: []).
  rewrite (find_attribute_here _ t before _ []) by (done || apply callback_key_new).
  by apply from_to_json_text.
Qed.

(** The whole way of a delegated sub-message: the account runs it, and whatever its reply
    is, the library finds its payload and that reply in the events of its own reply. *)
Definition relayed {T} `{JsonText T} (library account : Addr) (env : Env) (a : BaseAccount.storage)
    (sub : SubMsg) (x : T) (m : CosmosMsg) : Prop :=
  ∃ body msg ra, m = CosmosWasm (WasmExecute account body []) ∧ from_json body = Ok msg ∧
    BaseAccount.execute env (mkInfo library []) msg a = Ok (ra, a) ∧ resp_messages ra = [sub] ∧
    ∀ hr, ∃ rr, BaseAccount.reply env hr a = Ok (rr, a) ∧ resp_messages rr = [] ∧
      ∀ pre mid post data rs, quiet pre mid →
        let outcome := OutcomeOk (mkSubMsgResponse (relay_events account pre ra mid rr post) data rs) in
        parse_valence_payload outcome = Ok x ∧
        ValenceCallback_try_from outcome = Ok (ValenceCallback_from hr).
Lemma delegate_relayed {T} `{CT : JsonText T} `{!JsonTextLaws T} library account env a sub (x : T) payload m :
  to_json_string x = Ok payload →
  execute_submsgs_on_behalf_of [sub] (Some payload) account = Ok m →
  library ∈ approved a → relayed library account env a sub x m.
Proof.
  intros Hx Hm Ha.
  destruct (account_runs_submsgs _ _ _ _ _ env _ [] Hm Ha) as (body & msg & -> & Hb & He).
  eexists body, msg, _. split_and!; [done..|exact He|done|].
  intros hr. destruct (account_relays env hr a) as (t & Ht & Hr).
  eexists. split_and!; [exact Hr|done|].
  intros pre mid post data rs Hq. split; [by eapply relay_payload|by eapply relay_callback].
Qed.

(** What an approved library asks an account to execute is executed. *)
Lemma account_executes `{!CwOwnableLaws} msgs account m library env (a : BaseAccount.storage) :
  execute_on_behalf_of msgs account = Ok m → library ∈ approved a → is_Some (BaseAccount.s_ownership a) →
  ∃ body msg r, m = CosmosWasm (WasmExecute account body []) ∧ from_json body = Ok msg ∧
    BaseAccount.execute env (mkInfo library []) msg a = Ok (r, a) ∧ resp_messages r = SubMsg_new <$> msgs.
Proof.
  unfold execute_on_behalf_of. intros (body & Hb & [= <-])%bind_result_ok Hl Ho.
  destruct (execute_msg_run env (mkInfo library []) msgs a) as (r & He & Hr); [done|by right|].
  exists body, (AccExecuteMsg msgs), r. split_and!; [done|by apply from_to_json|done|done].
Qed.
End Relay.
