(* ===== verification/MiddlewareTheorems.v ===== *)
(** * Middleware: assertions about stored values, registries and ratios *)
From Stdlib Require Import Strings.Byte.
From S2P Require Import Prelude Platform Types Accounts InterchainAccount LibraryBase Middleware.
From S2P Require Import Codec LibraryCodec AccountsTheorems.

(** ** Slots of a storage account *)
Abbreviation Slots := (StorageAccount.storage ValenceType).

Section Slots.
Context `{CPl : Platform} `{COw : CwOwnable} `{CDb : CwOwnableDebug}.
Context (debug : ValenceType → string).

#[global] Instance storage_assert_owner_ro a :
  ReadOnly (StorageAccount.assert_owner_ a : Exec Slots AccError unit).
Proof. unfold StorageAccount.assert_owner_. apply _. Qed.
#[global] Instance storage_assert_owner_or_library_ro a :
  ReadOnly (StorageAccount.assert_owner_or_library a : Exec Slots AccError unit).
Proof. unfold StorageAccount.assert_owner_or_library. apply _. Qed.

(** A transaction of the account that does not write the slot [key]. *)
Inductive other_slot (key : string) : relation Slots :=
| other_slot_tx env info msg r s s' :
    (∀ v, msg ≠ StorageAccount.StoreValenceType key v) →
    StorageAccount.execute debug env info msg s = Ok (r, s') → other_slot key s s'.

Lemma store_slot env info key v (s s' : Slots) r :
  StorageAccount.execute debug env info (StorageAccount.StoreValenceType key v) s = Ok (r, s') →
  StorageAccount.query_valence_type key s' = Ok v.
Proof.
  simpl. unfold StorageAccount.try_store_valence_type, StorageAccount.query_valence_type.
  intros He. run_inv. simpl. by rewrite lookup_insert_eq.
Qed.
Lemma other_slot_kept key s s' :
  other_slot key s s' → StorageAccount.query_valence_type key s' = StorageAccount.query_valence_type key s.
Proof.
  intros [env info msg r s1 s2 Hm He]. unfold StorageAccount.query_valence_type.
  destruct msg as [l|l|k v|a]; simpl in He;
    unfold StorageAccount.approve_library, StorageAccount.remove_library,
      StorageAccount.try_store_valence_type, StorageAccount.update_ownership in He; run_inv; try done.
  simpl. rewrite lookup_insert_ne; [done|]. intros ->. by eapply Hm.
Qed.
Lemma other_slots_kept key s s' :
  rtc (other_slot key) s s' →
  StorageAccount.query_valence_type key s' = StorageAccount.query_valence_type key s.
Proof. induction 1 as [|s1 s2 s3 H1 _ IH]; [done|]. by rewrite IH; apply other_slot_kept. Qed.
End Slots.

(** The storage accounts of a chain, queried through the host. *)
Definition slots_of (querier_error : StdError → string) (accounts : gmap Addr Slots)
    : Asserter.StorageAccounts :=
  λ addr key, query_contract querier_error accounts addr (StorageAccount.query_valence_type key).

(** ** Prices *)
Section Price.
Context `{CDr : DecimalRatio} `{!DecimalRatioLaws}.
Context `{CXq : JsonCodec XykPoolQuery} `{!JsonCodecLaws XykPoolQuery}.

Lemma query_price pool a b qb :
  pool_assets pool = [a; b] → coin_amount a ≠ 0%N → coin_amount b ≠ 0%N →
  (coin_amount a * decimal_one / coin_amount b ≤ u128_max)%N →
  to_json_binary GetPrice = Ok qb →
  query_xyk_pool pool qb = Ok (PrimDecimal (coin_amount a * decimal_one / coin_amount b)%N).
Proof.
  intros Hp Ha Hb Hfit Hq%from_to_json. unfold query_xyk_pool. rewrite Hq. cbn [mbind result_bind].
  rewrite Hp. rewrite (proj2 (N.eqb_neq _ _) Ha), (proj2 (N.eqb_neq _ _) Hb). cbn [orb].
  by rewrite (proj2 (decimal_from_ratio_spec _ _ _) (conj Hb (conj eq_refl Hfit))).
Qed.
End Price.

(** Comparing the price [x / y], given as a fraction, with [bound]: the strict upper and
    the lower bound are exact, the others compare with the price rounded down. *)
Definition price_compares (predicate : Asserter.Predicate) (x y bound : N) : Prop :=
  match predicate with
  | Asserter.LT => (x < bound * y)%N
  | Asserter.GTE => (bound * y ≤ x)%N
  | Asserter.LTE => (x < (bound + 1) * y)%N
  | Asserter.GT => ((bound + 1) * y ≤ x)%N
  | Asserter.EQ => (bound * y ≤ x < (bound + 1) * y)%N
  end.
Lemma div_lt_iff x y z : y ≠ 0%N → (x / y < z ↔ x < z * y)%N.
Proof.
  intros Hy. split; intros H.
  - pose proof (N.div_mod x y Hy). pose proof (N.mod_lt x y Hy). nia.
  - apply N.Div0.div_lt_upper_bound. nia.
Qed.
Lemma eval_price predicate x y bound :
  y ≠ 0%N →
  Asserter.eval N.ltb N.eqb predicate (x / y)%N bound = true ↔ price_compares predicate x y bound.
Proof.
  intros Hy. pose proof (div_lt_iff x y bound Hy). pose proof (div_lt_iff x y (bound + 1) Hy).
  destruct predicate; simpl; rewrite ?orb_true_iff, ?N.ltb_lt, ?N.eqb_eq; lia.
Qed.

(** C36 A price assertion is decided exactly.  After a value of two assets was stored in a
    slot of a storage account, and whatever other transactions the account executed that
    did not write the slot, the assertion of the price in the slot against a constant
    succeeds if and only if the comparison holds, and fails with an error otherwise:
    "less than" and "at least" compare the exact fraction of the amounts although the
    price is rounded down, the other predicates the rounded price; a constant of another
    kind is an error. *)
Theorem price_assertion_exact
    `{Platform} `{CwOwnable} `{CwOwnableDebug} `{DecimalRatio} `{!DecimalRatioLaws}
    `{JsonCodec XykPoolQuery} `{!JsonCodecLaws XykPoolQuery} `{JsonCodec BankBalanceQuery}
    (debug : ValenceType → string) (querier_error : StdError → string)
    (accounts : gmap Addr Slots) (addr : Addr) (s s1 s2 : Slots) env info key pool a b r qb :
  StorageAccount.execute debug env info (StorageAccount.StoreValenceType key (XykPool pool)) s = Ok (r, s1) →
  rtc (other_slot debug key) s1 s2 → accounts !! addr = Some s2 →
  pool_assets pool = [a; b] → coin_amount a ≠ 0%N → coin_amount b ≠ 0%N →
  (coin_amount a * decimal_one / coin_amount b ≤ u128_max)%N →
  to_json_binary GetPrice = Ok qb →
  let price := Asserter.Variable_ (Asserter.mkQueryInfo addr key qb) in
  ∀ env' info' st predicate,
    (∀ bound,
       let msg := Asserter.Assert price predicate (Asserter.Constant (PrimDecimal bound)) in
       let x := (coin_amount a * decimal_one)%N in let y := coin_amount b in
       (price_compares predicate x y bound →
          Asserter.execute (slots_of querier_error accounts) env' info' msg st = Ok (Response_new, st)) ∧
       (¬ price_compares predicate x y bound →
          Asserter.execute (slots_of querier_error accounts) env' info' msg st =
            Err (MiddlewareStd (GenericErr "assertion failed")))) ∧
    ∀ n, Asserter.execute (slots_of querier_error accounts) env' info'
           (Asserter.Assert price predicate (Asserter.Constant (PrimUint128 n))) st =
         Err (MiddlewareStd (GenericErr "variant mismatch")).
Proof.
  intros Hst Hrun Hacc Hp Ha Hb Hfit Hq price env' info' st predicate.
  assert (Asserter.get_comparable_value (slots_of querier_error accounts) price =
    Ok (PrimDecimal (coin_amount a * decimal_one / coin_amount b)%N)) as Hv.
  { unfold Asserter.get_comparable_value, slots_of, query_contract. simpl. rewrite Hacc.
    apply store_slot in Hst. rewrite (other_slots_kept _ _ _ _ Hrun), Hst. simpl. by apply query_price. }
  split.
  - intros bound msg x y. unfold Asserter.execute, Asserter.evaluate_assertion, msg.
    rewrite Hv. cbn [mbind result_bind Asserter.get_comparable_value of_result Exec_bind].
    pose proof (eval_price predicate x y bound Hb) as He. fold x y.
    destruct (Asserter.eval _ _ predicate (x / y)%N bound) eqn:Heq; naive_solver.
  - intros n. unfold Asserter.execute, Asserter.evaluate_assertion. by rewrite Hv.
Qed.

(** ** A pool of 3 to 7, asserted to be below 0.43 and not below 0.42 *)
#[global] Instance ref_decimal_ratio : DecimalRatio := {
  decimal_from_ratio a b :=
    if (b =? 0)%N then None
    else let r := (a * decimal_one / b)%N in if (r <=? u128_max)%N then Some r else None;
}.
#[global] Instance ref_decimal_ratio_laws : DecimalRatioLaws.
Proof.
  split. intros a b r. cbn -[N.div N.mul u128_max decimal_one].
  destruct (N.eqb_spec b 0); [naive_solver|].
  destruct (N.leb_spec (a * decimal_one / b) u128_max); naive_solver lia.
Qed.
#[global] Instance XykPoolQuery_eq_dec : EqDecision XykPoolQuery. Proof. solve_decision. Defined.
#[global] Instance XykPoolQuery_countable : Countable XykPoolQuery.
Proof.
  by_iso (λ x, match x with GetPrice => None | GetPoolAssetAmount d => Some d end)
    (λ y, match y with None => GetPrice | Some d => GetPoolAssetAmount d end).
Defined.
#[global] Instance BankBalanceQuery_eq_dec : EqDecision BankBalanceQuery. Proof. solve_decision. Defined.
#[global] Instance BankBalanceQuery_countable : Countable BankBalanceQuery.
Proof. by_iso (λ '(GetDenomAmount d), d) (λ d, GetDenomAmount d). Defined.
Definition sample_pool : ValenceXykPool := mkValenceXykPool [mkCoin "a" 3; mkCoin "b" 7] "10" ∅.
Definition sample_slots_init : Exec Slots StdError Response :=
  StorageAccount.instantiate (mkEnv (mkBlock 1 1) "slots") (mkInfo "admin" [])
    (mkAccInstantiateMsg "admin" []).
Definition sample_slots_store : Exec Slots AccError Response :=
  StorageAccount.execute (λ _, "value") (mkEnv (mkBlock 1 1) "slots") (mkInfo "admin" [])
    (StorageAccount.StoreValenceType "pool" (XykPool sample_pool)).
Definition sample_slots : Slots :=
  after sample_slots_store (after sample_slots_init StorageAccount.empty_storage).
Definition sample_price_query : list byte := default [] (unwrap_result (to_json_binary GetPrice)).
Lemma price_assertion_exact_witness :
  let price := Asserter.Variable_ (Asserter.mkQueryInfo "slots" "pool" sample_price_query) in
  let ask p d := Asserter.execute (slots_of (λ _, "error") {["slots" := sample_slots]})
    (mkEnv (mkBlock 2 2) "asserter") (mkInfo "anyone" [])
    (Asserter.Assert price p (Asserter.Constant (PrimDecimal d))) None in
  ask Asserter.LT 430000000000000000%N = Ok (Response_new, None) ∧
  ask Asserter.LT 420000000000000000%N = Err (MiddlewareStd (GenericErr "assertion failed")).
Proof.
  intros price ask.
  destruct (after_ok sample_slots_store (after sample_slots_init StorageAccount.empty_storage)) as [r Hr];
    [by vm_compute|].
  destruct (price_assertion_exact (λ _, "value") (λ _, "error") {["slots" := sample_slots]} "slots"
    _ sample_slots sample_slots (mkEnv (mkBlock 1 1) "slots") (mkInfo "admin" []) "pool" sample_pool (mkCoin "a" 3) (mkCoin "b" 7) r sample_price_query
    Hr (rtc_refl _ _)) with (env' := mkEnv (mkBlock 2 2) "asserter") (info' := mkInfo "anyone" [])
    (st := None : option (string * string)) (predicate := Asserter.LT) as [Ha _].
  - by vm_compute.
  - done.
  - done.
  - done.
  - by apply N.leb_le.
  - by vm_compute.
  - split; apply Ha; by vm_compute.
Defined.
