(* ===== verification/TypeRegistryTheorems.v ===== *)
(** * The type registry of Osmosis: canonical forms and back

    A pool keeps its amounts in the canonical form and can be recovered from it; keys of
    different pools differ; the broker passes the answers of a registry on unchanged. *)
From Stdlib Require Import Strings.Byte.
From S2P Require Import Prelude Platform Types Format Accounts InterchainAccount Protocols LibraryBase.
From S2P Require Import LibraryProofs Middleware TypeRegistry Codec LibraryCodec.

Lemma try_total {E1 E2 A} `{From E1 E2} (r : result E1 A) a : r = Ok a → (try_ r : result E2 A) = Ok a.
Proof. by intros ->. Qed.

Section Pools.
Import OsmosisRegistry.
Context {P : Type} `{CIc : OsmosisIcq P}.
Context `{CSt : JsonCodec string} `{CN : JsonCodec N} `{COp : JsonCodec (option P)}.
Context `{!JsonCodecLaws string} `{!JsonCodecLaws N} `{!JsonCodecLaws (option P)}.

(** ** Keys of the fields *)
Lemma string_app_inj_r (a b s : string) : (a ++ s)%string = (b ++ s)%string → a = b.
Proof.
  intros He%(f_equal String.list_ascii_of_string). rewrite !list_ascii_of_string_app in He.
  apply app_inv_tail in He. rewrite <-(String.string_of_list_ascii_of_string a), He.
  apply String.string_of_list_ascii_of_string.
Qed.
Lemma weight_key_inj a b : weight_key a = weight_key b → a = b.
Proof. unfold weight_key. simpl. intros [= He]. exact (string_app_inj_r a b "_weight" He). Qed.

(** The tokens of the assets. *)
Definition tokens (assets : list PoolAsset) : list ProtoCoin := omap asset_token assets.
(** [coins] are the tokens, with their amounts as numbers. *)
Definition same_coins (assets : list PoolAsset) (coins : list Coin) : Prop :=
  Forall2 (λ t c, proto_denom t = coin_denom c ∧ parse_u128 (proto_amount t) = Some (coin_amount c))
    (tokens assets) coins.
Lemma parse_amount_ok t n : parse_amount t = Ok n ↔ parse_u128 t = Some n.
Proof. apply ok_or_r_ok. Qed.
Lemma canonical_assets_ok assets coins : canonical_assets assets = Ok coins ↔ same_coins assets coins.
Proof.
  unfold same_coins, tokens. revert coins. induction assets as [|[[t|] w] assets IH]; intros coins; simpl.
  - split; [by intros [= <-]|by inversion 1].
  - rewrite bind_result_iff. split.
    + intros (n & Hn%parse_amount_ok & (rest & Hr%IH & [= <-])%bind_result_ok). by constructor.
    + inversion 1 as [|? [dn n] ? rest [Hd Hn] Hr]; subst. simpl in *. exists n.
      split; [by apply parse_amount_ok|]. apply bind_result_iff. exists rest.
      split; [by apply IH|by rewrite Hd].
  - apply IH.
Qed.
Lemma pack_weights_total assets fields : ∃ fields', pack_weights assets fields = Ok fields'.
Proof.
  revert fields. induction assets as [|[[t|] w] assets IH]; intros fields; simpl; [by eexists| |apply IH].
  destruct (to_json_total w) as [b ->]. simpl. apply IH.
Qed.
(** The other fields stay, and each token finds its weight. *)
Lemma pack_weights_other assets fields fields' k :
  pack_weights assets fields = Ok fields' → (∀ t, t ∈ tokens assets → k ≠ weight_key (proto_denom t)) →
  fields' !! k = fields !! k.
Proof.
  unfold tokens. revert fields. induction assets as [|[[t|] w] assets IH]; intros fields; simpl; [by intros [= <-]| |apply IH].
  destruct (to_json_total w) as [b ->]. simpl. intros Hp Hk. rewrite (IH _ Hp); [|set_solver].
  rewrite lookup_insert_ne; [done|]. intros He. eapply Hk; [left|done].
Qed.
Lemma pack_weights_weight assets fields fields' a t b :
  pack_weights assets fields = Ok fields' → NoDup (proto_denom <$> tokens assets) →
  a ∈ assets → asset_token a = Some t → to_json_binary (asset_weight a) = Ok b →
  fields' !! weight_key (proto_denom t) = Some b.
Proof.
  unfold tokens. revert fields. induction assets as [|[[t1|] w] assets IH]; intros fields; simpl; [by intros _ _ ?%elem_of_nil|..].
  - destruct (to_json_total w) as [b1 Hb1]. rewrite Hb1. simpl. intros Hp [Hni Hnd]%NoDup_cons Ha Ht Hb.
    apply elem_of_cons in Ha as [->|Ha]; [|by eapply IH].
    simpl in *. simplify_eq. rewrite (pack_weights_other _ _ _ _ Hp).
    + rewrite lookup_insert_eq. congruence.
    + intros t' Ht' He%weight_key_inj. apply Hni. rewrite He. by apply list_elem_of_fmap_2.
  - intros Hp Hnd Ha Ht Hb. apply elem_of_cons in Ha as [->|Ha]; [done|by eapply IH].
Qed.

(** ** A pool in canonical form *)
(** A field holds the encoding of a value. *)
Definition holds {T} `{JsonCodec T} (fields : gmap string Binary) (k : string) (x : T) : Prop :=
  ∃ b, to_json_binary x = Ok b ∧ fields !! k = Some b.
(** The fields that describe a pool. *)
Record describes (pool : Pool P) (fields : gmap string Binary) : Prop := {
  ds_address : holds fields ADDRESS_KEY (gp_address pool);
  ds_id : holds fields ID_KEY (gp_id pool);
  ds_governor : holds fields FUTURE_POOL_GOVERNOR_KEY (gp_future_pool_governor pool);
  ds_weight : holds fields TOTAL_WEIGHT_KEY (gp_total_weight pool);
  ds_params : holds fields POOL_PARAMS_KEY (gp_pool_params pool);
  ds_shares shares : gp_total_shares pool = Some shares → holds fields SHARES_DENOM_KEY (proto_denom shares);
  ds_weights a t : NoDup (proto_denom <$> tokens (gp_pool_assets pool)) → a ∈ gp_pool_assets pool →
    asset_token a = Some t → holds fields (weight_key (proto_denom t)) (asset_weight a);
}.
Lemma pool_canonical (pool : Pool P) coins :
  same_coins (gp_pool_assets pool) coins →
  ∃ fields, pool_to_canonical (mkOsmosisXykPool pool) = Ok (XykPool (mkValenceXykPool coins
    (default "" (proto_amount <$> gp_total_shares pool)) fields)) ∧ describes pool fields.
Proof.
  intros Hc%canonical_assets_ok. unfold pool_to_canonical. cbn [xyk_pool].
  destruct (to_json_total (gp_address pool)) as [b1 H1], (to_json_total (gp_id pool)) as [b2 H2],
    (to_json_total (gp_future_pool_governor pool)) as [b3 H3],
    (to_json_total (gp_total_weight pool)) as [b4 H4], (to_json_total (gp_pool_params pool)) as [b5 H5].
  rewrite (try_total _ _ H1); cbn [mbind result_bind]. rewrite (try_total _ _ H2); cbn [mbind result_bind].
  rewrite (try_total _ _ H3); cbn [mbind result_bind]. rewrite (try_total _ _ H4); cbn [mbind result_bind].
  rewrite (try_total _ _ H5); cbn [mbind result_bind].
  match goal with |- context [list_to_map ?l] => set (f0 := list_to_map l : gmap string Binary) end.
  assert (∃ f1, match gp_total_shares pool with
    | Some shares => denom ← try_ (to_json_binary (proto_denom shares)); Ok (<[SHARES_DENOM_KEY:=denom]> f0)
    | None => Ok f0 end = (Ok f1 : result MiddlewareError _) ∧
    (∀ shares, gp_total_shares pool = Some shares → holds f1 SHARES_DENOM_KEY (proto_denom shares)) ∧
    ∀ k, k ≠ SHARES_DENOM_KEY → f1 !! k = f0 !! k) as (f1 & -> & Hsh & Hf1).
  { destruct (gp_total_shares pool) as [shares|]; [|by exists f0].
    destruct (to_json_total (proto_denom shares)) as [b6 H6]. rewrite H6. eexists. split; [done|]. split.
    - intros ? [= <-]. exists b6. by rewrite lookup_insert_eq.
    - intros k Hk. by rewrite lookup_insert_ne. }
  simpl. destruct (pack_weights_total (gp_pool_assets pool) f1) as [f Hf]. rewrite Hf. simpl. rewrite Hc.
  exists f. split; [done|].
  assert (∀ k, (∀ d, k ≠ weight_key d) → f !! k = f1 !! k) as Hother
    by (intros k Hk; by apply (pack_weights_other _ _ _ _ Hf)).
  split; try (eexists; split; [eassumption|]; rewrite Hother, Hf1 by done; by vm_compute).
  - intros shares (b & Hb & Hl)%Hsh. exists b. split; [done|]. by rewrite Hother.
  - intros a tok Hnd Ha Ht. destruct (to_json_total (asset_weight a)) as [b Hb]. exists b.
    split; [done|by eapply pack_weights_weight].
Qed.
(** The pools that the canonical form represents: with shares, a token for every asset,
    amounts written as numbers are printed, and no denomination twice. *)
Record representable (pool : Pool P) : Prop := {
  rp_shares : is_Some (gp_total_shares pool);
  rp_assets : Forall (λ a, ∃ d n, asset_token a = Some (mkProtoCoin d (pretty n)) ∧ (n ≤ u128_max)%N)
    (gp_pool_assets pool);
  rp_denoms : NoDup (proto_denom <$> tokens (gp_pool_assets pool));
}.
Lemma representable_coins pool :
  representable pool → ∃ coins, same_coins (gp_pool_assets pool) coins ∧
    Forall2 (λ a c, asset_token a = Some (mkProtoCoin (coin_denom c) (pretty (coin_amount c))))
      (gp_pool_assets pool) coins.
Proof.
  intros [_ Ha _]. unfold same_coins, tokens. induction Ha as [|[tok w] l (d & n & Hd & Hn) _ (coins & IH1 & IH2)].
  - by exists [].
  - simpl in Hd. subst. exists (mkCoin d n :: coins). split; simpl; constructor; simpl; try done.
    split; [done|by apply parse_u128_pretty].
Qed.
Lemma domain_field {T} `{JsonCodec T} `{!JsonCodecLaws T} (p : ValenceXykPool) k (x : T) :
  holds (domain_specific_fields p) k x →
  (try_ (get_domain_specific_field p k) : result MiddlewareError T) = Ok x.
Proof.
  intros (b & Hx & Hk). apply try_total. unfold get_domain_specific_field, try_unpack_domain_specific_value.
  rewrite Hk. by apply from_to_json.
Qed.
Lemma pool_assets_back (p : ValenceXykPool) assets coins :
  Forall2 (λ a c, asset_token a = Some (mkProtoCoin (coin_denom c) (pretty (coin_amount c)))) assets coins →
  (∀ a t, a ∈ assets → asset_token a = Some t →
     holds (domain_specific_fields p) (weight_key (proto_denom t)) (asset_weight a)) →
  mapM (pool_asset p) coins = Ok assets.
Proof.
  induction 1 as [|[tok w] c assets coins Ht _ IH]; intros Hw; [done|]. simpl in Ht. subst.
  assert (pool_asset p c = Ok (mkPoolAsset (Some (mkProtoCoin (coin_denom c) (pretty (coin_amount c)))) w)) as Hc.
  { unfold pool_asset. set (a := mkPoolAsset _ w) in *.
    assert (holds (domain_specific_fields p) (weight_key (coin_denom c)) w) as Hh
      by exact (Hw a (mkProtoCoin (coin_denom c) (pretty (coin_amount c))) ltac:(left) eq_refl).
    by rewrite (domain_field _ _ _ Hh). }
  simpl. rewrite Hc. simpl. rewrite IH; [done|]. intros a t Ha. apply Hw. by right.
Qed.
Lemma pool_back (pool : Pool P) :
  representable pool → ∃ p, pool_to_canonical (mkOsmosisXykPool pool) = Ok (XykPool p) ∧
    same_coins (gp_pool_assets pool) (pool_assets p) ∧ pool_from_canonical (XykPool p) = Ok pool.
Proof.
  intros Hrep. destruct (representable_coins _ Hrep) as (coins & Hc & Hex).
  destruct (pool_canonical _ _ Hc) as (fields & Hto & Hd).
  set (p := mkValenceXykPool _ _ fields) in Hto. change fields with (domain_specific_fields p) in Hd.
  destruct Hd as [H1 H2 H3 H4 H5 H6 H7]. exists p. do 2 (split; [done|]).
  destruct Hrep as [[shares Hs] _ Hnd]. unfold pool_from_canonical. change (pool_assets p) with coins.
  rewrite (domain_field p _ _ H1). cbn [mbind result_bind]. rewrite (domain_field p _ _ H2).
  cbn [mbind result_bind]. rewrite (domain_field p _ _ H3). cbn [mbind result_bind].
  rewrite (domain_field p _ _ H5). cbn [mbind result_bind]. rewrite (domain_field p _ _ (H6 _ Hs)).
  cbn [mbind result_bind]. rewrite (domain_field p _ _ H4). cbn [mbind result_bind].
  rewrite (pool_assets_back p _ _ Hex) by eauto. cbn [mbind result_bind]. unfold p. simpl. rewrite Hs.
  destruct pool; simpl in *; subst. by destruct shares.
Qed.
End Pools.

(** ** The registry and the broker *)
Section Registry.
Import OsmosisRegistry.
Context {P : Type} `{CIc : OsmosisIcq P}.
Context `{CSt : JsonCodec string} `{CN : JsonCodec N} `{COp : JsonCodec (option P)}.
Context `{CPo : JsonCodec (Pool P)} `{CQb : JsonCodec QueryBalanceResponse} `{CBa : JsonCodec Balances}.
Context `{CVt : JsonCodec ValenceType} `{CNt : JsonCodec NativeTypeWrapper} `{CKv : JsonCodec KVKey}.
Abbreviation registry := (query (PoolParams := P)).

(** The dispatcher on the two types. *)
Lemma query_pool_canonical native :
  registry (ToCanonical POOL_TYPE native) =
  (pool ← (from_json native : result StdError (Pool P));
   v ← map_err_r (λ _, GenericErr "failed to convert to canonical") (pool_to_canonical (mkOsmosisXykPool pool));
   to_json_binary v).
Proof. done. Qed.
Lemma query_pool_native v pool :
  pool_from_canonical v = Ok pool →
  registry (FromCanonical v) =
  (b ← to_json_binary pool; to_json_binary (mkNativeTypeWrapper b)).
Proof. unfold query, handle_query. simpl. by intros ->. Qed.
Lemma query_pool_reconstruct res :
  registry (ReconstructProto POOL_TYPE res) =
  (b ← map_err_r (λ _, GenericErr "failed to reconstruct type from proto") (pool_reconstruct POOL_TYPE res);
   to_json_binary (mkNativeTypeWrapper b)).
Proof. done. Qed.
Lemma query_bank_canonical native :
  registry (ToCanonical BALANCE_TYPE native) =
  (x ← (from_json native : result StdError QueryBalanceResponse);
   v ← map_err_r (λ _, GenericErr "failed to convert to canonical") (bank_to_canonical (mkOsmosisBankBalance x));
   to_json_binary v).
Proof. done. Qed.
Lemma query_bank_reconstruct res :
  registry (ReconstructProto BALANCE_TYPE res) =
  (b ← map_err_r (λ _, GenericErr "failed to reconstruct type from proto") (bank_reconstruct BALANCE_TYPE res);
   to_json_binary (mkNativeTypeWrapper b)).
Proof. done. Qed.

Context `{!JsonCodecLaws string} `{!JsonCodecLaws N} `{!JsonCodecLaws (option P)}.
Context `{!JsonCodecLaws (Pool P)} `{!JsonCodecLaws ValenceType} `{!JsonCodecLaws NativeTypeWrapper}.
Context `{!JsonCodecLaws KVKey}.

(** The keys of two pools differ. *)
Theorem pool_keys_differ params1 params2 id1 id2 b1 b2 :
  to_json_binary id1 = Ok b1 → to_json_binary id2 = Ok b2 → (id1 ≤ u64_max)%N → (id2 ≤ u64_max)%N →
  params1 !! "pool_id" = Some b1 → params2 !! "pool_id" = Some b2 →
  registry (QueryKVKey POOL_TYPE params1) = registry (QueryKVKey POOL_TYPE params2) → id1 = id2.
Proof.
  intros H1%from_to_json H2%from_to_json Hle1 Hle2 Hp1 Hp2.
  change (registry (QueryKVKey POOL_TYPE ?p)) with
    (k ← map_err_r (λ _, GenericErr "failed to get kvkey") (pool_kv_key p); to_json_binary k).
  unfold pool_kv_key, try_unpack_domain_specific_value. rewrite Hp1, Hp2, H1, H2. cbn -[u64_to_be_bytes].
  set (k1 := mkKVKey _ (_ :: u64_to_be_bytes id1)). set (k2 := mkKVKey _ (_ :: u64_to_be_bytes id2)).
  destruct (to_json_total k1) as [x1 Hx1]. rewrite Hx1. intros Hx2. symmetry in Hx2.
  apply from_to_json in Hx1, Hx2. assert (k1 = k2) as He by congruence.
  apply (f_equal (λ k, tail (kv_key k))) in He. apply (be_bytes_inj 8) in He; [done|..];
    unfold u64_max in *; simpl; lia.
Qed.

(** A registry that answers is answered through the broker with the same value. *)
Context `{CRq : JsonCodec RegistryQueryMsg} `{!JsonCodecLaws RegistryQueryMsg}.
(** The contract at an address answers a query. *)
Definition answers_at {Q} `{JsonCodec Q} (q : ProtocolQuerier) (addr : string)
    (answer : Q → result StdError Binary) : Prop :=
  ∀ msg b a, to_json_binary msg = Ok b → answer msg = Ok a → pq_wasm_smart q addr b = Ok a.
Lemma answers_query {Q A} `{JsonCodec Q} `{!JsonCodecLaws Q} `{JsonCodec A} (q : ProtocolQuerier) addr answer
    (msg : Q) b (a : A) :
  answers_at q addr answer → answer msg = Ok b → from_json b = Ok a →
  query_wasm_smart q addr msg = Ok a.
Proof.
  intros Hq Ha Hb. unfold query_wasm_smart. destruct (to_json_total msg) as [m Hm]. rewrite Hm. simpl.
  by rewrite (Hq _ _ _ Hm Ha).
Qed.
(** The registry that the broker asks. *)
Definition broker_registry (s : TypeBroker.storage) (version : option string) : option Addr :=
  v ← match version with Some v => Some v | None => TypeBroker.s_latest s end;
  TypeBroker.registry_address <$> TypeBroker.s_active_registries s !! v.
(** Which type the answer to a query has. *)
Definition typed (msg : RegistryQueryMsg) (b : Binary) : Prop :=
  match msg with
  | ReconstructProto _ _ | FromCanonical _ => ∃ x : NativeTypeWrapper, to_json_binary x = Ok b
  | QueryKVKey _ _ => ∃ x : KVKey, to_json_binary x = Ok b
  | ToCanonical _ _ => ∃ x : ValenceType, to_json_binary x = Ok b
  end.
Lemma broker_passes_on q s version addr answer msg b :
  broker_registry s version = Some addr → answers_at q addr answer →
  answer msg = Ok b → typed msg b → TypeBroker.query q s (TypeBroker.mkQueryMsg version msg) = Ok b.
Proof.
  unfold broker_registry. intros Hr Hq Hb Hk. apply bind_Some in Hr as (v & Hv & Hr).
  apply fmap_Some in Hr as (reg & Hreg & ->). unfold TypeBroker.query. simpl.
  assert (match version with Some v => Ok v | None => ok_or_r (TypeBroker.s_latest s) NotFound end = Ok v) as ->
    by (destruct version; simplify_eq; [done|by rewrite Hv]).
  simpl. rewrite Hreg. simpl.
  destruct msg; destruct Hk as [x Hx]; pose proof (from_to_json _ _ Hx) as Hf;
    unfold TypeBroker.try_from_canonical, TypeBroker.try_to_canonical, TypeBroker.try_get_kv_key,
      TypeBroker.try_decode_proto; by rewrite (answers_query _ _ _ _ _ _ Hq Hb Hf).
Qed.
Lemma register_type_typed {T Native} `{ValenceTypeAdapter T Native} `{IcqIntegration T} `{JsonCodec Native}
    (from_native : Native → T) (id : string) :
  let t := register_type T Native from_native id in
  (∀ x b, arm_to_canonical t x = Ok b → ∃ v : ValenceType, to_json_binary v = Ok b) ∧
  (∀ x b, arm_from_canonical t x = Some (Ok b) → ∃ v : NativeTypeWrapper, to_json_binary v = Ok b) ∧
  (∀ x b, arm_kv_key t x = Ok b → ∃ v : KVKey, to_json_binary v = Ok b) ∧
  (∀ x b, arm_reconstruct t x = Ok b → ∃ v : NativeTypeWrapper, to_json_binary v = Ok b).
Proof.
  split_and!; simpl.
  - intros x b (n & _ & (v & _ & Hv)%bind_result_ok)%bind_result_ok. eauto.
  - intros x b. destruct (try_from_canonical x); try done. intros [= (y & _ & Hy)%bind_result_ok]. eauto.
  - intros x b (k & _ & Hk)%bind_result_ok. eauto.
  - intros x b (y & _ & Hy)%bind_result_ok. eauto.
Qed.
Lemma registry_typed msg b : registry msg = Ok b → typed msg b.
Proof.
  assert (∀ id t, find_type registered_types id = Ok t →
    t = register_type OsmosisXykPool (Pool P) mkOsmosisXykPool POOL_TYPE ∨
    t = register_type OsmosisBankBalance QueryBalanceResponse mkOsmosisBankBalance BALANCE_TYPE) as Hfind.
  { intros id t Ht%ok_or_r_ok. apply head_Some_elem_of, list_elem_of_filter in Ht as [_ Ht].
    unfold registered_types in Ht. set_solver. }
  unfold query, handle_query. destruct msg as [obj|url bin|id ps|id res].
  - simpl. repeat case_match; intros; simplify_eq; try done;
      match goal with Hb : mbind _ _ = Ok _ |- _ => apply bind_result_ok in Hb as (y & _ & Hy) end; simpl; eauto.
  - intros (t & [-> | ->]%Hfind & Ha)%bind_result_ok; by eapply register_type_typed in Ha.
  - intros (t & [-> | ->]%Hfind & Ha)%bind_result_ok; by eapply register_type_typed in Ha.
  - intros (t & [-> | ->]%Hfind & Ha)%bind_result_ok; by eapply register_type_typed in Ha.
Qed.
End Registry.

(** The canonical form of a pool loses nothing.  A pool with shares, a token for every
    asset and no denomination twice is translated by the registry to a canonical pool that
    has exactly its tokens, in order and with their amounts, and the registry translates
    that canonical pool back to the same pool, although the weights, the governor and the
    parameters travel as named fields. *)
Theorem pool_canonical_roundtrip {P : Type} `{OsmosisIcq P}
    `{JsonCodec string} `{JsonCodec N} `{JsonCodec (option P)} `{JsonCodec (Pool P)}
    `{JsonCodec QueryBalanceResponse} `{JsonCodec Balances}
    `{JsonCodec ValenceType} `{JsonCodec NativeTypeWrapper} `{JsonCodec KVKey}
    `{!JsonCodecLaws string} `{!JsonCodecLaws N} `{!JsonCodecLaws (option P)} `{!JsonCodecLaws (Pool P)}
    `{!JsonCodecLaws ValenceType} `{!JsonCodecLaws NativeTypeWrapper} (pool : Pool P) native :
  representable pool → to_json_binary pool = Ok native →
  ∃ canonical p wrapped,
    OsmosisRegistry.query (PoolParams := P) (ToCanonical OsmosisRegistry.POOL_TYPE native) = Ok canonical ∧
    from_json canonical = Ok (XykPool p) ∧
    Forall2 (λ t c, proto_denom t = coin_denom c ∧ proto_amount t = pretty (coin_amount c))
      (tokens (gp_pool_assets pool)) (pool_assets p) ∧
    length (pool_assets p) = length (gp_pool_assets pool) ∧
    OsmosisRegistry.query (PoolParams := P) (FromCanonical (XykPool p)) = Ok wrapped ∧
    from_json wrapped = Ok (mkNativeTypeWrapper native).
Proof.
  intros Hrep Hnat. destruct (pool_back pool Hrep) as (p & Hto & Hcoins & Hback).
  destruct (to_json_total (XykPool p)) as [canonical Hcan].
  destruct (to_json_total (mkNativeTypeWrapper native)) as [wrapped Hwr].
  exists canonical, p, wrapped.
  assert (Forall2 (λ t c, proto_denom t = coin_denom c ∧ proto_amount t = pretty (coin_amount c))
    (tokens (gp_pool_assets pool)) (pool_assets p) ∧
    length (pool_assets p) = length (gp_pool_assets pool)) as [Hex Hlen].
  { destruct Hrep as [_ Ha _]. unfold same_coins, tokens in *. revert Hcoins. generalize (pool_assets p). induction Ha as [|[tok w] l (d & n & Hd & Hn) _ IH];
      intros coins Hc; simpl in *; [inversion Hc; by subst|]. subst.
    inversion Hc as [|? c ? cs [Hd Hp] Hcs]; subst. simpl in *. destruct (IH cs Hcs) as [IH1 IH2].
    rewrite parse_u128_pretty in Hp by done. injection Hp as Hp.
    split; [constructor; [split; simpl; congruence|done]|simpl; lia]. }
  split_and!; [|by apply from_to_json|done|done| |by apply from_to_json].
  - rewrite query_pool_canonical, (from_to_json _ _ Hnat). simpl. by rewrite Hto.
  - rewrite (query_pool_native _ _ Hback), Hnat. done.
Qed.

(** What the registry reconstructs from the result of a balance query is not what it
    translates: the JSON of [Balances] has no field [balance], so that parsing it as a
    [QueryBalanceResponse] finds none, and no result of such a query becomes a canonical
    value. *)
Theorem bank_result_not_canonical {P : Type} `{OsmosisIcq P}
    `{JsonCodec string} `{JsonCodec N} `{JsonCodec (option P)} `{JsonCodec (Pool P)}
    `{JsonCodec QueryBalanceResponse} `{JsonCodec Balances}
    `{JsonCodec ValenceType} `{JsonCodec NativeTypeWrapper} `{JsonCodec KVKey} `{!JsonCodecLaws NativeTypeWrapper}
    (res : InterchainQueryResult) wrapped w :
  (∀ (x : Balances) b (y : QueryBalanceResponse), to_json_binary x = Ok b → from_json b = Ok y → balance y = None) →
  OsmosisRegistry.query (PoolParams := P) (ReconstructProto OsmosisRegistry.BALANCE_TYPE res) = Ok wrapped →
  from_json wrapped = Ok w →
  ∀ canonical, OsmosisRegistry.query (PoolParams := P)
    (ToCanonical OsmosisRegistry.BALANCE_TYPE (native_binary w)) ≠ Ok canonical.
Proof.
  intros Hjson Hrec Hw canonical. rewrite query_bank_canonical. rewrite query_bank_reconstruct in Hrec.
  apply bind_result_ok in Hrec as (b & Hb%map_err_r_ok & Hwr). rewrite (from_to_json _ _ Hwr) in Hw.
  injection Hw as <-. unfold OsmosisRegistry.bank_reconstruct in Hb.
  apply bind_result_ok in Hb as (x & _ & Hx%try_ok). simpl.
  intros (y & Hy & (v & Hv%map_err_r_ok & _)%bind_result_ok)%bind_result_ok.
  unfold OsmosisRegistry.bank_to_canonical in Hv. simpl in Hv. by rewrite (Hjson _ _ _ Hx Hy) in Hv.
Qed.

(** ** A pool of two tokens *)
#[global] Instance KVKey_eq_dec : EqDecision KVKey. Proof. solve_decision. Defined.
#[global] Instance KVKey_countable : Countable KVKey.
Proof. by_iso (λ '(mkKVKey a b), (a, b)) (λ '(a, b), mkKVKey a b). Defined.
#[global] Instance StorageValue_eq_dec : EqDecision StorageValue. Proof. solve_decision. Defined.
#[global] Instance StorageValue_countable : Countable StorageValue.
Proof. by_iso (λ '(mkStorageValue a b c), (a, b, c)) (λ '(a, b, c), mkStorageValue a b c). Defined.
#[global] Instance InterchainQueryResult_eq_dec : EqDecision InterchainQueryResult. Proof. solve_decision. Defined.
#[global] Instance InterchainQueryResult_countable : Countable InterchainQueryResult.
Proof.
  by_iso (λ '(mkInterchainQueryResult a b c), (a, b, c)) (λ '(a, b, c), mkInterchainQueryResult a b c).
Defined.
#[global] Instance NativeTypeWrapper_eq_dec : EqDecision NativeTypeWrapper. Proof. solve_decision. Defined.
#[global] Instance NativeTypeWrapper_countable : Countable NativeTypeWrapper.
Proof. by_iso native_binary mkNativeTypeWrapper. Defined.
#[global] Instance ValenceXykPool_eq_dec : EqDecision ValenceXykPool. Proof. solve_decision. Defined.
#[global] Instance ValenceXykPool_countable : Countable ValenceXykPool.
Proof. by_iso (λ '(mkValenceXykPool a b c), (a, b, c)) (λ '(a, b, c), mkValenceXykPool a b c). Defined.
#[global] Instance ValenceBankBalance_eq_dec : EqDecision ValenceBankBalance. Proof. solve_decision. Defined.
#[global] Instance ValenceBankBalance_countable : Countable ValenceBankBalance.
Proof. by_iso balance_assets mkValenceBankBalance. Defined.
#[global] Instance ValenceType_eq_dec : EqDecision ValenceType. Proof. solve_decision. Defined.
#[global] Instance ValenceType_countable : Countable ValenceType.
Proof.
  by_iso (λ x, match x with XykPool a => inl a | BankBalance a => inr a end)
    (λ y, match y with inl a => XykPool a | inr a => BankBalance a end).
Defined.
#[global] Instance RegistryQueryMsg_eq_dec : EqDecision RegistryQueryMsg. Proof. solve_decision. Defined.
#[global] Instance RegistryQueryMsg_countable : Countable RegistryQueryMsg.
Proof.
  by_iso (λ x, match x with
    | FromCanonical a => inl (inl a)
    | ToCanonical a b => inl (inr (a, b))
    | QueryKVKey a b => inr (inl (a, b))
    | ReconstructProto a b => inr (inr (a, b)) end)
    (λ y, match y with
    | inl (inl a) => FromCanonical a
    | inl (inr (a, b)) => ToCanonical a b
    | inr (inl (a, b)) => QueryKVKey a b
    | inr (inr (a, b)) => ReconstructProto a b end).
Defined.
#[global] Instance PoolAsset_eq_dec : EqDecision PoolAsset. Proof. solve_decision. Defined.
#[global] Instance PoolAsset_countable : Countable PoolAsset.
Proof. by_iso (λ '(mkPoolAsset a b), (a, b)) (λ '(a, b), mkPoolAsset a b). Defined.
#[global] Instance Pool_eq_dec : EqDecision (Pool string). Proof. solve_decision. Defined.
#[global] Instance Pool_countable : Countable (Pool string).
Proof.
  by_iso (λ '(mkPool a b c d e f g : Pool string), (a, b, c, (d, e, f, g)))
    (λ '(a, b, c, (d, e, f, g)), mkPool a b c d e f g : Pool string).
Defined.
#[global] Instance QueryBalanceResponse_eq_dec : EqDecision QueryBalanceResponse. Proof. solve_decision. Defined.
#[global] Instance QueryBalanceResponse_countable : Countable QueryBalanceResponse.
Proof. by_iso balance mkQueryBalanceResponse. Defined.
#[global] Instance Balances_eq_dec : EqDecision Balances. Proof. solve_decision. Defined.
#[global] Instance Balances_countable : Countable Balances.
Proof. by_iso balances_coins mkBalances. Defined.
(** The two types of balances share their encoding; a field that is missing is [None]. *)
#[global] Instance ref_balances_codec : JsonCodec Balances := {
  to_json_binary x := Ok (bits_of_positive (encode (inr x : QueryBalanceResponse + Balances)));
  from_json b := match (decode (positive_of_bits b) : option (QueryBalanceResponse + Balances)) with
                 | Some (inr x) => Ok x
                 | _ => Err (GenericErr "missing field")
                 end;
}.
#[global] Instance ref_balance_codec : JsonCodec QueryBalanceResponse := {
  to_json_binary x := Ok (bits_of_positive (encode (inl x : QueryBalanceResponse + Balances)));
  from_json b := match (decode (positive_of_bits b) : option (QueryBalanceResponse + Balances)) with
                 | Some (inl x) => Ok x
                 | Some (inr _) => Ok (mkQueryBalanceResponse None)
                 | None => Err (GenericErr "parse")
                 end;
}.
#[global] Instance ref_osmosis_icq : OsmosisIcq string := {
  Any_decode b := Ok (mkAnyMsg "/osmosis.gamm.v1beta1.Pool" b);
  Pool_try_from_any a := ref_any_get a;
  ProtoCoin_from c := mkProtoCoin (coin_denom c) (pretty (coin_amount c));
  decode_and_convert a := Ok (bits_of_positive (encode a));
  create_account_denom_balance_key a d := Some (a ++ bits_of_positive (encode d));
  BANK_STORE_KEY := "bank";
  reconstruct_balances l := match l with
                            | v :: _ => match decode (positive_of_bits (storage_value v)) with
                                        | Some coins => Ok (mkBalances coins)
                                        | None => Err "parse"
                                        end
                            | [] => Err "empty"
                            end;
}.
#[global] Instance ref_osmosis_icq_laws : OsmosisIcqLaws string.
Proof. by split. Qed.

Definition sample_osmo_pool : Pool string :=
  mkPool "osmo1pool" 1 (Some "0.003") "128h" (Some (mkProtoCoin "gamm/pool/1" "100"))
    [mkPoolAsset (Some (mkProtoCoin "uatom" "300")) "1"; mkPoolAsset (Some (mkProtoCoin "uosmo" "700")) "1"] "2".
Lemma sample_osmo_representable : representable sample_osmo_pool.
Proof.
  split; [by eexists| |].
  - repeat constructor; [exists "uatom", 300%N|exists "uosmo", 700%N]; (split; [by vm_compute|by apply N.leb_le]).
  - apply (bool_decide_unpack _). by vm_compute.
Qed.
Definition sample_osmo_json : Binary :=
  match to_json_binary sample_osmo_pool with Ok b => b | _ => [] end.
Lemma pool_canonical_roundtrip_witness :
  ∃ canonical p, OsmosisRegistry.query (PoolParams := string)
      (ToCanonical OsmosisRegistry.POOL_TYPE sample_osmo_json) = Ok canonical ∧
    from_json canonical = Ok (XykPool p) ∧ length (pool_assets p) = 2%nat.
Proof.
  destruct (pool_canonical_roundtrip sample_osmo_pool sample_osmo_json sample_osmo_representable)
    as (canonical & p & wrapped & H1 & H2 & _ & H4 & _); [reflexivity|].
  exists canonical, p. split; [exact H1|]. split; [exact H2|exact H4].
Defined.

(** A balance of 5 [uosmo]. *)
Definition sample_balance_result : InterchainQueryResult :=
  mkInterchainQueryResult [mkStorageValue "bank" [] (bits_of_positive (encode [mkCoin "uosmo" 5]))] 1 1.
Definition sample_balance_wrapped : Binary :=
  match OsmosisRegistry.query (PoolParams := string)
    (ReconstructProto OsmosisRegistry.BALANCE_TYPE sample_balance_result) with Ok b => b | _ => [] end.
Lemma bank_result_not_canonical_witness :
  ∃ w : NativeTypeWrapper, from_json sample_balance_wrapped = Ok w ∧
    ∀ canonical, OsmosisRegistry.query (PoolParams := string)
      (ToCanonical OsmosisRegistry.BALANCE_TYPE (native_binary w)) ≠ Ok canonical.
Proof.
  eexists. split; [vm_compute; reflexivity|].
  apply (bank_result_not_canonical sample_balance_result sample_balance_wrapped); [|vm_compute; reflexivity..].
  intros x b y Hb. assert (b = bits_of_positive (encode (inr x : QueryBalanceResponse + Balances))) as ->
    by (unfold to_json_binary, ref_balances_codec in Hb; congruence).
  unfold from_json, ref_balance_codec.
  rewrite positive_of_bits_of_positive, decode_encode. by intros [= <-].
Defined.
