(* ===== verification/IcQuerierTheorems.v ===== *)
(** * The interchain querier: registrations in every run, and the way of a result

    The registrations of the library and the queries that the module keeps open for it
    agree in every run; a delivered result goes through broker and type registry into the
    storage account. *)
From Stdlib Require Import Strings.Byte.
From S2P Require Import Prelude Platform Types Format Accounts InterchainAccount Protocols LibraryBase.
From S2P Require Import LibraryProofs Middleware TypeRegistry IcQuerier MiddlewareTheorems TypeRegistryTheorems Codec LibraryCodec.
Import Library.

Section Registrations.
Import NeutronIcQuerier.
Context `{CPl : Platform} `{CIq : NeutronIcq} `{COw : CwOwnable} `{CDb : CwOwnableDebug}.
Context `{CBq : JsonCodec TypeBroker.QueryMsg} `{CKv : JsonCodec KVKey} `{CNt : JsonCodec NativeTypeWrapper}.
Context `{CVt : JsonCodec ValenceType} `{CSa : JsonCodec (StorageAccount.ExecuteMsg ValenceType)}.
Abbreviation St := (storage LibraryConfig Config ()).

Definition icq_lib : LibraryFns LibraryConfig Config () FunctionMsgs LibraryConfigUpdate :=
  mkLibraryFns process_function update_config.

(** What the two functions do when they succeed. *)
Lemma query_register_ok q env info c t (s s' : St) r :
  register_kv_query q env info c t s = Ok (r, s') →
  let nonce := N.of_nat (size (pending_query_registrations c)) in
  ∃ d k m, query_definitions c !! t = Some d ∧
    query_wasm_smart (q_protocols q) (broker_addr (querier_config c))
      (TypeBroker.mkQueryMsg (registry_version d) (QueryKVKey (type_url d) (params d))) = Ok k ∧
    register_interchain_query [k] (connection_id (querier_config c)) (update_period d) = Ok m ∧
    resp_messages r = [SubMsg_reply_on_success m nonce] ∧
    s' = lset CONFIG_KEY (Some (with_queries (query_definitions c) (registered_queries c)
           (<[nonce := t]> (pending_query_registrations c)) c)) s.
Proof.
  unfold register_kv_query, save_config. intros Hrun. run_inv.
  match goal with H : map_err_r _ _ = Ok _ |- _ => apply map_err_r_ok in H end. by repeat eexists.
Qed.
Lemma deregister_ok q info c t (s s' : St) r :
  deregister_kv_query q info c t s = Ok (r, s') →
  ∃ d id deposit, query_definitions c !! t = Some d ∧ query_id d = Some id ∧
    pq_icq_registered_deposit (q_protocols q) id = Ok deposit ∧
    resp_messages r = [SubMsg_new (remove_interchain_query id);
      SubMsg_new (CosmosBankSend (info_sender info) deposit)] ∧
    s' = lset CONFIG_KEY (Some (with_queries (<[t := set_query_id None d]> (query_definitions c))
           (delete id (registered_queries c)) (pending_query_registrations c) c)) s.
Proof. unfold deregister_kv_query, save_config. intros Hrun. run_inv. by repeat eexists. Qed.
Lemma icq_update_ok q env info u (s s' : St) v :
  update_config q env info u s = Ok (v, s') →
  ∃ c c', s_config s = Some c ∧ s' = lset CONFIG_KEY (Some c') s ∧
    query_definitions c' = query_definitions c ∧ registered_queries c' = registered_queries c ∧
    pending_query_registrations c' = pending_query_registrations c.
Proof.
  unfold update_config, load_config, save_config. intros Hu. run_inv. eexists _, _.
  split; [done|]. split; [done|].
  match goal with H : update_fields _ _ _ = Ok _ |- _ => unfold update_fields in H;
    apply bind_result_ok in H as (? & _ & (? & _ & (? & _ & [= <-])%bind_result_ok)%bind_result_ok) end.
  done.
Qed.
(** A function changes the tables of queries only. *)
Definition icq_kept (c c' : Config) : Prop := ∃ defs queries pending, c' = with_queries defs queries pending c.
#[global] Instance icq_laws : LibraryLaws icq_lib (λ _, True) icq_kept (λ _, True).
Proof.
  split; [done|by intros ???????????|..].
  - intros q env info u s v s' (c & c' & _ & -> & _)%(icq_update_ok q env info). done.
  - unfold icq_kept. intros q env info [t|t] c s r s' Hp Hc; simpl in Hp;
      [apply query_register_ok in Hp as (? & ? & ? & _ & _ & _ & _ & ->)|
       apply deregister_ok in Hp as (? & ? & ? & _ & _ & _ & _ & ->)]; simpl; eauto 10.
  - intros q env info [t|t] c s r s' Hp; simpl in Hp;
      [apply query_register_ok in Hp as (? & ? & ? & _ & _ & _ & _ & ->)|
       apply deregister_ok in Hp as (? & ? & ? & _ & _ & _ & _ & ->)]; done.
Qed.

(** ** Runs

    [open] are the queries that the module keeps for the library, with the name the
    library knows them by, [used] all ids the module has assigned to it so far: it never
    assigns an id twice.  A registration is a transaction with the reply of its
    sub-message. *)
Inductive icq_step : St * gmap N string * gset N → St * gmap N string * gset N → Prop :=
| icq_register q env info t r s s1 msg nonce outcome response data gas id rr s2 open used :
    lib_execute icq_lib q env info (ProcessFunction (RegisterKvQuery t)) s = Ok (r, s1) →
    resp_messages r = [SubMsg_reply_on_success msg nonce] →
    outcome = OutcomeOk response → response_data response = Some data →
    MsgRegisterInterchainQueryResponse_from_slice data = Ok id → id ∉ used →
    reply env (mkHostReply nonce [] gas outcome) s1 = Ok (rr, s2) →
    icq_step (s, open, used) (s2, <[id := t]> open, {[id]} ∪ used)
| icq_deregister q env info t r s s' id rest open used :
    lib_execute icq_lib q env info (ProcessFunction (DeregisterKvQuery t)) s = Ok (r, s') →
    resp_messages r = SubMsg_new (remove_interchain_query id) :: rest →
    icq_step (s, open, used) (s', delete id open, used)
| icq_other q env info msg r s s' open used :
    (∀ f, msg ≠ ProcessFunction f) →
    lib_execute icq_lib q env info msg s = Ok (r, s') → icq_step (s, open, used) (s', open, used)
| icq_sudo q env msg r s s' open used :
    sudo q env msg s = Ok (r, s') → icq_step (s, open, used) (s', open, used).

(** The library and the module agree. *)
Record icq_tracked (defs : gmap string QueryDefinition) (s : St) (open : gmap N string)
    (used : gset N) (c : Config) : Prop := {
  it_config : s_config s = Some c;
  it_pending : pending_query_registrations c = ∅;
  it_registered : registered_queries c = open;
  it_current t d id :
    query_definitions c !! t = Some d → query_id d = Some id → open !! id = Some t;
  it_defined id t : open !! id = Some t → is_Some (query_definitions c !! t);
  it_used : dom open ⊆ used;
  it_static : set_query_id None <$> query_definitions c = defs;
}.
#[global] Instance icq_sudo_ro q env msg : ReadOnly (sudo q env msg).
Proof. unfold sudo, handle_sudo_kv_query_result. apply _. Qed.
Lemma query_reply_ok env nonce bytes gas response data id (s s' : St) r :
  response_data response = Some data → MsgRegisterInterchainQueryResponse_from_slice data = Ok id →
  reply env (mkHostReply nonce bytes gas (OutcomeOk response)) s = Ok (r, s') →
  ∃ c t d, s_config s = Some c ∧ pending_query_registrations c !! nonce = Some t ∧
    query_definitions c !! t = Some d ∧
    s' = lset CONFIG_KEY (Some (with_queries (<[t := set_query_id (Some id) d]> (query_definitions c))
      (<[id := t]> (registered_queries c)) (delete nonce (pending_query_registrations c)) c)) s.
Proof.
  intros Hd Hid. unfold reply. simpl. intros Hrun.
  apply Exec_bind_ok in Hrun as (resp & s1 & [Hresp ->]%of_result_ok & Hrun). injection Hresp as <-.
  apply Exec_bind_ok in Hrun as (b & s2 & [Hb ->]%ok_or_ok & Hrun). rewrite Hd in Hb. injection Hb as <-.
  apply Exec_bind_ok in Hrun as (id' & s3 & [Hid' ->]%of_result_ok & Hrun).
  rewrite map_err_r_ok, Hid in Hid'. injection Hid' as <-.
  apply Exec_bind_ok in Hrun as (c & s4 & [Hc ->]%item_load_ok & Hrun).
  destruct (pending_query_registrations c !! nonce) as [t|] eqn:Ht; [|done].
  apply Exec_bind_ok in Hrun as (d & s5 & [Hdef ->]%ok_or_ok & Hrun). run_inv. by exists c, t, d.
Qed.
Lemma set_query_id_twice a b d : set_query_id a (set_query_id b d) = set_query_id a d.
Proof. done. Qed.
(** Recording an id changes nothing else of a definition. *)
Lemma static_insert t d x (m : gmap string QueryDefinition) :
  m !! t = Some d → set_query_id None <$> <[t := set_query_id x d]> m = set_query_id None <$> m.
Proof.
  intros Hd. rewrite fmap_insert, set_query_id_twice. apply insert_id. by rewrite lookup_fmap, Hd.
Qed.

Context `{!NeutronIcqLaws} `{!CwOwnableLaws}.
(** What a step does to the configuration [c] and to the open queries: a query is
    registered under a new id, the current query of a name is removed, or nothing
    changes. *)
Inductive icq_effect (c : Config) (open : gmap N string) (used : gset N)
    : Config → gmap N string → gset N → Prop :=
| effect_register t d id c' :
    query_definitions c !! t = Some d → id ∉ used →
    query_definitions c' = <[t := set_query_id (Some id) d]> (query_definitions c) →
    registered_queries c' = <[id := t]> (registered_queries c) → pending_query_registrations c' = ∅ →
    icq_effect c open used c' (<[id := t]> open) ({[id]} ∪ used)
| effect_deregister t d id c' :
    query_definitions c !! t = Some d → query_id d = Some id →
    query_definitions c' = <[t := set_query_id None d]> (query_definitions c) →
    registered_queries c' = delete id (registered_queries c) → pending_query_registrations c' = ∅ →
    icq_effect c open used c' (delete id open) used
| effect_none c' :
    query_definitions c' = query_definitions c → registered_queries c' = registered_queries c →
    pending_query_registrations c' = ∅ → icq_effect c open used c' open used.

Lemma icq_step_effect s open used s' open' used' c :
  icq_step (s, open, used) (s', open', used') →
  s_config s = Some c → pending_query_registrations c = ∅ →
  ∃ c', s_config s' = Some c' ∧ icq_effect c open used c' open' used'.
Proof.
  intros Hstep Hc Hpend. inversion Hstep as
    [q env info t r s0 s1 msg nonce outcome response data gas id rr s2 ? ? Hex Hmsg -> Hdata Hid Hfresh Hrep
    |q env info t r s0 s1 id rest ? ? Hex Hmsg|q env info msg r s0 s1 ? ? Hne Hex|q env msg r s0 s1 ? ? Hex]; subst.
  - apply lib_execute_process in Hex as (c0 & _ & Hc0 & Hf). rewrite Hc in Hc0. injection Hc0 as <-.
    apply query_register_ok in Hf as (d & k & m & Hd & _ & _ & Hr & ->). rewrite Hmsg in Hr. injection Hr as -> _.
    destruct (query_reply_ok _ _ _ _ _ _ _ _ _ _ Hdata Hid Hrep) as (c1 & t1 & d1 & [= <-] & Hp & Hd1 & ->).
    simpl in Hp, Hd1. rewrite lookup_insert_eq in Hp. injection Hp as <-.
    eexists. split; [done|]. eapply effect_register; [done|done|by simplify_eq|done|]. simpl.
    by rewrite Hpend, delete_insert_id.
  - apply lib_execute_process in Hex as (c0 & _ & Hc0 & Hf). rewrite Hc in Hc0. injection Hc0 as <-.
    apply deregister_ok in Hf as (d & id' & dep & Hd & Hid' & _ & Hr & ->). rewrite Hmsg in Hr.
    injection Hr as ->%remove_interchain_query_inj _.
    eexists. split; [done|]. by eapply effect_deregister.
  - destruct msg as [f|u|p|a]; [by destruct (Hne f)|..].
    + apply lib_execute_update in Hex as (raw & v & _ & _ & Hu & _). simpl in Hu.
      apply (icq_update_ok q env info) in Hu as (c0 & c' & Hc0 & -> & H1 & H2 & H3). simpl in Hc0.
      rewrite Hc in Hc0. injection Hc0 as <-. exists c'. split; [done|]. apply effect_none; congruence.
    + apply (lib_execute_access icq_lib (λ _, True) icq_kept (λ _, True)) in Hex as (_ & a & _ & -> & _).
      exists c. split; [done|by apply effect_none].
    + apply (lib_execute_access icq_lib (λ _, True) icq_kept (λ _, True)) in Hex as (o & _ & -> & _).
      exists c. split; [done|by apply effect_none].
  - apply read_only in Hex as ->. exists c. split; [done|by apply effect_none].
Qed.
Lemma icq_effect_tracked defs s s' open used open' used' c c' :
  icq_effect c open used c' open' used' → icq_tracked defs s open used c → s_config s' = Some c' →
  icq_tracked defs s' open' used' c'.
Proof.
  intros Heff [Hc Hp Hr Hcur Hdef Hu Hst] Hc'.
  destruct Heff as [t d id c' Hd Hfresh E1 E2 E3|t d id c' Hd Hid E1 E2 E3|c' E1 E2 E3];
    (split; rewrite ?E1, ?E2; [done|done|by rewrite Hr|..]); try done.
  - intros t' d' id'. rewrite lookup_insert. case_decide as Ht; [subst t'|].
    + intros [= <-] [= <-]. by rewrite lookup_insert_eq.
    + intros Hd' Hid'. specialize (Hcur _ _ _ Hd' Hid'). rewrite lookup_insert_ne; [done|].
      intros ->. apply Hfresh, Hu, elem_of_dom. by eexists.
  - intros id' t'. rewrite !lookup_insert. case_decide; [intros [= <-]; by rewrite decide_True|].
    intros Ho%Hdef. by case_decide.
  - rewrite dom_insert_L. set_solver.
  - by rewrite static_insert.
  - intros t' d' id'. rewrite lookup_insert. case_decide as Ht; [by intros [= <-]|].
    intros Hd' Hid'. specialize (Hcur _ _ _ Hd' Hid') as Ho. rewrite lookup_delete_ne; [done|].
    intros ->. specialize (Hcur _ _ _ Hd Hid). congruence.
  - intros id' t' [_ Ho%Hdef]%lookup_delete_Some. rewrite lookup_insert. by case_decide.
  - rewrite dom_delete_L. set_solver.
  - by rewrite static_insert.
Qed.
Lemma icq_step_tracked defs s open used s' open' used' c :
  icq_step (s, open, used) (s', open', used') → icq_tracked defs s open used c →
  ∃ c', icq_tracked defs s' open' used' c' ∧ icq_effect c open used c' open' used'.
Proof.
  intros Hs Ht. destruct (icq_step_effect _ _ _ _ _ _ c Hs) as (c' & Hc' & He); [by destruct Ht..|].
  exists c'. split; [by eapply icq_effect_tracked|done].
Qed.

(** Right after the instantiation nothing is registered. *)
Lemma check_definitions_ok check l u :
  check_definitions check l = Ok u → Forall (λ kd, check kd.2 = Ok ()) l.
Proof.
  induction l as [|[k d] l IH]; simpl; [by constructor|].
  intros ([] & Hd & Hl)%bind_result_ok. constructor; [done|by apply IH].
Qed.
Lemma icq_instantiated q name version msg r (s : St) :
  instantiate q name version msg (empty_storage ()) = Ok (r, s) →
  ∃ c, icq_tracked (raw_query_definitions (li_config msg)) s ∅ ∅ c.
Proof.
  intros (c & Hv & Hc & _)%lib_instantiate_ok. exists c. simpl in Hv.
  apply bind_result_ok in Hv as ([[a qc] defs] & Hd & [= <-]).
  unfold do_validate in Hd.
  apply bind_result_ok in Hd as (? & _ & (? & _ & (? & Hck & [= _ _ <-])%bind_result_ok)%bind_result_ok).
  assert (∀ t d, raw_query_definitions (li_config msg) !! t = Some d → query_id d = None) as Hnone.
  { intros t d Hd. apply (elem_of_map_range String.leb) in Hd.
    apply check_definitions_ok in Hck. rewrite Forall_forall in Hck. specialize (Hck _ Hd).
    apply bind_result_ok in Hck as (? & _ & Hn%ensure_r_ok). by apply bool_decide_eq_true_1 in Hn. }
  split; simpl; try done.
  - intros t d id Hd. by rewrite (Hnone _ _ Hd).
  - apply map_eq. intros t. rewrite lookup_fmap.
    destruct (raw_query_definitions (li_config msg) !! t) as [d|] eqn:Hd; [|done]. simpl. f_equal.
    apply Hnone in Hd. by destruct d; simpl in *; subst.
Qed.
Lemma icq_run_tracked defs st st' c :
  rtc icq_step st st' → icq_tracked defs st.1.1 st.1.2 st.2 c →
  ∃ c', icq_tracked defs st'.1.1 st'.1.2 st'.2 c'.
Proof.
  intros Hrun. revert c. induction Hrun as [st|[[s o] u] [[s2 o2] u2] st3 Hs _ IH]; intros c Ht; [by exists c|].
  destruct (icq_step_tracked _ _ _ _ _ _ _ _ Hs Ht) as (c2 & Ht2 & _). by eapply IH.
Qed.
(** A result of a query that is not open is refused. *)
Lemma sudo_unknown q env id c (s : St) r s' :
  s_config s = Some c → registered_queries c !! id = None → sudo q env (KVQueryResult id) s ≠ Ok (r, s').
Proof.
  intros Hc Hid. simpl. unfold handle_sudo_kv_query_result, mbind, Exec_bind, of_result, map_err_r.
  destruct (pq_icq_result (q_protocols q) id) as [x|x|]; simpl; [|done..].
  unfold item_load. simpl. rewrite Hc. unfold ok_or. by rewrite Hid.
Qed.
(** A registered query can be deregistered when its deposit is known. *)
Lemma deregister_run q env info t d id deposit c (s : St) :
  s_processor s = Some (info_sender info) → s_config s = Some c →
  query_definitions c !! t = Some d → query_id d = Some id →
  pq_icq_registered_deposit (q_protocols q) id = Ok deposit →
  ∃ r s', lib_execute icq_lib q env info (ProcessFunction (DeregisterKvQuery t)) s = Ok (r, s') ∧
    resp_messages r = [SubMsg_new (remove_interchain_query id);
      SubMsg_new (CosmosBankSend (info_sender info) deposit)].
Proof.
  intros Hp Hc Hd Hid Hdep. eexists _, _. split; [|shelve].
  apply lib_execute_process. exists c. do 2 (split; [done|]). simpl.
  unfold deregister_kv_query, ok_or, mbind, Exec_bind. rewrite Hd, Hid. cbn. by rewrite Hdep.
  Unshelve. done.
Qed.

(** An open query that no definition names. *)
Definition orphan (c : Config) (open : gmap N string) (id : N) (t : string) : Prop :=
  open !! id = Some t ∧ ∀ t' d, query_definitions c !! t' = Some d → query_id d ≠ Some id.
Lemma orphan_kept c open used c' open' used' id t :
  icq_effect c open used c' open' used' → dom open ⊆ used → orphan c open id t → orphan c' open' id t.
Proof.
  intros Heff Hu [Ho Hno]. assert (id ∈ used) as Hin by (apply Hu, elem_of_dom; by eexists).
  destruct Heff as [t1 d1 id1 c' Hd Hfresh E1 _ _|t1 d1 id1 c' Hd Hid E1 _ _|c' E1 _ _]; split;
    rewrite ?E1; try done.
  - rewrite lookup_insert_ne; [done|]. by intros ->.
  - intros t' d'. rewrite lookup_insert. case_decide; [|by apply Hno]. intros [= <-] [= ->]. done.
  - rewrite lookup_delete_ne; [done|]. intros ->. by eapply Hno.
  - intros t' d'. rewrite lookup_insert. case_decide; [by intros [= <-]|by apply Hno].
Qed.
Lemma orphan_run defs st st' c id t :
  rtc icq_step st st' → icq_tracked defs st.1.1 st.1.2 st.2 c → orphan c st.1.2 id t →
  ∃ c', icq_tracked defs st'.1.1 st'.1.2 st'.2 c' ∧ orphan c' st'.1.2 id t.
Proof.
  intros Hrun. revert c. induction Hrun as [st|[[s o] u] [[s2 o2] u2] st3 Hs _ IH]; intros c Ht Ho; [by exists c|].
  destruct (icq_step_tracked _ _ _ _ _ _ _ _ Hs Ht) as (c2 & Ht2 & He).
  eapply IH; [done|]. eapply orphan_kept; [done|apply Ht|done].
Qed.
End Registrations.

(** ** From the result to the slot *)
(** A storage account stores for an approved library, and nothing else changes. *)
Lemma approved_store `{Platform} `{CwOwnable} `{!CwOwnableLaws} `{CwOwnableDebug} debug env sender key v (a : Slots) :
  is_Some (StorageAccount.s_ownership a) → is_Some (StorageAccount.s_approved_libraries a !! sender) →
  ∃ r a', StorageAccount.execute debug env (mkInfo sender []) (StorageAccount.StoreValenceType key v) a = Ok (r, a') ∧
    StorageAccount.s_valence_type_store a' = <[key := v]> (StorageAccount.s_valence_type_store a).
Proof.
  intros [o Ho] [u Hu]. simpl.
  unfold StorageAccount.try_store_valence_type, StorageAccount.assert_owner_or_library.
  assert (is_owner (Some o) sender = Ok (bool_decide (own_owner o = Some sender))) as Hown
    by (by apply is_owner_spec).
  eexists _, _. split; [|shelve]. unfold mbind, Exec_bind, get_storage, of_result. simpl. rewrite Ho, Hown.
  simpl. unfold map_has. simpl. rewrite Hu, orb_true_r. simpl. reflexivity.
  Unshelve. done.
Qed.
Section Delivery.
Import NeutronIcQuerier.
Context {P : Type} `{CIc : OsmosisIcq P}.
Context `{CSt : JsonCodec string} `{CN : JsonCodec N} `{COp : JsonCodec (option P)}.
Context `{CPo : JsonCodec (Pool P)} `{CQb : JsonCodec QueryBalanceResponse} `{CBa : JsonCodec Balances}.
Context `{CVt : JsonCodec ValenceType} `{CNt : JsonCodec NativeTypeWrapper} `{CKv : JsonCodec KVKey}.
Context `{!JsonCodecLaws string} `{!JsonCodecLaws N} `{!JsonCodecLaws (option P)}.
Context `{!JsonCodecLaws (Pool P)} `{!JsonCodecLaws ValenceType} `{!JsonCodecLaws NativeTypeWrapper}.
Context `{!JsonCodecLaws KVKey} `{CRq : JsonCodec RegistryQueryMsg} `{!JsonCodecLaws RegistryQueryMsg}.
Context `{CBq : JsonCodec TypeBroker.QueryMsg} `{!JsonCodecLaws TypeBroker.QueryMsg}.
Context `{CSa : JsonCodec (StorageAccount.ExecuteMsg ValenceType)}.
Context `{!JsonCodecLaws (StorageAccount.ExecuteMsg ValenceType)}.

(** The chain hosts the broker, and the registry that the broker asks for a version. *)
Record hosted (q : ProtocolQuerier) (broker : string) (sb : TypeBroker.storage)
    (version : option string) : Prop := {
  ho_broker : answers_at q broker (TypeBroker.query q sb);
  ho_registry : ∃ addr, broker_registry sb version = Some addr ∧
    answers_at q addr (OsmosisRegistry.query (PoolParams := P));
}.
(** A query of the registry through the broker. *)
Lemma ask_hosted {A} `{JsonCodec A} q broker sb version msg b (a : A) :
  hosted q broker sb version → OsmosisRegistry.query (PoolParams := P) msg = Ok b → from_json b = Ok a →
  query_wasm_smart q broker (TypeBroker.mkQueryMsg version msg) = Ok a.
Proof.
  intros [Hb (addr & Hr & Ha)] Hq Hf. eapply answers_query; [exact Hb| |exact Hf].
  eapply broker_passes_on; [exact Hr|exact Ha|exact Hq|by apply registry_typed in Hq].
Qed.
(** The remote pool that a result carries. *)
Definition delivers (q : ProtocolQuerier) (id : N) (pool : Pool P) : Prop :=
  ∃ res v any, pq_icq_result q id = Ok res ∧ head (kv_results res) = Some v ∧
    Any_decode (storage_value v) = Ok any ∧ Pool_try_from_any any = Some pool.
Lemma pool_result_sent q env id pool coins c t d sb (s : storage LibraryConfig Config ()) :
  s_config s = Some c → registered_queries c !! id = Some t → query_definitions c !! t = Some d →
  type_url d = OsmosisRegistry.POOL_TYPE →
  hosted (q_protocols q) (broker_addr (querier_config c)) sb (registry_version d) →
  delivers (q_protocols q) id pool → same_coins (gp_pool_assets pool) coins →
  ∃ r body p, sudo q env (KVQueryResult id) s = Ok (r, s) ∧
    resp_messages r = [SubMsg_new (CosmosWasm (WasmExecute (storage_acc_addr c) body []))] ∧
    from_json body = Ok (StorageAccount.StoreValenceType t (XykPool p)) ∧
    pool_assets p = coins ∧ total_shares p = default "" (proto_amount <$> gp_total_shares pool).
Proof.
  intros Hc Hid Hd Hty Hh (res & v & any & Hres & Hv & Hany & Hpool) Hcoins.
  destruct (to_json_total pool) as [native Hnat]. destruct (pool_canonical pool coins Hcoins) as (fields & Hto & _).
  set (p := mkValenceXykPool _ _ fields) in Hto.
  destruct (to_json_total (mkNativeTypeWrapper native)) as [b1 Hb1]. destruct (to_json_total (XykPool p)) as [b2 Hb2].
  destruct (to_json_total (StorageAccount.StoreValenceType t (XykPool p))) as [body Hbody].
  assert (query_wasm_smart (q_protocols q) (broker_addr (querier_config c))
    (TypeBroker.mkQueryMsg (registry_version d) (ReconstructProto (type_url d) res)) = Ok (mkNativeTypeWrapper native)) as H1.
  { eapply ask_hosted; [exact Hh| |by apply from_to_json]. rewrite Hty, query_pool_reconstruct.
    unfold OsmosisRegistry.pool_reconstruct. rewrite Hv. simpl. rewrite Hany. simpl. rewrite Hpool. simpl.
    by rewrite Hnat. }
  assert (query_wasm_smart (q_protocols q) (broker_addr (querier_config c))
    (TypeBroker.mkQueryMsg (registry_version d) (ToCanonical (type_url d) native)) = Ok (XykPool p)) as H2.
  { eapply ask_hosted; [exact Hh| |by apply from_to_json]. rewrite Hty, query_pool_canonical.
    rewrite (from_to_json _ _ Hnat). simpl. by rewrite Hto. }
  eexists _, body, p. split_and!; [|shelve|by apply from_to_json|done|done].
  simpl. unfold handle_sudo_kv_query_result, mbind, Exec_bind, of_result, item_load, ok_or.
  rewrite Hres. simpl. rewrite Hc, Hid, Hd, H1. simpl. rewrite H2. simpl. by rewrite Hbody.
  Unshelve. done.
Qed.
End Delivery.

(** C33 The registrations of the interchain querier are exact.  In every run, with the
    module [interchainqueries] never assigning an id twice: no registration is left
    pending between transactions; the registered queries are exactly those the module
    keeps open for the library, each under the name of a definition; the definitions are
    those of the instantiation, whatever updates were accepted, up to the id of the
    current query; the query a definition names as its current one is open, and
    deregistering it removes it and sends the recovered deposit to the caller; results of
    queries that are not open are refused. *)
Theorem icq_registrations_exact
    `{Platform} `{NeutronIcq} `{!NeutronIcqLaws} `{CwOwnable} `{!CwOwnableLaws} `{CwOwnableDebug}
    `{JsonCodec TypeBroker.QueryMsg} `{JsonCodec KVKey} `{JsonCodec NativeTypeWrapper}
    `{JsonCodec ValenceType} `{JsonCodec (StorageAccount.ExecuteMsg ValenceType)}
    q0 name version msg r0 (s0 s : storage NeutronIcQuerier.LibraryConfig NeutronIcQuerier.Config ()) open used :
  instantiate q0 name version msg (empty_storage ()) = Ok (r0, s0) →
  rtc icq_step (s0, ∅, ∅) (s, open, used) →
  ∃ c, s_config s = Some c ∧ NeutronIcQuerier.pending_query_registrations c = ∅ ∧
    NeutronIcQuerier.registered_queries c = open ∧
    NeutronIcQuerier.set_query_id None <$> NeutronIcQuerier.query_definitions c =
      NeutronIcQuerier.raw_query_definitions (li_config msg) ∧
    (∀ id t, open !! id = Some t → is_Some (NeutronIcQuerier.query_definitions c !! t)) ∧
    (∀ t d id, NeutronIcQuerier.query_definitions c !! t = Some d → NeutronIcQuerier.query_id d = Some id →
       open !! id = Some t ∧
       ∀ q env info deposit, s_processor s = Some (info_sender info) →
         pq_icq_registered_deposit (q_protocols q) id = Ok deposit →
         ∃ r s', lib_execute icq_lib q env info
             (ProcessFunction (NeutronIcQuerier.DeregisterKvQuery t)) s = Ok (r, s') ∧
           resp_messages r = [SubMsg_new (remove_interchain_query id);
             SubMsg_new (CosmosBankSend (info_sender info) deposit)] ∧
           icq_step (s, open, used) (s', delete id open, used)) ∧
    ∀ q env id r s', open !! id = None →
      NeutronIcQuerier.sudo q env (NeutronIcQuerier.KVQueryResult id) s ≠ Ok (r, s').
Proof.
  intros (c0 & Hinit)%icq_instantiated Hrun. destruct (icq_run_tracked _ _ _ _ Hrun Hinit) as (c & Ht).
  pose proof Ht as [Hc Hp Hr Hcur Hdef Hu Hst]. simpl in *. exists c. split_and!; [done..| |].
  - intros t d id Hd Hid. split; [by eapply Hcur|]. intros q env info deposit Hproc Hdep.
    destruct (deregister_run q env info t d id deposit c s) as (r & s' & He & Hm); try done.
    exists r, s'. do 2 (split; [done|]). by eapply icq_deregister.
  - intros q env id r s' Ho. apply (sudo_unknown q env id c s r s' Hc). by rewrite Hr.
Qed.

(** C34 A delivered pool reaches the storage account.  In every state of the interchain
    querier: when the module delivers the result of an open query whose definition asks
    for pools of Osmosis, and the result carries a pool, then the library, asking the
    type registry through the broker, has the storage account it is configured with store
    the canonical pool, with exactly the tokens of the remote pool and their amounts,
    under the name of the query; the account, which approved the library, has that value
    in its slot afterwards and its other slots unchanged. *)
Theorem icq_pool_stored {P : Type} `{OsmosisIcq P}
    `{Platform} `{NeutronIcq} `{!NeutronIcqLaws} `{CwOwnable} `{!CwOwnableLaws} `{CwOwnableDebug}
    `{JsonCodec string} `{JsonCodec N} `{JsonCodec (option P)} `{JsonCodec (Pool P)}
    `{JsonCodec QueryBalanceResponse} `{JsonCodec Balances} `{JsonCodec ValenceType}
    `{JsonCodec NativeTypeWrapper} `{JsonCodec KVKey} `{JsonCodec RegistryQueryMsg}
    `{JsonCodec TypeBroker.QueryMsg} `{JsonCodec (StorageAccount.ExecuteMsg ValenceType)}
    `{!JsonCodecLaws string} `{!JsonCodecLaws N} `{!JsonCodecLaws (option P)} `{!JsonCodecLaws (Pool P)}
    `{!JsonCodecLaws ValenceType} `{!JsonCodecLaws NativeTypeWrapper} `{!JsonCodecLaws KVKey}
    `{!JsonCodecLaws RegistryQueryMsg} `{!JsonCodecLaws TypeBroker.QueryMsg}
    `{!JsonCodecLaws (StorageAccount.ExecuteMsg ValenceType)}
    q0 name version msg r0 (s0 s : storage NeutronIcQuerier.LibraryConfig NeutronIcQuerier.Config ()) open used
    q env id t d sb (pool : Pool P) coins debug env_a (a : Slots) :
  instantiate q0 name version msg (empty_storage ()) = Ok (r0, s0) →
  rtc icq_step (s0, ∅, ∅) (s, open, used) → open !! id = Some t →
  NeutronIcQuerier.raw_query_definitions (li_config msg) !! t = Some d →
  NeutronIcQuerier.type_url d = OsmosisRegistry.POOL_TYPE →
  (∀ c, s_config s = Some c → hosted (P := P) (q_protocols q)
     (NeutronIcQuerier.broker_addr (NeutronIcQuerier.querier_config c)) sb (NeutronIcQuerier.registry_version d)) →
  delivers (q_protocols q) id pool → same_coins (gp_pool_assets pool) coins →
  is_Some (StorageAccount.s_ownership a) →
  is_Some (StorageAccount.s_approved_libraries a !! env_contract env) →
  ∃ c r body m ra a' p, s_config s = Some c ∧
    NeutronIcQuerier.sudo q env (NeutronIcQuerier.KVQueryResult id) s = Ok (r, s) ∧
    resp_messages r = [SubMsg_new (CosmosWasm (WasmExecute (NeutronIcQuerier.storage_acc_addr c) body []))] ∧
    from_json body = Ok m ∧
    StorageAccount.execute debug env_a (mkInfo (env_contract env) []) m a = Ok (ra, a') ∧
    StorageAccount.query_valence_type t a' = Ok (XykPool p) ∧ pool_assets p = coins ∧
    total_shares p = default "" (proto_amount <$> gp_total_shares pool) ∧
    ∀ k, k ≠ t → StorageAccount.query_valence_type k a' = StorageAccount.query_valence_type k a.
Proof.
  intros (c0 & Hinit)%icq_instantiated Hrun Ho Hraw Hty Hh Hdel Hcoins Hown Happ.
  destruct (icq_run_tracked _ _ _ _ Hrun Hinit) as (c & [Hc _ Hr _ _ _ Hst]). simpl in *.
  assert (∃ d', NeutronIcQuerier.query_definitions c !! t = Some d' ∧
    NeutronIcQuerier.set_query_id None d' = d) as (d' & Hd' & <-).
  { rewrite <-Hst, lookup_fmap in Hraw. by apply fmap_Some in Hraw as (d' & ? & ->); eauto. }
  destruct (pool_result_sent q env id pool coins c t d' sb s Hc) as (r & body & p & Hs & Hm & Hb & Hp & Hsh);
    [by rewrite Hr|done|done|by apply Hh|done|done|].
  destruct (approved_store debug env_a (env_contract env) t (XykPool p) a Hown Happ) as (ra & a' & Ha & Hsl).
  exists c, r, body, (StorageAccount.StoreValenceType t (XykPool p)), ra, a', p.
  split_and!; try done; unfold StorageAccount.query_valence_type; rewrite Hsl.
  - by rewrite lookup_insert_eq.
  - intros k Hk. by rewrite lookup_insert_ne.
Qed.

(** Registering a query again under its name leaves the old one behind: it stays open,
    and its results are accepted, in every later state, whatever is deregistered. *)
Theorem reregistered_query_stays_open
    `{Platform} `{NeutronIcq} `{!NeutronIcqLaws} `{CwOwnable} `{!CwOwnableLaws} `{CwOwnableDebug}
    `{JsonCodec TypeBroker.QueryMsg} `{JsonCodec KVKey} `{JsonCodec NativeTypeWrapper}
    `{JsonCodec ValenceType} `{JsonCodec (StorageAccount.ExecuteMsg ValenceType)}
    q0 name version msg r0 (s0 s s1 s2 : storage NeutronIcQuerier.LibraryConfig NeutronIcQuerier.Config ())
    open used open2 used2 c t d id id' :
  instantiate q0 name version msg (empty_storage ()) = Ok (r0, s0) →
  rtc icq_step (s0, ∅, ∅) (s, open, used) → s_config s = Some c →
  NeutronIcQuerier.query_definitions c !! t = Some d → NeutronIcQuerier.query_id d = Some id →
  id' ∉ used → icq_step (s, open, used) (s1, <[id' := t]> open, {[id']} ∪ used) →
  rtc icq_step (s1, <[id' := t]> open, {[id']} ∪ used) (s2, open2, used2) →
  open2 !! id = Some t ∧
  ∃ c2, s_config s2 = Some c2 ∧ NeutronIcQuerier.registered_queries c2 !! id = Some t ∧
    ∀ t' d', NeutronIcQuerier.query_definitions c2 !! t' = Some d' → NeutronIcQuerier.query_id d' ≠ Some id.
Proof.
  intros (c0 & Hinit)%icq_instantiated Hrun Hc Hd Hid Hfresh Hre Hrun2.
  destruct (icq_run_tracked _ _ _ _ Hrun Hinit) as (c' & Ht). simpl in *.
  assert (c' = c) as -> by (destruct Ht; congruence).
  pose proof (it_current _ _ _ _ _ Ht t d id Hd Hid) as Ho.
  assert (id ∈ used) as Hin by (apply (it_used _ _ _ _ _ Ht), elem_of_dom; by eexists).
  destruct (icq_step_tracked _ _ _ _ _ _ _ c Hre Ht) as (c1 & Ht1 & He).
  assert (orphan c1 (<[id' := t]> open) id t) as Horph.
  { split; [rewrite lookup_insert_ne by (by intros ->); done|].
    intros t' d' Hd' Hid'.
    remember (<[id' := t]> open) as o1 eqn:Eo. remember ({[id']} ∪ used) as u1 eqn:Eu.
    destruct He as [t1 d1 id1 c1 Hd1 Hf1 E1 _ _|t1 d1 id1 c1 Hd1 Hid1 E1 _ _|c1 E1 _ _].
    - rewrite E1 in Hd'. assert (id1 = id') as ->. { assert (id' ∈ {[id1]} ∪ used) by (rewrite Eu; set_solver). set_solver. }
      assert (t1 = t) as ->. { apply (f_equal (lookup id')) in Eo. rewrite !lookup_insert_eq in Eo. by injection Eo. }
      rewrite lookup_insert in Hd'. case_decide as Ht'; [injection Hd' as <-; simpl in Hid'; by simplify_eq|].
      pose proof (it_current _ _ _ _ _ Ht t' d' id Hd' Hid'). congruence.
    - assert (id' ∈ used) by (rewrite Eu; set_solver). done.
    - assert (id' ∈ used) by (rewrite Eu; set_solver). done. }
  destruct (orphan_run _ _ _ _ _ _ Hrun2 Ht1 Horph) as (c2 & Ht2 & [Ho2 Hno2]). simpl in *.
  split; [done|]. exists c2. split_and!; [apply Ht2|by rewrite (it_registered _ _ _ _ _ Ht2)|done].
Qed.

(** ** A pool query that is registered twice *)
#[global] Instance BrokerQueryMsg_eq_dec : EqDecision TypeBroker.QueryMsg. Proof. solve_decision. Defined.
#[global] Instance BrokerQueryMsg_countable : Countable TypeBroker.QueryMsg.
Proof. by_iso (λ '(TypeBroker.mkQueryMsg a b), (a, b)) (λ '(a, b), TypeBroker.mkQueryMsg a b). Defined.
#[global] Instance StorageExecuteMsg_eq_dec : EqDecision (StorageAccount.ExecuteMsg ValenceType).
Proof. solve_decision. Defined.
#[global] Instance StorageExecuteMsg_countable : Countable (StorageAccount.ExecuteMsg ValenceType).
Proof.
  by_iso (λ x : StorageAccount.ExecuteMsg ValenceType, match x with
    | StorageAccount.ApproveLibrary a => inl (inl a)
    | StorageAccount.RemoveLibrary a => inl (inr a)
    | StorageAccount.StoreValenceType a b => inr (inl (a, b))
    | StorageAccount.UpdateOwnership a => inr (inr a) end)
    (λ y, match y with
    | inl (inl a) => StorageAccount.ApproveLibrary a
    | inl (inr a) => StorageAccount.RemoveLibrary a
    | inr (inl (a, b)) => StorageAccount.StoreValenceType a b
    | inr (inr a) => StorageAccount.UpdateOwnership a end : StorageAccount.ExecuteMsg ValenceType).
Defined.
#[global] Instance ref_neutron_icq : NeutronIcq := {
  register_interchain_query keys connection period :=
    Ok (CosmosStargate "register" (bits_of_positive (encode (keys, connection, period))));
  remove_interchain_query id := CosmosStargate "remove" (bits_of_positive (encode id));
  MsgRegisterInterchainQueryResponse_from_slice b :=
    match decode (positive_of_bits b) with Some id => Ok id | None => Err "parse" end;
}.
#[global] Instance ref_neutron_icq_laws : NeutronIcqLaws.
Proof.
  split. intros i j He. assert (bits_of_positive (encode i) = bits_of_positive (encode j)) as Hb
    by exact (f_equal (λ m, match m with CosmosStargate _ b => b | _ => [] end) He).
  apply (f_equal positive_of_bits) in Hb. rewrite !positive_of_bits_of_positive in Hb. by apply encode_inj in Hb.
Qed.

Definition sample_broker : TypeBroker.storage :=
  TypeBroker.mkStorage None {["26.0.0" := TypeBroker.mkTypeRegistry "registry" "26.0.0"]} (Some "26.0.0").
Definition registry_answer (b : Binary) : result StdError Binary :=
  m ← from_json b; OsmosisRegistry.query (PoolParams := string) m.
(** The result of every query is the sample pool. *)
Definition sample_icq_result : InterchainQueryResult :=
  mkInterchainQueryResult [mkStorageValue "gamm" [] sample_osmo_json] 1 1.
Definition sample_icq_protocols (broker : Binary → result StdError Binary) : ProtocolQuerier :=
  let p := no_protocols in
  mkProtocolQuerier (pq_mars_accounts p) (pq_pool p) (pq_spot_price p)
    (pq_join_no_swap_shares p) (pq_join_shares p) (pq_exit_coins p) (pq_position p)
    (Ok [mkCoin "untrn" 5]) (λ _, Ok [mkCoin "untrn" 5]) (λ _, Ok sample_icq_result)
    (λ addr b, if bool_decide (addr = "registry") then registry_answer b
               else if bool_decide (addr = "broker") then broker b else no_answer).
Definition sample_icq_q : LibQuerier :=
  with_protocols (ref_lib_querier 100) (sample_icq_protocols (λ b, m ← from_json b;
    TypeBroker.query (sample_icq_protocols (λ _, no_answer)) sample_broker m)).
Lemma sample_icq_hosted version :
  default "26.0.0" version = "26.0.0" →
  hosted (P := string) (q_protocols sample_icq_q) "broker" sample_broker version.
Proof.
  intros Hv. split.
  - intros m b x Hb Hx. cbn [sample_icq_q with_protocols q_protocols sample_icq_protocols pq_wasm_smart].
    rewrite bool_decide_eq_false_2, bool_decide_eq_true_2 by done. rewrite (from_to_json _ _ Hb). cbn [mbind result_bind].
    rewrite <-Hx. unfold TypeBroker.query. destruct (match TypeBroker.query_registry_version m with Some _ => _ | None => _ end);
      [|done..]. cbn [mbind result_bind]. destruct (TypeBroker.s_active_registries sample_broker !! _) as [reg|] eqn:Hreg; [|done].
    unfold sample_broker in Hreg. cbn [TypeBroker.s_active_registries] in Hreg.
    apply lookup_singleton_Some in Hreg as [_ <-]. done.
  - exists "registry". split; [by destruct version; simpl in Hv; subst|].
    intros m b x Hb Hx. cbn [sample_icq_q with_protocols q_protocols sample_icq_protocols pq_wasm_smart].
    rewrite bool_decide_eq_true_2 by done. unfold registry_answer. by rewrite (from_to_json _ _ Hb).
Qed.

Definition sample_definition : NeutronIcQuerier.QueryDefinition :=
  NeutronIcQuerier.mkQueryDefinition None OsmosisRegistry.POOL_TYPE 5
    {["pool_id" := match to_json_binary 1%N with Ok b => b | _ => [] end]} None.
Definition sample_icq_msg : LibInstantiateMsg NeutronIcQuerier.LibraryConfig :=
  mkLibInstantiateMsg "owner" "processor" (NeutronIcQuerier.mkLibraryConfig (LibAddr "slots")
    (NeutronIcQuerier.mkQuerierConfig "broker" "connection-0") {["pool" := sample_definition]}).
Abbreviation IcqSt := (storage NeutronIcQuerier.LibraryConfig NeutronIcQuerier.Config ()).
Definition sample_icq_init : Exec IcqSt LibraryError Response :=
  instantiate sample_icq_q "neutron-ic-querier" "1" sample_icq_msg.
Definition sample_icq_env : Env := mkEnv (mkBlock 1 1) "library".
Definition sample_icq_register : Exec IcqSt LibraryError Response :=
  lib_execute icq_lib sample_icq_q sample_icq_env (mkInfo "processor" [])
    (ProcessFunction (NeutronIcQuerier.RegisterKvQuery "pool")).
Definition sample_icq_reply (id : N) : HostReply :=
  mkHostReply 0 [] 0 (OutcomeOk (mkSubMsgResponse [] (Some (bits_of_positive (encode id))) [])).
Definition sample_icq0 : IcqSt := after sample_icq_init (empty_storage ()).
Definition sample_icq_next (id : N) (s : IcqSt) : IcqSt :=
  after (NeutronIcQuerier.reply sample_icq_env (sample_icq_reply id)) (after sample_icq_register s).
Definition sample_icq1 : IcqSt := sample_icq_next 7 sample_icq0.
Definition sample_icq2 : IcqSt := sample_icq_next 8 sample_icq1.
(** One registration, of an id that is new. *)
Definition sample_icq_ready (id : N) (s : IcqSt) : bool :=
  bool_decide (NeutronIcQuerier.pending_query_registrations <$> s_config s = Some ∅) &&
  succeeds sample_icq_register s &&
  succeeds (NeutronIcQuerier.reply sample_icq_env (sample_icq_reply id)) (after sample_icq_register s).
Lemma sample_icq_step id s open used :
  sample_icq_ready id s = true → id ∉ used →
  icq_step (s, open, used) (sample_icq_next id s, <[id := "pool"]> open, {[id]} ∪ used).
Proof.
  unfold sample_icq_ready. rewrite !andb_true_iff.
  intros [[Hp%bool_decide_eq_true_1 [r Hr]%after_ok] [rr Hrr]%after_ok] Hid.
  pose proof (proj1 (lib_execute_process icq_lib sample_icq_q sample_icq_env (mkInfo "processor" [])
    (NeutronIcQuerier.RegisterKvQuery "pool") s r _) Hr) as (c & _ & Hc & Hf). rewrite Hc in Hp. injection Hp as Hp.
  apply query_register_ok in Hf as (d & k & m & _ & _ & _ & Hm & Hs). rewrite Hp in Hm.
  eapply (icq_register sample_icq_q sample_icq_env (mkInfo "processor" []) "pool" r s _ m 0
    _ (mkSubMsgResponse [] (Some (bits_of_positive (encode id))) []) (bits_of_positive (encode id)) 0 id);
    [exact Hr|exact Hm|reflexivity|reflexivity| |exact Hid|exact Hrr].
  simpl. by rewrite positive_of_bits_of_positive, decode_encode.
Qed.
Lemma sample_icq_start : ∃ r0, sample_icq_init (empty_storage ()) = Ok (r0, sample_icq0).
Proof. apply after_ok. vm_compute. reflexivity. Qed.
Lemma sample_icq_run1 : rtc icq_step (sample_icq0, ∅, ∅) (sample_icq1, <[7%N := "pool"]> ∅, {[7%N]} ∪ ∅).
Proof. apply rtc_once, sample_icq_step; [vm_compute; reflexivity|set_solver]. Qed.
Lemma sample_icq_step2 :
  icq_step (sample_icq1, <[7%N := "pool"]> ∅, {[7%N]} ∪ ∅)
    (sample_icq2, <[8%N := "pool"]> (<[7%N := "pool"]> ∅), {[8%N]} ∪ ({[7%N]} ∪ ∅)).
Proof. apply sample_icq_step; [vm_compute; reflexivity|set_solver]. Qed.

Lemma icq_registrations_exact_witness :
  ∃ c, s_config sample_icq1 = Some c ∧ NeutronIcQuerier.registered_queries c = <[7%N := "pool"]> ∅.
Proof.
  destruct sample_icq_start as [r0 H0].
  destruct (icq_registrations_exact sample_icq_q "neutron-ic-querier" "1" sample_icq_msg r0 sample_icq0
    sample_icq1 (<[7%N := "pool"]> ∅) ({[7%N]} ∪ ∅) H0 sample_icq_run1) as (c & Hc & _ & Hr & _).
  exists c. split; [exact Hc|exact Hr].
Defined.
Definition sample_icq_account : Slots :=
  StorageAccount.mkStorage None (Some (mkOwnership (Some "admin") None None)) {["library" := ()]} ∅.
Lemma icq_pool_stored_witness :
  ∃ a' p, StorageAccount.query_valence_type "pool" a' = Ok (XykPool p) ∧
    pool_assets p = [mkCoin "uatom" 300; mkCoin "uosmo" 700] ∧
    ∀ k, k ≠ "pool" → StorageAccount.query_valence_type k a' = StorageAccount.query_valence_type k sample_icq_account.
Proof.
  destruct sample_icq_start as [r0 H0].
  destruct (icq_pool_stored sample_icq_q "neutron-ic-querier" "1" sample_icq_msg r0 sample_icq0
    sample_icq1 (<[7%N := "pool"]> ∅) ({[7%N]} ∪ ∅) sample_icq_q sample_icq_env 7%N "pool" sample_definition
    sample_broker sample_osmo_pool [mkCoin "uatom" 300; mkCoin "uosmo" 700] (λ _, "value") sample_icq_env
    sample_icq_account H0 sample_icq_run1)
    as (c & r & body & m & ra & a' & p & _ & _ & _ & _ & _ & Hq & Hp & _ & Hk).
  - reflexivity.
  - reflexivity.
  - reflexivity.
  - intros c Hc. assert (NeutronIcQuerier.broker_addr (NeutronIcQuerier.querier_config c) = "broker") as ->.
    { assert ((λ c, NeutronIcQuerier.broker_addr (NeutronIcQuerier.querier_config c)) <$> s_config sample_icq1 = Some "broker") as Hb
        by (vm_compute; reflexivity). rewrite Hc in Hb. by injection Hb. }
    by apply sample_icq_hosted.
  - eexists _, _, _. split_and!; [reflexivity|reflexivity|reflexivity|vm_compute; reflexivity].
  - repeat constructor.
  - by eexists.
  - by eexists.
  - exists a', p. split; [exact Hq|]. split; [exact Hp|exact Hk].
Defined.
(** The query 7 is still open after the name was registered again, as 8. *)
Lemma reregistered_query_stays_open_witness :
  ∃ c2, s_config sample_icq2 = Some c2 ∧ NeutronIcQuerier.registered_queries c2 !! 7%N = Some "pool".
Proof.
  assert (8%N ∉ ({[7%N]} ∪ ∅ : gset N)) as Hfresh by set_solver.
  destruct sample_icq_start as [r0 H0].
  assert (∃ c d, s_config sample_icq1 = Some c ∧ NeutronIcQuerier.query_definitions c !! "pool" = Some d ∧
    NeutronIcQuerier.query_id d = Some 7%N) as (c & d & Hc & Hd & Hid)
    by (eexists _, _; split_and!; [vm_compute; reflexivity..]).
  destruct (reregistered_query_stays_open sample_icq_q "neutron-ic-querier" "1" sample_icq_msg r0 sample_icq0
    sample_icq1 sample_icq2 sample_icq2 (<[7%N := "pool"]> ∅) ({[7%N]} ∪ ∅)
    (<[8%N := "pool"]> (<[7%N := "pool"]> ∅)) ({[8%N]} ∪ ({[7%N]} ∪ ∅)) c "pool" d 7%N 8%N H0
    sample_icq_run1 Hc Hd Hid Hfresh sample_icq_step2 (rtc_refl _ _)) as (_ & c2 & Hc2 & Hr2 & _).
  exists c2. split; [exact Hc2|exact Hr2].
Defined.
