(* ===== verification/InterchainAccountTheorems.v ===== *)
(** * The interchain account: its registration as a state machine *)
From Stdlib Require Import Strings.Byte.
From S2P Require Import Prelude Platform Types Accounts InterchainAccount Codec LibraryBase LibraryCodec.
Import InterchainAccount.

(** ** Runs *)
Inductive ica_event := IcaExec (sender : Addr) (msg : ExecuteMsg) | IcaSudo (msg : SudoMsg).

Section Spec.
Context `{IcaPackages}.
(** The state of the registration, as the events alone determine it. *)
Definition ica_step (st : IcaState) (e : ica_event) : IcaState :=
  match e with
  | IcaExec _ RegisterIca => IcaInProgress
  | IcaSudo (SudoResponse request _) | IcaSudo (SudoError request _) =>
      if closed_channel request then IcaClosed else st
  | IcaSudo (SudoTimeout _) => IcaClosed
  | IcaSudo (SudoOpenAck port_id _ _ version) =>
      match parse_open_ack version with
      | Some v => IcaCreated (mkIcaInformation (ack_address v) port_id (controller_connection_id v))
      | None => st
      end
  | _ => st
  end.
Definition ica_state_after (log : list ica_event) : IcaState := foldl ica_step IcaNotCreated log.
Definition is_registration (e : ica_event) : bool :=
  match e with IcaExec _ RegisterIca => true | _ => false end.
Definition is_closing (e : ica_event) : bool :=
  match e with
  | IcaSudo (SudoResponse request _) | IcaSudo (SudoError request _) => closed_channel request
  | IcaSudo (SudoTimeout _) => true
  | _ => false
  end.
Definition registrations (log : list ica_event) : nat := length (filter (λ e, Is_true (is_registration e)) log).
Definition closings (log : list ica_event) : nat := length (filter (λ e, Is_true (is_closing e)) log).
(** An account that is being registered, or is registered. *)
Definition is_open (st : IcaState) : bool :=
  match st with IcaInProgress | IcaCreated _ => true | _ => false end.
End Spec.

Section Proofs.
Context `{CPl : Platform} `{COw : CwOwnable} `{CDb : CwOwnableDebug} `{CIc : IcaPackages}.

(** The account after its instantiation and the transactions [log]. *)
Inductive ica_run (m0 : InstantiateMsg) : list ica_event → storage → Prop :=
| ica_start env info r s :
    instantiate env info m0 empty_storage = Ok (r, s) → ica_run m0 [] s
| ica_exec log q env info msg r s s' :
    ica_run m0 log s → execute q env info msg s = Ok (r, s') →
    ica_run m0 (log ++ [IcaExec (info_sender info) msg]) s'
| ica_sudo log env msg r s s' :
    ica_run m0 log s → sudo env msg s = Ok (r, s') → ica_run m0 (log ++ [IcaSudo msg]) s'.

#[global] Instance ica_assert_owner_ro a : ReadOnly (InterchainAccount.assert_owner_ a).
Proof. unfold assert_owner_. apply _. Qed.
#[global] Instance ica_assert_owner_or_library_ro a :
  ReadOnly (InterchainAccount.assert_owner_or_library a).
Proof. unfold assert_owner_or_library. apply _. Qed.

Lemma approve_loop_frame libs (s s' : storage) u :
  for_each libs (λ library,
    addr ← of_result (addr_validate library);
    map_save APPROVED_LIBRARIES addr () : Exec storage StdError unit) s = Ok (u, s') →
  ∃ approved, s' = lset APPROVED_LIBRARIES approved s.
Proof.
  revert s. induction libs as [|l libs IH]; intros s; simpl.
  - intros [_ <-]%mret_ok. exists (s_approved_libraries s). by destruct s.
  - intros (? & s1 & Hl & Hs)%Exec_bind_ok. run_inv. apply IH in Hs as [a ->]. by eexists.
Qed.
Lemma validate_remote_domain_ok d :
  validate_remote_domain d = Ok () → connection_id d ≠ "" ∧ ica_timeout_seconds d ≠ 0%N.
Proof.
  unfold validate_remote_domain. case_bool_decide; [done|]. by destruct (N.eqb_spec (ica_timeout_seconds d) 0).
Qed.
Lemma ica_instantiate_ok env info m0 r s :
  instantiate env info m0 empty_storage = Ok (r, s) →
  s_ica_state s = Some IcaNotCreated ∧ s_remote_domain_info s = Some (remote_domain_information m0) ∧
  validate_remote_domain (remote_domain_information m0) = Ok ().
Proof.
  unfold instantiate. intros Hi. run_inv.
  match goal with Hv : validate_remote_domain _ = Ok ?u |- _ => destruct u end.
  match goal with Hl : for_each _ _ _ = Ok _ |- _ => apply approve_loop_frame in Hl as [a ->] end. done.
Qed.

(** A registration: only from a state without an open account, with a fee it can pay. *)
Record registers (q : Querier) (env : Env) (s s' : storage) (r : NeutronResponse) : Prop := {
  reg_state : ∃ st, s_ica_state s = Some st ∧ is_open st = false;
  reg_after : s' = lset ICA_STATE (Some IcaInProgress) s;
  reg_message : ∃ d fees fee value,
    s_remote_domain_info s = Some d ∧ iq_register_fee q = Ok fees ∧ fee ∈ fees ∧
    covers q env fee = true ∧
    MsgRegister_to_bytes (mkMsgRegisterInterchainAccount (env_contract env) (connection_id d)
      INTERCHAIN_ACCOUNT_ID [mkProtoCoin (coin_denom fee) (pretty (coin_amount fee))]) = Some value ∧
    nresp_messages r =
      [NeutronPlain (CosmosStargate "/neutron.interchaintxs.v1.MsgRegisterInterchainAccount" value)];
}.
Lemma find_fee_ok q env fees fee :
  find_fee q env fees = Some fee → fee ∈ fees ∧ covers q env fee = true.
Proof.
  unfold find_fee. intros Hf.
  assert (fee ∈ filter (λ coin, Is_true (covers q env coin)) fees) as Hin.
  { destruct (filter _ fees); [done|]. simplify_eq/=. by left. }
  apply list_elem_of_filter in Hin as [Hc Hin]. split; [done|]. by apply Is_true_true.
Qed.
Lemma register_registers q env s r s' :
  try_register_ica q env s = Ok (r, s') → registers q env s s' r.
Proof.
  unfold try_register_ica, register_ica_msg.
  intros (st & s1 & [Hst ->]%item_load_ok & Hr)%Exec_bind_ok.
  apply Exec_bind_ok in Hr as (u & s1 & Hm & Hr).
  assert (s1 = s ∧ is_open st = false) as [-> Hopen] by (destruct st; run_inv; done).
  run_inv.
  match goal with Hf : find_fee _ _ _ = Some _ |- _ => apply find_fee_ok in Hf as [Hin Hc] end.
  match goal with Hb : (MsgRegister_to_bytes _ ≫= _) = Some _ |- _ =>
    apply bind_Some in Hb as (value & Hv & [= <-]) end.
  split; [eauto|done|]. repeat eexists; done.
Qed.

(** Messages for the remote account: for the admin and the approved libraries, with the
    fee for the relayers, which the account can pay. *)
Record submits (q : Querier) (env : Env) (info : MessageInfo) (msgs : list AnyMsg) (s : storage)
    (r : NeutronResponse) : Prop := {
  sub_trusted : (∃ o, s_ownership s = Some o ∧ own_owner o = Some (info_sender info)) ∨
    is_Some (s_approved_libraries s !! info_sender info);
  sub_message : ∃ d fee total balance,
    s_remote_domain_info s = Some d ∧
    nresp_messages r = [NeutronSubmitTx (connection_id d) INTERCHAIN_ACCOUNT_ID msgs ""
                          (ica_timeout_seconds d) fee] ∧
    Forall is_ntrn (ack_fee fee ++ timeout_fee fee) ∧
    flatten_ntrn_ibc_fee fee = Some total ∧
    iq_balance q (env_contract env) NTRN_DENOM = Ok balance ∧ (total ≤ balance)%N;
}.
Lemma ica_trusted `{!CwOwnableLaws} sender (s s' : storage) u o :
  s_ownership s = Some o → assert_owner_or_library sender s = Ok (u, s') →
  (∃ o, s_ownership s = Some o ∧ own_owner o = Some sender) ∨ is_Some (s_approved_libraries s !! sender).
Proof.
  intros Ho Ha. unfold assert_owner_or_library in Ha. run_inv. rewrite Ho in *.
  match goal with Hi : is_owner _ _ = Ok _ |- _ => apply is_owner_spec in Hi as -> end.
  match goal with Hn : negb _ = false |- _ => apply negb_false_iff, orb_true_iff in Hn as [Hn|Hn];
    apply bool_decide_eq_true_1 in Hn end; eauto.
Qed.
Lemma execute_ica_msg_ok `{!CwOwnableLaws} q env info msgs s r s' :
  is_Some (s_ownership s) → execute_ica_msg q env info msgs s = Ok (r, s') →
  s' = s ∧ submits q env info msgs s r.
Proof.
  intros [o Ho] He. unfold execute_ica_msg in He.
  apply Exec_bind_ok in He as (u & s1 & Ha & He). pose proof (read_only _ _ _ Ha) as ->.
  apply (ica_trusted _ _ _ _ o Ho) in Ha. run_inv. split; [done|]. split; [done|].
  match goal with Hb : (_ <? _)%N = false |- _ => apply N.ltb_ge in Hb end.
  repeat eexists; try done. simpl. apply Forall_app.
  split; apply Forall_forall; by intros coin [? _]%list_elem_of_filter.
Qed.

(** Every transaction moves the state as the specification does, and keeps the rest. *)
Lemma execute_state q env info msg s r s' st :
  s_ica_state s = Some st → execute q env info msg s = Ok (r, s') →
  s_ica_state s' = Some (ica_step st (IcaExec (info_sender info) msg)) ∧
  s_remote_domain_info s' = s_remote_domain_info s ∧
  (is_Some (s_ownership s) → is_Some (s_ownership s')) ∧
  (is_registration (IcaExec (info_sender info) msg) = true → is_open st = false).
Proof.
  intros Hst He. destruct msg; simpl in *;
    try (unfold approve_library, remove_library, execute_msg, update_ownership, execute_ica_msg in He;
         run_inv; by split_and!).
  apply register_registers in He as [(st' & Hst' & Ho) -> _]. simplify_eq. by split_and!.
Qed.
Lemma sudo_state env msg s r s' st :
  s_ica_state s = Some st → sudo env msg s = Ok (r, s') →
  s_ica_state s' = Some (ica_step st (IcaSudo msg)) ∧
  s_remote_domain_info s' = s_remote_domain_info s ∧ s_ownership s' = s_ownership s.
Proof.
  intros Hst He. destruct msg as [p d|p d|p|port c cc v|]; simpl in *; unfold close_if in He;
    try destruct (closed_channel p); run_inv; split_and!; try done.
  by match goal with Hv : parse_open_ack _ = Some _ |- _ => rewrite Hv end.
Qed.

Record ica_inv (m0 : InstantiateMsg) (log : list ica_event) (s : storage) : Prop := {
  ii_state : s_ica_state s = Some (ica_state_after log);
  ii_info : s_remote_domain_info s = Some (remote_domain_information m0);
  ii_owner : is_Some (s_ownership s);
  ii_count : registrations log ≤ closings log + (if is_open (ica_state_after log) then 1 else 0);
}.
Lemma count_snoc (log : list ica_event) e :
  registrations (log ++ [e]) = registrations log + (if is_registration e then 1 else 0) ∧
  closings (log ++ [e]) = closings log + (if is_closing e then 1 else 0).
Proof.
  unfold registrations, closings. rewrite !filter_app, !length_app.
  split; f_equal; rewrite filter_cons, filter_nil;
    [by destruct (is_registration e)|by destruct (is_closing e)].
Qed.
Lemma ica_count_step st e n m :
  (is_registration e = true → is_open st = false) →
  n ≤ m + (if is_open st then 1 else 0) →
  n + (if is_registration e then 1 else 0) ≤
    m + (if is_closing e then 1 else 0) + (if is_open (ica_step st e) then 1 else 0).
Proof.
  intros Hr Hc. destruct e as [sender msg|[p d|p d|p|port c cc v|]]; simpl in *;
    try (destruct (closed_channel p)); try (destruct (parse_open_ack v)); simpl;
    try (destruct msg; simpl in *; try rewrite Hr in Hc by done);
    destruct (is_open st); simpl in *; lia.
Qed.
Lemma ica_run_inv m0 log s :
  ica_run m0 log s →
  ica_inv m0 log s ∧ validate_remote_domain (remote_domain_information m0) = Ok ().
Proof.
  induction 1 as [env info r s Hi|log q env info msg r s s' _ [[Hst Hinfo Ho Hc] Hv] He
                 |log env msg r s s' _ [[Hst Hinfo Ho Hc] Hv] He]; (split; [|try done]).
  - pose proof (ica_instantiate_ok _ _ _ _ _ Hi) as (Hst & Hinfo & _). split; try done.
    unfold instantiate in Hi. run_inv.
    match goal with Hl : for_each _ _ _ = Ok _ |- _ => apply approve_loop_frame in Hl as [a ->] end. done.
  - by apply ica_instantiate_ok in Hi as (_ & _ & ?).
  - destruct (execute_state _ _ _ _ _ _ _ _ Hst He) as (Hst' & Hi' & Ho' & Hreg).
    destruct (count_snoc log (IcaExec (info_sender info) msg)) as [Hn Hm].
    unfold ica_state_after in *. split; unfold ica_state_after;
      [by rewrite foldl_app|congruence|auto|].
    rewrite Hn, Hm, foldl_app. by apply ica_count_step.
  - destruct (sudo_state _ _ _ _ _ _ Hst He) as (Hst' & Hi' & Ho').
    destruct (count_snoc log (IcaSudo msg)) as [Hn Hm].
    unfold ica_state_after in *. split; unfold ica_state_after;
      [by rewrite foldl_app|congruence|by rewrite Ho'|].
    rewrite Hn, Hm, foldl_app. by apply ica_count_step.
Qed.
End Proofs.

(** C27 The interchain account keeps one remote account at a time.  In every run: the state
    of the registration is the one the events determine, the remote domain is the valid
    one given at the start, and the account was registered at most once more often than
    its channel was closed.  A registration is accepted only while no account is open,
    attaches one of the fees the chain asks for, which the contract can pay, and leaves
    the state in progress; messages for the remote account are submitted, unchanged, only
    for the admin and approved libraries, with fees in NTRN that the contract can pay. *)
Theorem ica_one_account_at_a_time
    `{Platform} `{COw : CwOwnable} `{!CwOwnableLaws} `{CwOwnableDebug} `{IcaPackages}
    (m0 : InstantiateMsg) (log : list ica_event) (s : storage) :
  ica_run m0 log s →
  s_ica_state s = Some (ica_state_after log) ∧
  s_remote_domain_info s = Some (remote_domain_information m0) ∧
  connection_id (remote_domain_information m0) ≠ "" ∧
  ica_timeout_seconds (remote_domain_information m0) ≠ 0%N ∧
  registrations log ≤ closings log + 1 ∧
  ∀ q env info r s',
    (execute q env info RegisterIca s = Ok (r, s') → registers q env s s' r) ∧
    ∀ msgs, execute q env info (ExecuteIcaMsg msgs) s = Ok (r, s') →
      s' = s ∧ submits q env info msgs s r.
Proof.
  intros [[Hst Hinfo Ho Hc] [Hid Ht]%validate_remote_domain_ok]%ica_run_inv.
  split_and!; [done..| |].
  - destruct (is_open _); lia.
  - intros q env info r s'. split; [apply register_registers|].
    intros msgs He. by eapply execute_ica_msg_ok.
Qed.

(** ** An account whose channel was closed once, and that is registered again *)
#[global] Instance ref_ica_packages : IcaPackages := {
  MsgRegister_to_bytes m := Some [x01];
  binary_to_string b := "data";
  parse_open_ack v := Some (mkOpenAckVersion "1" "connection-0" "connection-1" v "proto3" "sdk");
}.
#[global] Instance ref_ica_packages_laws : IcaPackagesLaws.
Proof. split. by eexists. Qed.
Definition sample_ica_q : Querier :=
  mkQuerier (λ _ _, Ok 100%N) (Ok [mkCoin "uatom" 200; mkCoin "untrn" 50])
    (Ok (mkIbcFee [] [mkCoin "untrn" 10; mkCoin "uatom" 1] [mkCoin "untrn" 20])).
Definition sample_ica_env : Env := mkEnv (mkBlock 1 1) "ica".
Definition sample_ica_init : Exec storage StdError Response :=
  instantiate sample_ica_env (mkInfo "admin" [])
    (mkInstantiateMsg "admin" ["library"] (mkRemoteDomainInfo "connection-0" 600)).
Definition sample_ica_register : Exec storage ContractError NeutronResponse :=
  execute sample_ica_q sample_ica_env (mkInfo "anyone" []) RegisterIca.
Definition sample_ica_close : Exec storage StdError Response :=
  sudo sample_ica_env (SudoTimeout (mkRequestPacket (Some 1%N) (Some "channel-0"))).
Definition sample_ica : storage :=
  after sample_ica_close (after sample_ica_register (after sample_ica_init empty_storage)).
Lemma sample_ica_run :
  ica_run (mkInstantiateMsg "admin" ["library"] (mkRemoteDomainInfo "connection-0" 600))
    [IcaExec "anyone" RegisterIca; IcaSudo (SudoTimeout (mkRequestPacket (Some 1%N) (Some "channel-0")))]
    sample_ica.
Proof.
  destruct (after_ok sample_ica_init empty_storage) as [r0 H0]; [by vm_compute|].
  set (s0 := after sample_ica_init empty_storage) in *.
  destruct (after_ok sample_ica_register s0) as [r1 H1]; [by vm_compute|].
  set (s1 := after sample_ica_register s0) in *.
  destruct (after_ok sample_ica_close s1) as [r2 H2]; [by vm_compute|].
  apply (ica_sudo _ [_] sample_ica_env _ r2 s1); [|exact H2].
  apply (ica_exec _ [] sample_ica_q sample_ica_env (mkInfo "anyone" []) _ r1 s0); [|exact H1].
  by apply (ica_start _ sample_ica_env (mkInfo "admin" []) r0).
Qed.
Lemma ica_one_account_at_a_time_witness :
  s_ica_state sample_ica = Some IcaClosed ∧
  ∃ r s', execute sample_ica_q sample_ica_env (mkInfo "anyone" []) RegisterIca sample_ica = Ok (r, s') ∧
    registers sample_ica_q sample_ica_env sample_ica s' r.
Proof.
  destruct (ica_one_account_at_a_time _ _ _ sample_ica_run) as (Hst & _ & _ & _ & _ & Ha).
  split; [exact Hst|].
  destruct (after_ok sample_ica_register sample_ica) as [r Hr]; [by vm_compute|].
  exists r, (after sample_ica_register sample_ica). split; [exact Hr|].
  by apply (Ha sample_ica_q sample_ica_env (mkInfo "anyone" [])).
Defined.
