(* ===== verification/IbcTransferTheorems.v ===== *)
(** * Transfers over IBC: what is sent, where, and that it can be paid *)
From Stdlib Require Import Strings.Byte.
From S2P Require Import Prelude Platform Types Format Accounts InterchainAccount LibraryBase LibraryProofs.
From S2P Require Import IbcUtils IbcTransfer Codec LibraryCodec.
Import Library.

(** ** The configurations *)
Section Generic.
Import GenericIbcTransfer.
Context `{CPl : Platform} `{CDe : CwDenom} `{CMa : CosmMath} `{CJs : JsonCodec AccountExecuteMsg}.
Context `{CIb : IbcPackages} `{CPm : JsonText PacketMetadata} `{CEm : JsonText EurekaMemo}.

Definition generic_ibc_lib : LibraryFns LibraryConfig Config () FunctionMsgs LibraryConfigUpdate :=
  mkLibraryFns process_function update_config.
Definition neutron_ibc_lib : LibraryFns LibraryConfig Config () FunctionMsgs LibraryConfigUpdate :=
  mkLibraryFns neutron_process_function update_config.

(** No transfer of nothing, a channel, and no timeout of zero. *)
Record ibc_valid (c : Config) : Prop := {
  iv_amount : amount c ≠ FixedAmount 0;
  iv_channel : channel_id (remote_chain_info c) ≠ "";
  iv_timeout : ibc_transfer_timeout (remote_chain_info c) ≠ Some 0%N;
}.
Lemma validate_amount_ok a u : validate_amount a = Ok u → a ≠ FixedAmount 0.
Proof. by intros Hv ->. Qed.
Lemma validate_remote_chain_info_ok i u :
  validate_remote_chain_info i = Ok u → channel_id i ≠ "" ∧ ibc_transfer_timeout i ≠ Some 0%N.
Proof.
  unfold validate_remote_chain_info. case_bool_decide; [done|]. intros Hv. split; [done|].
  intros Ht. by rewrite Ht in Hv.
Qed.
Lemma ibc_validate_valid q raw c : validate q raw = Ok c → ibc_valid c.
Proof.
  simpl. intros (a & Hd & (o & _ & (d & _ & [= <-])%bind_result_ok)%bind_result_ok)%bind_result_ok.
  unfold do_validate in Hd. apply bind_result_ok in Hd as (? & _ & Hd).
  apply bind_result_ok in Hd as (? & Ha%validate_amount_ok & Hd).
  apply bind_result_ok in Hd as (? & [Hc Ht]%validate_remote_chain_info_ok & _). done.
Qed.
Lemma ibc_update_valid q u c c' : update_fields q u c = Ok c' → ibc_valid c → ibc_valid c'.
Proof.
  unfold update_fields. intros Hu [Ha Hc Ht].
  apply bind_result_ok in Hu as (i & _ & (o & _ & (d & _ & Hu)%bind_result_ok)%bind_result_ok).
  apply bind_result_ok in Hu as (a & Hua & (r & Hur & [= <-])%bind_result_ok).
  assert (a ≠ FixedAmount 0).
  { destruct (upd_amount u); [|by simplify_eq]. by apply bind_result_ok in Hua as (? & ?%validate_amount_ok & [= <-]). }
  assert (channel_id r ≠ "" ∧ ibc_transfer_timeout r ≠ Some 0%N) as [??].
  { destruct (upd_remote_chain_info u); [|by simplify_eq].
    by apply bind_result_ok in Hur as (? & ?%validate_remote_chain_info_ok & [= <-]). }
  done.
Qed.
#[global] Instance generic_process_ro q env info f c : ReadOnly (process_function q env info f c).
Proof. unfold process_function. destruct f; apply _. Qed.
#[global] Instance neutron_process_ro q env info f c : ReadOnly (neutron_process_function q env info f c).
Proof. unfold neutron_process_function. destruct f; apply _. Qed.
#[global] Instance generic_ibc_laws : LibraryLaws generic_ibc_lib ibc_valid eq (λ _, True).
Proof.
  apply (simple_library_laws _ _ _ update_fields); [done|apply _|eauto using ibc_validate_valid|].
  intros q u c c' _. apply ibc_update_valid.
Qed.
#[global] Instance neutron_ibc_laws : LibraryLaws neutron_ibc_lib ibc_valid eq (λ _, True).
Proof.
  apply (simple_library_laws _ _ _ update_fields); [done|apply _|eauto using ibc_validate_valid|].
  intros q u c c' _. apply ibc_update_valid.
Qed.

Lemma amount_to_send_ok c balance a :
  amount_to_send c balance = Ok a →
  (a ≤ balance)%N ∧ match amount c with FullAmount => a = balance | FixedAmount x => a = x end.
Proof.
  unfold amount_to_send. destruct (amount c) as [|x]; [intros [= <-]; by split|].
  destruct (N.ltb_spec balance x); [done|]. intros [= <-]. done.
Qed.
End Generic.

Section IcaIbc.
Import IcaIbcTransfer.
Context `{CPl : Platform} `{CDe : CwDenom} `{CJs : JsonCodec InterchainAccount.ExecuteMsg}.
Context `{CIb : IbcPackages} `{CPm : JsonText PacketMetadata} `{CEm : JsonText EurekaMemo}.

Definition ica_ibc_lib : LibraryFns LibraryConfig Config () FunctionMsgs LibraryConfigUpdate :=
  mkLibraryFns process_function update_config.
Record ica_ibc_valid (c : Config) : Prop := {
  iiv_amount : amount c ≠ 0%N;
  iiv_denom : denom c ≠ "";
  iiv_receiver : receiver c ≠ "";
  iiv_channel : channel_id (remote_chain_info c) ≠ "";
  iiv_timeout : ibc_transfer_timeout (remote_chain_info c) ≠ Some 0%N;
}.
Lemma check_amount_ok a u : check_amount a = Ok u → a ≠ 0%N.
Proof. unfold check_amount. by destruct (N.eqb_spec a 0). Qed.
Lemma check_denom_ok a u : check_denom a = Ok u → a ≠ "".
Proof. unfold check_denom. by case_bool_decide. Qed.
Lemma check_receiver_ok a u : check_receiver a = Ok u → a ≠ "".
Proof. unfold check_receiver. by case_bool_decide. Qed.
Lemma check_channel_ok a u : check_channel a = Ok u → channel_id a ≠ "".
Proof. unfold check_channel. by case_bool_decide. Qed.
Lemma check_timeout_ok a u : check_timeout a = Ok u → ibc_transfer_timeout a ≠ Some 0%N.
Proof. unfold check_timeout. intros Hc Ht. by rewrite Ht in Hc. Qed.
Ltac field_inv :=
  repeat match goal with
  | H : match ?o with Some _ => _ | None => _ end = Ok _ |- _ => destruct o; simplify_eq/=
  | H : (_ ≫= _) = Ok _ |- _ => apply bind_result_ok in H as (? & ? & H); simplify_eq/=
  | H : check_amount _ = Ok _ |- _ => apply check_amount_ok in H
  | H : check_denom _ = Ok _ |- _ => apply check_denom_ok in H
  | H : check_receiver _ = Ok _ |- _ => apply check_receiver_ok in H
  | H : check_channel _ = Ok _ |- _ => apply check_channel_ok in H
  | H : check_timeout _ = Ok _ |- _ => apply check_timeout_ok in H
  end.
#[global] Instance ica_ibc_process_ro q env info f c : ReadOnly (process_function q env info f c).
Proof. unfold process_function. destruct f; apply _. Qed.
#[global] Instance ica_ibc_laws : LibraryLaws ica_ibc_lib ica_ibc_valid eq (λ _, True).
Proof.
  apply (simple_library_laws _ _ _ (λ _, update_fields)); [done|apply _| |].
  - simpl. unfold do_validate. intros q raw c _ Hv. field_inv. done.
  - unfold update_fields. intros q u c c' _ Hu [????]. field_inv; done.
Qed.
End IcaIbc.

Section Cctp.
Import IcaCctpTransfer.
Context `{CPl : Platform} `{CJs : JsonCodec InterchainAccount.ExecuteMsg} `{CCp : CctpProto}.
Definition cctp_lib : LibraryFns LibraryConfig Config () FunctionMsgs LibraryConfigUpdate :=
  mkLibraryFns process_function update_config.
Definition cctp_valid (c : Config) : Prop := amount c ≠ 0%N.
#[global] Instance cctp_process_ro q env info f c : ReadOnly (process_function q env info f c).
Proof. unfold process_function. destruct f; apply _. Qed.
#[global] Instance cctp_laws : LibraryLaws cctp_lib cctp_valid eq (λ _, True).
Proof.
  unfold cctp_valid. apply (simple_library_laws _ _ _ (λ _, update_fields)); [done|apply _| |].
  - simpl. unfold do_validate. intros q raw c _ (a & Hd & [= <-])%bind_result_ok.
    apply bind_result_ok in Hd as (? & _ & Hd). by destruct (N.eqb_spec (raw_amount raw) 0).
  - unfold update_fields. intros q u c c' _ (a & _ & (b & Hb & [= <-])%bind_result_ok)%bind_result_ok Hc.
    simpl. destruct (upd_amount u) as [[|p]|]; by simplify_eq.
Qed.
End Cctp.

(** ** A transfer from Neutron *)

(** Where a transfer to [to_] leaves to: directly, or through the configured hop, with a
    memo from which the hop chain reads the final receiver and channel. *)
Definition routed `{JsonText PacketMetadata} (channel to_ memo : string)
    (pfm : option PacketForwardMiddlewareConfig) (channel' to' memo' : string) : Prop :=
  match pfm with
  | None => channel' = channel ∧ to' = to_ ∧ memo' = memo
  | Some p =>
      channel' = local_to_hop_chain_channel_id p ∧
      to' = default "pfm" (hop_chain_receiver_address p) ∧
      from_json_text memo' = Ok (mkPacketMetadata (Some (mkForwardMetadata to_ "transfer"
        (hop_to_destination_chain_channel_id p))))
  end.

Section Neutron.
Context `{CPl : Platform} `{CDe : CwDenom} `{CMa : CosmMath} `{!CosmMathLaws}.
Context `{CIb : IbcPackages} `{CPm : JsonText PacketMetadata} `{!JsonTextLaws PacketMetadata}.

(** The amount leaves enough for the fees. *)
Lemma transfer_amount_ok d asked ntrn total sent :
  transfer_amount d asked ntrn total = Ok sent →
  (d = NTRN_DENOM → (sent + total ≤ ntrn)%N ∧ (sent = asked ∨ asked = ntrn ∧ (sent + total = asked)%N)) ∧
  (d ≠ NTRN_DENOM → sent = asked ∧ (total ≤ ntrn)%N).
Proof.
  unfold transfer_amount. case_bool_decide as Hd.
  - destruct (N.eqb_spec asked ntrn) as [->|Hne].
    + intros [Hle ->]%uint128_checked_sub_spec. split; [|done]. intros _. split; [lia|]. right. split; lia.
    + intros (s & [-> _]%uint128_checked_add_spec & Hs)%bind_result_ok.
      destruct (N.ltb_spec ntrn (total + asked)); [done|]. injection Hs as <-.
      split; [|done]. intros _. split; [lia|by left].
  - destruct (N.ltb_spec ntrn total); [done|]. intros [= <-]. done.
Qed.

Record neutron_sent (q : LibQuerier) (env : Env) (channel : string) (sender : Addr) (to_ : string)
    (denom : CheckedDenom) (asked : N) (memo : string) (timeout : option N)
    (pfm : gmap string PacketForwardMiddlewareConfig) (m : CosmosMsg) (sent total ntrn : N) : Prop := {
  ns_fee : ∃ fee, q_min_ibc_fee q = Ok fee ∧ flatten_ntrn_ibc_fee (min_ntrn_ibc_fee fee) = Some total ∧
    ∃ ts channel' to' memo' value,
      timestamp_plus_seconds (block_time (env_block env)) (default 600%N timeout) = Some ts ∧
      routed channel to_ memo (pfm !! checked_denom_to_string denom) channel' to' memo' ∧
      NeutronMsgTransfer_to_bytes (mkMsgTransfer "transfer" channel' sender to'
        (Some (mkProtoCoin (checked_denom_to_string denom) (pretty sent))) ts memo'
        (Some (get_transfer_fee (min_ntrn_ibc_fee fee)))) = Some value ∧
      m = CosmosStargate "/neutron.transfer.MsgTransfer" value;
  ns_balance : q_bank_balance q sender NTRN_DENOM = Ok ntrn;
  ns_ntrn : checked_denom_to_string denom = NTRN_DENOM →
    (sent + total ≤ ntrn)%N ∧ (sent = asked ∨ asked = ntrn ∧ (sent + total = asked)%N);
  ns_other : checked_denom_to_string denom ≠ NTRN_DENOM → sent = asked ∧ (total ≤ ntrn)%N;
}.
Lemma neutron_send_ok q env channel sender to_ denom asked memo timeout pfm m :
  neutron_ibc_send_message q env channel sender to_ denom asked memo timeout pfm = Ok m →
  ∃ sent total ntrn, neutron_sent q env channel sender to_ denom asked memo timeout pfm m sent total ntrn.
Proof.
  unfold neutron_ibc_send_message, DEFAULT_TIMEOUT_SECONDS.
  intros (fee & Hfee%map_err_r_ok & Hs)%bind_result_ok.
  apply bind_result_ok in Hs as (total & Htot%expect_r_ok & Hs).
  apply bind_result_ok in Hs as (ntrn & Hb & Hs). apply bind_result_ok in Hs as (sent & Ham & Hs).
  apply bind_result_ok in Hs as (msg & Hmsg & (value & Hv%expect_r_ok & [= <-])%bind_result_ok).
  apply transfer_amount_ok in Ham as [Hn Ho]. exists sent, total, ntrn. split; try done.
  exists fee. split; [done|]. split; [done|]. unfold routed.
  destruct (pfm !! checked_denom_to_string denom) as [p|].
  - apply bind_result_ok in Hmsg as (ts & Hts%expect_r_ok & Hmsg).
    apply bind_result_ok in Hmsg as (memo' & Hm%from_to_json_text & [= <-]). repeat eexists; done.
  - apply bind_result_ok in Hmsg as (ts & Hts%expect_r_ok & [= <-]). repeat eexists; done.
Qed.
End Neutron.

(** C28 A transfer over IBC can be paid.  In every state a Neutron IBC transfer library can
    reach, a transfer of the processor that is accepted sends one message to the input
    account, for at most what the account holds of the denomination: all of it, or the
    configured amount, which is not zero.  The fees of the relayers fit beside it: when
    NTRN itself is sent, the amount and the fees together are at most the NTRN of the
    account, and the fees are deducted from the amount only when the whole NTRN balance is
    sent; otherwise the account's NTRN covers the fees.  The message goes to the
    configured channel and receiver, or to the hop chain configured for the denomination,
    which can read the final channel and receiver from the memo. *)
Theorem ibc_transfer_affordable
    `{Platform} `{CwDenom} `{CosmMath} `{!CosmMathLaws} `{JsonCodec AccountExecuteMsg}
    `{IbcPackages} `{JsonText PacketMetadata} `{!JsonTextLaws PacketMetadata} `{JsonText EurekaMemo}
    `{COw : CwOwnable} `{!CwOwnableLaws} `{CwOwnableDebug}
    (s : storage GenericIbcTransfer.LibraryConfig GenericIbcTransfer.Config ()) q env info r s' :
  lib_reach neutron_ibc_lib (λ _, True) () s →
  lib_execute neutron_ibc_lib q env info (ProcessFunction GenericIbcTransfer.IbcTransfer) s = Ok (r, s') →
  ∃ c balance asked sent total ntrn transfer m,
    s' = s ∧ s_config s = Some c ∧ s_processor s = Some (info_sender info) ∧
    q_denom_balance q (GenericIbcTransfer.denom c) (GenericIbcTransfer.input_addr c) = Ok balance ∧
    (asked ≤ balance)%N ∧
    match GenericIbcTransfer.amount c with
    | GenericIbcTransfer.FullAmount => asked = balance
    | GenericIbcTransfer.FixedAmount x => asked = x ∧ x ≠ 0%N
    end ∧
    GenericIbcTransfer.channel_id (GenericIbcTransfer.remote_chain_info c) ≠ "" ∧
    neutron_sent q env (GenericIbcTransfer.channel_id (GenericIbcTransfer.remote_chain_info c))
      (GenericIbcTransfer.input_addr c) (GenericIbcTransfer.output_addr c) (GenericIbcTransfer.denom c)
      asked (GenericIbcTransfer.memo c)
      (GenericIbcTransfer.ibc_transfer_timeout (GenericIbcTransfer.remote_chain_info c))
      (GenericIbcTransfer.denom_to_pfm_map c) transfer sent total ntrn ∧
    execute_on_behalf_of [transfer] (GenericIbcTransfer.input_addr c) = Ok m ∧
    resp_messages r = [SubMsg_new m].
Proof.
  intros (c & Hc & Hv)%(lib_reach_config neutron_ibc_lib ibc_valid eq (λ _, True)).
  intros (c0 & Hp & Hc0 & Hf)%lib_execute_process. assert (c0 = c) as -> by congruence.
  simpl in Hf. pose proof (read_only _ _ _ Hf) as ->.
  unfold GenericIbcTransfer.neutron_process_function in Hf. run_inv.
  match goal with Ha : GenericIbcTransfer.amount_to_send _ _ = Ok _ |- _ =>
    apply amount_to_send_ok in Ha as [Hle Ha] end.
  match goal with Hm : map_err_r _ _ = Ok _ |- _ =>
    apply map_err_r_ok, neutron_send_ok in Hm as (sent & total & ntrn & Hs) end.
  eexists c, _, _, sent, total, ntrn, _, _. split_and!; [done..| | |exact Hs|done|done].
  - pose proof (iv_amount _ Hv) as Hz. destruct (GenericIbcTransfer.amount c); [done|].
    split; [done|]. by intros ->.
  - apply Hv.
Qed.

(** ** All NTRN of an account, through a hop *)
#[global] Instance ref_ibc_packages : IbcPackages := {
  NeutronMsgTransfer_to_bytes m := Some [x01];
  MsgTransfer_to_bytes m := Ok [x01];
  MsgTransfer_type_url := "/ibc.applications.transfer.v1.MsgTransfer";
}.
#[global] Instance ForwardMetadata_eq_dec : EqDecision ForwardMetadata. Proof. solve_decision. Defined.
#[global] Instance ForwardMetadata_countable : Countable ForwardMetadata.
Proof. by_iso (λ '(mkForwardMetadata a b c), (a, (b, c))) (λ '(a, (b, c)), mkForwardMetadata a b c). Defined.
#[global] Instance PacketMetadata_eq_dec : EqDecision PacketMetadata. Proof. solve_decision. Defined.
#[global] Instance PacketMetadata_countable : Countable PacketMetadata.
Proof. by_iso (λ '(mkPacketMetadata a), a) (λ a, mkPacketMetadata a). Defined.
#[global] Instance ref_eureka_text : JsonText EurekaMemo := {
  to_json_string _ := Ok "memo";
  from_json_text _ := Err NotFound;
}.
Definition sample_ibc_config : GenericIbcTransfer.LibraryConfig :=
  GenericIbcTransfer.LibraryConfig_with_pfm_map (LibAddr "in") (LibAddr "osmo1receiver")
    (UncheckedNative "untrn") GenericIbcTransfer.FullAmount ""
    (GenericIbcTransfer.mkRemoteChainInfo "channel-1" None)
    {["untrn" := mkPfm "channel-2" "channel-3" None]}.
Definition sample_ibc_init : Exec (storage GenericIbcTransfer.LibraryConfig GenericIbcTransfer.Config ())
    LibraryError Response :=
  instantiate (ref_lib_querier 100) "ibc" "1" (mkLibInstantiateMsg "owner" "processor" sample_ibc_config).
Definition sample_ibc : storage GenericIbcTransfer.LibraryConfig GenericIbcTransfer.Config () :=
  after sample_ibc_init (empty_storage ()).
Definition sample_ibc_tx : Exec (storage GenericIbcTransfer.LibraryConfig GenericIbcTransfer.Config ())
    LibraryError Response :=
  lib_execute neutron_ibc_lib (ref_lib_querier 100) (mkEnv (mkBlock 1 1) "ibc")
    (mkInfo "processor" []) (ProcessFunction GenericIbcTransfer.IbcTransfer).
Lemma ibc_transfer_affordable_witness :
  succeeds sample_ibc_tx sample_ibc = true ∧
  ∃ sent total ntrn, (sent + total ≤ ntrn)%N ∧
    q_bank_balance (ref_lib_querier 100) "in" NTRN_DENOM = Ok ntrn.
Proof.
  split; [by vm_compute|].
  assert (lib_reach neutron_ibc_lib (λ _, True) () sample_ibc) as Hreach.
  { destruct (after_ok sample_ibc_init (empty_storage ())) as [r0 H0]; [by vm_compute|].
    by eapply reach_start; [|exact H0]. }
  destruct (after_ok sample_ibc_tx sample_ibc) as [r Hr]; [by vm_compute|].
  destruct (ibc_transfer_affordable _ _ _ _ _ _ Hreach Hr)
    as (c & balance & asked & sent & total & ntrn & transfer & m & _ & Hc & _ & _ & _ & _ & _ & Hs & _).
  vm_compute in Hc. injection Hc as <-. destruct Hs as [_ Hb Hn _].
  exists sent, total, ntrn. split; [by apply Hn|exact Hb].
Defined.

(** An update of the memo of an ICA transfer is recorded in the raw configuration only:
    the memo that transfers are sent with stays as it was. *)
Theorem ica_memo_update_ignored `{CPl : Platform} `{CDe : CwDenom}
    `{JsonCodec InterchainAccount.ExecuteMsg} `{IbcPackages} `{JsonText PacketMetadata}
    `{JsonText EurekaMemo} `{CwOwnable} `{CwOwnableDebug} q env info memo s r s' c :
  let update := IcaIbcTransfer.mkLibraryConfigUpdate None None None None (Some memo) None None UpdNone in
  lib_execute ica_ibc_lib q env info (UpdateConfig update) s = Ok (r, s') → s_config s = Some c →
  s_config s' = Some c ∧
  IcaIbcTransfer.raw_memo <$> s_raw_library_config s' = Some memo.
Proof.
  intros update (raw & v & _ & Hraw & Hu & _)%lib_execute_update Hc. simpl in Hu.
  unfold IcaIbcTransfer.update_config, load_config, save_config in Hu. run_inv.
  split; [|done]. simpl. by match goal with |- Some _ = Some ?c => destruct c end.
Qed.
