(* ===== verification/OsmosisTheorems.v ===== *)
(** * The Osmosis libraries: ranges, amounts, and where positions go *)
From Stdlib Require Import Strings.Byte.
From S2P Require Import Prelude Platform Types Format Accounts InterchainAccount Protocols LibraryBase.
From S2P Require Import LibraryProofs Osmosis AccountsTheorems Codec LibraryCodec.
Import Library.

(** ** Ticks *)
Section Ticks.
Context `{CI : Int64Math} `{!Int64MathLaws}.

(** The range of [m] buckets of width [sp] around the bucket of tick [t]. *)
Definition bucket_low (t sp : Z) : Z := (sp * (t / sp))%Z.
Definition around (t sp m : Z) : TickRange :=
  mkTickRange (bucket_low t sp - sp * m) (bucket_low t sp + sp + sp * m).
Lemma bucket_contains t sp : (0 < sp)%Z → (bucket_low t sp ≤ t < bucket_low t sp + sp)%Z.
Proof. intros Hs. unfold bucket_low. pose proof (Z.mod_pos_bound t sp Hs). pose proof (Z.div_mod t sp). lia. Qed.

Lemma i64_try_from_ok n z : i64_try_from n = Some z ↔ z = Z.of_N n ∧ (Z.of_N n ≤ i64_max)%Z.
Proof. unfold i64_try_from. destruct (Z.leb_spec (Z.of_N n) i64_max); naive_solver lia. Qed.
Lemma div_euclid_ok t sp r :
  (0 < sp)%Z → in_i64 t → int64_checked_div_euclid t sp = Ok r ↔ r = (t / sp)%Z.
Proof.
  intros Hs Ht. rewrite int64_div_euclid_spec, Z.abs_eq by lia. unfold in_i64, i64_min, i64_max in *.
  split.
  - intros [(m & -> & Hm) _]. apply (Z.div_unique_pos _ _ r m); lia.
  - intros ->. split.
    + exists (t mod sp)%Z. pose proof (Z.mod_pos_bound t sp Hs). pose proof (Z.div_mod t sp). lia.
    + pose proof (Z.div_mod t sp). pose proof (Z.mod_pos_bound t sp Hs). nia.
Qed.

(** [TickRange::try_from] is the bucket of the current tick, when it fits. *)
Lemma try_from_ok pool r :
  in_i64 (cl_current_tick pool) →
  let sp := Z.of_N (cl_tick_spacing pool) in
  let b := bucket_low (cl_current_tick pool) sp in
  TickRange_try_from pool = Ok r ↔
  (0 < sp ≤ i64_max)%Z ∧ in_i64 b ∧ in_i64 (b + sp) ∧ r = mkTickRange b (b + sp).
Proof.
  intros Ht sp b. unfold TickRange_try_from. rewrite bind_result_iff. split.
  - intros (s & [-> Hs]%ok_or_r_ok%i64_try_from_ok & (q & Hq%map_err_r_ok & Hr)%bind_result_ok).
    assert (0 < sp)%Z as Hpos.
    { destruct (decide (sp = 0)%Z) as [E|]; [|unfold sp in *; lia].
      apply int64_div_euclid_spec in Hq as [(m & _ & Hm) _]. fold sp in Hm. rewrite E in Hm. simpl in Hm. lia. }
    apply div_euclid_ok in Hq as ->; [|done..].
    apply bind_result_ok in Hr as (l & [-> Hl]%int64_mul_spec & (u & [-> Hu]%int64_add_spec & [= <-])%bind_result_ok).
    fold sp in Hl, Hu, Hs |- *. rewrite (Z.mul_comm (_ / sp)) in *. fold (bucket_low (cl_current_tick pool) sp) in *.
    done.
  - intros ([Hpos Hmax] & Hb & Hu & ->). exists sp.
    split; [by apply ok_or_r_ok, i64_try_from_ok|].
    rewrite bind_result_iff. eexists. split; [by apply map_err_r_ok, div_euclid_ok|].
    rewrite bind_result_iff. exists b. split; [apply int64_mul_spec; split; [|done]; unfold b, bucket_low; lia|].
    rewrite bind_result_iff. exists (b + sp)%Z. split; [by apply int64_add_spec|done].
Qed.
Lemma amplify_ok (r r' : TickRange) m :
  amplify_range_bidirectionally r m = Ok r' ↔
  let w := (upper_tick r - lower_tick r)%Z in
  (0 < Z.of_N m ≤ i64_max)%Z ∧ in_i64 w ∧ in_i64 (w * Z.of_N m) ∧
  in_i64 (lower_tick r - w * Z.of_N m) ∧ in_i64 (upper_tick r + w * Z.of_N m) ∧
  r' = mkTickRange (lower_tick r - w * Z.of_N m) (upper_tick r + w * Z.of_N m).
Proof.
  unfold amplify_range_bidirectionally. split.
  - intros (u & Hm%ensure_r_ok & (k & Hk%int64_try_from_spec & Hr)%bind_result_ok)%bind_result_ok.
    apply i64_try_from_ok in Hk as [-> Hk]. apply negb_true_iff, N.eqb_neq in Hm.
    apply bind_result_ok in Hr as (w & [-> Hw]%int64_sub_spec & (x & [-> Hx]%int64_mul_spec & Hr)%bind_result_ok).
    apply bind_result_ok in Hr as (l & [-> Hl]%int64_sub_spec & (h & [-> Hh]%int64_add_spec & [= <-])%bind_result_ok).
    split_and!; try done; lia.
  - intros (Hm & Hw & Hx & Hl & Hh & ->). rewrite bind_result_iff. exists ().
    split; [apply ensure_r_ok, negb_true_iff, N.eqb_neq; lia|].
    rewrite bind_result_iff. exists (Z.of_N m).
    split; [by apply int64_try_from_spec, i64_try_from_ok; split; [|lia]|].
    rewrite bind_result_iff. eexists. split; [by apply int64_sub_spec|].
    rewrite bind_result_iff. eexists. split; [by apply int64_mul_spec|].
    rewrite bind_result_iff. eexists. split; [by apply int64_sub_spec|].
    rewrite bind_result_iff. eexists. split; [by apply int64_add_spec|done].
Qed.
(** Together: the range is computed if and only if it exists and fits. *)
Lemma default_range_ok pool m r :
  in_i64 (cl_current_tick pool) →
  let sp := Z.of_N (cl_tick_spacing pool) in
  let range := around (cl_current_tick pool) sp (Z.of_N m) in
  (∃ b, TickRange_try_from pool = Ok b ∧ amplify_range_bidirectionally b m = Ok r) ↔
  (0 < sp)%Z ∧ m ≠ 0%N ∧ in_i64 (lower_tick range) ∧ in_i64 (upper_tick range) ∧ r = range.
Proof.
  intros Ht sp range. split.
  - intros (b & Hb & Ha). apply try_from_ok in Hb as ([Hs _] & _ & _ & ->); [|done].
    apply amplify_ok in Ha as (Hm & _ & _ & Hl & Hh & ->). cbn [lower_tick upper_tick] in Hl, Hh |- *.
    fold sp in Hl, Hh |- *. unfold range, around. cbn [lower_tick upper_tick].
    set (b := bucket_low _ sp) in Hl, Hh |- *.
    replace (b + sp - b)%Z with sp in Hl, Hh |- * by lia. split_and!; try done; lia.
  - intros (Hs & Hm & Hl & Hh & ->).
    exists (mkTickRange (bucket_low (cl_current_tick pool) sp) (bucket_low (cl_current_tick pool) sp + sp)).
    assert (0 < Z.of_N m)%Z by lia. unfold range, around in *. cbn [lower_tick upper_tick] in *.
    set (b := bucket_low _ sp) in *. assert (sp ≤ sp * Z.of_N m)%Z by nia. assert (Z.of_N m ≤ sp * Z.of_N m)%Z by nia.
    unfold in_i64, i64_min, i64_max in *. split.
    + apply try_from_ok; [done|]. fold sp b. unfold in_i64, i64_min, i64_max. split_and!; try done; lia.
    + apply amplify_ok. cbn [lower_tick upper_tick]. replace (b + sp - b)%Z with sp by lia.
      unfold in_i64, i64_min, i64_max. split_and!; try done; lia.
Qed.

(** A custom range. *)
Definition spaced (sp : Z) (r : TickRange) : Prop := (sp | lower_tick r)%Z ∧ (sp | upper_tick r)%Z.
Lemma tick_compatible_ok t sp b :
  (0 < sp)%Z → tick_compatible t sp = Ok b ↔ b = (Z.rem t sp =? 0)%Z.
Proof.
  intros Hs. unfold tick_compatible. destruct (Z.eqb_spec t 0) as [->|Ht].
  - rewrite Z.rem_0_l by lia. naive_solver.
  - destruct (Z.eqb_spec sp 0); [lia|]. naive_solver.
Qed.
Lemma spacing_ok r pool u :
  (lower_tick r < upper_tick r)%Z →
  let sp := Z.of_N (cl_tick_spacing pool) in
  ensure_pool_spacing_compatibility r pool = Ok u ↔ (0 < sp ≤ i64_max)%Z ∧ spaced sp r.
Proof.
  intros Hlt sp. unfold ensure_pool_spacing_compatibility. rewrite bind_result_iff. split.
  - intros (s & [-> Hs]%ok_or_r_ok%i64_try_from_ok & Hr). fold sp in Hs, Hr.
    apply bind_result_ok in Hr as (b1 & H1 & (b2 & H2 & Hr%ensure_r_ok)%bind_result_ok).
    assert (0 < sp)%Z.
    { destruct (decide (sp = 0)%Z) as [E|]; [|unfold sp in *; lia]. exfalso.
      unfold tick_compatible in H1, H2. rewrite E in H1, H2. simpl in *.
      destruct (Z.eqb_spec (lower_tick r) 0), (Z.eqb_spec (upper_tick r) 0); try done. lia. }
    apply tick_compatible_ok in H1 as ->; [|done]. apply tick_compatible_ok in H2 as ->; [|done].
    apply andb_true_iff in Hr as [Hr1%Z.eqb_eq Hr2%Z.eqb_eq]. apply Z.rem_divide in Hr1, Hr2; [|lia..]. done.
  - intros [[Hs Hm] [H1 H2]]. exists sp. split; [by apply ok_or_r_ok, i64_try_from_ok|].
    rewrite bind_result_iff. eexists. split; [by apply tick_compatible_ok|].
    rewrite bind_result_iff. eexists. split; [by apply tick_compatible_ok|].
    apply Z.rem_divide in H1, H2; [|lia..]. rewrite H1, H2. by apply ensure_r_ok.
Qed.
Lemma ensure_contains_ok g r u :
  ensure_contains g r = Ok u ↔ (lower_tick g ≤ lower_tick r ∧ upper_tick r ≤ upper_tick g)%Z.
Proof. unfold ensure_contains. rewrite ensure_r_ok, andb_true_iff, !Z.leb_le. done. Qed.
Lemma TickRange_validate_ok r u : TickRange_validate r = Ok u ↔ (lower_tick r < upper_tick r)%Z.
Proof. unfold TickRange_validate. by rewrite ensure_r_ok, Z.ltb_lt. Qed.
End Ticks.

(** ** Concentrated liquidity *)
Section ClLper.
Import OsmosisClLper.
Context `{CPl : Platform} `{CJs : JsonCodec AccountExecuteMsg} `{COs : OsmosisProto} `{CIn : Int64Math}.
Context `{CCf : JsonText Config} `{CCb : JsonText ValenceCallback}.

Definition cl_lper_lib : LibraryFns LibraryConfig Config () FunctionMsgs LibraryConfigUpdate :=
  mkLibraryFns process_function update_config.
#[global] Instance cl_lper_process_ro q env info f c : ReadOnly (process_function q env info f c).
Proof. unfold process_function. destruct f; apply _. Qed.
#[global] Instance cl_lper_laws : LibraryLaws cl_lper_lib (λ _, True) eq (λ _, True).
Proof. by apply (simple_library_laws _ _ _ update_fields); [|apply _|..]. Qed.

(** The response asks the input account of [c] to create a position over [range] with
    [coins], and to come back with the configuration. *)
Definition creates (c : Config) (coins : list Coin) (range : TickRange) (min0 min1 : N)
    (r : Response) : Prop :=
  ∃ payload m, to_json_string c = Ok payload ∧
    execute_submsgs_on_behalf_of
      [SubMsg_reply_on_success (MsgCreatePosition_into (mkMsgCreatePosition (pool_id (lp_config c))
         (input_addr c) (lower_tick range) (upper_tick range) (cosmwasm_to_proto_coins coins)
         (pretty min0) (pretty min1))) REPLY_ID] (Some payload) (input_addr c) = Ok m ∧
    r = mkResponse [SubMsg_reply_on_success m REPLY_ID] [].
Lemma delegate_position_ok c msg r :
  delegate_position c msg = Ok r ↔
  ∃ payload m, to_json_string c = Ok payload ∧
    execute_submsgs_on_behalf_of [SubMsg_reply_on_success msg REPLY_ID] (Some payload) (input_addr c) = Ok m ∧
    r = mkResponse [SubMsg_reply_on_success m REPLY_ID] [].
Proof.
  unfold delegate_position. split.
  - intros (p & Hp%try_ok & (m & Hm%try_ok & [= <-])%bind_result_ok)%bind_result_ok. by exists p, m.
  - intros (p & m & Hp & Hm & ->). by rewrite Hp; simpl; rewrite Hm.
Qed.
Lemma creates_total `{!JsonTextLaws Config} `{!JsonCodecLaws AccountExecuteMsg} c coins range min0 min1 :
  ∃ r, creates c coins range min0 min1 r.
Proof.
  destruct (to_json_string_total c) as [payload Hp].
  unfold creates, execute_submsgs_on_behalf_of.
  match goal with |- context [AccExecuteSubmsgs ?a _] =>
    destruct (to_json_total (AccExecuteSubmsgs a (Some payload))) as [b Hb] end.
  do 3 eexists. split_and!; [done| |done]. by rewrite Hb.
Qed.

Context `{!Int64MathLaws}.
Lemma provide_default_ok q c coins pool m r :
  input_balances q c = Ok coins → query_cl_pool q (pool_id (lp_config c)) = Ok pool →
  in_i64 (cl_current_tick pool) →
  let sp := Z.of_N (cl_tick_spacing pool) in
  let range := around (cl_current_tick pool) sp (Z.of_N m) in
  provide_liquidity_default q c m = Ok r ↔
  ((0 < sp)%Z ∧ m ≠ 0%N ∧ in_i64 (lower_tick range) ∧ in_i64 (upper_tick range)) ∧
  ensure_contains (global_tick_range (lp_config c)) range = Ok () ∧ creates c coins range 0 0 r.
Proof.
  intros Hc Hp Ht sp range. unfold provide_liquidity_default. rewrite Hc, Hp. simpl. split.
  - intros (b & Hb%try_ok & (d & Hd%try_ok & ([] & He & Hr)%bind_result_ok)%bind_result_ok)%bind_result_ok.
    destruct (default_range_ok pool m d Ht) as [Hok _].
    destruct Hok as (Hs & Hm & Hl & Hh & ->); [eauto|].
    split_and!; try done. by apply delegate_position_ok in Hr.
  - intros (Hok & He & Hr). destruct (default_range_ok pool m range Ht) as [_ Hd].
    destruct Hd as (b & Hb & Hd); [naive_solver|]. rewrite bind_result_iff.
    exists b. split; [by apply try_ok|]. rewrite bind_result_iff. exists range. split; [by apply try_ok|].
    rewrite He. by apply delegate_position_ok.
Qed.
Lemma provide_custom_ok q c coins pool t m0 m1 r :
  input_balances q c = Ok coins → query_cl_pool q (pool_id (lp_config c)) = Ok pool →
  let sp := Z.of_N (cl_tick_spacing pool) in
  provide_liquidity_custom q c t m0 m1 = Ok r ↔
  ((lower_tick t < upper_tick t)%Z ∧ (0 < sp ≤ i64_max)%Z ∧ spaced sp t) ∧
  ensure_contains (global_tick_range (lp_config c)) t = Ok () ∧ creates c coins t m0 m1 r.
Proof.
  intros Hc Hp sp. unfold provide_liquidity_custom. rewrite Hc, Hp. simpl. split.
  - intros (u & Hv%TickRange_validate_ok & (u2 & Hs & ([] & He & Hr)%bind_result_ok)%bind_result_ok)%bind_result_ok.
    apply spacing_ok in Hs; [|done]. by apply delegate_position_ok in Hr.
  - intros ((Hv & Hs) & He & Hr). rewrite bind_result_iff. exists (). split; [by apply TickRange_validate_ok|].
    rewrite bind_result_iff. exists (). split; [by apply spacing_ok|].
    rewrite He. by apply delegate_position_ok.
Qed.
End ClLper.

(** C30 The ranges of positions are exact.  With the balances and the pool known, the
    default liquidity is accepted if and only if the spacing and the number of buckets are
    not zero, and the range that extends the bucket of the current tick by that many
    buckets to both sides fits in 64 bits and in the configured global range: there is no
    other overflow.  A custom range is accepted if and only if it is not empty, both its
    ends are multiples of the spacing, and it is inside the global range.  An accepted call
    asks the input account to create exactly that position with its whole balances.  The
    default range has multiples of the spacing as its ends and contains the current tick. *)
Theorem cl_ranges_exact
    `{Platform} `{JsonCodec AccountExecuteMsg} `{!JsonCodecLaws AccountExecuteMsg} `{OsmosisProto}
    `{Int64Math} `{!Int64MathLaws} `{JsonText OsmosisClLper.Config} `{!JsonTextLaws OsmosisClLper.Config}
    `{JsonText ValenceCallback} `{CwOwnable} `{CwOwnableDebug}
    (s : storage OsmosisClLper.LibraryConfig OsmosisClLper.Config ()) q env info c coins pool :
  s_config s = Some c → s_processor s = Some (info_sender info) →
  OsmosisClLper.input_balances q c = Ok coins →
  query_cl_pool q (OsmosisClLper.pool_id (OsmosisClLper.lp_config c)) = Ok pool →
  in_i64 (cl_current_tick pool) →
  let sp := Z.of_N (cl_tick_spacing pool) in
  let g := OsmosisClLper.global_tick_range (OsmosisClLper.lp_config c) in
  let inside t := (lower_tick g ≤ lower_tick t ∧ upper_tick t ≤ upper_tick g)%Z in
  let run f := lib_execute cl_lper_lib q env info (ProcessFunction f) s in
  (∀ m r s', let range := around (cl_current_tick pool) sp (Z.of_N m) in
     (run (OsmosisClLper.ProvideLiquidityDefault m) = Ok (r, s') ↔
      ((0 < sp)%Z ∧ m ≠ 0%N ∧ in_i64 (lower_tick range) ∧ in_i64 (upper_tick range)) ∧
      inside range ∧ s' = s ∧ creates c coins range 0 0 r) ∧
     ((0 < sp)%Z → spaced sp range ∧
      (lower_tick range ≤ cl_current_tick pool < upper_tick range)%Z)) ∧
  (∀ t m0 m1 r s',
     run (OsmosisClLper.ProvideLiquidityCustom t m0 m1) = Ok (r, s') ↔
     ((lower_tick t < upper_tick t)%Z ∧ (0 < sp ≤ i64_max)%Z ∧ spaced sp t) ∧
     inside t ∧ s' = s ∧ creates c coins t (default 0%N m0) (default 0%N m1) r) ∧
  (∀ t m0 m1, ∃ r, creates c coins t m0 m1 r).
Proof.
  intros Hc Hp Hb Hq Ht sp g inside run.
  assert (∀ f r s', run f = Ok (r, s') ↔ OsmosisClLper.process_function q env info f c s = Ok (r, s')) as Hrun.
  { intros f r s'. unfold run. rewrite lib_execute_process. naive_solver. }
  split_and!; [|intros t m0 m1 r s'|intros t m0 m1; apply creates_total].
  - intros m r s' range. split.
    + rewrite Hrun. cbn [OsmosisClLper.process_function].
      rewrite of_result_ok, (provide_default_ok q c coins pool) by done.
      rewrite ensure_contains_ok. unfold inside, range, sp, g. naive_solver.
    + intros Hs. pose proof (bucket_contains (cl_current_tick pool) sp Hs).
      unfold range, around, spaced. cbn [lower_tick upper_tick]. split; [|nia].
      unfold bucket_low. split; [exists (cl_current_tick pool / sp - Z.of_N m)%Z; lia|].
      exists (cl_current_tick pool / sp + 1 + Z.of_N m)%Z. lia.
  - rewrite Hrun. cbn [OsmosisClLper.process_function].
    rewrite of_result_ok, (provide_custom_ok q c coins pool) by done.
    rewrite ensure_contains_ok. unfold inside, sp, g. naive_solver.
Qed.

Section ClDelivery.
Import OsmosisClLper.
Context `{CPl : Platform} `{CJs : JsonCodec AccountExecuteMsg} `{!JsonCodecLaws AccountExecuteMsg}.
Context `{COs : OsmosisProto} `{CIn : Int64Math}.
Context `{CCf : JsonText Config} `{CCb : JsonText ValenceCallback}.

(** Every accepted function of the library creates one position. *)
Lemma process_creates q env info f c s r s' :
  process_function q env info f c s = Ok (r, s') →
  s' = s ∧ ∃ coins range min0 min1, creates c coins range min0 min1 r.
Proof.
  destruct f; cbn [process_function]; intros [Hp ->]%of_result_ok; split; [done| |done|].
  - unfold provide_liquidity_custom in Hp. do 5 apply bind_result_ok in Hp as (? & _ & Hp).
    apply delegate_position_ok in Hp. unfold creates. eauto 10.
  - unfold provide_liquidity_default in Hp. do 5 apply bind_result_ok in Hp as (? & _ & Hp).
    apply delegate_position_ok in Hp. exists x, x2, 0%N, 0%N. exact Hp.
Qed.
(** The reply passes the position on. *)
Lemma reply_transfers env hr outcome c cb position_id s :
  host_reply_id hr = REPLY_ID → host_reply_result hr = outcome →
  parse_valence_payload outcome = Ok c → ValenceCallback_try_from outcome = Ok cb →
  MsgCreatePositionResponse_try_from (cb_result cb) = Ok position_id →
  ∃ r m, reply env hr s = Ok (r, s) ∧ resp_messages r = [SubMsg_new m] ∧
    execute_on_behalf_of [MsgTransferPositions_into (mkMsgTransferPositions [position_id]
      (input_addr c) (output_addr c))] (input_addr c) = Ok m.
Proof.
  intros Hid Hres Hc Hcb Hpos. unfold reply. rewrite Hid, N.eqb_refl, Hres.
  unfold handle_liquidity_provision_reply_id. rewrite Hc, Hcb. simpl. rewrite Hpos. simpl.
  unfold execute_on_behalf_of.
  match goal with |- context [AccExecuteMsg ?a] => destruct (to_json_total (AccExecuteMsg a)) as [b Hb] end.
  rewrite Hb. simpl. by do 2 eexists.
Qed.
End ClDelivery.

(** C31 A position ends at the output account.  When a call that provides liquidity is
    accepted, the input account, if it approved the library, runs the message that creates
    the position; whatever the position's id in the answer, the account relays it.  When no
    wasm event before the account's answer carries the key of its payload, and none before
    its relay carries the key of its callback (the library reads the first such event), the
    library's reply, whatever the library's state has become meanwhile and whatever events
    come after, has the input account transfer exactly this position to the output account
    of the configuration the call was made with; the account executes the transfer. *)
Theorem cl_position_delivered
    `{Platform} `{JsonCodec AccountExecuteMsg} `{!JsonCodecLaws AccountExecuteMsg} `{OsmosisProto}
    `{Int64Math} `{JsonText OsmosisClLper.Config} `{!JsonTextLaws OsmosisClLper.Config}
    `{JsonText ValenceCallback} `{!JsonTextLaws ValenceCallback}
    `{CwOwnable} `{!CwOwnableLaws} `{CwOwnableDebug}
    (s : storage OsmosisClLper.LibraryConfig OsmosisClLper.Config ()) q env info f r s'
    (a : BaseAccount.storage) env_a :
  lib_execute cl_lper_lib q env info (ProcessFunction f) s = Ok (r, s') →
  env_contract env ∈ approved a → is_Some (BaseAccount.s_ownership a) →
  ∃ c body msg ra create,
    s_config s = Some c ∧ s' = s ∧
    let input := OsmosisClLper.input_addr c in
    let library := mkInfo (env_contract env) [] in
    resp_messages r =
      [SubMsg_reply_on_success (CosmosWasm (WasmExecute input body [])) OsmosisClLper.REPLY_ID] ∧
    from_json body = Ok msg ∧ BaseAccount.execute env_a library msg a = Ok (ra, a) ∧
    resp_messages ra =
      [SubMsg_reply_on_success (MsgCreatePosition_into create) OsmosisClLper.REPLY_ID] ∧
    cp_sender create = input ∧ cp_pool_id create = OsmosisClLper.pool_id (OsmosisClLper.lp_config c) ∧
    ∀ outcome position_id bytes gas,
      MsgCreatePositionResponse_try_from outcome = Ok position_id →
      ∃ rr, BaseAccount.reply env_a (mkHostReply OsmosisClLper.REPLY_ID bytes gas outcome) a = Ok (rr, a) ∧
      ∀ s2 env2 pre mid post data rs bytes2 gas2, quiet pre mid →
        ∃ r2 body2 msg2 ra2,
          OsmosisClLper.reply env2 (mkHostReply OsmosisClLper.REPLY_ID bytes2 gas2
            (OutcomeOk (mkSubMsgResponse (relay_events input pre ra mid rr post) data rs))) s2 = Ok (r2, s2) ∧
          resp_messages r2 = [SubMsg_new (CosmosWasm (WasmExecute input body2 []))] ∧
          from_json body2 = Ok msg2 ∧ BaseAccount.execute env_a library msg2 a = Ok (ra2, a) ∧
          resp_messages ra2 = [SubMsg_new (MsgTransferPositions_into
            (mkMsgTransferPositions [position_id] input (OsmosisClLper.output_addr c)))].
Proof.
  intros (c & _ & Hc & Hf)%lib_execute_process Ha Ho.
  destruct (process_creates _ _ _ _ _ _ _ _ Hf) as (-> & coins & range & min0 & min1 & payload & m & Hp & Hm & ->).
  destruct (delegate_relayed _ _ env_a a _ c _ _ Hp Hm Ha) as (body & msg & ra & -> & Hb & He & Hra & Hrelay).
  eexists c, body, msg, ra, _. split; [done|]. split; [done|]. cbv zeta.
  split_and!; [done|exact Hb|exact He|exact Hra|done|done|]. intros outcome position_id bytes gas Hpos.
  destruct (Hrelay (mkHostReply OsmosisClLper.REPLY_ID bytes gas outcome)) as (rr & Hrr & _ & Hev).
  exists rr. split; [done|]. intros s2 env2 pre mid post data rs bytes2 gas2 Hq.
  destruct (Hev pre mid post data rs Hq) as [Hpay Hcb].
  destruct (reply_transfers env2 (mkHostReply OsmosisClLper.REPLY_ID bytes2 gas2 _) _ c _ position_id s2
    eq_refl eq_refl Hpay Hcb Hpos) as (r2 & m2 & Hr2 & Hr2m & Hm2).
  destruct (account_executes _ _ _ (env_contract env) env_a a Hm2 Ha Ho) as (body2 & msg2 & ra2 & -> & Hb2 & He2 & Hra2).
  exists r2, body2, msg2, ra2. by split_and!.
Qed.

(** ** Classic pools *)
(** What is provided of balances [b1] and [b2] at a price (in atoms of a decimal). *)
Definition provision (b1 b2 price : N) : N * N :=
  let e := (b1 * price / decimal_one)%N in
  if (e <=? b2)%N then (b1, e) else ((b2 * decimal_one / price)%N, b2).
(** Never more than the balances, all of one of them, and in the proportion of the price,
    up to less than one unit of the amount that was computed. *)
Record fair_provision (b1 b2 price p1 p2 : N) : Prop := {
  fair_1 : (p1 ≤ b1)%N;
  fair_2 : (p2 ≤ b2)%N;
  fair_all : p1 = b1 ∨ p2 = b2;
  fair_ratio :
    (p2 * decimal_one ≤ p1 * price < (p2 + 1) * decimal_one)%N ∨
    (p1 * price ≤ p2 * decimal_one < (p1 + 1) * price)%N;
}.
Lemma N_div_bounds a b : b ≠ 0%N → (a / b * b ≤ a < (a / b + 1) * b)%N.
Proof.
  intros Hb. pose proof (N.div_mod a b Hb) as Hd. pose proof (N.mod_lt a b Hb) as Hm.
  revert Hd Hm. generalize (a / b)%N (a mod b)%N. intros q m Hd Hm. nia.
Qed.
Lemma decimal_one_pos : decimal_one ≠ 0%N.
Proof. done. Qed.
Lemma provision_fair b1 b2 price :
  fair_provision b1 b2 price (provision b1 b2 price).1 (provision b1 b2 price).2.
Proof.
  unfold provision. pose proof (N_div_bounds (b1 * price) decimal_one decimal_one_pos) as He.
  revert He. generalize (b1 * price / decimal_one)%N. intros e He.
  destruct (N.leb_spec e b2) as [Hle|Hlt]; simpl.
  - split; [lia|done|by left|by left].
  - assert (price ≠ 0%N) as Hp by (intros ->; unfold decimal_one in *; lia).
    pose proof (N_div_bounds (b2 * decimal_one) price Hp) as Hd. revert Hd.
    generalize (b2 * decimal_one / price)%N. intros d Hd.
    split; [|done|by right|by right].
    destruct (N.le_gt_cases d b1); [done|].
    assert (b1 * price ≤ d * price)%N by nia. unfold decimal_one in *. lia.
Qed.

Section GammLper.
Import OsmosisGammLper.
Context `{CPl : Platform} `{CMa : CosmMath} `{!CosmMathLaws} `{CJs : JsonCodec AccountExecuteMsg}.
Context `{COs : OsmosisProto} `{CNu : NumberText}.

Definition gamm_lper_lib : LibraryFns LibraryConfig Config () FunctionMsgs LibraryConfigUpdate :=
  mkLibraryFns process_function update_config.
#[global] Instance gamm_lper_process_ro q env info f c : ReadOnly (process_function q env info f c).
Proof. unfold process_function. destruct f; apply _. Qed.
#[global] Instance gamm_lper_laws : LibraryLaws gamm_lper_lib (λ _, True) eq (λ _, True).
Proof. by apply (simple_library_laws _ _ _ update_fields); [|apply _|..]. Qed.

Lemma provision_amounts_ok d1 b1 d2 b2 price coins :
  (b1 ≤ u128_max)%N →
  calculate_provision_amounts (mkCoin d1 b1) (mkCoin d2 b2) price = Ok coins ↔
  (b1 * price / decimal_one ≤ u128_max)%N ∧
  coins = [mkCoin d1 (provision b1 b2 price).1; mkCoin d2 (provision b1 b2 price).2].
Proof.
  intros Hb1. pose proof (provision_fair b1 b2 price) as Hf.
  unfold calculate_provision_amounts. cbn [coin_amount coin_denom].
  rewrite bind_result_iff. split.
  - intros (e & He%map_err_r_ok & Hc). apply checked_multiply_ratio_spec in He as (_ & -> & Hmax).
    split; [done|]. unfold provision in *. rewrite N.leb_antisym. destruct (_ <? _)%N; simpl in *.
    + apply bind_result_ok in Hc as (p & Hp%map_err_r_ok & [= <-]).
      by apply checked_multiply_ratio_spec in Hp as (_ & -> & _).
    + by injection Hc as <-.
  - intros [Hmax ->]. exists (b1 * price / decimal_one)%N.
    split; [by apply map_err_r_ok, checked_multiply_ratio_spec|].
    unfold provision in *. rewrite N.leb_antisym in *.
    destruct (N.ltb_spec b2 (b1 * price / decimal_one)); simpl in *; [|done].
    rewrite bind_result_iff. eexists. split; [|done].
    apply map_err_r_ok, checked_multiply_ratio_spec. split_and!; [|done|].
    + intros ->. rewrite N.mul_0_r, N.Div0.div_0_l in *. lia.
    + destruct Hf as [Hf _ _ _]. lia.
Qed.

(** The response has the input account join the pool with [join], for [shares] shares that
    go to the output account. *)
Definition joins (c : Config) (join : CosmosMsg) (pool : GammPool) (shares : N) (r : Response) : Prop :=
  ∃ token m, gamm_total_shares pool = Some token ∧
    execute_on_behalf_of [join; CosmosBankSend (output_addr c) [mkCoin (proto_denom token) shares]]
      (input_addr c) = Ok m ∧ r = mkResponse [SubMsg_new m] [].
Lemma join_and_transfer_ok c join shares pool r :
  join_and_transfer c join shares pool = Ok r ↔ joins c join pool shares r.
Proof.
  unfold join_and_transfer. split.
  - intros (t & Ht%try_ok%ok_or_r_ok & (m & Hm%try_ok & [= <-])%bind_result_ok)%bind_result_ok. by exists t, m.
  - intros (t & m & Ht & Hm & ->). rewrite Ht. simpl. by rewrite Hm.
Qed.
Lemma joins_total `{!JsonCodecLaws AccountExecuteMsg} c join pool shares :
  is_Some (gamm_total_shares pool) → ∃ r, joins c join pool shares r.
Proof.
  intros [t Ht]. unfold joins, execute_on_behalf_of.
  destruct (to_json_total (AccExecuteMsg [join; CosmosBankSend (output_addr c)
    [mkCoin (proto_denom t) shares]])) as [b Hb].
  do 3 eexists. split_and!; [done| |done]. by rewrite Hb.
Qed.
Definition price_expected (expected : option DecimalRange) (price : N) : Prop :=
  ∀ e, expected = Some e → (range_min e ≤ price ≤ range_max e)%N.
Lemma check_expected_ok expected price u :
  check_expected expected price = Ok u ↔ price_expected expected price.
Proof.
  unfold check_expected, price_expected. destruct expected as [e|].
  - unfold range_contains. rewrite ensure_r_ok, andb_true_iff, !N.leb_le. naive_solver.
  - destruct u. naive_solver.
Qed.
End GammLper.

(** C32 The liquidity of a classic pool is provided within the balances.  With the balances,
    the price and the pool known, double-sided liquidity is accepted if and only if the
    price is in the expected range, the value of the first balance fits in 128 bits and the
    pool tells its shares for the provision.  The provision never exceeds the balances,
    takes all of one of them, and is in the proportion of the price up to rounding; the
    second conversion cannot fail.  Single-sided liquidity provides the smaller of balance
    and limit.  In both cases the shares asked of the pool are the ones that go on to the
    output account. *)
Theorem gamm_provision_exact
    `{Platform} `{CosmMath} `{!CosmMathLaws} `{JsonCodec AccountExecuteMsg}
    `{!JsonCodecLaws AccountExecuteMsg} `{OsmosisProto} `{NumberText} `{CwOwnable} `{CwOwnableDebug}
    (s : storage OsmosisGammLper.LibraryConfig OsmosisGammLper.Config ()) q env info c price pool :
  let id := OsmosisGammLper.pool_id (OsmosisGammLper.lp_config c) in
  let data := OsmosisGammLper.asset_data (OsmosisGammLper.lp_config c) in
  let input := OsmosisGammLper.input_addr c in
  let run f := lib_execute gamm_lper_lib q env info (ProcessFunction f) s in
  s_config s = Some c → s_processor s = Some (info_sender info) →
  query_spot_price q id (asset1 data) (asset2 data) = Ok price → query_pool_config q id = Ok pool →
  (∀ b1 b2 expected r s',
     q_bank_balance q input (asset1 data) = Ok b1 → q_bank_balance q input (asset2 data) = Ok b2 →
     (b1 ≤ u128_max)%N →
     let p := provision b1 b2 price in
     let coins := [mkCoin (asset1 data) p.1; mkCoin (asset2 data) p.2] in
     fair_provision b1 b2 price p.1 p.2 ∧
     (run (OsmosisGammLper.ProvideDoubleSidedLiquidity expected) = Ok (r, s') ↔
      price_expected expected price ∧ (b1 * price / decimal_one ≤ u128_max)%N ∧ s' = s ∧
      ∃ shares, OsmosisGammLper.calculate_share_out_amt_no_swap q id coins = Ok shares ∧
        joins c (get_provide_liquidity_msg input id coins (pretty shares)) pool shares r)) ∧
  (∀ b expected asset limit r s',
     q_bank_balance q input asset = Ok b →
     let coin := mkCoin asset (N.min b limit) in
     run (OsmosisGammLper.ProvideSingleSidedLiquidity expected asset limit) = Ok (r, s') ↔
     price_expected expected price ∧ s' = s ∧
     ∃ shares join, OsmosisGammLper.calculate_share_out_amt_swap q id [coin] = Ok shares ∧
       get_provide_ss_liquidity_msg input id coin (pretty shares) = Ok join ∧
       joins c join pool shares r) ∧
  (is_Some (gamm_total_shares pool) → ∀ join shares, ∃ r, joins c join pool shares r).
Proof.
  intros id data input run Hc Hp Hprice Hpool.
  assert (∀ f r s', run f = Ok (r, s') ↔ OsmosisGammLper.process_function q env info f c s = Ok (r, s')) as Hrun.
  { intros f r s'. unfold run. rewrite lib_execute_process. naive_solver. }
  split_and!; [| |intros Ht join shares; by apply joins_total].
  - intros b1 b2 expected r s' Hb1 Hb2 Hmax p coins. split; [apply provision_fair|].
    rewrite Hrun. cbn [OsmosisGammLper.process_function]. rewrite of_result_ok.
    unfold OsmosisGammLper.provide_double_sided_liquidity. cbv zeta.
    unfold id, data, input in *. rewrite Hb1, Hb2, Hprice, Hpool. cbn [mbind result_bind try_ map_err_r].
    split.
    + intros [(u & Hu%check_expected_ok & (cs & Hcs%try_ok & Hr)%bind_result_ok)%bind_result_ok ->].
      apply provision_amounts_ok in Hcs as [Hfit ->]; [|done].
      apply bind_result_ok in Hr as (shares & Hs%try_ok & Hj%join_and_transfer_ok). eauto 8.
    + intros (Hu & Hfit & -> & shares & Hs & Hj). split; [|done].
      rewrite bind_result_iff. exists (). split; [by apply check_expected_ok|].
      rewrite bind_result_iff. eexists. split; [by apply try_ok, provision_amounts_ok|].
      rewrite bind_result_iff. exists shares. split; [by apply try_ok|by apply join_and_transfer_ok].
  - intros b expected asset limit r s' Hb coin.
    rewrite Hrun. cbn [OsmosisGammLper.process_function]. rewrite of_result_ok.
    unfold OsmosisGammLper.provide_single_sided_liquidity. cbv zeta.
    unfold id, data, input in *. rewrite Hb, Hprice, Hpool. cbn [mbind result_bind try_ map_err_r].
    replace (if (limit <? b)%N then limit else b) with (N.min b limit)
      by (destruct (N.ltb_spec limit b); lia).
    split.
    + intros [(u & Hu%check_expected_ok & Hr)%bind_result_ok ->].
      apply bind_result_ok in Hr as (shares & Hs%try_ok & (j & Hj%try_ok & Hr%join_and_transfer_ok)%bind_result_ok).
      eauto 8.
    + intros (Hu & -> & shares & j & Hs & Hj & Hr). split; [|done].
      rewrite bind_result_iff. exists (). split; [by apply check_expected_ok|].
      rewrite bind_result_iff. exists shares. split; [by apply try_ok|].
      rewrite bind_result_iff. exists j. split; [by apply try_ok|by apply join_and_transfer_ok].
Qed.

(** ** A pool of spacing 10 whose current tick is -105 *)
#[global] Instance TickRange_eq_dec : EqDecision TickRange. Proof. solve_decision. Defined.
#[global] Instance TickRange_countable : Countable TickRange.
Proof. by_iso (λ '(mkTickRange a b), (a, b)) (λ '(a, b), mkTickRange a b). Defined.
#[global] Instance ClLpConfig_eq_dec : EqDecision OsmosisClLper.LiquidityProviderConfig.
Proof. solve_decision. Defined.
#[global] Instance ClLpConfig_countable : Countable OsmosisClLper.LiquidityProviderConfig.
Proof.
  by_iso (λ '(OsmosisClLper.mkLiquidityProviderConfig a b c d), (a, b, c, d))
    (λ '(a, b, c, d), OsmosisClLper.mkLiquidityProviderConfig a b c d).
Defined.
#[global] Instance ClConfig_eq_dec : EqDecision OsmosisClLper.Config. Proof. solve_decision. Defined.
#[global] Instance ClConfig_countable : Countable OsmosisClLper.Config.
Proof. by_iso (λ '(OsmosisClLper.mkConfig a b c), (a, b, c)) (λ '(a, b, c), OsmosisClLper.mkConfig a b c). Defined.

Definition sample_pools (pool : AnyMsg) : ProtocolQuerier :=
  mkProtocolQuerier (λ _ _, no_answer) (λ _, Ok (Some pool)) (λ _ _ _, Ok "2") (λ _ _, Ok "50")
    (λ _ _, Ok "50") (λ _ _, Ok [mkProtoCoin "uosmo" "7"]) (λ _, Ok (Some (Some "30")))
    no_answer (λ _, no_answer) (λ _, Err "no such query") (λ _ _, no_answer).
Definition sample_cl_pool : ClPool := mkClPool "uosmo" "uatom" (-105) 10.
Definition sample_cl_q : LibQuerier :=
  with_protocols (ref_lib_querier 1000) (sample_pools (mkAnyMsg "pool"
    (bits_of_positive (encode ("uosmo", "uatom", -105, 10%N)%Z)))).
Definition sample_cl_config : OsmosisClLper.Config :=
  OsmosisClLper.mkConfig "input" "output"
    (OsmosisClLper.mkLiquidityProviderConfig 1 "uosmo" "uatom" (mkTickRange (-1000) 1000)).
Definition sample_cl : storage OsmosisClLper.LibraryConfig OsmosisClLper.Config () :=
  mkStorage (Some ("osmosis-cl-lper", "1")) None (Some "processor") None (Some sample_cl_config) ().
Definition sample_cl_coins : list Coin := [mkCoin "uosmo" 1000; mkCoin "uatom" 1000].
Definition sample_cl_env : Env := mkEnv (mkBlock 1 1) "library".

Lemma cl_ranges_exact_witness :
  ∃ r, lib_execute cl_lper_lib sample_cl_q sample_cl_env (mkInfo "processor" [])
         (ProcessFunction (OsmosisClLper.ProvideLiquidityDefault 2)) sample_cl = Ok (r, sample_cl) ∧
       creates sample_cl_config sample_cl_coins (mkTickRange (-130) (-80)) 0 0 r.
Proof.
  destruct (cl_ranges_exact sample_cl sample_cl_q sample_cl_env (mkInfo "processor" [])
    sample_cl_config sample_cl_coins sample_cl_pool) as (Hd & _ & Ht);
    [done|done|by vm_compute|by vm_compute|by split|].
  destruct (Ht (mkTickRange (-130) (-80)) 0%N 0%N) as [r Hr].
  exists r. split; [|exact Hr]. apply (Hd 2%N r sample_cl). split_and!; try done.
Defined.
Definition sample_cl_tx : Exec (storage OsmosisClLper.LibraryConfig OsmosisClLper.Config ()) LibraryError Response :=
  lib_execute cl_lper_lib sample_cl_q sample_cl_env (mkInfo "processor" [])
    (ProcessFunction (OsmosisClLper.ProvideLiquidityDefault 2)).
Definition sample_cl_account : BaseAccount.storage :=
  BaseAccount.mkStorage None (Some (mkOwnership (Some "admin") None None)) {["library" := ()]}.
(** The chain answers that position 7 was created, between other events. *)
Definition sample_transfer_event : Event := mkEvent "transfer" [("amount", "1000uosmo")].
Definition sample_position : SubMsgOutcome :=
  OutcomeOk (mkSubMsgResponse [sample_transfer_event] (Some (bits_of_positive (encode 7%N))) []).
(** The position of the answer goes to the output account, in another state of the library. *)
Lemma cl_position_delivered_witness :
  ∃ r ra rr r2 body2 msg2 ra2, sample_cl_tx sample_cl = Ok (r, sample_cl) ∧
    OsmosisClLper.reply sample_cl_env (mkHostReply OsmosisClLper.REPLY_ID [] 0
      (OutcomeOk (mkSubMsgResponse
        (relay_events "input" [sample_transfer_event] ra [sample_transfer_event] rr [sample_transfer_event]) None [])))
      (empty_storage ()) = Ok (r2, empty_storage ()) ∧
    resp_messages r2 = [SubMsg_new (CosmosWasm (WasmExecute "input" body2 []))] ∧ from_json body2 = Ok msg2 ∧
    BaseAccount.execute sample_cl_env (mkInfo "library" []) msg2 sample_cl_account = Ok (ra2, sample_cl_account) ∧
    resp_messages ra2 = [SubMsg_new (MsgTransferPositions_into (mkMsgTransferPositions [7%N] "input" "output"))].
Proof.
  destruct (after_ok sample_cl_tx sample_cl) as [r He]; [by vm_compute|].
  destruct (cl_position_delivered sample_cl sample_cl_q sample_cl_env (mkInfo "processor" [])
    (OsmosisClLper.ProvideLiquidityDefault 2) r (after sample_cl_tx sample_cl) sample_cl_account
    sample_cl_env) as (c & body & msg & ra & create & Hc & Hs & _ & _ & _ & _ & _ & _ & Hrelay);
    [exact He|by apply (bool_decide_unpack _); vm_compute|by eexists|].
  rewrite Hs in He. injection Hc as <-.
  destruct (Hrelay sample_position 7%N [] 0%N) as (rr & _ & Hreply); [by vm_compute|].
  destruct (Hreply (empty_storage ()) sample_cl_env [sample_transfer_event] [sample_transfer_event]
    [sample_transfer_event] None [] [] 0%N) as (r2 & body2 & msg2 & ra2 & Hr2); [by split; repeat constructor|].
  exists r, ra, rr, r2, body2, msg2, ra2. split; [exact He|exact Hr2].
Defined.

(** 1000 of each asset, at a price of 2: half of the first asset and all of the second. *)
Definition sample_gamm_pool : GammPool :=
  mkGammPool [Some (mkProtoCoin "uosmo" "10"); None; Some (mkProtoCoin "uatom" "20")]
    (Some (mkProtoCoin "gamm/pool/1" "100")).
Definition sample_gamm_q : LibQuerier :=
  with_protocols (ref_lib_querier 1000) (sample_pools (mkAnyMsg "pool"
    (bits_of_positive (encode (gamm_pool_assets sample_gamm_pool, gamm_total_shares sample_gamm_pool))))).
Definition sample_gamm_config : OsmosisGammLper.Config :=
  OsmosisGammLper.mkConfig "input" "output"
    (OsmosisGammLper.mkLiquidityProviderConfig 1 (mkAssetData "uosmo" "uatom")).
Definition sample_gamm : storage OsmosisGammLper.LibraryConfig OsmosisGammLper.Config () :=
  mkStorage (Some ("osmosis-gamm-lper", "1")) None (Some "processor") None (Some sample_gamm_config) ().
Lemma gamm_provision_exact_witness :
  provision 1000 1000 (2 * decimal_one) = (500%N, 1000%N) ∧
  ∃ r join, lib_execute gamm_lper_lib sample_gamm_q sample_cl_env (mkInfo "processor" [])
         (ProcessFunction (OsmosisGammLper.ProvideDoubleSidedLiquidity None)) sample_gamm = Ok (r, sample_gamm) ∧
       joins sample_gamm_config join sample_gamm_pool 50 r.
Proof.
  split; [by vm_compute|].
  destruct (gamm_provision_exact sample_gamm sample_gamm_q sample_cl_env (mkInfo "processor" [])
    sample_gamm_config (2 * decimal_one) sample_gamm_pool) as (Hd & _ & Ht);
    [done|done|by vm_compute|by vm_compute|].
  set (coins := [mkCoin "uosmo" 500; mkCoin "uatom" 1000]).
  destruct (Ht ltac:(by eexists) (get_provide_liquidity_msg "input" 1 coins (pretty 50%N)) 50%N) as [r Hr].
  exists r, (get_provide_liquidity_msg "input" 1 coins (pretty 50%N)). split; [|exact Hr].
  destruct (Hd 1000%N 1000%N None r sample_gamm) as [_ Hiff]; [done|done|by vm_compute|].
  apply Hiff. split_and!; [done|by vm_compute|done|]. exists 50%N. split; [by vm_compute|exact Hr].
Defined.

(** ** The withdrawers *)
Section ClWithdrawer.
Import OsmosisClWithdrawer.
Context `{CPl : Platform} `{CJs : JsonCodec AccountExecuteMsg} `{!JsonCodecLaws AccountExecuteMsg}.
Context `{COs : OsmosisProto} `{CNu : NumberText}.
Context `{CCf : JsonText Config} `{!JsonTextLaws Config} `{CCb : JsonText ValenceCallback} `{!JsonTextLaws ValenceCallback}.
Context `{COw : CwOwnable} `{CDb : CwOwnableDebug}.

Definition cl_withdrawer_lib : LibraryFns LibraryConfig Config () FunctionMsgs LibraryConfigUpdate :=
  mkLibraryFns process_function update_config.
#[global] Instance cl_withdrawer_process_ro q env info f c : ReadOnly (process_function q env info f c).
Proof. unfold process_function. destruct f; apply _. Qed.
#[global] Instance cl_withdrawer_laws : LibraryLaws cl_withdrawer_lib (λ _, True) eq (λ _, True).
Proof. by apply (simple_library_laws _ _ _ update_fields); [|apply _|..]. Qed.

Lemma liquidity_to_withdraw_ok amount total l :
  liquidity_to_withdraw amount total = Ok l ↔
  l = default total amount ∧ (default total amount ≤ total)%N.
Proof.
  unfold liquidity_to_withdraw. destruct amount as [n|]; simpl; [|naive_solver].
  rewrite bind_result_iff. split.
  - intros (u & Hn%ensure_r_ok%N.leb_le & [= <-]). done.
  - intros [-> Hn]. exists (). split; [by apply ensure_r_ok, N.leb_le|done].
Qed.
(** A withdrawal takes the asked part of the position, at most all of it, and the reply
    sends the coins that came out of it, those that are not zero, to the output account of
    the configuration the call was made with. *)
Theorem cl_withdrawal_delivered (s : storage LibraryConfig Config ()) q env info position_id amount r s'
    (a : BaseAccount.storage) env_a :
  lib_execute cl_withdrawer_lib q env info (ProcessFunction (WithdrawLiquidity position_id amount)) s = Ok (r, s') →
  env_contract env ∈ approved a →
  ∃ c text total m,
    s_config s = Some c ∧ s' = s ∧
    pq_position (q_protocols q) position_id = Ok (Some (Some text)) ∧ decimal256_from_str text = Ok total ∧
    let part := default total amount in
    (part ≤ total)%N ∧ resp_messages r = [SubMsg_reply_on_success m REPLY_ID] ∧
    relayed (env_contract env) (input_addr c) env_a a (SubMsg_reply_on_success (MsgWithdrawPosition_into
      (mkMsgWithdrawPosition position_id (input_addr c) (pretty part))) REPLY_ID) c m ∧
    ∀ q2 env2 s2 hr outcome cb t0 t1 a0 a1 pool,
      host_reply_id hr = REPLY_ID → host_reply_result hr = outcome →
      parse_valence_payload outcome = Ok c → ValenceCallback_try_from outcome = Ok cb →
      MsgWithdrawPositionResponse_try_from (cb_result cb) = Ok (t0, t1) →
      uint128_from_str t0 = Ok a0 → uint128_from_str t1 = Ok a1 → query_cl_pool q2 (pool_id c) = Ok pool →
      ∃ r2 m2, reply q2 env2 hr s2 = Ok (r2, s2) ∧ resp_messages r2 = [SubMsg_new m2] ∧
        execute_on_behalf_of [CosmosBankSend (output_addr c) (withdrawn_coins pool a0 a1)] (input_addr c) = Ok m2.
Proof.
  intros (c & _ & Hc & Hf)%lib_execute_process Ha. apply of_result_ok in Hf as [Hf ->].
  unfold try_liquidate_cl_position in Hf. apply bind_result_ok in Hf as (o & Ho%try_ok & Hf).
  apply bind_result_ok in Hf as (text & Ht%try_ok%ok_or_r_ok & (total & Htot%try_ok & Hf)%bind_result_ok).
  destruct o as [[t|]|]; simplify_eq/=.
  apply bind_result_ok in Hf as (l & Hl & Hf). apply liquidity_to_withdraw_ok in Hl as [-> Hle].
  apply bind_result_ok in Hf as (payload & Hp%try_ok & (m & Hm%try_ok & [= <-])%bind_result_ok).
  exists c, text, total, m. do 4 (split; [done|]). cbv zeta. do 2 (split; [done|]).
  split; [by eapply delegate_relayed|].
  intros q2 env2 s2 hr outcome cb t0 t1 a0 a1 pool Hid Hres Hpay Hcb Hresp H0 H1 Hpool.
  unfold reply. rewrite Hid, N.eqb_refl, Hres. unfold handle_liquidity_withdrawal_reply.
  rewrite Hpay, Hcb. simpl. rewrite Hresp. simpl. rewrite Hpool. simpl. rewrite H0. simpl. rewrite H1. simpl.
  unfold execute_on_behalf_of.
  match goal with |- context [AccExecuteMsg ?l] => destruct (to_json_total (AccExecuteMsg l)) as [b Hb] end.
  rewrite Hb. simpl. by do 2 eexists.
Qed.
Lemma withdrawn_coins_ok pool a0 a1 coin :
  coin ∈ withdrawn_coins pool a0 a1 ↔
  coin_amount coin ≠ 0%N ∧ (coin = mkCoin (cl_token0 pool) a0 ∨ coin = mkCoin (cl_token1 pool) a1).
Proof.
  unfold withdrawn_coins. rewrite elem_of_app.
  destruct (N.eqb_spec a0 0), (N.eqb_spec a1 0); rewrite ?list_elem_of_singleton, ?elem_of_nil; naive_solver.
Qed.
End ClWithdrawer.

Section GammWithdrawer.
Import OsmosisGammWithdrawer.
Context `{CPl : Platform} `{CJs : JsonCodec AccountExecuteMsg} `{COs : OsmosisProto} `{CNu : NumberText}.
Context `{COw : CwOwnable} `{CDb : CwOwnableDebug}.
Definition gamm_withdrawer_lib : LibraryFns LibraryConfig Config () FunctionMsgs LibraryConfigUpdate :=
  mkLibraryFns process_function update_config.
#[global] Instance gamm_withdrawer_process_ro q env info f c : ReadOnly (process_function q env info f c).
Proof. unfold process_function. destruct f; apply _. Qed.
#[global] Instance gamm_withdrawer_laws : LibraryLaws gamm_withdrawer_lib (λ _, True) eq (λ _, True).
Proof. by apply (simple_library_laws _ _ _ update_fields); [|apply _|..]. Qed.

(** A withdrawal gives back all shares of the input account, which has some, and passes on
    the coins the pool promised for them. *)
Theorem gamm_withdraws_everything (s : storage LibraryConfig Config ()) q env info expected r s' :
  lib_execute gamm_withdrawer_lib q env info (ProcessFunction (WithdrawLiquidity expected)) s = Ok (r, s') →
  ∃ c token balance out coins m,
    s_config s = Some c ∧ s' = s ∧
    let id := pool_id (lw_config c) in
    let data := asset_data (lw_config c) in
    (∀ e, expected = Some e → ∃ price, query_spot_price q id (asset1 data) (asset2 data) = Ok price ∧
       (range_min e ≤ price ≤ range_max e)%N) ∧
    query_pool_liquidity_token q id = Ok token ∧ q_bank_balance q (input_addr c) token = Ok balance ∧
    (0 < balance)%N ∧ pq_exit_coins (q_protocols q) id (pretty balance) = Ok out ∧
    try_proto_to_cosmwasm_coins out = Ok coins ∧
    execute_on_behalf_of [get_withdraw_liquidity_msg (input_addr c) id balance out;
      CosmosBankSend (output_addr c) coins] (input_addr c) = Ok m ∧ resp_messages r = [SubMsg_new m].
Proof.
  intros (c & _ & Hc & Hf)%lib_execute_process. cbn [lib_process gamm_withdrawer_lib process_function] in Hf.
  apply of_result_ok in Hf as [Hf ->]. unfold try_withdraw_liquidity in Hf. cbv zeta in Hf.
  apply bind_result_ok in Hf as (u & He & (token & Ht%try_ok & Hf)%bind_result_ok).
  apply bind_result_ok in Hf as (balance & Hb%try_ok & (u2 & Hpos%ensure_r_ok%N.ltb_lt & Hf)%bind_result_ok).
  apply bind_result_ok in Hf as (out & Hout%try_ok & (coins & Hcoins%try_ok & Hf)%bind_result_ok).
  apply bind_result_ok in Hf as (m & Hm%try_ok & [= <-]).
  exists c, token, balance, out, coins, m. do 2 (split; [done|]). cbv zeta. split; [|done].
  intros e ->. apply bind_result_ok in He as (price & Hp%try_ok & Hr).
  unfold range_contains in Hr. rewrite ensure_r_ok, andb_true_iff, !N.leb_le in Hr. eauto.
Qed.
End GammWithdrawer.

(** ** Updates are not validated

    The owner can set any pool and any range, also those that the validation of a new
    library refuses: an empty range is stored, although [validate] rejects it. *)
Theorem cl_lp_update_unchecked
    `{Platform} `{JsonCodec AccountExecuteMsg} `{OsmosisProto} `{Int64Math} `{JsonText OsmosisClLper.Config}
    `{JsonText ValenceCallback} q env info (s : storage OsmosisClLper.LibraryConfig OsmosisClLper.Config ()) c lp raw :
  s_config s = Some c →
  (upper_tick (OsmosisClLper.global_tick_range lp) ≤ lower_tick (OsmosisClLper.global_tick_range lp))%Z →
  OsmosisClLper.raw_lp_config raw = lp →
  OsmosisClLper.update_config q env info (OsmosisClLper.mkLibraryConfigUpdate None None (Some lp)) s =
    Ok ((), lset CONFIG_KEY (Some (OsmosisClLper.mkConfig (OsmosisClLper.input_addr c)
                                     (OsmosisClLper.output_addr c) lp)) s) ∧
  ∀ c', validate q raw ≠ Ok c'.
Proof.
  intros Hc Hlp Hraw. split.
  - unfold OsmosisClLper.update_config, load_config, save_config, mbind, Exec_bind, item_load.
    simpl. by rewrite Hc.
  - intros c' (x & Hv & _)%bind_result_ok. unfold OsmosisClLper.do_validate in Hv.
    apply bind_result_ok in Hv as (i & _ & (o & _ & (u & Hu%TickRange_validate_ok & _)%bind_result_ok)%bind_result_ok).
    rewrite Hraw in Hu. lia.
Qed.
