(* ===== verification/MarsTheorems.v ===== *)
(** * The Mars lending library: what is lent, and who receives what is withdrawn *)
From Stdlib Require Import Strings.Byte.
From S2P Require Import Prelude Platform Types Format Accounts InterchainAccount Protocols LibraryBase.
From S2P Require Import LibraryProofs MarsLending AccountsTheorems Codec LibraryCodec.
Import Library.

Section Mars.
Import MarsLending.
Context `{CPl : Platform} `{CJs : JsonCodec AccountExecuteMsg} `{!JsonCodecLaws AccountExecuteMsg}.
Context `{CMa : JsonCodec MarsExecuteMsg} `{!JsonCodecLaws MarsExecuteMsg} `{CCf : JsonText Config}.

Definition mars_lib : LibraryFns LibraryConfig Config () FunctionMsgs LibraryConfigUpdate :=
  mkLibraryFns process_function update_config.
#[global] Instance mars_process_ro q env info f c : ReadOnly (process_function q env info f c).
Proof. unfold process_function. apply _. Qed.
#[global] Instance mars_laws : LibraryLaws mars_lib (λ _, True) eq (λ _, True).
Proof. by apply (simple_library_laws _ _ _ update_fields); [|apply _|..]. Qed.

(** The response has the input account of [c] send one message, with [funds], to the credit
    manager. *)
Definition calls_manager (c : Config) (msg : MarsExecuteMsg) (funds : list Coin) (r : Response) : Prop :=
  ∃ body m, from_json body = Ok msg ∧
    execute_on_behalf_of [CosmosWasm (WasmExecute (credit_manager_addr c) body funds)] (input_addr c) = Ok m ∧
    resp_messages r = [SubMsg_new m].
(** The whole balance [b] is deposited in the credit account [x], and lent. *)
Definition lends (c : Config) (x : MarsAccount) (b : N) (r : Response) : Prop :=
  let coin := mkCoin (denom c) b in
  calls_manager c (UpdateCreditAccount (Some (mars_account_id x)) (Some KindDefault)
    [MarsDeposit coin; MarsLend (mkActionCoin (denom c) AccountBalance)]) [coin] r.

Lemma credit_manager_msg_ok c msg funds m :
  credit_manager_msg c msg funds = Ok m →
  ∃ body, from_json body = Ok msg ∧ m = CosmosWasm (WasmExecute (credit_manager_addr c) body funds).
Proof.
  unfold credit_manager_msg. intros (b & Hb%from_to_json & [= <-])%bind_result_ok. by exists b.
Qed.
(** The three calls that end in one message have the same shape. *)
Lemma calls_manager_ok c msg funds (k : CosmosMsg → Response) r :
  (∀ m, resp_messages (k m) = [SubMsg_new m]) →
  (m ← try_ (credit_manager_msg c msg funds); m ← try_ (execute_on_behalf_of [m] (input_addr c));
   Ok (k m) : result LibraryError Response) = Ok r →
  calls_manager c msg funds r.
Proof.
  intros Hk (m & Hm%try_ok%credit_manager_msg_ok & (m2 & Hm2%try_ok & [= <-])%bind_result_ok)%bind_result_ok.
  destruct Hm as (body & Hb & ->). by exists body, m2.
Qed.
Lemma lend_lends c x b r : lend c x (mkCoin (denom c) b) = Ok r → lends c x b r.
Proof. apply (calls_manager_ok c _ _ (λ m, _)). done. Qed.
Lemma lend_total c x coin : ∃ r, lend c x coin = Ok r.
Proof.
  unfold lend, credit_manager_msg.
  match goal with |- context [to_json_binary (update_account ?a ?l)] =>
    destruct (to_json_total (update_account a l)) as [b Hb] end.
  rewrite Hb. simpl. unfold execute_on_behalf_of.
  match goal with |- context [AccExecuteMsg ?l] => destruct (to_json_total (AccExecuteMsg l)) as [b2 Hb2] end.
  rewrite Hb2. by eexists.
Qed.
Lemma funds_to_lend_ok q c coin :
  funds_to_lend q c = Ok coin ↔
  ∃ b, q_bank_balance q (input_addr c) (denom c) = Ok b ∧ b ≠ 0%N ∧ coin = mkCoin (denom c) b.
Proof.
  unfold funds_to_lend. split.
  - intros (b & Hb%try_ok & (u & Hn%ensure_r_ok & [= <-])%bind_result_ok)%bind_result_ok.
    apply negb_true_iff, N.eqb_neq in Hn. by exists b.
  - intros (b & Hb & Hn & ->). rewrite Hb. simpl. apply N.eqb_neq in Hn. by rewrite Hn.
Qed.
Lemma get_credit_account_ok q manager owner x :
  get_credit_account q manager owner = Ok x ↔
  ∃ rest, pq_mars_accounts (q_protocols q) manager owner = Ok (x :: rest).
Proof.
  unfold get_credit_account. rewrite bind_result_iff. split.
  - intros (xs & Hxs%try_ok & Hh%ok_or_r_ok). destruct xs as [|y ys]; [done|]. simpl in Hh. simplify_eq. eauto.
  - intros [rest Hr]. eexists. split; [by apply try_ok|done].
Qed.

(** The reply lends what the account then holds. *)
Lemma reply_lends q env hr outcome c b x rest s :
  host_reply_id hr = CREATE_CREDIT_ACC_REPLY_ID → host_reply_result hr = outcome →
  parse_valence_payload outcome = Ok c →
  q_bank_balance q (input_addr c) (denom c) = Ok b → b ≠ 0%N →
  pq_mars_accounts (q_protocols q) (credit_manager_addr c) (input_addr c) = Ok (x :: rest) →
  ∃ r, reply q env hr s = Ok (r, s) ∧ lends c x b r.
Proof.
  intros Hid Hres Hc Hb Hn Hx. unfold reply. rewrite Hid, N.eqb_refl, Hres. unfold lend_after_creation.
  assert (funds_to_lend q c = Ok (mkCoin (denom c) b)) as Hf by (apply funds_to_lend_ok; eauto).
  assert (get_credit_account q (credit_manager_addr c) (input_addr c) = Ok x) as Ha
    by (apply get_credit_account_ok; eauto).
  destruct (lend_total c x (mkCoin (denom c) b)) as [r Hr]. exists r. split; [|by apply lend_lends].
  rewrite Hc. simpl. rewrite Hf. simpl. rewrite Ha. simpl. by rewrite Hr.
Qed.
(** Creating the account is a delegated sub-message. *)
Lemma create_credit_account_ok c r :
  create_credit_account c = Ok r →
  ∃ body payload m, from_json body = Ok (CreateCreditAccount KindDefault) ∧ to_json_string c = Ok payload ∧
    execute_submsgs_on_behalf_of [SubMsg_reply_on_success
      (CosmosWasm (WasmExecute (credit_manager_addr c) body [])) CREATE_CREDIT_ACC_REPLY_ID]
      (Some payload) (input_addr c) = Ok m ∧
    resp_messages r = [SubMsg_reply_on_success m CREATE_CREDIT_ACC_REPLY_ID].
Proof.
  unfold create_credit_account.
  intros (m & Hm%try_ok%credit_manager_msg_ok & (p & Hp%try_ok & Hr)%bind_result_ok)%bind_result_ok.
  destruct Hm as (body & Hb & ->).
  apply bind_result_ok in Hr as (m2 & Hm2%try_ok & [= <-]). by exists body, p, m2.
Qed.
End Mars.

(** Everything the input account holds is lent.  An accepted [Lend] finds a balance that
    is not zero.  If the input account has a credit account, its first one gets the whole
    balance, deposited and lent in one message with exactly these funds.  Otherwise the
    input account, if it approved the library, runs the message that creates a credit
    account; in the reply, whatever the library's state has become meanwhile and whatever
    other events surround it, the balance and the credit account of that moment are used,
    with the configuration the call was made with. *)
Theorem mars_lends_everything
    `{Platform} `{JsonCodec AccountExecuteMsg} `{!JsonCodecLaws AccountExecuteMsg}
    `{JsonCodec MarsExecuteMsg} `{!JsonCodecLaws MarsExecuteMsg}
    `{JsonText MarsLending.Config} `{!JsonTextLaws MarsLending.Config}
    `{JsonText ValenceCallback} `{!JsonTextLaws ValenceCallback} `{CwOwnable} `{CwOwnableDebug}
    (s : storage MarsLending.LibraryConfig MarsLending.Config ()) q env info r s'
    (a : BaseAccount.storage) env_a :
  lib_execute mars_lib q env info (ProcessFunction MarsLending.Lend) s = Ok (r, s') →
  env_contract env ∈ approved a →
  ∃ c b, s_config s = Some c ∧ s' = s ∧
    let input := MarsLending.input_addr c in
    let manager := MarsLending.credit_manager_addr c in
    let id := MarsLending.CREATE_CREDIT_ACC_REPLY_ID in
    q_bank_balance q input (MarsLending.denom c) = Ok b ∧ b ≠ 0%N ∧
    ((∃ x rest, pq_mars_accounts (q_protocols q) manager input = Ok (x :: rest) ∧ lends c x b r) ∨
     (∀ x rest, pq_mars_accounts (q_protocols q) manager input ≠ Ok (x :: rest)) ∧
     ∃ body msg ra create,
       resp_messages r = [SubMsg_reply_on_success (CosmosWasm (WasmExecute input body [])) id] ∧
       from_json body = Ok msg ∧
       BaseAccount.execute env_a (mkInfo (env_contract env) []) msg a = Ok (ra, a) ∧
       resp_messages ra = [SubMsg_reply_on_success (CosmosWasm (WasmExecute manager create [])) id] ∧
       from_json create = Ok (CreateCreditAccount KindDefault) ∧
       ∀ outcome bytes gas,
         ∃ rr, BaseAccount.reply env_a (mkHostReply id bytes gas outcome) a = Ok (rr, a) ∧
         ∀ s2 q2 env2 pre mid post data rs bytes2 gas2 b2 x rest, quiet pre mid →
           q_bank_balance q2 input (MarsLending.denom c) = Ok b2 → b2 ≠ 0%N →
           pq_mars_accounts (q_protocols q2) manager input = Ok (x :: rest) →
           ∃ r2, MarsLending.reply q2 env2 (mkHostReply id bytes2 gas2
               (OutcomeOk (mkSubMsgResponse (relay_events input pre ra mid rr post) data rs))) s2 = Ok (r2, s2) ∧
             lends c x b2 r2).
Proof.
  intros (c & _ & Hc & Hf)%lib_execute_process Ha. apply of_result_ok in Hf as [Hf ->].
  unfold MarsLending.try_lend in Hf. apply bind_result_ok in Hf as (coin & Hcoin & Hf).
  apply funds_to_lend_ok in Hcoin as (b & Hb & Hn & ->). exists c, b. do 2 (split; [done|]). cbv zeta.
  do 2 (split; [done|]).
  destruct (MarsLending.get_credit_account q _ _) as [x|e|] eqn:Hx; [left|right|done].
  { apply get_credit_account_ok in Hx as [rest Hx]. exists x, rest. split; [done|by apply lend_lends]. }
  split. { intros x rest Hr. assert (MarsLending.get_credit_account q _ _ = Ok x) as Hx2
    by (apply get_credit_account_ok; eauto). by rewrite Hx2 in Hx. }
  apply create_credit_account_ok in Hf as (create & payload & m & Hcr & Hp & Hm & Hr).
  destruct (delegate_relayed _ _ env_a a _ c _ _ Hp Hm Ha) as (body & msg & ra & -> & Hbody & He & Hra & Hrelay).
  exists body, msg, ra, create. do 5 (split; [done|]). intros outcome bytes gas.
  destruct (Hrelay (mkHostReply MarsLending.CREATE_CREDIT_ACC_REPLY_ID bytes gas outcome)) as (rr & Hrr & _ & Hev).
  exists rr. split; [done|]. intros s2 q2 env2 pre mid post data rs bytes2 gas2 b2 x rest Hq Hb2 Hn2 Hx2.
  destruct (Hev pre mid post data rs Hq) as [Hpay _]. by eapply reply_lends.
Qed.

(** The other functions act on the first credit account of the input account, and what
    leaves it goes to the output account. *)
Theorem mars_pays_output
    `{Platform} `{JsonCodec AccountExecuteMsg} `{!JsonCodecLaws AccountExecuteMsg}
    `{JsonCodec MarsExecuteMsg} `{!JsonCodecLaws MarsExecuteMsg} `{JsonText MarsLending.Config}
    `{CwOwnable} `{CwOwnableDebug}
    (s : storage MarsLending.LibraryConfig MarsLending.Config ()) q env info f r s' :
  f ≠ MarsLending.Lend →
  lib_execute mars_lib q env info (ProcessFunction f) s = Ok (r, s') →
  ∃ c x rest, s_config s = Some c ∧ s' = s ∧
    pq_mars_accounts (q_protocols q) (MarsLending.credit_manager_addr c) (MarsLending.input_addr c) =
      Ok (x :: rest) ∧
    let update actions := UpdateCreditAccount (Some (mars_account_id x)) (Some KindDefault) actions in
    let pay coin := MarsWithdrawToWallet coin (MarsLending.output_addr c) in
    match f with
    | MarsLending.Lend => False
    | MarsLending.Withdraw amount =>
        let coin := mkActionCoin (MarsLending.denom c)
          match amount with Some n => ExactAmount n | None => AccountBalance end in
        calls_manager c (update [MarsReclaim coin; pay coin]) [] r
    | MarsLending.Borrow coin =>
        calls_manager c (update [MarsBorrow coin;
          pay (mkActionCoin (coin_denom coin) (ExactAmount (coin_amount coin)))]) [] r
    | MarsLending.Repay coin => calls_manager c (RepayFromWallet (mars_account_id x)) [coin] r
    end.
Proof.
  intros Hne (c & _ & Hc & Hf)%lib_execute_process. apply of_result_ok in Hf as [Hf ->]. exists c.
  destruct f; [done|..];
    apply bind_result_ok in Hf as (x & Hx & Hf); apply get_credit_account_ok in Hx as [rest Hx];
    exists x, rest; (do 3 (split; [done|])); by eapply calls_manager_ok in Hf.
Qed.

(** ** An input account without a credit account *)
#[global] Instance AccountKind_eq_dec : EqDecision AccountKind. Proof. solve_decision. Defined.
#[global] Instance AccountKind_countable : Countable AccountKind.
Proof.
  by_iso (λ x, match x with KindDefault => None | HighLeveredStrategy => Some None | FundManager a => Some (Some a) end)
    (λ y, match y with None => KindDefault | Some None => HighLeveredStrategy | Some (Some a) => FundManager a end).
Defined.
#[global] Instance ActionAmount_eq_dec : EqDecision ActionAmount. Proof. solve_decision. Defined.
#[global] Instance ActionAmount_countable : Countable ActionAmount.
Proof.
  by_iso (λ x, match x with ExactAmount a => Some a | AccountBalance => None end)
    (λ y, match y with Some a => ExactAmount a | None => AccountBalance end).
Defined.
#[global] Instance ActionCoin_eq_dec : EqDecision ActionCoin. Proof. solve_decision. Defined.
#[global] Instance ActionCoin_countable : Countable ActionCoin.
Proof. by_iso (λ '(mkActionCoin a b), (a, b)) (λ '(a, b), mkActionCoin a b). Defined.
#[global] Instance MarsAction_eq_dec : EqDecision MarsAction. Proof. solve_decision. Defined.
#[global] Instance MarsAction_countable : Countable MarsAction.
Proof.
  by_iso (λ x, match x with
    | MarsDeposit a => inl (inl a)
    | MarsWithdrawToWallet a b => inl (inr (a, b))
    | MarsBorrow a => inr (inl (inl a))
    | MarsRepay a b => inr (inl (inr (a, b)))
    | MarsLend a => inr (inr (inl a))
    | MarsReclaim a => inr (inr (inr a)) end)
    (λ y, match y with
    | inl (inl a) => MarsDeposit a
    | inl (inr (a, b)) => MarsWithdrawToWallet a b
    | inr (inl (inl a)) => MarsBorrow a
    | inr (inl (inr (a, b))) => MarsRepay a b
    | inr (inr (inl a)) => MarsLend a
    | inr (inr (inr a)) => MarsReclaim a end).
Defined.
#[global] Instance MarsExecuteMsg_eq_dec : EqDecision MarsExecuteMsg. Proof. solve_decision. Defined.
#[global] Instance MarsExecuteMsg_countable : Countable MarsExecuteMsg.
Proof.
  by_iso (λ x, match x with
    | CreateCreditAccount a => inl a
    | UpdateCreditAccount a b c => inr (inl (a, b, c))
    | RepayFromWallet a => inr (inr a) end)
    (λ y, match y with
    | inl a => CreateCreditAccount a
    | inr (inl (a, b, c)) => UpdateCreditAccount a b c
    | inr (inr a) => RepayFromWallet a end).
Defined.
#[global] Instance MarsConfig_eq_dec : EqDecision MarsLending.Config. Proof. solve_decision. Defined.
#[global] Instance MarsConfig_countable : Countable MarsLending.Config.
Proof. by_iso (λ '(MarsLending.mkConfig a b c d), (a, b, c, d)) (λ '(a, b, c, d), MarsLending.mkConfig a b c d). Defined.

Definition sample_mars_config : MarsLending.Config :=
  MarsLending.mkConfig "input" "output" "credit-manager" "uosmo".
Definition sample_mars : storage MarsLending.LibraryConfig MarsLending.Config () :=
  mkStorage (Some ("mars-lending", "1")) None (Some "processor") None (Some sample_mars_config) ().
Definition sample_mars_env : Env := mkEnv (mkBlock 1 1) "library".
Definition sample_mars_tx : Exec (storage MarsLending.LibraryConfig MarsLending.Config ()) LibraryError Response :=
  lib_execute mars_lib (ref_lib_querier 70) sample_mars_env (mkInfo "processor" [])
    (ProcessFunction MarsLending.Lend).
Definition sample_mars_account : BaseAccount.storage :=
  BaseAccount.mkStorage None (Some (mkOwnership (Some "admin") None None)) {["library" := ()]}.
(** No credit account yet: one is created. *)
Lemma mars_lends_everything_witness :
  ∃ r m, sample_mars_tx sample_mars = Ok (r, sample_mars) ∧
    resp_messages r = [SubMsg_reply_on_success m MarsLending.CREATE_CREDIT_ACC_REPLY_ID].
Proof.
  destruct (after_ok sample_mars_tx sample_mars) as [r He]; [by vm_compute|].
  destruct (mars_lends_everything sample_mars (ref_lib_querier 70) sample_mars_env (mkInfo "processor" [])
    r (after sample_mars_tx sample_mars) sample_mars_account sample_mars_env)
    as (c & b & Hc & Hs & _ & _ & [(x & rest & Hx & _)|(_ & body & msg & ra & create & Hr & _)]);
    [exact He|by apply (bool_decide_unpack _); vm_compute|discriminate Hx|].
  rewrite Hs in He. exists r, (CosmosWasm (WasmExecute (MarsLending.input_addr c) body [])).
  split; [exact He|exact Hr].
Defined.
