(* ===== verification/AstroportTheorems.v ===== *)
(** * The Astroport libraries: what is provided, and to whom *)
From Stdlib Require Import Strings.Byte.
From S2P Require Import Prelude Platform Types Format Accounts InterchainAccount Protocols LibraryBase.
From S2P Require Import LibraryProofs Astroport Codec LibraryCodec.
Import Library.

(** ** Amounts *)
Section Amounts.
Context `{CRa : CheckedRatio} `{!CheckedRatioLaws}.
Open Scope N_scope.

Lemma checked_mul_ok a b r :
  checked_mul_uint128 a b = Ok r ↔ r = b * a / decimal_one ∧ r ≤ u128_max.
Proof.
  unfold checked_mul_uint128. destruct (N.eqb_spec a 0) as [->|Ha], (N.eqb_spec b 0) as [->|Hb];
    cbn [orb]; try (rewrite ?N.mul_0_r, ?N.mul_0_l; split; [intros [= <-]|intros [-> _]]; done).
  destruct (N.ltb_spec u128_max (b * a / decimal_one)); [naive_solver lia|].
  split; [intros [= <-]; split; [done|lia]|by intros [-> _]].
Qed.
Lemma pool_ratio_ok a b r :
  pool_ratio a b = Ok r ↔ b ≠ 0 ∧ r = a * decimal_one / b ∧ r ≤ u128_max.
Proof. unfold pool_ratio. rewrite map_err_r_ok. apply checked_from_ratio_spec. Qed.

(** Two roundings down: converting back never exceeds what one started from. *)
Lemma round_trip_le b1 b2 rho sigma p1 p2 u :
  u ≠ 0 → p1 ≠ 0 → p2 ≠ 0 → rho = p1 * u / p2 → sigma = p2 * u / p1 →
  b1 < b2 * rho / u → b1 * sigma / u ≤ b2.
Proof.
  intros Hu Hp1 Hp2 Hr Hs Hb.
  assert (rho * p2 ≤ p1 * u) as H1 by (rewrite Hr, N.mul_comm; by apply N.Div0.mul_div_le).
  assert (sigma * p1 ≤ p2 * u) as H2 by (rewrite Hs, N.mul_comm; by apply N.Div0.mul_div_le).
  assert (b1 * u ≤ b2 * rho) as H3.
  { pose proof (N.Div0.mul_div_le (b2 * rho) u). nia. }
  assert (rho * sigma ≤ u * u) as H4.
  { apply (N.mul_le_mono_pos_r _ _ (p1 * p2)); [nia|].
    replace (rho * sigma * (p1 * p2)) with (rho * p2 * (sigma * p1)) by ring.
    replace (u * u * (p1 * p2)) with (p1 * u * (p2 * u)) by ring. by apply N.mul_le_mono. }
  apply (N.mul_le_mono_pos_r _ _ (u * u)); [nia|].
  pose proof (N.Div0.mul_div_le (b1 * sigma) u) as H5.
  transitivity (b1 * u * sigma); [nia|]. transitivity (b2 * rho * sigma); [by apply N.mul_le_mono_r|].
  rewrite <-N.mul_assoc. by apply N.mul_le_mono_l.
Qed.
(** The value of [b] at the ratio [p : q], rounded down twice. *)
Lemma round_down_bounds b p q rho a u :
  u ≠ 0 → q ≠ 0 → rho = p * u / q → a = b * rho / u →
  a * q ≤ b * p ∧ b * p * u ≤ ((a + 1) * u + b) * q.
Proof.
  intros Hu Hq Hr Ha.
  pose proof (N.Div0.mul_div_le (p * u) q) as H1. pose proof (N.mul_succ_div_gt (p * u) q Hq) as H2.
  pose proof (N.Div0.mul_div_le (b * rho) u) as H3. pose proof (N.mul_succ_div_gt (b * rho) u Hu) as H4.
  rewrite <-Hr in H1, H2. rewrite <-Ha in H3, H4. split.
  - apply (N.mul_le_mono_pos_r _ _ u); [nia|]. transitivity (b * rho * q); [nia|].
    transitivity (b * (q * rho)); [lia|]. rewrite <-N.mul_assoc. by apply N.mul_le_mono_l.
  - transitivity (b * (q * N.succ rho)); [rewrite <-N.mul_assoc; apply N.mul_le_mono_l; lia|].
    transitivity ((b * rho + b) * q); [lia|]. apply N.mul_le_mono_r. lia.
Qed.

(** What double-sided liquidity provides of two balances [b1] and [b2]. *)
Record proportional (b1 b2 p1 p2 a1 a2 : N) : Prop := {
  pv_within : a1 ≤ b1 ∧ a2 ≤ b2;
  pv_all : a1 = b1 ∨ a2 = b2;
  (** In the proportion of the pool, rounded down. *)
  pv_first : a2 = b2 → a1 ≠ b1 → a1 * p2 ≤ b2 * p1 ∧ b2 * p1 * decimal_one ≤ ((a1 + 1) * decimal_one + b2) * p2;
  pv_second : a2 ≠ b2 → a2 * p1 ≤ b1 * p2 ∧ b1 * p2 * decimal_one ≤ ((a2 + 1) * decimal_one + b1) * p1;
}.
Lemma calculate_provision b1 b2 p1 p2 ratio a1 a2 :
  p1 ≠ 0 → p2 ≠ 0 → pool_ratio p1 p2 = Ok ratio →
  AstroportLper.calculate_provide_amounts b1 b2 p1 p2 ratio = Ok (a1, a2) → proportional b1 b2 p1 p2 a1 a2.
Proof.
  intros Hp1 Hp2 (_ & Hr & _)%pool_ratio_ok.
  intros (req & (Hreq & _)%map_err_r_ok%checked_mul_ok & Hc)%bind_result_ok.
  destruct (N.leb_spec req b1) as [Hle|Hlt].
  - injection Hc as <- <-. split; [lia|by right| |done]. intros _ _. by eapply round_down_bounds.
  - apply bind_result_ok in Hc as (sigma & (_ & Hs & _)%pool_ratio_ok & Hc).
    apply bind_result_ok in Hc as (amt & (Hamt & _)%map_err_r_ok%checked_mul_ok & [= <- <-]).
    split; [|by left|done|].
    + split; [lia|]. rewrite Hamt. eapply (round_trip_le b1 b2 ratio sigma p1 p2); [done|done|done|done|done|by rewrite <-Hreq].
    + intros _. by eapply round_down_bounds.
Qed.
(** It succeeds whenever the values fit 128 bits. *)
Lemma calculate_total b1 b2 p1 p2 ratio :
  p1 ≠ 0 → p2 ≠ 0 → pool_ratio p1 p2 = Ok ratio → b2 ≤ u128_max →
  b2 * ratio / decimal_one ≤ u128_max → p2 * decimal_one / p1 ≤ u128_max →
  ∃ a1 a2, AstroportLper.calculate_provide_amounts b1 b2 p1 p2 ratio = Ok (a1, a2).
Proof.
  intros Hp1 Hp2 Hr Hb2 Hv Hs. unfold AstroportLper.calculate_provide_amounts.
  set (req := b2 * ratio / decimal_one).
  assert (checked_mul_uint128 ratio b2 = Ok req) as -> by (by apply checked_mul_ok). cbn [map_err_r mbind result_bind].
  destruct (N.leb_spec req b1) as [Hle|Hlt]; [by eexists _, _|].
  set (sigma := p2 * decimal_one / p1).
  assert (pool_ratio p2 p1 = Ok sigma) as -> by (by apply pool_ratio_ok). cbn [mbind result_bind].
  assert (b1 * sigma / decimal_one ≤ b2) as Hle.
  { apply pool_ratio_ok in Hr as (_ & Hr & _). by eapply (round_trip_le b1 b2 ratio sigma p1 p2). }
  assert (checked_mul_uint128 sigma b1 = Ok (b1 * sigma / decimal_one)) as ->
    by (apply checked_mul_ok; split; [done|lia]).
  by eexists _, _.
Qed.
End Amounts.

(** ** The liquidity provider *)
Section Lper.
Import AstroportLper.
Context `{CPl : Platform} `{CDe : CwDenom} `{CMa : CosmMath} `{!CosmMathLaws} `{CRa : CheckedRatio} `{!CheckedRatioLaws}.
Context `{CJs : JsonCodec AccountExecuteMsg} `{!JsonCodecLaws AccountExecuteMsg}.
Context `{CNq : JsonCodec NativePoolQueryMsg} `{CCq : JsonCodec Cw20PoolQueryMsg} `{CPr : JsonCodec PoolResponse}.
Context `{CPi : JsonCodec PairInfo} `{CSi : JsonCodec SimulationResponse}.
Context `{CNe : JsonCodec NativePoolExecuteMsg} `{!JsonCodecLaws NativePoolExecuteMsg}.
Context `{CCe : JsonCodec Cw20PoolExecuteMsg} `{!JsonCodecLaws Cw20PoolExecuteMsg}.

Definition astro_lper_lib : LibraryFns LibraryConfig Config () FunctionMsgs LibraryConfigUpdate :=
  mkLibraryFns process_function update_config.
#[global] Instance astro_lper_process_ro q env info f c : ReadOnly (process_function q env info f c).
Proof. unfold process_function. apply _. Qed.
#[global] Instance astro_lper_laws : LibraryLaws astro_lper_lib (λ _, True) eq (λ _, True).
Proof. by apply (simple_library_laws _ _ _ update_fields); [|apply _|..]. Qed.

(** The pool of [c] is asked to take [assets], with [funds], for the output account; to
    swap the coin, with no receiver of its own. *)
Definition provides (c : Config) (assets funds : list Coin) (m : CosmosMsg) : Prop :=
  match pool_type (lp_config c) with
  | NativeLpToken _ => calls (pool_addr c)
      (NativeProvideLiquidity (native_asset <$> assets) None (Some false) (Some (output_addr c)) None) funds m
  | Cw20LpToken _ => calls (pool_addr c)
      (Cw20ProvideLiquidity (native_asset <$> assets) None (Some false) (Some (output_addr c))) funds m
  end.
Definition swaps (c : Config) (offer : Coin) (m : CosmosMsg) : Prop :=
  match pool_type (lp_config c) with
  | NativeLpToken _ => calls (pool_addr c)
      (NativeSwap (native_asset offer) None None (max_spread (lp_config c)) None) [offer] m
  | Cw20LpToken _ => calls (pool_addr c)
      (Cw20Swap (native_asset offer) None None (max_spread (lp_config c)) None) [offer] m
  end.
Lemma provide_liquidity_msg_ok c assets funds m :
  provide_liquidity_msg c (native_asset <$> assets) funds = Ok m → provides c assets funds m.
Proof. unfold provide_liquidity_msg, provides. destruct (pool_type (lp_config c)); apply wasm_execute_ok. Qed.
Lemma swap_msg_ok c offer m : swap_msg c (native_asset offer) [offer] = Ok m → swaps c offer m.
Proof. unfold swap_msg, swaps. destruct (pool_type (lp_config c)); apply wasm_execute_ok. Qed.
Lemma provide_total c assets funds : ∃ m, provide_liquidity_msg c assets funds = Ok m.
Proof.
  unfold provide_liquidity_msg, wasm_execute. destruct (pool_type (lp_config c));
    match goal with |- context [to_json_binary ?x] => destruct (to_json_total x) as [b ->] end; by eexists.
Qed.

(** The pool's ratio, of the first to the second asset, is in the expected range. *)
Definition ratio_within (range : option DecimalRange) (p1 p2 : N) : Prop :=
  ∀ g, range = Some g → (range_min g ≤ p1 * decimal_one / p2 ≤ range_max g)%N.
Lemma range_contains_ok g v : range_contains g v = Ok () ↔ (range_min g ≤ v ≤ range_max g)%N.
Proof. unfold range_contains. by rewrite ensure_r_ok, andb_true_iff, !N.leb_le. Qed.

Definition pair_of (t : PoolType) : PairType := match t with NativeLpToken p | Cw20LpToken p => p end.
(** Single-sided liquidity of [amount] of a denomination. *)
Definition provides_one (q : LibQuerier) (c : Config) (denom other : string) (amount : N) (ms : list CosmosMsg) : Prop :=
  match pair_of (pool_type (lp_config c)) with
  | Xyk => ∃ returned m1 m2, let half := mkCoin denom (amount / 2) in
      simulate q c (native_asset half) = Ok returned ∧ ms = [m1; m2] ∧
      swaps c half m1 ∧ provides c [half; mkCoin other returned] [half; mkCoin other returned] m2
  | _ => ∃ m, ms = [m] ∧ provides c [mkCoin denom amount; mkCoin other 0] [mkCoin denom amount] m
  end.
Lemma single_sided_ok q c denom other amount n ms :
  create_single_sided_liquidity_msg q c (mkCoin denom amount) (mkCoin other n) = Ok ms →
  provides_one q c denom other amount ms.
Proof.
  assert (create_xyk_liquidity_msg q c (mkCoin denom amount) (mkCoin other n) = Ok ms →
    ∃ returned m1 m2, let half := mkCoin denom (amount / 2) in
      simulate q c (native_asset half) = Ok returned ∧ ms = [m1; m2] ∧
      swaps c half m1 ∧ provides c [half; mkCoin other returned] [half; mkCoin other returned] m2) as Hx.
  { unfold create_xyk_liquidity_msg. destruct (uint128_checked_div _ 2) as [h| |] eqn:Hh; try done.
    apply uint128_checked_div_spec in Hh as [_ ->]. cbn [mbind result_bind].
    intros (ret & Hs & (m1 & Hm1%swap_msg_ok & Hr)%bind_result_ok)%bind_result_ok.
    apply bind_result_ok in Hr as (m2 & Hm2 & [= <-]). exists ret, m1, m2. split_and!; try done.
    by apply (provide_liquidity_msg_ok c [_; _]). }
  assert (create_stable_or_custom_liquidity_msg c (mkCoin denom amount) (mkCoin other n) = Ok ms →
    ∃ m, ms = [m] ∧ provides c [mkCoin denom amount; mkCoin other 0] [mkCoin denom amount] m) as Hs.
  { intros (m & Hm & [= <-])%bind_result_ok. exists m. split; [done|].
    by apply (provide_liquidity_msg_ok c [_; _]). }
  unfold create_single_sided_liquidity_msg, provides_one.
  destruct (pool_type (lp_config c)) as [[]|[]]; simpl; done.
Qed.
Lemma pool_balances_ok q c p1 p2 : pool_balances q c = Ok (p1, p2) → p1 ≠ 0%N ∧ p2 ≠ 0%N.
Proof.
  unfold pool_balances, get_pool_asset_amounts.
  intros (l & _ & ([a b] & _ & He)%bind_result_ok)%bind_result_ok.
  destruct (N.eqb_spec a 0), (N.eqb_spec b 0); simpl in He; naive_solver.
Qed.
(** The two functions, once the balances and the pool are known. *)
Lemma double_sided_ok q c range d1 d2 b1 b2 p1 p2 r :
  d1 = asset1 (asset_data (lp_config c)) → d2 = asset2 (asset_data (lp_config c)) →
  pool_balances q c = Ok (p1, p2) → p1 ≠ 0%N → p2 ≠ 0%N →
  (pool_asset_ratios ← pool_ratio p1 p2;
   _ ← match range with Some range => range_contains range pool_asset_ratios | None => Ok () end;
   '(a1, a2) ← calculate_provide_amounts b1 b2 p1 p2 pool_asset_ratios;
   m ← create_provide_liquidity_msg c a1 a2; m ← try_ (execute_on_behalf_of [m] (input_addr c));
   Ok (add_attributes [("method", "provide_double_sided_liquidity"); ("asset1_amount", pretty a1);
     ("asset2_amount", pretty a2)] (add_message m Response_new))) = Ok r →
  ∃ p1 p2 ms, pool_balances q c = Ok (p1, p2) ∧ p1 ≠ 0%N ∧ p2 ≠ 0%N ∧ relays (input_addr c) ms r ∧
    ratio_within range p1 p2 ∧ ∃ a1 a2 m, proportional b1 b2 p1 p2 a1 a2 ∧ ms = [m] ∧
      let coins := [mkCoin d1 a1; mkCoin d2 a2] in provides c coins coins m.
Proof.
  intros -> -> Hp Hp1 Hp2 (ratio & Hr & (u & Hu & Hf)%bind_result_ok)%bind_result_ok. destruct u.
  apply bind_result_ok in Hf as ([a1 a2] & Ha & (m & Hm & Hf)%bind_result_ok).
  apply bind_result_ok in Hf as (m2 & Hm2%try_ok & [= <-]).
  exists p1, p2, [m]. split_and!; try done; [by exists m2|..].
  - intros g ->. apply range_contains_ok in Hu. by apply pool_ratio_ok in Hr as (_ & -> & _).
  - exists a1, a2, m. split_and!; [by eapply calculate_provision|done|].
    by apply (provide_liquidity_msg_ok c [_; _]).
Qed.
Lemma double_sided_total q c bal1 bal2 range p1 p2 :
  query_asset_balances q c = Ok (bal1, bal2) → pool_balances q c = Ok (p1, p2) → p1 ≠ 0%N → p2 ≠ 0%N →
  ratio_within range p1 p2 → (coin_amount bal2 ≤ u128_max)%N →
  (p1 * decimal_one / p2 ≤ u128_max)%N → (p2 * decimal_one / p1 ≤ u128_max)%N →
  (coin_amount bal2 * (p1 * decimal_one / p2) / decimal_one ≤ u128_max)%N →
  ∃ r, provide_double_sided_liquidity q c range = Ok r.
Proof.
  intros Hbal Hp Hp1 Hp2 Hw Hb Hr1 Hr2 Hv. unfold provide_double_sided_liquidity.
  rewrite Hbal. cbn [mbind result_bind]. rewrite Hp. cbn [mbind result_bind].
  assert (pool_ratio p1 p2 = Ok (p1 * decimal_one / p2)%N) as Hr by (by apply pool_ratio_ok).
  rewrite Hr. cbn [mbind result_bind].
  assert (match range with Some g => range_contains g (p1 * decimal_one / p2)%N | None => Ok () end = Ok ()) as ->
    by (destruct range; [by apply range_contains_ok, Hw|done]). cbn [mbind result_bind].
  destruct (calculate_total (coin_amount bal1) (coin_amount bal2) p1 p2 _ Hp1 Hp2 Hr Hb Hv Hr2) as (a1 & a2 & ->).
  cbn [mbind result_bind]. unfold create_provide_liquidity_msg.
  match goal with |- context [provide_liquidity_msg ?a ?b ?l] => destruct (provide_total a b l) as [m ->] end.
  cbn [mbind result_bind]. destruct (execute_on_behalf_total [m] (input_addr c)) as [m2 ->]. by eexists.
Qed.
Lemma single_sided_call_ok q c asset limit range d1 d2 b1 b2 p1 p2 r :
  d1 = asset1 (asset_data (lp_config c)) → d2 = asset2 (asset_data (lp_config c)) →
  pool_balances q c = Ok (p1, p2) → p1 ≠ 0%N → p2 ≠ 0%N →
  ('(asset_balance, other_asset) ←
    if bool_decide (asset = d1) then Ok (mkCoin d1 b1, mkCoin d2 b2)
    else if bool_decide (asset = d2) then Ok (mkCoin d2 b2, mkCoin d1 b1)
    else Err (ExecutionError "Asset to provide liquidity for is not part of the pool");
   _ ← match range with
       | Some range => pool_asset_ratios ← pool_ratio p1 p2; range_contains range pool_asset_ratios
       | None => Ok ()
       end;
   let asset_balance := match limit with
                        | Some limit => if (limit <? coin_amount asset_balance)%N
                                        then mkCoin (coin_denom asset_balance) limit else asset_balance
                        | None => asset_balance
                        end in
   ms ← create_single_sided_liquidity_msg q c asset_balance other_asset;
   m ← try_ (execute_on_behalf_of ms (input_addr c));
   Ok (add_attributes [("method", "provide_single_sided_liquidity");
        ("asset_amount", pretty (coin_amount asset_balance))] (add_message m Response_new))) = Ok r →
  ∃ p1 p2 ms, pool_balances q c = Ok (p1, p2) ∧ p1 ≠ 0%N ∧ p2 ≠ 0%N ∧ relays (input_addr c) ms r ∧
    ratio_within range p1 p2 ∧ ∃ b other,
      (asset = d1 ∧ b = b1 ∧ other = d2 ∨ asset = d2 ∧ b = b2 ∧ other = d1) ∧
      let amount := N.min (default b limit) b in
      (amount / 2 + amount / 2 ≤ amount)%N ∧ provides_one q c asset other amount ms.
Proof.
  intros Hd1 Hd2 Hp Hp1 Hp2 ([bal oth] & Hsel & (u & Hu & Hf)%bind_result_ok)%bind_result_ok. destruct u.
  assert (∃ b n other, bal = mkCoin asset b ∧ oth = mkCoin other n ∧
    (asset = d1 ∧ b = b1 ∧ other = d2 ∨ asset = d2 ∧ b = b2 ∧ other = d1)) as (b & n & other & -> & -> & Hcase).
  { case_bool_decide as He1; [injection Hsel as <- <-; subst asset; eauto 10|].
    case_bool_decide as He2; [injection Hsel as <- <-; subst asset; eauto 10|done]. }
  cbv zeta in Hf. cbn [coin_amount coin_denom] in Hf.
  replace (match limit with Some l => if (l <? b)%N then mkCoin asset l else mkCoin asset b | None => mkCoin asset b end)
    with (mkCoin asset (N.min (default b limit) b)) in Hf
    by (destruct limit as [l|]; simpl; [destruct (N.ltb_spec l b)|]; f_equal; lia).
  apply bind_result_ok in Hf as (ms & Hms%single_sided_ok & (m & Hm%try_ok & [= <-])%bind_result_ok).
  exists p1, p2, ms. split_and!; try done; [by exists m|..].
  - intros g ->. apply bind_result_ok in Hu as (ratio & Hr & Hu%range_contains_ok).
    by apply pool_ratio_ok in Hr as (_ & <- & _).
  - exists b, other. split; [done|]. cbv zeta. split; [|done].
    set (a := N.min _ _). pose proof (N.Div0.mul_div_le a 2). lia.
Qed.
End Lper.

(** C35 Liquidity is provided within the balances, for the output account.  An accepted call
    leaves the library's state alone, and finds a pool that holds both assets, at a ratio
    in the expected range.  Double-sided: the input account sends the pool one message with
    exactly the provided amounts, all of one balance and, of the other, its value at the
    pool's proportion rounded down, which is never more than the account has.
    Single-sided: of the asset, the balance or the limit if it is less; in a constant
    product pool half of it is swapped and the other half provided with what the pool
    simulates for the swap, the two halves being at most the amount; in the others it is
    provided alone.  And a double-sided call of the processor is accepted whenever the
    ratios and the value of the second balance fit 128 bits. *)
Theorem astroport_provision_within_balances
    `{Platform} `{CwDenom} `{CosmMath} `{!CosmMathLaws} `{CheckedRatio} `{!CheckedRatioLaws}
    `{JsonCodec AccountExecuteMsg} `{!JsonCodecLaws AccountExecuteMsg}
    `{JsonCodec NativePoolQueryMsg} `{JsonCodec Cw20PoolQueryMsg} `{JsonCodec PoolResponse}
    `{JsonCodec PairInfo} `{JsonCodec SimulationResponse}
    `{JsonCodec NativePoolExecuteMsg} `{!JsonCodecLaws NativePoolExecuteMsg}
    `{JsonCodec Cw20PoolExecuteMsg} `{!JsonCodecLaws Cw20PoolExecuteMsg} `{CwOwnable} `{CwOwnableDebug}
    (s : storage AstroportLper.LibraryConfig AstroportLper.Config ()) q env info c b1 b2 :
  s_config s = Some c →
  let data := AstroportLper.asset_data (AstroportLper.lp_config c) in
  let input := AstroportLper.input_addr c in
  q_bank_balance q input (asset1 data) = Ok b1 → q_bank_balance q input (asset2 data) = Ok b2 →
  (∀ f r s', lib_execute astro_lper_lib q env info (ProcessFunction f) s = Ok (r, s') →
    s' = s ∧ ∃ p1 p2 ms, AstroportLper.pool_balances q c = Ok (p1, p2) ∧ p1 ≠ 0%N ∧ p2 ≠ 0%N ∧
    relays input ms r ∧
    match f with
    | AstroportLper.ProvideDoubleSidedLiquidity range =>
        ratio_within range p1 p2 ∧ ∃ a1 a2 m, proportional b1 b2 p1 p2 a1 a2 ∧ ms = [m] ∧
        let coins := [mkCoin (asset1 data) a1; mkCoin (asset2 data) a2] in provides c coins coins m
    | AstroportLper.ProvideSingleSidedLiquidity asset limit range =>
        ratio_within range p1 p2 ∧ ∃ b other,
        (asset = asset1 data ∧ b = b1 ∧ other = asset2 data ∨
         asset = asset2 data ∧ b = b2 ∧ other = asset1 data) ∧
        let amount := N.min (default b limit) b in
        (amount / 2 + amount / 2 ≤ amount)%N ∧ provides_one q c asset other amount ms
    end) ∧
  (∀ range p1 p2, s_processor s = Some (info_sender info) →
    AstroportLper.pool_balances q c = Ok (p1, p2) → ratio_within range p1 p2 →
    (b2 ≤ u128_max)%N → (p1 * decimal_one / p2 ≤ u128_max)%N → (p2 * decimal_one / p1 ≤ u128_max)%N →
    (b2 * (p1 * decimal_one / p2) / decimal_one ≤ u128_max)%N →
    ∃ r, lib_execute astro_lper_lib q env info
           (ProcessFunction (AstroportLper.ProvideDoubleSidedLiquidity range)) s = Ok (r, s)).
Proof.
  intros Hc data input Hb1 Hb2.
  assert (AstroportLper.query_asset_balances q c = Ok (mkCoin (asset1 data) b1, mkCoin (asset2 data) b2)) as Hbal.
  { unfold AstroportLper.query_asset_balances. unfold data, input in *. by rewrite Hb1, Hb2. }
  split.
  - intros f r s' (c0 & _ & Hc0 & [Hf ->]%of_result_ok)%lib_execute_process. simplify_eq. split; [done|].
    destruct f as [range|asset limit range]; apply bind_result_ok in Hf as (bs & Hbs & Hf);
      rewrite Hbal in Hbs; injection Hbs as <-;
      apply bind_result_ok in Hf as ([p1 p2] & Hp & Hf); pose proof (pool_balances_ok _ _ _ _ Hp) as [Hp1 Hp2].
    + by eapply double_sided_ok.
    + by eapply single_sided_call_ok.
  - intros range p1 p2 Hs Hp Hw Hb Hr1 Hr2 Hv. pose proof (pool_balances_ok _ _ _ _ Hp) as [Hp1 Hp2].
    destruct (double_sided_total q c (mkCoin (asset1 data) b1) (mkCoin (asset2 data) b2) range p1 p2) as [r Hr]; try done.
    exists r. apply lib_execute_process. exists c. split_and!; [done|done|]. apply of_result_ok. done.
Qed.

(** ** The withdrawer *)
Section Withdrawer.
Import AstroportWithdrawer.
Context `{CPl : Platform} `{CDe : CwDenom} `{CRa : CheckedRatio} `{!CheckedRatioLaws}.
Context `{CJs : JsonCodec AccountExecuteMsg} `{!JsonCodecLaws AccountExecuteMsg}.
Context `{CNq : JsonCodec NativePoolQueryMsg} `{CCq : JsonCodec Cw20PoolQueryMsg} `{CPr : JsonCodec PoolResponse}.
Context `{CPi : JsonCodec PairInfo} `{CAs : JsonCodec (list Asset)}.
Context `{CNe : JsonCodec NativePoolExecuteMsg} `{!JsonCodecLaws NativePoolExecuteMsg}.
Context `{CBq : JsonCodec Cw20QueryMsg} `{CBr : JsonCodec Cw20BalanceResponse}.
Context `{CSe : JsonCodec Cw20ExecuteMsg} `{!JsonCodecLaws Cw20ExecuteMsg}.
Context `{CHo : JsonCodec Cw20HookMsg} `{!JsonCodecLaws Cw20HookMsg}.
Context `{COw : CwOwnable} `{CDb : CwOwnableDebug}.

Definition astro_withdrawer_lib : LibraryFns LibraryConfig Config () FunctionMsgs LibraryConfigUpdate :=
  mkLibraryFns process_function update_config.
#[global] Instance astro_withdrawer_process_ro q env info f c : ReadOnly (process_function q env info f c).
Proof. unfold process_function. destruct f; apply _. Qed.
#[global] Instance astro_withdrawer_laws : LibraryLaws astro_withdrawer_lib (λ _, True) eq (λ _, True).
Proof. by apply (simple_library_laws _ _ _ update_fields); [|apply _|..]. Qed.

(** The shares of the input account, and what the pool promises for them. *)
Definition share (q : LibQuerier) (c : Config) (token : string) (shares : N) (assets : list Asset) : Prop :=
  let p := q_protocols q in
  match pool_type (withdrawer_config c) with
  | NativeLpToken _ => native_liquidity_token q c = Ok token ∧ q_bank_balance q (input_addr c) token = Ok shares ∧
      query_wasm_smart p (pool_addr c) (NativeShare shares) = Ok assets
  | Cw20LpToken _ => cw20_liquidity_token q c = Ok token ∧
      (query_wasm_smart p token (Cw20Balance (input_addr c)) : result StdError Cw20BalanceResponse) =
        Ok (mkCw20BalanceResponse shares) ∧
      query_wasm_smart p (pool_addr c) (Cw20Share shares) = Ok assets
  end.
(** All shares go to the pool: as funds, or sent with a hook. *)
Definition gives_back (c : Config) (token : string) (shares : N) (assets : list Asset) (m : CosmosMsg) : Prop :=
  match pool_type (withdrawer_config c) with
  | NativeLpToken _ => calls (pool_addr c) (NativeWithdrawLiquidity [] (Some assets)) [mkCoin token shares] m
  | Cw20LpToken _ => ∃ hook, from_json hook = Ok (HookWithdrawLiquidity []) ∧
      calls token (Cw20Send (pool_addr c) shares hook) [] m
  end.
(** A coin of the withdrawn assets. *)
Definition coin_of (a : Asset) (x : Coin) : Prop := asset_info a = NativeToken (coin_denom x) ∧ asset_amount a = coin_amount x.
Lemma coins_of_assets (as_coin : Asset → result StdError Coin) assets coins :
  (∀ a x, as_coin a = Ok x → coin_of a x) → mapM as_coin assets = Ok coins → Forall2 coin_of assets coins.
Proof. intros Hc Hm%mapM_result_Forall2. eapply Forall2_impl; [exact Hm|]. exact Hc. Qed.
Lemma native_as_coin_of a x : native_as_coin a = Ok x → coin_of a x.
Proof. unfold native_as_coin, coin_of. destruct (asset_info a); [done|]. by intros [= <-]. Qed.
Lemma cw20_to_coin_of a x : cw20_to_coin a = Ok x → coin_of a x.
Proof. unfold cw20_to_coin, coin_of. destruct (asset_info a); [done|]. by intros [= <-]. Qed.
Lemma withdraw_msgs_ok q c ms :
  create_withdraw_liquidity_msgs q c = Ok ms →
  ∃ token shares assets coins m, share q c token shares assets ∧ shares ≠ 0%N ∧
    ms = [m; CosmosBankSend (output_addr c) coins] ∧ gives_back c token shares assets m ∧
    Forall2 coin_of assets coins.
Proof.
  unfold create_withdraw_liquidity_msgs, share, gives_back. destruct (pool_type (withdrawer_config c)).
  - intros (token & Ht & (n & Hn%try_ok & Hf)%bind_result_ok)%bind_result_ok.
    apply bind_result_ok in Hf as (u & Hz%ensure_r_ok%negb_true_iff%N.eqb_neq & Hf).
    apply bind_result_ok in Hf as (l & Hl%try_ok & (m & Hm%wasm_execute_ok & Hf)%bind_result_ok).
    apply bind_result_ok in Hf as (coins & Hcs%try_ok & [= <-]).
    exists token, n, l, coins, m. split_and!; try done. eapply coins_of_assets; [apply native_as_coin_of|done].
  - intros (token & Ht & ([n] & Hn%try_ok & Hf)%bind_result_ok)%bind_result_ok.
    apply bind_result_ok in Hf as (u & Hz%ensure_r_ok%negb_true_iff%N.eqb_neq & Hf).
    apply bind_result_ok in Hf as (l & Hl%try_ok & (hook & Hh%try_ok & Hf)%bind_result_ok).
    apply bind_result_ok in Hf as (m & Hm%wasm_execute_ok & (coins & Hcs%try_ok & [= <-])%bind_result_ok).
    exists token, n, l, coins, m. split_and!; try done.
    + exists hook. split; [by eapply from_to_json|done].
    + eapply coins_of_assets; [apply cw20_to_coin_of|done].
Qed.
(** A withdrawal gives back every share of the input account, and sends the output account
    exactly the assets the pool promises for them. *)
Theorem astroport_withdraws_everything (s : storage LibraryConfig Config ()) q env info range r s' :
  lib_execute astro_withdrawer_lib q env info (ProcessFunction (WithdrawLiquidity range)) s = Ok (r, s') →
  ∃ c token shares assets coins m, s_config s = Some c ∧ s' = s ∧
    share q c token shares assets ∧ shares ≠ 0%N ∧ Forall2 coin_of assets coins ∧
    relays (input_addr c) [m; CosmosBankSend (output_addr c) coins] r ∧ gives_back c token shares assets m.
Proof.
  intros (c & _ & Hc & [Hf ->]%of_result_ok)%lib_execute_process.
  apply bind_result_ok in Hf as (u & _ & (ms & Hms & Hf)%bind_result_ok).
  apply bind_result_ok in Hf as (m2 & Hm2%try_ok & [= <-]).
  apply withdraw_msgs_ok in Hms as (token & n & l & coins & m & Hs & Hz & -> & Hg & Hco).
  exists c, token, n, l, coins, m. split_and!; try done. by exists m2.
Qed.
End Withdrawer.

(** ** A constant product pool of 300 and 700 *)
#[global] Instance AssetInfo_eq_dec : EqDecision AssetInfo. Proof. solve_decision. Defined.
#[global] Instance AssetInfo_countable : Countable AssetInfo.
Proof.
  by_iso (λ x, match x with
    | Token a0 => (inl a0)
    | NativeToken a0 => (inr a0) end)
    (λ y, match y with
    | (inl a0) => Token a0
    | (inr a0) => NativeToken a0 end).
Defined.
#[global] Instance AstroAsset_eq_dec : EqDecision Asset. Proof. solve_decision. Defined.
#[global] Instance AstroAsset_countable : Countable Asset.
Proof. by_iso (λ '(mkAsset a0 a1), (a0, a1)) (λ '(a0, a1), mkAsset a0 a1). Defined.
#[global] Instance PoolResponse_eq_dec : EqDecision PoolResponse. Proof. solve_decision. Defined.
#[global] Instance PoolResponse_countable : Countable PoolResponse.
Proof. by_iso (λ '(mkPoolResponse a0 a1), (a0, a1)) (λ '(a0, a1), mkPoolResponse a0 a1). Defined.
#[global] Instance SimulationResponse_eq_dec : EqDecision SimulationResponse. Proof. solve_decision. Defined.
#[global] Instance SimulationResponse_countable : Countable SimulationResponse.
Proof. by_iso (λ '(mkSimulationResponse a0 a1 a2), (a0, a1, a2)) (λ '(a0, a1, a2), mkSimulationResponse a0 a1 a2). Defined.
#[global] Instance PairType_countable : Countable PairType.
Proof.
  by_iso (λ x, match x with
    | Xyk => (inl ())
    | Stable => (inr (inl ()))
    | CustomPair a0 => (inr (inr a0)) end)
    (λ y, match y with
    | (inl _) => Xyk
    | (inr (inl _)) => Stable
    | (inr (inr a0)) => CustomPair a0 end).
Defined.
#[global] Instance PairInfo_eq_dec : EqDecision PairInfo. Proof. solve_decision. Defined.
#[global] Instance PairInfo_countable : Countable PairInfo.
Proof. by_iso (λ '(mkPairInfo a0 a1 a2 a3), (a0, a1, a2, a3)) (λ '(a0, a1, a2, a3), mkPairInfo a0 a1 a2 a3). Defined.
#[global] Instance NativePoolExecuteMsg_eq_dec : EqDecision NativePoolExecuteMsg. Proof. solve_decision. Defined.
#[global] Instance NativePoolExecuteMsg_countable : Countable NativePoolExecuteMsg.
Proof.
  by_iso (λ x, match x with
    | NativeSwap a0 a1 a2 a3 a4 => (inl (a0, a1, a2, a3, a4))
    | NativeProvideLiquidity a0 a1 a2 a3 a4 => (inr (inl (a0, a1, a2, a3, a4)))
    | NativeWithdrawLiquidity a0 a1 => (inr (inr (a0, a1))) end)
    (λ y, match y with
    | (inl (a0, a1, a2, a3, a4)) => NativeSwap a0 a1 a2 a3 a4
    | (inr (inl (a0, a1, a2, a3, a4))) => NativeProvideLiquidity a0 a1 a2 a3 a4
    | (inr (inr (a0, a1))) => NativeWithdrawLiquidity a0 a1 end).
Defined.
#[global] Instance Cw20PoolExecuteMsg_eq_dec : EqDecision Cw20PoolExecuteMsg. Proof. solve_decision. Defined.
#[global] Instance Cw20PoolExecuteMsg_countable : Countable Cw20PoolExecuteMsg.
Proof.
  by_iso (λ x, match x with
    | Cw20Swap a0 a1 a2 a3 a4 => (inl (a0, a1, a2, a3, a4))
    | Cw20ProvideLiquidity a0 a1 a2 a3 => (inr (a0, a1, a2, a3)) end)
    (λ y, match y with
    | (inl (a0, a1, a2, a3, a4)) => Cw20Swap a0 a1 a2 a3 a4
    | (inr (a0, a1, a2, a3)) => Cw20ProvideLiquidity a0 a1 a2 a3 end).
Defined.
#[global] Instance NativePoolQueryMsg_eq_dec : EqDecision NativePoolQueryMsg. Proof. solve_decision. Defined.
#[global] Instance NativePoolQueryMsg_countable : Countable NativePoolQueryMsg.
Proof.
  by_iso (λ x, match x with
    | NativePoolConfig => (inl ())
    | NativePair => (inr (inl ()))
    | NativePool => (inr (inr (inl ())))
    | NativeSimulation a0 a1 => (inr (inr (inr (inl (a0, a1)))))
    | NativeReverseSimulation a0 a1 => (inr (inr (inr (inr (inl (a0, a1))))))
    | NativeSimulateProvide a0 a1 => (inr (inr (inr (inr (inr (inl (a0, a1)))))))
    | NativeSimulateWithdraw a0 => (inr (inr (inr (inr (inr (inr (inl a0)))))))
    | NativeShare a0 => (inr (inr (inr (inr (inr (inr (inr a0))))))) end)
    (λ y, match y with
    | (inl _) => NativePoolConfig
    | (inr (inl _)) => NativePair
    | (inr (inr (inl _))) => NativePool
    | (inr (inr (inr (inl (a0, a1))))) => NativeSimulation a0 a1
    | (inr (inr (inr (inr (inl (a0, a1)))))) => NativeReverseSimulation a0 a1
    | (inr (inr (inr (inr (inr (inl (a0, a1))))))) => NativeSimulateProvide a0 a1
    | (inr (inr (inr (inr (inr (inr (inl a0))))))) => NativeSimulateWithdraw a0
    | (inr (inr (inr (inr (inr (inr (inr a0))))))) => NativeShare a0 end).
Defined.
#[global] Instance Cw20PoolQueryMsg_eq_dec : EqDecision Cw20PoolQueryMsg. Proof. solve_decision. Defined.
#[global] Instance Cw20PoolQueryMsg_countable : Countable Cw20PoolQueryMsg.
Proof.
  by_iso (λ x, match x with
    | Cw20Pair => (inl ())
    | Cw20Pool => (inr (inl ()))
    | Cw20Simulation a0 a1 => (inr (inr (inl (a0, a1))))
    | Cw20Share a0 => (inr (inr (inr a0))) end)
    (λ y, match y with
    | (inl _) => Cw20Pair
    | (inr (inl _)) => Cw20Pool
    | (inr (inr (inl (a0, a1)))) => Cw20Simulation a0 a1
    | (inr (inr (inr a0))) => Cw20Share a0 end).
Defined.
#[global] Instance ref_checked_ratio : CheckedRatio := {
  checked_from_ratio a b :=
    if (b =? 0)%N then Err "Denominator must not be zero"
    else if (a * decimal_one / b <=? u128_max)%N then Ok (a * decimal_one / b)%N else Err "CheckedFromRatioError";
  overflow_mul := "Cannot Mul";
}.
#[global] Instance ref_checked_ratio_laws : CheckedRatioLaws.
Proof.
  split. intros a b r. simpl. destruct (N.eqb_spec b 0), (N.leb_spec (a * decimal_one / b) u128_max); naive_solver lia.
Qed.
Definition sample_astro_pool (b : Binary) : result StdError Binary :=
  m ← from_json b;
  match m with
  | NativePool => to_json_binary (mkPoolResponse
      [mkAsset (NativeToken "untrn") 300; mkAsset (NativeToken "uatom") 700] 100)
  | NativeSimulation a _ => to_json_binary (mkSimulationResponse (asset_amount a) 0 0)
  | _ => no_answer
  end.
Definition sample_astro_q : LibQuerier :=
  with_contracts (ref_lib_querier 1000) (λ addr b, if bool_decide (addr = "pool") then sample_astro_pool b else no_answer).
Definition sample_astro_config : AstroportLper.Config :=
  AstroportLper.mkConfig "input" "output" "pool"
    (AstroportLper.mkLiquidityProviderConfig (NativeLpToken Xyk) (mkAssetData "untrn" "uatom") None).
Definition sample_astro : storage AstroportLper.LibraryConfig AstroportLper.Config () :=
  mkStorage (Some ("astroport-lper", "1")) None (Some "processor") None (Some sample_astro_config) ().
(** Of 1000 of each, 428 of the first and all of the second. *)
Lemma astroport_provision_within_balances_witness :
  ∃ r a1 m, lib_execute astro_lper_lib sample_astro_q (mkEnv (mkBlock 1 1) "library") (mkInfo "processor" [])
      (ProcessFunction (AstroportLper.ProvideDoubleSidedLiquidity None)) sample_astro = Ok (r, sample_astro) ∧
    relays "input" [m] r ∧ proportional 1000 1000 300 700 a1 1000 ∧
    provides sample_astro_config [mkCoin "untrn" a1; mkCoin "uatom" 1000] [mkCoin "untrn" a1; mkCoin "uatom" 1000] m.
Proof.
  destruct (astroport_provision_within_balances sample_astro sample_astro_q (mkEnv (mkBlock 1 1) "library")
    (mkInfo "processor" []) sample_astro_config 1000 1000) as [Hs Ht]; [done|done|done|].
  assert (AstroportLper.pool_balances sample_astro_q sample_astro_config = Ok (300%N, 700%N)) as Hpool
    by (vm_compute; reflexivity).
  destruct (Ht None 300%N 700%N) as [r Hr]; [done|exact Hpool|by intros g|by vm_compute..|].
  destruct (Hs _ _ _ Hr) as (_ & p1 & p2 & ms & Hp & _ & _ & Hms & _ & a1 & a2 & m & Hprop & -> & Hm).
  assert (Ok (p1, p2) = (Ok (300%N, 700%N) : result LibraryError _)) as [= -> ->] by (by rewrite <-Hp, <-Hpool).
  assert (a2 = 1000%N) as ->.
  { destruct (pv_all _ _ _ _ _ _ Hprop) as [->|]; [|done]. destruct (decide (a2 = 1000%N)) as [|Hne]; [done|].
    destruct (pv_second _ _ _ _ _ _ Hprop Hne) as [_ Hbig]. destruct (pv_within _ _ _ _ _ _ Hprop) as [_ Hle].
    exfalso. unfold decimal_one in Hbig. lia. }
  exists r, a1, m. split_and!; assumption.
Defined.
