(* ===== verification/LiquidStakingTheorems.v ===== *)
(** * The liquid staking libraries: what is sent, and to whom *)
From Stdlib Require Import Strings.Byte.
From S2P Require Import Prelude Platform Types Format Accounts InterchainAccount Protocols LibraryBase.
From S2P Require Import LibraryProofs LiquidStaking Codec LibraryCodec.
Import Library.

(** The whole balance [b] of [input] is sent to the contract, with the message. *)
Definition sweeps `{JsonCodec AccountExecuteMsg} {A} `{JsonCodec A} (q : LibQuerier) (input : Addr) (denom addr : string)
    (msg : A) (r : Response) : Prop :=
  ∃ b m, q_bank_balance q input denom = Ok b ∧ b ≠ 0%N ∧
    calls addr msg [mkCoin denom b] m ∧ relays input [m] r.
Lemma sweep_ok `{JsonCodec AccountExecuteMsg} {A} `{JsonCodec A} `{!JsonCodecLaws A} q input denom addr (msg : A)
    e (k : CosmosMsg → Response) r :
  (∀ m, resp_messages (k m) = [SubMsg_new m]) →
  (balance ← try_ (q_bank_balance q input denom);
   _ ← ensure_r (negb (balance =? 0)%N) e;
   m ← wasm_execute addr msg [mkCoin denom balance];
   m ← try_ (execute_on_behalf_of [m] input); Ok (k m) : result LibraryError Response) = Ok r →
  sweeps q input denom addr msg r.
Proof.
  intros Hk (b & Hb%try_ok & (u & Hz%ensure_r_ok & Hf)%bind_result_ok)%bind_result_ok.
  apply bind_result_ok in Hf as (m & Hm%wasm_execute_ok & (m2 & Hm2%try_ok & [= <-])%bind_result_ok).
  apply negb_true_iff, N.eqb_neq in Hz. exists b, m. split_and!; try done. by exists m2.
Qed.
Lemma sweep_total `{JsonCodec AccountExecuteMsg} `{!JsonCodecLaws AccountExecuteMsg} {A} `{JsonCodec A} `{!JsonCodecLaws A}
    q input denom addr (msg : A) e (k : CosmosMsg → Response) b :
  q_bank_balance q input denom = Ok b → b ≠ 0%N →
  ∃ r, (balance ← try_ (q_bank_balance q input denom);
    _ ← ensure_r (negb (balance =? 0)%N) e;
    m ← wasm_execute addr msg [mkCoin denom balance];
    m ← try_ (execute_on_behalf_of [m] input); Ok (k m) : result LibraryError Response) = Ok r.
Proof.
  intros -> Hb%N.eqb_neq. cbn [mbind result_bind try_ map_err_r]. rewrite Hb. cbn [mbind result_bind ensure_r negb].
  destruct (wasm_execute_total addr msg [mkCoin denom b]) as (m & -> & _). cbn [mbind result_bind].
  destruct (execute_on_behalf_total [m] input) as [m2 ->]. by eexists.
Qed.

Section Staker.
Import DropLiquidStaker.
Context `{CPl : Platform} `{CJs : JsonCodec AccountExecuteMsg} `{!JsonCodecLaws AccountExecuteMsg}.
Context `{CSt : JsonCodec LiquidStakerExecuteMsg} `{!JsonCodecLaws LiquidStakerExecuteMsg}.
Context `{COw : CwOwnable} `{CDb : CwOwnableDebug}.
Definition staker_lib : LibraryFns LibraryConfig Config () FunctionMsgs LibraryConfigUpdate :=
  mkLibraryFns process_function update_config.
#[global] Instance staker_process_ro q env info f c : ReadOnly (process_function q env info f c).
Proof. unfold process_function. destruct f; apply _. Qed.
#[global] Instance staker_laws : LibraryLaws staker_lib (λ _, True) eq (λ _, True).
Proof. by apply (simple_library_laws _ _ _ update_fields); [|apply _|..]. Qed.
(** The whole balance is bonded for the output account; this succeeds exactly when there is
    a balance. *)
Theorem staker_sweeps (s : storage LibraryConfig Config ()) q env info ref c :
  s_processor s = Some (info_sender info) → s_config s = Some c →
  (∀ r s', lib_execute staker_lib q env info (ProcessFunction (LiquidStake ref)) s = Ok (r, s') →
    s' = s ∧ sweeps q (input_addr c) (denom c) (liquid_staker_addr c) (Bond (Some (output_addr c)) ref) r) ∧
  (∀ b, q_bank_balance q (input_addr c) (denom c) = Ok b → b ≠ 0%N →
    ∃ r, lib_execute staker_lib q env info (ProcessFunction (LiquidStake ref)) s = Ok (r, s)).
Proof.
  intros Hp Hc. split.
  - intros r s' (c0 & _ & Hc0 & [Hf ->]%of_result_ok)%lib_execute_process. simplify_eq. split; [done|].
    by eapply (sweep_ok _ _ _ _ _ _ (λ m, _)) in Hf.
  - intros b Hb Hz. edestruct (sweep_total q (input_addr c) (denom c) (liquid_staker_addr c)
      (Bond (Some (output_addr c)) ref)) as [r Hr]; [done|done|].
    exists r. apply lib_execute_process. exists c. split_and!; [done|done|]. apply of_result_ok. split; [exact Hr|done].
Qed.
End Staker.

Section Issuer.
Import MaxBtcIssuer.
Context `{CPl : Platform} `{CJs : JsonCodec AccountExecuteMsg} `{!JsonCodecLaws AccountExecuteMsg}.
Context `{CSt : JsonCodec MaxBtcExecuteMsg} `{!JsonCodecLaws MaxBtcExecuteMsg}.
Context `{COw : CwOwnable} `{CDb : CwOwnableDebug}.
Definition issuer_lib : LibraryFns LibraryConfig Config () FunctionMsgs LibraryConfigUpdate :=
  mkLibraryFns process_function update_config.
#[global] Instance issuer_process_ro q env info f c : ReadOnly (process_function q env info f c).
Proof. unfold process_function. destruct f; apply _. Qed.
Lemma denom_checked_ok d u : check_denom d = Ok u → d ≠ "".
Proof. unfold check_denom. destruct u. rewrite ensure_r_ok, negb_true_iff. apply bool_decide_eq_false_1. Qed.
#[global] Instance issuer_laws : LibraryLaws issuer_lib (λ c, btc_denom c ≠ "") eq (λ _, True).
Proof.
  apply (simple_library_laws _ _ _ update_fields); [done|apply _|..].
  - intros q raw c _ ([[i o] a] & Hv & [= <-])%bind_result_ok. unfold do_validate in Hv.
    repeat (apply bind_result_ok in Hv as (? & ? & Hv)). simpl. by eapply denom_checked_ok.
  - intros q u c c' _ Hu Hv. unfold update_fields in Hu. do 3 (apply bind_result_ok in Hu as (? & _ & Hu)).
    apply bind_result_ok in Hu as (d & Hd & [= <-]). simpl. destruct (upd_btc_denom u); [|by simplify_eq].
    apply bind_result_ok in Hd as (? & Hd & [= <-]). by eapply denom_checked_ok.
Qed.
(** In every reachable state there is a denomination, and all of it is deposited for the
    output account. *)
Theorem issuer_sweeps (s : storage LibraryConfig Config ()) q env info r s' :
  lib_reach issuer_lib (λ _, True) () s →
  lib_execute issuer_lib q env info (ProcessFunction Issue) s = Ok (r, s') →
  ∃ c, s_config s = Some c ∧ s' = s ∧ btc_denom c ≠ "" ∧
    sweeps q (input_addr c) (btc_denom c) (maxbtc_issuer_addr c) (MaxBtcDeposit (output_addr c)) r.
Proof.
  intros Hr (c & _ & Hc & [Hf ->]%of_result_ok)%lib_execute_process. exists c. split_and!; try done.
  - destruct (lib_reach_config issuer_lib (λ c, btc_denom c ≠ "") eq (λ _, True) () _ Hr) as (c0 & Hc0 & Hv).
    by simplify_eq.
  - by eapply (sweep_ok _ _ _ _ _ _ (λ m, _)) in Hf.
Qed.
End Issuer.

Section Unstaker.
Import DropLiquidUnstaker.
Context `{CPl : Platform} `{CJs : JsonCodec AccountExecuteMsg} `{!JsonCodecLaws AccountExecuteMsg}.
Context `{CSt : JsonCodec LiquidStakerExecuteMsg} `{!JsonCodecLaws LiquidStakerExecuteMsg}.
Context `{CRe : JsonCodec ReceiveNftMsg} `{!JsonCodecLaws ReceiveNftMsg}.
Context `{CNf : JsonCodec Cw721ExecuteMsg} `{!JsonCodecLaws Cw721ExecuteMsg}.
Context `{CNq : JsonCodec Cw721QueryMsg} `{CNo : JsonCodec OwnerOfResponse}.
Context `{COw : CwOwnable} `{CDb : CwOwnableDebug}.
Definition unstaker_lib : LibraryFns LibraryConfig Config () FunctionMsgs LibraryConfigUpdate :=
  mkLibraryFns process_function update_config.
#[global] Instance unstaker_process_ro q env info f c : ReadOnly (process_function q env info f c).
Proof. unfold process_function. apply _. Qed.
#[global] Instance unstaker_laws : LibraryLaws unstaker_lib (λ _, True) eq (λ _, True).
Proof. by apply (simple_library_laws _ _ _ update_fields); [|apply _|..]. Qed.

(** The voucher is sent to the withdrawal manager of [c], to be paid out to its output. *)
Definition redeems (c : Config) (token_id : string) (r : Response) : Prop :=
  ∃ hook m, from_json hook = Ok (NftWithdraw (Some (output_addr c))) ∧
    calls (voucher_addr c) (SendNft (withdrawal_manager_addr c) token_id hook) [] m ∧ relays (input_addr c) [m] r.
Lemma withdraw_ok q c token_id r :
  withdraw q c token_id = Ok r →
  query_wasm_smart (q_protocols q) (voucher_addr c) (OwnerOf token_id None) = Ok (mkOwnerOfResponse (input_addr c)) ∧
  redeems c token_id r.
Proof.
  intros (u & Hv & (m & Hm%try_ok & Hf)%bind_result_ok)%bind_result_ok.
  apply bind_result_ok in Hv as ([o] & Ho%map_err_r_ok & Hv). destruct u.
  apply ensure_r_ok, bool_decide_eq_true_1 in Hv. simpl in Hv. subst o. split; [done|].
  apply bind_result_ok in Hm as (hook & Hh%from_to_json & (b & Hb%from_to_json & [= <-])%bind_result_ok).
  apply bind_result_ok in Hf as (m2 & Hm2%try_ok & [= <-]). exists hook, (CosmosWasm (WasmExecute (voucher_addr c) b [])).
  split_and!; [done|by exists b|by exists m2].
Qed.
(** Everything is unbonded; a voucher is redeemed only when it belongs to the input account. *)
Theorem unstaker_functions (s : storage LibraryConfig Config ()) q env info f r s' :
  lib_execute unstaker_lib q env info (ProcessFunction f) s = Ok (r, s') →
  ∃ c, s_config s = Some c ∧ s' = s ∧
    match f with
    | Unstake => sweeps q (input_addr c) (denom c) (liquid_unstaker_addr c) Unbond r
    | Withdraw token_id =>
        query_wasm_smart (q_protocols q) (voucher_addr c) (OwnerOf token_id None) =
          Ok (mkOwnerOfResponse (input_addr c)) ∧ redeems c token_id r
    end.
Proof.
  intros (c & _ & Hc & [Hf ->]%of_result_ok)%lib_execute_process. exists c. do 2 (split; [done|]).
  destruct f; [by eapply (sweep_ok _ _ _ _ _ _ (λ m, _)) in Hf|by apply withdraw_ok in Hf].
Qed.

(** One accepted transaction of anyone. *)
Definition unstaker_step (s s' : storage LibraryConfig Config ()) : Prop :=
  ∃ q env info msg r, lib_execute unstaker_lib q env info msg s = Ok (r, s').
Lemma update_fields_voucher q u c c' : update_fields q u c = Ok c' → voucher_addr c' = voucher_addr c.
Proof.
  unfold update_fields. do 4 (intros (? & _ & Hu)%bind_result_ok; revert Hu). by intros [= <-].
Qed.
Lemma unstaker_step_voucher s s' :
  unstaker_step s s' → voucher_addr <$> s_config s' = voucher_addr <$> s_config s.
Proof.
  intros (q & env & info & msg & r & He). destruct msg as [f|u|p|a].
  - apply lib_execute_process in He as (c & _ & _ & ->%read_only). done.
  - apply lib_execute_update in He as (raw & v & _ & _ & Hu & _). simpl in Hu.
    unfold update_config, load_config, save_config in Hu. run_inv. simpl in *.
    match goal with H : update_fields _ _ _ = Ok _ |- _ => apply update_fields_voucher in H as Hv end.
    match goal with H : s_config s = Some _ |- _ => rewrite H end. simpl. by rewrite Hv.
  - unfold lib_execute, execute in He.
    apply Exec_bind_ok in He as (? & s1 & Ho & He). apply read_only in Ho as ->. by run_inv.
  - unfold lib_execute, execute in He. by run_inv.
Qed.
Lemma unstaker_update_raw_ok q env info u s r s' :
  lib_execute unstaker_lib q env info (UpdateConfig u) s = Ok (r, s') →
  ∃ raw, s_raw_library_config s = Some raw ∧ s_raw_library_config s' = Some (update_raw_config u raw).
Proof.
  intros (raw & v & _ & Hraw & Hu & _)%lib_execute_update. exists raw. split; [done|].
  simpl in Hu. unfold update_config, load_config, save_config in Hu. by run_inv.
Qed.
Lemma unstaker_step_raw s s' :
  unstaker_step s s' → is_Some (s_raw_library_config s) → is_Some (s_raw_library_config s').
Proof.
  intros (q & env & info & msg & r & He) Hs. destruct msg as [f|u|p|a].
  - by apply lib_execute_process in He as (c & _ & _ & ->%read_only).
  - apply unstaker_update_raw_ok in He as (raw & _ & ->). by eexists.
  - unfold lib_execute, execute in He.
    apply Exec_bind_ok in He as (? & s1 & Ho & He). apply read_only in Ho as ->. by run_inv.
  - unfold lib_execute, execute in He. by run_inv.
Qed.
End Unstaker.

(** The voucher contract of the unstaker is fixed at its instantiation.  A
    configuration update has a field for it, which is accepted without being validated and
    is recorded in the raw configuration, but is never applied: whatever transactions
    follow the instantiation, vouchers are looked up at, and redeemed through, the contract
    the library was instantiated with. *)
Theorem unstaker_voucher_never_updated
    `{Platform} `{JsonCodec AccountExecuteMsg} `{!JsonCodecLaws AccountExecuteMsg}
    `{JsonCodec LiquidStakerExecuteMsg} `{!JsonCodecLaws LiquidStakerExecuteMsg}
    `{JsonCodec ReceiveNftMsg} `{!JsonCodecLaws ReceiveNftMsg}
    `{JsonCodec Cw721ExecuteMsg} `{!JsonCodecLaws Cw721ExecuteMsg}
    `{JsonCodec Cw721QueryMsg} `{JsonCodec OwnerOfResponse} `{CwOwnable} `{CwOwnableDebug}
    q name version msg r0 s0 (s : storage DropLiquidUnstaker.LibraryConfig DropLiquidUnstaker.Config ()) :
  instantiate q name version msg (empty_storage ()) = Ok (r0, s0) → rtc unstaker_step s0 s →
  ∃ voucher, addr_validate (DropLiquidUnstaker.raw_voucher_addr (li_config msg)) = Ok voucher ∧
  ∃ c raw, s_config s = Some c ∧ s_raw_library_config s = Some raw ∧
    DropLiquidUnstaker.voucher_addr c = voucher ∧
    (∀ q1 env1 info1 u r1 s1,
      lib_execute unstaker_lib q1 env1 info1 (UpdateConfig u) s = Ok (r1, s1) →
      (DropLiquidUnstaker.voucher_addr <$> s_config s1) = Some voucher ∧
      (DropLiquidUnstaker.raw_voucher_addr <$> s_raw_library_config s1) =
        Some (default (DropLiquidUnstaker.raw_voucher_addr raw) (DropLiquidUnstaker.upd_voucher_addr u))) ∧
    (∀ q1 env1 info1 token_id r1 s1,
      lib_execute unstaker_lib q1 env1 info1 (ProcessFunction (DropLiquidUnstaker.Withdraw token_id)) s = Ok (r1, s1) →
      ∃ hook m, calls voucher (SendNft (DropLiquidUnstaker.withdrawal_manager_addr c) token_id hook) [] m ∧
        relays (DropLiquidUnstaker.input_addr c) [m] r1).
Proof.
  intros Hi Hs. pose proof Hi as (c0 & Hv & Hc0 & Hraw0 & _)%lib_instantiate_ok.
  apply bind_result_ok in Hv as ([[[[i o] l] v] w] & Hv & Hc). injection Hc as <-.
  assert (addr_validate (DropLiquidUnstaker.raw_voucher_addr (li_config msg)) = Ok v) as Hvoucher.
  { unfold DropLiquidUnstaker.do_validate in Hv. do 3 (apply bind_result_ok in Hv as (? & _ & Hv)).
    apply bind_result_ok in Hv as (? & Hv1%try_ok & (? & _ & [=])%bind_result_ok). by subst. }
  exists v. split; [done|].
  assert (DropLiquidUnstaker.voucher_addr <$> s_config s = Some v ∧ is_Some (s_raw_library_config s)) as [Hvs [raw Hraw]].
  { clear Hi. revert Hc0 Hraw0. generalize (li_config msg). intros raw0 Hc0 Hraw0.
    assert (DropLiquidUnstaker.voucher_addr <$> s_config s0 = Some v) as Hv0 by (by rewrite Hc0).
    assert (is_Some (s_raw_library_config s0)) as Hr0 by eauto. clear Hc0 Hraw0. revert Hv0 Hr0.
    induction Hs as [x|x y z Hxy _ IH]; [done|]. intros Hv0 Hr0. apply IH.
    - by rewrite (unstaker_step_voucher _ _ Hxy).
    - by apply (unstaker_step_raw x y). }
  destruct (s_config s) as [c|] eqn:Hc; [|done]. injection Hvs as Hvs.
  exists c, raw. split_and!; try done.
  - intros q1 env1 info1 u r1 s1 He. split.
    + rewrite (unstaker_step_voucher s s1); [by rewrite Hc; simpl; rewrite Hvs|]. by repeat eexists.
    + apply unstaker_update_raw_ok in He as (raw1 & Hraw1 & ->). simplify_eq. simpl. by destruct u as [? ? ? ? [] ?].
  - intros q1 env1 info1 token_id r1 s1 (c1 & Hc1 & _ & _ & hook & m & _ & Hm & Hr)%unstaker_functions.
    rewrite Hc in Hc1. simplify_eq. by exists hook, m.
Qed.

(** ** An update of the voucher contract *)
#[global] Instance LiquidStakerExecuteMsg_eq_dec : EqDecision LiquidStakerExecuteMsg. Proof. solve_decision. Defined.
#[global] Instance LiquidStakerExecuteMsg_countable : Countable LiquidStakerExecuteMsg.
Proof.
  by_iso (λ x, match x with
    | Bond a0 a1 => (inl (a0, a1))
    | Unbond => (inr ()) end)
    (λ y, match y with
    | (inl (a0, a1)) => Bond a0 a1
    | (inr _) => Unbond end).
Defined.
#[global] Instance ReceiveNftMsg_eq_dec : EqDecision ReceiveNftMsg. Proof. solve_decision. Defined.
#[global] Instance ReceiveNftMsg_countable : Countable ReceiveNftMsg.
Proof. by_iso (λ '(NftWithdraw a0), a0) (λ a0, NftWithdraw a0). Defined.
#[global] Instance Cw721ExecuteMsg_eq_dec : EqDecision Cw721ExecuteMsg. Proof. solve_decision. Defined.
#[global] Instance Cw721ExecuteMsg_countable : Countable Cw721ExecuteMsg.
Proof. by_iso (λ '(SendNft a0 a1 a2), (a0, a1, a2)) (λ '(a0, a1, a2), SendNft a0 a1 a2). Defined.
#[global] Instance Cw721QueryMsg_eq_dec : EqDecision Cw721QueryMsg. Proof. solve_decision. Defined.
#[global] Instance Cw721QueryMsg_countable : Countable Cw721QueryMsg.
Proof. by_iso (λ '(OwnerOf a0 a1), (a0, a1)) (λ '(a0, a1), OwnerOf a0 a1). Defined.
#[global] Instance OwnerOfResponse_eq_dec : EqDecision OwnerOfResponse. Proof. solve_decision. Defined.
#[global] Instance OwnerOfResponse_countable : Countable OwnerOfResponse.
Proof. by_iso (λ '(mkOwnerOfResponse a0), a0) (λ a0, mkOwnerOfResponse a0). Defined.
#[global] Instance MaxBtcExecuteMsg_eq_dec : EqDecision MaxBtcExecuteMsg. Proof. solve_decision. Defined.
#[global] Instance MaxBtcExecuteMsg_countable : Countable MaxBtcExecuteMsg.
Proof. by_iso (λ '(MaxBtcDeposit a0), a0) (λ a0, MaxBtcDeposit a0). Defined.
Abbreviation UnstakerSt := (storage DropLiquidUnstaker.LibraryConfig DropLiquidUnstaker.Config ()).
Definition sample_unstaker_msg : LibInstantiateMsg DropLiquidUnstaker.LibraryConfig :=
  mkLibInstantiateMsg "owner" "processor" (DropLiquidUnstaker.mkLibraryConfig (LibAddr "input") (LibAddr "output")
    "drop" "manager" "voucher-a" "dntrn").
Definition sample_unstaker_init : Exec UnstakerSt LibraryError Response :=
  instantiate (ref_lib_querier 100) "unstaker" "1" sample_unstaker_msg.
Definition sample_unstaker_update : Exec UnstakerSt LibraryError Response :=
  lib_execute unstaker_lib (ref_lib_querier 100) (mkEnv (mkBlock 1 1) "library") (mkInfo "owner" [])
    (UpdateConfig (DropLiquidUnstaker.mkLibraryConfigUpdate None None None None (Some "voucher-b") None)).
Definition sample_unstaker : UnstakerSt := after sample_unstaker_init (empty_storage ()).
Definition sample_unstaker_updated : UnstakerSt := after sample_unstaker_update sample_unstaker.
Lemma unstaker_voucher_never_updated_witness :
  ∃ c raw, s_config sample_unstaker_updated = Some c ∧ s_raw_library_config sample_unstaker_updated = Some raw ∧
    DropLiquidUnstaker.voucher_addr c = "voucher-a" ∧ DropLiquidUnstaker.raw_voucher_addr raw = "voucher-b".
Proof.
  destruct (after_ok sample_unstaker_init (empty_storage ())) as [r0 Hi]; [by vm_compute|].
  destruct (after_ok sample_unstaker_update sample_unstaker) as [r1 Hu]; [by vm_compute|].
  destruct (unstaker_voucher_never_updated (ref_lib_querier 100) "unstaker" "1" sample_unstaker_msg r0
    sample_unstaker sample_unstaker Hi) as (v & Hv & c & raw & Hc & Hraw & _ & Hup & _); [apply rtc_refl|].
  injection Hv as <-. destruct (Hup _ _ _ _ _ _ Hu) as [H1 H2].
  change (after sample_unstaker_update sample_unstaker) with sample_unstaker_updated in *.
  destruct (s_config sample_unstaker_updated) as [c1|]; [|discriminate H1].
  destruct (s_raw_library_config sample_unstaker_updated) as [raw1|]; [|discriminate H2].
  injection H1 as H1. injection H2 as H2. exists c1, raw1. split_and!; [reflexivity|reflexivity|exact H1|exact H2].
Defined.
