(* ===== verification/VaultsTheorems.v ===== *)
(** * The vault libraries: what is provided, withdrawn and passed on *)
From Stdlib Require Import Strings.Byte.
From S2P Require Import Prelude Platform Types Format Accounts InterchainAccount Protocols LibraryBase.
From S2P Require Import LibraryProofs Vaults Codec LibraryCodec.
Import Library.

Section Magma.
Context `{CPl : Platform} `{CJs : JsonCodec AccountExecuteMsg} `{!JsonCodecLaws AccountExecuteMsg}.
Context `{CMa : JsonCodec MagmaExecuteMsg} `{!JsonCodecLaws MagmaExecuteMsg}.
Context `{CMq : JsonCodec MagmaQueryMsg} `{CMr : JsonCodec MagmaBalanceResponse}.
Context `{COw : CwOwnable} `{CDb : CwOwnableDebug}.
Definition magma_lper_lib :
    LibraryFns MagmaLper.LibraryConfig MagmaLper.Config () MagmaLper.FunctionMsgs MagmaLper.LibraryConfigUpdate :=
  mkLibraryFns MagmaLper.process_function MagmaLper.update_config.
#[global] Instance magma_lper_process_ro q env info f c : ReadOnly (MagmaLper.process_function q env info f c).
Proof. unfold MagmaLper.process_function. destruct f; apply _. Qed.
#[global] Instance magma_lper_laws : LibraryLaws magma_lper_lib (λ _, True) eq (λ _, True).
Proof. by apply (simple_library_laws _ _ _ MagmaLper.update_fields); [|apply _|..]. Qed.
Definition magma_withdrawer_lib : LibraryFns MagmaWithdrawer.LibraryConfig MagmaWithdrawer.Config ()
    MagmaWithdrawer.FunctionMsgs MagmaWithdrawer.LibraryConfigUpdate :=
  mkLibraryFns MagmaWithdrawer.process_function MagmaWithdrawer.update_config.
#[global] Instance magma_withdrawer_process_ro q env info f c :
  ReadOnly (MagmaWithdrawer.process_function q env info f c).
Proof. unfold MagmaWithdrawer.process_function. destruct f; apply _. Qed.
#[global] Instance magma_withdrawer_laws : LibraryLaws magma_withdrawer_lib (λ _, True) eq (λ _, True).
Proof. by apply (simple_library_laws _ _ _ MagmaWithdrawer.update_fields); [|apply _|..]. Qed.

(** Both balances are deposited, and the shares minted to the output account. *)
Theorem magma_deposits_everything (s : storage MagmaLper.LibraryConfig MagmaLper.Config ()) q env info min0 min1 r s' :
  lib_execute magma_lper_lib q env info (ProcessFunction (MagmaLper.ProvideLiquidity min0 min1)) s = Ok (r, s') →
  ∃ c b0 b1 m, s_config s = Some c ∧ s' = s ∧
    let data := MagmaLper.asset_data (MagmaLper.lp_config c) in
    q_bank_balance q (MagmaLper.input_addr c) (asset1 data) = Ok b0 ∧
    q_bank_balance q (MagmaLper.input_addr c) (asset2 data) = Ok b1 ∧
    calls (MagmaLper.vault_addr (MagmaLper.lp_config c))
      (MagmaDeposit (mkDepositMsg (default "0" min0) (default "0" min1) (MagmaLper.output_addr c)))
      [mkCoin (asset1 data) b0; mkCoin (asset2 data) b1] m ∧
    relays (MagmaLper.input_addr c) [m] r.
Proof.
  intros (c & _ & Hc & [Hf ->]%of_result_ok)%lib_execute_process. cbn [MagmaLper.process_function] in Hf.
  apply bind_result_ok in Hf as (b0 & Hb0%try_ok & (b1 & Hb1%try_ok & Hf)%bind_result_ok).
  apply bind_result_ok in Hf as (m & Hm%wasm_execute_ok & (m2 & Hm2%try_ok & [= <-])%bind_result_ok).
  exists c, b0, b1, m. cbv zeta. split_and!; try done. by exists m2.
Qed.
(** All shares of the input account, which has some, are withdrawn to the output account. *)
Theorem magma_withdraws_everything (s : storage MagmaWithdrawer.LibraryConfig MagmaWithdrawer.Config ())
    q env info min0 min1 r s' :
  lib_execute magma_withdrawer_lib q env info (ProcessFunction (MagmaWithdrawer.WithdrawLiquidity min0 min1)) s =
    Ok (r, s') →
  ∃ c shares m, s_config s = Some c ∧ s' = s ∧
    query_wasm_smart (q_protocols q) (MagmaWithdrawer.vault_addr c) (MagmaBalance (MagmaWithdrawer.input_addr c)) =
      Ok (mkMagmaBalanceResponse shares) ∧ shares ≠ "0" ∧
    calls (MagmaWithdrawer.vault_addr c) (MagmaWithdraw (mkWithdrawMsg shares (default "0" min0) (default "0" min1)
      (MagmaWithdrawer.output_addr c))) [] m ∧
    relays (MagmaWithdrawer.input_addr c) [m] r.
Proof.
  intros (c & _ & Hc & [Hf ->]%of_result_ok)%lib_execute_process.
  apply bind_result_ok in Hf as ([shares] & Hs%try_ok & (u & Hz%ensure_r_ok & Hf)%bind_result_ok).
  apply negb_true_iff, bool_decide_eq_false_1 in Hz.
  apply bind_result_ok in Hf as (m & Hm%wasm_execute_ok & (m2 & Hm2%try_ok & [= <-])%bind_result_ok).
  exists c, shares, m. split_and!; try done. by exists m2.
Qed.
End Magma.

Section Supervaults.
Context `{CPl : Platform} `{CPd : PrecDecText} `{CJs : JsonCodec AccountExecuteMsg} `{!JsonCodecLaws AccountExecuteMsg}.
Context `{CMe : JsonCodec MmvaultExecuteMsg} `{!JsonCodecLaws MmvaultExecuteMsg}.
Context `{CMq : JsonCodec MmvaultQueryMsg} `{CMc : JsonCodec MmvaultConfig} `{CMp : JsonCodec CombinedPriceResponse}.
Context `{CNn : JsonCodec N} `{CNp : JsonCodec (N * N)}.

(** The price is in the range, which is open above. *)
Definition price_within (q : LibQuerier) (vault : string) (expected : option PrecDecimalRange) : Prop :=
  ∀ g, expected = Some g → ∃ p, query_vault_price q vault = Ok p ∧ (prec_min g ≤ p < prec_max g)%N.
Lemma price_contained_ok g p : ensure_contains g p = Ok () ↔ (prec_min g ≤ p < prec_max g)%N.
Proof. unfold ensure_contains. by rewrite ensure_r_ok, andb_true_iff, N.leb_le, N.ltb_lt. Qed.
Lemma check_price_ok q vault expected : check_price q vault expected = Ok () ↔ price_within q vault expected.
Proof.
  unfold price_within. destruct expected as [g|]; simpl; [|by split; [intros _ ?|]]. rewrite bind_result_iff.
  split; [intros (p & Hp & Hg%price_contained_ok) ? [= <-]; eauto|].
  intros Hw. destruct (Hw g eq_refl) as (p & Hp & Hg). exists p. split; [done|by apply price_contained_ok].
Qed.
(** The largest price of a range is refused, although the error shows a closed range. *)
Theorem upper_price_refused q vault g :
  query_vault_price q vault = Ok (prec_max g) →
  PrecDecimalRange_fmt g =
    ("[" +:+ precdec_to_string (prec_min g) +:+ ", " +:+ precdec_to_string (prec_max g) +:+ "]")%string ∧
  check_price q vault (Some g) = Err (ExecutionError ("expected range: " +:+ PrecDecimalRange_fmt g +:+ ", got: " +:+
    precdec_to_string (prec_max g))%string).
Proof.
  intros Hp. split; [done|]. unfold check_price. rewrite Hp. cbn [mbind result_bind]. unfold ensure_contains.
  by rewrite N.ltb_irrefl, andb_false_r.
Qed.

Context `{COw : CwOwnable} `{CDb : CwOwnableDebug}.
Definition supervaults_lper_lib : LibraryFns SupervaultsLper.LibraryConfig SupervaultsLper.Config ()
    SupervaultsLper.FunctionMsgs SupervaultsLper.LibraryConfigUpdate :=
  mkLibraryFns SupervaultsLper.process_function SupervaultsLper.update_config.
#[global] Instance supervaults_lper_process_ro q env info f c :
  ReadOnly (SupervaultsLper.process_function q env info f c).
Proof. unfold SupervaultsLper.process_function. destruct f; apply _. Qed.
#[global] Instance supervaults_lper_laws : LibraryLaws supervaults_lper_lib (λ _, True) eq (λ _, True).
Proof. by apply (simple_library_laws _ _ _ SupervaultsLper.update_fields); [|apply _|..]. Qed.
Definition supervaults_withdrawer_lib : LibraryFns SupervaultsWithdrawer.LibraryConfig SupervaultsWithdrawer.Config ()
    SupervaultsWithdrawer.FunctionMsgs SupervaultsWithdrawer.LibraryConfigUpdate :=
  mkLibraryFns SupervaultsWithdrawer.process_function SupervaultsWithdrawer.update_config.
#[global] Instance supervaults_withdrawer_process_ro q env info f c :
  ReadOnly (SupervaultsWithdrawer.process_function q env info f c).
Proof. unfold SupervaultsWithdrawer.process_function. destruct f; apply _. Qed.
#[global] Instance supervaults_withdrawer_laws : LibraryLaws supervaults_withdrawer_lib (λ _, True) eq (λ _, True).
Proof. by apply (simple_library_laws _ _ _ SupervaultsWithdrawer.update_fields); [|apply _|..]. Qed.

(** The coins that are not zero, of two. *)
Definition nonzero (coins : list Coin) : list Coin := filter (λ c, coin_amount c ≠ 0%N) coins.
Lemma nonzero_nil d1 d2 b1 b2 : nonzero [mkCoin d1 b1; mkCoin d2 b2] = [] ↔ b1 = 0%N ∧ b2 = 0%N.
Proof.
  unfold nonzero. rewrite !filter_cons. simpl. repeat case_decide; naive_solver.
Qed.
Lemma withdrawn_assets_nonzero d1 d2 b1 b2 :
  SupervaultsWithdrawer.withdrawn_assets [(b1, d1); (b2, d2)] = nonzero [mkCoin d1 b1; mkCoin d2 b2].
Proof.
  unfold SupervaultsWithdrawer.withdrawn_assets, nonzero. simpl. rewrite !filter_cons. simpl.
  destruct (N.eqb_spec b1 0), (N.eqb_spec b2 0); repeat case_decide; done.
Qed.
(** The balances that are not zero, at least one, are deposited, at a price in the expected
    range; the shares the vault simulates for them go to the output account. *)
Theorem supervaults_provision (s : storage SupervaultsLper.LibraryConfig SupervaultsLper.Config ())
    q env info expected c b1 b2 r s' :
  s_config s = Some c →
  let data := SupervaultsLper.asset_data (SupervaultsLper.lp_config c) in
  let input := SupervaultsLper.input_addr c in
  let vault := SupervaultsLper.vault_addr c in
  q_bank_balance q input (asset1 data) = Ok b1 → q_bank_balance q input (asset2 data) = Ok b2 →
  lib_execute supervaults_lper_lib q env info (ProcessFunction (SupervaultsLper.ProvideLiquidity expected)) s = Ok (r, s') →
  s' = s ∧ (b1 ≠ 0%N ∨ b2 ≠ 0%N) ∧ price_within q vault expected ∧
  ∃ shares m, query_simulate_provide_liquidity q vault input b1 b2 = Ok shares ∧
    calls vault MmvaultDeposit (nonzero [mkCoin (asset1 data) b1; mkCoin (asset2 data) b2]) m ∧
    relays input [m; CosmosBankSend (SupervaultsLper.output_addr c)
      [mkCoin (SupervaultsLper.lp_denom (SupervaultsLper.lp_config c)) shares]] r.
Proof.
  intros Hc data input vault Hb1 Hb2 (c0 & _ & Hc0 & [Hf ->]%of_result_ok)%lib_execute_process. simplify_eq.
  split; [done|]. cbn [SupervaultsLper.process_function] in Hf. unfold SupervaultsLper.try_provide_liquidity in Hf.
  cbv zeta in Hf. fold data input vault in Hf. rewrite Hb1, Hb2 in Hf. cbn [mbind result_bind try_ map_err_r] in Hf.
  apply bind_result_ok in Hf as (u & Hz%ensure_r_ok & (u2 & Hp & Hf)%bind_result_ok). destruct u2.
  apply negb_true_iff, bool_decide_eq_false_1 in Hz. apply bind_result_ok in Hf as (m & Hm%wasm_execute_ok & Hf).
  apply bind_result_ok in Hf as (n & Hn & (m2 & Hm2%try_ok & [= <-])%bind_result_ok).
  split. { destruct (decide (b1 = 0%N)), (decide (b2 = 0%N)); [|auto..]. destruct Hz. by apply nonzero_nil. }
  split; [by apply check_price_ok|]. exists n, m. split_and!; try done. by exists m2.
Qed.
(** All shares are withdrawn, at a price in the expected range; the assets the vault
    simulates for them that are not zero, at least one, go to the output account. *)
Theorem supervaults_withdrawal (s : storage SupervaultsWithdrawer.LibraryConfig SupervaultsWithdrawer.Config ())
    q env info expected r s' :
  lib_execute supervaults_withdrawer_lib q env info
    (ProcessFunction (SupervaultsWithdrawer.WithdrawLiquidity expected)) s = Ok (r, s') →
  ∃ c b a1 a2 m, s_config s = Some c ∧ s' = s ∧
    let cfg := SupervaultsWithdrawer.lw_config c in
    let data := SupervaultsWithdrawer.asset_data cfg in
    let input := SupervaultsWithdrawer.input_addr c in
    let vault := SupervaultsWithdrawer.vault_addr c in
    q_bank_balance q input (SupervaultsWithdrawer.lp_denom cfg) = Ok b ∧ b ≠ 0%N ∧ price_within q vault expected ∧
    query_simulate_withdraw_liquidity q vault b = Ok (a1, a2) ∧ (a1 ≠ 0%N ∨ a2 ≠ 0%N) ∧
    calls vault (MmvaultWithdraw b) [mkCoin (SupervaultsWithdrawer.lp_denom cfg) b] m ∧
    relays input [m; CosmosBankSend (SupervaultsWithdrawer.output_addr c)
      (nonzero [mkCoin (asset1 data) a1; mkCoin (asset2 data) a2])] r.
Proof.
  intros (c & _ & Hc & [Hf ->]%of_result_ok)%lib_execute_process.
  apply bind_result_ok in Hf as (b & Hb%try_ok & (u & Hz%ensure_r_ok & Hf)%bind_result_ok).
  apply negb_true_iff, N.eqb_neq in Hz. apply bind_result_ok in Hf as ([] & Hp & Hf).
  apply bind_result_ok in Hf as (m & Hm%wasm_execute_ok & ([a1 a2] & Hs & Hf)%bind_result_ok).
  rewrite withdrawn_assets_nonzero in Hf. apply bind_result_ok in Hf as (u2 & Hn%ensure_r_ok & Hf).
  apply negb_true_iff, bool_decide_eq_false_1 in Hn. apply bind_result_ok in Hf as (m2 & Hm2%try_ok & [= <-]).
  exists c, b, a1, a2, m. cbv zeta. split_and!; try done.
  - by apply check_price_ok.
  - destruct (decide (a1 = 0%N)), (decide (a2 = 0%N)); [|auto..]. destruct Hn. by apply nonzero_nil.
  - by exists m2.
Qed.
End Supervaults.
