(* ===== verification/DualityTheorems.v ===== *)
(** * The Duality libraries: what is deposited, withdrawn and passed on *)
From Stdlib Require Import Strings.Byte.
From S2P Require Import Prelude Platform Types Format Accounts InterchainAccount Protocols LibraryBase.
From S2P Require Import LibraryProofs Duality AccountsTheorems Codec LibraryCodec.
Import Library.

(** A delegated message: its account is asked to run [m], and replies with [x]. *)
Lemma delegate_ok `{CPl : Platform} `{JsonCodec AccountExecuteMsg} `{!JsonCodecLaws AccountExecuteMsg}
    `{JsonText ValenceCallback} `{!JsonTextLaws ValenceCallback} `{CwOwnable} `{CwOwnableDebug}
    {T} `{JsonText T} `{!JsonTextLaws T} (x : T) m id library account (k : CosmosMsg → Response) r env a :
  (∀ d, resp_messages (k d) = [SubMsg_reply_on_success d id]) →
  (payload ← try_ (to_json_string x);
   d ← try_ (execute_submsgs_on_behalf_of [SubMsg_reply_on_success m id] (Some payload) account);
   Ok (k d) : result LibraryError Response) = Ok r →
  library ∈ approved a →
  ∃ d, resp_messages r = [SubMsg_reply_on_success d id] ∧
    relayed library account env a (SubMsg_reply_on_success m id) x d.
Proof.
  intros Hk (p & Hp%try_ok & (d & Hd%try_ok & [= <-])%bind_result_ok)%bind_result_ok Ha.
  exists d. split; [done|]. by eapply delegate_relayed.
Qed.

Section Lper.
Import DualityLper.
Context `{CPl : Platform} `{CDe : CwDenom} `{CJs : JsonCodec AccountExecuteMsg} `{!JsonCodecLaws AccountExecuteMsg}.
Context `{CDu : JsonCodec DualityExecuteMsg} `{!JsonCodecLaws DualityExecuteMsg}.
Context `{CDq : JsonCodec DualityQueryMsg} `{CPc : JsonCodec PoolConfig}.
Context `{CCf : JsonText Config} `{!JsonTextLaws Config} `{CCb : JsonText ValenceCallback} `{!JsonTextLaws ValenceCallback}.
Context `{COw : CwOwnable} `{CDb : CwOwnableDebug}.
Definition duality_lper_lib : LibraryFns LibraryConfig Config () FunctionMsgs LibraryConfigUpdate :=
  mkLibraryFns process_function update_config.
#[global] Instance duality_lper_process_ro q env info f c : ReadOnly (process_function q env info f c).
Proof. unfold process_function. destruct f; apply _. Qed.
#[global] Instance duality_lper_laws : LibraryLaws duality_lper_lib (λ _, True) eq (λ _, True).
Proof. by apply (simple_library_laws _ _ _ update_fields); [|apply _|..]. Qed.

Lemma send_shares_total q c pc b :
  query_pool_config q (pool_addr (lp_config c)) = Ok pc →
  q_bank_balance q (input_addr c) (pool_lp_denom pc) = Ok b → b ≠ 0%N →
  ∃ r, send_shares q c = Ok r ∧
    relays (input_addr c) [CosmosBankSend (output_addr c) [mkCoin (pool_lp_denom pc) b]] r.
Proof.
  intros Hpc Hb Hz%N.eqb_neq. unfold send_shares. rewrite Hpc. cbn [mbind result_bind]. rewrite Hb.
  cbn [mbind result_bind try_ map_err_r]. rewrite Hz. cbn [mbind result_bind ensure_r negb].
  match goal with |- context [execute_on_behalf_of ?l ?i] => destruct (execute_on_behalf_total l i) as [m Hm] end.
  rewrite Hm. eexists. split; [done|]. by exists m.
Qed.
(** Both balances are deposited, and the shares the input account then holds are sent to
    the output account of the configuration the call was made with. *)
Theorem duality_deposit_delivered (s : storage LibraryConfig Config ()) q env info r s' (a : BaseAccount.storage) env_a :
  lib_execute duality_lper_lib q env info (ProcessFunction ProvideLiquidity) s = Ok (r, s') →
  env_contract env ∈ approved a →
  ∃ c b1 b2 m d, s_config s = Some c ∧ s' = s ∧
    let data := asset_data (lp_config c) in
    q_bank_balance q (input_addr c) (asset1 data) = Ok b1 ∧ q_bank_balance q (input_addr c) (asset2 data) = Ok b2 ∧
    calls (pool_addr (lp_config c)) DualityDeposit [mkCoin (asset1 data) b1; mkCoin (asset2 data) b2] m ∧
    resp_messages r = [SubMsg_reply_on_success d DEPOSIT_REPLY_ID] ∧
    relayed (env_contract env) (input_addr c) env_a a (SubMsg_reply_on_success m DEPOSIT_REPLY_ID) c d ∧
    ∀ q2 env2 s2 hr pc b, host_reply_id hr = DEPOSIT_REPLY_ID →
      parse_valence_payload (host_reply_result hr) = Ok c →
      query_pool_config q2 (pool_addr (lp_config c)) = Ok pc →
      q_bank_balance q2 (input_addr c) (pool_lp_denom pc) = Ok b → b ≠ 0%N →
      ∃ r2, reply q2 env2 hr s2 = Ok (r2, s2) ∧
        relays (input_addr c) [CosmosBankSend (output_addr c) [mkCoin (pool_lp_denom pc) b]] r2.
Proof.
  intros (c & _ & Hc & [Hf ->]%of_result_ok)%lib_execute_process Ha.
  apply bind_result_ok in Hf as (b1 & Hb1%try_ok & (b2 & Hb2%try_ok & Hf)%bind_result_ok).
  apply bind_result_ok in Hf as (m & Hm%wasm_execute_ok & Hf).
  eapply (delegate_ok _ _ _ _ _ (λ d, _)) in Hf as (d & Hr & Hd); [|done|exact Ha].
  exists c, b1, b2, m, d. do 2 (split; [done|]). cbv zeta. split_and!; try done.
  intros q2 env2 s2 hr pc b Hid Hpay Hpc Hb Hz. destruct (send_shares_total _ _ _ _ Hpc Hb Hz) as (r2 & Hr2 & Hs).
  exists r2. split; [|done]. unfold reply. rewrite Hid, N.eqb_refl, Hpay. cbn [mbind result_bind try_ map_err_r].
  by rewrite Hr2.
Qed.
End Lper.

Section Withdrawer.
Import DualityWithdrawer.
Context `{CPl : Platform} `{CDe : CwDenom} `{CJs : JsonCodec AccountExecuteMsg} `{!JsonCodecLaws AccountExecuteMsg}.
Context `{CDu : JsonCodec DualityExecuteMsg} `{!JsonCodecLaws DualityExecuteMsg}.
Context `{CDq : JsonCodec DualityQueryMsg} `{CPc : JsonCodec PoolConfig}.
Context `{CCf : JsonText Config} `{!JsonTextLaws Config}.
Definition duality_withdrawer_lib : LibraryFns LibraryConfig Config () FunctionMsgs LibraryConfigUpdate :=
  mkLibraryFns process_function update_config.
#[global] Instance duality_withdrawer_process_ro q env info f c : ReadOnly (process_function q env info f c).
Proof. unfold process_function. destruct f; apply _. Qed.
#[global] Instance duality_withdrawer_laws : LibraryLaws duality_withdrawer_lib (λ _, True) eq (λ _, True).
Proof. by apply (simple_library_laws _ _ _ update_fields); [|apply _|..]. Qed.

Lemma withdrawal_amount_ok amount b n :
  b ≠ 0%N → withdrawal_amount amount b = Ok n ↔ n = default b amount ∧ (0 < default b amount ≤ b)%N.
Proof.
  intros Hb. unfold withdrawal_amount. destruct amount as [n'|]; simpl; [|naive_solver lia].
  destruct (N.ltb_spec b n'), (N.eqb_spec n' 0); simpl; naive_solver lia.
Qed.
Lemma send_withdrawn_total q c pc b1 b2 :
  let d1 := token_denom (token_0 (pair_data pc)) in
  let d2 := token_denom (token_1 (pair_data pc)) in
  query_pool_config q (pool_addr c) = Ok pc →
  q_bank_balance q (input_addr c) d1 = Ok b1 → q_bank_balance q (input_addr c) d2 = Ok b2 →
  b1 ≠ 0%N ∨ b2 ≠ 0%N →
  ∃ r, send_withdrawn q c = Ok r ∧
    relays (input_addr c) [CosmosBankSend (output_addr c) [mkCoin d1 b1; mkCoin d2 b2]] r.
Proof.
  intros d1 d2 Hpc Hb1 Hb2 Hz. unfold send_withdrawn. rewrite Hpc. cbn [mbind result_bind]. unfold d1, d2 in *.
  rewrite Hb1. cbn [mbind result_bind try_ map_err_r]. rewrite Hb2. cbn [mbind result_bind try_ map_err_r].
  assert (negb ((b1 =? 0)%N && (b2 =? 0)%N) = true) as -> by (destruct (N.eqb_spec b1 0), (N.eqb_spec b2 0); naive_solver).
  cbn [mbind result_bind ensure_r].
  match goal with |- context [execute_on_behalf_of ?l ?i] => destruct (execute_on_behalf_total l i) as [m Hm] end.
  rewrite Hm. eexists. split; [done|]. by exists m.
Qed.
(** A withdrawal once the shares are known. *)
Lemma withdraw_liquidity_ok q c pc b amount r :
  query_pool_config q (pool_addr c) = Ok pc → q_bank_balance q (input_addr c) (pool_lp_denom pc) = Ok b →
  withdraw_liquidity q c amount = Ok r →
  let n := default b amount in (0 < n ≤ b)%N ∧
  ∃ m, calls (pool_addr c) (DualityWithdraw n) [mkCoin (pool_lp_denom pc) n] m ∧
    (payload ← try_ (to_json_string c);
     d ← try_ (execute_submsgs_on_behalf_of [SubMsg_reply_on_success m WITHDRAW_REPLY_ID] (Some payload) (input_addr c));
     Ok (add_attribute "method" "withdraw" (add_submessages [SubMsg_reply_on_success d WITHDRAW_REPLY_ID] Response_new))
       : result LibraryError Response) = Ok r.
Proof.
  intros Hpc Hb. unfold withdraw_liquidity. rewrite Hpc. cbn [mbind result_bind]. rewrite Hb.
  cbn [mbind result_bind try_ map_err_r].
  intros (u & Hz%ensure_r_ok & (n & Hn & Hf)%bind_result_ok)%bind_result_ok.
  apply negb_true_iff, N.eqb_neq in Hz. apply withdrawal_amount_ok in Hn as [-> Hn]; [|done]. split; [done|].
  apply bind_result_ok in Hf as (m & Hm%wasm_execute_ok & Hf). by exists m.
Qed.
Lemma withdraw_liquidity_total q c pc b amount :
  query_pool_config q (pool_addr c) = Ok pc → q_bank_balance q (input_addr c) (pool_lp_denom pc) = Ok b →
  (0 < default b amount ≤ b)%N → ∃ r, withdraw_liquidity q c amount = Ok r.
Proof.
  intros Hpc Hb Hn. unfold withdraw_liquidity. rewrite Hpc. cbn [mbind result_bind]. rewrite Hb.
  cbn [mbind result_bind try_ map_err_r]. assert (b ≠ 0%N) as Hz by lia.
  assert (withdrawal_amount amount b = Ok (default b amount)) as Ha by (by apply withdrawal_amount_ok).
  apply N.eqb_neq in Hz. rewrite Hz. cbn [mbind result_bind ensure_r negb]. rewrite Ha. cbn [mbind result_bind].
  match goal with |- context [wasm_execute ?x ?y ?z] => destruct (wasm_execute_total x y z) as (m & -> & _) end.
  cbn [mbind result_bind]. destruct (to_json_string_total c) as [p ->]. cbn [mbind result_bind try_ map_err_r].
  unfold execute_submsgs_on_behalf_of.
  match goal with |- context [to_json_binary ?x] => destruct (to_json_total x) as [d ->] end. by eexists.
Qed.
End Withdrawer.

(** A withdrawal from Duality takes what was asked for and passes on what comes out.
    An accepted call leaves the state alone and finds a balance of shares; the pool is sent
    exactly the asked amount, more than zero and at most the balance, or the whole balance
    when no amount is given.  The input account, if it approved the library, runs the
    message, and finds in its reply, whatever the library's state has become meanwhile and
    whatever other events surround it, the configuration of the call: both assets the
    account then holds go to that configuration's output account.  And the processor's call
    is refused exactly when there are no shares or the amount is zero or too much. *)
Theorem duality_withdrawal_delivered
    `{Platform} `{CwDenom} `{JsonCodec AccountExecuteMsg} `{!JsonCodecLaws AccountExecuteMsg}
    `{JsonCodec DualityExecuteMsg} `{!JsonCodecLaws DualityExecuteMsg} `{JsonCodec DualityQueryMsg}
    `{JsonCodec PoolConfig} `{JsonText DualityWithdrawer.Config} `{!JsonTextLaws DualityWithdrawer.Config}
    `{JsonText ValenceCallback} `{!JsonTextLaws ValenceCallback} `{CwOwnable} `{CwOwnableDebug}
    (s : storage DualityWithdrawer.LibraryConfig DualityWithdrawer.Config ()) q env info amount c pc b
    (a : BaseAccount.storage) env_a :
  s_processor s = Some (info_sender info) → s_config s = Some c →
  query_pool_config q (DualityWithdrawer.pool_addr c) = Ok pc →
  let input := DualityWithdrawer.input_addr c in
  let id := DualityWithdrawer.WITHDRAW_REPLY_ID in
  let n := default b amount in
  q_bank_balance q input (pool_lp_denom pc) = Ok b →
  let tx := lib_execute duality_withdrawer_lib q env info
              (ProcessFunction (DualityWithdrawer.WithdrawLiquidity amount)) s in
  ((∃ r s', tx = Ok (r, s')) ↔ (0 < n ≤ b)%N) ∧
  ∀ r s', tx = Ok (r, s') → env_contract env ∈ approved a →
    s' = s ∧ ∃ m d,
      calls (DualityWithdrawer.pool_addr c) (DualityWithdraw n) [mkCoin (pool_lp_denom pc) n] m ∧
      resp_messages r = [SubMsg_reply_on_success d id] ∧
      relayed (env_contract env) input env_a a (SubMsg_reply_on_success m id) c d ∧
      ∀ q2 env2 s2 hr pc2 b1 b2,
        let d1 := token_denom (token_0 (pair_data pc2)) in
        let d2 := token_denom (token_1 (pair_data pc2)) in
        host_reply_id hr = id → parse_valence_payload (host_reply_result hr) = Ok c →
        query_pool_config q2 (DualityWithdrawer.pool_addr c) = Ok pc2 →
        q_bank_balance q2 input d1 = Ok b1 → q_bank_balance q2 input d2 = Ok b2 → b1 ≠ 0%N ∨ b2 ≠ 0%N →
        ∃ r2, DualityWithdrawer.reply q2 env2 hr s2 = Ok (r2, s2) ∧
          relays input [CosmosBankSend (DualityWithdrawer.output_addr c) [mkCoin d1 b1; mkCoin d2 b2]] r2.
Proof.
  intros Hp Hc Hpc input id n Hb tx.
  assert (∀ r s', tx = Ok (r, s') → s' = s ∧ DualityWithdrawer.withdraw_liquidity q c amount = Ok r) as Htx.
  { intros r s' (c0 & _ & Hc0 & [Hf ->]%of_result_ok)%lib_execute_process. by simplify_eq. }
  split; [split|].
  - intros (r & s' & [_ Hf]%Htx). by eapply withdraw_liquidity_ok in Hf as [Hn _].
  - intros Hn. destruct (withdraw_liquidity_total q c pc b amount Hpc Hb Hn) as [r Hr]. exists r, s.
    apply lib_execute_process. exists c. split_and!; [done|done|]. by apply of_result_ok.
  - intros r s' [-> Hf]%Htx Ha. split; [done|]. eapply withdraw_liquidity_ok in Hf as (_ & m & Hm & Hf); [|done..].
    eapply (delegate_ok _ _ _ _ _ (λ d, _)) in Hf as (d & Hr & Hd); [|done|exact Ha].
    exists m, d. split_and!; [done|done|exact Hd|].
    intros q2 env2 s2 hr pc2 b1 b2 d1 d2 Hid Hpay Hpc2 Hb1 Hb2 Hz.
    destruct (send_withdrawn_total q2 c pc2 b1 b2) as (r2 & Hr2 & Hs); [done..|].
    exists r2. split; [|done]. unfold DualityWithdrawer.reply. rewrite Hid, N.eqb_refl, Hpay.
    cbn [mbind result_bind try_ map_err_r]. by rewrite Hr2.
Qed.

(** ** Of 70 shares, 30 are withdrawn *)
#[global] Instance DualityExecuteMsg_eq_dec : EqDecision DualityExecuteMsg. Proof. solve_decision. Defined.
#[global] Instance DualityExecuteMsg_countable : Countable DualityExecuteMsg.
Proof.
  by_iso (λ x, match x with
    | DualityDeposit => (inl ())
    | DualityWithdraw a0 => (inr a0) end)
    (λ y, match y with
    | (inl _) => DualityDeposit
    | (inr a0) => DualityWithdraw a0 end).
Defined.
#[global] Instance TokenData_eq_dec : EqDecision TokenData. Proof. solve_decision. Defined.
#[global] Instance TokenData_countable : Countable TokenData.
Proof. by_iso (λ '(mkTokenData a0), a0) (λ a0, mkTokenData a0). Defined.
#[global] Instance PairData_eq_dec : EqDecision PairData. Proof. solve_decision. Defined.
#[global] Instance PairData_countable : Countable PairData.
Proof. by_iso (λ '(mkPairData a0 a1), (a0, a1)) (λ '(a0, a1), mkPairData a0 a1). Defined.
#[global] Instance PoolConfig_eq_dec : EqDecision PoolConfig. Proof. solve_decision. Defined.
#[global] Instance PoolConfig_countable : Countable PoolConfig.
Proof. by_iso (λ '(mkPoolConfig a0 a1), (a0, a1)) (λ '(a0, a1), mkPoolConfig a0 a1). Defined.
#[global] Instance DualityWithdrawerConfig_eq_dec : EqDecision DualityWithdrawer.Config. Proof. solve_decision. Defined.
#[global] Instance DualityWithdrawerConfig_countable : Countable DualityWithdrawer.Config.
Proof. by_iso (λ '(DualityWithdrawer.mkConfig a0 a1 a2), (a0, a1, a2)) (λ '(a0, a1, a2), DualityWithdrawer.mkConfig a0 a1 a2). Defined.
#[global] Instance DualityQueryMsg_eq_dec : EqDecision DualityQueryMsg. Proof. solve_decision. Defined.
#[global] Instance DualityQueryMsg_countable : Countable DualityQueryMsg.
Proof. by_iso (λ _, ()) (λ _, DualityGetConfig). Defined.
Definition sample_duality_pool : PoolConfig := mkPoolConfig "lp" (mkPairData (mkTokenData "untrn") (mkTokenData "uatom")).
Definition sample_duality_q : LibQuerier :=
  with_contracts (ref_lib_querier 70) (λ addr b, if bool_decide (addr = "pool")
    then (m ← from_json b; match m with DualityGetConfig => to_json_binary sample_duality_pool end) else no_answer).
Definition sample_duality_config : DualityWithdrawer.Config := DualityWithdrawer.mkConfig "input" "output" "pool".
Definition sample_duality : storage DualityWithdrawer.LibraryConfig DualityWithdrawer.Config () :=
  mkStorage (Some ("duality-withdrawer", "1")) None (Some "processor") None (Some sample_duality_config) ().
Definition sample_duality_account : BaseAccount.storage :=
  BaseAccount.mkStorage None (Some (mkOwnership (Some "admin") None None)) {["library" := ()]}.
Lemma duality_withdrawal_delivered_witness :
  ∃ r m d, lib_execute duality_withdrawer_lib sample_duality_q (mkEnv (mkBlock 1 1) "library") (mkInfo "processor" [])
      (ProcessFunction (DualityWithdrawer.WithdrawLiquidity (Some 30%N))) sample_duality = Ok (r, sample_duality) ∧
    calls "pool" (DualityWithdraw 30) [mkCoin "lp" 30] m ∧
    resp_messages r = [SubMsg_reply_on_success d DualityWithdrawer.WITHDRAW_REPLY_ID].
Proof.
  assert (query_pool_config sample_duality_q "pool" = Ok sample_duality_pool) as Hpool by (vm_compute; reflexivity).
  destruct (duality_withdrawal_delivered sample_duality sample_duality_q (mkEnv (mkBlock 1 1) "library")
    (mkInfo "processor" []) (Some 30%N) sample_duality_config sample_duality_pool 70 sample_duality_account
    (mkEnv (mkBlock 1 1) "input")) as [[_ Hiff] Hd]; [reflexivity|reflexivity|exact Hpool|reflexivity|].
  destruct Hiff as (r & s' & Hr); [by vm_compute|].
  destruct (Hd r s' Hr) as (Hs & m & d & Hm & Hmsg & _); [by apply (bool_decide_unpack _); vm_compute|].
  rewrite Hs in Hr. exists r, m, d. split_and!; [exact Hr|exact Hm|exact Hmsg].
Defined.
