(* ===== verification/VortexTheorems.v ===== *)
(** * The Vortex library: one contract, and the position it gets *)
From Stdlib Require Import Strings.Byte.
From S2P Require Import Prelude Platform Types Format Accounts InterchainAccount Protocols LibraryBase.
From S2P Require Import LibraryProofs Osmosis Vortex Codec LibraryCodec OsmosisTheorems.
Import Library VortexLper.

Section Vortex.
Context `{CPl : Platform} `{COs : OsmosisProto} `{CIr : InstantiateResponse}.
Context `{CJs : JsonCodec AccountExecuteMsg} `{!JsonCodecLaws AccountExecuteMsg}.
Context `{CVi : JsonCodec VortexInstantiateMsg} `{!JsonCodecLaws VortexInstantiateMsg}.
Context `{CVe : JsonCodec VortexExecuteMsg} `{!JsonCodecLaws VortexExecuteMsg}.
Context `{CVq : JsonCodec VortexQueryMsg} `{CVs : JsonCodec StateResponse}.
Context `{CRp : JsonCodec ReplyPayload} `{!JsonCodecLaws ReplyPayload}.
Context `{COw : CwOwnable} `{CDb : CwOwnableDebug}.

Definition vortex_lib : LibraryFns LibraryConfig Config (option string) FunctionMsgs LibraryConfigUpdate :=
  mkLibraryFns process_function update_config.
#[global] Instance vortex_process_ro q env info f c : ReadOnly (process_function q env info f c).
Proof. unfold process_function. destruct f; apply _. Qed.
#[global] Instance vortex_laws : LibraryLaws vortex_lib (λ _, True) eq (λ _, True).
Proof. by apply (simple_library_laws _ _ _ update_fields); [|apply _|..]. Qed.

(** ** Transactions

    Instantiating a contract is a sub-message whose reply is part of the same transaction;
    the second component lists the contracts that the library had instantiated. *)
Definition is_provision (msg : LibExecuteMsg FunctionMsgs LibraryConfigUpdate) : bool :=
  match msg with ProcessFunction (ProvideLiquidity _ _ _) => true | _ => false end.
Inductive vortex_step : St * list string → St * list string → Prop :=
| vortex_execute q env info msg r s s' made :
    is_provision msg = false → lib_execute vortex_lib q env info msg s = Ok (r, s') →
    vortex_step (s, made) (s', made)
| vortex_provide q env info range min0 min1 r sub q2 hr response addr r2 s s1 s2 made :
    lib_execute vortex_lib q env info (ProcessFunction (ProvideLiquidity range min0 min1)) s = Ok (r, s1) →
    resp_messages r = [sub] →
    host_reply_id hr = sub_id sub → host_reply_payload hr = sub_payload sub →
    host_reply_result hr = OutcomeOk response → new_contract (OutcomeOk response) = Ok addr →
    reply q2 env hr s1 = Ok (r2, s2) →
    vortex_step (s, made) (s2, made ++ [addr]).

Lemma provide_process q env info range min0 min1 c s r s' :
  process_function q env info (ProvideLiquidity range min0 min1) c s = Ok (r, s') →
  s_ext s = None ∧ s' = s ∧ provide_liquidity q c range min0 min1 = Ok r.
Proof.
  cbn [process_function]. intros He. run_inv.
  match goal with H : bool_decide _ = false |- _ => apply bool_decide_eq_false_1 in H; rename H into Hn end.
  destruct (s_ext _); [by destruct Hn|done].
Qed.
Lemma withdraw_process q env info c s r s' :
  process_function q env info WithdrawLiquidity c s = Ok (r, s') →
  ∃ addr, s_ext s = Some addr ∧ s' = s ∧ withdraw_liquidity q env c addr = Ok r.
Proof. cbn [process_function]. intros He. run_inv. by eexists. Qed.
Lemma vortex_reply_ok q env hr s r s' :
  reply q env hr s = Ok (r, s') →
  ∃ p addr, from_json (host_reply_payload hr) = Ok p ∧ new_contract (host_reply_result hr) = Ok addr ∧
    s' = lset EXT (Some addr) s ∧ create_position q (rp_config p) (rp_create_position_msg p) addr = Ok r.
Proof. unfold reply. case_match; [|done]. intros He. run_inv. by repeat eexists. Qed.
(** Only a provision touches the address. *)
Lemma execute_ext q env info msg s r s' : lib_execute vortex_lib q env info msg s = Ok (r, s') → s_ext s' = s_ext s.
Proof.
  destruct msg as [f|u|p|a]; intros He.
  - by apply lib_execute_process in He as (c & _ & _ & ->%read_only).
  - apply lib_execute_update in He as (raw & v & _ & _ & Hu & _). simpl in Hu.
    unfold update_config, load_config, save_config in Hu. by run_inv.
  - unfold lib_execute, execute in He. apply Exec_bind_ok in He as (? & s1 & Ho & He).
    apply read_only in Ho as ->. by run_inv.
  - unfold lib_execute, execute in He. by run_inv.
Qed.
Lemma vortex_step_made s made s' made' :
  vortex_step (s, made) (s', made') → made = option_list (s_ext s) → made' = option_list (s_ext s').
Proof.
  intros Hs. inversion Hs as [q env info msg r s0 s1 m Hm He|q env info range min0 min1 r sub q2 hr resp addr r2 s0 s1 s2 m
    He Hr Hid Hp Hres Hnew Hre]; subst; intros Hmade.
  - by rewrite (execute_ext _ _ _ _ _ _ _ He).
  - apply lib_execute_process in He as (c & _ & _ & (Hn & -> & _)%(provide_process q env info)).
    apply vortex_reply_ok in Hre as (p & a & _ & Ha & -> & _). rewrite Hres, Hnew in Ha. injection Ha as ->.
    rewrite Hmade, Hn. done.
Qed.
Lemma vortex_run_made s made s' made' :
  rtc vortex_step (s, made) (s', made') → made = option_list (s_ext s) → made' = option_list (s_ext s').
Proof.
  intros Hr. remember (s, made) as x eqn:Hx. remember (s', made') as y eqn:Hy. revert s made Hx s' made' Hy.
  induction Hr as [x|x [s1 m1] y Hs _ IH]; intros s made Hx s' made' Hy; subst; [by simplify_eq|].
  intros Hm. eapply IH; [done|done|]. by eapply vortex_step_made.
Qed.
(** Both coins, in some order. *)
Lemma sort_funds_perm l : sort_funds l ≡ₚ l.
Proof. apply merge_sort_Permutation. Qed.
Definition position_msg (range : TickRange) (min0 min1 : N) : CreatePositionMsg :=
  mkCreatePositionMsg (lower_tick range) (upper_tick range) min0 min1.
Lemma provide_liquidity_ok q c range min0 min1 r :
  provide_liquidity q c range min0 min1 = Ok r →
  (lower_tick range < upper_tick range)%Z ∧ ∃ body payload,
    from_json body = Ok (instantiate_msg c) ∧
    from_json payload = Ok (mkReplyPayload c (position_msg range min0 min1)) ∧
    resp_messages r = [with_payload payload (SubMsg_reply_on_success (CosmosWasm (WasmInstantiate None
      (vortex_code (lp_config c)) body [] (label (lp_config c)))) REPLY_ID_INSTANTIATE_VORTEX)].
Proof.
  intros (b & Hb%try_ok%from_to_json & (u & Hv & Hf)%bind_result_ok)%bind_result_ok.
  apply bind_result_ok in Hf as (pool & _ & (u2 & _ & Hf)%bind_result_ok).
  apply bind_result_ok in Hf as (p & Hp%try_ok%from_to_json & [= <-]). destruct u.
  apply ensure_r_ok, Z.ltb_lt in Hv. split; [done|]. by exists b, p.
Qed.
(** The position is created with everything the input account of [c] holds of both assets. *)
Definition creates_position (q : LibQuerier) (c : Config) (msg : CreatePositionMsg) (addr : string) (r : Response) : Prop :=
  let data := asset_data (lp_config c) in
  ∃ b0 b1 funds m, q_bank_balance q (input_addr c) (asset1 data) = Ok b0 ∧
    q_bank_balance q (input_addr c) (asset2 data) = Ok b1 ∧
    funds ≡ₚ [mkCoin (asset1 data) b0; mkCoin (asset2 data) b1] ∧
    calls addr (CreatePosition msg) funds m ∧ relays (input_addr c) [m] r.
Lemma create_position_ok q c msg addr r :
  create_position q c msg addr = Ok r → creates_position q c msg addr r.
Proof.
  intros (b0 & Hb0%try_ok & (b1 & Hb1%try_ok & Hf)%bind_result_ok)%bind_result_ok.
  apply bind_result_ok in Hf as (m & Hm%wasm_execute_ok & (m2 & Hm2%try_ok & [= <-])%bind_result_ok).
  eexists b0, b1, _, m. split_and!; [done|done| |exact Hm|by exists m2]. apply sort_funds_perm.
Qed.
(** The round of the contract has ended, and it has a position. *)
Definition ends_round (q : LibQuerier) (env : Env) (c : Config) (addr : string) (r : Response) : Prop :=
  ∃ state m, query_wasm_smart (q_protocols q) addr VortexState = Ok state ∧
    (vs_round_end_time state ≤ block_time (env_block env))%N ∧ is_Some (vs_position_id state) ∧
    calls addr EndRound [] m ∧ relays (input_addr c) [m] r.
Lemma withdraw_liquidity_ends q env c addr r : withdraw_liquidity q env c addr = Ok r → ends_round q env c addr r.
Proof.
  intros (st & Hst%try_ok & (u & Ht%ensure_r_ok & Hf)%bind_result_ok)%bind_result_ok.
  apply negb_true_iff, N.ltb_ge in Ht.
  apply bind_result_ok in Hf as (u2 & Hp%ensure_r_ok%bool_decide_eq_true_1 & Hf).
  apply bind_result_ok in Hf as (m & Hm%wasm_execute_ok & (m2 & Hm2%try_ok & [= <-])%bind_result_ok).
  exists st, m. split_and!; try done. by exists m2.
Qed.
End Vortex.

(** A Vortex library has at most one contract, for ever.  After any sequence of
    transactions the library remembers exactly the contract it had instantiated, if any,
    and it never had more than one: once there is one, providing liquidity is refused.  The
    transaction that instantiates it, with the assets and owners of the configuration of
    the call, also has the input account create the position of the call there, with
    everything it holds of both assets at that moment.  An accepted withdrawal ends the
    round of that contract and no other, when its round is over and it has a position. *)
Theorem vortex_single_contract
    `{Platform} `{OsmosisProto} `{InstantiateResponse} `{JsonCodec AccountExecuteMsg} `{!JsonCodecLaws AccountExecuteMsg}
    `{JsonCodec VortexInstantiateMsg} `{!JsonCodecLaws VortexInstantiateMsg}
    `{JsonCodec VortexExecuteMsg} `{!JsonCodecLaws VortexExecuteMsg} `{JsonCodec VortexQueryMsg} `{JsonCodec StateResponse}
    `{JsonCodec ReplyPayload} `{!JsonCodecLaws ReplyPayload} `{CwOwnable} `{CwOwnableDebug}
    q name version msg r0 s0 (s : VortexLper.St) made :
  instantiate q name version msg (empty_storage None) = Ok (r0, s0) → rtc vortex_step (s0, []) (s, made) →
  made = option_list (s_ext s) ∧ length made ≤ 1 ∧
  (∀ q1 env1 info1 range min0 min1 r1 s1,
    lib_execute vortex_lib q1 env1 info1 (ProcessFunction (ProvideLiquidity range min0 min1)) s = Ok (r1, s1) →
    made = [] ∧ ∃ c body sub, s_config s = Some c ∧ resp_messages r1 = [sub] ∧
      sub_msg sub = CosmosWasm (WasmInstantiate None (vortex_code (lp_config c)) body [] (label (lp_config c))) ∧
      from_json body = Ok (instantiate_msg c) ∧
      ∀ q2 env2 hr r2 s2 addr,
        host_reply_payload hr = sub_payload sub → new_contract (host_reply_result hr) = Ok addr →
        reply q2 env2 hr s1 = Ok (r2, s2) →
        s_ext s2 = Some addr ∧ creates_position q2 c (position_msg range min0 min1) addr r2) ∧
  (∀ q1 env1 info1 r1 s1,
    lib_execute vortex_lib q1 env1 info1 (ProcessFunction WithdrawLiquidity) s = Ok (r1, s1) →
    ∃ c addr, s_config s = Some c ∧ made = [addr] ∧ s1 = s ∧ ends_round q1 env1 c addr r1).
Proof.
  intros (c0 & _ & _ & _ & Hext & _)%lib_instantiate_ok Hrun.
  assert (made = option_list (s_ext s)) as ->.
  { eapply vortex_run_made; [exact Hrun|]. by rewrite Hext. }
  split_and!; [done|by destruct (s_ext s); simpl; lia| |].
  - intros q1 env1 info1 range min0 min1 r1 s1
      (c & _ & Hc & (Hn & -> & Hf)%(provide_process q1 env1 info1))%lib_execute_process.
    rewrite Hn. split; [done|]. apply provide_liquidity_ok in Hf as (_ & body & payload & Hb & Hp & Hr).
    eexists c, body, _. split_and!; [done|exact Hr|done|done|].
    intros q2 env2 hr r2 s2 addr Hpay Hnew (p & a & Hp2 & Ha & -> & Hcr)%(vortex_reply_ok q2 env2).
    rewrite Hpay in Hp2. cbn [sub_payload with_payload] in Hp2. rewrite Hp in Hp2. injection Hp2 as <-.
    rewrite Hnew in Ha. injection Ha as <-. split; [done|]. by apply create_position_ok.
  - intros q1 env1 info1 r1 s1 (c & _ & Hc & (addr & Ha & -> & Hf)%(withdraw_process q1 env1 info1))%lib_execute_process.
    exists c, addr. rewrite Ha. split_and!; [done|done|done|by apply withdraw_liquidity_ends].
Qed.

(** ** A library that provides, and later withdraws *)
#[global] Instance VortexInstantiateMsg_eq_dec : EqDecision VortexInstantiateMsg. Proof. solve_decision. Defined.
#[global] Instance VortexInstantiateMsg_countable : Countable VortexInstantiateMsg.
Proof. by_iso (λ '(mkVortexInstantiateMsg a0 a1 a2 a3 a4 a5 a6 a7 a8), (a0, a1, a2, a3, a4, a5, a6, a7, a8)) (λ '(a0, a1, a2, a3, a4, a5, a6, a7, a8), mkVortexInstantiateMsg a0 a1 a2 a3 a4 a5 a6 a7 a8). Defined.
#[global] Instance CreatePositionMsg_eq_dec : EqDecision CreatePositionMsg. Proof. solve_decision. Defined.
#[global] Instance CreatePositionMsg_countable : Countable CreatePositionMsg.
Proof. by_iso (λ '(mkCreatePositionMsg a0 a1 a2 a3), (a0, a1, a2, a3)) (λ '(a0, a1, a2, a3), mkCreatePositionMsg a0 a1 a2 a3). Defined.
#[global] Instance VortexExecuteMsg_eq_dec : EqDecision VortexExecuteMsg. Proof. solve_decision. Defined.
#[global] Instance VortexExecuteMsg_countable : Countable VortexExecuteMsg.
Proof.
  by_iso (λ x, match x with
    | CreatePosition a0 => (inl a0)
    | EndRound => (inr ()) end)
    (λ y, match y with
    | (inl a0) => CreatePosition a0
    | (inr _) => EndRound end).
Defined.
#[global] Instance StateResponse_eq_dec : EqDecision StateResponse. Proof. solve_decision. Defined.
#[global] Instance StateResponse_countable : Countable StateResponse.
Proof. by_iso (λ '(mkStateResponse a0 a1), (a0, a1)) (λ '(a0, a1), mkStateResponse a0 a1). Defined.
#[global] Instance AssetData_eq_dec : EqDecision AssetData. Proof. solve_decision. Defined.
#[global] Instance AssetData_countable : Countable AssetData.
Proof. by_iso (λ '(mkAssetData a0 a1), (a0, a1)) (λ '(a0, a1), mkAssetData a0 a1). Defined.
#[global] Instance VortexLpConfig_eq_dec : EqDecision LiquidityProviderConfig. Proof. solve_decision. Defined.
#[global] Instance VortexLpConfig_countable : Countable LiquidityProviderConfig.
Proof. by_iso (λ '(mkLiquidityProviderConfig a0 a1 a2 a3 a4 a5 a6), (a0, a1, a2, a3, a4, a5, a6)) (λ '(a0, a1, a2, a3, a4, a5, a6), mkLiquidityProviderConfig a0 a1 a2 a3 a4 a5 a6). Defined.
#[global] Instance VortexConfig_eq_dec : EqDecision Config. Proof. solve_decision. Defined.
#[global] Instance VortexConfig_countable : Countable Config.
Proof. by_iso (λ '(mkConfig a0 a1 a2 a3), (a0, a1, a2, a3)) (λ '(a0, a1, a2, a3), mkConfig a0 a1 a2 a3). Defined.
#[global] Instance ReplyPayload_eq_dec : EqDecision ReplyPayload. Proof. solve_decision. Defined.
#[global] Instance ReplyPayload_countable : Countable ReplyPayload.
Proof. by_iso (λ '(mkReplyPayload a0 a1), (a0, a1)) (λ '(a0, a1), mkReplyPayload a0 a1). Defined.
#[global] Instance VortexQueryMsg_eq_dec : EqDecision VortexQueryMsg. Proof. solve_decision. Defined.
#[global] Instance VortexQueryMsg_countable : Countable VortexQueryMsg.
Proof. by_iso (λ _, ()) (λ _, VortexState). Defined.
#[global] Instance ref_instantiate_response : InstantiateResponse := {
  parse_instantiate_response_data b :=
    match decode (positive_of_bits b) with Some addr => Ok addr | None => Err "parse" end;
}.
Definition sample_vortex_q : LibQuerier :=
  with_contracts sample_cl_q (λ addr b, if bool_decide (addr = "vortex")
    then (m ← from_json b; match m with VortexState => to_json_binary (mkStateResponse (Some 1%N) 10) end) else no_answer).
Definition sample_vortex_msg : LibInstantiateMsg LibraryConfig :=
  mkLibInstantiateMsg "owner" "processor" (mkLibraryConfig (LibAddr "input") (LibAddr "output") (LibAddr "output2")
    (mkLiquidityProviderConfig 5 "vortex" 1 10 10 (mkAssetData "uosmo" "uatom") true)).
Definition sample_vortex_init : Exec St LibraryError Response :=
  instantiate sample_vortex_q "vortex-lper" "1" sample_vortex_msg.
Definition sample_vortex_tx (time : N) (f : FunctionMsgs) : Exec St LibraryError Response :=
  lib_execute vortex_lib sample_vortex_q (mkEnv (mkBlock 1 time) "library") (mkInfo "processor" []) (ProcessFunction f).
Definition sample_provision : FunctionMsgs := ProvideLiquidity (mkTickRange (-100) 100) 1 1.
Definition sample_vortex_response : SubMsgResponse :=
  mkSubMsgResponse [] None [("response", bits_of_positive (encode ("vortex" : string)))].
Definition sample_vortex_hr (s : St) : HostReply :=
  let payload := match sample_vortex_tx 1 sample_provision s with
                 | Ok (r, _) => match resp_messages r with [sub] => sub_payload sub | _ => [] end
                 | _ => []
                 end in
  mkHostReply REPLY_ID_INSTANTIATE_VORTEX payload 0 (OutcomeOk sample_vortex_response).
Definition sample_vortex_reply (s : St) : Exec St LibraryError Response :=
  reply sample_vortex_q (mkEnv (mkBlock 1 1) "library") (sample_vortex_hr s).
Definition sample_vortex0 : St := after sample_vortex_init (empty_storage None).
Definition sample_vortex1 : St := after (sample_vortex_reply sample_vortex0) sample_vortex0.
Lemma sample_vortex_step : vortex_step (sample_vortex0, []) (sample_vortex1, ["vortex"]).
Proof.
  destruct (after_ok (sample_vortex_tx 1 sample_provision) sample_vortex0) as [r He]; [by vm_compute|].
  destruct (after_ok (sample_vortex_reply sample_vortex0) sample_vortex0) as [r2 Hr2]; [by vm_compute|].
  pose proof (proj1 (lib_execute_process vortex_lib sample_vortex_q (mkEnv (mkBlock 1 1) "library")
    (mkInfo "processor" []) sample_provision sample_vortex0 r _) He) as (c & _ & _ & Hf).
  apply (provide_process sample_vortex_q (mkEnv (mkBlock 1 1) "library") (mkInfo "processor" [])) in Hf as (_ & Hs & Hf).
  apply provide_liquidity_ok in Hf as (_ & body & payload & _ & _ & Hr). rewrite Hs in He.
  eapply (vortex_provide _ _ _ _ _ _ r _ sample_vortex_q (sample_vortex_hr sample_vortex0) sample_vortex_response
    "vortex" r2 _ _ _ []); [exact He|exact Hr|reflexivity| |reflexivity|by vm_compute|exact Hr2].
  unfold sample_vortex_hr. rewrite He, Hr. reflexivity.
Qed.
Lemma vortex_single_contract_witness :
  ∃ r c, sample_vortex_tx 20 WithdrawLiquidity sample_vortex1 = Ok (r, sample_vortex1) ∧
    ends_round sample_vortex_q (mkEnv (mkBlock 1 20) "library") c "vortex" r ∧
    ∀ r' s', sample_vortex_tx 20 sample_provision sample_vortex1 ≠ Ok (r', s').
Proof.
  destruct (after_ok sample_vortex_init (empty_storage None)) as [r0 Hi]; [by vm_compute|].
  destruct (vortex_single_contract sample_vortex_q "vortex-lper" "1" sample_vortex_msg r0 sample_vortex0
    sample_vortex1 ["vortex"] Hi) as (_ & _ & Hp & Hw); [by apply rtc_once, sample_vortex_step|].
  destruct (after_ok (sample_vortex_tx 20 WithdrawLiquidity) sample_vortex1) as [r Hr]; [by vm_compute|].
  destruct (Hw _ _ _ _ _ Hr) as (c & addr & _ & Ha & Hs & He). injection Ha as <-. rewrite Hs in Hr.
  exists r, c. split_and!; [exact Hr|exact He|]. intros r' s' H'. by destruct (Hp _ _ _ _ _ _ _ _ H').
Defined.
