(* ===== verification/ClearingQueue.v ===== *)
(** * The clearing queue library ([contracts/libraries/clearing-queue])

    Withdrawal obligations are registered with consecutive ids, wait in a first-in
    first-out queue ([QueueMap]) and are settled, oldest first, from the settlement
    account.  The status of every registered id is kept in a map. *)
From Stdlib Require Import Strings.Byte.
From S2P Require Import Prelude Platform Types Format Accounts LibraryBase Queue.

Module ClearingQueue.
Import Library.

(** ** [state.rs] *)
Inductive ObligationStatus := InQueue | Processed | ObligationError (msg : string).
Record WithdrawalObligation := mkWithdrawalObligation {
  recipient : Addr;
  payout_coin : Coin;
  obligation_id : N;
  enqueue_block : BlockInfo;
}.
Record cells := mkCells {
  c_clearing_queue : QueueMap.storage WithdrawalObligation;
  c_obligation_status : gmap N ObligationStatus;
}.
Definition empty_cells : cells := mkCells QueueMap.new ∅.

(** ** [msg.rs] *)
Record Config := mkConfig {
  settlement_acc_addr : Addr;
  denom : string;
  latest_id : N;
}.
Record LibraryConfig := mkLibraryConfig {
  raw_settlement_acc_addr : LibraryAccountType;
  raw_denom : string;
  raw_latest_id : option N;
}.
Inductive FunctionMsgs :=
| RegisterObligation (recipient : string) (payout_amount : N) (id : N)
| SettleNextObligation.
(** The struct that [ValenceLibraryInterface] derives from [LibraryConfig]. *)
Record LibraryConfigUpdate := mkLibraryConfigUpdate {
  upd_settlement_acc_addr : option LibraryAccountType;
  upd_denom : option string;
  upd_latest_id : OptionUpdate N;
}.
#[global] Instance clearing_update_raw : LibraryConfigUpdateTrait LibraryConfigUpdate LibraryConfig := {
  update_raw_config u raw := mkLibraryConfig
    (set_field (upd_settlement_acc_addr u) (raw_settlement_acc_addr raw))
    (set_field (upd_denom u) (raw_denom raw))
    (set_option_field (upd_latest_id u) (raw_latest_id raw));
}.

Abbreviation St := (storage LibraryConfig Config cells).
Abbreviation M := (Exec (storage LibraryConfig Config cells) LibraryError).
Definition CLEARING_QUEUE : lens St (QueueMap.storage WithdrawalObligation) :=
  Lens (λ s, c_clearing_queue (s_ext s))
       (λ x s, lset EXT (mkCells x (c_obligation_status (s_ext s))) s).
Definition OBLIGATION_ID_TO_STATUS_MAP : lens St (gmap N ObligationStatus) :=
  Lens (λ s, c_obligation_status (s_ext s))
       (λ x s, lset EXT (mkCells (c_clearing_queue (s_ext s)) x) s).

Section Contract.
Context `{Platform} `{CwDenom} `{JsonCodec AccountExecuteMsg}.

Definition do_validate (cfg : LibraryConfig) : result LibraryError (Addr * string * N) :=
  settlement_acc_addr ← try_ (to_addr (raw_settlement_acc_addr cfg));
  if bool_decide (raw_denom cfg = "")
  then Err (ConfigurationError "input denom cannot be empty")
  else Ok (settlement_acc_addr, raw_denom cfg, default 0%N (raw_latest_id cfg)).
#[global] Instance clearing_validation : LibraryConfigValidation LibraryConfig Config := {
  validate _ cfg :=
    '(settlement_acc_addr, denom, latest_id) ← do_validate cfg;
    Ok (mkConfig settlement_acc_addr denom latest_id);
}.

Definition update_config (_q : LibQuerier) (_env : Env) (_info : MessageInfo)
    (u : LibraryConfigUpdate) : M unit :=
  config ← load_config;
  config ← match upd_settlement_acc_addr u with
           | Some a =>
               addr ← of_result (to_addr a);
               mret (mkConfig addr (denom config) (latest_id config))
           | None => mret config
           end;
  config ← match upd_denom u with
           | Some d =>
               _ ← fail_if (bool_decide (d = "")) (ConfigurationError "clearing denom cannot be empty");
               mret (mkConfig (settlement_acc_addr config) d (latest_id config))
           | None => mret config
           end;
  save_config config.

Definition try_register_withdraw_obligation (env : Env) (cfg : Config)
    (recipient : string) (payout_amount id : N) : M Response :=
  next_id ← ok_or (checked_add u64_max (latest_id cfg) 1) (ExecutionError "id overflow");
  let cfg := mkConfig (settlement_acc_addr cfg) (denom cfg) next_id in
  _ ← save_config cfg;
  _ ← fail_if (bool_decide (latest_id cfg ≠ id))
        (ExecutionError ("obligation being registered id out of order: expected " ++
           pretty (latest_id cfg) ++ ", got " ++ pretty id));
  match addr_validate recipient with
  | Panic => panic
  | Err e =>
      _ ← map_save OBLIGATION_ID_TO_STATUS_MAP id (ObligationError (std_error_to_string e));
      mret Response_new
  | Ok validated_recipient =>
      if (payout_amount =? 0)%N then
        _ ← map_save OBLIGATION_ID_TO_STATUS_MAP id (ObligationError "zero payout amount");
        mret Response_new
      else
        let payout_coin := mkCoin (denom cfg) payout_amount in
        _ ← zoom CLEARING_QUEUE (lift (QueueMap.push_back
              (mkWithdrawalObligation validated_recipient payout_coin id (env_block env))));
        _ ← map_save OBLIGATION_ID_TO_STATUS_MAP id InQueue;
        mret Response_new
  end.

(** [Display for Coin]. *)
Definition coin_to_string (c : Coin) : string := pretty (coin_amount c) ++ coin_denom c.

Definition try_settle_next_obligation (q : LibQuerier) (cfg : Config) : M Response :=
  obligations_head ← zoom CLEARING_QUEUE (lift QueueMap.pop_front);
  obligation ← ok_or obligations_head (ExecutionError "no pending obligations");
  settlement_acc_bal ← of_result (q_bank_balance q (settlement_acc_addr cfg)
                                    (coin_denom (payout_coin obligation)));
  _ ← fail_if (settlement_acc_bal <? coin_amount (payout_coin obligation))%N
        (ExecutionError ("insufficient settlement acc balance to fulfill obligation: " ++
           coin_to_string (mkCoin (coin_denom (payout_coin obligation)) settlement_acc_bal) ++
           " < " ++ coin_to_string (payout_coin obligation)));
  let fill_msg := CosmosBankSend (recipient obligation) [payout_coin obligation] in
  input_account_msg ← of_result (execute_on_behalf_of [fill_msg] (settlement_acc_addr cfg));
  _ ← map_save OBLIGATION_ID_TO_STATUS_MAP (obligation_id obligation) Processed;
  mret (add_message input_account_msg Response_new).

Definition process_function (q : LibQuerier) (env : Env) (_info : MessageInfo) (msg : FunctionMsgs)
    (cfg : Config) : M Response :=
  match msg with
  | RegisterObligation recipient payout_amount id =>
      try_register_withdraw_obligation env cfg recipient payout_amount id
  | SettleNextObligation => try_settle_next_obligation q cfg
  end.

(** The queries of the library. *)
Definition get_queue_info : M N := zoom CLEARING_QUEUE (lift QueueMap.len).
Definition get_obligations (from_ to_ : option N) : M (list WithdrawalObligation) :=
  zoom CLEARING_QUEUE (lift (QueueMap.query from_ to_ QueueMap.Ascending)).
Definition get_obligation_status (id : N) : M ObligationStatus :=
  map_load OBLIGATION_ID_TO_STATUS_MAP id.
End Contract.
End ClearingQueue.

(** * Clearing queue: every obligation is paid once, in order

    The run of the library is related to the list of the obligations it accepted: the
    messages it sent are the payments of a prefix of that list, and its queue holds the
    rest. *)
From S2P Require Import LibraryProofs Codec LibraryCodec.
Import Library ClearingQueue.

Section Proofs.
Context `{CPl : Platform} `{CDe : CwDenom} `{CJs : JsonCodec AccountExecuteMsg}.
Context `{COw : CwOwnable} `{CDb : CwOwnableDebug}.

Definition clearing_lib : LibraryFns LibraryConfig Config cells FunctionMsgs LibraryConfigUpdate :=
  mkLibraryFns process_function update_config.
Abbreviation St := (storage LibraryConfig Config cells).

(** ** The framework's interface *)
Definition clearing_valid (c : Config) : Prop := denom c ≠ "".
(** A function changes at most the id that was registered last. *)
Definition clearing_kept (c c' : Config) : Prop :=
  settlement_acc_addr c' = settlement_acc_addr c ∧ denom c' = denom c.

Lemma update_config_ok q env info u (s s' : St) v :
  update_config q env info u s = Ok (v, s') →
  ∃ c c', s_config s = Some c ∧ s' = lset CONFIG_KEY (Some c') s ∧ latest_id c' = latest_id c ∧
    (clearing_valid c → clearing_valid c').
Proof.
  unfold update_config, load_config, save_config, clearing_valid. intros Hu.
  destruct (upd_settlement_acc_addr u), (upd_denom u); run_inv;
    do 2 eexists; (split_and!; [done..|]); intros Hd; simpl; first [done |
    match goal with Hb : bool_decide _ = false |- _ => by apply bool_decide_eq_false_1 in Hb end].
Qed.
Lemma register_ok env cfg rec amount id (s s' : St) r :
  try_register_withdraw_obligation env cfg rec amount id s = Ok (r, s') →
  (latest_id cfg + 1 ≤ u64_max)%N ∧ id = (latest_id cfg + 1)%N ∧ resp_messages r = [] ∧
  same_base s s' ∧ s_config s' = Some (mkConfig (settlement_acc_addr cfg) (denom cfg) id) ∧
  ((∃ a, addr_validate rec = Ok a ∧ amount ≠ 0%N ∧
     QueueMap.push_back (mkWithdrawalObligation a (mkCoin (denom cfg) amount) id (env_block env))
       (c_clearing_queue (s_ext s)) = Ok ((), c_clearing_queue (s_ext s')) ∧
     c_obligation_status (s_ext s') = <[id := InQueue]> (c_obligation_status (s_ext s))) ∨
   ((∃ e, addr_validate rec = Err e) ∨ amount = 0%N) ∧
     c_clearing_queue (s_ext s') = c_clearing_queue (s_ext s) ∧
     ∃ e, c_obligation_status (s_ext s') = <[id := ObligationError e]> (c_obligation_status (s_ext s))).
Proof.
  unfold try_register_withdraw_obligation, save_config. intros Hr.
  apply Exec_bind_ok in Hr as (n & s1 & Hn & Hr). run_inv.
  match goal with Ha : checked_add _ _ _ = Some _ |- _ => apply checked_add_Some in Ha as [-> ?] end.
  match goal with Hb : bool_decide _ = false |- _ => apply bool_decide_neq_false in Hb as <- end.
  destruct (addr_validate rec) as [a|e|]; [| |done].
  - destruct (amount =? 0)%N eqn:Ha; run_inv; (split_and!; [done..|]).
    + apply N.eqb_eq in Ha. right. split_and!; [by right|done|by eexists].
    + apply N.eqb_neq in Ha. left. exists a. split_and!; try done.
      by match goal with Hp : QueueMap.push_back _ _ = Ok (?u, _) |- _ => destruct u end.
  - run_inv. split_and!; try done. right. split_and!; [left; by eexists|done|by eexists].
Qed.
Lemma settle_ok q cfg (s s' : St) r :
  try_settle_next_obligation q cfg s = Ok (r, s') →
  ∃ o m balance,
    QueueMap.pop_front (c_clearing_queue (s_ext s)) = Ok (Some o, c_clearing_queue (s_ext s')) ∧
    q_bank_balance q (settlement_acc_addr cfg) (coin_denom (payout_coin o)) = Ok balance ∧
    (coin_amount (payout_coin o) ≤ balance)%N ∧
    execute_on_behalf_of [CosmosBankSend (recipient o) [payout_coin o]] (settlement_acc_addr cfg) = Ok m ∧
    resp_messages r = [SubMsg_new m] ∧ same_base s s' ∧ s_config s' = s_config s ∧
    c_obligation_status (s_ext s') =
      <[obligation_id o := Processed]> (c_obligation_status (s_ext s)).
Proof.
  unfold try_settle_next_obligation. intros Hs. run_inv.
  match goal with Hb : (_ <? _)%N = false |- _ => apply N.ltb_ge in Hb end.
  repeat eexists; done.
Qed.
#[global] Instance clearing_laws : LibraryLaws clearing_lib clearing_valid clearing_kept (λ _, True).
Proof.
  split.
  - intros q raw c _ Hv. simpl in Hv. unfold do_validate in Hv.
    destruct (try_ _) as [a| |]; simpl in Hv; [|done..]. case_bool_decide; by simplify_eq/=.
  - intros q env info u s v s' _ (c & c' & Hc & -> & _ & Hv)%(update_config_ok q env info) Hs c1 [= <-]. by apply Hv, Hs.
  - intros q env info u s v s' (c & c' & Hc & -> & _ & Hv)%(update_config_ok q env info). done.
  - intros q env info f c s r s' Hp Hc. destruct f; simpl in Hp.
    + apply register_ok in Hp as (_ & _ & _ & _ & -> & _). by eexists.
    + apply settle_ok in Hp as (o & m & b & _ & _ & _ & _ & _ & _ & -> & _). by eexists.
  - intros q env info f c s r s' Hp. destruct f; simpl in Hp.
    + by apply register_ok in Hp as (_ & _ & _ & ? & _).
    + by apply settle_ok in Hp as (o & m & b & _ & _ & _ & _ & _ & ? & _).
Qed.

(** ** Runs *)

(** The obligation a message registers, when the recipient and the amount are good. *)
Definition accepted_by (env : Env) (s : St) (msg : LibExecuteMsg FunctionMsgs LibraryConfigUpdate)
    : list WithdrawalObligation :=
  match msg, s_config s with
  | ProcessFunction (RegisterObligation rec amount id), Some c =>
      match addr_validate rec with
      | Ok a => if (amount =? 0)%N then [] else
                [mkWithdrawalObligation a (mkCoin (denom c) amount) id (env_block env)]
      | _ => []
      end
  | _, _ => []
  end.
Definition registers (msg : LibExecuteMsg FunctionMsgs LibraryConfigUpdate) : list N :=
  match msg with ProcessFunction (RegisterObligation _ _ id) => [id] | _ => [] end.
(** What is sent, with the settlement account that was configured then. *)
Definition sent_by (s : St) (r : Response) : list (option Addr * SubMsg) :=
  pair (settlement_acc_addr <$> s_config s) <$> resp_messages r.

(** A run: the ids that were registered, the obligations that were accepted and the
    messages that were sent, from a library whose first id is [i0 + 1]. *)
Inductive clearing_run (i0 : N) :
    list N → list WithdrawalObligation → list (option Addr * SubMsg) → St → Prop :=
| clearing_start q name version msg r s :
    instantiate q name version msg (empty_storage empty_cells) = Ok (r, s) →
    default 0%N (raw_latest_id (li_config msg)) = i0 →
    clearing_run i0 [] [] [] s
| clearing_tx regs accepted sent q env info msg s r s' :
    clearing_run i0 regs accepted sent s →
    lib_execute clearing_lib q env info msg s = Ok (r, s') →
    clearing_run i0 (regs ++ registers msg) (accepted ++ accepted_by env s msg)
      (sent ++ sent_by s r) s'.

(** The payment of an obligation: one bank transfer of the payout, to the recipient,
    out of the settlement account. *)
Definition payment (o : WithdrawalObligation) (p : option Addr * SubMsg) : Prop :=
  ∃ acc m, execute_on_behalf_of [CosmosBankSend (recipient o) [payout_coin o]] acc = Ok m ∧
    p = (Some acc, SubMsg_new m).
Definition status_of (s : St) (id : N) : option ObligationStatus := c_obligation_status (s_ext s) !! id.

(** The accounting: the accepted obligations are the paid and then the waiting ones. *)
Record cleared (i0 : N) regs sent (s : St) (paid waiting : list WithdrawalObligation) : Prop := mkCleared {
  cl_config : ∃ c, s_config s = Some c ∧ (i0 ≤ latest_id c)%N ∧
    regs = N_range (i0 + 1) (latest_id c + 1);
  cl_queue : QueueMap.queue_rep (c_clearing_queue (s_ext s)) waiting;
  cl_paid : Forall2 payment paid sent;
  cl_order : StronglySorted N.lt (obligation_id <$> paid ++ waiting);
  cl_status : ∀ id, id ∈ regs ↔ is_Some (status_of s id);
  cl_waiting : ∀ id, status_of s id = Some InQueue ↔ id ∈ (obligation_id <$> waiting);
  cl_processed : ∀ id, status_of s id = Some Processed ↔ id ∈ (obligation_id <$> paid);
}.

Lemma cleared_start i0 q name version msg r s :
  instantiate q name version msg (empty_storage empty_cells) = Ok (r, s) →
  default 0%N (raw_latest_id (li_config msg)) = i0 → cleared i0 [] [] s [] [].
Proof.
  intros (c & Hv & Hc & _ & He & _)%lib_instantiate_ok Hi.
  assert (latest_id c = i0) as Hl.
  { simpl in Hv. unfold do_validate in Hv. destruct (try_ _); simpl in Hv; [|done..].
    by case_bool_decide; simplify_eq/=. }
  split; unfold status_of; rewrite ?He; simpl; try (intros id; rewrite elem_of_nil).
  - exists c. split_and!; [done|lia|]. by rewrite N_range_nil by lia.
  - apply new_rep.
  - constructor.
  - constructor.
  - split; [done|]. by intros [? ?].
  - done.
  - done.
Qed.

(** A transaction that leaves the cells and the latest id alone. *)
Lemma cleared_same i0 regs sent s s' paid waiting c c' :
  cleared i0 regs sent s paid waiting → s_ext s' = s_ext s →
  s_config s = Some c → s_config s' = Some c' → latest_id c' = latest_id c →
  cleared i0 regs sent s' paid waiting.
Proof.
  intros [(c0 & Hc0 & Hl & Hr) ??????] He Hc Hc' Hid.
  split; unfold status_of in *; rewrite ?He; try done.
  exists c'. rewrite Hid. by simplify_eq.
Qed.

Section Register.
Context (i0 : N) (regs : list N) (sent : list (option Addr * SubMsg)).
Context (s s' : St) (paid waiting : list WithdrawalObligation) (c c' : Config) (id : N).
Context (Hcl : cleared i0 regs sent s paid waiting) (Hc : s_config s = Some c).
Context (Hid : id = (latest_id c + 1)%N) (Hc' : s_config s' = Some c') (Hl' : latest_id c' = id).

Lemma register_config : ∃ c1, s_config s' = Some c1 ∧ (i0 ≤ latest_id c1)%N ∧
  regs ++ [id] = N_range (i0 + 1) (latest_id c1 + 1).
Proof.
  destruct (cl_config _ _ _ _ _ _ Hcl) as (c0 & Hc0 & Hl & ->). simplify_eq.
  exists c'. rewrite Hl', (N_range_snoc _ (latest_id c + 1)) by lia. split_and!; [done|lia|done].
Qed.
Lemma known_lt x : x ∈ regs → (x < id)%N.
Proof.
  destruct (cl_config _ _ _ _ _ _ Hcl) as (c0 & Hc0 & Hl & ->). simplify_eq.
  unfold N_range. intros (n & -> & Hn%elem_of_seq)%list_elem_of_fmap. lia.
Qed.
Lemma status_lt x st : status_of s x = Some st → (x < id)%N.
Proof. intros Hs. apply known_lt, (cl_status _ _ _ _ _ _ Hcl). by eexists. Qed.
Lemma waiting_lt x : x ∈ obligation_id <$> waiting → (x < id)%N.
Proof. intros Hx%(cl_waiting _ _ _ _ _ _ Hcl). by eapply status_lt. Qed.
Lemma paid_lt x : x ∈ obligation_id <$> paid → (x < id)%N.
Proof. intros Hx%(cl_processed _ _ _ _ _ _ Hcl). by eapply status_lt. Qed.

Lemma register_status st x : c_obligation_status (s_ext s') = <[id := st]> (c_obligation_status (s_ext s)) →
  status_of s' x = if decide (x = id) then Some st else status_of s x.
Proof.
  unfold status_of. intros ->. case_decide as Hx; [subst; by rewrite lookup_insert_eq|].
  by rewrite lookup_insert_ne.
Qed.
Lemma register_known st :
  c_obligation_status (s_ext s') = <[id := st]> (c_obligation_status (s_ext s)) →
  ∀ x, x ∈ regs ++ [id] ↔ is_Some (status_of s' x).
Proof.
  intros Hst x. rewrite (register_status st) by done. rewrite elem_of_app, list_elem_of_singleton.
  case_decide; [naive_solver|]. rewrite (cl_status _ _ _ _ _ _ Hcl). naive_solver.
Qed.

Lemma cleared_register_error e :
  c_clearing_queue (s_ext s') = c_clearing_queue (s_ext s) →
  c_obligation_status (s_ext s') = <[id := ObligationError e]> (c_obligation_status (s_ext s)) →
  cleared i0 (regs ++ [id]) sent s' paid waiting.
Proof.
  intros Hq Hst. split; try by apply Hcl.
  - apply register_config.
  - rewrite Hq. apply Hcl.
  - by eapply register_known.
  - intros x. rewrite (register_status _ _ Hst). case_decide as Hx; [|apply Hcl].
    split; [done|]. intros ?%waiting_lt. lia.
  - intros x. rewrite (register_status _ _ Hst). case_decide as Hx; [|apply Hcl].
    split; [done|]. intros ?%paid_lt. lia.
Qed.
Lemma cleared_register o :
  obligation_id o = id →
  QueueMap.push_back o (c_clearing_queue (s_ext s)) = Ok ((), c_clearing_queue (s_ext s')) →
  c_obligation_status (s_ext s') = <[id := InQueue]> (c_obligation_status (s_ext s)) →
  cleared i0 (regs ++ [id]) sent s' paid (waiting ++ [o]).
Proof.
  intros Ho Hq Hst. split; try by apply Hcl.
  - apply register_config.
  - pose proof (cl_queue _ _ _ _ _ _ Hcl) as Hrep.
    destruct (decide (QueueMap.high_water (c_clearing_queue (s_ext s)) + 1 ≤ u64_max)%N) as [Hw|Hw].
    + destruct (push_back_run _ _ o Hrep Hw) as (q' & Hp & Hr & _).
      rewrite Hp in Hq. by injection Hq as <-.
    + rewrite push_back_overflow in Hq by lia. done.
  - rewrite app_assoc, fmap_app. simpl.
    apply StronglySorted_app_2; [|apply Hcl|by repeat constructor].
    rewrite fmap_app. intros x y Hx ->%list_elem_of_singleton. rewrite Ho.
    apply elem_of_app in Hx as [?%paid_lt|?%waiting_lt]; done.
  - by eapply register_known.
  - intros x. rewrite (register_status _ _ Hst), fmap_app, elem_of_app. simpl.
    rewrite list_elem_of_singleton, Ho. case_decide as Hx; [naive_solver|].
    rewrite (cl_waiting _ _ _ _ _ _ Hcl). naive_solver.
  - intros x. rewrite (register_status _ _ Hst). case_decide as Hx; [|apply Hcl].
    split; [done|]. intros ?%paid_lt. lia.
Qed.
End Register.

Lemma cleared_settle i0 regs sent s s' paid waiting o p :
  cleared i0 regs sent s paid waiting → s_config s' = s_config s →
  QueueMap.pop_front (c_clearing_queue (s_ext s)) = Ok (Some o, c_clearing_queue (s_ext s')) →
  c_obligation_status (s_ext s') = <[obligation_id o := Processed]> (c_obligation_status (s_ext s)) →
  payment o p →
  ∃ rest, waiting = o :: rest ∧ cleared i0 regs (sent ++ [p]) s' (paid ++ [o]) rest.
Proof.
  intros [Hcfg Hq Hp Hord Hst Hw Hpr] Hc Hpop Hm Hpay.
  destruct waiting as [|o' rest].
  { rewrite pop_front_nil in Hpop by done. done. }
  destruct (pop_front_cons _ _ _ Hq) as (q' & Hpop' & Hrep & _).
  rewrite Hpop' in Hpop. injection Hpop as -> Hq'. exists rest. split; [done|].
  assert (∀ x, status_of s' x = if decide (x = obligation_id o) then Some Processed else status_of s x)
    as Hs'.
  { intros x. unfold status_of. rewrite Hm. case_decide as Hx; [subst; by rewrite lookup_insert_eq|].
    by rewrite lookup_insert_ne. }
  assert (obligation_id o ∉ (obligation_id <$> rest)) as Hnot.
  { rewrite fmap_app, fmap_cons in Hord. apply StronglySorted_app_1_r in Hord.
    apply StronglySorted_inv in Hord as [_ Hlt]. rewrite Forall_forall in Hlt.
    intros ?%Hlt. lia. }
  split.
  - by rewrite Hc.
  - by rewrite <-Hq'.
  - apply Forall2_app; [done|]. by repeat constructor.
  - by rewrite <-app_assoc.
  - intros x. rewrite Hs', (Hst x). case_decide as Hx; [subst|done].
    split; [by eexists|]. intros _. exists InQueue. apply Hw. simpl. by left.
  - intros x. rewrite Hs'. case_decide as Hx; [subst; naive_solver|].
    rewrite Hw, fmap_cons, elem_of_cons. naive_solver.
  - intros x. rewrite Hs', fmap_app, elem_of_app. simpl. rewrite list_elem_of_singleton.
    case_decide as Hx; [naive_solver|]. rewrite Hpr. naive_solver.
Qed.

(** Every message keeps the accounting. *)
Lemma cleared_step i0 regs sent s paid waiting q env info msg r s' :
  cleared i0 regs sent s paid waiting → lib_execute clearing_lib q env info msg s = Ok (r, s') →
  ∃ paid' waiting',
    paid' ++ waiting' = (paid ++ waiting) ++ accepted_by env s msg ∧
    cleared i0 (regs ++ registers msg) (sent ++ sent_by s r) s' paid' waiting'.
Proof.
  intros Hcl He. destruct (cl_config _ _ _ _ _ _ Hcl) as (c & Hc & _ & _).
  destruct msg as [[rec amount id|]|u|p|a].
  - apply lib_execute_process in He as (c0 & _ & Hc0 & He).
    assert (c0 = c) as -> by congruence.
    apply register_ok in He as (_ & Hid & Hr & _ & Hc' & Hcase).
    unfold sent_by, accepted_by. rewrite Hr, Hc. simpl. rewrite app_nil_r.
    destruct Hcase as [(a & -> & Ha%N.eqb_neq & Hpush & Hst)|([[e ->]| ->] & Hq & e' & Hst)].
    + rewrite Ha. exists paid, (waiting ++ [mkWithdrawalObligation a (mkCoin (denom c) amount) id (env_block env)]).
      split; [by rewrite app_assoc|]. by eapply cleared_register.
    + exists paid, waiting. rewrite app_nil_r. split; [done|]. by eapply cleared_register_error.
    + exists paid, waiting. split; [by destruct (addr_validate rec); rewrite app_nil_r|].
      by eapply cleared_register_error.
  - apply lib_execute_process in He as (c0 & _ & Hc0 & He).
    assert (c0 = c) as -> by congruence.
    apply settle_ok in He as (o & m & b & Hpop & _ & _ & Hm & Hr & _ & Hcf & Hst).
    unfold sent_by. rewrite Hr, Hc. simpl. rewrite !app_nil_r.
    eapply (cleared_settle _ _ _ s s' _ _ o (Some (settlement_acc_addr c), SubMsg_new m))
      in Hcl as (rest & -> & Hcl); [|done..|by do 2 eexists].
    exists (paid ++ [o]), rest. split; [|done]. by rewrite <-app_assoc.
  - apply lib_execute_update in He as (raw & v & _ & _ & Hu & Hr).
    apply (update_config_ok q env info) in Hu as (c0 & c1 & Hc0 & -> & Hid & _). simpl in Hc0.
    assert (c0 = c) as -> by congruence.
    exists paid, waiting. unfold accepted_by, sent_by. rewrite Hr. simpl. rewrite !app_nil_r.
    split; [done|]. by eapply cleared_same.
  - unfold lib_execute, execute in He.
    apply Exec_bind_ok in He as (? & s1 & Ho & He). apply read_only in Ho as ->. run_inv.
    exists paid, waiting. unfold accepted_by, sent_by. simpl. rewrite !app_nil_r. split; [done|].
    by eapply cleared_same.
  - unfold lib_execute, execute in He. run_inv. exists paid, waiting. unfold accepted_by, sent_by.
    simpl. rewrite !app_nil_r. split; [done|]. by eapply cleared_same.
Qed.
Lemma clearing_run_cleared i0 regs accepted sent s :
  clearing_run i0 regs accepted sent s →
  ∃ paid waiting, accepted = paid ++ waiting ∧ cleared i0 regs sent s paid waiting.
Proof.
  induction 1 as [q name version msg r s Hi H0|regs acc sent q env info msg s r s' _ (paid & waiting & -> & Hcl) He].
  - exists [], []. split; [done|]. by eapply cleared_start.
  - destruct (cleared_step _ _ _ _ _ _ _ _ _ _ _ _ Hcl He) as (p' & w' & <- & Hcl'). eauto.
Qed.

(** The oldest obligation can be settled as soon as the account holds its payout. *)
Lemma settle_run q cfg s o rest balance `{!JsonCodecLaws AccountExecuteMsg} :
  QueueMap.queue_rep (c_clearing_queue (s_ext s)) (o :: rest) →
  q_bank_balance q (settlement_acc_addr cfg) (coin_denom (payout_coin o)) = Ok balance →
  (coin_amount (payout_coin o) ≤ balance)%N →
  ∃ r s', try_settle_next_obligation q cfg s = Ok (r, s').
Proof.
  intros Hq Hb Hle. destruct (pop_front_cons _ _ _ Hq) as (q' & Hp & _).
  destruct (to_json_total (AccExecuteMsg [CosmosBankSend (recipient o) [payout_coin o]])) as [b Hj].
  unfold try_settle_next_obligation. do 2 eexists.
  erewrite Exec_bind_run by (unfold zoom, lift; simpl; by rewrite Hp). simpl.
  erewrite Exec_bind_run by done. simpl.
  erewrite Exec_bind_run by (unfold of_result; by rewrite Hb).
  erewrite Exec_bind_run by (unfold fail_if; by rewrite (proj2 (N.ltb_ge _ _) Hle)).
  erewrite Exec_bind_run by (unfold of_result, execute_on_behalf_of; simpl; by rewrite Hj).
  erewrite Exec_bind_run by done. done.
Qed.
End Proofs.

(** An update of [latest_id] is accepted and recorded in the raw configuration, but the
    ids that are registered next do not depend on it. *)
Theorem latest_id_update_ignored `{Platform} `{CwDenom} `{JsonCodec AccountExecuteMsg}
    `{CwOwnable} `{CwOwnableDebug} q env info a d new_id
    (s : storage LibraryConfig Config cells) r s' :
  lib_execute clearing_lib q env info (UpdateConfig (mkLibraryConfigUpdate a d (UpdSet new_id))) s =
    Ok (r, s') →
  (raw_latest_id <$> s_raw_library_config s') = Some new_id ∧
  (latest_id <$> s_config s') = (latest_id <$> s_config s).
Proof.
  intros (raw & v & _ & Hraw & Hu & _)%lib_execute_update.
  apply (update_config_ok q env info) in Hu as (c & c' & Hc & -> & Hid & _). simpl in *.
  rewrite Hc. simpl. by rewrite Hid.
Qed.

(** C17 The clearing queue pays every obligation once, oldest first.  In every run of the
    library: the ids that were registered are the consecutive ids after the initial one,
    so none is registered twice; the obligations with a valid recipient and a non-zero
    amount are, in the order of their registration, first those that were paid and then
    those that wait in the queue; the messages the library sent are exactly one bank
    transfer of the payout to the recipient, on behalf of the settlement account, for
    each paid obligation; the status of an id is [Processed], [InQueue] or an error
    accordingly; and the processor can settle the oldest waiting obligation as soon as
    the settlement account holds its payout. *)
Theorem obligations_paid_once_in_order
    `{Platform} `{CwDenom} `{JsonCodec AccountExecuteMsg} `{!JsonCodecLaws AccountExecuteMsg}
    `{CwOwnable} `{CwOwnableDebug} (i0 : N) (regs : list N)
    (accepted : list WithdrawalObligation) (sent : list (option Addr * SubMsg))
    (s : storage LibraryConfig Config cells) :
  clearing_run i0 regs accepted sent s →
  ∃ c paid waiting,
    s_config s = Some c ∧ regs = N_range (i0 + 1) (latest_id c + 1) ∧
    accepted = paid ++ waiting ∧ NoDup (obligation_id <$> accepted) ∧
    Forall2 payment paid sent ∧
    QueueMap.queue_rep (c_clearing_queue (s_ext s)) waiting ∧
    (∀ id, is_Some (status_of s id) ↔ id ∈ regs) ∧
    (∀ id, status_of s id = Some InQueue ↔ id ∈ (obligation_id <$> waiting)) ∧
    (∀ id, status_of s id = Some Processed ↔ id ∈ (obligation_id <$> paid)) ∧
    (∀ q env info o rest balance,
       waiting = o :: rest → s_processor s = Some (info_sender info) →
       q_bank_balance q (settlement_acc_addr c) (coin_denom (payout_coin o)) = Ok balance →
       (coin_amount (payout_coin o) ≤ balance)%N →
       ∃ r s', lib_execute clearing_lib q env info (ProcessFunction SettleNextObligation) s = Ok (r, s')).
Proof.
  intros (paid & waiting & -> & Hcl)%clearing_run_cleared.
  destruct (cl_config _ _ _ _ _ _ Hcl) as (c & Hc & _ & Hr). exists c, paid, waiting.
  destruct Hcl as [_ Hq Hp Hord Hst Hw Hpr].
  refine (conj Hc (conj Hr (conj eq_refl (conj _ (conj Hp (conj Hq (conj _ (conj Hw (conj Hpr _))))))))).
  - by apply (StronglySorted_irrefl_NoDup N.lt) in Hord.
  - intros id. by rewrite Hst.
  - intros q env info o rest balance -> Hproc Hb Hle.
    destruct (settle_run q c s o rest balance) as (r & s' & Hs); [done..|].
    exists r, s'. apply lib_execute_process. eauto.
Qed.

(** ** A run: two obligations and a rejected one, of which the first is settled *)
Definition sample_clearing_tx (f : FunctionMsgs)
    : Exec (storage LibraryConfig Config cells) LibraryError Response :=
  lib_execute clearing_lib (ref_lib_querier 100) (mkEnv (mkBlock 1 1) "clearing")
    (mkInfo "processor" []) (ProcessFunction f).
Definition sample_clearing_init : Exec (storage LibraryConfig Config cells) LibraryError Response :=
  instantiate (ref_lib_querier 100) "clearing" "1"
    (mkLibInstantiateMsg "owner" "processor" (mkLibraryConfig (LibAddr "vault") "untrn" None)).
Lemma sample_clearing_run : ∃ accepted sent s,
  clearing_run 0 [1; 2; 3]%N accepted sent s ∧ length accepted = 2 ∧ length sent = 1.
Proof.
  assert (clearing_run 0 [] [] [] (after sample_clearing_init (empty_storage empty_cells))) as H0.
  { destruct (after_ok sample_clearing_init (empty_storage empty_cells)) as [r Hr]; [by vm_compute|].
    by eapply clearing_start. }
  assert (∀ f regs acc sent s, clearing_run 0 regs acc sent s →
    succeeds (sample_clearing_tx f) s = true →
    ∃ r, sample_clearing_tx f s = Ok (r, after (sample_clearing_tx f) s) ∧
      clearing_run 0 (regs ++ registers (ProcessFunction f))
        (acc ++ accepted_by (mkEnv (mkBlock 1 1) "clearing") s (ProcessFunction f))
        (sent ++ sent_by s r) (after (sample_clearing_tx f) s)) as Htx.
  { intros f regs acc sent s Hr [r Hs]%after_ok. exists r. split; [done|]. by eapply clearing_tx. }
  destruct (Htx (RegisterObligation "alice" 10 1) _ _ _ _ H0) as (r1 & E1 & H1); [by vm_compute|].
  destruct (Htx (RegisterObligation "bob" 0 2) _ _ _ _ H1) as (r2 & E2 & H2); [by vm_compute|].
  destruct (Htx (RegisterObligation "carol" 5 3) _ _ _ _ H2) as (r3 & E3 & H3); [by vm_compute|].
  destruct (Htx SettleNextObligation _ _ _ _ H3) as (r4 & E4 & H4); [by vm_compute|].
  do 3 eexists. split; [exact H4|]. vm_compute in E1, E2, E3, E4. simplify_eq. split; reflexivity.
Qed.
Lemma obligations_paid_once_in_order_witness : ∃ accepted sent s,
  clearing_run 0 [1; 2; 3]%N accepted sent s ∧
  ∃ paid waiting, accepted = paid ++ waiting ∧ length paid = 1 ∧ length waiting = 1 ∧
    Forall2 payment paid sent.
Proof.
  destruct sample_clearing_run as (accepted & sent & s & Hrun & Hla & Hls).
  exists accepted, sent, s. split; [exact Hrun|].
  destruct (obligations_paid_once_in_order 0 _ _ _ _ Hrun)
    as (c & paid & waiting & _ & _ & -> & _ & Hp & _).
  exists paid, waiting. apply Forall2_length in Hp as Hl. rewrite length_app in Hla.
  split_and!; [done|lia|lia|exact Hp].
Defined.
