(* ===== verification/Forwarder.v ===== *)
(** * The forwarder library ([contracts/libraries/forwarder])

    Transfers, from the input account to the output account, up to a maximum amount of
    each configured denomination, and not more often than a minimal interval. *)
From Stdlib Require Import Strings.Byte.
From S2P Require Import Prelude Platform Types Format Accounts LibraryBase.

Module Forwarder.
Import Library.

(** ** [msg.rs] and [state.rs] *)
Inductive FunctionMsgs := Forward.
Record ForwardingConfig := mkForwardingConfig {
  fwd_denom : CheckedDenom;
  fwd_max_amount : N;
}.
Record ForwardingConstraints := mkForwardingConstraints { min_interval : option Duration }.
Record UncheckedForwardingConfig := mkUncheckedForwardingConfig {
  ufc_denom : UncheckedDenom;
  ufc_max_amount : N;
}.
Record LibraryConfig := mkLibraryConfig {
  raw_input_addr : LibraryAccountType;
  raw_output_addr : LibraryAccountType;
  raw_forwarding_configs : list UncheckedForwardingConfig;
  raw_forwarding_constraints : ForwardingConstraints;
}.
Record Config := mkConfig {
  input_addr : Addr;
  output_addr : Addr;
  forwarding_configs : list ForwardingConfig;
  forwarding_constraints : ForwardingConstraints;
}.
Record LibraryConfigUpdate := mkLibraryConfigUpdate {
  upd_input_addr : option LibraryAccountType;
  upd_output_addr : option LibraryAccountType;
  upd_forwarding_configs : option (list UncheckedForwardingConfig);
  upd_forwarding_constraints : option ForwardingConstraints;
}.
#[global] Instance forwarder_update_raw : LibraryConfigUpdateTrait LibraryConfigUpdate LibraryConfig := {
  update_raw_config u raw := mkLibraryConfig
    (set_field (upd_input_addr u) (raw_input_addr raw))
    (set_field (upd_output_addr u) (raw_output_addr raw))
    (set_field (upd_forwarding_configs u) (raw_forwarding_configs raw))
    (set_field (upd_forwarding_constraints u) (raw_forwarding_constraints raw));
}.

(** The only cell of the library: [LAST_SUCCESSFUL_FORWARD]. *)
Abbreviation St := (storage LibraryConfig Config (option BlockInfo)).
Abbreviation M := (Exec (storage LibraryConfig Config (option BlockInfo)) LibraryError).
Definition LAST_SUCCESSFUL_FORWARD : lens St (option BlockInfo) := EXT.

Section Contract.
Context `{Platform} `{CwDenom} `{JsonCodec AccountExecuteMsg}.

(** The loop of [ensure_denom_uniqueness], with the keys seen so far. *)
Fixpoint ensure_denom_uniqueness_go (denom_map : gset string) (fwd_configs : list UncheckedForwardingConfig)
    : result LibraryError unit :=
  match fwd_configs with
  | [] => Ok ()
  | cfg :: rest =>
      let key := debug_unchecked (ufc_denom cfg) in
      if bool_decide (key ∈ denom_map)
      then Err (ConfigurationError ("Duplicate denom '" ++ debug_unchecked (ufc_denom cfg) ++
                                    "' in forwarding config."))
      else ensure_denom_uniqueness_go ({[key]} ∪ denom_map) rest
  end.
Definition ensure_denom_uniqueness : list UncheckedForwardingConfig → result LibraryError unit :=
  ensure_denom_uniqueness_go ∅.

Definition convert_to_checked_configs (q : LibQuerier) (fwd_configs : list UncheckedForwardingConfig)
    : result LibraryError (list ForwardingConfig) :=
  map_err_r ConfigurationError
    (mapM (λ ufc,
       checked ← q_into_checked q (ufc_denom ufc);
       Ok (mkForwardingConfig checked (ufc_max_amount ufc))) fwd_configs).

Definition do_validate (cfg : LibraryConfig) : result LibraryError (Addr * Addr) :=
  input_addr ← try_ (to_addr (raw_input_addr cfg));
  output_addr ← try_ (to_addr (raw_output_addr cfg));
  _ ← ensure_denom_uniqueness (raw_forwarding_configs cfg);
  Ok (input_addr, output_addr).
#[global] Instance forwarder_validation : LibraryConfigValidation LibraryConfig Config := {
  validate q cfg :=
    '(input_addr, output_addr) ← do_validate cfg;
    checked_fwd_configs ← convert_to_checked_configs q (raw_forwarding_configs cfg);
    Ok (mkConfig input_addr output_addr checked_fwd_configs (raw_forwarding_constraints cfg));
}.

Definition update_config (q : LibQuerier) (_env : Env) (_info : MessageInfo)
    (u : LibraryConfigUpdate) : M unit :=
  config ← load_config;
  config ← match upd_input_addr u with
           | Some a =>
               addr ← of_result (to_addr a);
               mret (mkConfig addr (output_addr config) (forwarding_configs config)
                       (forwarding_constraints config))
           | None => mret config
           end;
  config ← match upd_output_addr u with
           | Some a =>
               addr ← of_result (to_addr a);
               mret (mkConfig (input_addr config) addr (forwarding_configs config)
                       (forwarding_constraints config))
           | None => mret config
           end;
  config ← match upd_forwarding_configs u with
           | Some fwd_configs =>
               _ ← of_result (ensure_denom_uniqueness fwd_configs);
               checked_fwd_configs ← of_result (convert_to_checked_configs q fwd_configs);
               mret (mkConfig (input_addr config) (output_addr config) checked_fwd_configs
                       (forwarding_constraints config))
           | None => mret config
           end;
  let config := match upd_forwarding_constraints u with
                | Some forwarding_constraints =>
                    mkConfig (input_addr config) (output_addr config) (forwarding_configs config)
                      forwarding_constraints
                | None => config
                end in
  save_config config.

(** The balance is dropped when the query fails or the balance is zero. *)
Definition prepare_transfer_amounts (q : LibQuerier) (cfg : Config) : list (N * CheckedDenom) :=
  omap (λ fwd_cfg,
    match q_denom_balance q (fwd_denom fwd_cfg) (input_addr cfg) with
    | Ok balance =>
        if (balance =? 0)%N then None
        else Some (N.min balance (fwd_max_amount fwd_cfg), fwd_denom fwd_cfg)
    | _ => None
    end) (forwarding_configs cfg).

Definition prepare_transfer_messages (coins_to_transfer : list (N * CheckedDenom)) (output_addr : Addr)
    : result LibraryError (list CosmosMsg) :=
  try_ (mapM (λ '(amount, denom), get_transfer_to_message denom output_addr amount) coins_to_transfer).

Definition ensure_forwarding_interval (cfg : Config) (env : Env) : M unit :=
  match min_interval (forwarding_constraints cfg) with
  | Some min_interval =>
      s ← get_storage;
      match lget LAST_SUCCESSFUL_FORWARD s with
      | Some last_successful_forward =>
          expiration ← expect (duration_after min_interval last_successful_forward);
          fail_if (negb (is_expired expiration (env_block env)))
            (ExecutionError "Forwarding constraint not met.")
      | None => mret ()
      end
  | None => mret ()
  end.

Definition process_function (q : LibQuerier) (env : Env) (_info : MessageInfo) (msg : FunctionMsgs)
    (cfg : Config) : M Response :=
  match msg with
  | Forward =>
      _ ← ensure_forwarding_interval cfg env;
      let transfer_amounts := prepare_transfer_amounts q cfg in
      transfer_messages ← of_result (prepare_transfer_messages transfer_amounts (output_addr cfg));
      input_account_msgs ← of_result (execute_on_behalf_of transfer_messages (input_addr cfg));
      _ ← item_save LAST_SUCCESSFUL_FORWARD (env_block env);
      mret (add_message input_account_msgs (add_attribute "method" "forward" Response_new))
  end.
End Contract.
End Forwarder.
