(* ===== verification/ForwarderTheorems.v ===== *)
(** * Forwarder: limits per transfer and between transfers *)
From Stdlib Require Import Strings.Byte.
From S2P Require Import Prelude Platform Types Format Accounts LibraryBase LibraryProofs Forwarder.
From S2P Require Import Codec LibraryCodec.
Import Library Forwarder.

Section Proofs.
Context `{CPl : Platform} `{CDe : CwDenom} `{CJs : JsonCodec AccountExecuteMsg}.
Context `{COw : CwOwnable} `{CDb : CwOwnableDebug}.

Definition forwarder_lib
    : LibraryFns LibraryConfig Config (option BlockInfo) FunctionMsgs LibraryConfigUpdate :=
  mkLibraryFns process_function update_config.
Abbreviation St := (storage LibraryConfig Config (option BlockInfo)).

(** ** Validated configurations have every denomination once *)
Definition forwarder_valid (c : Config) : Prop := NoDup (fwd_denom <$> forwarding_configs c).

Lemma ensure_denom_uniqueness_go_ok seen l :
  ensure_denom_uniqueness_go seen l = Ok () →
  NoDup (ufc_denom <$> l) ∧ Forall (λ c, debug_unchecked (ufc_denom c) ∉ seen) l.
Proof.
  revert seen. induction l as [|c l IH]; intros seen; simpl; [by repeat constructor|].
  case_bool_decide as Hin; [done|]. intros [Hnd Hf]%IH. rewrite Forall_forall in Hf. split.
  - constructor; [|done]. intros (c' & Heq & Hc')%list_elem_of_fmap.
    apply (Hf c' Hc'). rewrite <-Heq. set_solver.
  - constructor; [done|]. apply Forall_forall. intros c' Hc'. specialize (Hf c' Hc'). set_solver.
Qed.
Lemma convert_to_checked_configs_NoDup q l k `{!LibQuerierLaws q} :
  NoDup (ufc_denom <$> l) → convert_to_checked_configs q l = Ok k → NoDup (fwd_denom <$> k).
Proof.
  unfold convert_to_checked_configs. intros Hnd Hk%map_err_r_ok%mapM_result_Forall2.
  induction Hk as [|u c l k Hc Hk IH]; [constructor|].
  apply bind_result_ok in Hc as (d & Hd & [= <-]). simpl in Hnd. apply NoDup_cons in Hnd as [Hu Hnd].
  simpl. constructor; [|auto]. intros (c' & Hdc & Hc')%list_elem_of_fmap. simpl in Hdc. subst d.
  apply Hu. eapply Forall2_elem_r in Hk as (u' & Hu' & Hc''); [|exact Hc'].
  apply bind_result_ok in Hc'' as (d' & Hd' & [= <-]). simpl in Hd.
  apply list_elem_of_fmap. exists u'. split; [|done]. by eapply into_checked_inj.
Qed.
Lemma validate_forwarder_valid q raw c `{!LibQuerierLaws q} : validate q raw = Ok c → forwarder_valid c.
Proof.
  simpl. intros ([i o] & Hd & (k & Hk & [= <-])%bind_result_ok)%bind_result_ok.
  unfold do_validate in Hd. apply bind_result_ok in Hd as (a & _ & Hd).
  apply bind_result_ok in Hd as (b & _ & Hd). apply bind_result_ok in Hd as ([] & Hu & _).
  apply ensure_denom_uniqueness_go_ok in Hu as [Hu _]. by eapply convert_to_checked_configs_NoDup.
Qed.
Lemma forwarder_update_ok q env info u (s s' : St) v :
  update_config q env info u s = Ok (v, s') →
  ∃ c c', s_config s = Some c ∧ s' = lset CONFIG_KEY (Some c') s ∧
    (LibQuerierLaws q → forwarder_valid c → forwarder_valid c').
Proof.
  unfold update_config, load_config, save_config. intros Hu.
  apply Exec_bind_ok in Hu as (c & s1 & [Hc ->]%item_load_ok & Hu). exists c.
  apply Exec_bind_ok in Hu as (c1 & s1 & H1 & Hu).
  assert (s1 = s ∧ forwarding_configs c1 = forwarding_configs c) as [-> E1]
    by (destruct (upd_input_addr u); by run_inv).
  apply Exec_bind_ok in Hu as (c2 & s2 & H2 & Hu).
  assert (s2 = s ∧ forwarding_configs c2 = forwarding_configs c) as [-> E2]
    by (destruct (upd_output_addr u); run_inv; by rewrite ?E1).
  apply Exec_bind_ok in Hu as (c3 & s3 & H3 & Hu).
  assert (s3 = s ∧ (LibQuerierLaws q → forwarder_valid c → forwarder_valid c3)) as [-> E3].
  { unfold forwarder_valid. destruct (upd_forwarding_configs u); run_inv; (split; [done|]); intros Hq Hv.
    - match goal with He : ensure_denom_uniqueness _ = Ok ?x |- _ =>
        destruct x; apply ensure_denom_uniqueness_go_ok in He as [He _] end.
      by eapply convert_to_checked_configs_NoDup.
    - by rewrite E2. }
  run_inv. eexists. split_and!; [done..|]. by destruct (upd_forwarding_constraints u).
Qed.

(** ** A forward *)
Record forwarded (q : LibQuerier) (env : Env) (c : Config) (s s' : St) (r : Response) : Prop := {
  fw_interval : ∀ d last, min_interval (forwarding_constraints c) = Some d → s_ext s = Some last →
    ∃ e, duration_after d last = Some e ∧ is_expired e (env_block env) = true;
  fw_messages : ∃ msgs m,
    Forall2 (λ '(amount, denom) m, get_transfer_to_message denom (output_addr c) amount = Ok m)
      (prepare_transfer_amounts q c) msgs ∧
    execute_on_behalf_of msgs (input_addr c) = Ok m ∧ resp_messages r = [SubMsg_new m];
  fw_state : s' = lset EXT (Some (env_block env)) s;
}.
Lemma ensure_forwarding_interval_ok c env (s s' : St) u :
  ensure_forwarding_interval c env s = Ok (u, s') →
  s' = s ∧ ∀ d last, min_interval (forwarding_constraints c) = Some d → s_ext s = Some last →
    ∃ e, duration_after d last = Some e ∧ is_expired e (env_block env) = true.
Proof.
  unfold ensure_forwarding_interval. intros He.
  destruct (min_interval _) as [d|]; [|run_inv; naive_solver].
  apply Exec_bind_ok in He as (s0 & s1 & [-> ->]%get_storage_ok & He). simpl in He.
  destruct (s_ext s) as [last|]; run_inv; (split; [done|]); intros; simplify_eq.
  eexists. split; [done|]. by apply negb_false_iff.
Qed.
Lemma forward_ok q env info c (s s' : St) r :
  process_function q env info Forward c s = Ok (r, s') → forwarded q env c s s' r.
Proof.
  unfold process_function, prepare_transfer_messages.
  intros (u & s1 & [-> Hi]%ensure_forwarding_interval_ok & Hf)%Exec_bind_ok. run_inv. split; [done| |done].
  match goal with Hm : try_ _ = Ok _ |- _ => apply try_ok, mapM_result_Forall2 in Hm end.
  do 2 eexists. split_and!; [|done|done]. eapply Forall2_impl; [done|]. by intros [a d] m.
Qed.

#[global] Instance forwarder_laws : LibraryLaws forwarder_lib forwarder_valid eq LibQuerierLaws.
Proof.
  split.
  - intros q raw c ? Hv. by eapply validate_forwarder_valid.
  - intros q env info u s v s' Hq (c & c' & Hc & -> & Hv)%(forwarder_update_ok q env info) Hs c1 [= <-].
    by apply Hv, Hs.
  - intros q env info u s v s' (c & c' & Hc & -> & Hv)%(forwarder_update_ok q env info). done.
  - intros q env info [] c s r s' Hf%(forward_ok q env info) Hc. rewrite (fw_state _ _ _ _ _ _ Hf). eauto.
  - intros q env info [] c s r s' Hf%(forward_ok q env info). rewrite (fw_state _ _ _ _ _ _ Hf). done.
Qed.

(** The blocks of the forwards of a run, the latest first. *)
Definition forwards (env : Env) (msg : LibExecuteMsg FunctionMsgs LibraryConfigUpdate) : list BlockInfo :=
  match msg with ProcessFunction Forward => [env_block env] | _ => [] end.
Inductive forwarder_run : list BlockInfo → St → Prop :=
| forwarder_start q name version msg r s :
    LibQuerierLaws q → instantiate q name version msg (empty_storage None) = Ok (r, s) →
    forwarder_run [] s
| forwarder_tx blocks q env info msg s r s' :
    LibQuerierLaws q → forwarder_run blocks s →
    lib_execute forwarder_lib q env info msg s = Ok (r, s') →
    forwarder_run (forwards env msg ++ blocks) s'.

Lemma forwarder_run_state `{!CwOwnableLaws} blocks s :
  forwarder_run blocks s →
  s_ext s = head blocks ∧ ∃ c, s_config s = Some c ∧ forwarder_valid c.
Proof.
  induction 1 as [q name version msg r s Hq Hi|blocks q env info msg s r s' Hq _ [He Hc] Hx].
  - apply lib_instantiate_ok in Hi as (c & Hv%validate_forwarder_valid & Hc & _ & -> & _); [|done].
    split; [done|eauto].
  - split; [|by eapply (lib_execute_config forwarder_lib forwarder_valid eq LibQuerierLaws)].
    destruct msg as [[]|u|p|a].
    + apply lib_execute_process in Hx as (c0 & _ & _ & Hf%(forward_ok q env info)).
      by rewrite (fw_state _ _ _ _ _ _ Hf).
    + by apply (lib_execute_access forwarder_lib forwarder_valid eq LibQuerierLaws) in Hx as (_ & _ & _ & -> & _).
    + by apply (lib_execute_access forwarder_lib forwarder_valid eq LibQuerierLaws) in Hx as (_ & a & _ & -> & _).
    + by apply (lib_execute_access forwarder_lib forwarder_valid eq LibQuerierLaws) in Hx as (o & _ & -> & _).
Qed.
End Proofs.

Lemma elem_of_transfers q c amount d :
  (amount, d) ∈ prepare_transfer_amounts q c ↔
  ∃ max balance, mkForwardingConfig d max ∈ forwarding_configs c ∧
    q_denom_balance q d (input_addr c) = Ok balance ∧ balance ≠ 0%N ∧ amount = N.min balance max.
Proof.
  unfold prepare_transfer_amounts. rewrite list_elem_of_omap. split.
  - intros ([d' max] & Hin & Hb). simpl in Hb.
    destruct (q_denom_balance q d' (input_addr c)) as [b| |] eqn:Hq; [|done..].
    destruct (N.eqb_spec b 0); [done|]. simplify_eq. eauto 10.
  - intros (max & b & Hin & Hq & Hb & ->). exists (mkForwardingConfig d max). split; [done|].
    simpl. rewrite Hq. by rewrite (proj2 (N.eqb_neq _ _) Hb).
Qed.
Lemma transfers_NoDup q c : forwarder_valid c → NoDup (snd <$> prepare_transfer_amounts q c).
Proof.
  unfold forwarder_valid, prepare_transfer_amounts.
  induction (forwarding_configs c) as [|[d max] l IH]; simpl; [constructor|].
  intros [Hd Hnd]%NoDup_cons. specialize (IH Hnd).
  destruct (q_denom_balance q d (input_addr c)) as [b| |]; [|done..].
  destruct (b =? 0)%N; [done|]. simpl. constructor; [|done].
  intros ([a d'] & Heq & (f & Hf & Hx)%list_elem_of_omap)%list_elem_of_fmap. simpl in Heq. subst d'.
  apply Hd, list_elem_of_fmap. exists f. split; [|done].
  destruct (q_denom_balance q (fwd_denom f) (input_addr c)); [|done..]. by case_match; simplify_eq.
Qed.

(** C25 A forward stays within its limits.  In every run, a forward is obeyed for the
    processor only; it sends one message to the input account, which transfers each
    configured denomination at most once, in the amount of the account's balance or of
    the configured maximum, whichever is smaller, exactly when the balance can be queried
    and is not zero; and when a minimal interval is configured, it has passed since the
    latest forward of the run, in blocks or in time. *)
Theorem forward_within_limits
    `{Platform} `{!PlatformLaws} `{CwDenom} `{JsonCodec AccountExecuteMsg}
    `{COw : CwOwnable} `{!CwOwnableLaws} `{CwOwnableDebug} (blocks : list BlockInfo)
    (s : storage LibraryConfig Config (option BlockInfo)) q env info r s' :
  forwarder_run blocks s →
  lib_execute forwarder_lib q env info (ProcessFunction Forward) s = Ok (r, s') →
  ∃ c transfers msgs m,
    s_config s = Some c ∧ s_processor s = Some (info_sender info) ∧
    resp_messages r = [SubMsg_new m] ∧ execute_on_behalf_of msgs (input_addr c) = Ok m ∧
    Forall2 (λ '(amount, d) t, get_transfer_to_message d (output_addr c) amount = Ok t)
      transfers msgs ∧
    NoDup (snd <$> transfers) ∧
    (∀ amount d, (amount, d) ∈ transfers ↔
       ∃ max balance, mkForwardingConfig d max ∈ forwarding_configs c ∧
         q_denom_balance q d (input_addr c) = Ok balance ∧ balance ≠ 0%N ∧
         amount = N.min balance max) ∧
    (∀ last, head blocks = Some last →
       match min_interval (forwarding_constraints c) with
       | Some (DurHeight h) => (block_height last + h ≤ block_height (env_block env))%N
       | Some (DurTime t) => (block_time last + t * 1000000000 ≤ block_time (env_block env))%N
       | None => True
       end).
Proof.
  intros [Hext (c & Hc & Hv)]%forwarder_run_state (c0 & Hp & Hc0 & Hf)%lib_execute_process.
  assert (c0 = c) as -> by congruence. apply (forward_ok q env info) in Hf as [Hi (msgs & m & Hms & Hm & Hr) _].
  exists c, (prepare_transfer_amounts q c), msgs, m. split_and!; try done.
  - by apply transfers_NoDup.
  - intros amount d. apply elem_of_transfers.
  - intros last Hl. destruct (min_interval _) as [[h|t]|]; [| |done].
    + destruct (Hi _ last eq_refl) as (e & ->%duration_after_height & He); [congruence|].
      rewrite is_expired_height in He. by apply N.leb_le.
    + destruct (Hi _ last eq_refl) as (e & ->%duration_after_time & He); [congruence|].
      rewrite is_expired_time in He. by apply N.leb_le.
Qed.

(** A forwarder of at most 30 "untrn" every 5 blocks, in its second forward. *)
Definition sample_forwarder_tx (height : N) : Exec (storage LibraryConfig Config (option BlockInfo)) LibraryError Response :=
  lib_execute forwarder_lib (ref_lib_querier 100) (mkEnv (mkBlock height height) "forwarder")
    (mkInfo "processor" []) (ProcessFunction Forward).
Definition sample_forwarder_init : Exec (storage LibraryConfig Config (option BlockInfo)) LibraryError Response :=
  instantiate (ref_lib_querier 100) "forwarder" "1"
    (mkLibInstantiateMsg "owner" "processor" (mkLibraryConfig (LibAddr "in") (LibAddr "out")
      [mkUncheckedForwardingConfig (UncheckedNative "untrn") 30]
      (mkForwardingConstraints (Some (DurHeight 5))))).
Definition sample_forwarder : storage LibraryConfig Config (option BlockInfo) :=
  after (sample_forwarder_tx 10) (after sample_forwarder_init (empty_storage None)).
Lemma sample_forwarder_run : forwarder_run [mkBlock 10 10] sample_forwarder.
Proof.
  destruct (after_ok sample_forwarder_init (empty_storage None)) as [r0 H0]; [by vm_compute|].
  destruct (after_ok (sample_forwarder_tx 10) (after sample_forwarder_init (empty_storage None)))
    as [r1 H1]; [by vm_compute|].
  eapply (forwarder_tx [] (ref_lib_querier 100) (mkEnv (mkBlock 10 10) "forwarder")
    (mkInfo "processor" []) (ProcessFunction Forward)); [apply _| |exact H1].
  by eapply forwarder_start; [apply ref_lib_querier_laws|].
Qed.
Lemma forward_within_limits_witness : ∃ r s' c,
  lib_execute forwarder_lib (ref_lib_querier 100) (mkEnv (mkBlock 15 15) "forwarder")
    (mkInfo "processor" []) (ProcessFunction Forward) sample_forwarder = Ok (r, s') ∧
  s_config sample_forwarder = Some c ∧ length (resp_messages r) = 1.
Proof.
  destruct (after_ok (sample_forwarder_tx 15) sample_forwarder) as [r Hr]; [by vm_compute|].
  destruct (forward_within_limits _ _ _ _ _ _ _ sample_forwarder_run Hr)
    as (c & transfers & msgs & m & Hc & _ & Hm & _).
  exists r, (after (sample_forwarder_tx 15) sample_forwarder), c.
  split; [exact Hr|]. split; [exact Hc|]. by rewrite Hm.
Defined.
