(* ===== verification/Splitter.v ===== *)
(** * The splitter library ([contracts/libraries/splitter])

    Splits the balances of the input account between accounts, by fixed amounts, fixed
    ratios, or ratios that another contract gives. *)
From Stdlib Require Import Strings.Byte.
From S2P Require Import Prelude Platform Types Format Accounts LibraryBase.

Module Splitter.
Import Library.

(** ** [msg.rs] *)
Inductive FunctionMsgs := Split.
Inductive SplitAmount :=
| FixedAmount (amount : N)
| FixedRatio (ratio : Decimal)
| DynamicRatio (contract_addr : Addr) (params : string).
Record SplitConfig := mkSplitConfig {
  sc_denom : CheckedDenom;
  sc_account : Addr;
  sc_amount : SplitAmount;
}.
Inductive UncheckedSplitAmount :=
| UncheckedFixedAmount (amount : N)
| UncheckedFixedRatio (ratio : Decimal)
| UncheckedDynamicRatio (contract_addr : string) (params : string).
Record UncheckedSplitConfig := mkUncheckedSplitConfig {
  usc_denom : UncheckedDenom;
  usc_account : LibraryAccountType;
  usc_amount : UncheckedSplitAmount;
}.
Record LibraryConfig := mkLibraryConfig {
  raw_input_addr : LibraryAccountType;
  raw_splits : list UncheckedSplitConfig;
}.
Record Config := mkConfig { input_addr : Addr; splits : list SplitConfig }.
Record LibraryConfigUpdate := mkLibraryConfigUpdate {
  upd_input_addr : option LibraryAccountType;
  upd_splits : option (list UncheckedSplitConfig);
}.
#[global] Instance splitter_update_raw : LibraryConfigUpdateTrait LibraryConfigUpdate LibraryConfig := {
  update_raw_config u raw := mkLibraryConfig
    (set_field (upd_input_addr u) (raw_input_addr raw))
    (set_field (upd_splits u) (raw_splits raw));
}.
Abbreviation M := (Exec (storage LibraryConfig Config ()) LibraryError).

Section Contract.
Context `{Platform} `{CwDenom} `{CosmMath} `{HashOrder} `{JsonCodec AccountExecuteMsg}.

(** ** Validation *)

(** The variables of the loop of [validate_splits]. *)
Record split_checks := mkSplitChecks {
  denom_set : gset string;
  denom_amount : gset string;
  denom_ratios : gmap string Decimal;
}.
Definition split_key (split : UncheckedSplitConfig) : string :=
  debug_unchecked (usc_denom split) ++ "|" ++ debug_account (usc_account split).
Definition validate_split (st : split_checks) (split : UncheckedSplitConfig)
    : result LibraryError split_checks :=
  _ ← try_ (to_addr (usc_account split));
  let key := split_key split in
  if bool_decide (key ∈ denom_set st) then
    Err (ConfigurationError ("Duplicate split '" ++ key ++ "' in split config."))
  else
  let denom_set := {[key]} ∪ denom_set st in
  let denom_key := debug_unchecked (usc_denom split) in
  match usc_amount split with
  | UncheckedFixedAmount amount =>
      if (amount =? 0)%N
      then Err (ConfigurationError "Invalid split config: amount cannot be zero.")
      else Ok (mkSplitChecks denom_set ({[denom_key]} ∪ denom_amount st) (denom_ratios st))
  | UncheckedFixedRatio ratio =>
      if (ratio =? 0)%N
      then Err (ConfigurationError "Invalid split config: ratio cannot be zero.")
      else
        sum ← match denom_ratios st !! denom_key with
              | Some sum => expect_r (decimal_add sum ratio)
              | None => Ok ratio
              end;
        Ok (mkSplitChecks denom_set (denom_amount st) (<[denom_key := sum]> (denom_ratios st)))
  | UncheckedDynamicRatio contract_addr _ =>
      _ ← try_ (addr_validate contract_addr);
      Ok (mkSplitChecks denom_set (denom_amount st) (denom_ratios st))
  end.
Fixpoint validate_split_loop (st : split_checks) (splits : list UncheckedSplitConfig)
    : result LibraryError split_checks :=
  match splits with
  | [] => Ok st
  | split :: splits => st' ← validate_split st split; validate_split_loop st' splits
  end.
Definition validate_ratio (st : split_checks) (entry : string * Decimal) : result LibraryError unit :=
  let '(key, sum) := entry in
  if bool_decide (key ∈ denom_amount st) then
    Err (ConfigurationError ("Invalid split config: cannot combine amount and ratio for the same denom '"
                             ++ key ++ "'."))
  else if bool_decide (to_uint_ceil sum ≠ 1%N) then
    Err (ConfigurationError ("Invalid split config: sum of ratios for denom '" ++ key ++
                             "' is not equal to 1."))
  else Ok ().
Definition validate_splits (splits : list UncheckedSplitConfig) : result LibraryError unit :=
  match splits with
  | [] => Err (ConfigurationError "No split configuration provided.")
  | _ =>
      st ← validate_split_loop (mkSplitChecks ∅ ∅ ∅) splits;
      _ ← mapM (validate_ratio st) (hash_iter (denom_ratios st));
      Ok ()
  end.

Definition convert_to_checked_split_amount (amount : UncheckedSplitAmount) : result LibraryError SplitAmount :=
  match amount with
  | UncheckedFixedAmount a => Ok (FixedAmount a)
  | UncheckedFixedRatio r => Ok (FixedRatio r)
  | UncheckedDynamicRatio contract_addr params =>
      addr ← try_ (addr_validate contract_addr);
      Ok (DynamicRatio addr params)
  end.
Definition convert_to_checked_config (q : LibQuerier) (c : UncheckedSplitConfig)
    : result LibraryError SplitConfig :=
  denom ← map_err_r ConfigurationError (q_into_checked q (usc_denom c));
  account ← try_ (to_addr (usc_account c));
  amount ← convert_to_checked_split_amount (usc_amount c);
  Ok (mkSplitConfig denom account amount).
Definition convert_to_checked_configs (q : LibQuerier) (splits : list UncheckedSplitConfig)
    : result LibraryError (list SplitConfig) :=
  mapM (convert_to_checked_config q) splits.

Definition do_validate (cfg : LibraryConfig) : result LibraryError Addr :=
  input_addr ← try_ (to_addr (raw_input_addr cfg));
  _ ← validate_splits (raw_splits cfg);
  Ok input_addr.
#[global] Instance splitter_validation : LibraryConfigValidation LibraryConfig Config := {
  validate q cfg :=
    input_addr ← do_validate cfg;
    checked_splits ← convert_to_checked_configs q (raw_splits cfg);
    Ok (mkConfig input_addr checked_splits);
}.
Definition update_config (q : LibQuerier) (_env : Env) (_info : MessageInfo)
    (u : LibraryConfigUpdate) : M unit :=
  config ← load_config;
  config ← match upd_input_addr u with
           | Some a =>
               addr ← of_result (to_addr a);
               mret (mkConfig addr (splits config))
           | None => mret config
           end;
  config ← match upd_splits u with
           | Some splits =>
               _ ← of_result (validate_splits splits);
               checked_splits ← of_result (convert_to_checked_configs q splits);
               mret (mkConfig (input_addr config) checked_splits)
           | None => mret config
           end;
  save_config config.

(** ** Splitting *)
Definition denom_key (denom : CheckedDenom) : string := debug_checked denom.
Definition dyn_ratio_key (denom : CheckedDenom) (contract_addr : Addr) (params : string) : string :=
  debug_checked denom ++ "-" ++ contract_addr ++ "/" ++ params.

Definition query_dynamic_ratio (q : LibQuerier) (contract_addr : Addr) (params : string)
    (denom : CheckedDenom) : result LibraryError Decimal :=
  let denom_name := checked_denom_to_string denom in
  denom_ratios ← try_ (q_dynamic_ratio q contract_addr [denom_name] params);
  match denom_ratios !! denom_name with
  | Some ratio => Ok ratio
  | None => Err (ExecutionError ("Dynamic ratio not found for denom '" ++ denom_name ++ "'."))
  end.

(** The caches of the first loop of [prepare_transfer_amounts]. *)
Record caches := mkCaches {
  denom_balances : gmap string N;
  dynamic_ratios : gmap string Decimal;
}.
Definition query_split (q : LibQuerier) (cfg : Config) (st : caches) (split : SplitConfig)
    : result LibraryError caches :=
  let denom := sc_denom split in
  let key := denom_key denom in
  balances ← match denom_balances st !! key with
             | Some _ => Ok (denom_balances st)
             | None =>
                 balance ← try_ (q_denom_balance q denom (input_addr cfg));
                 Ok (<[key := balance]> (denom_balances st))
             end;
  match sc_amount split with
  | DynamicRatio contract_addr params =>
      let key := dyn_ratio_key denom contract_addr params in
      match dynamic_ratios st !! key with
      | Some _ => Ok (mkCaches balances (dynamic_ratios st))
      | None =>
          ratio ← query_dynamic_ratio q contract_addr params denom;
          Ok (mkCaches balances (<[key := ratio]> (dynamic_ratios st)))
      end
  | _ => Ok (mkCaches balances (dynamic_ratios st))
  end.
Fixpoint query_splits (q : LibQuerier) (cfg : Config) (st : caches) (splits : list SplitConfig)
    : result LibraryError caches :=
  match splits with
  | [] => Ok st
  | split :: splits => st' ← query_split q cfg st split; query_splits q cfg st' splits
  end.

Abbreviation transfer := (N * CheckedDenom * Addr)%type.
Definition split_transfer (st : caches) (split : SplitConfig) : result LibraryError transfer :=
  balance ← expect_r (denom_balances st !! denom_key (sc_denom split));
  amount ← match sc_amount split with
           | FixedAmount amount => Ok amount
           | FixedRatio ratio => expect_r (multiply_ratio balance ratio decimal_one)
           | DynamicRatio contract_addr params =>
               ratio ← expect_r (dynamic_ratios st !! dyn_ratio_key (sc_denom split) contract_addr params);
               expect_r (multiply_ratio balance ratio decimal_one)
           end;
  Ok (amount, sc_denom split, sc_account split).

(** [into_group_map_by]. *)
Definition group_by_denom (amounts : list transfer) : gmap string (list transfer) :=
  foldl (λ m t, partial_alter (λ o, Some (default [] o ++ [t])) (denom_key (t.1.2)) m) ∅ amounts.
(** [Iterator::sum] on [Uint128]. *)
Definition uint128_sum (l : list N) : option N :=
  foldl (λ acc x, a ← acc; checked_add u128_max a x) (Some 0%N) l.
Definition check_total (st : caches) (group : string * list transfer) : result LibraryError unit :=
  let '(denom, amounts) := group in
  total_amount ← expect_r (uint128_sum ((λ t, t.1.1) <$> amounts));
  balance ← expect_r (denom_balances st !! denom);
  if (balance <? total_amount)%N
  then Err (ExecutionError ("Insufficient balance for denom '" ++ denom ++
              "' in split config (required: " ++ pretty total_amount ++ ", available: " ++
              pretty balance ++ ")."))
  else Ok ().

Definition prepare_transfer_amounts (q : LibQuerier) (cfg : Config) : result LibraryError (list transfer) :=
  st ← query_splits q cfg (mkCaches ∅ ∅) (splits cfg);
  amounts ← mapM (split_transfer st) (splits cfg);
  _ ← mapM (check_total st) (hash_iter (group_by_denom amounts));
  Ok amounts.
Definition prepare_transfer_messages (coins_to_transfer : list transfer)
    : result LibraryError (list CosmosMsg) :=
  try_ (mapM (λ '(amount, denom, account), get_transfer_to_message denom account amount)
          coins_to_transfer).

Definition process_function (q : LibQuerier) (_env : Env) (_info : MessageInfo) (msg : FunctionMsgs)
    (cfg : Config) : M Response :=
  match msg with
  | Split =>
      transfer_amounts ← of_result (prepare_transfer_amounts q cfg);
      transfer_messages ← of_result (prepare_transfer_messages transfer_amounts);
      input_account_msgs ← of_result (execute_on_behalf_of transfer_messages (input_addr cfg));
      mret (add_message input_account_msgs (add_attribute "method" "split" Response_new))
  end.
End Contract.
End Splitter.
