(* ===== verification/SplitterTheorems.v ===== *)
(** * Splitter: validated configurations, and what a split moves *)
From Stdlib Require Import Strings.Byte.
From S2P Require Import Prelude Platform Types Format Accounts LibraryBase LibraryProofs Splitter.
From S2P Require Import Codec LibraryCodec.
Import Library Splitter.

(** ** Validated configurations *)

(** The fixed ratio of a split, if it is one for the denomination. *)
Definition ratio_of (d : CheckedDenom) (s : SplitConfig) : N :=
  match sc_amount s with
  | FixedRatio r => if decide (sc_denom s = d) then r else 0
  | _ => 0
  end.
Definition fixed_ratios (d : CheckedDenom) (l : list SplitConfig) : N := sumN (ratio_of d) l.
Definition nonzero_amount (s : SplitConfig) : Prop :=
  match sc_amount s with
  | FixedAmount a => a ≠ 0%N
  | FixedRatio r => r ≠ 0%N
  | DynamicRatio _ _ => True
  end.
Definition is_fixed_amount (s : SplitConfig) : Prop :=
  match sc_amount s with FixedAmount _ => True | _ => False end.
(** What the rest of the code may rely on. *)
Record splitter_valid (c : Config) : Prop := {
  sv_some : splits c ≠ [];
  sv_unique : NoDup ((λ s, (sc_denom s, sc_account s)) <$> splits c);
  sv_nonzero : Forall nonzero_amount (splits c);
  sv_ratios : ∀ d, (fixed_ratios d (splits c) ≤ decimal_one)%N;
  sv_exclusive : ∀ d s, (0 < fixed_ratios d (splits c))%N → s ∈ splits c → sc_denom s = d →
    ¬ is_fixed_amount s;
}.

(** The same, before the denominations are checked. *)
Definition uratio_of (d : UncheckedDenom) (s : UncheckedSplitConfig) : N :=
  match usc_amount s with
  | UncheckedFixedRatio r => if decide (usc_denom s = d) then r else 0
  | _ => 0
  end.
Definition unonzero (s : UncheckedSplitConfig) : Prop :=
  match usc_amount s with
  | UncheckedFixedAmount a => a ≠ 0%N
  | UncheckedFixedRatio r => r ≠ 0%N
  | UncheckedDynamicRatio _ _ => True
  end.
Definition ufixed (s : UncheckedSplitConfig) : Prop :=
  match usc_amount s with UncheckedFixedAmount _ => True | _ => False end.

Section Proofs.
Context `{CPl : Platform} `{CDe : CwDenom} `{CMa : CosmMath} `{CHo : HashOrder}.
Context `{CJs : JsonCodec AccountExecuteMsg} `{!PlatformLaws} `{!CosmMathLaws} `{!HashOrderLaws}.

(** What the loop of [validate_splits] knows after the splits [l]. *)
Record checked_so_far (st : split_checks) (l : list UncheckedSplitConfig) : Prop := {
  cs_keys : NoDup (split_key <$> l) ∧ denom_set st = list_to_set (split_key <$> l);
  cs_nonzero : Forall unonzero l;
  cs_ratios : ∀ d, default 0%N (denom_ratios st !! debug_unchecked d) = sumN (uratio_of d) l;
  cs_amounts : ∀ s, s ∈ l → ufixed s → debug_unchecked (usc_denom s) ∈ denom_amount st;
}.

Lemma sumN_snoc {A} (f : A → N) l x : sumN f (l ++ [x]) = (sumN f l + f x)%N.
Proof. rewrite sumN_app. simpl. lia. Qed.

Lemma validate_split_checks st l s st' :
  checked_so_far st l → validate_split st s = Ok st' → checked_so_far st' (l ++ [s]).
Proof.
  intros [[Hnd Hset] Hnz Hra Ham] Hv. unfold validate_split in Hv.
  apply bind_result_ok in Hv as (a & _ & Hv). case_bool_decide as Hk; [done|].
  assert (NoDup (split_key <$> l ++ [s]) ∧
    {[split_key s]} ∪ denom_set st = list_to_set (split_key <$> l ++ [s])) as [Hnd' Hset'].
  { rewrite fmap_app. simpl. split; [|rewrite list_to_set_app_L; set_solver].
    apply NoDup_app. split_and!; [done| |apply NoDup_singleton].
    intros x Hx ->%list_elem_of_singleton. apply Hk. rewrite Hset. by apply elem_of_list_to_set. }
  destruct (usc_amount s) as [amount|r|addr params] eqn:Hs.
  - destruct (N.eqb_spec amount 0); [done|]. injection Hv as <-. split; simpl.
    + done.
    + apply Forall_app. split; [done|]. constructor; [|done]. unfold unonzero. by rewrite Hs.
    + intros d. rewrite sumN_snoc, (Hra d). unfold uratio_of. rewrite Hs. lia.
    + intros s' [Hin| ->%list_elem_of_singleton]%elem_of_app Hf; set_solver.
  - destruct (N.eqb_spec r 0); [done|]. apply bind_result_ok in Hv as (sum & Hsum & [= <-]).
    assert (sum = sumN (uratio_of (usc_denom s)) l + r)%N as ->.
    { rewrite <-Hra. destruct (denom_ratios st !! _) as [s0|]; simpl.
      - rewrite decimal_add_spec in Hsum.
        destruct (checked_add u128_max s0 r) as [t|] eqn:Hadd; [|done]. simplify_eq/=.
        by apply checked_add_Some in Hadd as [-> _].
      - by simplify_eq/=. }
    split; simpl.
    + done.
    + apply Forall_app. split; [done|]. constructor; [|done]. unfold unonzero. by rewrite Hs.
    + intros d. rewrite sumN_snoc. unfold uratio_of at 3. rewrite Hs.
      case_decide as Hd.
      * subst d. by rewrite lookup_insert_eq.
      * rewrite lookup_insert_ne by (intros ?%debug_unchecked_inj; congruence).
        rewrite Hra. lia.
    + intros s' [Hin| ->%list_elem_of_singleton]%elem_of_app Hf; [by apply Ham|].
      unfold ufixed in Hf. by rewrite Hs in Hf.
  - apply bind_result_ok in Hv as (x & _ & [= <-]). split; simpl.
    + done.
    + apply Forall_app. split; [done|]. constructor; [|done]. unfold unonzero. by rewrite Hs.
    + intros d. rewrite sumN_snoc, (Hra d). unfold uratio_of. rewrite Hs. lia.
    + intros s' [Hin| ->%list_elem_of_singleton]%elem_of_app Hf; [by apply Ham|].
      unfold ufixed in Hf. by rewrite Hs in Hf.
Qed.
Lemma validate_split_loop_checks st l k st' :
  checked_so_far st l → validate_split_loop st k = Ok st' → checked_so_far st' (l ++ k).
Proof.
  revert st l. induction k as [|s k IH]; intros st l Hc; simpl.
  - intros [= <-]. by rewrite app_nil_r.
  - intros (st1 & Hst1 & Hk)%bind_result_ok. rewrite cons_middle, app_assoc.
    eapply IH; [|done]. by eapply validate_split_checks.
Qed.
Lemma to_uint_ceil_one d : to_uint_ceil d = 1%N → (d ≤ decimal_one)%N.
Proof.
  rewrite to_uint_ceil_spec. unfold decimal_one. intros Hd.
  assert ((d + (1000000000000000000 - 1)) < 1000000000000000000 * 2)%N; [|lia].
  pose proof (N.div_mod (d + (1000000000000000000 - 1)) 1000000000000000000 ltac:(lia)) as Hm.
  pose proof (N.mod_lt (d + (1000000000000000000 - 1)) 1000000000000000000 ltac:(lia)).
  rewrite Hd in Hm. lia.
Qed.
(** What [validate_splits] guarantees. *)
Lemma validate_splits_ok l u :
  validate_splits l = Ok u →
  l ≠ [] ∧ NoDup (split_key <$> l) ∧ Forall unonzero l ∧
  ∀ d, (sumN (uratio_of d) l ≤ decimal_one)%N ∧
    ((0 < sumN (uratio_of d) l)%N → ∀ s, s ∈ l → usc_denom s = d → ¬ ufixed s).
Proof.
  intros Hv. assert (l ≠ []) as Hl by (by intros ->).
  assert (∃ st, validate_split_loop (mkSplitChecks ∅ ∅ ∅) l = Ok st ∧
    Forall (λ e, validate_ratio st e = Ok ()) (hash_iter (denom_ratios st))) as (st & Hst & Hr).
  { unfold validate_splits in Hv. destruct l as [|s l]; [done|].
    apply bind_result_ok in Hv as (st & Hst & Hv). exists st. split; [done|].
    apply bind_result_ok in Hv as (us & Hus%mapM_result_Forall2 & _).
    apply Forall_forall. intros e He. eapply Forall2_elem_l in Hus as ([] & _ & ?); done. }
  apply (validate_split_loop_checks _ [] l) in Hst as [[Hnd _] Hnz Hra Ham].
  2:{ split; simpl; [split; [constructor|set_solver]|constructor| |set_solver].
      intros d. by rewrite lookup_empty. }
  simpl in *. split_and!; [done..|]. intros d. rewrite <-Hra.
  destruct (denom_ratios st !! debug_unchecked d) as [sum|] eqn:Hsum; simpl.
  2:{ split; [unfold decimal_one; lia|lia]. }
  assert ((debug_unchecked d, sum) ∈ hash_iter (denom_ratios st)) as Hin.
  { rewrite hash_iter_perm. by apply elem_of_map_to_list. }
  rewrite Forall_forall in Hr. apply Hr in Hin. simpl in Hin.
  case_bool_decide as Ha; [done|]. case_bool_decide as Hc; [done|].
  split; [by apply to_uint_ceil_one|].
  intros _ s Hs <- Hf. by apply Ha, Ham.
Qed.

(** ** From unchecked to checked splits *)
Lemma to_addr_same l a : to_addr l = Ok a → l = LibAddr a.
Proof. destruct l; simpl; [|done..]. by intros ->%addr_validate_same. Qed.

Section Conversion.
Context (q : LibQuerier) `{!LibQuerierLaws q}.

Lemma convert_split u s : convert_to_checked_config q u = Ok s →
  q_into_checked q (usc_denom u) = Ok (sc_denom s) ∧ usc_account u = LibAddr (sc_account s) ∧
  (unonzero u → nonzero_amount s) ∧ (is_fixed_amount s → ufixed u) ∧
  (∀ d du, q_into_checked q du = Ok d → ratio_of d s = uratio_of du u).
Proof.
  unfold convert_to_checked_config.
  intros (d & Hd%map_err_r_ok & (a & Ha%try_ok%to_addr_same & (m & Hm & [= <-])%bind_result_ok)%bind_result_ok)%bind_result_ok.
  simpl. split; [done|]. split; [done|].
  unfold unonzero, nonzero_amount, is_fixed_amount, ufixed, ratio_of, uratio_of. simpl.
  assert (∀ d0 du, q_into_checked q du = Ok d0 → d = d0 ↔ usc_denom u = du) as Hiff.
  { intros d0 du Hdu. split; [intros ->; by eapply into_checked_inj|intros <-; congruence]. }
  destruct (usc_amount u) as [x|r|addr params]; simpl in Hm.
  - injection Hm as <-. done.
  - injection Hm as <-. split_and!; [done..|]. intros d0 du Hdu%Hiff.
    repeat case_decide; naive_solver.
  - apply bind_result_ok in Hm as (x & _ & [= <-]). done.
Qed.
Lemma convert_ratios l k d : convert_to_checked_configs q l = Ok k →
  (0 < fixed_ratios d k)%N → ∃ du, q_into_checked q du = Ok d ∧ fixed_ratios d k = sumN (uratio_of du) l.
Proof.
  intros Hk%mapM_result_Forall2 Hpos. pose proof Hpos as (s & Hs & Hr)%sumN_pos.
  pose proof Hk as (u & Hu & Hus)%(Forall2_elem_r _ _ _ s); [|done].
  apply convert_split in Hus as (Hd & _). exists (usc_denom u).
  assert (sc_denom s = d) as <-.
  { unfold ratio_of in Hr. destruct (sc_amount s); try lia. case_decide; [done|lia]. }
  split; [done|]. symmetry. apply sumN_Forall2. eapply Forall2_impl; [exact Hk|].
  intros u' s' (_ & _ & _ & _ & Hra)%convert_split. symmetry. by apply Hra.
Qed.
Lemma convert_valid l k u i :
  validate_splits l = Ok u → convert_to_checked_configs q l = Ok k → splitter_valid (mkConfig i k).
Proof.
  intros (Hl & Hnd & Hnz & Hr)%validate_splits_ok Hk. pose proof Hk as Hf%mapM_result_Forall2.
  split; simpl.
  - intros ->. by apply Forall2_nil_inv_r in Hf.
  - clear Hk Hl Hr Hnz. induction Hf as [|x y l k Hxy Hf IH]; [constructor|].
    simpl in *. apply NoDup_cons in Hnd as [Hx Hnd]. constructor; [|auto].
    intros (y' & Heq & Hy')%list_elem_of_fmap. apply Hx.
    eapply Forall2_elem_r in Hf as (x' & Hx' & Hxy'); [|exact Hy'].
    apply list_elem_of_fmap. exists x'. split; [|done].
    apply convert_split in Hxy as (Hd & Ha & _), Hxy' as (Hd' & Ha' & _).
    injection Heq as Hde Hac. rewrite Hde in Hd. rewrite Hac in Ha.
    unfold split_key. rewrite Ha, Ha'. by rewrite (into_checked_inj _ _ _ _ Hd Hd').
  - clear Hk Hl Hr Hnd. induction Hf as [|x y l k Hxy Hf IH]; [constructor|].
    apply Forall_cons in Hnz as [Hx Hnz]. constructor; [|auto].
    by apply convert_split in Hxy as (_ & _ & Hn & _); auto.
  - intros d. destruct (N.eq_dec (fixed_ratios d k) 0%N) as [->|Hd]; [unfold decimal_one; lia|].
    destruct (convert_ratios l k d) as (du & _ & ->); [done|lia|]. by apply Hr.
  - intros d s Hpos Hs <- Hfix.
    pose proof Hf as (x & Hx & (Hd & _ & _ & Hxf & _)%convert_split)%(Forall2_elem_r _ _ _ s); [|done].
    destruct (convert_ratios l k (sc_denom s)) as (du & Hdu & Heq); [done..|].
    assert (usc_denom x = du) as Hxd by (by eapply into_checked_inj).
    apply (proj2 (Hr du)) with x; [lia|done|done|auto].
Qed.
End Conversion.

(** ** The framework's interface *)
Definition splitter_lib : LibraryFns LibraryConfig Config () FunctionMsgs LibraryConfigUpdate :=
  mkLibraryFns process_function update_config.
Abbreviation St := (storage LibraryConfig Config ()).

Lemma splitter_update_ok q env info u (s s' : St) v :
  update_config q env info u s = Ok (v, s') →
  ∃ c c', s_config s = Some c ∧ s' = lset CONFIG_KEY (Some c') s ∧
    (LibQuerierLaws q → splitter_valid c → splitter_valid c').
Proof.
  unfold update_config, load_config, save_config. intros Hu.
  apply Exec_bind_ok in Hu as (c & s1 & [Hc ->]%item_load_ok & Hu). exists c.
  apply Exec_bind_ok in Hu as (c1 & s1 & H1' & Hu).
  assert (s1 = s ∧ splits c1 = splits c) as [-> E1] by (destruct (upd_input_addr u); by run_inv).
  apply Exec_bind_ok in Hu as (c2 & s2 & H2' & Hu).
  assert (s2 = s ∧ (LibQuerierLaws q → splitter_valid c → splitter_valid c2)) as [-> E2].
  { destruct (upd_splits u); run_inv; (split; [done|]); intros Hq Hv.
    - by eapply convert_valid.
    - destruct Hv. by split; rewrite ?E1. }
  run_inv. eexists. by split_and!.
Qed.
Lemma split_ok q env info c (s s' : St) r :
  process_function q env info Split c s = Ok (r, s') ↔
  s' = s ∧ ∃ transfers msgs m,
    prepare_transfer_amounts q c = Ok transfers ∧
    Forall2 (λ '(amount, d, account) t, get_transfer_to_message d account amount = Ok t)
      transfers msgs ∧
    execute_on_behalf_of msgs (input_addr c) = Ok m ∧
    r = add_message m (add_attribute "method" "split" Response_new).
Proof.
  assert (∀ transfers msgs, prepare_transfer_messages transfers = Ok msgs ↔
    Forall2 (λ '(amount, d, account) t, get_transfer_to_message d account amount = Ok t)
      transfers msgs) as Hmsgs.
  { intros transfers msgs. unfold prepare_transfer_messages. rewrite try_ok, mapM_result_Forall2.
    split; intros Hf; (eapply Forall2_impl; [exact Hf|]); by intros [[a d] w] m. }
  unfold process_function. split.
  - intros Hp. run_inv. split; [done|]. do 3 eexists. split_and!; [done|by apply Hmsgs|done|done].
  - intros [-> (transfers & msgs & m & Ht & Hm%Hmsgs & Hx & ->)].
    unfold mbind, Exec_bind, of_result. by rewrite Ht, Hm, Hx.
Qed.
#[global] Instance splitter_laws : LibraryLaws splitter_lib splitter_valid eq LibQuerierLaws.
Proof.
  split.
  - intros q raw c Hq. simpl.
    intros (i & Hd & (k & Hk & [= <-])%bind_result_ok)%bind_result_ok.
    unfold do_validate in Hd. apply bind_result_ok in Hd as (a & _ & (u & Hu & _)%bind_result_ok).
    by eapply convert_valid.
  - intros q env info u s v s' Hq (c & c' & Hc & -> & Hv)%(splitter_update_ok q env info) Hs c1 [= <-].
    by apply Hv, Hs.
  - intros q env info u s v s' (c & c' & Hc & -> & Hv)%(splitter_update_ok q env info). done.
  - intros q env info [] c s r s' [-> _]%(split_ok q env info) Hc. eauto.
  - intros q env info [] c s r s' [-> _]%(split_ok q env info). done.
Qed.

(** ** The amounts of a split *)
Definition cached (q : LibQuerier) (c : Config) (st : caches) : Prop :=
  (∀ d b, denom_balances st !! denom_key d = Some b → q_denom_balance q d (input_addr c) = Ok b) ∧
  (∀ k r, dynamic_ratios st !! k = Some r →
    ∃ d a p, k = dyn_ratio_key d a p ∧ query_dynamic_ratio q a p d = Ok r).
Lemma query_split_cached q c st s st' :
  cached q c st → query_split q c st s = Ok st' →
  cached q c st' ∧ denom_balances st ⊆ denom_balances st' ∧
  is_Some (denom_balances st' !! denom_key (sc_denom s)).
Proof.
  intros [Hb Hd] Hq. unfold query_split in Hq. apply bind_result_ok in Hq as (bs & Hbs & Hq).
  assert ((∀ d b, bs !! denom_key d = Some b → q_denom_balance q d (input_addr c) = Ok b) ∧
    denom_balances st ⊆ bs ∧ is_Some (bs !! denom_key (sc_denom s))) as (Hb' & Hsub & Hin).
  { destruct (denom_balances st !! denom_key (sc_denom s)) as [b0|] eqn:Hl; simplify_eq; [eauto|].
    apply bind_result_ok in Hbs as (b & Hbal%try_ok & [= <-]). split_and!.
    - intros d b'. destruct (decide (d = sc_denom s)) as [->|Hne].
      + rewrite lookup_insert_eq. by intros [= <-].
      + rewrite lookup_insert_ne; [apply Hb|]. by intros ?%debug_checked_inj.
    - by apply insert_subseteq.
    - rewrite lookup_insert_eq. by eexists. }
  destruct (sc_amount s) as [x|r|a p].
  - injection Hq as <-. by split_and!.
  - injection Hq as <-. by split_and!.
  - destruct (dynamic_ratios st !! _) as [r|] eqn:Hl; [injection Hq as <-; by split_and!|].
    apply bind_result_ok in Hq as (r & Hr & [= <-]). split_and!; [split; [done|]|done|done].
    simpl. intros k r'. destruct (decide (k = dyn_ratio_key (sc_denom s) a p)) as [->|Hne].
    + rewrite lookup_insert_eq. intros [= <-]. by repeat eexists.
    + rewrite lookup_insert_ne by done. apply Hd.
Qed.
Lemma query_splits_cached q c st l st' :
  cached q c st → query_splits q c st l = Ok st' →
  cached q c st' ∧ denom_balances st ⊆ denom_balances st' ∧
  ∀ s, s ∈ l → is_Some (denom_balances st' !! denom_key (sc_denom s)).
Proof.
  revert st. induction l as [|s l IH]; intros st Hc; simpl.
  - intros [= <-]. split_and!; [done..|]. by intros s ?%elem_of_nil.
  - intros (st1 & Hs & Hl)%bind_result_ok. apply query_split_cached in Hs as (Hc1 & Hsub & Hin); [|done].
    apply IH in Hl as (Hc' & Hsub' & Hin'); [|done]. split_and!; [done|by etransitivity|].
    intros s' [->|?]%elem_of_cons; [|auto]. destruct Hin as [b Hb]. exists b. by eapply lookup_weaken.
Qed.

(** What a split pays for one entry of the configuration.  A dynamic ratio is the answer
    to a query; the cache identifies queries whose address and parameters read the same
    when joined by a slash. *)
Definition split_pays (q : LibQuerier) (c : Config) (s : SplitConfig) (t : N * CheckedDenom * Addr) : Prop :=
  t.1.2 = sc_denom s ∧ t.2 = sc_account s ∧
  ∃ balance, q_denom_balance q (sc_denom s) (input_addr c) = Ok balance ∧
  match sc_amount s with
  | FixedAmount a => t.1.1 = a
  | FixedRatio r => t.1.1 = (balance * r / decimal_one)%N
  | DynamicRatio a p => ∃ a' p' ratio, (a ++ "/" ++ p)%string = (a' ++ "/" ++ p')%string ∧
      query_dynamic_ratio q a' p' (sc_denom s) = Ok ratio ∧
      t.1.1 = (balance * ratio / decimal_one)%N
  end.
Definition denom_total (d : CheckedDenom) (ts : list (N * CheckedDenom * Addr)) : N :=
  sumN (λ t, if decide (t.1.2 = d) then t.1.1 else 0%N) ts.

Lemma multiply_ratio_floor b r x :
  expect_r (multiply_ratio b r decimal_one) = (Ok x : result LibraryError N) → x = (b * r / decimal_one)%N.
Proof.
  destruct (multiply_ratio b r decimal_one) as [y|] eqn:Hm; simpl; [|done]. intros [= <-].
  by apply multiply_ratio_spec in Hm as (_ & -> & _).
Qed.
Lemma split_transfer_pays q c st s t :
  cached q c st → split_transfer st s = Ok t → split_pays q c s t.
Proof.
  intros [Hb Hd] Ht. unfold split_transfer in Ht. apply bind_result_ok in Ht as (b & Hbal & Ht).
  destruct (denom_balances st !! _) as [b'|] eqn:Hl; simplify_eq/=. apply Hb in Hl.
  apply bind_result_ok in Ht as (x & Hx & [= <-]). split_and!; [done|done|]. exists b. split; [done|].
  destruct (sc_amount s) as [a|r|a p]; simpl in *.
  - by simplify_eq.
  - by apply multiply_ratio_floor in Hx.
  - apply bind_result_ok in Hx as (r & Hr & Hx).
    destruct (dynamic_ratios st !! _) as [r'|] eqn:Hlr; simplify_eq/=.
    apply Hd in Hlr as (d & a' & p' & Hk & Hq). unfold dyn_ratio_key in Hk.
    apply debug_checked_app in Hk as [<- Hk]. injection Hk as Hk.
    exists a', p', r. split_and!; [done..|]. by apply multiply_ratio_floor in Hx.
Qed.

(** *** The check of the totals *)
Lemma group_by_denom_lookup l k :
  default [] (group_by_denom l !! k) = filter (λ t : N * CheckedDenom * Addr, denom_key t.1.2 = k) l.
Proof.
  induction l as [|t l IH] using rev_ind; [done|].
  unfold group_by_denom in *. rewrite foldl_app, filter_app. simpl.
  rewrite filter_cons, filter_nil. destruct (decide (denom_key t.1.2 = k)) as [<-|Hne].
  - rewrite lookup_partial_alter_eq. simpl. by rewrite IH.
  - rewrite lookup_partial_alter_ne by done. by rewrite app_nil_r.
Qed.
Lemma uint128_sum_ok l t : uint128_sum l = Some t ↔ t = sumN id l ∧ (sumN id l ≤ u128_max)%N.
Proof.
  unfold uint128_sum. revert t. induction l as [|x l IH] using rev_ind; intros t.
  - simpl. split; [|naive_solver]. intros [= <-]. split; [done|]. apply N.le_0_l.
  - rewrite foldl_app, sumN_snoc. simpl. split.
    + intros (a & Ha & [-> Hle]%checked_add_Some)%bind_Some. apply IH in Ha as [-> _]. done.
    + intros [-> Hle]. change (id x) with x in *.
      rewrite (proj2 (IH (sumN id l))) by (split; [done|lia]). simpl. by apply checked_add_fits.
Qed.
Lemma denom_total_filter d ts :
  denom_total d ts = sumN id ((λ t : N * CheckedDenom * Addr, t.1.1) <$>
    filter (λ t : N * CheckedDenom * Addr, denom_key t.1.2 = denom_key d) ts).
Proof.
  unfold denom_total. induction ts as [|t ts IH]; [done|].
  rewrite filter_cons, sumN_cons, IH. destruct (decide (t.1.2 = d)) as [->|Hne].
  - rewrite decide_True by done. done.
  - rewrite decide_False; [done|]. by intros ?%debug_checked_inj.
Qed.
Lemma check_total_ok st d ts balance :
  denom_balances st !! denom_key d = Some balance →
  check_total st (denom_key d, filter (λ t : N * CheckedDenom * Addr, denom_key t.1.2 = denom_key d) ts) =
    if (denom_total d ts <=? u128_max)%N
    then if (balance <? denom_total d ts)%N
         then Err (ExecutionError ("Insufficient balance for denom '" ++ denom_key d ++
              "' in split config (required: " ++ pretty (denom_total d ts) ++ ", available: " ++
              pretty balance ++ ")."))
         else Ok ()
    else Panic.
Proof.
  intros Hb. unfold check_total. rewrite Hb, denom_total_filter.
  destruct (N.leb_spec (sumN id ((λ t : N * CheckedDenom * Addr, t.1.1) <$> filter (λ t, denom_key t.1.2 = denom_key d) ts)) u128_max) as [Hle|Hgt].
  - rewrite (proj2 (uint128_sum_ok _ _) (conj eq_refl Hle)). done.
  - destruct (uint128_sum _) as [t|] eqn:Hs; [|done]. apply uint128_sum_ok in Hs. lia.
Qed.

Lemma prepare_transfer_amounts_ok q c ts :
  prepare_transfer_amounts q c = Ok ts →
  Forall2 (split_pays q c) (splits c) ts ∧
  ∀ d balance, q_denom_balance q d (input_addr c) = Ok balance → (denom_total d ts ≤ balance)%N.
Proof.
  unfold prepare_transfer_amounts.
  intros (st & Hst & (ts' & Hts%mapM_result_Forall2 & (us & Hus%mapM_result_Forall2 & [= <-])%bind_result_ok)%bind_result_ok)%bind_result_ok.
  apply query_splits_cached in Hst as (Hc & _ & Hin).
  2:{ split; simpl; [intros d b|intros k r]; by rewrite lookup_empty. }
  assert (Forall2 (split_pays q c) (splits c) ts') as Hp.
  { eapply Forall2_impl; [exact Hts|]. intros s t Ht. by eapply split_transfer_pays. }
  split; [done|]. intros d balance Hbal.
  destruct (N.eq_dec (denom_total d ts') 0%N) as [->|Hpos]; [apply N.le_0_l|].
  assert (0 < denom_total d ts')%N as (t & Ht & Htd)%sumN_pos by lia.
  case_decide as Hd; [|lia]. subst d.
  pose proof Hp as (s & Hs & (Hsd & _))%(Forall2_elem_r _ _ _ t); [|done]. rewrite Hsd in *.
  destruct (Hin s Hs) as [b Hb]. assert (b = balance) as ->.
  { apply Hc in Hb. congruence. }
  assert (group_by_denom ts' !! denom_key (sc_denom s) = Some (filter
    (λ t : N * CheckedDenom * Addr, denom_key t.1.2 = denom_key (sc_denom s)) ts')) as Hg.
  { pose proof (group_by_denom_lookup ts' (denom_key (sc_denom s))) as Hg.
    destruct (group_by_denom ts' !! _) as [g|]; simpl in Hg; [by rewrite Hg|].
    assert (t ∈ filter (λ t : N * CheckedDenom * Addr, denom_key t.1.2 = denom_key (sc_denom s)) ts')
      as Hx by (apply list_elem_of_filter; by rewrite Hsd).
    rewrite <-Hg in Hx. by apply elem_of_nil in Hx. }
  apply elem_of_map_to_list in Hg. rewrite <-hash_iter_perm in Hg.
  eapply Forall2_elem_l in Hus as ([] & _ & Hck); [|exact Hg].
  rewrite (check_total_ok _ _ _ balance) in Hck by done.
  case_match; [|done]. destruct (N.ltb_spec balance (denom_total (sc_denom s) ts')); [done|lia].
Qed.

(** *** Configurations of fixed ratios can always be executed *)
Section Ratios.
Context (q : LibQuerier) (c : Config) (Hv : splitter_valid c).
Context (Hratios : Forall (λ s, ∃ r, sc_amount s = FixedRatio r) (splits c)).
Context (Hbal : ∀ s, s ∈ splits c → ∃ b, q_denom_balance q (sc_denom s) (input_addr c) = Ok b ∧ (b ≤ u128_max)%N).

Lemma query_splits_run st l :
  l ⊆ splits c → ∃ st', query_splits q c st l = Ok st'.
Proof.
  revert st. induction l as [|s l IH]; intros st Hl; simpl; [eauto|].
  assert (s ∈ splits c) as Hs by set_solver.
  destruct (Hbal s Hs) as (b & Hb & _). rewrite Forall_forall in Hratios.
  destruct (Hratios s Hs) as [r Hr]. unfold query_split. rewrite Hr.
  destruct (denom_balances st !! denom_key (sc_denom s)) as [b'|]; simpl.
  - apply IH. set_solver.
  - rewrite Hb. simpl. apply IH. set_solver.
Qed.
Lemma ratio_le s r : s ∈ splits c → sc_amount s = FixedRatio r → (r ≤ decimal_one)%N.
Proof.
  intros Hs Hr. transitivity (fixed_ratios (sc_denom s) (splits c)); [|apply Hv].
  pose proof (sumN_elem (ratio_of (sc_denom s)) s _ Hs) as Hle.
  unfold ratio_of in Hle at 1. rewrite Hr, decide_True in Hle by done. done.
Qed.
Lemma part_le (b r : N) : (r ≤ decimal_one)%N → (b * r / decimal_one ≤ b)%N.
Proof.
  intros Hr. apply N.div_le_upper_bound; [done|]. rewrite (N.mul_comm decimal_one).
  by apply N.mul_le_mono_l.
Qed.
Lemma split_transfers_run st :
  cached q c st → (∀ s, s ∈ splits c → is_Some (denom_balances st !! denom_key (sc_denom s))) →
  ∃ ts, mapM (split_transfer st) (splits c) = Ok ts.
Proof.
  intros [Hc _] Hin. assert (∀ s, s ∈ splits c → ∃ t, split_transfer st s = Ok t) as Ht.
  { intros s Hs. destruct (Hin s Hs) as [b Hb]. unfold split_transfer. rewrite Hb. simpl.
    rewrite Forall_forall in Hratios. destruct (Hratios s Hs) as [r Hr]. rewrite Hr.
    apply Hc in Hb. destruct (Hbal s Hs) as (b' & Hb' & Hle).
    assert (b = b') as -> by congruence.
    rewrite (proj2 (multiply_ratio_spec b' r decimal_one (b' * r / decimal_one))); [simpl; eauto|].
    split_and!; [done..|]. etransitivity; [|exact Hle]. apply part_le. by eapply ratio_le. }
  clear Hratios Hv Hin Hbal. induction (splits c) as [|s l IH]; simpl; [eauto|].
  destruct (Ht s) as [t ->]; [by left|]. destruct IH as [ts ->]; [|simpl; eauto].
  intros s' Hs'. apply Ht. by right.
Qed.

Lemma ratio_parts ts d b :
  Forall2 (split_pays q c) (splits c) ts → q_denom_balance q d (input_addr c) = Ok b →
  denom_total d ts = sumN (λ s, b * ratio_of d s / decimal_one)%N (splits c).
Proof.
  intros Hp Hb. symmetry. apply sumN_Forall2. clear Hv Hbal.
  induction Hp as [|s t l ts (Hd & _ & b' & Hb' & Hm) Hp IH]; [constructor|].
  apply Forall_cons in Hratios as [[r Hr] Hrs]. constructor; [|auto].
  rewrite Hr in Hm. unfold ratio_of. rewrite Hr, Hd. case_decide as He.
  - subst d. assert (b' = b) as -> by congruence. by rewrite Hm.
  - rewrite N.mul_0_r. by rewrite N.Div0.div_0_l.
Qed.
Lemma ratio_total_le ts d b :
  Forall2 (split_pays q c) (splits c) ts → q_denom_balance q d (input_addr c) = Ok b →
  (denom_total d ts ≤ b)%N.
Proof.
  intros Hp Hb. rewrite (ratio_parts ts d b) by done.
  etransitivity; [by apply sumN_div_le|]. apply part_le, Hv.
Qed.
(** Less than one unit per split is left over. *)
Lemma ratio_dust b d l :
  (b * fixed_ratios d l ≤ decimal_one * sumN (λ s, b * ratio_of d s / decimal_one) l
     + (decimal_one - 1) * vec_len (filter (λ s, sc_denom s = d) l))%N.
Proof.
  unfold fixed_ratios, vec_len.
  induction l as [|s l IH]; [simpl; rewrite N.mul_0_r; apply N.le_0_l|].
  rewrite !sumN_cons, filter_cons, !N.mul_add_distr_l.
  assert (b * ratio_of d s ≤ decimal_one * (b * ratio_of d s / decimal_one) +
    (decimal_one - 1) * (if decide (sc_denom s = d) then 1 else 0))%N as Hs.
  { destruct (decide (sc_denom s = d)) as [He|He].
    - pose proof (N.div_mod (b * ratio_of d s) decimal_one ltac:(done)) as Hdm.
      pose proof (N.mod_lt (b * ratio_of d s) decimal_one ltac:(done)). lia.
    - unfold ratio_of. destruct (sc_amount s); rewrite ?(decide_False _ _ He), N.mul_0_r; apply N.le_0_l. }
  destruct (decide (sc_denom s = d)); simpl length; rewrite ?Nat2N.inj_succ; lia.
Qed.

Lemma group_by_denom_nonempty l k g : group_by_denom l !! k = Some g → g ≠ [].
Proof.
  unfold group_by_denom. revert g. induction l as [|t l IH] using rev_ind; intros g; [done|].
  rewrite foldl_app. simpl. destruct (decide (denom_key t.1.2 = k)) as [<-|Hne].
  - rewrite lookup_partial_alter_eq. intros [= <-]. by intros []%app_eq_nil.
  - rewrite lookup_partial_alter_ne by done. apply IH.
Qed.
Lemma check_totals_run st ts :
  cached q c st → (∀ s, s ∈ splits c → is_Some (denom_balances st !! denom_key (sc_denom s))) →
  Forall2 (split_pays q c) (splits c) ts →
  ∃ us, mapM (check_total st) (hash_iter (group_by_denom ts)) = Ok us.
Proof.
  intros [Hc _] Hin Hp.
  assert (∀ g, g ∈ hash_iter (group_by_denom ts) → check_total st g = Ok ()) as Hg.
  { intros [k g] Hg. rewrite hash_iter_perm in Hg. apply elem_of_map_to_list in Hg.
    pose proof (group_by_denom_lookup ts k) as Hf. rewrite Hg in Hf. simpl in Hf. subst g.
    apply group_by_denom_nonempty in Hg.
    destruct (filter _ ts) as [|t g] eqn:Hft; [done|].
    assert (t ∈ filter (λ t : N * CheckedDenom * Addr, denom_key t.1.2 = k) ts) as [<- Ht]%list_elem_of_filter
      by (rewrite Hft; by left).
    pose proof Hp as (s & Hs & (Hd & _))%(Forall2_elem_r _ _ _ t); [|done].
    destruct (Hin s Hs) as [b Hb]. rewrite Hd in *. pose proof (Hc _ _ Hb) as Hq.
    rewrite <-Hft, (check_total_ok _ _ _ b) by done.
    pose proof (ratio_total_le ts (sc_denom s) b Hp Hq) as Hle.
    destruct (Hbal s Hs) as (b' & Hb' & Hmax). assert (b' = b) as -> by congruence.
    rewrite (proj2 (N.leb_le _ _)) by lia. by rewrite (proj2 (N.ltb_ge _ _)) by lia. }
  exists (replicate (length (hash_iter (group_by_denom ts))) ()).
  apply mapM_result_Forall2. induction (hash_iter (group_by_denom ts)) as [|g l IH]; [constructor|].
  constructor; [apply Hg; by left|]. apply IH. intros g' Hg'. apply Hg. by right.
Qed.
Lemma prepare_transfer_amounts_run : ∃ ts, prepare_transfer_amounts q c = Ok ts.
Proof.
  unfold prepare_transfer_amounts. destruct (query_splits_run (mkCaches ∅ ∅) (splits c)) as [st Hst]; [done|].
  rewrite Hst. apply query_splits_cached in Hst as (Hc & _ & Hin).
  2:{ split; simpl; [intros d b|intros k r]; by rewrite lookup_empty. }
  destruct (split_transfers_run st Hc Hin) as [ts Hts]. simpl. rewrite Hts. simpl.
  apply mapM_result_Forall2 in Hts.
  destruct (check_totals_run st ts Hc Hin) as [us Hus].
  { eapply Forall2_impl; [exact Hts|]. intros s t Ht. by eapply split_transfer_pays. }
  rewrite Hus. simpl. eauto.
Qed.
End Ratios.

Lemma transfer_messages_run `{!CwDenomLaws} (ts : list (N * CheckedDenom * Addr)) :
  ∃ msgs, Forall2 (λ '(amount, d, account) t, get_transfer_to_message d account amount = Ok t) ts msgs.
Proof.
  induction ts as [|[[amount d] account] ts [msgs IH]]; [by exists []|].
  destruct d as [d|a].
  - eexists (_ :: msgs). constructor; [apply transfer_native|done].
  - destruct (transfer_cw20 a account amount) as [body Hb]. eexists (_ :: msgs). by constructor.
Qed.
End Proofs.

(** C26 A splitter's configuration is always well formed.  In every state a splitter can
    reach, whatever updates its owner sent: there is a configuration with at least one
    split; no two splits have the same denomination and account; no amount or ratio is
    zero; the fixed ratios of a denomination add up to at most 1; and a denomination with
    fixed ratios has no fixed amounts. *)
Theorem splitter_config_well_formed
    `{Platform} `{!PlatformLaws} `{CwDenom} `{CosmMath} `{!CosmMathLaws} `{HashOrder} `{!HashOrderLaws}
    `{JsonCodec AccountExecuteMsg} `{CwOwnable} `{CwOwnableDebug}
    (s : storage LibraryConfig Config ()) :
  lib_reach splitter_lib LibQuerierLaws () s →
  ∃ c, s_config s = Some c ∧ splits c ≠ [] ∧
    NoDup ((λ x, (sc_denom x, sc_account x)) <$> splits c) ∧
    Forall nonzero_amount (splits c) ∧
    ∀ d, (fixed_ratios d (splits c) ≤ decimal_one)%N ∧
      ((0 < fixed_ratios d (splits c))%N →
       ∀ x, x ∈ splits c → sc_denom x = d → ¬ is_fixed_amount x).
Proof.
  intros (c & Hc & [? ? ? Hr He])%(lib_reach_config splitter_lib splitter_valid eq LibQuerierLaws).
  exists c. split_and!; try done. intros d. split; [apply Hr|]. intros Hp x. by apply He.
Qed.

(** C18 A split never pays more than the account holds.  A successful split sends one
    message to the input account, with one transfer per split of the configuration, to
    its account and in its denomination: the fixed amount, or the ratio of the balance
    rounded down; and for every denomination the transfers add up to at most the balance
    that was queried. *)
Theorem split_within_balance
    `{Platform} `{CwDenom} `{CosmMath} `{!CosmMathLaws} `{HashOrder} `{!HashOrderLaws}
    `{JsonCodec AccountExecuteMsg} `{CwOwnable} `{CwOwnableDebug}
    q env info (s : storage LibraryConfig Config ()) r s' :
  lib_execute splitter_lib q env info (ProcessFunction Split) s = Ok (r, s') →
  ∃ c transfers msgs m,
    s_config s = Some c ∧ s' = s ∧ s_processor s = Some (info_sender info) ∧
    Forall2 (split_pays q c) (splits c) transfers ∧
    (∀ d balance, q_denom_balance q d (input_addr c) = Ok balance →
       (denom_total d transfers ≤ balance)%N) ∧
    Forall2 (λ '(amount, d, account) t, get_transfer_to_message d account amount = Ok t)
      transfers msgs ∧
    execute_on_behalf_of msgs (input_addr c) = Ok m ∧ resp_messages r = [SubMsg_new m].
Proof.
  intros (c & Hp & Hc & [-> (ts & msgs & m & Ht & Hm & Hx & ->)]%(split_ok q env info))%lib_execute_process.
  apply prepare_transfer_amounts_ok in Ht as [Hpays Htot].
  exists c, ts, msgs, m. by split_and!.
Qed.

(** A configuration of fixed ratios can always be executed.  In every state a splitter
    can reach, when all splits are fixed ratios and the balances can be queried, the
    processor's split succeeds: the validation of the configuration rules out every
    error and overflow; and when the ratios of a denomination add up to exactly 1, less
    than one unit per split stays in the account. *)
Theorem ratio_split_succeeds
    `{Platform} `{!PlatformLaws} `{CwDenom} `{!CwDenomLaws} `{CosmMath} `{!CosmMathLaws}
    `{HashOrder} `{!HashOrderLaws} `{JsonCodec AccountExecuteMsg} `{!JsonCodecLaws AccountExecuteMsg}
    `{CwOwnable} `{CwOwnableDebug} q env info (s : storage LibraryConfig Config ()) c :
  lib_reach splitter_lib LibQuerierLaws () s →
  s_config s = Some c → s_processor s = Some (info_sender info) →
  Forall (λ x, ∃ r, sc_amount x = FixedRatio r) (splits c) →
  (∀ x, x ∈ splits c →
     ∃ b, q_denom_balance q (sc_denom x) (input_addr c) = Ok b ∧ (b ≤ u128_max)%N) →
  ∃ r transfers,
    lib_execute splitter_lib q env info (ProcessFunction Split) s = Ok (r, s) ∧
    Forall2 (split_pays q c) (splits c) transfers ∧
    ∀ d b, q_denom_balance q d (input_addr c) = Ok b → fixed_ratios d (splits c) = decimal_one →
      (denom_total d transfers ≤ b <
         denom_total d transfers + vec_len (filter (λ x, sc_denom x = d) (splits c)))%N.
Proof.
  intros (c0 & Hc0 & Hv)%(lib_reach_config splitter_lib splitter_valid eq LibQuerierLaws) Hc Hp Hr Hb.
  assert (c0 = c) as -> by congruence.
  destruct (prepare_transfer_amounts_run q c Hv Hr Hb) as [ts Hts].
  destruct (transfer_messages_run ts) as [msgs Hmsgs].
  destruct (to_json_total (AccExecuteMsg msgs)) as [body Hbody].
  eexists _, ts. split_and!.
  - apply lib_execute_process. exists c. split_and!; [done..|]. apply (split_ok q env info).
    split; [done|]. exists ts, msgs, (CosmosWasm (WasmExecute (input_addr c) body [])).
    split_and!; [done..| |done]. unfold execute_on_behalf_of. by rewrite Hbody.
  - by apply prepare_transfer_amounts_ok in Hts as [? _].
  - intros d b Hd Hone. apply prepare_transfer_amounts_ok in Hts as [Hpays Htot].
    split; [by apply Htot|].
    rewrite (ratio_parts q c Hr ts d b) by done.
    pose proof (ratio_dust b d (splits c)) as Hdust. rewrite Hone in Hdust.
    set (t := sumN _ _) in *. set (n := vec_len _) in *.
    destruct (N.lt_ge_cases b (t + n)) as [Hlt|Hge]; [done|exfalso].
    assert (0 < n ∨ n = 0)%N as [Hn|Hn] by lia; unfold decimal_one in *; [lia|].
    assert (0 < fixed_ratios d (splits c))%N as (x & Hx & Hxr)%sumN_pos by (rewrite Hone; lia).
    assert (sc_denom x = d) as Hxd.
    { unfold ratio_of in Hxr. destruct (sc_amount x); try lia. case_decide; [done|lia]. }
    unfold n, vec_len in Hn. destruct (filter _ (splits c)) eqn:Hf; [|done].
    assert (x ∈ filter (λ x, sc_denom x = d) (splits c)) as Hin by (by apply list_elem_of_filter).
    rewrite Hf in Hin. by apply elem_of_nil in Hin.
Qed.

(** ** A splitter of 30% and 70% of "untrn" *)
Definition sample_split (account : string) (ratio : N) : UncheckedSplitConfig :=
  mkUncheckedSplitConfig (UncheckedNative "untrn") (LibAddr account) (UncheckedFixedRatio ratio).
Definition sample_splitter_init (l : list UncheckedSplitConfig)
    : Exec (storage LibraryConfig Config ()) LibraryError Response :=
  instantiate (ref_lib_querier 101) "splitter" "1"
    (mkLibInstantiateMsg "owner" "processor" (mkLibraryConfig (LibAddr "in") l)).
Definition sample_splitter (l : list UncheckedSplitConfig) : storage LibraryConfig Config () :=
  after (sample_splitter_init l) (empty_storage ()).
Definition sample_splits : list UncheckedSplitConfig :=
  [sample_split "alice" 300000000000000000; sample_split "bob" 700000000000000000].
Definition sample_split_tx : Exec (storage LibraryConfig Config ()) LibraryError Response :=
  lib_execute splitter_lib (ref_lib_querier 101) (mkEnv (mkBlock 1 1) "splitter")
    (mkInfo "processor" []) (ProcessFunction Split).
Lemma sample_splitter_reach : lib_reach splitter_lib LibQuerierLaws () (sample_splitter sample_splits).
Proof.
  destruct (after_ok (sample_splitter_init sample_splits) (empty_storage ())) as [r Hr]; [by vm_compute|].
  eapply reach_start; [apply ref_lib_querier_laws|exact Hr].
Qed.
Lemma splitter_config_well_formed_witness : ∃ c,
  s_config (sample_splitter sample_splits) = Some c ∧ splits c ≠ [] ∧
  (fixed_ratios (CheckedNative "untrn") (splits c) ≤ decimal_one)%N.
Proof.
  destruct (splitter_config_well_formed _ sample_splitter_reach) as (c & Hc & Hs & _ & _ & Hr).
  exists c. split_and!; [exact Hc|exact Hs|apply Hr].
Defined.
Lemma split_within_balance_witness : ∃ c transfers,
  s_config (sample_splitter sample_splits) = Some c ∧
  Forall2 (split_pays (ref_lib_querier 101) c) (splits c) transfers ∧
  (denom_total (CheckedNative "untrn") transfers ≤ 101)%N.
Proof.
  destruct (after_ok sample_split_tx (sample_splitter sample_splits)) as [r Hr]; [by vm_compute|].
  destruct (split_within_balance _ _ _ _ _ _ Hr) as (c & ts & msgs & m & Hc & _ & _ & Hp & Ht & _).
  exists c, ts. split_and!; [exact Hc|exact Hp|]. by apply Ht.
Defined.
Lemma ratio_split_succeeds_witness : ∃ r transfers,
  lib_execute splitter_lib (ref_lib_querier 101) (mkEnv (mkBlock 1 1) "splitter")
    (mkInfo "processor" []) (ProcessFunction Split) (sample_splitter sample_splits) =
    Ok (r, sample_splitter sample_splits) ∧
  (101 < denom_total (CheckedNative "untrn") transfers + 2)%N.
Proof.
  destruct (ratio_split_succeeds (ref_lib_querier 101) (mkEnv (mkBlock 1 1) "splitter")
    (mkInfo "processor" []) (sample_splitter sample_splits)
    (mkConfig "in" [mkSplitConfig (CheckedNative "untrn") "alice" (FixedRatio 300000000000000000);
                    mkSplitConfig (CheckedNative "untrn") "bob" (FixedRatio 700000000000000000)]))
    as (r & ts & Hr & _ & Ht).
  - exact sample_splitter_reach.
  - by vm_compute.
  - by vm_compute.
  - repeat constructor; by eexists.
  - intros x _. exists 101%N. split; [done|]. by apply N.leb_le.
  - exists r, ts. split; [exact Hr|]. by apply (Ht (CheckedNative "untrn") 101%N); vm_compute.
Defined.

(** The ratios of a denomination need not add up to 1: a single split of 10% is accepted
    by the validation. *)
Theorem ratios_below_one_accepted :
  succeeds (sample_splitter_init [sample_split "alice" 100000000000000000]) (empty_storage ()) = true ∧
  ∃ c, s_config (sample_splitter [sample_split "alice" 100000000000000000]) = Some c ∧
    (fixed_ratios (CheckedNative "untrn") (splits c) < decimal_one)%N.
Proof. split; [by vm_compute|]. eexists. split; [by vm_compute|]. by vm_compute. Qed.
