(* ===== verification/ReverseSplitter.v ===== *)
(** * The reverse splitter library ([contracts/libraries/reverse-splitter])

    Gathers funds of several input accounts in the output account, in fixed amounts or
    in proportion: the amounts are brought to the base denomination with the ratios, and
    the smallest one decides how much every account gives. *)
From Stdlib Require Import Strings.Byte.
From S2P Require Import Prelude Platform Types Format Accounts LibraryBase.

Module ReverseSplitter.
Import Library.

(** ** [msg.rs] *)
Inductive FunctionMsgs := Split.
Inductive SplitAmount :=
| FixedAmount (amount : N)
| FixedRatio (ratio : Decimal)
| DynamicRatio (contract_addr : Addr) (params : string).
Record SplitConfig := mkSplitConfig {
  sc_denom : CheckedDenom;
  sc_account : Addr;
  sc_amount : SplitAmount;
  sc_factor : option N;
}.
Inductive UncheckedSplitAmount :=
| UncheckedFixedAmount (amount : N)
| UncheckedFixedRatio (ratio : Decimal)
| UncheckedDynamicRatio (contract_addr : string) (params : string).
Record UncheckedSplitConfig := mkUncheckedSplitConfig {
  usc_denom : UncheckedDenom;
  usc_account : LibraryAccountType;
  usc_amount : UncheckedSplitAmount;
  usc_factor : option N;
}.
Record LibraryConfig := mkLibraryConfig {
  raw_output_addr : LibraryAccountType;
  raw_splits : list UncheckedSplitConfig;
  raw_base_denom : UncheckedDenom;
}.
Record Config := mkConfig {
  output_addr : Addr;
  splits : list SplitConfig;
  base_denom : CheckedDenom;
}.
Record LibraryConfigUpdate := mkLibraryConfigUpdate {
  upd_output_addr : option LibraryAccountType;
  upd_splits : option (list UncheckedSplitConfig);
  upd_base_denom : option UncheckedDenom;
}.
#[global] Instance reverse_update_raw : LibraryConfigUpdateTrait LibraryConfigUpdate LibraryConfig := {
  update_raw_config u raw := mkLibraryConfig
    (set_field (upd_output_addr u) (raw_output_addr raw))
    (set_field (upd_splits u) (raw_splits raw))
    (set_field (upd_base_denom u) (raw_base_denom raw));
}.
Abbreviation M := (Exec (storage LibraryConfig Config ()) LibraryError).

Section Contract.
Context `{Platform} `{CwDenom} `{CosmMath} `{JsonCodec AccountExecuteMsg}.

(** ** Validation *)
Record split_checks := mkSplitChecks {
  denom_set : gset string;
  config_has_ratio : bool;
  config_has_amount_for_non_base_denom : bool;
}.
Definition split_key (split : UncheckedSplitConfig) : string :=
  debug_unchecked (usc_denom split) ++ "|" ++ debug_account (usc_account split).
(** The [match] on the amount of a split: the two flags after it. *)
Definition validate_amount (base_denom : UncheckedDenom) (split : UncheckedSplitConfig)
    (has_ratio has_amount : bool) : result LibraryError (bool * bool) :=
  match usc_amount split with
  | UncheckedFixedAmount amount =>
      if (amount =? 0)%N
      then Err (ConfigurationError "Invalid split config: amount cannot be zero.")
      else match usc_factor split with
           | Some _ => Err (ConfigurationError
               "Invalid split config: a factor cannot be specified with an amount.")
           | None => Ok (has_ratio, has_amount || bool_decide (usc_denom split ≠ base_denom))
           end
  | UncheckedFixedRatio ratio =>
      if (ratio =? 0)%N
      then Err (ConfigurationError "Invalid split config: ratio cannot be zero.")
      else if bool_decide (usc_denom split = base_denom ∧ ratio ≠ decimal_one)
      then Err (ConfigurationError "Invalid split config: fixed ratio for base denom must be 1.")
      else Ok (true, has_amount)
  | UncheckedDynamicRatio contract_addr _ =>
      _ ← try_ (addr_validate contract_addr);
      if bool_decide (usc_denom split = base_denom)
      then Err (ConfigurationError
             "Invalid split config: ratio for base denom cannot be a dynamic one.")
      else Ok (true, has_amount)
  end.
Definition validate_split (base_denom : UncheckedDenom) (st : split_checks) (split : UncheckedSplitConfig)
    : result LibraryError split_checks :=
  _ ← try_ (to_addr (usc_account split));
  let key := split_key split in
  if bool_decide (key ∈ denom_set st) then
    Err (ConfigurationError ("Duplicate split '" ++ key ++ "' in split config."))
  else
  '(has_ratio, has_amount) ← validate_amount base_denom split (config_has_ratio st)
                               (config_has_amount_for_non_base_denom st);
  match usc_factor split with
  | Some 0%N => Err (ConfigurationError "Invalid split config: factor cannot be zero.")
  | _ => Ok (mkSplitChecks ({[key]} ∪ denom_set st) has_ratio has_amount)
  end.
Fixpoint validate_split_loop (base_denom : UncheckedDenom) (st : split_checks)
    (splits : list UncheckedSplitConfig) : result LibraryError split_checks :=
  match splits with
  | [] => Ok st
  | split :: splits =>
      st' ← validate_split base_denom st split; validate_split_loop base_denom st' splits
  end.
Definition validate_splits (splits : list UncheckedSplitConfig) (base_denom : UncheckedDenom)
    : result LibraryError unit :=
  match splits with
  | [] => Err (ConfigurationError "No split configuration provided.")
  | _ =>
      st ← validate_split_loop base_denom (mkSplitChecks ∅ false false) splits;
      if config_has_ratio st && config_has_amount_for_non_base_denom st
      then Err (ConfigurationError ("Invalid split config: only base denom can have an amount when " ++
             "ratios are specified for other some denoms."))
      else Ok ()
  end.

Definition convert_to_checked_split_amount (amount : UncheckedSplitAmount) : result LibraryError SplitAmount :=
  match amount with
  | UncheckedFixedAmount a => Ok (FixedAmount a)
  | UncheckedFixedRatio r => Ok (FixedRatio r)
  | UncheckedDynamicRatio contract_addr params =>
      addr ← try_ (addr_validate contract_addr);
      Ok (DynamicRatio addr params)
  end.
Definition convert_to_checked_config (q : LibQuerier) (c : UncheckedSplitConfig)
    : result LibraryError SplitConfig :=
  denom ← map_err_r ConfigurationError (q_into_checked q (usc_denom c));
  account ← try_ (to_addr (usc_account c));
  amount ← convert_to_checked_split_amount (usc_amount c);
  Ok (mkSplitConfig denom account amount (usc_factor c)).
Definition convert_to_checked_configs (q : LibQuerier) (splits : list UncheckedSplitConfig)
    : result LibraryError (list SplitConfig) :=
  mapM (convert_to_checked_config q) splits.

Definition do_validate (cfg : LibraryConfig) : result LibraryError Addr :=
  output_addr ← try_ (to_addr (raw_output_addr cfg));
  _ ← validate_splits (raw_splits cfg) (raw_base_denom cfg);
  Ok output_addr.
#[global] Instance reverse_validation : LibraryConfigValidation LibraryConfig Config := {
  validate q cfg :=
    output_addr ← do_validate cfg;
    checked_splits ← convert_to_checked_configs q (raw_splits cfg);
    base_denom ← map_err_r ConfigurationError (q_into_checked q (raw_base_denom cfg));
    Ok (mkConfig output_addr checked_splits base_denom);
}.

(** The configured base denomination as an unchecked one. *)
Definition uncheck (d : CheckedDenom) : UncheckedDenom :=
  match d with
  | CheckedNative denom => UncheckedNative denom
  | CheckedCw20 addr => UncheckedCw20 addr
  end.
Definition update_config (q : LibQuerier) (_env : Env) (_info : MessageInfo)
    (u : LibraryConfigUpdate) : M unit :=
  config ← load_config;
  config ← match upd_output_addr u with
           | Some a =>
               addr ← of_result (to_addr a);
               mret (mkConfig addr (splits config) (base_denom config))
           | None => mret config
           end;
  config ← match upd_base_denom u with
           | Some d =>
               checked ← of_result (map_err_r ConfigurationError (q_into_checked q d));
               mret (mkConfig (output_addr config) (splits config) checked)
           | None => mret config
           end;
  config ← match upd_splits u with
           | Some splits =>
               _ ← of_result (validate_splits splits
                     (default (uncheck (base_denom config)) (upd_base_denom u)));
               checked_splits ← of_result (convert_to_checked_configs q splits);
               mret (mkConfig (output_addr config) checked_splits (base_denom config))
           | None => mret config
           end;
  save_config config.

(** ** Gathering *)
Definition account_key (account : Addr) (denom : CheckedDenom) : string :=
  account ++ "/" ++ debug_checked denom.
Definition dyn_ratio_key (denom : CheckedDenom) (contract_addr : Addr) (params : string) : string :=
  debug_checked denom ++ "-" ++ contract_addr ++ "/" ++ params.
Definition query_dynamic_ratio (q : LibQuerier) (contract_addr : Addr) (params : string)
    (denom : CheckedDenom) : result LibraryError Decimal :=
  let denom_name := checked_denom_to_string denom in
  denom_ratios ← try_ (q_dynamic_ratio q contract_addr [denom_name] params);
  match denom_ratios !! denom_name with
  | Some ratio => Ok ratio
  | None => Err (ExecutionError ("Dynamic ratio not found for denom '" ++ denom_name ++ "'."))
  end.

(** The variables of the first loop of [prepare_transfer_amounts]. *)
Record caches := mkCaches {
  account_balances : gmap string N;
  dynamic_ratios : gmap string Decimal;
  denom_amount_count : N;
}.
Definition query_split (q : LibQuerier) (st : caches) (split : SplitConfig) : result LibraryError caches :=
  let denom := sc_denom split in
  let key := account_key (sc_account split) denom in
  balance ← try_ (q_denom_balance q denom (sc_account split));
  let balances := <[key := balance]> (account_balances st) in
  match sc_amount split with
  | FixedAmount amount =>
      if (balance <? amount)%N
      then Err (ExecutionError ("Insufficient balance on account " ++ sc_account split ++
             " for denom '" ++ debug_checked denom ++ "' in split config (required: " ++ pretty amount ++
             ", available: " ++ pretty balance ++ ")."))
      else
        count ← expect_r (checked_add usize_max (denom_amount_count st) 1);
        Ok (mkCaches balances (dynamic_ratios st) count)
  | DynamicRatio contract_addr params =>
      let key := dyn_ratio_key denom contract_addr params in
      match dynamic_ratios st !! key with
      | Some _ => Ok (mkCaches balances (dynamic_ratios st) (denom_amount_count st))
      | None =>
          ratio ← query_dynamic_ratio q contract_addr params denom;
          Ok (mkCaches balances (<[key := ratio]> (dynamic_ratios st)) (denom_amount_count st))
      end
  | FixedRatio _ => Ok (mkCaches balances (dynamic_ratios st) (denom_amount_count st))
  end.
Fixpoint query_splits (q : LibQuerier) (st : caches) (splits : list SplitConfig)
    : result LibraryError caches :=
  match splits with
  | [] => Ok st
  | split :: splits => st' ← query_split q st split; query_splits q st' splits
  end.

Abbreviation transfer := (N * CheckedDenom * Addr)%type.
(** The branch in which every split has an amount; [None] is [unreachable!()]. *)
Definition amount_transfer (split : SplitConfig) : result LibraryError transfer :=
  match sc_amount split with
  | FixedAmount amount => Ok (amount, sc_denom split, sc_account split)
  | _ => Panic
  end.
(** An entry of [amounts_in_base_denom]. *)
Record base_amount := mkBaseAmount {
  ba_amount : N;
  ba_ratio : Decimal;
  ba_factor : option N;
  ba_denom : CheckedDenom;
  ba_account : Addr;
}.
Definition to_base_denom (st : caches) (split : SplitConfig) : result LibraryError base_amount :=
  balance ← expect_r (account_balances st !! account_key (sc_account split) (sc_denom split));
  let by_ratio (ratio : Decimal) : result LibraryError base_amount :=
    amount ← expect_r (multiply_ratio balance ratio decimal_one);
    amount ← match sc_factor split with
             | Some factor => try_ (uint128_checked_div amount factor)
             | None => Ok amount
             end;
    Ok (mkBaseAmount amount ratio (sc_factor split) (sc_denom split) (sc_account split)) in
  match sc_amount split with
  | FixedAmount amount => Ok (mkBaseAmount amount decimal_one None (sc_denom split) (sc_account split))
  | FixedRatio ratio => by_ratio ratio
  | DynamicRatio contract_addr params =>
      ratio ← expect_r (dynamic_ratios st !! dyn_ratio_key (sc_denom split) contract_addr params);
      by_ratio ratio
  end.
Definition from_base_denom (min_amount : N) (b : base_amount) : result LibraryError transfer :=
  amount ← expect_r (multiply_ratio min_amount decimal_one (ba_ratio b));
  amount ← match ba_factor b with
           | Some factor => try_ (uint128_checked_mul amount factor)
           | None => Ok amount
           end;
  Ok (amount, ba_denom b, ba_account b).
(** [Iterator::min]. *)
Definition min_amount_of (l : list base_amount) : option N :=
  match l with
  | [] => None
  | b :: l => Some (foldl N.min (ba_amount b) (ba_amount <$> l))
  end.

Definition prepare_transfer_amounts (q : LibQuerier) (cfg : Config) : result LibraryError (list transfer) :=
  st ← query_splits q (mkCaches ∅ ∅ 0) (splits cfg);
  if (denom_amount_count st =? vec_len (splits cfg))%N then
    mapM amount_transfer (splits cfg)
  else
    amounts_in_base_denom ← mapM (to_base_denom st) (splits cfg);
    min_amount_in_base_denom ← expect_r (min_amount_of amounts_in_base_denom);
    mapM (from_base_denom min_amount_in_base_denom) amounts_in_base_denom.

Definition prepare_transfer_messages (coins_to_transfer : list transfer) (output_addr : Addr)
    : result LibraryError (list (CosmosMsg * Addr)) :=
  try_ (mapM (λ '(amount, denom, account),
          msg ← get_transfer_to_message denom output_addr amount;
          Ok (msg, account)) coins_to_transfer).

Definition process_function (q : LibQuerier) (_env : Env) (_info : MessageInfo) (msg : FunctionMsgs)
    (cfg : Config) : M Response :=
  match msg with
  | Split =>
      transfer_amounts ← of_result (prepare_transfer_amounts q cfg);
      transfer_messages ← of_result (prepare_transfer_messages transfer_amounts (output_addr cfg));
      input_account_msgs ← of_result (try_ (E2 := LibraryError)
        (mapM (λ '(msg, account), execute_on_behalf_of [msg] account) transfer_messages));
      mret (add_messages input_account_msgs (add_attribute "method" "split" Response_new))
  end.
End Contract.
End ReverseSplitter.
