(* ===== verification/ReverseSplitterTheorems.v ===== *)
(** * Reverse splitter: no account gives more than it holds *)
From Stdlib Require Import Strings.Byte Strings.Ascii.
From S2P Require Import Prelude Platform Types Format Accounts LibraryBase LibraryProofs ReverseSplitter.
From S2P Require Import Codec LibraryCodec.
Import Library ReverseSplitter.

(** Addresses have no slash, so that the keys of the balances can be told apart. *)
Definition no_slash (a : Addr) : Prop := "/"%char ∉ String.list_ascii_of_string a.
#[global] Instance no_slash_dec a : Decision (no_slash a).
Proof. unfold no_slash. apply _. Defined.
Lemma account_key_inj a1 d1 a2 d2 :
  no_slash a1 → no_slash a2 → account_key a1 d1 = account_key a2 d2 → a1 = a2 ∧ d1 = d2.
Proof.
  unfold no_slash, account_key. intros H1 H2 He.
  assert (∀ l1 l2 r1 r2 : list ascii, "/"%char ∉ l1 → "/"%char ∉ l2 →
    l1 ++ "/"%char :: r1 = l2 ++ "/"%char :: r2 → l1 = l2 ∧ r1 = r2) as Hl.
  { induction l1 as [|x l1 IH]; intros [|y l2] r1 r2 Hx Hy; simpl.
    - by intros [= ->].
    - intros [= Hyc _]. destruct Hy. rewrite <-Hyc. by left.
    - intros [= Hxc _]. destruct Hx. rewrite Hxc. by left.
    - apply not_elem_of_cons in Hx as [_ Hx], Hy as [_ Hy].
      intros [= -> He']. by destruct (IH l2 r1 r2 Hx Hy He') as [-> ->]. }
  apply (f_equal String.list_ascii_of_string) in He. rewrite !list_ascii_of_string_app in He. simpl in He.
  apply Hl in He as [?%list_ascii_of_string_inj ?%list_ascii_of_string_inj%debug_checked_inj]; done.
Qed.

Section Proofs.
Context `{CPl : Platform} `{CDe : CwDenom} `{CMa : CosmMath} `{CJs : JsonCodec AccountExecuteMsg}.
Context `{!CosmMathLaws} (q : LibQuerier).

Definition reverse_lib : LibraryFns LibraryConfig Config () FunctionMsgs LibraryConfigUpdate :=
  mkLibraryFns process_function update_config.
Abbreviation St := (storage LibraryConfig Config ()).

(** ** The cached balances *)
Definition balances_of (l : list SplitConfig) (m : gmap string N) : Prop :=
  ∀ s, s ∈ l → ∃ b, m !! account_key (sc_account s) (sc_denom s) = Some b ∧
    q_denom_balance q (sc_denom s) (sc_account s) = Ok b ∧
    match sc_amount s with FixedAmount a => (a ≤ b)%N | _ => True end.
Lemma query_split_balances st l s st' :
  Forall (λ s, no_slash (sc_account s)) (l ++ [s]) →
  balances_of l (account_balances st) → query_split q st s = Ok st' →
  balances_of (l ++ [s]) (account_balances st').
Proof.
  intros Hsl Hb Hq. unfold query_split in Hq. apply bind_result_ok in Hq as (b & Hbal%try_ok & Hq).
  apply Forall_app in Hsl as [Hsl [Hs _]%Forall_cons]. rewrite Forall_forall in Hsl.
  assert (account_balances st' = <[account_key (sc_account s) (sc_denom s) := b]> (account_balances st) ∧
    match sc_amount s with FixedAmount a => (a ≤ b)%N | _ => True end) as [-> Ham].
  { destruct (sc_amount s) as [a|r|a p].
    - destruct (N.ltb_spec b a); [done|]. apply bind_result_ok in Hq as (n & _ & [= <-]). done.
    - by injection Hq as <-.
    - destruct (dynamic_ratios st !! _); [by injection Hq as <-|].
      apply bind_result_ok in Hq as (r & _ & [= <-]). done. }
  intros s' [Hin| ->%list_elem_of_singleton]%elem_of_app.
  - destruct (decide (account_key (sc_account s) (sc_denom s) = account_key (sc_account s') (sc_denom s')))
      as [Hk|Hk].
    + rewrite Hk, lookup_insert_eq. apply account_key_inj in Hk as [Ha Hd]; [|done|auto].
      destruct (Hb s' Hin) as (b' & _ & Hb' & Hm). rewrite Ha, Hd in Hbal.
      assert (b' = b) as -> by congruence. eauto.
    + rewrite lookup_insert_ne by done. auto.
  - rewrite lookup_insert_eq. eauto.
Qed.
Lemma query_splits_balances st l k st' :
  Forall (λ s, no_slash (sc_account s)) (l ++ k) →
  balances_of l (account_balances st) → query_splits q st k = Ok st' →
  balances_of (l ++ k) (account_balances st').
Proof.
  revert st l. induction k as [|s k IH]; intros st l Hsl Hb; simpl.
  - intros [= <-]. by rewrite app_nil_r.
  - rewrite cons_middle, app_assoc in Hsl |- *. intros (st1 & Hs & Hk)%bind_result_ok.
    eapply IH; [done| |exact Hk]. eapply query_split_balances; [|done|exact Hs].
    by apply Forall_app in Hsl as [? _].
Qed.

(** ** The amounts *)
Definition gives (s : SplitConfig) (t : N * CheckedDenom * Addr) : Prop :=
  t.1.2 = sc_denom s ∧ t.2 = sc_account s ∧
  ∃ b, q_denom_balance q (sc_denom s) (sc_account s) = Ok b ∧ (t.1.1 ≤ b)%N ∧
    match sc_amount s with FixedAmount a => (t.1.1 ≤ a)%N | _ => True end.

(** Bringing an amount to the base denomination and back loses, never gains. *)
Lemma base_and_back (b r f m : N) :
  r ≠ 0%N → f ≠ 0%N → (m ≤ b * r / decimal_one / f)%N → (m * decimal_one / r * f ≤ b)%N.
Proof.
  intros Hr Hf Hm.
  assert (m * f ≤ b * r / decimal_one)%N as H1.
  { transitivity (f * (b * r / decimal_one / f))%N; [nia|]. by apply N.mul_div_le. }
  assert (m * f * decimal_one ≤ b * r)%N as H2.
  { transitivity (decimal_one * (b * r / decimal_one))%N; [nia|]. by apply N.mul_div_le. }
  assert (r * (m * decimal_one / r) ≤ m * decimal_one)%N as H3 by (by apply N.mul_div_le).
  apply (N.mul_le_mono_pos_l _ _ r); [lia|]. nia.
Qed.
Lemma min_amount_le l m b : min_amount_of l = Some m → b ∈ l → (m ≤ ba_amount b)%N.
Proof.
  assert (∀ (k : list N) x, (foldl N.min x k ≤ x)%N ∧ ∀ y, y ∈ k → (foldl N.min x k ≤ y)%N) as Hf.
  { induction k as [|z k IH]; intros x; simpl; [split; [done|by intros y ?%elem_of_nil]|].
    destruct (IH (N.min x z)) as [H1 H2]. split; [lia|]. intros y [->|Hy]%elem_of_cons; [lia|auto]. }
  destruct l as [|b0 l]; [done|]. intros [= <-] [->|Hb]%elem_of_cons; [exact (proj1 (Hf _ _))|].
  apply (proj2 (Hf _ _)). by apply list_elem_of_fmap_2.
Qed.
Lemma from_base_gives st s x t m :
  (∃ b, account_balances st !! account_key (sc_account s) (sc_denom s) = Some b ∧
    q_denom_balance q (sc_denom s) (sc_account s) = Ok b ∧
    match sc_amount s with FixedAmount a => (a ≤ b)%N | _ => True end) →
  to_base_denom st s = Ok x → (m ≤ ba_amount x)%N → from_base_denom m x = Ok t → gives s t.
Proof.
  intros (b & Hl & Hb & Hfix) Hx Hm Ht. unfold to_base_denom in Hx. rewrite Hl in Hx. simpl in Hx.
  unfold from_base_denom in Ht. apply bind_result_ok in Ht as (y & Hy & Ht).
  destruct (multiply_ratio m decimal_one (ba_ratio x)) as [y'|] eqn:Hmr; simplify_eq/=.
  apply multiply_ratio_spec in Hmr as (Hr0 & -> & _).
  apply bind_result_ok in Ht as (z & Hz & [= <-]).
  (** The ratio branches. *)
  assert (∀ ratio, (amount ← expect_r (multiply_ratio b ratio decimal_one);
      amount ← match sc_factor s with
               | Some factor => try_ (uint128_checked_div amount factor)
               | None => Ok amount
               end;
      Ok (mkBaseAmount amount ratio (sc_factor s) (sc_denom s) (sc_account s)))
      = (Ok x : result LibraryError base_amount) →
    ba_denom x = sc_denom s ∧ ba_account x = sc_account s ∧ (z ≤ b)%N) as Hratio.
  { intros ratio (a & Ha & (a' & Ha' & [= <-])%bind_result_ok)%bind_result_ok. simpl in *.
    split_and!; [done..|].
    destruct (multiply_ratio b ratio decimal_one) as [a0|] eqn:Hm0; simplify_eq/=.
    apply multiply_ratio_spec in Hm0 as (_ & -> & _).
    destruct (sc_factor s) as [f|].
    - apply try_ok, uint128_checked_div_spec in Ha' as [Hf ->].
      apply try_ok, uint128_checked_mul_spec in Hz as [-> _]. by apply base_and_back.
    - simplify_eq. rewrite <-(N.mul_1_r (_ / _)). apply base_and_back; [done..|].
      by rewrite N.div_1_r. }
  unfold gives. simpl. destruct (sc_amount s) as [a|r|ca p] eqn:Has.
  - simplify_eq/=. split_and!; [done..|]. exists b.
    rewrite N.div_mul by done. split_and!; [done|lia|lia].
  - destruct (Hratio _ Hx) as (-> & -> & Hle).
    split_and!; [done..|]. exists b. by split_and!.
  - apply bind_result_ok in Hx as (r & _ & Hx). destruct (Hratio _ Hx) as (-> & -> & Hle).
    split_and!; [done..|]. exists b. by split_and!.
Qed.
Lemma prepare_transfer_amounts_gives c ts :
  Forall (λ s, no_slash (sc_account s)) (splits c) →
  prepare_transfer_amounts q c = Ok ts → Forall2 gives (splits c) ts.
Proof.
  intros Hsl Hp. unfold prepare_transfer_amounts in Hp. apply bind_result_ok in Hp as (st & Hst & Hp).
  apply (query_splits_balances _ [] (splits c)) in Hst; [|done|by intros s ?%elem_of_nil].
  simpl in Hst. unfold balances_of in Hst.
  destruct (denom_amount_count st =? vec_len (splits c))%N.
  - apply mapM_result_Forall2 in Hp. clear Hsl. induction Hp as [|s t l ts Ht Hp IH]; constructor.
    + destruct (Hst s) as (b & _ & Hb & Hle); [by left|]. unfold amount_transfer in Ht.
      unfold gives. destruct (sc_amount s); simplify_eq/=. eauto 10.
    + apply IH. intros s' Hs'. apply Hst. by right.
  - apply bind_result_ok in Hp as (bs & Hbs%mapM_result_Forall2 & (m & Hm & Hp)%bind_result_ok).
    destruct (min_amount_of bs) as [m'|] eqn:Hmin; simplify_eq/=.
    apply mapM_result_Forall2 in Hp.
    assert (∀ x, x ∈ bs → (m ≤ ba_amount x)%N) as Hle by (intros x; by apply min_amount_le).
    clear Hmin Hsl. revert ts Hp. induction Hbs as [|s x l bs Hx Hbs IH]; intros ts Hp.
    + apply Forall2_nil_inv_l in Hp as ->. constructor.
    + apply Forall2_cons_inv_l in Hp as (t & ts' & Ht & Hp & ->). constructor.
      * eapply from_base_gives; [apply Hst; by left|done|apply Hle; by left|done].
      * apply IH; [intros s' Hs'; apply Hst; by right|intros y Hy; apply Hle; by right|done].
Qed.
End Proofs.

Lemma gather_ok `{Platform} `{CwDenom} `{CosmMath} `{JsonCodec AccountExecuteMsg} q env info c
    (s s' : storage LibraryConfig Config ()) r :
  process_function q env info Split c s = Ok (r, s') →
  s' = s ∧ ∃ transfers,
    prepare_transfer_amounts q c = Ok transfers ∧
    Forall2 (λ '(amount, d, account) sm, ∃ t m,
        get_transfer_to_message d (output_addr c) amount = Ok t ∧
        execute_on_behalf_of [t] account = Ok m ∧ sm = SubMsg_new m)
      transfers (resp_messages r).
Proof.
  unfold process_function, prepare_transfer_messages. intros Hp.
  apply Exec_bind_ok in Hp as (ts & s1 & [Hts <-]%of_result_ok & Hp).
  apply Exec_bind_ok in Hp as (k & s1 & [Hk%try_ok%mapM_result_Forall2 <-]%of_result_ok & Hp).
  apply Exec_bind_ok in Hp as (ms & s1 & [Hms%try_ok%mapM_result_Forall2 <-]%of_result_ok & Hp).
  run_inv. split; [done|]. exists ts. split; [done|]. clear Hts. revert ms Hms.
  induction Hk as [|[[amount d] account] [t a] ts k Hta Hk IH]; intros ms Hms.
  - apply Forall2_nil_inv_l in Hms as ->. constructor.
  - apply Forall2_cons_inv_l in Hms as (m & ms' & Hm & Hms & ->). simpl. constructor; [|by apply IH].
    apply bind_result_ok in Hta as (t' & Ht & [= -> ->]). eauto.
Qed.

(** The reverse splitter takes from no account more than it holds.  A successful call
    by the processor has one transfer per split of the configuration, in its denomination
    and out of its account, to the output account; each transfer is at most the balance
    the account had when it was queried, and at most the fixed amount if one is
    configured, although the amounts go through the base denomination and back with
    ratios, factors and rounding. *)
Theorem gather_within_balances
    `{Platform} `{CwDenom} `{CosmMath} `{!CosmMathLaws} `{JsonCodec AccountExecuteMsg}
    `{CwOwnable} `{CwOwnableDebug} q env info (s : storage LibraryConfig Config ()) r s' c :
  lib_execute reverse_lib q env info (ProcessFunction Split) s = Ok (r, s') →
  s_config s = Some c → Forall (λ x, no_slash (sc_account x)) (splits c) →
  s' = s ∧ s_processor s = Some (info_sender info) ∧
  ∃ transfers,
    Forall2 (λ '(amount, d, account) sm, ∃ t m,
        get_transfer_to_message d (output_addr c) amount = Ok t ∧
        execute_on_behalf_of [t] account = Ok m ∧ sm = SubMsg_new m)
      transfers (resp_messages r) ∧
    Forall2 (λ x t,
        t.1.2 = sc_denom x ∧ t.2 = sc_account x ∧
        ∃ balance, q_denom_balance q (sc_denom x) (sc_account x) = Ok balance ∧
          (t.1.1 ≤ balance)%N ∧
          match sc_amount x with FixedAmount a => (t.1.1 ≤ a)%N | _ => True end)
      (splits c) transfers.
Proof.
  intros (c0 & Hp & Hc0 & [-> (ts & Ht & Hm)]%(gather_ok q env info))%lib_execute_process Hc Hsl.
  assert (c0 = c) as -> by congruence. split_and!; [done..|].
  exists ts. split; [done|]. by apply prepare_transfer_amounts_gives.
Qed.

(** ** Two accounts, in the proportion 1 to 2.5 *)
Definition sample_gather_config (base : string) : LibraryConfig :=
  mkLibraryConfig (LibAddr "out")
    [mkUncheckedSplitConfig (UncheckedNative "untrn") (LibAddr "alice") (UncheckedFixedRatio decimal_one) None;
     mkUncheckedSplitConfig (UncheckedNative "uatom") (LibAddr "bob")
       (UncheckedFixedRatio 2500000000000000000) (Some 2%N)]
    (UncheckedNative base).
Definition sample_gather_init : Exec (storage LibraryConfig Config ()) LibraryError Response :=
  instantiate (ref_lib_querier 100) "reverse" "1"
    (mkLibInstantiateMsg "owner" "processor" (sample_gather_config "untrn")).
Definition sample_gather : storage LibraryConfig Config () := after sample_gather_init (empty_storage ()).
Definition sample_gather_tx (sender : string) (msg : LibExecuteMsg FunctionMsgs LibraryConfigUpdate)
    : Exec (storage LibraryConfig Config ()) LibraryError Response :=
  lib_execute reverse_lib (ref_lib_querier 100) (mkEnv (mkBlock 1 1) "reverse") (mkInfo sender []) msg.
Lemma gather_within_balances_witness : ∃ r s' c transfers,
  lib_execute reverse_lib (ref_lib_querier 100) (mkEnv (mkBlock 1 1) "reverse")
    (mkInfo "processor" []) (ProcessFunction Split) sample_gather = Ok (r, s') ∧
  s_config sample_gather = Some c ∧
  Forall2 (λ x (t : N * CheckedDenom * Addr), t.1.2 = sc_denom x ∧ t.2 = sc_account x)
    (splits c) transfers.
Proof.
  destruct (after_ok (sample_gather_tx "processor" (ProcessFunction Split)) sample_gather) as [r Hr];
    [by vm_compute|].
  destruct (s_config sample_gather) as [c|] eqn:Hc; [|by vm_compute in Hc].
  assert (Forall (λ x, no_slash (sc_account x)) (splits c)) as Hsl.
  { vm_compute in Hc. injection Hc as <-. apply (bool_decide_unpack _). by vm_compute. }
  destruct (gather_within_balances _ _ _ _ _ _ c Hr Hc Hsl) as (_ & _ & ts & _ & Hg).
  exists r, (after (sample_gather_tx "processor" (ProcessFunction Split)) sample_gather), c, ts.
  split; [exact Hr|]. split; [done|]. eapply Forall2_impl; [exact Hg|].
  intros x t (Hd & Ha & _). by split.
Defined.

(** An update of the base denomination alone is not checked against the configured
    splits: the library accepts it, and is left with a configuration that it would
    reject, since the fixed ratio of the new base denomination is not 1. *)
Theorem base_denom_update_unchecked :
  let update := UpdateConfig (mkLibraryConfigUpdate None None (Some (UncheckedNative "uatom"))) in
  let s := after (sample_gather_tx "owner" update) sample_gather in
  succeeds (sample_gather_tx "owner" update) sample_gather = true ∧
  s_raw_library_config s = Some (sample_gather_config "uatom") ∧
  validate (ref_lib_querier 100) (sample_gather_config "uatom") =
    (Err (ConfigurationError "Invalid split config: fixed ratio for base denom must be 1.")
       : result LibraryError Config).
Proof. split_and!; by vm_compute. Qed.
