(* ===== verification/LibraryTheorems.v ===== *)
(** * What the library framework promises for every library

    The theorem is stated against the interface [LibraryLaws] of [LibraryProofs.v], and so
    holds for each library that has an instance: the clearing queue, the forwarder, the
    splitter and the reverse splitter. *)
From Stdlib Require Import Strings.Byte.
From S2P Require Import Prelude Platform Types Format Accounts LibraryBase LibraryProofs.
From S2P Require Import Codec LibraryCodec ClearingQueue ForwarderTheorems.
From S2P Require Import SplitterTheorems ReverseSplitter ReverseSplitterTheorems.
Import Library.

(** ** The reverse splitter behind the interface *)
Section Reverse.
Import ReverseSplitter.
Context `{CPl : Platform} `{CDe : CwDenom} `{CMa : CosmMath} `{CJs : JsonCodec AccountExecuteMsg}.
Context `{!CosmMathLaws}.

(** A configuration has at least one split. *)
Definition reverse_valid (c : Config) : Prop := splits c ≠ [].
Lemma checked_splits_not_nil (q : LibQuerier) l base u k :
  validate_splits l base = Ok u → convert_to_checked_configs q l = Ok k → k ≠ [].
Proof.
  intros Hv Hk%mapM_result_Forall2 ->. inversion Hk. subst. done.
Qed.
Lemma reverse_update_ok q env info u (s s' : storage LibraryConfig Config ()) v :
  update_config q env info u s = Ok (v, s') →
  ∃ c c', s_config s = Some c ∧ s' = lset CONFIG_KEY (Some c') s ∧ (reverse_valid c → reverse_valid c').
Proof.
  unfold update_config, load_config, save_config, reverse_valid. intros Hu.
  apply Exec_bind_ok in Hu as (c & s1 & [Hc ->]%item_load_ok & Hu). exists c.
  apply Exec_bind_ok in Hu as (c1 & s1 & H1 & Hu).
  assert (s1 = s ∧ splits c1 = splits c) as [-> E1] by (destruct (upd_output_addr u); by run_inv).
  apply Exec_bind_ok in Hu as (c2 & s2 & H2 & Hu).
  assert (s2 = s ∧ splits c2 = splits c) as [-> E2] by (destruct (upd_base_denom u); run_inv; by rewrite ?E1).
  apply Exec_bind_ok in Hu as (c3 & s3 & H3 & Hu).
  assert (s3 = s ∧ (splits c ≠ [] → splits c3 ≠ [])) as [-> E3].
  { destruct (upd_splits u) as [l|]; run_inv; (split; [done|]); [|by rewrite E2].
    intros _. simpl. by eapply checked_splits_not_nil. }
  run_inv. by eexists.
Qed.
#[global] Instance reverse_laws : LibraryLaws reverse_lib reverse_valid eq (λ _, True).
Proof.
  split.
  - simpl. intros q raw c _ (o & Hd & (k & Hk & (b & _ & [= <-])%bind_result_ok)%bind_result_ok)%bind_result_ok.
    unfold do_validate in Hd. apply bind_result_ok in Hd as (a & _ & (u & Hv & _)%bind_result_ok).
    by eapply checked_splits_not_nil.
  - intros q env info u s v s' _ (c & c' & Hc & -> & Hv)%(reverse_update_ok q env info) Hs c1 [= <-].
    by apply Hv, Hs.
  - intros q env info u s v s' (c & c' & Hc & -> & Hv)%(reverse_update_ok q env info). done.
  - intros q env info [] c s r s' [-> _]%(gather_ok q env info) Hc. eauto.
  - intros q env info [] c s r s' [-> _]%(gather_ok q env info). done.
Qed.
End Reverse.

Section Framework.
Context {Raw Cfg Ext F U : Type} (lib : LibraryFns Raw Cfg Ext F U) (Valid : Cfg → Prop) (Kept : Cfg → Cfg → Prop).
Context `{CVa : LibraryConfigValidation Raw Cfg} `{CUp : LibraryConfigUpdateTrait U Raw}.
Context `{CPl : Platform} `{COw : CwOwnable} `{CDb : CwOwnableDebug}.
Context (QOk : LibQuerier → Prop) `{!LibraryLaws lib Valid Kept QOk}.
Abbreviation St := (storage Raw Cfg Ext).

(** From its instantiation on, a library has a processor and both configurations. *)
Lemma lib_reach_cells `{!CwOwnableLaws} ext (s : St) :
  lib_reach lib QOk ext s → is_Some (s_processor s) ∧ is_Some (s_raw_library_config s).
Proof.
  induction 1 as [q name version msg r s Hq Hi|q env info msg s r s' Hq _ [Hp Hraw] He].
  - unfold instantiate, save_raw_library_config, save_config in Hi. run_inv. done.
  - apply (lib_execute_access lib Valid Kept QOk) in He. destruct msg.
    + destruct He as (_ & (_ & _ & -> & ->) & _). done.
    + destruct He as (_ & _ & -> & _ & _ & raw & _ & ->). done.
    + destruct He as (_ & a & _ & -> & _). done.
    + destruct He as (o & _ & -> & _). done.
Qed.
Lemma not_the_processor q env info f (s : St) :
  is_Some (s_processor s) → s_processor s ≠ Some (info_sender info) →
  lib_execute lib q env info (ProcessFunction f) s = Err (LibUnauthorized LibNotAllowed).
Proof.
  intros [p Hp] Hne. unfold lib_execute, execute, assert_processor, mbind, Exec_bind, item_load.
  simpl. rewrite Hp. unfold fail_if. rewrite bool_decide_eq_true_2; [done|]. congruence.
Qed.
End Framework.

(** C19 Every library obeys its processor and its owner, and nobody else.  In every state
    reached from the instantiation, the configuration is present and satisfies the condition
    [Valid] of the library (no empty names or zero amounts for the clearing queue, the IBC
    and CCTP transfers and the Bitcoin issuer, no duplicate denominations for the forwarder,
    well-formed splits for the splitters; the other libraries have none).  A function is
    executed for the processor only, anybody else gets an error; it changes neither the
    owner nor the processor nor the stored raw configuration, and of the configuration only
    what [Kept] allows: nothing, but for the id registered last in the clearing queue and
    the tables of queries in the interchain querier.  Every other message that changes the
    configuration is one of the owner, which records exactly the fields of the update in the raw
    configuration and sends no message; the processor changes by a message of the owner
    only. *)
Theorem library_obeys_owner_and_processor {Raw Cfg Ext F U : Type}
    (lib : LibraryFns Raw Cfg Ext F U) (Valid : Cfg → Prop) (Kept : Cfg → Cfg → Prop) (QOk : LibQuerier → Prop)
    `{LibraryConfigValidation Raw Cfg} `{LibraryConfigUpdateTrait U Raw}
    `{!LibraryLaws lib Valid Kept QOk} `{Platform} `{COw : CwOwnable} `{!CwOwnableLaws} `{CwOwnableDebug}
    (ext : Ext) (s : storage Raw Cfg Ext) q env info (msg : LibExecuteMsg F U) :
  lib_reach lib QOk ext s →
  (∃ c, s_config s = Some c ∧ Valid c) ∧
  (∀ f, s_processor s ≠ Some (info_sender info) →
     lib_execute lib q env info (ProcessFunction f) s = Err (LibUnauthorized LibNotAllowed)) ∧
  ∀ r s', lib_execute lib q env info msg s = Ok (r, s') →
    let by_owner := ∃ o, s_ownership s = Some o ∧ own_owner o = Some (info_sender info) in
    match msg with
    | ProcessFunction f =>
        s_processor s = Some (info_sender info) ∧ same_base s s' ∧
        ∃ c c', s_config s = Some c ∧ s_config s' = Some c' ∧ Kept c c'
    | UpdateConfig u =>
        by_owner ∧ s_ownership s' = s_ownership s ∧ s_processor s' = s_processor s ∧
        s_ext s' = s_ext s ∧ resp_messages r = [] ∧
        ∃ raw, s_raw_library_config s = Some raw ∧
               s_raw_library_config s' = Some (update_raw_config u raw)
    | UpdateProcessor p =>
        by_owner ∧ ∃ addr, addr_validate p = Ok addr ∧ s' = lset PROCESSOR (Some addr) s ∧
        resp_messages r = []
    | LibUpdateOwnership action =>
        ∃ o, update_ownership_lib (s_ownership s) (env_block env) (info_sender info) action = Ok o ∧
             s' = lset OWNERSHIP (Some o) s ∧ resp_messages r = []
    end.
Proof.
  intros Hr. pose proof (lib_reach_cells lib Valid Kept QOk _ _ Hr) as [Hp _]. split_and!.
  - by eapply (lib_reach_config lib Valid Kept QOk).
  - intros f Hne. by apply not_the_processor.
  - intros r s' He. exact (lib_execute_access lib Valid Kept QOk q env info msg s r s' He).
Qed.

(** The forwarder of [ForwarderTheorems.v], an update of its processor and a forward. *)
Definition sample_forwarder_new : storage Forwarder.Forwarder.LibraryConfig Forwarder.Forwarder.Config (option BlockInfo) :=
  after sample_forwarder_init (empty_storage None).
Definition sample_new_processor : LibExecuteMsg Forwarder.Forwarder.FunctionMsgs Forwarder.Forwarder.LibraryConfigUpdate :=
  UpdateProcessor "processor2".
Lemma library_obeys_owner_and_processor_witness :
  (∃ r s', lib_execute forwarder_lib (ref_lib_querier 100) (mkEnv (mkBlock 1 1) "forwarder")
     (mkInfo "owner" []) sample_new_processor sample_forwarder_new = Ok (r, s') ∧
   ∃ o, s_ownership sample_forwarder_new = Some o ∧ own_owner o = Some "owner") ∧
  ∃ r s', sample_forwarder_tx 10 sample_forwarder_new = Ok (r, s') ∧ s_config s' = s_config sample_forwarder_new.
Proof.
  assert (lib_reach forwarder_lib LibQuerierLaws None sample_forwarder_new) as Hreach.
  { destruct (after_ok sample_forwarder_init (empty_storage None)) as [r0 H0]; [by vm_compute|].
    eapply reach_start; [apply ref_lib_querier_laws|exact H0]. }
  split; [|destruct (after_ok (sample_forwarder_tx 10) sample_forwarder_new) as [r Hr]; [by vm_compute|];
    destruct (library_obeys_owner_and_processor forwarder_lib forwarder_valid eq LibQuerierLaws None
      sample_forwarder_new (ref_lib_querier 100) (mkEnv (mkBlock 10 10) "forwarder") (mkInfo "processor" [])
      (ProcessFunction Forwarder.Forwarder.Forward) Hreach) as (_ & _ & Ha);
    destruct (Ha _ _ Hr) as (_ & _ & c & c' & Hc & Hc' & ->); eexists _, _; split; [exact Hr|by rewrite Hc, Hc']].
  destruct (after_ok (lib_execute forwarder_lib (ref_lib_querier 100) (mkEnv (mkBlock 1 1) "forwarder")
    (mkInfo "owner" []) sample_new_processor) sample_forwarder_new) as [r Hr]; [by vm_compute|].
  destruct (library_obeys_owner_and_processor forwarder_lib forwarder_valid eq LibQuerierLaws None
    sample_forwarder_new (ref_lib_querier 100) (mkEnv (mkBlock 1 1) "forwarder") (mkInfo "owner" [])
    sample_new_processor Hreach) as (_ & _ & Ha).
  destruct (Ha _ _ Hr) as [Ho _]. eexists _, _. split; [exact Hr|exact Ho].
Defined.
