(* ===== verification/LibraryAccount.v ===== *)
(** * [LibraryAccountType] as text ([library-utils/src/library_account_type.rs])

    The other methods of the type, and the round trip of its textual form, which the
    program manager uses to replace ids by addresses. *)
From Stdlib Require Import Strings.Ascii.
From S2P Require Import Prelude Platform Types Format Accounts LibraryBase LibraryCodec.

Definition LIBRARY_ACCOUNT_RAW_PLACEHOLDER : string := "|lib_acc_placeholder|".
Definition quoted (s : string) : string := String quote (s ++ String quote EmptyString).
(** The texts that the code compares with, such as [{"|account_id|":]. *)
Definition account_id_prefix : string := "{" ++ quoted "|account_id|" ++ ":".
Definition library_id_prefix : string := "{" ++ quoted "|library_id|" ++ ":".
Definition account_addr_prefix : string :=
  "{" ++ quoted "|library_account_addr|" ++ ":" ++ String quote EmptyString.
Definition account_addr_suffix : string := String quote "}".

(** A [None] is a panic. *)
Definition to_raw_placeholder (l : LibraryAccountType) : option string :=
  match l with
  | LibAddr addr => Some addr
  | LibAccountId id => Some (LIBRARY_ACCOUNT_RAW_PLACEHOLDER ++ ":" ++ pretty id)%string
  | LibLibraryId _ => None
  end.
Definition LibraryAccountType_from_addr (addr : Addr) : LibraryAccountType := LibAddr addr.
Definition get_account_id (l : LibraryAccountType) : option N :=
  match l with LibAccountId id => Some id | _ => None end.
Definition get_library_id (l : LibraryAccountType) : option N :=
  match l with LibLibraryId id => Some id | _ => None end.

(** [FromStr]. *)
Definition LibraryAccountType_from_str (input : string) : result string LibraryAccountType :=
  if starts_with input account_id_prefix then
    match parse_u64 (trim_end_matches (trim_start_matches input account_id_prefix) "}") with
    | Some id => Ok (LibAccountId id)
    | None => Err "Failed parsing account_id into LibraryAccountType"
    end
  else if starts_with input library_id_prefix then
    match parse_u64 (trim_end_matches (trim_start_matches input library_id_prefix) "}") with
    | Some id => Ok (LibLibraryId id)
    | None => Err "Failed parsing library_id into LibraryAccountType"
    end
  else if starts_with input account_addr_prefix then
    Ok (LibAddr (trim_end_matches (trim_start_matches input account_addr_prefix) account_addr_suffix))
  else Ok (LibAddr input).
(** [From<&str>], which panics where [FromStr] fails. *)
Definition LibraryAccountType_from (input : string) : option LibraryAccountType :=
  if starts_with input account_id_prefix then
    id ← parse_u64 (trim_end_matches (trim_start_matches input account_id_prefix) "}");
    Some (LibAccountId id)
  else if starts_with input library_id_prefix then
    id ← parse_u64 (trim_end_matches (trim_start_matches input library_id_prefix) "}");
    Some (LibLibraryId id)
  else if starts_with input account_addr_prefix then
    Some (LibAddr (trim_end_matches (trim_start_matches input account_addr_prefix) account_addr_suffix))
  else Some (LibAddr input).

(** ** The JSON text of the type

    What [serde_json] prints for an enum with these names: an object with one field; in
    the text of an address, quotes, backslashes and control characters are escaped. *)
Definition plain (a : string) : Prop :=
  Forall (λ c, c ≠ quote ∧ c ≠ backslash ∧ (32 ≤ N_of_ascii c)%N) (String.list_ascii_of_string a).
#[global] Instance plain_dec a : Decision (plain a).
Proof. unfold plain. apply _. Defined.
Class AccountTypeJson := { account_type_json : LibraryAccountType → string }.
Class AccountTypeJsonLaws `{AccountTypeJson} : Prop := {
  account_json_id id : account_type_json (LibAccountId id) = (account_id_prefix ++ (pretty id ++ "}"))%string;
  library_json_id id : account_type_json (LibLibraryId id) = (library_id_prefix ++ (pretty id ++ "}"))%string;
  account_json_addr a : plain a →
    account_type_json (LibAddr a) = (account_addr_prefix ++ (a ++ account_addr_suffix))%string;
}.

(** ** Facts *)
Definition is_digit (a : ascii) : Prop := ∃ n, (n < 10)%N ∧ a = pretty_N_char n.
Lemma pretty_N_go_digits x s :
  Forall is_digit (String.list_ascii_of_string s) →
  Forall is_digit (String.list_ascii_of_string (pretty_N_go x s)).
Proof.
  revert s. induction (N.lt_wf_0 x) as [x _ IH]. intros s Hs.
  destruct (N.eq_dec x 0%N) as [->|Hx]; [by rewrite pretty_N_go_0|].
  rewrite pretty_N_go_step by (by apply N.neq_0_lt_0). apply IH; [apply N.div_lt; lia|].
  simpl. constructor; [|done]. exists (x `mod` 10)%N. split; [apply N.mod_lt; lia|done].
Qed.
Lemma pretty_digits (n : N) : Forall is_digit (String.list_ascii_of_string (pretty n)).
Proof.
  unfold pretty, pretty_N. case_decide; [|by apply pretty_N_go_digits].
  constructor; [by exists 0%N|constructor].
Qed.
Lemma digit_not a : is_digit a → a ≠ "{"%char ∧ a ≠ "}"%char.
Proof. intros (n & Hn & ->). split; intros He%(f_equal digit_value); by rewrite digit_value_char in He. Qed.

Lemma strip_prefix_head a p s :
  (∀ b s', s = b :: s' → a ≠ b) → strip_prefix (a :: p) s = None.
Proof. intros Hs. destruct s as [|b s]; simpl; [done|]. rewrite bool_decide_eq_false_2; eauto. Qed.
(** An object field with a text that does not look like its delimiters. *)
Lemma trim_field p x s (a b : ascii) p' x' :
  String.list_ascii_of_string p = a :: p' → reverse (String.list_ascii_of_string x) = b :: x' →
  (∀ c k, String.list_ascii_of_string (s ++ x)%string = c :: k → a ≠ c) →
  (∀ c k, reverse (String.list_ascii_of_string s) = c :: k → b ≠ c) →
  trim_end_matches (trim_start_matches (p ++ (s ++ x)) p) x = s.
Proof.
  intros Hp Hx Hs1 Hs2. rewrite trim_start_once; [apply trim_end_once|].
  - rewrite Hx. by apply strip_prefix_head.
  - rewrite Hp. by apply strip_prefix_head.
Qed.
Lemma Forall_head {A} (P : A → Prop) l x k : Forall P l → l = x :: k → P x.
Proof. by intros Hf ->; inversion Hf. Qed.
Lemma Forall_last {A} (P : A → Prop) l x k : Forall P l → reverse l = x :: k → P x.
Proof. intros Hf Hr. apply (Forall_head P (reverse l) x k); [by apply Forall_reverse|done]. Qed.

Lemma trim_id p p' (n : N) : String.list_ascii_of_string p = "{"%char :: p' →
  trim_end_matches (trim_start_matches (p ++ (pretty n ++ "}")) p) "}" = pretty n.
Proof.
  intros Hp. eapply trim_field; [exact Hp|done| |].
  - intros c k. rewrite list_ascii_of_string_app. pose proof (pretty_digits n) as Hd.
    destruct (String.list_ascii_of_string (pretty n)) as [|d ds]; simpl; intros [= <- _]; [done|].
    apply Forall_cons in Hd as [Hd _]. by apply digit_not in Hd as [? _].
  - intros c k Hr. eapply Forall_last in Hr; [|apply pretty_digits]. by apply digit_not in Hr as [_ ?].
Qed.
Lemma trim_addr a : plain a →
  trim_end_matches (trim_start_matches (account_addr_prefix ++ (a ++ account_addr_suffix))
    account_addr_prefix) account_addr_suffix = a.
Proof.
  intros Ha. assert (quote ∉ String.list_ascii_of_string a) as Hq.
  { intros Hin. unfold plain in Ha. rewrite Forall_forall in Ha. by apply Ha in Hin as [? _]. }
  rewrite trim_start_once; [apply trim_end_once|].
  - apply eq_None_not_Some. intros [r Hr%strip_prefix_Some]. apply Hq.
    rewrite <-(reverse_involutive (String.list_ascii_of_string a)), Hr.
    apply elem_of_reverse, elem_of_app. left. simpl. set_solver.
  - apply eq_None_not_Some. intros [r Hr%strip_prefix_Some].
    rewrite list_ascii_of_string_app in Hr.
    destruct (String.list_ascii_of_string a) as [|x [|y l]]; [done|done|].
    cbn in Hr. injection Hr as _ -> _. apply Hq. right. by left.
Qed.

Lemma starts_with_other p s : strip_prefix (String.list_ascii_of_string p) (String.list_ascii_of_string s) = None →
  starts_with s p = false.
Proof. unfold starts_with. intros ->. apply bool_decide_eq_false_2. by intros [? ?]. Qed.

(** The text of a library account type is read back.  The JSON text of an account id,
    of a library id (both 64-bit numbers) and of an address without quotes, backslashes
    and control characters is parsed by [from_str] and by the conversion from [&str] into
    the same value; and an address that does not start with a brace can be given as it
    is. *)
Theorem account_type_text_roundtrip `{AccountTypeJson} `{!AccountTypeJsonLaws} (l : LibraryAccountType) :
  match l with
  | LibAddr a => plain a
  | LibAccountId id | LibLibraryId id => (id ≤ u64_max)%N
  end →
  LibraryAccountType_from_str (account_type_json l) = Ok l ∧
  LibraryAccountType_from (account_type_json l) = Some l ∧
  ∀ a, l = LibAddr a → (∀ s, a ≠ String "{" s) →
    LibraryAccountType_from_str a = Ok l ∧ LibraryAccountType_from a = Some l.
Proof.
  unfold LibraryAccountType_from_str, LibraryAccountType_from. destruct l as [a|id|id]; intros Hl.
  - rewrite account_json_addr by done.
    rewrite (starts_with_other account_id_prefix), (starts_with_other library_id_prefix) by done.
    rewrite starts_with_app, trim_addr by done. split_and!; [done..|].
    intros a' [= <-] Hbrace.
    assert (∀ p p', String.list_ascii_of_string p = "{"%char :: p' → starts_with a p = false) as Hno.
    { intros p p' Hp. apply starts_with_other. rewrite Hp. apply strip_prefix_head.
      intros b s' Hs. destruct a as [|c a]; simplify_eq/=. intros <-. by apply (Hbrace a). }
    by rewrite (Hno account_id_prefix _ eq_refl), (Hno library_id_prefix _ eq_refl),
      (Hno account_addr_prefix _ eq_refl).
  - rewrite account_json_id, starts_with_app, (trim_id account_id_prefix _ _ eq_refl), parse_u64_pretty by done. done.
  - rewrite library_json_id, (starts_with_other account_id_prefix) by done.
    rewrite starts_with_app, (trim_id library_id_prefix _ _ eq_refl), parse_u64_pretty by done. done.
Qed.

#[global] Instance ref_account_type_json : AccountTypeJson := {
  account_type_json l := match l with
    | LibAddr a => (account_addr_prefix ++ (a ++ account_addr_suffix))%string
    | LibAccountId id => (account_id_prefix ++ (pretty id ++ "}"))%string
    | LibLibraryId id => (library_id_prefix ++ (pretty id ++ "}"))%string
    end;
}.
#[global] Instance ref_account_type_json_laws : AccountTypeJsonLaws.
Proof. by split. Qed.
Lemma account_type_text_roundtrip_witness :
  LibraryAccountType_from_str (account_type_json (LibAccountId 42)) = Ok (LibAccountId 42) ∧
  LibraryAccountType_from_str (account_type_json (LibAddr "addr1234")) = Ok (LibAddr "addr1234").
Proof.
  split.
  - refine (proj1 (account_type_text_roundtrip (LibAccountId 42) _)). by apply N.leb_le.
  - refine (proj1 (account_type_text_roundtrip (LibAddr "addr1234") _)).
    apply (bool_decide_unpack _). by vm_compute.
Defined.
