(* ===== verification/ProgramRegistry.v ===== *)
(** * The program registry ([contracts/program-registry])

    Hands out program ids and keeps, for each, the configuration of the program and the
    previous one.  An id is reserved for an address, which saves the program and names
    its owner; only the owner updates it. *)
From Stdlib Require Import Strings.Byte.
From S2P Require Import Prelude Platform Types Queue Accounts AccountsTheorems Codec.

Module ProgramRegistry.

(** ** [error.rs], [state.rs] and the messages of [program-registry-utils] *)
Inductive ContractError :=
| Std (e : StdError)
| OwnershipE (e : OwnershipError)
| ProgramAlreadyExists (id : N)
| ProgramDoesntExists (id : N)
| UnauthorizedToSave (reserver : string)
| UnauthorizedToUpdate (owner : string).
#[global] Instance From_Std : From StdError ContractError := Std.
#[global] Instance From_Ownership : From OwnershipError ContractError := OwnershipE.

Inductive ExecuteMsg :=
| ReserveId (addr : string)
| SaveProgram (id : N) (owner : string) (program_config : Binary)
| UpdateProgram (id : N) (program_config : Binary).
Record ProgramResponse := mkProgramResponse { pr_id : N; pr_program_config : Binary }.

Record storage := mkStorage {
  s_contract_info : option (string * string);
  s_ownership : option Ownership;
  s_last_id : option N;
  s_programs_owners : gmap N Addr;
  s_programs : gmap N (list byte);
  s_programs_backup : gmap N (list byte);
}.
Definition empty_storage : storage := mkStorage None None None ∅ ∅ ∅.
Definition CONTRACT_INFO : lens storage (option (string * string)) :=
  Lens s_contract_info (λ x s, mkStorage x (s_ownership s) (s_last_id s)
    (s_programs_owners s) (s_programs s) (s_programs_backup s)).
Definition OWNERSHIP : lens storage (option Ownership) :=
  Lens s_ownership (λ x s, mkStorage (s_contract_info s) x (s_last_id s)
    (s_programs_owners s) (s_programs s) (s_programs_backup s)).
Definition LAST_ID : lens storage (option N) :=
  Lens s_last_id (λ x s, mkStorage (s_contract_info s) (s_ownership s) x
    (s_programs_owners s) (s_programs s) (s_programs_backup s)).
Definition PROGRAMS_OWNERS : lens storage (gmap N Addr) :=
  Lens s_programs_owners (λ x s, mkStorage (s_contract_info s) (s_ownership s) (s_last_id s)
    x (s_programs s) (s_programs_backup s)).
Definition PROGRAMS : lens storage (gmap N (list byte)) :=
  Lens s_programs (λ x s, mkStorage (s_contract_info s) (s_ownership s) (s_last_id s)
    (s_programs_owners s) x (s_programs_backup s)).
Definition PROGRAMS_BACKUP : lens storage (gmap N (list byte)) :=
  Lens s_programs_backup (λ x s, mkStorage (s_contract_info s) (s_ownership s) (s_last_id s)
    (s_programs_owners s) (s_programs s) x).
Definition CONTRACT_NAME : string := "valence-program-registry".
Definition CONTRACT_VERSION : string := "0.2.0".

Section Contract.
Context `{Platform} `{CwOwnable}.
Abbreviation M := (Exec storage ContractError).

Definition instantiate (_env : Env) (_info : MessageInfo) (admin : string)
    : Exec storage StdError Response :=
  _ ← item_save CONTRACT_INFO (CONTRACT_NAME, CONTRACT_VERSION);
  ownership ← of_result (initialize_owner (Some admin));
  _ ← item_save OWNERSHIP ownership;
  _ ← item_save LAST_ID 0%N;
  mret (add_attributes [("method", "instantiate"); ("owner", admin)] Response_new).

Definition reserve_id (addr : string) : M Response :=
  last ← item_load LAST_ID;
  id ← expect (checked_add u64_max last 1);
  _ ← item_save LAST_ID id;
  addr ← of_result (addr_validate addr);
  _ ← map_save PROGRAMS_OWNERS id addr;
  mret (add_attributes [("method", "reserve_id"); ("id", pretty id)] Response_new).

Definition save_program (info : MessageInfo) (id : N) (owner : string) (program_config : Binary)
    : M Response :=
  id_temp_owner ← map_load PROGRAMS_OWNERS id;
  _ ← fail_if (bool_decide (id_temp_owner ≠ info_sender info)) (UnauthorizedToSave id_temp_owner);
  exists_ ← map_has PROGRAMS id;
  _ ← fail_if exists_ (ProgramAlreadyExists id);
  _ ← map_save PROGRAMS id program_config;
  owner ← of_result (addr_validate owner);
  _ ← map_save PROGRAMS_OWNERS id owner;
  mret (add_attributes [("method", "get_id"); ("id", pretty id)] Response_new).

Definition update_program (info : MessageInfo) (id : N) (program_config : Binary) : M Response :=
  program_owner ← map_load PROGRAMS_OWNERS id;
  _ ← fail_if (bool_decide (program_owner ≠ info_sender info)) (UnauthorizedToUpdate program_owner);
  previous ← map_may_load PROGRAMS id;
  match previous with
  | Some previous_program =>
      _ ← map_save PROGRAMS_BACKUP id previous_program;
      _ ← map_save PROGRAMS id program_config;
      mret (add_attributes [("method", "get_id"); ("id", pretty id)] Response_new)
  | None => fail (ProgramDoesntExists id)
  end.

Definition execute (_env : Env) (info : MessageInfo) (msg : ExecuteMsg) : M Response :=
  match msg with
  | ReserveId addr => reserve_id addr
  | SaveProgram id owner program_config => save_program info id owner program_config
  | UpdateProgram id program_config => update_program info id program_config
  end.

(** ** Queries *)
Definition get_config (s : storage) (id : N) : result StdError ProgramResponse :=
  match s_programs s !! id with
  | Some config => Ok (mkProgramResponse id config)
  | None => Err NotFound
  end.
Definition get_config_backup (s : storage) (id : N) : option ProgramResponse :=
  mkProgramResponse id <$> s_programs_backup s !! id.
(** [PROGRAMS.range] between inclusive bounds, at most [limit] entries. *)
Definition get_all_configs (s : storage) (start end_ limit : option N) (order : option QueueMap.Order)
    : list ProgramResponse :=
  let asc := filter (λ kv : N * list byte,
               Is_true (default true ((λ lo, lo <=? kv.1)%N <$> start)
                        && default true ((λ hi, kv.1 <=? hi)%N <$> end_)))
               (map_range N.leb (s_programs s) None) in
  let all := match default QueueMap.Ascending order with
             | QueueMap.Ascending => asc
             | QueueMap.Descending => reverse asc
             end in
  (λ kv, mkProgramResponse kv.1 kv.2) <$> take (N.to_nat (default 10%N limit)) all.
Definition get_last_id (s : storage) : result StdError N :=
  match s_last_id s with Some id => Ok id | None => Err NotFound end.
End Contract.
End ProgramRegistry.

Import ProgramRegistry.

(** ** Histories

    The accepted messages of a registry, oldest first, with their senders. *)
Abbreviation reg_log := (list (Addr * ExecuteMsg)).

(** The configurations an id was given, in order. *)
Definition config_of (id : N) (e : Addr * ExecuteMsg) : option (list byte) :=
  match e.2 with
  | SaveProgram i _ c => if decide (i = id) then Some c else None
  | UpdateProgram i c => if decide (i = id) then Some c else None
  | ReserveId _ => None
  end.
Definition configs (id : N) (log : reg_log) : list (list byte) := omap (config_of id) log.
Definition reservations (log : reg_log) : list string :=
  omap (λ e : Addr * ExecuteMsg, match e.2 with ReserveId a => Some a | _ => None end) log.
Definition saved_owners (id : N) (log : reg_log) : list string :=
  omap (λ e : Addr * ExecuteMsg, match e.2 with
        | SaveProgram i o _ => if decide (i = id) then Some o else None
        | _ => None
        end) log.
(** The address that may act on an id: the owner named when the program was saved, and
    before that the address of the reservation that got the id. *)
Definition owner_of `{Platform} (id : N) (log : reg_log) : option Addr :=
  match last (saved_owners id log) with
  | Some o => valid_addr o
  | None => if decide (id = 0%N) then None
            else reservations log !! (N.to_nat id - 1) ≫= valid_addr
  end.

Section Proofs.
Context `{CPl : Platform} `{COw : CwOwnable}.

Inductive registry_run : reg_log → storage → Prop :=
| registry_start env info admin r s :
    instantiate env info admin empty_storage = Ok (r, s) → registry_run [] s
| registry_tx log env info msg s r s' :
    registry_run log s → execute env info msg s = Ok (r, s') →
    registry_run (log ++ [(info_sender info, msg)]) s'.

Record registered (log : reg_log) (s : storage) : Prop := {
  rg_last : s_last_id s = Some (vec_len (reservations log));
  rg_owners : ∀ id, s_programs_owners s !! id = owner_of id log;
  rg_programs : ∀ id, s_programs s !! id = last (configs id log);
  rg_backup : ∀ id, s_programs_backup s !! id = last (removelast (configs id log));
  rg_saved : ∀ id, (configs id log = [] ↔ saved_owners id log = []) ∧
    (saved_owners id log ≠ [] → 1 ≤ id ≤ vec_len (reservations log))%N;
  rg_once : ∀ id, length (saved_owners id log) ≤ 1;
  rg_valid : Forall (λ a, is_Some (valid_addr a)) (reservations log) ∧
    ∀ id, Forall (λ a, is_Some (valid_addr a)) (saved_owners id log);
}.

Lemma last_None_nil {A} (l : list A) : last l = None ↔ l = [].
Proof. apply last_None. Qed.
Lemma owner_of_known id log o :
  saved_owners id log = [] → owner_of id log = Some o → (1 ≤ id ≤ vec_len (reservations log))%N.
Proof.
  unfold owner_of, vec_len. intros -> Ho. simpl in Ho. case_decide; [done|].
  destruct (reservations log !! _) as [a|] eqn:Hl; [|done]. apply lookup_lt_Some in Hl. lia.
Qed.

(** The last entry of a history. *)
Section Snoc.
Context (log : reg_log) (sender : Addr).
Lemma configs_snoc id msg : configs id (log ++ [(sender, msg)]) =
  configs id log ++ option_list (config_of id (sender, msg)).
Proof. unfold configs. rewrite omap_app. simpl. by destruct (config_of id (sender, msg)). Qed.
Lemma reserve_snoc a :
  reservations (log ++ [(sender, ReserveId a)]) = reservations log ++ [a] ∧
  ∀ id, saved_owners id (log ++ [(sender, ReserveId a)]) = saved_owners id log.
Proof.
  unfold reservations, saved_owners. rewrite omap_app. split; [done|].
  intros id. by rewrite omap_app, app_nil_r.
Qed.
Lemma save_snoc id o c :
  reservations (log ++ [(sender, SaveProgram id o c)]) = reservations log ∧
  ∀ i, saved_owners i (log ++ [(sender, SaveProgram id o c)]) =
    saved_owners i log ++ (if decide (id = i) then [o] else []).
Proof.
  unfold reservations, saved_owners. rewrite omap_app, app_nil_r. split; [done|].
  intros i. rewrite omap_app. simpl. by case_decide.
Qed.
Lemma update_snoc id c :
  reservations (log ++ [(sender, UpdateProgram id c)]) = reservations log ∧
  ∀ i, saved_owners i (log ++ [(sender, UpdateProgram id c)]) = saved_owners i log.
Proof.
  unfold reservations, saved_owners. rewrite omap_app, app_nil_r. split; [done|].
  intros i. by rewrite omap_app, app_nil_r.
Qed.
End Snoc.

Lemma registered_reserve log sender a x s s' :
  registered log s → addr_validate a = Ok x →
  s' = lset PROGRAMS_OWNERS (<[(vec_len (reservations log) + 1)%N := x]> (s_programs_owners s))
         (lset LAST_ID (Some (vec_len (reservations log) + 1)%N) s) →
  registered (log ++ [(sender, ReserveId a)]) s'.
Proof.
  intros [Hla How Hpr Hba Hsa Hon [Hva Hvs]] Ha ->. destruct (reserve_snoc log sender a) as [Hr Hs].
  split; simpl; rewrite ?Hr.
  - unfold vec_len. rewrite length_app. simpl. f_equal. lia.
  - intros id. unfold owner_of. rewrite Hs, Hr.
    destruct (decide (vec_len (reservations log) + 1 = id)%N) as [<-|Hne].
    + rewrite lookup_insert_eq.
      destruct (decide (saved_owners (vec_len (reservations log) + 1) log = [])) as [->|Hn].
      * simpl. rewrite decide_False by lia.
        replace (N.to_nat (vec_len (reservations log) + 1) - 1)%nat with (length (reservations log))
          by (unfold vec_len; lia).
        rewrite lookup_app_r, Nat.sub_diag by lia. simpl. by rewrite (valid_addr_ok _ _ Ha).
      * apply Hsa in Hn. lia.
    + rewrite lookup_insert_ne, How by done. unfold owner_of.
      destruct (last (saved_owners id log)); [done|]. case_decide as H0; [done|].
      destruct (decide (N.to_nat id - 1 < length (reservations log))%nat) as [Hlt|Hge].
      * by rewrite lookup_app_l.
      * rewrite (lookup_ge_None_2 (reservations log)) by lia.
        rewrite lookup_ge_None_2; [done|]. rewrite length_app. simpl. unfold vec_len in Hne. lia.
  - intros id. by rewrite configs_snoc, app_nil_r.
  - intros id. by rewrite configs_snoc, app_nil_r.
  - intros id. rewrite configs_snoc, app_nil_r, Hs. split; [apply Hsa|]. intros Hn%Hsa.
    unfold vec_len in *. rewrite length_app. simpl. lia.
  - intros id. by rewrite Hs.
  - split; [|intros id; by rewrite Hs].
    apply Forall_app. split; [done|]. constructor; [|done]. rewrite (valid_addr_ok _ _ Ha). by eexists.
Qed.
Lemma registered_save log sender id o x c s s' :
  registered log s → s_programs_owners s !! id = Some sender → s_programs s !! id = None →
  addr_validate o = Ok x →
  s' = lset PROGRAMS_OWNERS (<[id := x]> (s_programs_owners s))
         (lset PROGRAMS (<[id := c]> (s_programs s)) s) →
  registered (log ++ [(sender, SaveProgram id o c)]) s'.
Proof.
  intros [Hla How Hpr Hba Hsa Hon [Hva Hvs]] Ho Hp Ha ->. destruct (save_snoc log sender id o c) as [Hr Hs].
  rewrite Hpr in Hp. apply last_None_nil in Hp. pose proof (proj1 (proj1 (Hsa id)) Hp) as Hsn.
  rewrite How in Ho. pose proof (owner_of_known _ _ _ Hsn Ho) as Hk.
  split; simpl; rewrite ?Hr.
  - done.
  - intros i. unfold owner_of. rewrite Hs, Hr. destruct (decide (id = i)) as [<-|Hne].
    + by rewrite lookup_insert_eq, last_snoc, (valid_addr_ok _ _ Ha).
    + rewrite lookup_insert_ne, app_nil_r by done. apply How.
  - intros i. rewrite configs_snoc. unfold config_of. simpl. destruct (decide (id = i)) as [<-|Hne]; simpl.
    + by rewrite lookup_insert_eq, last_snoc.
    + rewrite lookup_insert_ne by done. by rewrite app_nil_r.
  - intros i. rewrite configs_snoc. unfold config_of. simpl. case_decide as Hi; simpl.
    + subst i. rewrite removelast_last, Hp. rewrite Hba, Hp. done.
    + by rewrite app_nil_r.
  - intros i. rewrite configs_snoc, Hs. unfold config_of. simpl. case_decide as Hi; simpl.
    + subst i. split; [|done]. rewrite Hp, Hsn. done.
    + rewrite !app_nil_r. apply Hsa.
  - intros i. rewrite Hs. case_decide as Hi; [subst i; by rewrite Hsn|]. by rewrite app_nil_r.
  - split; [done|]. intros i. rewrite Hs. apply Forall_app. split; [done|].
    case_decide; [|constructor]. constructor; [|done]. rewrite (valid_addr_ok _ _ Ha). by eexists.
Qed.
Lemma registered_update log sender id p c s s' :
  registered log s → s_programs s !! id = Some p →
  s' = lset PROGRAMS (<[id := c]> (s_programs s))
         (lset PROGRAMS_BACKUP (<[id := p]> (s_programs_backup s)) s) →
  registered (log ++ [(sender, UpdateProgram id c)]) s'.
Proof.
  intros [Hla How Hpr Hba Hsa Hon [Hva Hvs]] Hp ->. destruct (update_snoc log sender id c) as [Hr Hs].
  split; simpl; rewrite ?Hr.
  - done.
  - intros i. unfold owner_of. rewrite Hs, Hr. apply How.
  - intros i. rewrite configs_snoc. unfold config_of. simpl. destruct (decide (id = i)) as [<-|Hne]; simpl.
    + by rewrite lookup_insert_eq, last_snoc.
    + rewrite lookup_insert_ne by done. by rewrite app_nil_r.
  - intros i. rewrite configs_snoc. unfold config_of. simpl. destruct (decide (id = i)) as [<-|Hne].
    + rewrite lookup_insert_eq. simpl. by rewrite removelast_last, <-Hpr, Hp.
    + rewrite lookup_insert_ne by done. by rewrite app_nil_r.
  - intros i. rewrite configs_snoc, Hs. unfold config_of. simpl. case_decide as Hi; simpl.
    + subst i. split; [|apply Hsa]. rewrite Hpr in Hp. split; [by intros []%app_eq_nil|].
      intros He%Hsa. by rewrite He in Hp.
    + rewrite app_nil_r. apply Hsa.
  - intros i. by rewrite Hs.
  - split; [done|]. intros i. by rewrite Hs.
Qed.

(** The author of a change was entitled to it. *)
Definition entitled (log : reg_log) (sender : Addr) (msg : ExecuteMsg) : Prop :=
  match msg with
  | ReserveId _ => True
  | SaveProgram id _ _ | UpdateProgram id _ => owner_of id log = Some sender
  end.
Lemma execute_registered log env info msg s r s' :
  registered log s → execute env info msg s = Ok (r, s') →
  registered (log ++ [(info_sender info, msg)]) s' ∧ entitled log (info_sender info) msg.
Proof.
  intros Hreg He. destruct msg as [a|id o c|id c]; simpl in He.
  - unfold reserve_id in He. run_inv. split; [|done].
    rewrite (rg_last _ _ Hreg) in *. simplify_eq.
    match goal with Hc : checked_add _ _ _ = Some _ |- _ => apply checked_add_Some in Hc as [-> _] end.
    by eapply registered_reserve.
  - unfold save_program in He.
    apply Exec_bind_ok in He as (ow & s1 & [Ho ->]%map_load_ok & He). simpl in Ho.
    apply Exec_bind_ok in He as (u & s1 & [Hb%bool_decide_neq_false <-]%fail_if_ok & He). subst ow.
    apply Exec_bind_ok in He as (h & s1 & [-> ->]%map_has_ok & He).
    apply Exec_bind_ok in He as (u' & s1 & [Hn%bool_decide_eq_false_1 <-]%fail_if_ok & He). run_inv.
    split; [|simpl; by rewrite <-(rg_owners _ _ Hreg)].
    eapply registered_save; [done|done| |done|done]. by apply eq_None_not_Some.
  - unfold update_program in He.
    apply Exec_bind_ok in He as (ow & s1 & [Ho ->]%map_load_ok & He). simpl in Ho.
    apply Exec_bind_ok in He as (u & s1 & [Hb%bool_decide_neq_false <-]%fail_if_ok & He). subst ow.
    apply Exec_bind_ok in He as (prev & s1 & [Hp ->]%map_may_load_ok & He). simpl in Hp.
    split; [|simpl; by rewrite <-(rg_owners _ _ Hreg)].
    destruct prev as [p|]; [|done]. run_inv. by eapply registered_update.
Qed.
Lemma registry_run_registered log s :
  registry_run log s → registered log s ∧
  ∀ pre sender msg post, log = pre ++ (sender, msg) :: post → entitled pre sender msg.
Proof.
  induction 1 as [env info admin r s Hi|log env info msg s r s' _ [Hreg Hent] He].
  - unfold instantiate in Hi. run_inv. split; [|by intros [] ????].
    split; simpl; try done; intros id; [unfold owner_of; simpl; by case_decide|simpl; lia].
  - destruct (execute_registered log env info msg s r s' Hreg He) as [Hreg' He'].
    split; [done|].
    intros pre sender m post Hlog. destruct post as [|e post _] using rev_ind.
    + apply app_inj_tail in Hlog as [-> [= <- <-]]. done.
    + rewrite app_comm_cons, app_assoc in Hlog. apply app_inj_tail in Hlog as [-> _]. by eapply Hent.
Qed.
End Proofs.

(** C22 The registry keeps every program for its owner.  In every run: the ids that were
    handed out are 1, 2, 3, ..., each to one reservation; what is stored for an id is the
    last configuration that an accepted message gave it, and the backup is the one before;
    and every accepted [SaveProgram] and [UpdateProgram] came from the address entitled to
    the id at that time: the one that reserved it until the program was saved, and the
    owner that was named then ever after. *)
Theorem registry_keeps_programs `{Platform} `{CwOwnable} (log : reg_log) (s : storage) :
  registry_run log s →
  get_last_id s = Ok (vec_len (reservations log)) ∧
  (∀ id, is_Some (s_programs_owners s !! id) ↔ (1 ≤ id ≤ vec_len (reservations log))%N) ∧
  (∀ id, s_programs s !! id = last (configs id log)) ∧
  (∀ id, s_programs_backup s !! id = last (removelast (configs id log))) ∧
  (∀ id, length (saved_owners id log) ≤ 1) ∧
  (∀ pre sender msg post, log = pre ++ (sender, msg) :: post → entitled pre sender msg).
Proof.
  intros [[Hla How Hpr Hba Hsa Hon [Hva Hvs]] Hent]%registry_run_registered.
  refine (conj _ (conj _ (conj Hpr (conj Hba (conj Hon Hent))))).
  - unfold get_last_id. by rewrite Hla.
  - intros id. rewrite How. split.
    + intros [o Ho]. destruct (decide (saved_owners id log = [])) as [Hn|Hn]; [|by apply Hsa].
      by eapply owner_of_known.
    + intros Hid. unfold owner_of. destruct (last (saved_owners id log)) as [o|] eqn:Hl.
      * specialize (Hvs id). rewrite Forall_forall in Hvs. apply Hvs. by apply last_Some_elem_of in Hl.
      * rewrite decide_False by lia.
        destruct (lookup_lt_is_Some_2 (reservations log) (N.to_nat id - 1)) as [a Ha];
          [unfold vec_len in Hid; lia|].
        rewrite Ha. simpl. rewrite Forall_lookup in Hva. by eapply Hva.
Qed.

(** ** A registry with two programs, of which the first was updated *)
Definition sample_registry_tx (e : Addr * ExecuteMsg) : Exec storage ContractError Response :=
  execute (mkEnv (mkBlock 1 1) "registry") (mkInfo e.1 []) e.2.
Definition sample_registry_log : reg_log :=
  [("anyone", ReserveId "manager"); ("manager", SaveProgram 1 "owner" [x01]);
   ("anyone", ReserveId "other"); ("owner", UpdateProgram 1 [x02])].
Definition sample_registry_init : Exec storage StdError Response :=
  instantiate (mkEnv (mkBlock 1 1) "registry") (mkInfo "admin" []) "admin".
Definition sample_registry : storage :=
  after_all (sample_registry_tx <$> sample_registry_log) (after sample_registry_init empty_storage).
Lemma sample_registry_run : registry_run sample_registry_log sample_registry.
Proof.
  assert (∀ log k s, registry_run log s →
    (∀ i e, k !! i = Some e →
       succeeds (sample_registry_tx e) (after_all (sample_registry_tx <$> take i k) s) = true) →
    registry_run (log ++ k) (after_all (sample_registry_tx <$> k) s)) as Hall.
  { intros log k. revert log. induction k as [|e k IH]; intros log s Hrun Hk; [by rewrite app_nil_r|].
    rewrite cons_middle, app_assoc. apply IH.
    - destruct (after_ok (sample_registry_tx e) s) as [r Hr]; [by apply (Hk 0)|].
      destruct e as [sender msg].
      by apply (registry_tx _ (mkEnv (mkBlock 1 1) "registry") (mkInfo sender []) msg s r).
    - intros i e' Hi. apply (Hk (S i) e' Hi). }
  apply (Hall [] sample_registry_log).
  - destruct (after_ok sample_registry_init empty_storage) as [r Hr]; [by vm_compute|].
    by apply (registry_start (mkEnv (mkBlock 1 1) "registry") (mkInfo "admin" []) "admin" r).
  - intros [|[|[|[|i]]]] e He; simplify_eq/=; by vm_compute.
Qed.
Lemma registry_keeps_programs_witness :
  get_last_id sample_registry = Ok 2%N ∧ s_programs sample_registry !! 1%N = Some [x02] ∧
  s_programs_backup sample_registry !! 1%N = Some [x01].
Proof.
  destruct (registry_keeps_programs _ _ sample_registry_run) as (Hl & _ & Hp & Hb & _).
  split_and!; [exact Hl|exact (Hp 1%N)|exact (Hb 1%N)].
Defined.
