(* ===== verification/ProcessorProofs.v ===== *)
(** * Processor: theorems on the handlers *)
From S2P Require Import Prelude Platform Types Queue Processor ProcessorFacts Codec.
Import Processor.

(** The queue a tick looks at: the high-priority one unless it is empty. *)
Definition next_queue (qs : Priority → list MessageBatch) : Priority :=
  match qs High with [] => Medium | _ => High end.

Section Handlers.
Context `{HP : Platform} `{HS : SerdeJson}.
Context `{HA : JsonCodec AuthorizationExecuteMsg} `{HE : JsonCodec ProcessorExecuteMsg}.
Context `{HPo : JsonCodec PolytoneExecuteMsg} `{HC : JsonCodec ProcPolytoneCallbackMsg}.
Implicit Types (s : storage) (qs : Priority → list MessageBatch) (env : Env).

(** What a tick does, by the head of the queue it looks at. *)
Definition tick_outcome env s qs : Prop :=
  let p := next_queue qs in
  match qs p with
  | [] => process_tick env s = Err NoMessagesToProcess
  | b :: rest =>
      ∃ q', let s1 := lset (get_queue_map p) q' s in
      reps s1 (upd qs p rest) ∧
      if batch_expired (batch_expiration_time b) env then
        process_tick env s = tick_expired env b s1
      else if cooling_down env b then
        ∃ q'', let s2 := lset (get_queue_map p) q'' s in
        process_tick env s =
          Ok (mkResponse [] [("method", "tick"); ("action", "pushed_function_back_to_queue")], s2) ∧
        reps s2 (upd qs p (rest ++ [b]))
      else process_tick env s = tick_execute env b s1
  end.

Lemma lset_lset_queue p q q' s :
  lset (get_queue_map p) q (lset (get_queue_map p) q' s) = lset (get_queue_map p) q s.
Proof. apply lset_lset. Qed.

Lemma upd_upd {A} (qs : Priority → A) p x y : ∀ p', upd (upd qs p x) p y p' = upd qs p y p'.
Proof. intros p'. unfold upd. by case_decide. Qed.

Lemma reps_ext s qs qs' : (∀ p, qs p = qs' p) → reps s qs → reps s qs'.
Proof. intros He Hs p. rewrite <-He. apply Hs. Qed.

(** A tick, once the queue it serves is known. *)
Definition tick_on (p : Priority) env : Exec storage ContractError Response :=
  message_batch ← queue_do p QueueMap.pop_front;
  match message_batch with
  | Some batch =>
      if batch_expired (batch_expiration_time batch) env then tick_expired env batch
      else if cooling_down env batch then
        _ ← queue_do p (QueueMap.push_back batch);
        mret (add_attribute "action" "pushed_function_back_to_queue"
               (add_attribute "method" "tick" Response_new))
      else tick_execute env batch
  | None => fail NoMessagesToProcess
  end.

Lemma process_tick_on env s qs c :
  reps s qs → s_config s = Some c → proc_state c = Active →
  process_tick env s = tick_on (next_queue qs) env s.
Proof.
  intros Hs Hc Ha. unfold process_tick, tick_on.
  unfold mbind at 1, Exec_bind at 1, item_load. cbn [lget CONFIG]. rewrite Hc.
  unfold mbind at 1, Exec_bind at 1, fail_if. rewrite bool_decide_eq_false_2 by (rewrite Ha; done).
  unfold mbind at 1, Exec_bind at 1. rewrite (queue_do_len High s qs Hs).
  assert ((if (vec_len (qs High) =? 0)%N then Medium else High) = next_queue qs) as ->; [|done].
  unfold next_queue, vec_len. by destruct (qs High).
Qed.

Lemma process_tick_paused env s c :
  s_config s = Some c → proc_state c = Paused → process_tick env s = Err ProcessorPaused.
Proof.
  intros Hc Ha. unfold process_tick, mbind, Exec_bind, item_load. cbn [lget CONFIG]. rewrite Hc.
  unfold fail_if. by rewrite bool_decide_eq_true_2.
Qed.

Lemma tick_outcome_holds env s qs c :
  reps s qs → room s 1 → s_config s = Some c → proc_state c = Active → tick_outcome env s qs.
Proof.
  intros Hs Hr Hc Ha. unfold tick_outcome. rewrite (process_tick_on env s qs c) by done.
  set (p := next_queue qs). unfold tick_on, mbind, Exec_bind.
  destruct (qs p) as [|b rest] eqn:Hqp.
  { by rewrite (queue_do_pop_nil p s qs Hs Hqp). }
  destruct (queue_do_pop p s qs b rest 1 Hs Hr Hqp) as (q' & -> & Hs1 & Hr1).
  exists q'. split; [done|]. case_match; [done|]. case_match; [|done].
  destruct (queue_do_push p b _ _ 0 Hs1 Hr1) as (q'' & Hpush & Hs2 & _).
  exists q''. rewrite Hpush. rewrite lset_lset_queue in *.
  split; [done|]. eapply reps_ext; [|exact Hs2]. intros p'. by rewrite upd_upd, upd_eq.
Qed.

(** The storage after a batch is added at the end of its queue. *)
Lemma enqueue_run env id msgs sub p exp s qs n :
  reps s qs → room s (n + 1) → batch_expired exp env = false →
  let b := mkMessageBatch id msgs sub p exp None in
  ∃ q', let s' := lset EXECUTION_ID_TO_BATCH (<[id := b]> (s_execution_id_to_batch s))
                    (lset (get_queue_map p) q' s) in
    enqueue_messages env id msgs sub p exp s =
      Ok (mkResponse [] [("method", "enqueue_messages")], s') ∧
    reps s' (upd qs p (qs p ++ [b])) ∧ room s' n.
Proof.
  intros Hs Hr Hexp b. unfold enqueue_messages. rewrite Hexp.
  destruct (queue_do_push p b s qs n Hs Hr) as (q' & Hpush & Hs' & Hr').
  exists q'. unfold mbind, Exec_bind. fold b. rewrite Hpush. unfold map_save.
  split_and!.
  - do 3 f_equal. by destruct p.
  - eapply reps_same; [|done]. intros. by autorewrite with proc.
  - eapply room_same; [|done..]. intros. by autorewrite with proc.
Qed.

Lemma insert_run env i id msgs sub p exp s qs n :
  reps s qs → room s (n + 1) → batch_expired exp env = false → (i ≤ vec_len (qs p))%N →
  let b := mkMessageBatch id msgs sub p exp None in
  ∃ q', let s' := lset EXECUTION_ID_TO_BATCH (<[id := b]> (s_execution_id_to_batch s))
                    (lset (get_queue_map p) q' s) in
    insert_messages env i id msgs sub p exp s =
      Ok (mkResponse [] [("method", "insert_messages")], s') ∧
    reps s' (upd qs p (take (N.to_nat i) (qs p) ++ b :: drop (N.to_nat i) (qs p))) ∧ room s' n.
Proof.
  intros Hs Hr Hexp Hi b. unfold insert_messages. rewrite Hexp.
  destruct (queue_do_insert p i b s qs n Hs Hr Hi) as (q' & Hpush & Hs' & Hr').
  exists q'. unfold mbind, Exec_bind. fold b. rewrite Hpush. unfold map_save.
  split_and!.
  - do 3 f_equal. by destruct p.
  - eapply reps_same; [|done]. intros. by autorewrite with proc.
  - eapply room_same; [|done..]. intros. by autorewrite with proc.
Qed.

Context `{!JsonCodecLaws AuthorizationExecuteMsg} `{!JsonCodecLaws ProcessorExecuteMsg}.
Context `{!JsonCodecLaws PolytoneExecuteMsg} `{!JsonCodecLaws ProcPolytoneCallbackMsg}.

(** A batch that arrives after its expiration is reported and never queued. *)
Lemma enqueue_expired env id msgs sub p exp s c :
  s_config s = Some c → batch_expired exp env = true →
  ∃ m, enqueue_messages env id msgs sub p exp s =
         Ok (mkResponse [SubMsg_new m]
               [("method", "enqueue_messages"); ("action", "expired_batch")],
             after_callback c id (Expired 0) s) ∧
       is_callback c (env_contract env) id (Expired 0) m.
Proof.
  intros Hc Hexp. unfold enqueue_messages. rewrite Hexp.
  unfold mbind, Exec_bind, item_load. cbn [lget CONFIG]. rewrite Hc.
  destruct (create_callback_run c id (Expired 0) (env_contract env) s) as (m & -> & Hm).
  eauto.
Qed.

(** The storage after the batch [b] was taken out of its queue for good. *)
Definition evicted (b : MessageBatch) s : storage :=
  lset PENDING_CALLBACK (delete (batch_id b) (s_pending_callback s))
    (lset NON_ATOMIC_BATCH_CURRENT_FUNCTION_INDEX
       (delete (batch_id b) (s_non_atomic_batch_current_function_index s))
       (lset EXECUTION_ID_TO_BATCH (delete (batch_id b) (s_execution_id_to_batch s)) s)).

Lemma evict_run env i p s qs c b n :
  reps s qs → room s n → s_config s = Some c → qs p !! N.to_nat i = Some b →
  ∃ q' m, let s' := after_callback c (batch_id b) RemovedByOwner
                      (evicted b (lset (get_queue_map p) q' s)) in
    evict_messages env i p s =
      Ok (mkResponse [SubMsg_new m]
            [("method", "evict_messages"); ("messages_removed", pretty (vec_len (batch_msgs b)))],
          s') ∧
    is_callback c (env_contract env) (batch_id b) RemovedByOwner m ∧
    reps s' (upd qs p (delete (N.to_nat i) (qs p))) ∧ room s' n.
Proof.
  intros Hs Hr Hc Hb. unfold evict_messages.
  destruct (queue_do_remove p i s qs n b Hs Hr Hb) as (q' & Hrm & Hs' & Hr').
  unfold mbind, Exec_bind. rewrite Hrm. unfold item_load. cbn [lget CONFIG].
  assert (s_config (lset (get_queue_map p) q' s) = Some c) as -> by (by destruct p).
  unfold map_remove. cbn [lget].
  edestruct (create_callback_run c (batch_id b) RemovedByOwner (env_contract env)) as (m & Hm & His).
  rewrite Hm. exists q', m. split_and!.
  - unfold evicted. by destruct p.
  - done.
  - eapply reps_same; [|done]. intros p'. unfold evicted. by autorewrite with proc.
  - eapply room_same; [|done..]. intros p'. unfold evicted. by autorewrite with proc.
Qed.
End Handlers.
