(* ===== verification/ProcessorRuns.v ===== *)
(** * Processor: whole executions

    A tick together with the reply to the message it sends, sequences of such
    ticks, and what they amount to for a batch: a non-atomic batch runs its
    functions in order and reports success once; a failing batch is retried
    exactly as often as its retry logic says. *)
From S2P Require Import Prelude Platform Types Queue Processor ProcessorFacts ProcessorProofs.
From S2P Require Import Codec.
Import Processor.

Section Runs.
Context `{HP : Platform} `{HS : SerdeJson}.
Context `{HA : JsonCodec AuthorizationExecuteMsg} `{HE : JsonCodec ProcessorExecuteMsg}.
Context `{HPo : JsonCodec PolytoneExecuteMsg} `{HC : JsonCodec ProcPolytoneCallbackMsg}.
Implicit Types (s : storage) (qs : Priority → list MessageBatch) (env : Env) (b : MessageBatch).

(** The host executes the message of a tick and, since it was sent with
    [reply_always], calls [reply] with its outcome in the same transaction.
    The result lists the messages the tick sent to libraries and the messages
    that report to the authorization contract. *)
Definition tick_tx env (outcome : SubMsgResult)
    : Exec storage ContractError (list SubMsg * list SubMsg) :=
  r ← process_tick env;
  match resp_messages r with
  | [m] =>
      match sub_reply_on m with
      | ReplyAlways =>
          r' ← reply env (mkReply (sub_id m) outcome);
          mret ([m], resp_messages r')
      | _ => mret ([], [m])
      end
  | ms => mret ([], ms)
  end.
Fixpoint run_ticks (ticks : list (Env * SubMsgResult))
    : Exec storage ContractError (list (list SubMsg * list SubMsg)) :=
  match ticks with
  | [] => mret []
  | (env, outcome) :: ticks =>
      r ← tick_tx env outcome;
      rs ← run_ticks ticks;
      mret (r :: rs)
  end.

(** The batch [b] is the next one to be ticked, alone in its queue, and is about
    to run its function number [k]. *)
Record at_function s qs (c : Config) b (k : N) : Prop := {
  at_reps : reps s qs;
  at_config : s_config s = Some c;
  at_active : proc_state c = Active;
  at_next : next_queue qs = batch_priority b;
  at_queue : qs (batch_priority b) = [b];
  at_index : default 0%N (s_non_atomic_batch_current_function_index s !! batch_id b) = k;
  at_batch : s_execution_id_to_batch s !! batch_id b = Some b;
  at_pending : s_pending_callback s !! batch_id b = None;
}.

(** A non-atomic batch of [n] CosmWasm messages without callback confirmation
    and without expiration; [dispatch k] is the message of function [k]. *)
Record plain_non_atomic b (sub : NonAtomicSubroutine) (n : N) (dispatch : N → WasmMsg) : Prop := {
  pn_subroutine : batch_subroutine b = NonAtomic sub;
  pn_length : vec_len (batch_msgs b) = n;
  pn_usize : (n ≤ usize_max)%N;
  pn_retry : batch_retry b = None;
  pn_expiration : batch_expiration_time b = None;
  pn_functions k : (k < n)%N →
    ∃ f, vec_get (ns_functions sub) k = Some f ∧ callback_confirmation f = None;
  pn_dispatch k : (k < n)%N →
    create_message_by_index b k = Ok [SubMsg_reply_always (dispatch k) (batch_id b)];
}.

(** The storage in which the current function index of [id] is explicit. *)
Definition with_index (id k : N) s : storage :=
  lset NON_ATOMIC_BATCH_CURRENT_FUNCTION_INDEX
    (<[id := k]> (s_non_atomic_batch_current_function_index s)) s.

Lemma tick_execute_plain env s b sub n dispatch k :
  plain_non_atomic b sub n dispatch → (k < n)%N →
  default 0%N (s_non_atomic_batch_current_function_index s !! batch_id b) = k →
  tick_execute env b s =
    Ok (mkResponse [SubMsg_reply_always (dispatch k) (batch_id b)] [("method", "tick")],
        with_index (batch_id b) k s).
Proof.
  intros Hb Hk Hi. destruct (pn_functions _ _ _ _ Hb k Hk) as (f & Hf & Hcb).
  unfold tick_execute. rewrite (pn_subroutine _ _ _ _ Hb).
  unfold mbind, Exec_bind, map_may_load. cbn [lget].
  cbn [NON_ATOMIC_BATCH_CURRENT_FUNCTION_INDEX lget].
  destruct (s_non_atomic_batch_current_function_index s !! batch_id b) as [k'|] eqn:Hidx;
    simpl in Hi; subst; cbn [mret Exec_ret map_save lget lset expect].
  - unfold expect. rewrite Hf, Hcb. unfold of_result.
    rewrite (pn_dispatch _ _ _ _ Hb _ Hk). unfold with_index.
    rewrite insert_id by done. by destruct s.
  - unfold expect. rewrite Hf, Hcb. unfold of_result.
    by rewrite (pn_dispatch _ _ _ _ Hb _ Hk).
Qed.

Lemma set_retry_None b : batch_retry b = None → set_retry None b = b.
Proof. destruct b; simpl. by intros ->. Qed.

Context `{!JsonCodecLaws AuthorizationExecuteMsg} `{!JsonCodecLaws ProcessorExecuteMsg}.
Context `{!JsonCodecLaws PolytoneExecuteMsg} `{!JsonCodecLaws ProcPolytoneCallbackMsg}.

(** A confirmed function that is not the last one. *)
Lemma success_more k id b self s qs m :
  (k + 1 < vec_len (batch_msgs b))%N → (vec_len (batch_msgs b) ≤ usize_max)%N →
  reps s qs → room s (m + 1) →
  ∃ q', let s' := lset (get_queue_map (batch_priority b)) q' (with_index id (k + 1) s) in
    handle_successful_non_atomic_callback k id b [] self s = Ok ([], s') ∧
    reps s' (upd qs (batch_priority b) (qs (batch_priority b) ++ [set_retry None b])) ∧ room s' m.
Proof.
  intros Hk Hu Hs Hroom.
  unfold handle_successful_non_atomic_callback, mbind, Exec_bind, expect.
  rewrite checked_add_fits by lia. rewrite (proj2 (N.leb_gt _ _)) by lia.
  unfold map_save. cbn [batch_priority set_retry].
  change (lget NON_ATOMIC_BATCH_CURRENT_FUNCTION_INDEX s)
    with (s_non_atomic_batch_current_function_index s).
  destruct (queue_do_push (batch_priority b) (set_retry None b) (with_index id (k + 1) s) qs m)
    as (q' & Hq & Hs' & Hr').
  { eapply reps_same; [|done]. intros. unfold with_index. by autorewrite with proc. }
  { eapply room_same; [|done..]. intros. unfold with_index. by autorewrite with proc. }
  exists q'. unfold with_index in Hq at 1. rewrite Hq. by split_and!.
Qed.

(** The reply after a successful function that is not the last one. *)
Lemma reply_ok_more env s c b k qs m :
  s_config s = Some c → s_execution_id_to_batch s !! batch_id b = Some b →
  s_non_atomic_batch_current_function_index s !! batch_id b = Some k →
  s_pending_callback s !! batch_id b = None →
  (k + 1 < vec_len (batch_msgs b))%N → (vec_len (batch_msgs b) ≤ usize_max)%N →
  reps s qs → room s (m + 1) →
  ∃ q', let s' := lset (get_queue_map (batch_priority b)) q' (with_index (batch_id b) (k + 1) s) in
    reply env (mkReply (batch_id b) SubMsgOk) s =
      Ok (mkResponse [] [("method", "reply")], s') ∧
    reps s' (upd qs (batch_priority b) (qs (batch_priority b) ++ [set_retry None b])) ∧ room s' m.
Proof.
  intros Hc Hb Hi Hp Hk Hu Hs Hroom. unfold reply.
  unfold mbind, Exec_bind, item_load, map_load, map_may_load, map_has. cbn [lget CONFIG
    EXECUTION_ID_TO_BATCH NON_ATOMIC_BATCH_CURRENT_FUNCTION_INDEX PENDING_CALLBACK reply_id reply_result].
  rewrite Hc, Hb, Hi, Hp. cbn [negb].
  destruct (success_more k (batch_id b) b (env_contract env) s qs m) as (q' & -> & Hs' & Hr');
    [done..|]. exists q'. by split_and!.
Qed.

(** The storage after the batch finished. *)
Definition finished (id : N) s : storage :=
  lset EXECUTION_ID_TO_BATCH (delete id (s_execution_id_to_batch s))
    (lset NON_ATOMIC_BATCH_CURRENT_FUNCTION_INDEX
       (delete id (s_non_atomic_batch_current_function_index s)) s).

(** The reply after the last function. *)
Lemma reply_ok_last env s c b k :
  s_config s = Some c → s_execution_id_to_batch s !! batch_id b = Some b →
  s_non_atomic_batch_current_function_index s !! batch_id b = Some k →
  s_pending_callback s !! batch_id b = None →
  (vec_len (batch_msgs b) ≤ k + 1)%N → (k + 1 ≤ usize_max)%N →
  ∃ m, reply env (mkReply (batch_id b) SubMsgOk) s =
         Ok (mkResponse [SubMsg_new m] [("method", "reply")],
             finished (batch_id b) (after_callback c (batch_id b) Success s)) ∧
       is_callback c (env_contract env) (batch_id b) Success m.
Proof.
  intros Hc Hb Hi Hp Hk Hu. unfold reply.
  unfold mbind, Exec_bind, item_load, map_load, map_may_load, map_has. cbn [lget CONFIG
    EXECUTION_ID_TO_BATCH NON_ATOMIC_BATCH_CURRENT_FUNCTION_INDEX PENDING_CALLBACK reply_id reply_result].
  rewrite Hc, Hb, Hi, Hp. simpl.
  unfold handle_successful_non_atomic_callback, mbind, Exec_bind, expect.
  rewrite checked_add_fits by done. rewrite (proj2 (N.leb_le _ _)) by done.
  unfold item_load. cbn [lget CONFIG]. rewrite Hc.
  destruct (create_callback_run c (batch_id b) Success (env_contract env) s) as (m & -> & Hm).
  exists m. split; [|done]. unfold finished, map_remove. cbn. by unfold after_callback; case_match.
Qed.

(** Taking [b] from the front of its queue and sending function [k]. *)
Lemma tick_dispatch env s qs c b sub n dispatch k m :
  at_function s qs c b k → plain_non_atomic b sub n dispatch → (k < n)%N → room s m →
  ∃ q', let s1 := with_index (batch_id b) k (lset (get_queue_map (batch_priority b)) q' s) in
    process_tick env s =
      Ok (mkResponse [SubMsg_reply_always (dispatch k) (batch_id b)] [("method", "tick")], s1) ∧
    reps s1 (upd qs (batch_priority b) []) ∧ room s1 m.
Proof.
  intros [Hs Hc Ha Hn Hq Hi Hb Hp] Hpl Hk Hroom.
  rewrite (process_tick_on env s qs c) by done. rewrite Hn. unfold tick_on, mbind, Exec_bind.
  destruct (queue_do_pop _ s qs b [] m Hs Hroom Hq) as (q' & -> & Hs1 & Hr1).
  exists q'. unfold batch_expired. rewrite (pn_expiration _ _ _ _ Hpl).
  unfold cooling_down. rewrite (pn_retry _ _ _ _ Hpl).
  erewrite tick_execute_plain; [|done|exact Hk|by destruct (batch_priority b)].
  split_and!; [done| |].
  - eapply reps_same; [|done]. intros. unfold with_index. by autorewrite with proc.
  - eapply room_same; [|done..]. intros. unfold with_index. by autorewrite with proc.
Qed.

Lemma tick_tx_more env s qs c b sub n dispatch k m :
  at_function s qs c b k → plain_non_atomic b sub n dispatch → (k + 1 < n)%N → room s (m + 1) →
  ∃ s' qs', tick_tx env SubMsgOk s =
              Ok (([SubMsg_reply_always (dispatch k) (batch_id b)], []), s') ∧
            at_function s' qs' c b (k + 1) ∧ room s' m.
Proof.
  intros Hat Hpl Hk Hroom.
  destruct (tick_dispatch env s qs c b sub n dispatch k (m + 1) Hat Hpl ltac:(lia) Hroom)
    as (q' & Htick & Hs1 & Hr1).
  destruct Hat as [Hs Hc Ha Hn Hq Hi Hb Hp].
  unfold tick_tx, mbind, Exec_bind. rewrite Htick. cbn [resp_messages SubMsg_reply_always sub_reply_on sub_id].
  destruct (reply_ok_more env (with_index (batch_id b) k
    (lset (get_queue_map (batch_priority b)) q' s)) c b k (upd qs (batch_priority b) []) m)
    as (q'' & Hreply & Hs2 & Hr2); try done.
  1-2, 4: by destruct (batch_priority b).
  { unfold with_index. cbn. apply lookup_insert_eq. }
  { rewrite (pn_length _ _ _ _ Hpl). done. }
  { rewrite (pn_length _ _ _ _ Hpl). apply (pn_usize _ _ _ _ Hpl). }
  rewrite (set_retry_None b) in Hs2 by apply (pn_retry _ _ _ _ Hpl).
  rewrite Hreply. do 2 eexists. split; [done|]. split; [|done].
  split; try done.
  - by destruct (batch_priority b).
  - unfold next_queue in *. destruct (batch_priority b); [|by rewrite !upd_eq].
    rewrite upd_ne by done. rewrite upd_ne by done. destruct (qs High); done.
  - by rewrite !upd_eq.
  - destruct (batch_priority b); cbn; by rewrite lookup_insert_eq.
  - by destruct (batch_priority b).
  - by destruct (batch_priority b).
Qed.

Lemma tick_tx_last env s qs c b sub n dispatch k :
  at_function s qs c b k → plain_non_atomic b sub n dispatch → (k + 1 = n)%N → room s 0 →
  ∃ s' msg, tick_tx env SubMsgOk s =
      Ok (([SubMsg_reply_always (dispatch k) (batch_id b)], [SubMsg_new msg]), s') ∧
    is_callback c (env_contract env) (batch_id b) Success msg ∧
    reps s' (upd qs (batch_priority b) []) ∧
    s_execution_id_to_batch s' !! batch_id b = None ∧
    s_non_atomic_batch_current_function_index s' !! batch_id b = None.
Proof.
  intros Hat Hpl Hk Hroom.
  destruct (tick_dispatch env s qs c b sub n dispatch k 0 Hat Hpl ltac:(lia) Hroom)
    as (q' & Htick & Hs1 & Hr1).
  destruct Hat as [Hs Hc Ha Hn Hq Hi Hb Hp].
  unfold tick_tx, mbind, Exec_bind. rewrite Htick. cbn [resp_messages SubMsg_reply_always sub_reply_on sub_id].
  pose proof (pn_length _ _ _ _ Hpl). pose proof (pn_usize _ _ _ _ Hpl).
  destruct (reply_ok_last env (with_index (batch_id b) k
    (lset (get_queue_map (batch_priority b)) q' s)) c b k) as (msg & Hreply & Hcb); try lia.
  1-2, 4: by destruct (batch_priority b).
  { unfold with_index. cbn. apply lookup_insert_eq. }
  rewrite Hreply. do 2 eexists. split_and!; [done|done| | |].
  - eapply reps_same; [|exact Hs1]. intros. unfold finished. by autorewrite with proc.
  - apply lookup_delete_eq.
  - apply lookup_delete_eq.
Qed.

(** The state in which the execution of [b] has left no trace. *)
Definition batch_gone s b : Prop :=
  s_execution_id_to_batch s !! batch_id b = None ∧
  s_non_atomic_batch_current_function_index s !! batch_id b = None ∧
  ∃ qs, reps s qs ∧ qs (batch_priority b) = [].

Lemma run_from_function envs s qs c b sub n dispatch k :
  plain_non_atomic b sub n dispatch → at_function s qs c b k → room s (n - k) →
  (k < n)%N → N.of_nat (length envs) = (n - k)%N →
  ∃ rs s' msg env_last,
    run_ticks ((λ e, (e, SubMsgOk)) <$> envs) s = Ok (rs, s') ∧
    rs.*1 = (λ j, [SubMsg_reply_always (dispatch j) (batch_id b)]) <$> N_range k n ∧
    concat (rs.*2) = [SubMsg_new msg] ∧
    last envs = Some env_last ∧
    is_callback c (env_contract env_last) (batch_id b) Success msg ∧
    batch_gone s' b.
Proof.
  intros Hpl. revert s qs k. induction envs as [|e envs IH]; intros s qs k Hat Hroom Hk Hlen.
  { simpl in Hlen. lia. }
  simpl in Hlen. rewrite (N_range_cons k n) by done. rewrite !fmap_cons. cbn [run_ticks].
  destruct (decide (k + 1 = n)%N) as [Hlast|Hmore].
  - destruct envs; [|simpl in Hlen; lia].
    destruct (tick_tx_last e s qs c b sub n dispatch k Hat Hpl Hlast) as (s' & msg & Ht & Hcb & Hs' & ? & ?).
    { eapply room_same; [done| |done]. lia. }
    exists [([SubMsg_reply_always (dispatch k) (batch_id b)], [SubMsg_new msg])], s', msg, e.
    unfold mbind, Exec_bind. rewrite Ht. split_and!; try done.
    + simpl. by rewrite N_range_nil by lia.
    + split_and!; [done|done|]. eexists; split; [done|]. apply upd_eq.
  - destruct (tick_tx_more e s qs c b sub n dispatch k (n - (k + 1)) Hat Hpl)
      as (s1 & qs1 & Ht & Hat1 & Hr1); [lia| |].
    { eapply room_same; [done| |done]. lia. }
    destruct (IH s1 qs1 (k + 1)%N Hat1 Hr1) as (rs & s' & msg & el & Hrun & Hfst & Hsnd & Hl & Hcb & Hg);
      [lia..|].
    exists (([SubMsg_reply_always (dispatch k) (batch_id b)], []) :: rs), s', msg, el.
    unfold mbind, Exec_bind. rewrite Ht, Hrun. split_and!; try done.
    + rewrite fmap_cons. by f_equal.
    + by destruct envs.
Qed.
End Runs.

(** A non-atomic batch of [n] functions that is next in line completes after
    exactly [n] successful ticks: tick [k] sends function [k] to its library,
    the first [n - 1] ticks report nothing, and the last one sends a single
    [Success] callback and removes every trace of the batch (its queue entry,
    its stored copy and its function index). *)
Theorem non_atomic_batch_completes
    `{Platform} `{SerdeJson} `{JsonCodec AuthorizationExecuteMsg} `{JsonCodec ProcessorExecuteMsg}
    `{JsonCodec PolytoneExecuteMsg} `{JsonCodec ProcPolytoneCallbackMsg}
    `{!JsonCodecLaws AuthorizationExecuteMsg} `{!JsonCodecLaws ProcessorExecuteMsg}
    `{!JsonCodecLaws PolytoneExecuteMsg} `{!JsonCodecLaws ProcPolytoneCallbackMsg}
    (envs : list Env) (s : storage) (qs : Priority → list MessageBatch) (c : Config)
    (b : MessageBatch) (sub : NonAtomicSubroutine) (n : N) (dispatch : N → WasmMsg) :
  plain_non_atomic b sub n dispatch → (0 < n)%N →
  at_function s qs c b 0 → room s n → vec_len envs = n →
  ∃ rs s' msg env_last,
    run_ticks ((λ e, (e, SubMsgOk)) <$> envs) s = Ok (rs, s') ∧
    rs.*1 = (λ k, [SubMsg_reply_always (dispatch k) (batch_id b)]) <$> N_range 0 n ∧
    concat (rs.*2) = [SubMsg_new msg] ∧
    last envs = Some env_last ∧
    is_callback c (env_contract env_last) (batch_id b) Success msg ∧
    batch_gone s' b.
Proof.
  intros Hpl Hn Hat Hroom Hlen. eapply run_from_function; try done.
  - by rewrite N.sub_0_r.
  - unfold vec_len in Hlen. lia.
Qed.
