(* ===== verification/ProcessorRetries.v ===== *)
(** * Processor: retries

    How often a failing batch is executed, and which result it reports. *)
From S2P Require Import Prelude Platform Types Queue Processor ProcessorFacts ProcessorProofs.
From S2P Require Import ProcessorRuns Codec.
Import Processor.

(** The retry counter of a batch: attempts that failed so far. *)
Definition attempts (b : MessageBatch) : N :=
  match batch_retry b with Some r => retry_amounts r | None => 0%N end.

(** One more attempt is allowed after [i] retries. *)
Definition may_retry (t : RetryTimes) (i : N) : Prop :=
  match t with Indefinitely => True | Amount m => (i < m)%N end.

Section Retries.
Context `{HP : Platform} `{HS : SerdeJson}.
Context `{HA : JsonCodec AuthorizationExecuteMsg} `{HE : JsonCodec ProcessorExecuteMsg}.
Context `{HPo : JsonCodec PolytoneExecuteMsg} `{HC : JsonCodec ProcPolytoneCallbackMsg}.
Implicit Types (s : storage) (qs : Priority → list MessageBatch) (env : Env) (b : MessageBatch).

(** The atomic batch [b] is alone in its queue, next to be ticked, and its
    stored copy agrees with the queued one. *)
Record at_attempt s qs (c : Config) b : Prop := {
  aa_reps : reps s qs;
  aa_config : s_config s = Some c;
  aa_active : proc_state c = Active;
  aa_next : next_queue qs = batch_priority b;
  aa_queue : qs (batch_priority b) = [b];
  aa_batch : s_execution_id_to_batch s !! batch_id b = Some b;
  aa_index : s_non_atomic_batch_current_function_index s !! batch_id b = None;
}.

(** The self-call that executes a batch atomically. *)
Definition atomic_call env b (d : list SubMsg) : Prop :=
  ∃ body, to_json_binary (InternalProcessorAction (ExecuteAtomic b)) = Ok body ∧
          d = [SubMsg_reply_always (WasmExecute (env_contract env) body []) (batch_id b)].

Context `{!JsonCodecLaws AuthorizationExecuteMsg} `{!JsonCodecLaws ProcessorExecuteMsg}.
Context `{!JsonCodecLaws PolytoneExecuteMsg} `{!JsonCodecLaws ProcPolytoneCallbackMsg}.

Lemma tick_atomic env s qs c b sub m :
  at_attempt s qs c b → batch_subroutine b = Atomic sub → batch_expiration_time b = None →
  cooling_down env b = false → room s m →
  ∃ d q', let s1 := lset (get_queue_map (batch_priority b)) q' s in
    process_tick env s = Ok (mkResponse d [("method", "tick")], s1) ∧ atomic_call env b d ∧
    reps s1 (upd qs (batch_priority b) []) ∧ room s1 m.
Proof.
  intros [Hs Hc Ha Hn Hq Hb Hi] Hsub Hexp Hcool Hroom.
  rewrite (process_tick_on env s qs c) by done. rewrite Hn. unfold tick_on, mbind, Exec_bind.
  destruct (queue_do_pop _ s qs b [] m Hs Hroom Hq) as (q' & -> & Hs1 & Hr1).
  unfold batch_expired. rewrite Hexp, Hcool. unfold tick_execute. rewrite Hsub.
  destruct (to_json_total (InternalProcessorAction (ExecuteAtomic b))) as [body Hbody].
  unfold mbind, Exec_bind, of_result. rewrite Hbody.
  eexists _, q'. split_and!; [done| |done|done]. by exists body.
Qed.

Lemma queue_at_id_batches p m s :
  s_config (lset (get_queue_map p) m s) = s_config s ∧
  s_execution_id_to_batch (lset (get_queue_map p) m s) = s_execution_id_to_batch s ∧
  s_non_atomic_batch_current_function_index (lset (get_queue_map p) m s) =
    s_non_atomic_batch_current_function_index s.
Proof. by destruct p. Qed.

(** [b] after one more failed attempt. *)
Definition retried b (cooldown : Expiration) : MessageBatch :=
  set_retry (Some (mkCurrentRetry (attempts b + 1) cooldown)) b.

(** The retry logic a failure consults. *)
Definition retry_logic_at b (index : option N) : option RetryLogic :=
  match batch_subroutine b with
  | Atomic sub => as_retry_logic sub
  | NonAtomic sub => f ← vec_get (ns_functions sub) (default 0%N index); nf_retry_logic f
  end.

(** A failure that may be retried puts the batch back with its counter raised. *)
Lemma failure_requeues env s qs c b rl error x m index self :
  reps s qs → room s (m + 1) → retry_logic_at b index = Some rl → may_retry (times rl) (attempts b) →
  duration_after (interval rl) (env_block env) = Some x → (attempts b < u64_max)%N →
  ∃ q, let s' := lset EXECUTION_ID_TO_BATCH
                   (<[batch_id b := retried b x]> (s_execution_id_to_batch s))
                   (lset (get_queue_map (batch_priority b)) q s) in
    handle_unsuccessful_callback (batch_id b) b [] error c (env_block env) index self s =
      Ok ([], s') ∧
    reps s' (upd qs (batch_priority b) (qs (batch_priority b) ++ [retried b x])) ∧ room s' m.
Proof.
  intros Hs Hr Hrl Hmay Hx Hmax.
  destruct (queue_do_push (batch_priority b) (retried b x) s qs m Hs Hr) as (q & Hpush & Hs' & Hr').
  exists q. split_and!; cycle 1.
  { eapply reps_same; [|exact Hs']. intros. by autorewrite with proc. }
  { eapply room_same; [|reflexivity|exact Hr']. intros. by autorewrite with proc. }
  assert (put_back_into_queue b (attempts b) rl (env_block env) s =
    Ok ((), lset EXECUTION_ID_TO_BATCH (<[batch_id b := retried b x]> (s_execution_id_to_batch s))
              (lset (get_queue_map (batch_priority b)) q s))) as Hput.
  { unfold put_back_into_queue, mbind, Exec_bind, expect. rewrite checked_add_fits by lia.
    rewrite Hx. fold (retried b x). cbn [batch_priority retried set_retry]. rewrite Hpush.
    unfold map_save. cbn [lget EXECUTION_ID_TO_BATCH]. do 4 f_equal.
    by destruct (batch_priority b). }
  unfold handle_unsuccessful_callback. fold (retry_logic_at b index). rewrite Hrl.
  fold (attempts b). unfold may_retry in Hmay. unfold mbind, Exec_bind. destruct (times rl) as [|mx].
  - by rewrite Hput.
  - rewrite (proj2 (N.leb_gt _ _)) by done. by rewrite Hput.
Qed.

(** A failed attempt that may be retried puts the batch back. *)
Lemma attempt_fails_retry env s qs c b sub rl error x m :
  at_attempt s qs c b → batch_subroutine b = Atomic sub → batch_expiration_time b = None →
  as_retry_logic sub = Some rl → may_retry (times rl) (attempts b) →
  duration_after (interval rl) (env_block env) = Some x → (attempts b < u64_max)%N →
  cooling_down env b = false → room s (m + 1) →
  ∃ d s' qs', tick_tx env (SubMsgErr error) s = Ok ((d, []), s') ∧ atomic_call env b d ∧
    at_attempt s' qs' c (retried b x) ∧ room s' m.
Proof.
  intros Hat Hsub Hexp Hrl Hmay Hx Hmax Hcool Hroom.
  destruct (tick_atomic env s qs c b sub (m + 1) Hat Hsub Hexp Hcool Hroom)
    as (d & q' & Ht & Hd & Hs1 & Hr1).
  destruct Hat as [Hs Hc Ha Hn Hq Hb Hi]. pose proof Hd as (body & _ & ->).
  unfold tick_tx, mbind, Exec_bind. rewrite Ht. cbn [resp_messages SubMsg_reply_always sub_reply_on sub_id].
  set (s1 := lset _ q' s) in *.
  destruct (queue_at_id_batches (batch_priority b) q' s) as (Hc1 & Hb1 & Hi1). fold s1 in Hc1, Hb1, Hi1.
  destruct (failure_requeues env s1 _ c b rl error x m None (env_contract env) Hs1 Hr1)
    as (q'' & Hh & Hs2 & Hr2); [unfold retry_logic_at; by rewrite Hsub|done..|].
  unfold reply, mbind, Exec_bind, item_load, map_load, map_may_load.
  cbn [lget CONFIG EXECUTION_ID_TO_BATCH NON_ATOMIC_BATCH_CURRENT_FUNCTION_INDEX reply_id reply_result].
  rewrite Hc1, Hc, Hb1, Hb, Hi1, Hi.
  rewrite Hh. eexists _, _, _. split; [done|]. split; [done|]. split; [|].
  - split; cbn [batch_priority batch_id retried set_retry].
    + eapply reps_same; [|exact Hs2]. intros. by autorewrite with proc.
    + by destruct (batch_priority b).
    + done.
    + unfold next_queue in *. destruct (batch_priority b); [|by rewrite !upd_eq].
      rewrite !upd_ne by done. destruct (qs High); done.
    + by rewrite !upd_eq.
    + cbn. apply lookup_insert_eq.
    + by destruct (batch_priority b).
  - eapply room_same; [|done|exact Hr2]. intros. by autorewrite with proc.
Qed.

(** A failed attempt with no retry left is reported and the batch is dropped. *)
Lemma attempt_fails_final env s qs c b sub d0 error n :
  at_attempt s qs c b → batch_subroutine b = Atomic sub → batch_expiration_time b = None →
  as_retry_logic sub = Some (mkRetryLogic (Amount n) d0) → (n ≤ attempts b)%N →
  cooling_down env b = false → room s 0 →
  ∃ d s' msg, tick_tx env (SubMsgErr error) s = Ok ((d, [SubMsg_new msg]), s') ∧
    atomic_call env b d ∧ is_callback c (env_contract env) (batch_id b) (Rejected error) msg ∧
    batch_gone s' b.
Proof.
  intros Hat Hsub Hexp Hrl Hmax Hcool Hroom.
  destruct (tick_atomic env s qs c b sub 0 Hat Hsub Hexp Hcool Hroom)
    as (d & q' & Ht & Hd & Hs1 & Hr1).
  destruct Hat as [Hs Hc Ha Hn Hq Hb Hi]. pose proof Hd as (body & _ & ->).
  unfold tick_tx, mbind, Exec_bind. rewrite Ht. cbn [resp_messages SubMsg_reply_always sub_reply_on sub_id].
  set (s1 := lset _ q' s) in *.
  destruct (queue_at_id_batches (batch_priority b) q' s) as (Hc1 & Hb1 & Hi1). fold s1 in Hc1, Hb1, Hi1.
  unfold reply, mbind, Exec_bind, item_load, map_load, map_may_load.
  cbn [lget CONFIG EXECUTION_ID_TO_BATCH NON_ATOMIC_BATCH_CURRENT_FUNCTION_INDEX reply_id reply_result].
  rewrite Hc1, Hc, Hb1, Hb, Hi1, Hi.
  unfold handle_unsuccessful_callback. rewrite Hsub, Hrl. fold (attempts b).
  cbn [times]. rewrite (proj2 (N.leb_le _ _)) by done.
  destruct (create_callback_run c (batch_id b) (Rejected error) (env_contract env) s1)
    as (msg & Hm & Hcb).
  unfold mbind, Exec_bind. simpl. rewrite Hm. eexists _, _, msg. split; [done|].
  split_and!; [done|done|]. unfold batch_gone. split_and!.
  - apply lookup_delete_eq.
  - apply lookup_delete_eq.
  - eexists. split; [|apply upd_eq]. eapply reps_same; [|exact Hs1].
    intros p. rewrite <-(queue_at_after_callback p c (batch_id b) (Rejected error) s1).
    by destruct p.
Qed.

(** Consecutive blocks are far enough apart for the retry interval. *)
Fixpoint spaced (d : Duration) (envs : list Env) : Prop :=
  match envs with
  | [] => True
  | e1 :: rest =>
      match rest with
      | [] => True
      | e2 :: _ =>
          (∃ x, duration_after d (env_block e1) = Some x ∧ is_expired x (env_block e2) = true) ∧
          spaced d rest
      end
  end.

Lemma cooling_down_retried env b x : cooling_down env (retried b x) = negb (is_expired x (env_block env)).
Proof. done. Qed.

(** The failing attempts from the current one to the last. *)
Lemma failing_run (fs : list (Env * string)) s qs c b sub d n :
  at_attempt s qs c b → batch_subroutine b = Atomic sub → batch_expiration_time b = None →
  as_retry_logic sub = Some (mkRetryLogic (Amount n) d) → (n ≤ u64_max)%N →
  (attempts b + vec_len fs = n + 1)%N → (attempts b ≤ n)%N →
  spaced d (fs.*1) → (∀ e, head (fs.*1) = Some e → cooling_down e b = false) →
  room s (vec_len fs) →
  ∃ rs s' msg env_last error,
    run_ticks ((λ f : Env * string, (f.1, SubMsgErr f.2)) <$> fs) s = Ok (rs, s') ∧
    Forall2 (λ f r, ∃ b', batch_id b' = batch_id b ∧ atomic_call f.1 b' r.1) fs rs ∧
    concat (rs.*2) = [SubMsg_new msg] ∧ last fs = Some (env_last, error) ∧
    is_callback c (env_contract env_last) (batch_id b) (Rejected error) msg ∧
    batch_gone s' b.
Proof.
  revert s qs b. induction fs as [|[e error] fs IH];
    intros s qs b Hat Hsub Hexp Hrl Hn Hlen Hle Hsp Hcool Hroom.
  { unfold vec_len in Hlen. simpl in Hlen. lia. }
  specialize (Hcool e eq_refl). unfold vec_len in *. cbn [length] in Hlen.
  rewrite !fmap_cons. cbn [run_ticks]. destruct fs as [|[e2 error2] fs].
  - edestruct (attempt_fails_final e s qs c b sub d error n) as (d' & s' & msg & Ht & Hd & Hcb & Hg);
      try done; [simpl in Hlen; lia| |].
    { eapply room_same; [done| |done]. simpl. lia. }
    exists [(d', [SubMsg_new msg])], s', msg, e, error.
    unfold mbind, Exec_bind. cbn [fst snd]. rewrite Ht. split_and!; try done.
    constructor; [by exists b|constructor].
  - destruct Hsp as [(x & Hx & Hexpx) Hsp].
    edestruct (attempt_fails_retry e s qs c b sub (mkRetryLogic (Amount n) d) error x
      (vec_len ((e2, error2) :: fs))) as (d' & s1 & qs1 & Ht & Hd & Hat1 & Hr1); try done.
    { cbn [length] in Hlen. unfold may_retry. simpl. lia. }
    { cbn [length] in Hlen. lia. }
    { eapply room_same; [done| |done]. unfold vec_len. simpl. lia. }
    destruct (IH s1 qs1 (retried b x) Hat1) as (rs & s' & msg & el & er & Hrun & HF & Hsnd & Hl & Hcb & Hg);
      try done.
    { cbn [length] in Hlen |- *. change (attempts (retried b x)) with (attempts b + 1)%N. lia. }
    { cbn [length] in Hlen |- *. change (attempts (retried b x)) with (attempts b + 1)%N. lia. }
    { intros e' [= <-]. rewrite cooling_down_retried. simpl in Hexpx |- *. by rewrite Hexpx. }
    exists ((d', []) :: rs), s', msg, el, er. unfold mbind, Exec_bind. cbn [fst snd].
    rewrite Ht, Hrun. split_and!; try done. constructor; [by exists b|done].
Qed.
End Retries.

(** C15 Retries are bounded and exact: an atomic batch without expiration whose retry logic
    allows [n] retries, and whose every execution fails (each tick coming after the
    retry interval), is executed exactly [n + 1] times; nothing is reported
    before the last attempt, which sends a single [Rejected] callback carrying
    the last error and removes the batch. *)
Theorem atomic_retries_bounded
    `{Platform} `{SerdeJson} `{JsonCodec AuthorizationExecuteMsg} `{JsonCodec ProcessorExecuteMsg}
    `{JsonCodec PolytoneExecuteMsg} `{JsonCodec ProcPolytoneCallbackMsg}
    `{!JsonCodecLaws AuthorizationExecuteMsg} `{!JsonCodecLaws ProcessorExecuteMsg}
    `{!JsonCodecLaws PolytoneExecuteMsg} `{!JsonCodecLaws ProcPolytoneCallbackMsg}
    (fs : list (Env * string)) (s : storage) (qs : Priority → list MessageBatch) (c : Config)
    (b : MessageBatch) (sub : AtomicSubroutine) (d : Duration) (n : N) :
  at_attempt s qs c b → batch_subroutine b = Atomic sub →
  batch_expiration_time b = None → batch_retry b = None →
  as_retry_logic sub = Some (mkRetryLogic (Amount n) d) → (n ≤ u64_max)%N →
  vec_len fs = (n + 1)%N → spaced d (fs.*1) → room s (n + 1) →
  ∃ rs s' msg env_last error,
    run_ticks ((λ f : Env * string, (f.1, SubMsgErr f.2)) <$> fs) s = Ok (rs, s') ∧
    Forall2 (λ f r, ∃ b', batch_id b' = batch_id b ∧ atomic_call f.1 b' r.1) fs rs ∧
    concat (rs.*2) = [SubMsg_new msg] ∧ last fs = Some (env_last, error) ∧
    is_callback c (env_contract env_last) (batch_id b) (Rejected error) msg ∧
    batch_gone s' b.
Proof.
  intros Hat Hsub Hexp Hret Hrl Hn Hlen Hsp Hroom.
  assert (attempts b = 0%N) as Ha by (unfold attempts; by rewrite Hret).
  eapply failing_run; try done.
  - rewrite Ha. lia.
  - rewrite Ha. lia.
  - intros e _. unfold cooling_down. by rewrite Hret.
  - by rewrite Hlen.
Qed.

(** ** Reports of failing functions *)

(** What a failing function reports, when it is not retried: by its retry
    logic, the retries counted so far and its position. *)
Definition failure_report (rl : option RetryLogic) (amounts k : N) (error : string)
    : option ExecutionResult :=
  match rl with
  | None => Some (Rejected error)
  | Some rl =>
      match times rl with
      | Indefinitely => None
      | Amount m =>
          if (m <=? amounts)%N
          then Some (if (k =? 0)%N then Rejected error else PartiallyExecuted k error)
          else None
      end
  end.

Section Reports.
Context `{HP : Platform} `{HS : SerdeJson}.
Context `{HA : JsonCodec AuthorizationExecuteMsg} `{HE : JsonCodec ProcessorExecuteMsg}.
Context `{HPo : JsonCodec PolytoneExecuteMsg} `{HC : JsonCodec ProcPolytoneCallbackMsg}.
Context `{!JsonCodecLaws AuthorizationExecuteMsg} `{!JsonCodecLaws ProcessorExecuteMsg}.
Context `{!JsonCodecLaws PolytoneExecuteMsg} `{!JsonCodecLaws ProcPolytoneCallbackMsg}.
Implicit Types (s : storage) (env : Env) (b : MessageBatch).

(** The batch [b] waits for the outcome of its function number [k]. *)
Record running s (c : Config) b (sub : NonAtomicSubroutine) (k : N) (f : NonAtomicFunction)
    : Prop := {
  rn_config : s_config s = Some c;
  rn_batch : s_execution_id_to_batch s !! batch_id b = Some b;
  rn_index : s_non_atomic_batch_current_function_index s !! batch_id b = Some k;
  rn_subroutine : batch_subroutine b = NonAtomic sub;
  rn_function : vec_get (ns_functions sub) k = Some f;
}.

Lemma reply_err_report env s c b sub k f error res :
  running s c b sub k f →
  failure_report (nf_retry_logic f) (attempts b) k error = Some res →
  ∃ msg, reply env (mkReply (batch_id b) (SubMsgErr error)) s =
           Ok (mkResponse [SubMsg_new msg] [("method", "reply")],
               finished (batch_id b) (after_callback c (batch_id b) res s)) ∧
         is_callback c (env_contract env) (batch_id b) res msg.
Proof.
  intros [Hc Hb Hi Hsub Hf] Hres.
  unfold reply, mbind, Exec_bind, item_load, map_load, map_may_load.
  cbn [lget CONFIG EXECUTION_ID_TO_BATCH NON_ATOMIC_BATCH_CURRENT_FUNCTION_INDEX reply_id reply_result].
  rewrite Hc, Hb, Hi. unfold handle_unsuccessful_callback. rewrite Hsub.
  change (default 0%N (Some k)) with k. unfold mbind at 1, option_bind. rewrite Hf.
  fold (attempts b).
  destruct (create_callback_run c (batch_id b) res (env_contract env) s) as (msg & Hm & Hcb).
  exists msg. split; [|done]. unfold finished. unfold failure_report in Hres.
  unfold mbind, Exec_bind.
  destruct (nf_retry_logic f) as [[[|mx] d]|]; cbn [times] in *; [done| |].
  - destruct (mx <=? attempts b)%N; [|done]. injection Hres as <-. by rewrite Hm.
  - injection Hres as <-. by rewrite Hm.
Qed.
End Reports.

Section SharedCounter.
Context `{HP : Platform} `{HS : SerdeJson}.
Context `{HA : JsonCodec AuthorizationExecuteMsg} `{HE : JsonCodec ProcessorExecuteMsg}.
Context `{HPo : JsonCodec PolytoneExecuteMsg} `{HC : JsonCodec ProcPolytoneCallbackMsg}.
Context `{!JsonCodecLaws AuthorizationExecuteMsg} `{!JsonCodecLaws ProcessorExecuteMsg}.
Context `{!JsonCodecLaws PolytoneExecuteMsg} `{!JsonCodecLaws ProcPolytoneCallbackMsg}.

Lemma running_rest s s' c b sub k f :
  rest_of s' = rest_of s → running s c b sub k f → running s' c b sub k f.
Proof. unfold rest_of. intros [= ? ? Hb Hi ? ?] [Hc Hb' Hi' ? ?]. split; congruence. Qed.

Lemma success_keeps_counter env s c b sub k f f' qs m :
  running s c b sub k f → s_pending_callback s !! batch_id b = None →
  (k + 1 < vec_len (batch_msgs b))%N → (vec_len (batch_msgs b) ≤ usize_max)%N →
  reps s qs → room s (m + 1) → vec_get (ns_functions sub) (k + 1) = Some f' →
  ∃ s1, reply env (mkReply (batch_id b) SubMsgOk) s =
          Ok (mkResponse [] [("method", "reply")], s1) ∧
        reps s1 (upd qs (batch_priority b) (qs (batch_priority b) ++ [set_retry None b])) ∧
        running s1 c b sub (k + 1) f'.
Proof.
  intros [Hc Hb Hi Hsub Hf] Hp Hk Hu Hs Hr Hf'.
  destruct (reply_ok_more env s c b k qs m) as (q' & Hreply & Hs' & _); [done..|].
  eexists. split_and!; [done|done|].
  split; [by destruct (batch_priority b)|by destruct (batch_priority b)| |done|done].
  destruct (batch_priority b); cbn; apply lookup_insert_eq.
Qed.

(** A library callback that confirms a function which is not the last one. *)
Lemma callback_ok_more env info s id addr msg b k qs m :
  s_pending_callback s !! id = Some (mkPendingCallback addr msg b) → info_sender info = addr →
  s_non_atomic_batch_current_function_index s !! id = Some k →
  (k + 1 < vec_len (batch_msgs b))%N → (vec_len (batch_msgs b) ≤ usize_max)%N →
  reps s qs → room s (m + 1) →
  ∃ q', let s' := lset PENDING_CALLBACK (delete id (s_pending_callback s))
                    (lset (get_queue_map (batch_priority b)) q' (with_index id (k + 1) s)) in
    process_callback env info id msg s = Ok (mkResponse [] [("method", "callback")], s') ∧
    reps s' (upd qs (batch_priority b) (qs (batch_priority b) ++ [set_retry None b])) ∧ room s' m.
Proof.
  intros Hp Hsend Hi Hk Hu Hs Hr. unfold process_callback, mbind, Exec_bind, map_err, map_load.
  cbn [lget PENDING_CALLBACK NON_ATOMIC_BATCH_CURRENT_FUNCTION_INDEX]. rewrite Hp.
  unfold fail_if. rewrite bool_decide_eq_false_2 by (simpl; auto).
  rewrite Hi. rewrite bool_decide_eq_false_2 by (simpl; auto). cbn [pc_message_batch].
  destruct (success_more k id b (env_contract env) s qs m) as (q' & -> & Hs' & Hr'); [done..|].
  exists q'. split_and!.
  - by destruct (batch_priority b).
  - eapply reps_same; [|exact Hs']. intros. by autorewrite with proc.
  - eapply room_same; [|done|exact Hr']. intros. by autorewrite with proc.
Qed.
End SharedCounter.

(** C40 What a failed function reports.  When function [k] of a running
    non-atomic batch fails and is not retried, the processor sends exactly one
    callback and forgets the batch.  With an exhausted [Amount] the result is
    [Rejected] for the first function and [PartiallyExecuted k] for a later one,
    but a function without retry logic always yields [Rejected], also when the
    [k] functions before it were executed. *)
Theorem failed_function_report
    `{Platform} `{SerdeJson} `{JsonCodec AuthorizationExecuteMsg} `{JsonCodec ProcessorExecuteMsg}
    `{JsonCodec PolytoneExecuteMsg} `{JsonCodec ProcPolytoneCallbackMsg}
    `{!JsonCodecLaws AuthorizationExecuteMsg} `{!JsonCodecLaws ProcessorExecuteMsg}
    `{!JsonCodecLaws PolytoneExecuteMsg} `{!JsonCodecLaws ProcPolytoneCallbackMsg}
    (env : Env) (s : storage) (c : Config) (b : MessageBatch) (sub : NonAtomicSubroutine)
    (k : N) (f : NonAtomicFunction) (error : string) (res : ExecutionResult) :
  running s c b sub k f →
  failure_report (nf_retry_logic f) (attempts b) k error = Some res →
  ∃ msg, reply env (mkReply (batch_id b) (SubMsgErr error)) s =
           Ok (mkResponse [SubMsg_new msg] [("method", "reply")],
               finished (batch_id b) (after_callback c (batch_id b) res s)) ∧
         is_callback c (env_contract env) (batch_id b) res msg.
Proof. intros. by eapply reply_err_report. Qed.

(** The retry counter outlives the function it counts for.  When function
    [k] succeeds after [r] retries, the queued copy of the batch has its counter
    reset, but the copy the next failure consults still counts [r]: if function
    [k + 1] fails and allows at most [r] retries, it is not retried at all and
    the batch ends as [PartiallyExecuted (k + 1)]. *)
Theorem retry_budget_carried_over
    `{Platform} `{SerdeJson} `{JsonCodec AuthorizationExecuteMsg} `{JsonCodec ProcessorExecuteMsg}
    `{JsonCodec PolytoneExecuteMsg} `{JsonCodec ProcPolytoneCallbackMsg}
    `{!JsonCodecLaws AuthorizationExecuteMsg} `{!JsonCodecLaws ProcessorExecuteMsg}
    `{!JsonCodecLaws PolytoneExecuteMsg} `{!JsonCodecLaws ProcPolytoneCallbackMsg}
    (env env' : Env) (s : storage) (c : Config) (b : MessageBatch) (sub : NonAtomicSubroutine)
    (k : N) (f f' : NonAtomicFunction) (m : N) (d : Duration)
    (qs : Priority → list MessageBatch) (error : string) :
  running s c b sub k f → s_pending_callback s !! batch_id b = None →
  (k + 1 < vec_len (batch_msgs b))%N → (vec_len (batch_msgs b) ≤ usize_max)%N →
  reps s qs → room s 1 →
  vec_get (ns_functions sub) (k + 1) = Some f' →
  nf_retry_logic f' = Some (mkRetryLogic (Amount m) d) → (m ≤ attempts b)%N →
  ∃ s1, reply env (mkReply (batch_id b) SubMsgOk) s =
          Ok (mkResponse [] [("method", "reply")], s1) ∧
        reps s1 (upd qs (batch_priority b) (qs (batch_priority b) ++ [set_retry None b])) ∧
        ∀ s2, rest_of s2 = rest_of s1 →
          ∃ msg s3, reply env' (mkReply (batch_id b) (SubMsgErr error)) s2 =
                      Ok (mkResponse [SubMsg_new msg] [("method", "reply")], s3) ∧
                    is_callback c (env_contract env') (batch_id b)
                      (PartiallyExecuted (k + 1) error) msg.
Proof.
  intros Hrun Hp Hk Hu Hs Hr Hf' Hrl Hm.
  destruct (success_keeps_counter env s c b sub k f f' qs 0) as (s1 & Ho & Hs1 & Hrun1); [done..|].
  exists s1. split_and!; [done|done|]. intros s2 Hrest.
  destruct (reply_err_report env' s2 c b sub (k + 1) f' error (PartiallyExecuted (k + 1) error))
    as (msg & ? & ?); [by eapply running_rest| |by eauto].
  unfold failure_report. rewrite Hrl. cbn [times].
  rewrite (proj2 (N.leb_le _ _)) by done. by rewrite (proj2 (N.eqb_neq _ _)) by lia.
Qed.

(** A confirmation that arrives while the function is still executing skips
    a function.  If the confirming contract sends its callback from within the
    call of function [k], the callback advances the batch, and then the reply of
    the same call, finding no pending callback any more, advances it again: the
    next function to run is [k + 2], and the batch is queued twice. *)
Theorem confirmation_during_execution_skips
    `{Platform} `{SerdeJson} `{JsonCodec AuthorizationExecuteMsg} `{JsonCodec ProcessorExecuteMsg}
    `{JsonCodec PolytoneExecuteMsg} `{JsonCodec ProcPolytoneCallbackMsg}
    (env : Env) (info : MessageInfo) (s : storage) (c : Config) (b : MessageBatch)
    (addr : Addr) (msg : list Byte.byte) (k : N) (qs : Priority → list MessageBatch) :
  s_config s = Some c → s_execution_id_to_batch s !! batch_id b = Some b →
  s_pending_callback s !! batch_id b = Some (mkPendingCallback addr msg b) →
  s_non_atomic_batch_current_function_index s !! batch_id b = Some k →
  info_sender info = addr →
  (k + 2 < vec_len (batch_msgs b))%N → (vec_len (batch_msgs b) ≤ usize_max)%N →
  reps s qs → room s 2 →
  ∃ s1 s2, process_callback env info (batch_id b) msg s =
             Ok (mkResponse [] [("method", "callback")], s1) ∧
           reply env (mkReply (batch_id b) SubMsgOk) s1 =
             Ok (mkResponse [] [("method", "reply")], s2) ∧
           s_non_atomic_batch_current_function_index s2 !! batch_id b = Some (k + 1 + 1)%N ∧
           reps s2 (upd (upd qs (batch_priority b) (qs (batch_priority b) ++ [set_retry None b]))
                      (batch_priority b)
                      (qs (batch_priority b) ++ [set_retry None b; set_retry None b])).
Proof.
  intros Hc Hb Hp Hi Hsend Hk Hu Hs Hr.
  destruct (callback_ok_more env info s (batch_id b) addr msg b k qs 1) as (q1 & Hcb & Hs1 & Hr1);
    [done..|lia|done|done|done|].
  set (s1 := lset PENDING_CALLBACK _ _) in *.
  destruct (reply_ok_more env s1 c b (k + 1)
    (upd qs (batch_priority b) (qs (batch_priority b) ++ [set_retry None b])) 0)
    as (q2 & Hreply & Hs2 & _); try done; unfold s1; try (by destruct (batch_priority b)).
  - destruct (batch_priority b); cbn; apply lookup_insert_eq.
  - destruct (batch_priority b); cbn; apply lookup_delete_eq.
  - lia.
  - exists s1, (lset (get_queue_map (batch_priority b)) q2 (with_index (batch_id b) (k + 1 + 1) s1)).
    split_and!; [done|done| |].
    + destruct (batch_priority b); cbn; apply lookup_insert_eq.
    + rewrite upd_eq, <-app_assoc in Hs2. exact Hs2.
Qed.

(** An attempt that failed can still be confirmed.  When a function that waits for
    a confirmation fails and is to be retried, its batch goes back to the queue but
    the record of the awaited confirmation stays.  If the confirming contract sends
    its message then, it is accepted: the batch advances past the function that
    failed, and is queued a second time. *)
Theorem failed_attempt_confirmable
    `{Platform} `{SerdeJson} `{JsonCodec AuthorizationExecuteMsg} `{JsonCodec ProcessorExecuteMsg}
    `{JsonCodec PolytoneExecuteMsg} `{JsonCodec ProcPolytoneCallbackMsg}
    (env env' : Env) (info : MessageInfo) (s : storage) (c : Config) (b : MessageBatch)
    (sub : NonAtomicSubroutine) (k : N) (f : NonAtomicFunction) (rl : RetryLogic) (x : Expiration)
    (addr : Addr) (msg : list Byte.byte) (error : string) (qs : Priority → list MessageBatch) :
  running s c b sub k f → s_pending_callback s !! batch_id b = Some (mkPendingCallback addr msg b) →
  nf_retry_logic f = Some rl → may_retry (times rl) (attempts b) →
  duration_after (interval rl) (env_block env) = Some x → (attempts b < u64_max)%N →
  info_sender info = addr →
  (k + 1 < vec_len (batch_msgs b))%N → (vec_len (batch_msgs b) ≤ usize_max)%N →
  reps s qs → room s 2 →
  let p := batch_priority b in
  ∃ s1 s2, reply env (mkReply (batch_id b) (SubMsgErr error)) s =
             Ok (mkResponse [] [("method", "reply")], s1) ∧
           reps s1 (upd qs p (qs p ++ [retried b x])) ∧
           process_callback env' info (batch_id b) msg s1 =
             Ok (mkResponse [] [("method", "callback")], s2) ∧
           s_non_atomic_batch_current_function_index s2 !! batch_id b = Some (k + 1)%N ∧
           reps s2 (upd (upd qs p (qs p ++ [retried b x])) p
                      (qs p ++ [retried b x; set_retry None b])).
Proof.
  intros [Hc Hb Hi Hsub Hf] Hp Hrl Hmay Hx Hmax Hsend Hk Hu Hs Hr p.
  destruct (failure_requeues env s qs c b rl error x 1 (Some k) (env_contract env) Hs Hr)
    as (q & Hh & Hs1 & Hr1); [|done..|].
  { unfold retry_logic_at. rewrite Hsub. change (default 0%N (Some k)) with k.
    unfold mbind, option_bind. by rewrite Hf. }
  set (s1 := lset EXECUTION_ID_TO_BATCH _ _) in *.
  destruct (callback_ok_more env' info s1 (batch_id b) addr msg b k (upd qs p (qs p ++ [retried b x])) 0)
    as (q1 & Hcb & Hs2 & _); try done; [unfold s1; by destruct (batch_priority b)..|].
  exists s1. eexists. split_and!; [|done|exact Hcb| |].
  - unfold reply, mbind, Exec_bind, item_load, map_load, map_may_load.
    cbn [lget CONFIG EXECUTION_ID_TO_BATCH NON_ATOMIC_BATCH_CURRENT_FUNCTION_INDEX reply_id reply_result].
    by rewrite Hc, Hb, Hi, Hh.
  - destruct (batch_priority b); cbn; apply lookup_insert_eq.
  - unfold p in *. by rewrite upd_eq, <-app_assoc in Hs2.
Qed.
