(* ===== verification/ProcessorLifecycle.v ===== *)
(** * Processor: the life of a batch

    Whole transactions of the processor (a message and, for a tick, the reply of
    the sub-message it sends), and the accounting of batches along any run: every
    batch that was accepted is in a queue, waits for a confirmation, or was
    reported, exactly once. *)
From S2P Require Import Prelude Platform Types Queue Processor ProcessorFacts ProcessorProofs.
From S2P Require Import ProcessorRuns Codec.
Import Processor.

(** ** Counting ids *)
Definition occ (id : N) (l : list N) : nat := length (filter (eq id) l).

Lemma occ_app id l k : occ id (l ++ k) = (occ id l + occ id k)%nat.
Proof. unfold occ. by rewrite filter_app, length_app. Qed.
Lemma occ_cons id x l : occ id (x :: l) = ((if decide (id = x) then 1 else 0) + occ id l)%nat.
Proof. unfold occ. rewrite filter_cons. by case_decide. Qed.

(** How often a batch with this id is queued. *)
Definition queued (qs : Priority → list MessageBatch) (id : N) : nat :=
  occ id (batch_id <$> qs High) + occ id (batch_id <$> qs Medium).

Lemma queued_upd qs p l id :
  (queued (upd qs p l) id + occ id (batch_id <$> qs p) =
   queued qs id + occ id (batch_id <$> l))%nat.
Proof. unfold queued. destruct p; rewrite ?upd_eq, ?upd_ne by done; lia. Qed.

Definition is_id (b : MessageBatch) (id : N) : nat := if decide (id = batch_id b) then 1 else 0.
(** Adding a batch to a queue, and taking one out, at any position. *)
Lemma queued_add qs p l k b id :
  qs p = l ++ k → queued (upd qs p (l ++ b :: k)) id = (is_id b id + queued qs id)%nat.
Proof.
  intros Hp. pose proof (queued_upd qs p (l ++ b :: k) id) as H. unfold is_id.
  rewrite Hp, !fmap_app, fmap_cons, !occ_app, occ_cons in H. lia.
Qed.
Lemma queued_remove qs p l k b id :
  qs p = l ++ b :: k → queued qs id = (is_id b id + queued (upd qs p (l ++ k)) id)%nat.
Proof.
  intros Hp. pose proof (queued_upd qs p (l ++ k) id) as H. unfold is_id.
  rewrite Hp, !fmap_app, fmap_cons, !occ_app, occ_cons in H. lia.
Qed.
Lemma is_id_eq b : is_id b (batch_id b) = 1%nat.
Proof. unfold is_id. by rewrite decide_True. Qed.
Lemma is_id_ne b id : id ≠ batch_id b → is_id b id = 0%nat.
Proof. intros. unfold is_id. by rewrite decide_False. Qed.

(** The batch with this id was executed, is in no queue, and waits for the
    contract that confirms its current function. *)
Definition awaiting (s : storage) (qs : Priority → list MessageBatch) (id : N) : bool :=
  bool_decide (is_Some (s_pending_callback s !! id)) &&
  bool_decide (is_Some (s_non_atomic_batch_current_function_index s !! id)) &&
  (queued qs id =? 0)%nat.

(** Everything the storage knows by id is filed under the right id. *)
Record filed (s : storage) : Prop := {
  filed_batches id b : s_execution_id_to_batch s !! id = Some b → batch_id b = id;
  filed_pending id pc : s_pending_callback s !! id = Some pc → batch_id (pc_message_batch pc) = id;
}.

(** ** Transactions *)
Section Transactions.
Context `{HP : Platform} `{HS : SerdeJson}.
Context `{HA : JsonCodec AuthorizationExecuteMsg} `{HE : JsonCodec ProcessorExecuteMsg}.
Context `{HPo : JsonCodec PolytoneExecuteMsg} `{HC : JsonCodec ProcPolytoneCallbackMsg}.
Implicit Types (s : storage) (qs : Priority → list MessageBatch) (env : Env).

(** A transaction: the message, then the reply of the sub-message it sends, if it
    asks for one; [outcome] is how that sub-message ended.  The result is the list
    of messages that leave the processor. *)
Definition deliver_reply env (outcome : SubMsgResult) (r : Response)
    : Exec storage ContractError (list SubMsg) :=
  match resp_messages r with
  | [m] =>
      match sub_reply_on m with
      | ReplyAlways =>
          r' ← reply env (mkReply (sub_id m) outcome);
          mret (resp_messages r')
      | _ => mret [m]
      end
  | ms => mret ms
  end.
Definition run_tx env (info : MessageInfo) (msg : ProcessorExecuteMsg) (outcome : SubMsgResult)
    : Exec storage ContractError (list SubMsg) :=
  r ← execute env info msg;
  deliver_reply env outcome r.

(** Reads a report out of a message, as the authorization contract (behind the
    polytone proxy on an external domain) does. *)
Definition direct_report (c : Config) (m : CosmosMsg) : option (N * ExecutionResult) :=
  match m with
  | CosmosWasm (WasmExecute addr payload _) =>
      if bool_decide (addr = authorization_contract c) then
        match from_json payload with
        | Ok (InternalAuthorizationAction (ProcessorCallback id res)) => Some (id, res)
        | _ => None
        end
      else None
  | _ => None
  end.
Definition report_of (c : Config) (m : CosmosMsg) : option (N * ExecutionResult) :=
  match processor_domain c with
  | ProcMain => direct_report c m
  | ProcExternal polytone =>
      match m with
      | CosmosWasm (WasmExecute addr payload _) =>
          if bool_decide (addr = polytone_note_address polytone) then
            match from_json payload with
            | Ok (PolytoneExecute [inner] _ _) => direct_report c inner
            | _ => None
            end
          else None
      | _ => None
      end
  end.

(** The executions a transaction reports for the first time: a retry sends a report
    again that the bridge lost. *)
Definition reported (c : Config) (msg : ProcessorExecuteMsg) (out : list SubMsg) : list N :=
  match msg with
  | ProcPermissionlessAction (RetryCallback _) => []
  | _ => fst <$> omap (λ m, report_of c (sub_msg m)) out
  end.

(** The execution a message hands to the processor. *)
Definition accepted (msg : ProcessorExecuteMsg) : list N :=
  match msg with
  | AuthorizationModuleAction (EnqueueMsgs id _ _ _ _) => [id]
  | AuthorizationModuleAction (InsertMsgs _ id _ _ _ _) => [id]
  | _ => []
  end.

(** What the environment respects: the authorization contract gives every execution
    a new id, and a contract confirms only a call that succeeded, not one whose
    batch is back in a queue. *)
Definition well_behaved s (acc : list N) (msg : ProcessorExecuteMsg) : Prop :=
  match msg with
  | InternalProcessorAction (LibraryCallback id _) => ∃ qs, reps s qs ∧ queued qs id = 0%nat
  | _ => Forall (λ id, occ id acc = 0%nat) (accepted msg)
  end.

(** A step of a run: the storage, the ids accepted so far, and the ids reported so
    far.  No transaction is sent by the processor itself. *)
Inductive life_step : storage * list N * list N → storage * list N * list N → Prop :=
| life_tx env info msg outcome out s s' acc rep c :
    s_config s = Some c → info_sender info ≠ env_contract env → well_behaved s acc msg →
    run_tx env info msg outcome s = Ok (out, s') →
    life_step (s, acc, rep) (s', accepted msg ++ acc, reported c msg out ++ rep).

(** The accounting: every accepted batch is reported, queued or awaited, in total
    as often as it was accepted, and the batches that are not reported yet are
    stored, so that the processor can go on with them. *)
Record tally s qs (acc rep : list N) : Prop := {
  tally_count id :
    occ id acc = (occ id rep + queued qs id + (if awaiting s qs id then 1 else 0))%nat;
  tally_stored id :
    (0 < queued qs id)%nat ∨ awaiting s qs id = true → is_Some (s_execution_id_to_batch s !! id);
  tally_once id : (occ id acc ≤ 1)%nat;
  tally_index id : is_Some (s_non_atomic_batch_current_function_index s !! id) → (0 < occ id acc)%nat;
}.

(** ** The handlers *)

(** What handling the result of the execution [id] does: either the batch is
    reported and its function index forgotten, or it goes back to a queue. *)
Record handled (c : Config) (self : Addr) (id : N) s qs (m : N) (ms : list CosmosMsg) s' : Prop := {
  h_config : s_config s' = s_config s;
  h_pending : s_pending_callback s' = s_pending_callback s;
  h_index id' : id' ≠ id →
    s_non_atomic_batch_current_function_index s' !! id' =
    s_non_atomic_batch_current_function_index s !! id';
  h_batches id' : id' ≠ id → s_execution_id_to_batch s' !! id' = s_execution_id_to_batch s !! id';
  h_filed b : s_execution_id_to_batch s' !! id = Some b →
    s_execution_id_to_batch s !! id = Some b ∨ batch_id b = id;
  h_room : room s' m;
  h_case :
    (∃ mm res, ms = [mm] ∧ is_callback c self id res mm ∧ reps s' qs ∧
       s_non_atomic_batch_current_function_index s' !! id = None) ∨
    (ms = [] ∧ ∃ p b, batch_id b = id ∧ reps s' (upd qs p (qs p ++ [b])) ∧
       (is_Some (s_execution_id_to_batch s !! id) → is_Some (s_execution_id_to_batch s' !! id)));
}.

Context `{!JsonCodecLaws AuthorizationExecuteMsg} `{!JsonCodecLaws ProcessorExecuteMsg}.
Context `{!JsonCodecLaws PolytoneExecuteMsg} `{!JsonCodecLaws ProcPolytoneCallbackMsg}.

Lemma create_callback_ok c id res self s mm s' :
  create_callback_message c id res self s = Ok (mm, s') →
  is_callback c self id res mm ∧ s' = after_callback c id res s.
Proof.
  destruct (create_callback_run c id res self s) as (mm' & -> & His). by intros [= <- <-].
Qed.

Ltac callback_inv :=
  match goal with
  | H : create_callback_message _ _ _ _ _ = Ok _ |- _ => apply create_callback_ok in H as [? ->]
  end.

(** The storage after a final report. *)
Lemma handled_finished c self id s qs m res mm s' :
  reps s qs → room s m → is_callback c self id res mm →
  s' = finished id (after_callback c id res s) → handled c self id s qs m [mm] s'.
Proof.
  intros Hs Hr Hm ->. assert (∀ p, queue_at p (finished id (after_callback c id res s)) = queue_at p s) as Hq.
  { intros p. unfold finished. by autorewrite with proc. }
  unfold finished in *.
  assert (rest_of (after_callback c id res s) = (s_contract_info s, s_config s,
    s_execution_id_to_batch s, s_non_atomic_batch_current_function_index s, s_pending_callback s,
    s_pending_polytone_callbacks (after_callback c id res s))) as Hrest.
  { unfold after_callback. by case_match. }
  injection Hrest as Hi Hc Hb Hx Hp. split; cbn.
  - done.
  - done.
  - intros id' ?. by rewrite lookup_delete_ne, Hx.
  - intros id' ?. by rewrite lookup_delete_ne, Hb.
  - intros b. by rewrite lookup_delete_eq.
  - by eapply room_same.
  - left. exists mm, res. split_and!; [done|done|by eapply reps_same|by rewrite lookup_delete_eq].
Qed.

(** The report of an atomic batch that succeeded; its stored copy is kept. *)
Lemma handled_atomic c self id s qs m res mm :
  reps s qs → room s m → is_callback c self id res mm →
  s_non_atomic_batch_current_function_index s !! id = None →
  handled c self id s qs m [mm] (after_callback c id res s).
Proof.
  intros Hs Hr Hm Hx. assert (∀ p, queue_at p (after_callback c id res s) = queue_at p s) as Hq
    by (intros; by autorewrite with proc).
  split; [..|left; exists mm, res; split_and!; [done|done|by eapply reps_same|]];
    try (by eapply room_same); unfold after_callback; case_match; cbn; auto.
Qed.

Lemma handle_success_handled c k id b self s qs m ms s' :
  reps s qs → room s (m + 1) → s_config s = Some c → batch_id b = id →
  handle_successful_non_atomic_callback k id b [] self s = Ok (ms, s') →
  handled c self id s qs m ms s'.
Proof.
  intros Hs Hr Hc Hb Hrun. unfold handle_successful_non_atomic_callback in Hrun.
  apply Exec_bind_ok in Hrun as (k' & s0 & [Hk <-]%expect_ok & Hrun).
  case_match.
  - run_inv.
    callback_inv.
    eapply handled_finished; [done| |done|done]. eapply room_le; [done|lia].
  - apply Exec_bind_ok in Hrun as (u & s1 & Hsave%map_save_ok & Hrun). subst s1.
    change (lget _ s) with (s_non_atomic_batch_current_function_index s) in Hrun.
    fold (with_index id k' s) in Hrun.
    destruct (queue_do_push (batch_priority b) (set_retry None b) (with_index id k' s) qs m)
      as (q' & Hq & Hs' & Hr').
    { eapply reps_same; [|done]. intros. unfold with_index. by autorewrite with proc. }
    { eapply room_same; [|done..]. intros. unfold with_index. by autorewrite with proc. }
    unfold mbind, Exec_bind in Hrun. cbn [batch_priority set_retry] in Hrun.
    rewrite Hq in Hrun. apply mret_ok in Hrun as [<- <-].
    split; [by destruct (batch_priority b)..| | | | |].
    + intros. destruct (batch_priority b); cbn; by rewrite lookup_insert_ne.
    + intros. by destruct (batch_priority b).
    + intros b0. destruct (batch_priority b); cbn; auto.
    + done.
    + right. split; [done|]. exists (batch_priority b), (set_retry None b).
      split_and!; [done|done|]. by destruct (batch_priority b).
Qed.

Lemma put_back_handled c self id b i rl block s qs m s' u :
  reps s qs → room s (m + 1) → batch_id b = id →
  put_back_into_queue b i rl block s = Ok (u, s') → handled c self id s qs m [] s'.
Proof.
  intros Hs Hr Hb Hrun. unfold put_back_into_queue in Hrun.
  apply Exec_bind_ok in Hrun as (k & ? & [Hk <-]%expect_ok & Hrun).
  apply Exec_bind_ok in Hrun as (x & ? & [Hx <-]%expect_ok & Hrun).
  set (b' := set_retry _ b) in Hrun.
  destruct (queue_do_push (batch_priority b) b' s qs m Hs Hr) as (q' & Hq & Hs' & Hr').
  unfold mbind, Exec_bind in Hrun. cbn [batch_priority b' set_retry] in Hrun. fold b' in Hrun.
  rewrite Hq in Hrun. apply map_save_ok in Hrun. subst s'.
  assert (∀ x s, ∀ p, queue_at p (lset EXECUTION_ID_TO_BATCH x s) = queue_at p s) as Hsame
    by (intros; by autorewrite with proc).
  assert (s_execution_id_to_batch (lset (get_queue_map (batch_priority b)) q' s) =
    s_execution_id_to_batch s) as Hbs by (by destruct (batch_priority b)).
  split; [by destruct (batch_priority b)..| | | | |].
  + intros. by destruct (batch_priority b).
  + intros id' ?. cbn. rewrite Hbs. rewrite lookup_insert_ne; [done|]. cbn. congruence.
  + intros b0. subst id. cbn. rewrite lookup_insert_eq. intros [= <-]. by right.
  + eapply room_same; [apply Hsame|done|exact Hr'].
  + right. split; [done|]. exists (batch_priority b), b'.
    split_and!; [done|eapply reps_same; [apply Hsame|exact Hs']|]. subst id. cbn. rewrite lookup_insert_eq. by eauto.
Qed.

Lemma handle_failure_handled c id b error block index self s qs m ms s' :
  reps s qs → room s (m + 1) → batch_id b = id →
  handle_unsuccessful_callback id b [] error c block index self s = Ok (ms, s') →
  handled c self id s qs m ms s'.
Proof.
  intros Hs Hr Hb Hrun. assert (room s m) as Hr' by (eapply room_le; [done|lia]).
  unfold handle_unsuccessful_callback in Hrun.
  set (rl := match batch_subroutine b with Atomic _ => _ | NonAtomic _ => _ end) in Hrun.
  destruct rl as [rl|]; [|run_inv; callback_inv; by eapply handled_finished].
  destruct (times rl) as [|n]; [|case_match].
  1,3: apply Exec_bind_ok in Hrun as (? & ? & Hput & [<- <-]%mret_ok); by eapply put_back_handled.
  run_inv. callback_inv. by eapply handled_finished.
Qed.

(** The reply of a sub-message of the execution [id]: its result is handled, unless
    the function succeeded and waits for its confirmation. *)
Lemma reply_handled env c id outcome s qs m r s' :
  filed s → reps s qs → room s (m + 1) → s_config s = Some c →
  reply env (mkReply id outcome) s = Ok (r, s') →
  (∃ ms, resp_messages r = SubMsg_new <$> ms ∧ handled c (env_contract env) id s qs m ms s') ∨
  (resp_messages r = [] ∧ s' = s ∧ is_Some (s_pending_callback s !! id) ∧
   is_Some (s_non_atomic_batch_current_function_index s !! id)).
Proof.
  intros Hf Hs Hr Hc Hrun. unfold reply in Hrun.
  apply Exec_bind_ok in Hrun as (c' & ? & [Hc' ->]%item_load_ok & Hrun).
  apply Exec_bind_ok in Hrun as (b & ? & [Hb ->]%map_load_ok & Hrun).
  apply Exec_bind_ok in Hrun as (ix & ? & [Hix ->]%map_may_load_ok & Hrun).
  apply Exec_bind_ok in Hrun as (ms & s1 & Hh & [<- <-]%mret_ok).
  cbn in Hc', Hb, Hix. rewrite Hc in Hc'. injection Hc' as <-.
  apply (filed_batches _ Hf) in Hb. subst ix. cbn [reply_id reply_result] in *.
  destruct (s_non_atomic_batch_current_function_index s !! id) as [k|] eqn:Hix, outcome as [|error].
  - apply Exec_bind_ok in Hh as (pend & ? & [Hp ->]%map_has_ok & Hh). cbn in Hp. subst pend.
    case_bool_decide as Hp; cbn in Hh.
    + apply mret_ok in Hh as [<- <-]. right. eauto.
    + left. exists ms. split; [done|]. by eapply handle_success_handled.
  - left. exists ms. split; [done|]. by eapply handle_failure_handled.
  - left. exists ms. split; [done|]. unfold handle_successful_atomic_callback in Hh. run_inv.
    callback_inv. apply handled_atomic; [done| |done|done]. eapply room_le; [done|lia].
  - left. exists ms. split; [done|]. by eapply handle_failure_handled.
Qed.

Lemma create_message_sub b k ms :
  create_message_by_index b k = Ok ms → ∃ m, ms = [SubMsg_reply_always m (batch_id b)].
Proof.
  intros (? & _ & (? & _ & (m & _ & [= <-])%bind_result_ok)%bind_result_ok)%bind_result_ok. eauto.
Qed.
Lemma create_message_with_id_sub b k id ms :
  create_message_by_index_with_execution_id b k id = Ok ms →
  ∃ m, ms = [SubMsg_reply_always m id].
Proof.
  unfold create_message_by_index_with_execution_id. intros Hms.
  do 5 (apply bind_result_ok in Hms as (? & _ & Hms)). injection Hms as <-. eauto.
Qed.

(** Executing a batch sends one sub-message with a reply, and only touches what the
    storage keeps under its id. *)
Lemma tick_execute_ok env b s r s' :
  tick_execute env b s = Ok (r, s') →
  (∃ m, resp_messages r = [SubMsg_reply_always m (batch_id b)]) ∧
  (∀ p, queue_at p s' = queue_at p s) ∧ s_config s' = s_config s ∧
  s_execution_id_to_batch s' = s_execution_id_to_batch s ∧
  (∀ id, id ≠ batch_id b →
     s_non_atomic_batch_current_function_index s' !! id =
     s_non_atomic_batch_current_function_index s !! id ∧
     s_pending_callback s' !! id = s_pending_callback s !! id) ∧
  (∀ pc, s_pending_callback s' !! batch_id b = Some pc →
     s_pending_callback s !! batch_id b = Some pc ∨ pc_message_batch pc = b).
Proof.
  unfold tick_execute. intros Hrun.
  apply Exec_bind_ok in Hrun as (ms & s1 & Hms & [<- <-]%mret_ok).
  destruct (batch_subroutine b) as [sub|sub]; [run_inv; by split_and!; eauto|].
  apply Exec_bind_ok in Hms as (ix & ? & [_ ->]%map_may_load_ok & Hms).
  apply Exec_bind_ok in Hms as (k & s0 & Hk & Hms).
  assert (∃ x, s0 = lset NON_ATOMIC_BATCH_CURRENT_FUNCTION_INDEX x s ∧
    ∀ id, id ≠ batch_id b → x !! id = s_non_atomic_batch_current_function_index s !! id)
    as (x & -> & Hx).
  { destruct ix as [i|].
    - apply mret_ok in Hk as [_ <-]. exists (s_non_atomic_batch_current_function_index s). by destruct s.
    - apply Exec_bind_ok in Hk as (? & ? & ->%map_save_ok & [_ <-]%mret_ok).
      eexists. split; [done|]. intros. by rewrite lookup_insert_ne. }
  apply Exec_bind_ok in Hms as (f & ? & [_ <-]%expect_ok & Hms).
  destruct (callback_confirmation f) as [cb|]; cycle 1.
  { apply of_result_ok in Hms as [Hms%create_message_sub <-].
    split_and!; [done|by intros []|done|done|by intros; split; [apply Hx|]|by left]. }
  apply Exec_bind_ok in Hms as (ms' & ? & [Hms'%create_message_with_id_sub <-]%of_result_ok & Hms).
  apply Exec_bind_ok in Hms as (? & ? & ->%map_save_ok & [<- <-]%mret_ok).
  split_and!; [done|by intros []|done|done| |].
  - intros id Hid. split; [by apply Hx|]. cbn. by rewrite lookup_insert_ne.
  - intros pc. cbn. rewrite lookup_insert_eq. intros [= <-]. by right.
Qed.

(** ** The accounting *)

(** Nothing changed about the other executions. *)
Definition same_but (id : N) s qs s' qs' : Prop :=
  ∀ id', id' ≠ id →
    queued qs' id' = queued qs id' ∧
    s_pending_callback s' !! id' = s_pending_callback s !! id' ∧
    s_non_atomic_batch_current_function_index s' !! id' =
      s_non_atomic_batch_current_function_index s !! id' ∧
    s_execution_id_to_batch s' !! id' = s_execution_id_to_batch s !! id'.

Lemma same_but_trans id s1 qs1 s2 qs2 s3 qs3 :
  same_but id s1 qs1 s2 qs2 → same_but id s2 qs2 s3 qs3 → same_but id s1 qs1 s3 qs3.
Proof.
  intros H1 H2 id' Hid. destruct (H1 id' Hid) as (?&?&?&?), (H2 id' Hid) as (?&?&?&?).
  split_and!; congruence.
Qed.

Lemma same_but_awaiting id s qs s' qs' id' :
  same_but id s qs s' qs' → id' ≠ id → awaiting s' qs' id' = awaiting s qs id'.
Proof. intros H Hid. destruct (H id' Hid) as (Hq & Hp & Hx & _). unfold awaiting. by rewrite Hq, Hp, Hx. Qed.

Lemma tally_change id s qs s' qs' acc acc' rep rep' :
  tally s qs acc rep → same_but id s qs s' qs' →
  (∀ id', id' ≠ id → occ id' acc' = occ id' acc ∧ occ id' rep' = occ id' rep) →
  occ id acc' = (occ id rep' + queued qs' id + (if awaiting s' qs' id then 1 else 0))%nat →
  (0 < queued qs' id ∨ awaiting s' qs' id = true → is_Some (s_execution_id_to_batch s' !! id))%nat →
  occ id acc' = 1%nat → tally s' qs' acc' rep'.
Proof.
  intros [Hc Hst Ho Hx] Hsame Hother Hbal Hstored Hacc. split; intros id';
    (destruct (decide (id' = id)) as [->|Hid]; [done || (intros; lia) || lia|]);
    destruct (Hother id' Hid) as [Ha Hrep]; destruct (Hsame id' Hid) as (Hq & Hp & Hi & Hb);
    pose proof (same_but_awaiting _ _ _ _ _ _ Hsame Hid) as Haw.
  - by rewrite Ha, Hrep, Hq, Haw.
  - rewrite Hq, Haw, Hb. apply Hst.
  - rewrite Ha. apply Ho.
  - rewrite Hi, Ha. apply Hx.
Qed.

(** A change that the accounting does not see. *)
Lemma tally_ext s qs s' qs' acc rep :
  tally s qs acc rep → (∀ id, queued qs' id = queued qs id) →
  s_execution_id_to_batch s' = s_execution_id_to_batch s →
  s_non_atomic_batch_current_function_index s' = s_non_atomic_batch_current_function_index s →
  s_pending_callback s' = s_pending_callback s → tally s' qs' acc rep.
Proof.
  intros [Hc Hst Ho Hx] Hq Hb Hi Hp.
  assert (∀ id, awaiting s' qs' id = awaiting s qs id) as Haw.
  { intros id. unfold awaiting. by rewrite Hq, Hi, Hp. }
  split; intros id; rewrite ?Hq, ?Haw, ?Hb, ?Hi; auto.
Qed.

Lemma direct_report_of c id res m :
  reports_to_authorization c id res m → direct_report c m = Some (id, res).
Proof.
  intros (payload & Hp & ->). unfold direct_report. rewrite bool_decide_eq_true_2 by done.
  by rewrite (from_to_json _ _ Hp).
Qed.
Lemma report_of_callback c self id res m : is_callback c self id res m → report_of c m = Some (id, res).
Proof.
  unfold is_callback, report_of. destruct (processor_domain c) as [|polytone].
  - apply direct_report_of.
  - intros (inner & cb & body & Hin & _ & Hb & ->). rewrite bool_decide_eq_true_2 by done.
    rewrite (from_to_json _ _ Hb). by apply direct_report_of.
Qed.

(** Handling the result of an execution that is accounted for as live. *)
Lemma handled_tally c self id s0 qs0 s qs m ms s' s'' acc rep :
  tally s0 qs0 acc rep → same_but id s0 qs0 s qs → queued qs id = 0%nat →
  is_Some (s_execution_id_to_batch s !! id) → occ id acc = 1%nat → occ id rep = 0%nat →
  handled c self id s qs m ms s' →
  (∀ p, queue_at p s'' = queue_at p s') →
  s_execution_id_to_batch s'' = s_execution_id_to_batch s' →
  s_non_atomic_batch_current_function_index s'' = s_non_atomic_batch_current_function_index s' →
  (∀ id', id' ≠ id → s_pending_callback s'' !! id' = s_pending_callback s' !! id') →
  ∃ qs', reps s'' qs' ∧ tally s'' qs' acc ((fst <$> omap (report_of c) ms) ++ rep).
Proof.
  intros Ht Hsame Hq0 Hst Hacc Hrep Hh Hqs Hb Hx Hp. pose proof (h_case _ _ _ _ _ _ _ _ Hh) as Hcase.
  assert (∀ qs', (∀ id', id' ≠ id → queued qs' id' = queued qs id') → same_but id s qs s'' qs') as Hfr.
  { intros qs' Hq' id' Hid. rewrite Hb, Hx, Hp by done.
    rewrite (h_pending _ _ _ _ _ _ _ _ Hh).
    split_and!; [by auto|done|by eapply h_index|by eapply h_batches]. }
  destruct Hcase as [(mm & res & -> & Hcb & Hs' & Hnone)|(-> & p & b & Hid & Hs' & Hsome)].
  - exists qs. split; [by eapply reps_same|]. cbn. rewrite (report_of_callback _ _ _ _ _ Hcb). cbn.
    assert (awaiting s'' qs id = false) as Haw.
    { unfold awaiting. rewrite Hx, Hnone. by rewrite (bool_decide_eq_false_2 (is_Some None)), andb_false_r by (by intros []). }
    eapply tally_change; [done|eapply same_but_trans; [done|by apply Hfr]|..]; rewrite ?Haw, ?occ_cons.
    + intros id' ?. by rewrite occ_cons, decide_False.
    + rewrite decide_True by done. lia.
    + intros [?|?]; [lia|done].
    + done.
  - eexists. split; [by eapply reps_same|]. cbn.
    assert (∀ id', queued (upd qs p (qs p ++ [b])) id' = (is_id b id' + queued qs id')%nat) as Hupd.
    { intros. apply queued_add. by rewrite app_nil_r. }
    assert (queued (upd qs p (qs p ++ [b])) id = 1%nat) as Hq1.
    { rewrite Hupd, <-Hid, is_id_eq, Hid. lia. }
    assert (awaiting s'' (upd qs p (qs p ++ [b])) id = false) as Haw.
    { unfold awaiting. rewrite Hq1. by rewrite andb_false_r. }
    eapply tally_change; [done|eapply same_but_trans; [done|apply Hfr]|..]; rewrite ?Haw.
    + intros id' ?. by rewrite Hupd, is_id_ne by congruence.
    + done.
    + lia.
    + intros _. rewrite Hb. auto.
    + done.
Qed.

(** ** Steps *)
Definition tracked s (acc rep : list N) (n : N) : Prop :=
  ∃ qs, reps s qs ∧ room s n ∧ filed s ∧ tally s qs acc rep.

(** The part of the storage the accounting looks at. *)
Definition same_core s s' : Prop :=
  (∀ p, queue_at p s' = queue_at p s) ∧
  s_execution_id_to_batch s' = s_execution_id_to_batch s ∧
  s_non_atomic_batch_current_function_index s' = s_non_atomic_batch_current_function_index s ∧
  s_pending_callback s' = s_pending_callback s.

Lemma same_core_callback c id res s : same_core s (after_callback c id res s).
Proof.
  split; [intros; by autorewrite with proc|]. unfold after_callback. by case_match.
Qed.

Lemma tracked_frame s s' acc rep n m :
  same_core s s' → (m ≤ n)%N → tracked s acc rep n → tracked s' acc rep m.
Proof.
  intros (Hq & Hb & Hx & Hp) Hm (qs & Hs & Hr & [Hf1 Hf2] & Ht). exists qs.
  split_and!; [by eapply reps_same|by eapply room_same| |by eapply tally_ext].
  split; [by rewrite Hb|by rewrite Hp].
Qed.

(** A new batch is put into a queue. *)
Lemma tracked_accept p l k b q s qs acc rep m :
  reps s qs → filed s → tally s qs acc rep → qs p = l ++ k → occ (batch_id b) acc = 0%nat →
  let s' := lset EXECUTION_ID_TO_BATCH (<[batch_id b := b]> (s_execution_id_to_batch s))
              (lset (get_queue_map p) q s) in
  reps s' (upd qs p (l ++ b :: k)) → room s' m → tracked s' (batch_id b :: acc) rep m.
Proof.
  intros Hs [Hf1 Hf2] Ht Hp Hacc s' Hs' Hr'. exists (upd qs p (l ++ b :: k)).
  split_and!; [done|done| |].
  { split; intros id x; unfold s'; [|by destruct p; apply Hf2]. cbn.
    rewrite lookup_insert. case_decide as Hid; [intros [= <-]; done|apply Hf1]. }
  pose proof (tally_count _ _ _ _ Ht (batch_id b)) as Hc. rewrite Hacc in Hc.
  assert (queued (upd qs p (l ++ b :: k)) (batch_id b) = 1%nat) as Hq.
  { rewrite (queued_add qs p l k b (batch_id b) Hp), is_id_eq. lia. }
  eapply (tally_change (batch_id b)); [exact Ht|..].
  - intros id Hid. unfold s'. rewrite (queued_add qs p l k b id Hp), is_id_ne by done.
    split_and!; [done|by destruct p|by destruct p|]. destruct p; cbn; by rewrite lookup_insert_ne.
  - intros id Hid. by rewrite occ_cons, decide_False.
  - rewrite occ_cons, decide_True by done. unfold awaiting. rewrite Hq, andb_false_r. lia.
  - intros _. cbn. by rewrite lookup_insert_eq.
  - rewrite occ_cons, decide_True by done. lia.
Qed.

(** An execution that is reported without ever being queued. *)
Lemma tracked_expired id s s' qs acc rep m :
  reps s qs → room s m → filed s → tally s qs acc rep → occ id acc = 0%nat → same_core s s' →
  tracked s' (id :: acc) (id :: rep) m.
Proof.
  intros Hs Hr Hf Ht Hacc Hcore. pose proof Hcore as (Hq & Hb & Hx & Hp).
  assert (tracked s' acc rep m) as (qs' & Hs' & Hr' & Hf' & Ht').
  { eapply tracked_frame; [done|reflexivity|]. by exists qs. }
  exists qs'. split_and!; [done|done|done|].
  pose proof (tally_count _ _ _ _ Ht' id) as Hc. rewrite Hacc in Hc.
  eapply (tally_change id); [exact Ht'|done|..]; rewrite ?occ_cons.
  - intros id' ?. by rewrite !occ_cons, decide_False.
  - rewrite decide_True by done. lia.
  - apply (tally_stored _ _ _ _ Ht').
  - rewrite decide_True by done. lia.
Qed.

(** A batch is taken out of its queue for good. *)
Lemma tracked_evict p l k b s s' qs acc rep m :
  filed s → tally s qs acc rep → qs p = l ++ b :: k →
  reps s' (upd qs p (l ++ k)) → room s' m →
  s_execution_id_to_batch s' = delete (batch_id b) (s_execution_id_to_batch s) →
  s_non_atomic_batch_current_function_index s' =
    delete (batch_id b) (s_non_atomic_batch_current_function_index s) →
  s_pending_callback s' = delete (batch_id b) (s_pending_callback s) →
  tracked s' acc (batch_id b :: rep) m.
Proof.
  intros [Hf1 Hf2] Ht Hp Hs' Hr' Hb Hx Hpe. exists (upd qs p (l ++ k)).
  split_and!; [done|done| |].
  { split; intros id x; rewrite ?Hb, ?Hpe; intros [_ ?]%lookup_delete_Some; auto. }
  pose proof (tally_count _ _ _ _ Ht (batch_id b)) as Hc.
  pose proof (tally_once _ _ _ _ Ht (batch_id b)) as Ho.
  rewrite (queued_remove qs p l k b (batch_id b) Hp), is_id_eq in Hc.
  assert (awaiting s' (upd qs p (l ++ k)) (batch_id b) = false) as Haw.
  { unfold awaiting. rewrite Hpe, lookup_delete_eq. by rewrite bool_decide_eq_false_2 by (by intros []). }
  eapply (tally_change (batch_id b)); [exact Ht|..]; rewrite ?Haw, ?occ_cons.
  - intros id Hid. rewrite Hb, Hx, Hpe, !lookup_delete_ne by done.
    rewrite (queued_remove qs p l k b id Hp), is_id_ne by done. done.
  - intros id Hid. by rewrite occ_cons, decide_False.
  - rewrite decide_True by done. lia.
  - intros [?|?]; [lia|done].
  - lia.
Qed.

Lemma handled_tracked c self id s0 qs0 s qs m ms s' s'' acc rep :
  tally s0 qs0 acc rep → same_but id s0 qs0 s qs → queued qs id = 0%nat → filed s →
  is_Some (s_execution_id_to_batch s !! id) → occ id acc = 1%nat → occ id rep = 0%nat →
  handled c self id s qs m ms s' →
  s'' = s' ∨ s'' = lset PENDING_CALLBACK (delete id (s_pending_callback s')) s' →
  tracked s'' acc ((fst <$> omap (report_of c) ms) ++ rep) m.
Proof.
  intros Ht Hsame Hq [Hf1 Hf2] Hst Hacc Hrep Hh Hs''.
  assert ((∀ p, queue_at p s'' = queue_at p s') ∧
    s_execution_id_to_batch s'' = s_execution_id_to_batch s' ∧
    s_non_atomic_batch_current_function_index s'' = s_non_atomic_batch_current_function_index s' ∧
    ∀ id', id' ≠ id → s_pending_callback s'' !! id' = s_pending_callback s' !! id')
    as (Hqs & Hb & Hx & Hp).
  { destruct Hs'' as [->| ->]; [done|]. split_and!; [by intros []|done|done|].
    intros. cbn. by rewrite lookup_delete_ne. }
  destruct (handled_tally c self id s0 qs0 s qs m ms s' s'' acc rep) as (qs' & Hs' & Ht'); try done.
  exists qs'. split_and!; [done| | |done].
  { eapply room_same; [exact Hqs|reflexivity|]. by eapply h_room. }
  split; intros id' x.
  - rewrite Hb. destruct (decide (id' = id)) as [->|Hid].
    + intros Hl. destruct (h_filed _ _ _ _ _ _ _ _ Hh x Hl) as [?|?]; [by apply Hf1|done].
    + rewrite (h_batches _ _ _ _ _ _ _ _ Hh) by done. apply Hf1.
  - intros Hl. apply Hf2. rewrite <-(h_pending _ _ _ _ _ _ _ _ Hh).
    destruct Hs'' as [->| ->]; [done|]. cbn in Hl. by apply lookup_delete_Some in Hl as [_ ?].
Qed.

Lemma tick_expired_handled env c b s qs m r s' :
  reps s qs → room s m → s_config s = Some c → tick_expired env b s = Ok (r, s') →
  ∃ mm, resp_messages r = [SubMsg_new mm] ∧
        handled c (env_contract env) (batch_id b) s qs m [mm] s'.
Proof.
  intros Hs Hr Hc Hrun. unfold tick_expired in Hrun.
  apply Exec_bind_ok in Hrun as (c' & ? & [Hc' ->]%item_load_ok & Hrun).
  cbn in Hc'. rewrite Hc in Hc'. injection Hc' as <-.
  apply Exec_bind_ok in Hrun as (k & s0 & Hk & Hrun).
  assert (s0 = s) as ->.
  { destruct (batch_subroutine b); [by apply mret_ok in Hk as [_ <-]|].
    by apply Exec_bind_ok in Hk as (? & ? & [_ ->]%map_may_load_ok & [_ <-]%mret_ok). }
  apply Exec_bind_ok in Hrun as (? & ? & ->%map_remove_ok & Hrun).
  apply Exec_bind_ok in Hrun as (? & ? & ->%map_remove_ok & Hrun).
  apply Exec_bind_ok in Hrun as (mm & ? & Hcb & [<- <-]%mret_ok). callback_inv.
  exists mm. split; [done|]. eapply handled_finished; [done|done|done|].
  unfold finished, after_callback. destruct (processor_domain c); reflexivity.
Qed.

(** The reports among the messages of a handler. *)
Lemma reports_new c (ms : list CosmosMsg) :
  omap (λ m, report_of c (sub_msg m)) (SubMsg_new <$> ms) = omap (report_of c) ms.
Proof. induction ms as [|m ms IH]; [done|]. cbn. by rewrite IH. Qed.

Lemma deliver_new env outcome ms r s :
  resp_messages r = SubMsg_new <$> ms → deliver_reply env outcome r s = Ok (SubMsg_new <$> ms, s).
Proof. intros Hr. unfold deliver_reply. rewrite Hr. by destruct ms as [|m [|m' ms]]. Qed.

(** A batch that was in a queue once, seen from after it was taken out. *)
Lemma tally_popped p b rest s qs acc rep :
  tally s qs acc rep → qs p = b :: rest →
  queued (upd qs p rest) (batch_id b) = 0%nat ∧ occ (batch_id b) acc = 1%nat ∧
  occ (batch_id b) rep = 0%nat ∧ is_Some (s_execution_id_to_batch s !! batch_id b) ∧
  ∀ q, same_but (batch_id b) s qs (lset (get_queue_map p) q s) (upd qs p rest).
Proof.
  intros Ht Hp. pose proof (λ id, queued_remove qs p [] rest b id Hp) as Hq. cbn [app] in Hq.
  pose proof (tally_count _ _ _ _ Ht (batch_id b)) as Hc.
  pose proof (tally_once _ _ _ _ Ht (batch_id b)) as Ho.
  pose proof (Hq (batch_id b)) as Hqb. rewrite is_id_eq in Hqb. split_and!; [lia..| |].
  - apply (tally_stored _ _ _ _ Ht). lia.
  - intros q id Hid. rewrite (Hq id), is_id_ne by done. by destruct p.
Qed.

(** Executing the batch and handling the reply. *)
Lemma execute_tracked p env outcome c b rest q s qs acc rep n r s1 s' out :
  tally s qs acc rep → filed s → qs p = b :: rest → s_config s = Some c →
  let s0 := lset (get_queue_map p) q s in
  reps s0 (upd qs p rest) → room s0 (n + 1) →
  tick_execute env b s0 = Ok (r, s1) → deliver_reply env outcome r s1 = Ok (out, s') →
  tracked s' acc ((fst <$> omap (λ m, report_of c (sub_msg m)) out) ++ rep) n.
Proof.
  intros Ht Hf Hp Hc s0 Hs0 Hr0 Hex Hdel.
  destruct (tally_popped p b rest s qs acc rep Ht Hp) as (Hq0 & Hacc & Hrep & Hst & Hsame).
  destruct (tick_execute_ok env b s0 r s1 Hex) as ((m & Hm) & Hqs & Hc1 & Hb1 & Hfr & Hpc).
  assert (s_config s1 = Some c) as Hc' by (rewrite Hc1; by destruct p).
  assert (same_but (batch_id b) s qs s1 (upd qs p rest)) as Hsame1.
  { eapply same_but_trans; [apply (Hsame q)|]. intros id Hid. destruct (Hfr id Hid). by rewrite Hb1. }
  assert (reps s1 (upd qs p rest)) as Hs1 by (by eapply reps_same).
  assert (room s1 (n + 1)) as Hr1 by (by eapply room_same).
  assert (s_execution_id_to_batch s0 = s_execution_id_to_batch s ∧
    s_pending_callback s0 = s_pending_callback s) as [Hb0 Hp0] by (by destruct p).
  assert (filed s1) as Hf1.
  { destruct Hf as [Hf1 Hf2]. split; [by rewrite Hb1, Hb0|]. intros id pc Hl.
    destruct (decide (id = batch_id b)) as [->|Hid].
    - destruct (Hpc pc Hl) as [Hl' | ->]; [|done]. apply Hf2. by rewrite <-Hp0.
    - apply Hf2. rewrite <-Hp0. destruct (Hfr id Hid) as [_ <-]. done. }
  rewrite <-Hb0, <-Hb1 in Hst. unfold deliver_reply in Hdel. rewrite Hm in Hdel.
  cbn [SubMsg_reply_always sub_reply_on sub_id] in Hdel.
  apply Exec_bind_ok in Hdel as (r' & s2 & Hreply & [<- <-]%mret_ok).
  destruct (reply_handled env c (batch_id b) outcome s1 _ n r' s2 Hf1 Hs1 Hr1 Hc' Hreply)
    as [(ms & -> & Hh)|(-> & -> & Hpd & Hix)].
  - rewrite reports_new. eapply handled_tracked; try done. by left.
  - exists (upd qs p rest). split_and!; [done| |done|].
    { eapply room_le; [exact Hr1|lia]. }
    assert (awaiting s1 (upd qs p rest) (batch_id b) = true) as Haw.
    { unfold awaiting. by rewrite Hq0, !bool_decide_eq_true_2. }
    change (tally s1 (upd qs p rest) acc rep).
    eapply tally_change; [exact Ht|exact Hsame1|done|..]; rewrite ?Haw; [lia|done|done].
Qed.

Lemma tick_tracked env outcome c s acc rep n r s1 s' out :
  tracked s acc rep (n + 1) → s_config s = Some c →
  process_tick env s = Ok (r, s1) → deliver_reply env outcome r s1 = Ok (out, s') →
  tracked s' acc ((fst <$> omap (λ m, report_of c (sub_msg m)) out) ++ rep) n.
Proof.
  intros (qs & Hs & Hr & Hf & Ht) Hc Htick Hdel.
  destruct (proc_state c) eqn:Hstate.
  { by rewrite (process_tick_paused env s c Hc Hstate) in Htick. }
  rewrite (process_tick_on env s qs c Hs Hc Hstate) in Htick.
  set (p := next_queue qs) in Htick. unfold tick_on, mbind, Exec_bind in Htick.
  destruct (qs p) as [|b rest] eqn:Hqp.
  { by rewrite (queue_do_pop_nil p s qs Hs Hqp) in Htick. }
  destruct (queue_do_pop p s qs b rest (n + 1) Hs Hr Hqp) as (q & Hpop & Hs1 & Hr1).
  rewrite Hpop in Htick. case_match eqn:Hexp; [|case_match eqn:Hcool].
  - destruct (tally_popped p b rest s qs acc rep Ht Hqp) as (Hq0 & Hacc & Hrep & Hst & Hsame).
    destruct (tick_expired_handled env c b _ _ n r s1 Hs1) as (mm & Hm & Hh); [| |done|].
    { eapply room_le; [exact Hr1|lia]. }
    { by destruct p. }
    rewrite (deliver_new env outcome [mm] r s1 Hm) in Hdel. injection Hdel as <- <-.
    change [SubMsg_new mm] with (SubMsg_new <$> [mm]). rewrite reports_new.
    eapply handled_tracked; [exact Ht|apply Hsame|done| | |done|done|done|by left].
    + destruct Hf. by split; destruct p.
    + by destruct p.
  - destruct (queue_do_push p b _ _ n Hs1 Hr1) as (q' & Hpush & Hs2 & Hr2).
    rewrite Hpush in Htick. rewrite lset_lset_queue in *. injection Htick as <- <-.
    unfold deliver_reply in Hdel. cbn in Hdel. injection Hdel as <- <-. cbn.
    exists (upd qs p (rest ++ [b])). rewrite upd_eq in Hs2. split_and!; [|done| |].
    + eapply reps_ext; [|exact Hs2]. intros. apply upd_upd.
    + destruct Hf. by split; destruct p.
    + eapply tally_ext; [exact Ht| |by destruct p..]. intros id.
      pose proof (queued_upd qs p (rest ++ [b]) id) as Hq.
      rewrite Hqp, fmap_app, !fmap_cons, occ_app, !occ_cons in Hq.
      change (occ id (batch_id <$> [])) with 0%nat in Hq. lia.
  - by eapply execute_tracked.
Qed.

(** The confirmation of a function. *)
Lemma confirm_tracked env info id body c s acc rep n r s' :
  tracked s acc rep (n + 1) → s_config s = Some c → (∃ qs, reps s qs ∧ queued qs id = 0%nat) →
  process_callback env info id body s = Ok (r, s') →
  ∃ ms, resp_messages r = SubMsg_new <$> ms ∧
        tracked s' acc ((fst <$> omap (report_of c) ms) ++ rep) n.
Proof.
  intros (qs & Hs & Hr & Hf & Ht) Hc (qs' & Hs' & Hq') Hrun.
  assert (queued qs id = 0%nat) as Hq.
  { assert (∀ p, qs p = qs' p) as Heq by (intros p; eapply queue_rep_unique; [apply Hs|apply Hs']).
    unfold queued in *. by rewrite !Heq. }
  unfold process_callback in Hrun.
  apply Exec_bind_ok in Hrun as (pc & ? & [Hpc ->]%map_err_ok%map_load_ok & Hrun).
  apply Exec_bind_ok in Hrun as (? & ? & [_ <-]%fail_if_ok & Hrun).
  apply Exec_bind_ok in Hrun as (k & ? & [Hk ->]%map_load_ok & Hrun).
  apply Exec_bind_ok in Hrun as (ms & s1 & Hms & Hrun).
  apply Exec_bind_ok in Hrun as (? & ? & ->%map_remove_ok & [<- <-]%mret_ok).
  cbn in Hpc, Hk. pose proof (filed_pending _ Hf _ _ Hpc) as Hid.
  assert (handled c (env_contract env) id s qs n ms s1) as Hh.
  { case_match; [|by eapply handle_success_handled].
    apply Exec_bind_ok in Hms as (c' & ? & [Hc' ->]%item_load_ok & Hms).
    cbn in Hc'. rewrite Hc in Hc'. injection Hc' as <-. by eapply handle_failure_handled. }
  assert (awaiting s qs id = true) as Haw.
  { unfold awaiting. by rewrite Hpc, Hk, Hq. }
  pose proof (tally_count _ _ _ _ Ht id) as Hcount. pose proof (tally_once _ _ _ _ Ht id) as Ho.
  rewrite Haw in Hcount. exists ms. split; [done|].
  eapply handled_tracked; [exact Ht|done|done|done| |lia|lia|exact Hh|by right].
  apply (tally_stored _ _ _ _ Ht). by right.
Qed.

(** Messages that arrive after the expiration of their batch. *)
Lemma insert_expired env i id msgs sub p exp s c :
  s_config s = Some c → batch_expired exp env = true →
  ∃ m, insert_messages env i id msgs sub p exp s =
         Ok (mkResponse [SubMsg_new m]
               [("method", "insert_messages"); ("action", "expired_batch")],
             after_callback c id (Expired 0) s) ∧
       is_callback c (env_contract env) id (Expired 0) m.
Proof.
  intros Hc Hexp. unfold insert_messages. rewrite Hexp.
  unfold mbind, Exec_bind, item_load. cbn [lget CONFIG]. rewrite Hc.
  destruct (create_callback_run c id (Expired 0) (env_contract env) s) as (m & -> & Hm). eauto.
Qed.

Lemma queue_do_oob p i b s qs :
  reps s qs → (vec_len (qs p) < i)%N →
  queue_do p (QueueMap.insert_at i b) s = Err (from QueueMap.out_of_bounds).
Proof.
  intros Hs Hi. unfold queue_do, lift, zoom. by rewrite (insert_at_oob _ _ i b (Hs p) Hi).
Qed.
Lemma queue_do_remove_oob p i s qs :
  reps s qs → (vec_len (qs p) ≤ i)%N →
  queue_do p (QueueMap.remove_at i) s = Err (from QueueMap.out_of_bounds).
Proof.
  intros Hs Hi. unfold queue_do, lift, zoom. by rewrite (remove_at_oob _ _ i (Hs p) Hi).
Qed.

Lemma reported_at_once env c id res m s qs acc rep n :
  reps s qs → room s n → filed s → tally s qs acc rep → occ id acc = 0%nat →
  is_callback c (env_contract env) id res m →
  tracked (after_callback c id res s) (id :: acc) ((fst <$> omap (report_of c) [m]) ++ rep) n.
Proof.
  intros Hs Hr Hf Ht Hid Hm. cbn [omap list_omap]. rewrite (report_of_callback _ _ _ _ _ Hm).
  eapply (tracked_expired id); try done. apply same_core_callback.
Qed.

Lemma evict_tracked env i p c s qs acc rep n r s' :
  reps s qs → room s n → filed s → tally s qs acc rep → s_config s = Some c →
  evict_messages env i p s = Ok (r, s') →
  ∃ ms, resp_messages r = SubMsg_new <$> ms ∧
        tracked s' acc ((fst <$> omap (report_of c) ms) ++ rep) n.
Proof.
  intros Hs Hr Hf Ht Hc Hrun.
  destruct (qs p !! N.to_nat i) as [b|] eqn:Hb; cycle 1.
  { unfold evict_messages, mbind, Exec_bind in Hrun.
    rewrite (queue_do_remove_oob p i s qs Hs) in Hrun; [done|].
    apply lookup_ge_None in Hb. unfold vec_len. lia. }
  destruct (evict_run env i p s qs c b n Hs Hr Hc Hb) as (q & m & Hrun' & Hm & Hs' & Hr').
  rewrite Hrun' in Hrun. injection Hrun as <- <-. exists [m]. split; [done|]. cbn [omap list_omap].
  rewrite (report_of_callback _ _ _ _ _ Hm).
  apply take_drop_middle in Hb as Hsplit. rewrite delete_take_drop in Hs'.
  eapply (tracked_evict p); [exact Hf|exact Ht|symmetry; exact Hsplit|exact Hs'|exact Hr'|..];
    unfold evicted, after_callback; destruct (processor_domain c), p; reflexivity.
Qed.

(** The commands of the authorization module. *)
Lemma command_tracked env am c s acc rep n r s' :
  tracked s acc rep (n + 1) → s_config s = Some c →
  well_behaved s acc (AuthorizationModuleAction am) →
  match am with
  | EnqueueMsgs id msgs sub p exp => enqueue_messages env id msgs sub p exp
  | EvictMsgs i p => evict_messages env i p
  | InsertMsgs i id msgs sub p exp => insert_messages env i id msgs sub p exp
  | Pause => pause_processor
  | Resume => resume_processor
  end s = Ok (r, s') →
  ∃ ms, resp_messages r = SubMsg_new <$> ms ∧
        tracked s' (accepted (AuthorizationModuleAction am) ++ acc)
          ((fst <$> omap (report_of c) ms) ++ rep) n.
Proof.
  intros (qs & Hs & Hr & Hf & Ht) Hc Hwb Hrun.
  assert (room s n) as Hrn by (eapply room_le; [done|lia]).
  assert (tracked s acc rep n) as Htr by (by exists qs).
  destruct am as [id msgs sub p exp|i p|i id msgs sub p exp| |].
  - cbn in Hwb. rewrite Forall_singleton in Hwb. destruct (batch_expired exp env) eqn:Hexp.
    + destruct (enqueue_expired env id msgs sub p exp s c Hc Hexp) as (m & Hrun' & Hm).
      rewrite Hrun' in Hrun. injection Hrun as <- <-. exists [m]. split; [done|].
      by eapply reported_at_once.
    + destruct (enqueue_run env id msgs sub p exp s qs n Hs Hr Hexp) as (q & Hrun' & Hs' & Hr').
      rewrite Hrun' in Hrun. injection Hrun as <- <-. exists []. split; [done|].
      eapply (tracked_accept p (qs p) [] (mkMessageBatch id msgs sub p exp None)); try done.
      by rewrite app_nil_r.
  - by eapply evict_tracked.
  - cbn in Hwb. rewrite Forall_singleton in Hwb. destruct (batch_expired exp env) eqn:Hexp.
    + destruct (insert_expired env i id msgs sub p exp s c Hc Hexp) as (m & Hrun' & Hm).
      rewrite Hrun' in Hrun. injection Hrun as <- <-. exists [m]. split; [done|].
      by eapply reported_at_once.
    + destruct (decide (i ≤ vec_len (qs p))%N) as [Hi|Hi]; cycle 1.
      { unfold insert_messages, mbind, Exec_bind in Hrun. rewrite Hexp in Hrun.
        by rewrite (queue_do_oob p i _ s qs Hs) in Hrun by lia. }
      destruct (insert_run env i id msgs sub p exp s qs n Hs Hr Hexp Hi) as (q & Hrun' & Hs' & Hr').
      rewrite Hrun' in Hrun. injection Hrun as <- <-. exists []. split; [done|].
      eapply (tracked_accept p (take (N.to_nat i) (qs p)) (drop (N.to_nat i) (qs p))
        (mkMessageBatch id msgs sub p exp None)); try done.
      by rewrite take_drop.
  - exists []. unfold pause_processor in Hrun. run_inv. split; [done|].
    eapply tracked_frame; [|reflexivity|exact Htr]. split_and!; [by intros []|done..].
  - exists []. unfold resume_processor in Hrun. run_inv. split; [done|].
    eapply tracked_frame; [|reflexivity|exact Htr]. split_and!; [by intros []|done..].
Qed.

Lemma proxy_msg_no_report c polytone self s m s' :
  processor_domain c = ProcExternal polytone →
  create_proxy_msg polytone self s = Ok (m, s') → report_of c m = None ∧ s' = s.
Proof.
  intros Hd Hrun. unfold create_proxy_msg in Hrun. run_inv. split; [|done].
  unfold report_of. rewrite Hd, bool_decide_eq_true_2 by done.
  by match goal with H : to_json_binary (PolytoneExecute _ _ _) = Ok _ |- _ =>
    rewrite (from_to_json _ _ H) end.
Qed.

(** The messages that do not concern any batch. *)
Lemma polytone_callback_frame env info cm s r s' :
  process_polytone_callback env info cm s = Ok (r, s') → resp_messages r = [] ∧ same_core s s'.
Proof.
  intros Hrun. unfold process_polytone_callback in Hrun. run_case;
    (split; [done|]; split_and!; [by intros []|done..]).
Qed.
Lemma retry_callback_frame env id s r s' :
  retry_callback env id s = Ok (r, s') →
  (∃ m, resp_messages r = [SubMsg_new m]) ∧ same_core s s'.
Proof.
  intros Hrun. unfold retry_callback in Hrun. run_inv. callback_inv.
  split; [by eexists|apply same_core_callback].
Qed.
Lemma retry_bridge_frame env c s r s' :
  s_config s = Some c → retry_bridge_creation env s = Ok (r, s') →
  ∃ m, resp_messages r = [SubMsg_new m] ∧ report_of c m = None ∧ same_core s s'.
Proof.
  intros Hc Hrun. unfold retry_bridge_creation in Hrun.
  apply Exec_bind_ok in Hrun as (c' & ? & [Hc' ->]%item_load_ok & Hrun).
  cbn in Hc'. rewrite Hc in Hc'. injection Hc' as <-.
  destruct (processor_domain c) as [|polytone] eqn:Hd; [by run_inv|].
  apply Exec_bind_ok in Hrun as (? & ? & [_ <-]%fail_if_ok & Hrun).
  apply Exec_bind_ok in Hrun as (m & ? & Hm & Hrun).
  destruct (proxy_msg_no_report c polytone _ _ _ _ Hd Hm) as [Hno ->].
  apply Exec_bind_ok in Hrun as (? & ? & ->%item_save_ok & [<- <-]%mret_ok).
  exists m. split_and!; [done|done|]. split_and!; [by intros []|done..].
Qed.

Lemma life_step_tracked n s acc rep s' acc' rep' :
  life_step (s, acc, rep) (s', acc', rep') → tracked s acc rep (n + 1) → tracked s' acc' rep' n.
Proof.
  intros Hstep Htr.
  inversion Hstep as [env info msg outcome out ?? ?? c Hc Hself Hwb Hrun]; subst; clear Hstep.
  unfold run_tx in Hrun. apply Exec_bind_ok in Hrun as (r & s1 & Hex & Hdel).
  assert (∀ ms, resp_messages r = SubMsg_new <$> ms → out = SubMsg_new <$> ms ∧ s' = s1) as Hnew.
  { intros ms Hms. rewrite (deliver_new env outcome ms r s1 Hms) in Hdel. by injection Hdel as <- <-. }
  assert (same_core s s1 → tracked s1 acc rep n) as Hframe.
  { intros Hcore. eapply tracked_frame; [done| |done]. lia. }
  destruct msg as [am|[|id|]|[id body|b]|cm]; simpl in Hex.
  - apply Exec_bind_ok in Hex as (c' & ? & [_ ->]%item_load_ok & Hex).
    apply Exec_bind_ok in Hex as (? & ? & [_ <-]%fail_if_ok & Hex).
    destruct (command_tracked env am c s acc rep n r s1 Htr Hc Hwb) as (ms & Hms & Htr');
      [by destruct am|].
    destruct (Hnew ms Hms) as [-> ->]. unfold reported. by rewrite reports_new.
  - by eapply tick_tracked.
  - destruct (retry_callback_frame _ _ _ _ _ Hex) as ((m & Hm) & Hcore).
    destruct (Hnew [m] Hm) as [_ ->]. by apply Hframe.
  - destruct (retry_bridge_frame _ c _ _ _ Hc Hex) as (m & Hm & Hno & Hcore).
    destruct (Hnew [m] Hm) as [-> ->]. cbn. rewrite Hno. by apply Hframe.
  - destruct (confirm_tracked env info id body c s acc rep n r s1 Htr Hc Hwb Hex) as (ms & Hms & Htr').
    destruct (Hnew ms Hms) as [-> ->]. unfold reported. by rewrite reports_new.
  - unfold execute_atomic in Hex. apply Exec_bind_ok in Hex as (? & ? & [Hb _]%fail_if_ok & _).
    by apply bool_decide_neq_false in Hb.
  - destruct (polytone_callback_frame _ _ _ _ _ _ Hex) as [Hm Hcore].
    destruct (Hnew [] Hm) as [-> ->]. by apply Hframe.
Qed.

Lemma life_run_tracked k s acc rep s' acc' rep' n :
  nsteps life_step k (s, acc, rep) (s', acc', rep') → tracked s acc rep (N.of_nat k + n) →
  tracked s' acc' rep' n.
Proof.
  revert s acc rep. induction k as [|k IH]; intros s acc rep Hrun Htr.
  - inversion Hrun; subst. done.
  - inversion Hrun as [|? ? [[s1 acc1] rep1] ? Hstep Hrest]; subst.
    eapply IH; [exact Hrest|]. eapply life_step_tracked; [exact Hstep|].
    by replace (N.of_nat k + n + 1)%N with (N.of_nat (S k) + n)%N by lia.
Qed.

Lemma instantiate_tracked env info im r s n :
  instantiate env info im empty_storage = Ok (r, s) → (n + 2 ≤ u64_max)%N → tracked s [] [] n.
Proof.
  intros Hrun Hn. assert (same_core empty_storage s) as (Hq & Hb & Hx & Hp).
  { unfold instantiate in Hrun. run_case; split_and!; by try intros []. }
  exists (λ _, []). split_and!.
  - intros p. rewrite Hq. destruct p; apply new_rep.
  - intros p. rewrite Hq. destruct p; cbn; lia.
  - split; intros id x; [rewrite Hb|rewrite Hp]; done.
  - split; intros id; rewrite ?Hb, ?Hx; cbn; [|intros [?|?]|lia|by intros []].
    + unfold awaiting. by rewrite Hp.
    + lia.
    + unfold awaiting in *. by rewrite Hp in *.
Qed.
End Transactions.

(** C7 Every batch is reported exactly once.  Along any run of the processor from its
    instantiation, in which the authorization contract gives every execution a new
    id and confirmations come for calls that succeeded, each execution id was
    accepted at most once, and is then in exactly one place: in one queue, once;
    or waiting for a confirmation; or reported to the authorization contract, once.
    Nothing else is ever queued, awaited or reported, and whatever is not reported
    yet is stored, so that no batch is lost, duplicated or reported twice. *)
Theorem batches_reported_exactly_once
    `{Platform} `{SerdeJson} `{JsonCodec AuthorizationExecuteMsg} `{JsonCodec ProcessorExecuteMsg}
    `{JsonCodec PolytoneExecuteMsg} `{JsonCodec ProcPolytoneCallbackMsg}
    `{!JsonCodecLaws AuthorizationExecuteMsg} `{!JsonCodecLaws ProcessorExecuteMsg}
    `{!JsonCodecLaws PolytoneExecuteMsg} `{!JsonCodecLaws ProcPolytoneCallbackMsg}
    (env : Env) (info : MessageInfo) (im : ProcInstantiateMsg) (r : Response) (s0 s : storage)
    (k : nat) (acc rep : list N) :
  instantiate env info im empty_storage = Ok (r, s0) →
  nsteps life_step k (s0, [], []) (s, acc, rep) → (N.of_nat k + 2 ≤ u64_max)%N →
  ∃ qs, reps s qs ∧ ∀ id,
    (occ id acc ≤ 1)%nat ∧
    occ id acc = (occ id rep + queued qs id + (if awaiting s qs id then 1 else 0))%nat ∧
    ((0 < queued qs id)%nat ∨ awaiting s qs id = true → is_Some (s_execution_id_to_batch s !! id)).
Proof.
  intros Hinit Hrun Hk. eapply instantiate_tracked in Hinit; [|exact Hk].
  eapply (life_run_tracked k _ _ _ _ _ _ 0) in Hrun; [|by rewrite N.add_0_r].
  destruct Hrun as (qs & Hs & _ & _ & [Hc Hst Ho _]). exists qs. split; [done|]. eauto.
Qed.
