(* ===== verification/ProcessorReports.v ===== *)
(** * Processor: what leaves the processor of the main domain

    A transaction of a processor that is wired to its authorization contract on the
    same chain ends with at most one message, the final report of an execution, and
    keeps the wiring. *)
From S2P Require Import Prelude Platform Types Queue Processor ProcessorFacts ProcessorLifecycle.
Import Processor.

(** The results a processor reports: never one that is still open, and never a
    timeout, which only the authorization contract records. *)
Definition final (r : ExecutionResult) : bool :=
  match r with
  | Success | Rejected _ | PartiallyExecuted _ _ | RemovedByOwner | Expired _ => true
  | InProcess | Timeout _ | UnexpectedError _ => false
  end.

(** The wiring of the processor: its authorization contract, its domain and the
    reports on their way over a bridge. *)
Definition link (s : storage) :=
  ((λ c, (authorization_contract c, processor_domain c)) <$> s_config s,
   s_pending_polytone_callbacks s).
Definition on_main (auth : Addr) (s : storage) : Prop := link s = (Some (auth, ProcMain), ∅).

Lemma link_frame s s' :
  s_config s' = s_config s → s_pending_polytone_callbacks s' = s_pending_polytone_callbacks s →
  link s' = link s.
Proof. unfold link. by intros -> ->. Qed.
Lemma on_main_config auth s :
  on_main auth s → ∃ c, s_config s = Some c ∧ authorization_contract c = auth ∧
    processor_domain c = ProcMain ∧ s_pending_polytone_callbacks s = ∅.
Proof.
  unfold on_main, link. destruct (s_config s) as [c|]; [|done]. intros [= Ha Hd Hp]. by exists c.
Qed.
Lemma config_on_main auth s c :
  s_config s = Some c → authorization_contract c = auth → processor_domain c = ProcMain →
  s_pending_polytone_callbacks s = ∅ → on_main auth s.
Proof. unfold on_main, link. intros -> <- Hd ->. simpl. by rewrite Hd. Qed.

Lemma queue_do_frame {A} p (m : Exec (QueueMap.storage MessageBatch) StdError A) s a s' :
  queue_do p m s = Ok (a, s') → rest_of s' = rest_of s.
Proof.
  unfold queue_do, lift, zoom. destruct (m _) as [[x q]| |]; [|done..]. intros [= <- <-].
  by rewrite rest_of_lset.
Qed.
Lemma rest_of_link s s' : rest_of s' = rest_of s → link s' = link s.
Proof. unfold rest_of. intros [= _ Hc _ _ _ Hp]. by apply link_frame. Qed.
Lemma queue_do_link {A} p (m : Exec (QueueMap.storage MessageBatch) StdError A) s a s' :
  queue_do p m s = Ok (a, s') → link s' = link s.
Proof. intros Hq%queue_do_frame. by apply rest_of_link. Qed.

Section MainDomain.
Context `{HP : Platform} `{HS : SerdeJson}.
Context `{HA : JsonCodec AuthorizationExecuteMsg} `{HE : JsonCodec ProcessorExecuteMsg}.
Context `{HPo : JsonCodec PolytoneExecuteMsg} `{HC : JsonCodec ProcPolytoneCallbackMsg}.
Implicit Types (s : storage) (env : Env) (auth : Addr).

(** The report [res] of the execution [id] to the authorization contract. *)
Definition reports auth (id : N) (res : ExecutionResult) (m : CosmosMsg) : Prop :=
  final res = true ∧ ∃ payload,
    to_json_binary (InternalAuthorizationAction (ProcessorCallback id res)) = Ok payload ∧
    m = CosmosWasm (WasmExecute auth payload []).
(** At most one report leaves, and the wiring is kept. *)
Definition emits auth s (ms : list CosmosMsg) s' : Prop :=
  link s' = link s ∧ (ms = [] ∨ ∃ id res m, ms = [m] ∧ reports auth id res m).

Lemma emits_nothing auth s s' : link s' = link s → emits auth s [] s'.
Proof. intros Hl. split; [done|by left]. Qed.
Lemma create_callback_main c id res self s m s' :
  processor_domain c = ProcMain → final res = true →
  create_callback_message c id res self s = Ok (m, s') →
  s' = s ∧ reports (authorization_contract c) id res m.
Proof.
  intros Hd Hf Hrun. unfold create_callback_message in Hrun. rewrite Hd in Hrun. run_inv.
  split; [done|]. split; [done|]. eauto.
Qed.
Ltac main_callback :=
  match goal with
  | H : create_callback_message _ _ _ _ _ = Ok _ |- _ =>
      apply create_callback_main in H as [-> ?]; [|done|done]
  end.
Ltac one_report := split; [done|right; eauto].

Lemma handle_success_emits auth k id b self s ms s' :
  on_main auth s → handle_successful_non_atomic_callback k id b [] self s = Ok (ms, s') →
  emits auth s ms s'.
Proof.
  intros (c & Hc & <- & Hd & Hp)%on_main_config Hrun.
  unfold handle_successful_non_atomic_callback in Hrun. run_inv. case_match.
  - run_inv. main_callback. run_inv. one_report.
  - run_inv. match goal with H : queue_do _ _ _ = _ |- _ => apply queue_do_link in H as Hq end.
    apply emits_nothing. by rewrite Hq.
Qed.
Lemma put_back_link b i rl block s u s' :
  put_back_into_queue b i rl block s = Ok (u, s') → link s' = link s.
Proof.
  unfold put_back_into_queue. intros. run_inv.
  match goal with H : queue_do _ _ _ = _ |- _ => apply queue_do_link in H as Hq end. by rewrite <-Hq.
Qed.
Lemma handle_failure_emits auth id b error c block index self s ms s' :
  on_main auth s → s_config s = Some c →
  handle_unsuccessful_callback id b [] error c block index self s = Ok (ms, s') →
  emits auth s ms s'.
Proof.
  intros (c' & Hc & <- & Hd & Hp)%on_main_config Hc' Hrun. simplify_eq.
  unfold handle_unsuccessful_callback in Hrun.
  destruct (match batch_subroutine b with Atomic _ => _ | NonAtomic _ => _ end) as [rl|].
  2: run_inv; main_callback; run_inv; one_report.
  destruct (times rl) as [|n]; [|case_match].
  1, 3: apply Exec_bind_ok in Hrun as (? & ? & Hput%put_back_link & [<- <-]%mret_ok);
    by apply emits_nothing.
  run_inv. match goal with H : create_callback_message _ _ _ _ _ = Ok _ |- _ =>
    apply create_callback_main in H as [-> ?]; [|done|by case_match] end.
  run_inv. one_report.
Qed.
Lemma reply_emits auth env rep s r s' :
  on_main auth s → reply env rep s = Ok (r, s') →
  ∃ ms, resp_messages r = SubMsg_new <$> ms ∧ emits auth s ms s'.
Proof.
  intros Hm Hrun. pose proof Hm as (c & Hc & <- & Hd & Hp)%on_main_config.
  unfold reply in Hrun. run_inv.
  match goal with H : _ = Ok (?ms, _) |- _ => exists ms end. split; [done|].
  destruct (s_non_atomic_batch_current_function_index s !! _), (reply_result rep).
  - run_inv. case_match; [by eapply handle_success_emits|]. run_inv. by apply emits_nothing.
  - by eapply handle_failure_emits.
  - unfold handle_successful_atomic_callback in *. run_inv. main_callback. one_report.
  - by eapply handle_failure_emits.
Qed.
(** A handler that answers with messages without a reply. *)
Definition answers auth s (r : Response) s' : Prop :=
  ∃ ms, resp_messages r = SubMsg_new <$> ms ∧ emits auth s ms s'.
Lemma answers_nothing auth s r s' : resp_messages r = [] → link s' = link s → answers auth s r s'.
Proof. intros Hr Hl. exists []. split; [done|by apply emits_nothing]. Qed.
Lemma answers_deliver auth env outcome s r s1 out s' :
  answers auth s r s1 → deliver_reply env outcome r s1 = Ok (out, s') →
  ∃ ms, out = SubMsg_new <$> ms ∧ emits auth s ms s'.
Proof.
  intros (ms & Hms & He) Hdel. rewrite (deliver_new env outcome ms r s1 Hms) in Hdel.
  injection Hdel as <- <-. eauto.
Qed.

Lemma command_answers auth env am s r s' :
  on_main auth s →
  match am with
  | EnqueueMsgs id msgs sub p exp => enqueue_messages env id msgs sub p exp
  | EvictMsgs i p => evict_messages env i p
  | InsertMsgs i id msgs sub p exp => insert_messages env i id msgs sub p exp
  | Pause => pause_processor
  | Resume => resume_processor
  end s = Ok (r, s') → answers auth s r s'.
Proof.
  intros (c & Hc & <- & Hd & Hp)%on_main_config Hrun.
  destruct am; unfold enqueue_messages, insert_messages, evict_messages, pause_processor,
    resume_processor in Hrun.
  1, 3: case_match; run_inv; [main_callback; eexists; split; [done|]; one_report|];
    match goal with H : queue_do _ _ _ = _ |- _ => apply queue_do_link in H as Hq end;
    apply answers_nothing; [done|by rewrite <-Hq].
  - apply Exec_bind_ok in Hrun as (b & s1 & Hq%queue_do_frame & Hrun).
    injection Hq as _ Hcfg _ _ _ Hpp. destruct b; run_inv.
    2: apply answers_nothing; [done|by apply link_frame].
    rewrite Hc in Hcfg. simplify_eq. main_callback. eexists. split; [done|].
    split; [by apply link_frame; simpl; congruence|right; eauto].
  - run_inv. apply answers_nothing; [done|]. unfold link. simpl. by rewrite Hc.
  - run_inv. apply answers_nothing; [done|]. unfold link. simpl. by rewrite Hc.
Qed.
Lemma confirm_answers auth env info id body s r s' :
  on_main auth s → process_callback env info id body s = Ok (r, s') → answers auth s r s'.
Proof.
  intros Hm Hrun. unfold process_callback in Hrun.
  apply Exec_bind_ok in Hrun as (pc & ? & [_ ->]%map_err_ok%map_load_ok & Hrun).
  apply Exec_bind_ok in Hrun as (? & ? & [_ <-]%fail_if_ok & Hrun).
  apply Exec_bind_ok in Hrun as (k & ? & [_ ->]%map_load_ok & Hrun).
  apply Exec_bind_ok in Hrun as (ms & s1 & Hms & Hrun).
  apply Exec_bind_ok in Hrun as (? & ? & ->%map_remove_ok & [<- <-]%mret_ok).
  assert (emits auth s ms s1) as [Hl He].
  { case_match; [|by eapply handle_success_emits].
    apply Exec_bind_ok in Hms as (c & ? & [Hc ->]%item_load_ok & Hms). by eapply handle_failure_emits. }
  exists ms. split; [done|]. split; [by rewrite <-Hl|done].
Qed.
Lemma tick_answers auth env outcome s r s1 out s' :
  on_main auth s → process_tick env s = Ok (r, s1) → deliver_reply env outcome r s1 = Ok (out, s') →
  ∃ ms, out = SubMsg_new <$> ms ∧ emits auth s ms s'.
Proof.
  intros Hm Hrun Hdel. unfold process_tick in Hrun.
  apply Exec_bind_ok in Hrun as (c & ? & [_ ->]%item_load_ok & Hrun).
  apply Exec_bind_ok in Hrun as (? & ? & [_ <-]%fail_if_ok & Hrun).
  apply Exec_bind_ok in Hrun as (len & s2 & Hq1%queue_do_link & Hrun).
  apply Exec_bind_ok in Hrun as (b & s3 & Hq2%queue_do_link & Hrun).
  assert (on_main auth s3) as Hm3 by (unfold on_main in *; congruence).
  assert (∀ ms, emits auth s3 ms s' → emits auth s ms s') as Hback.
  { intros ms [Hl He]. split; [congruence|done]. }
  assert (answers auth s3 r s1 → ∃ ms, out = SubMsg_new <$> ms ∧ emits auth s ms s') as Hans.
  { intros Ha. destruct (answers_deliver auth env outcome _ _ _ _ _ Ha Hdel) as (ms & -> & He). eauto. }
  destruct b as [b|]; [|done]. case_match; [|case_match].
  - apply Hans. pose proof Hm3 as (c3 & Hc & <- & Hd & Hp)%on_main_config. unfold tick_expired in Hrun.
    destruct (batch_subroutine b); run_inv; main_callback; (eexists; split; [done|]; one_report).
  - apply Hans. run_inv. match goal with H : queue_do _ _ _ = _ |- _ => apply queue_do_link in H end.
    by apply answers_nothing.
  - assert (s_config s1 = s_config s3 ∧
      s_pending_polytone_callbacks s1 = s_pending_polytone_callbacks s3) as [Hc Hp].
    { unfold tick_execute in Hrun. run_case; by simplify_eq. }
    destruct (tick_execute_ok env b s3 r s1 Hrun) as ((m & Hr) & _).
    unfold deliver_reply in Hdel. rewrite Hr in Hdel. cbn [SubMsg_reply_always sub_reply_on] in Hdel.
    apply Exec_bind_ok in Hdel as (r' & s4 & Hrep & [<- <-]%mret_ok).
    pose proof (link_frame _ _ Hc Hp) as Hl.
    assert (on_main auth s1) as Hm1 by (unfold on_main in *; congruence).
    destruct (reply_emits auth env _ s1 r' s4 Hm1 Hrep) as (ms & -> & Hl4 & He).
    exists ms. split; [done|]. apply Hback. split; [congruence|done].
Qed.

(** A whole transaction on the processor of the main domain. *)
Lemma run_tx_emits auth env info msg outcome s out s' :
  on_main auth s → info_sender info ≠ env_contract env →
  run_tx env info msg outcome s = Ok (out, s') →
  ∃ ms, out = SubMsg_new <$> ms ∧ emits auth s ms s'.
Proof.
  intros Hm Hself Hrun. pose proof Hm as (c & Hc & Ha & Hd & Hp)%on_main_config.
  unfold run_tx in Hrun. apply Exec_bind_ok in Hrun as (r & s1 & Hex & Hdel).
  destruct msg as [am|[|id|]|[id body|b]|cm]; simpl in Hex; [|by eapply tick_answers|..];
    (eapply answers_deliver; [|exact Hdel]).
  - apply Exec_bind_ok in Hex as (c' & ? & [_ ->]%item_load_ok & Hex).
    apply Exec_bind_ok in Hex as (? & ? & [_ <-]%fail_if_ok & Hex).
    eapply (command_answers _ _ am); [done|]. by destruct am.
  - unfold retry_callback in Hex. run_inv. by rewrite Hp in *.
  - unfold retry_bridge_creation in Hex. run_inv. by rewrite Hd in *.
  - by eapply confirm_answers.
  - unfold execute_atomic in Hex. apply Exec_bind_ok in Hex as (? & ? & [Hb _]%fail_if_ok & _).
    by apply bool_decide_neq_false in Hb.
  - unfold process_polytone_callback in Hex. run_inv. by rewrite Hd in *.
Qed.
(** Only the authorization contract hands batches to the processor. *)
Lemma run_tx_accepted auth env info msg outcome s out s' :
  on_main auth s → info_sender info ≠ auth →
  run_tx env info msg outcome s = Ok (out, s') → accepted msg = [].
Proof.
  intros (c & Hc & <- & Hd & _)%on_main_config Hauth Hrun.
  unfold run_tx in Hrun. apply Exec_bind_ok in Hrun as (r & s1 & Hex & _).
  destruct msg as [am| | |]; [|done..]. simpl in Hex. run_inv. rewrite Hd in *.
  by match goal with H : bool_decide (_ ≠ _) = false |- _ => apply bool_decide_neq_false in H end.
Qed.
End MainDomain.
