(* ===== verification/AuthorizationUtils.v ===== *)
(** * Conversions and cross-domain messages

    The methods of [packages/authorization-utils] that turn what an owner sends
    into what the authorization contract stores, the message builders of
    [packages/gmp-utils], the encoder messages of [packages/encoder-utils], and at the end
    the builders of authorizations. *)
From Stdlib Require Import Strings.Byte Strings.Ascii.
From S2P Require Import Prelude Platform Types.

Section Conversions.
Context `{Platform}.

(** ** [authorization.rs] and [zk_authorization.rs]

    [addr_validate] is unwrapped: an invalid address is a panic, here [None]. *)
Definition into_type_validated (p : PermissionTypeInfo) : option PermissionType :=
  match p with
  | WithCallLimitInfo permissions =>
      WithCallLimit <$>
        mapM (λ p : string * N,
                addr ← unwrap_result (addr_validate p.1); Some (addr, p.2)) permissions
  | WithoutCallLimitInfo permissions =>
      WithoutCallLimit <$> mapM (λ a, unwrap_result (addr_validate a)) permissions
  end.
Definition into_mode_validated (m : AuthorizationModeInfo) : option AuthorizationMode :=
  match m with
  | PermissionedInfo permission_type => Permissioned <$> into_type_validated permission_type
  | PermissionlessInfo => Some Permissionless
  end.
Definition into_authorization (info : AuthorizationInfo) (block_info : BlockInfo)
    : option Authorization :=
  expiration ← match ai_duration info with
               | Forever => Some Never
               | Seconds seconds => AtTime <$> timestamp_plus_seconds (block_time block_info) seconds
               | Blocks blocks => AtHeight <$> checked_add u64_max (block_height block_info) blocks
               end;
  mode ← into_mode_validated (ai_mode info);
  Some (mkAuthorization (ai_label info) mode (ai_not_before info) expiration
          (default 1%N (ai_max_concurrent_executions info)) (ai_subroutine info)
          (default Medium (ai_priority info)) Enabled).
Definition into_zk_authorization (info : ZkAuthorizationInfo) : option ZkAuthorization :=
  mode ← into_mode_validated (zi_mode info);
  Some (mkZkAuthorization (zi_label info) mode (zi_registry info) (zi_vk info)
          (zi_verification_route info) (zi_metadata_hash info)
          (zi_validate_last_block_execution info) Enabled).

(** ** [msg.rs] *)
Definition to_validated_encoder (e : EncoderInfo) : result StdError Encoder :=
  addr ← addr_validate (info_broker_address e);
  mret (mkEncoder addr (info_encoder_version e)).
Definition to_validated_hyperlane_connector (h : HyperlaneConnectorInfo)
    : result StdError HyperlaneConnector :=
  addr ← addr_validate (hi_mailbox h);
  mret (mkHyperlaneConnector addr (hi_domain_id h)).
Definition to_validated_evm_bridge (b : EvmBridgeInfo) : result StdError EvmBridge :=
  match b with
  | HyperlaneInfo hyperlane_info =>
      c ← to_validated_hyperlane_connector hyperlane_info;
      mret (Hyperlane_ c)
  end.
Definition into_execution_environment (e : ExecutionEnvironmentInfo)
    : result StdError ExecutionEnvironment :=
  match e with
  | EnvCosmwasmInfo (PolytoneInfo polytone_info) =>
      note ← addr_validate (ni_address (ci_polytone_note polytone_info));
      proxy ← addr_validate (ci_polytone_proxy polytone_info);
      mret (EnvCosmwasm (Polytone_ (mkPolytoneConnectors
        (mkPolytoneNote note (ni_timeout_seconds (ci_polytone_note polytone_info))
           ProxyPendingResponse) proxy)))
  | EnvEvmInfo encoder_info bridge_info =>
      encoder ← to_validated_encoder encoder_info;
      bridge ← to_validated_evm_bridge bridge_info;
      mret (EnvEvm encoder bridge)
  end.
Definition into_external_domain_validated (d : ExternalDomainInfo)
    : result StdError ExternalDomain :=
  environment ← into_execution_environment (di_execution_environment d);
  mret (mkExternalDomain (di_name d) environment (di_processor d)).

(** ** [gmp-utils/polytone.rs] *)
Definition create_msg_for_polytone `{JsonCodec PolytoneExecuteMsg} (polytone_note : string)
    (timeout_seconds : N) (processor : string) (execute_msg : Binary)
    (callback_request : option CallbackRequest) : result StdError CosmosMsg :=
  msg ← to_json_binary (PolytoneExecute [CosmosWasm (WasmExecute processor execute_msg [])]
                          callback_request timeout_seconds);
  mret (CosmosWasm (WasmExecute polytone_note msg [])).

(** ** [gmp-utils/hyperlane.rs]

    Strings are bytes.  [to_lowercase] is written for ASCII; a character outside
    ASCII is rejected by [hex_from_hex] before and after lowering. *)
Definition lower_ascii (a : ascii) : ascii :=
  let n := N_of_ascii a in
  if ((65 <=? n) && (n <=? 90))%N then ascii_of_N (n + 32) else a.
Fixpoint to_lowercase (s : string) : string :=
  match s with
  | EmptyString => EmptyString
  | String a s => String (lower_ascii a) (to_lowercase s)
  end.
(** [trim_start_matches] removes every leading repetition of the prefix. *)
Fixpoint trim_start_0x (s : string) : string :=
  match s with
  | String "0" (String "x" rest) => trim_start_0x rest
  | _ => s
  end.
(** [format!("{s:0>n}")]. *)
Fixpoint zeros (n : nat) : string :=
  match n with O => EmptyString | S n => String "0" (zeros n) end.
Definition pad_start (n : nat) (s : string) : string :=
  (zeros (n - String.length s) +:+ s)%string.
Definition format_address_for_hyperlane (address : string) : result StdError Binary :=
  let address_hex := to_lowercase (trim_start_0x address) in
  let padded_address := pad_start 64 address_hex in
  hex_from_hex padded_address.
Definition create_msg_for_hyperlane `{JsonCodec HyperlaneExecuteMsg} (mailbox : Addr)
    (domain_id : N) (processor : string) (execute_msg : Binary) : result StdError CosmosMsg :=
  recipient_addr ← format_address_for_hyperlane processor;
  msg ← to_json_binary (Dispatch (mkDispatchMsg domain_id recipient_addr execute_msg None None));
  mret (CosmosWasm (WasmExecute mailbox msg [])).

(** ** [encoder-utils/msg.rs] *)
Definition convert_into_encoder_message (authorization : Authorization) (index : nat)
    (msg : ProcessorMessage) : result StdError EncoderMessage :=
  match msg with
  | EvmCall msg =>
      match get_function_by_index (subroutine authorization) (N.of_nat index) with
      | None => Err (GenericErr "Function index not found")
      | Some function =>
          match message_type (fn_message_details function) with
          | TyEvmCall _ lib => Ok (mkEncoderMessage lib msg)
          | _ => Err (GenericErr "Invalid message type")
          end
      end
  | EvmRawCall msg => Ok (mkEncoderMessage "no_library" msg)
  | _ => Err (GenericErr "Message type not supported")
  end.
Definition convert_into_encoder_messages (messages : list ProcessorMessage)
    (authorization : Authorization) : result StdError (list EncoderMessage) :=
  mapM (λ im : nat * ProcessorMessage, convert_into_encoder_message authorization im.1 im.2)
    (zip (seq 0 (length messages)) messages).
End Conversions.

(** * Builders of authorizations ([authorization-utils/src/builders.rs])

    The program manager, the scripts and the tests describe authorizations with them.  A
    builder is a value that its methods consume and return. *)

Module Builders.
(** ** [AuthorizationBuilder] *)
Record AuthorizationBuilder := mkAuthorizationBuilder {
  ab_label : string;
  ab_mode : AuthorizationModeInfo;
  ab_not_before : Expiration;
  ab_duration : AuthorizationDuration;
  ab_max_concurrent_executions : option N;
  ab_subroutine : Subroutine;
  ab_priority : option Priority;
}.
Definition AuthorizationBuilder_new : AuthorizationBuilder :=
  mkAuthorizationBuilder "authorization" PermissionlessInfo Never Forever None
    (Atomic (mkAtomicSubroutine [] None None)) None.
Definition with_label (label : string) (self : AuthorizationBuilder) : AuthorizationBuilder :=
  mkAuthorizationBuilder label (ab_mode self) (ab_not_before self) (ab_duration self)
    (ab_max_concurrent_executions self) (ab_subroutine self) (ab_priority self).
Definition with_mode (mode : AuthorizationModeInfo) (self : AuthorizationBuilder) : AuthorizationBuilder :=
  mkAuthorizationBuilder (ab_label self) mode (ab_not_before self) (ab_duration self)
    (ab_max_concurrent_executions self) (ab_subroutine self) (ab_priority self).
Definition with_not_before (not_before : Expiration) (self : AuthorizationBuilder) : AuthorizationBuilder :=
  mkAuthorizationBuilder (ab_label self) (ab_mode self) not_before (ab_duration self)
    (ab_max_concurrent_executions self) (ab_subroutine self) (ab_priority self).
Definition with_duration (duration : AuthorizationDuration) (self : AuthorizationBuilder) : AuthorizationBuilder :=
  mkAuthorizationBuilder (ab_label self) (ab_mode self) (ab_not_before self) duration
    (ab_max_concurrent_executions self) (ab_subroutine self) (ab_priority self).
Definition with_max_concurrent_executions (n : N) (self : AuthorizationBuilder) : AuthorizationBuilder :=
  mkAuthorizationBuilder (ab_label self) (ab_mode self) (ab_not_before self) (ab_duration self)
    (Some n) (ab_subroutine self) (ab_priority self).
Definition with_subroutine (subroutine : Subroutine) (self : AuthorizationBuilder) : AuthorizationBuilder :=
  mkAuthorizationBuilder (ab_label self) (ab_mode self) (ab_not_before self) (ab_duration self)
    (ab_max_concurrent_executions self) subroutine (ab_priority self).
Definition with_priority (priority : Priority) (self : AuthorizationBuilder) : AuthorizationBuilder :=
  mkAuthorizationBuilder (ab_label self) (ab_mode self) (ab_not_before self) (ab_duration self)
    (ab_max_concurrent_executions self) (ab_subroutine self) (Some priority).
Definition AuthorizationBuilder_build (self : AuthorizationBuilder) : AuthorizationInfo :=
  mkAuthorizationInfo (ab_label self) (ab_mode self) (ab_not_before self) (ab_duration self)
    (ab_max_concurrent_executions self) (ab_subroutine self) (ab_priority self).

(** ** Subroutines *)
Record AtomicSubroutineBuilder := mkAtomicSubroutineBuilder {
  asb_functions : list AtomicFunction;
  asb_retry_logic : option RetryLogic;
  asb_expiration_time : option N;
}.
Definition AtomicSubroutineBuilder_new : AtomicSubroutineBuilder := mkAtomicSubroutineBuilder [] None None.
Definition with_function (f : AtomicFunction) (self : AtomicSubroutineBuilder) : AtomicSubroutineBuilder :=
  mkAtomicSubroutineBuilder (asb_functions self ++ [f]) (asb_retry_logic self) (asb_expiration_time self).
Definition with_retry_logic (r : RetryLogic) (self : AtomicSubroutineBuilder) : AtomicSubroutineBuilder :=
  mkAtomicSubroutineBuilder (asb_functions self) (Some r) (asb_expiration_time self).
Definition with_expiration_time (t : N) (self : AtomicSubroutineBuilder) : AtomicSubroutineBuilder :=
  mkAtomicSubroutineBuilder (asb_functions self) (asb_retry_logic self) (Some t).
Definition AtomicSubroutineBuilder_build (self : AtomicSubroutineBuilder) : Subroutine :=
  Atomic (mkAtomicSubroutine (asb_functions self) (asb_retry_logic self) (asb_expiration_time self)).
Record NonAtomicSubroutineBuilder := mkNonAtomicSubroutineBuilder {
  nsb_functions : list NonAtomicFunction;
  nsb_expiration_time : option N;
}.
Definition NonAtomicSubroutineBuilder_new : NonAtomicSubroutineBuilder := mkNonAtomicSubroutineBuilder [] None.
Definition with_non_atomic_function (f : NonAtomicFunction) (self : NonAtomicSubroutineBuilder)
    : NonAtomicSubroutineBuilder := mkNonAtomicSubroutineBuilder (nsb_functions self ++ [f]) (nsb_expiration_time self).
Definition with_non_atomic_expiration_time (t : N) (self : NonAtomicSubroutineBuilder) : NonAtomicSubroutineBuilder :=
  mkNonAtomicSubroutineBuilder (nsb_functions self) (Some t).
Definition NonAtomicSubroutineBuilder_build (self : NonAtomicSubroutineBuilder) : Subroutine :=
  NonAtomic (mkNonAtomicSubroutine (nsb_functions self) (nsb_expiration_time self)).

(** ** Functions; a builder of a function has the fields of the function *)
Record AtomicFunctionBuilder := mkAtomicFunctionBuilder {
  afb_domain : Domain;
  afb_message_details : MessageDetails;
  afb_contract_address : LibraryAccountType;
}.
Definition AtomicFunctionBuilder_new : AtomicFunctionBuilder :=
  mkAtomicFunctionBuilder DomainMain (mkMessageDetails TyCosmwasmExecuteMsg (mkMessage "method" None)) (LibAddr "address").
Definition with_domain (d : Domain) (self : AtomicFunctionBuilder) : AtomicFunctionBuilder :=
  mkAtomicFunctionBuilder d (afb_message_details self) (afb_contract_address self).
Definition with_message_details (m : MessageDetails) (self : AtomicFunctionBuilder) : AtomicFunctionBuilder :=
  mkAtomicFunctionBuilder (afb_domain self) m (afb_contract_address self).
Definition with_contract_address (a : LibraryAccountType) (self : AtomicFunctionBuilder) : AtomicFunctionBuilder :=
  mkAtomicFunctionBuilder (afb_domain self) (afb_message_details self) a.
Definition AtomicFunctionBuilder_build (self : AtomicFunctionBuilder) : AtomicFunction :=
  mkAtomicFunction (afb_domain self) (afb_message_details self) (afb_contract_address self).
Record NonAtomicFunctionBuilder := mkNonAtomicFunctionBuilder {
  nfb_domain : Domain;
  nfb_message_details : MessageDetails;
  nfb_contract_address : LibraryAccountType;
  nfb_retry_logic : option RetryLogic;
  nfb_callback_confirmation : option FunctionCallback;
}.
Definition NonAtomicFunctionBuilder_new : NonAtomicFunctionBuilder :=
  mkNonAtomicFunctionBuilder DomainMain (mkMessageDetails TyCosmwasmExecuteMsg (mkMessage "method" None))
    (LibAddr "address") None None.
Definition with_non_atomic_domain (d : Domain) (self : NonAtomicFunctionBuilder) : NonAtomicFunctionBuilder :=
  mkNonAtomicFunctionBuilder d (nfb_message_details self) (nfb_contract_address self) (nfb_retry_logic self)
    (nfb_callback_confirmation self).
Definition with_non_atomic_message_details (m : MessageDetails) (self : NonAtomicFunctionBuilder)
    : NonAtomicFunctionBuilder :=
  mkNonAtomicFunctionBuilder (nfb_domain self) m (nfb_contract_address self) (nfb_retry_logic self)
    (nfb_callback_confirmation self).
Definition with_non_atomic_contract_address (a : LibraryAccountType) (self : NonAtomicFunctionBuilder)
    : NonAtomicFunctionBuilder :=
  mkNonAtomicFunctionBuilder (nfb_domain self) (nfb_message_details self) a (nfb_retry_logic self)
    (nfb_callback_confirmation self).
Definition with_non_atomic_retry_logic (r : RetryLogic) (self : NonAtomicFunctionBuilder) : NonAtomicFunctionBuilder :=
  mkNonAtomicFunctionBuilder (nfb_domain self) (nfb_message_details self) (nfb_contract_address self) (Some r)
    (nfb_callback_confirmation self).
Definition with_callback_confirmation (c : FunctionCallback) (self : NonAtomicFunctionBuilder)
    : NonAtomicFunctionBuilder :=
  mkNonAtomicFunctionBuilder (nfb_domain self) (nfb_message_details self) (nfb_contract_address self)
    (nfb_retry_logic self) (Some c).
Definition NonAtomicFunctionBuilder_build (self : NonAtomicFunctionBuilder) : NonAtomicFunction :=
  mkNonAtomicFunction (nfb_domain self) (nfb_message_details self) (nfb_contract_address self) (nfb_retry_logic self)
    (nfb_callback_confirmation self).

(** ** [JsonBuilder]: values at paths of an object *)
(** [str::split('.')]. *)
Fixpoint split_dots (s : string) : string * list string :=
  match s with
  | "" => ("", [])
  | String "."%char s => let '(part, parts) := split_dots s in ("", part :: parts)
  | String a s => let '(part, parts) := split_dots s in (String a part, parts)
  end.
Section Json.
Context `{SerdeJson}.
Record JsonBuilder := mkJsonBuilder { jb_main : string; jb_data : Value }.
Definition JsonBuilder_new : JsonBuilder := mkJsonBuilder "" (value_object []).
Definition JsonBuilder_main (main : string) (self : JsonBuilder) : JsonBuilder := mkJsonBuilder main (jb_data self).
(** The value behind [current] after the loop over the parts; [None] is a panic. *)
Fixpoint add_at (part : string) (parts : list string) (value current : Value) : option Value :=
  match parts with
  | [] => Some (match as_object current with
                | Some map => value_object (object_insert map part value)
                | None => current
                end)
  | next :: parts =>
      map ← as_object current;
      child ← add_at next parts value (default (value_object []) (value_get current part));
      Some (value_object (object_insert map part child))
  end.
Definition JsonBuilder_add (path : string) (value : Value) (self : JsonBuilder) : option JsonBuilder :=
  let '(part, parts) := split_dots path in
  data ← add_at part parts value (jb_data self);
  Some (mkJsonBuilder (jb_main self) data).
Definition JsonBuilder_build (self : JsonBuilder) : Value :=
  if bool_decide (jb_main self = "") then jb_data self else value_object [(jb_main self, jb_data self)].
End Json.
End Builders.
