(* ===== verification/Authorization.v ===== *)
(** * The authorization contract

    [contracts/authorization/src]: [state.rs], [error.rs], [domain.rs],
    [authorization.rs] (the trait [Validate]) and [contract.rs].  The storage
    record has one field per storage constant, plus the ownership record of
    [cw_ownable] and the contract version of [cw2]; each lens is named as the
    constant.  Queries to other contracts and to the bank are the record
    [Querier], an argument of the handlers that make them. *)
From Stdlib Require Import Strings.Byte.
From S2P Require Import Prelude Platform Types AuthorizationUtils.

Module Authorization.

(** ** Errors ([error.rs]) *)
Inductive AuthorizationErrorReason :=
| EmptyLabel
| LabelAlreadyExists (label : string)
| NoFunctions
| DifferentFunctionDomains
| PermissionlessWithHighPriority
| DoesNotExist (label : string)
| CantMintForPermissionless
| MaxConcurrentExecutionsReached
| InvalidParamRestrictions
| InvalidMessageType
| InvalidLibraryName.
Inductive UnauthorizedReason :=
| NotAllowed
| NotEnabled
| AuthorizationExpired
| NotActiveYet
| RequiresOneToken
| UnauthorizedProcessorCallbackSender
| InvalidPolytoneCallbackInitiator
| UnauthorizedCallbackSender
| BridgeCreationNotTimedOut.
Inductive MessageErrorReason :=
| InvalidAmount
| InvalidType
| DoesNotMatch
| InvalidMessageParams
| InvalidStructure
| InvalidPolytoneCallback
| NotRetriable.
Inductive ZKErrorReason :=
| VerificationRouterNotSet
| InvalidVerificationRoute
| InvalidZKProof
| InvalidZKRegistry
| ProofNoLongerValid
| InvalidDomain
| InvalidAuthorizationContract
| VerifierContractAlreadyExists.
(** [Payment] is never constructed. *)
Inductive ContractError :=
| Std (e : StdError)
| OwnershipE (e : OwnershipError)
| Unauthorized (r : UnauthorizedReason)
| AuthorizationE (r : AuthorizationErrorReason)
| MessageE (r : MessageErrorReason)
| ZK (r : ZKErrorReason)
| ExternalDomainAlreadyExists (name : string)
| DomainIsNotRegistered (name : string)
| InvalidJson (error : string)
| ExecutionIDNotFound (execution_id : N)
| CurrentExecutionsIsZero
| BridgeCreationNotRequired.
#[global] Instance From_Std : From StdError ContractError := Std.
#[global] Instance From_Ownership : From OwnershipError ContractError := OwnershipE.

(** ** Storage ([state.rs]) *)
Record storage := mkStorage {
  s_contract_info : option (string * string);
  s_ownership : option Ownership;
  s_first_ownership : option bool;
  s_sub_owners : gmap Addr ();
  s_authorizations : gmap string Authorization;
  s_verification_router : option Addr;
  s_zk_authorizations : gmap string ZkAuthorization;
  s_processor_on_main_domain : option Addr;
  s_external_domains : gmap string ExternalDomain;
  s_execution_id : option N;
  s_current_executions : gmap string N;
  s_registry_last_block_execution : gmap N N;
  s_processor_callbacks : gmap N ProcessorCallbackInfo;
}.
Definition empty_storage : storage :=
  mkStorage None None None ∅ ∅ None ∅ None ∅ None ∅ ∅ ∅.

Definition CONTRACT_INFO : lens storage (option (string * string)) :=
  Lens s_contract_info (λ x s, mkStorage x (s_ownership s) (s_first_ownership s)
    (s_sub_owners s) (s_authorizations s) (s_verification_router s) (s_zk_authorizations s)
    (s_processor_on_main_domain s) (s_external_domains s) (s_execution_id s)
    (s_current_executions s) (s_registry_last_block_execution s) (s_processor_callbacks s)).
Definition OWNERSHIP : lens storage (option Ownership) :=
  Lens s_ownership (λ x s, mkStorage (s_contract_info s) x (s_first_ownership s)
    (s_sub_owners s) (s_authorizations s) (s_verification_router s) (s_zk_authorizations s)
    (s_processor_on_main_domain s) (s_external_domains s) (s_execution_id s)
    (s_current_executions s) (s_registry_last_block_execution s) (s_processor_callbacks s)).
Definition FIRST_OWNERSHIP : lens storage (option bool) :=
  Lens s_first_ownership (λ x s, mkStorage (s_contract_info s) (s_ownership s) x
    (s_sub_owners s) (s_authorizations s) (s_verification_router s) (s_zk_authorizations s)
    (s_processor_on_main_domain s) (s_external_domains s) (s_execution_id s)
    (s_current_executions s) (s_registry_last_block_execution s) (s_processor_callbacks s)).
Definition SUB_OWNERS : lens storage (gmap Addr ()) :=
  Lens s_sub_owners (λ x s, mkStorage (s_contract_info s) (s_ownership s) (s_first_ownership s)
    x (s_authorizations s) (s_verification_router s) (s_zk_authorizations s)
    (s_processor_on_main_domain s) (s_external_domains s) (s_execution_id s)
    (s_current_executions s) (s_registry_last_block_execution s) (s_processor_callbacks s)).
Definition AUTHORIZATIONS : lens storage (gmap string Authorization) :=
  Lens s_authorizations (λ x s, mkStorage (s_contract_info s) (s_ownership s)
    (s_first_ownership s) (s_sub_owners s) x (s_verification_router s) (s_zk_authorizations s)
    (s_processor_on_main_domain s) (s_external_domains s) (s_execution_id s)
    (s_current_executions s) (s_registry_last_block_execution s) (s_processor_callbacks s)).
Definition VERIFICATION_ROUTER : lens storage (option Addr) :=
  Lens s_verification_router (λ x s, mkStorage (s_contract_info s) (s_ownership s)
    (s_first_ownership s) (s_sub_owners s) (s_authorizations s) x (s_zk_authorizations s)
    (s_processor_on_main_domain s) (s_external_domains s) (s_execution_id s)
    (s_current_executions s) (s_registry_last_block_execution s) (s_processor_callbacks s)).
Definition ZK_AUTHORIZATIONS : lens storage (gmap string ZkAuthorization) :=
  Lens s_zk_authorizations (λ x s, mkStorage (s_contract_info s) (s_ownership s)
    (s_first_ownership s) (s_sub_owners s) (s_authorizations s) (s_verification_router s) x
    (s_processor_on_main_domain s) (s_external_domains s) (s_execution_id s)
    (s_current_executions s) (s_registry_last_block_execution s) (s_processor_callbacks s)).
Definition PROCESSOR_ON_MAIN_DOMAIN : lens storage (option Addr) :=
  Lens s_processor_on_main_domain (λ x s, mkStorage (s_contract_info s) (s_ownership s)
    (s_first_ownership s) (s_sub_owners s) (s_authorizations s) (s_verification_router s)
    (s_zk_authorizations s) x (s_external_domains s) (s_execution_id s) (s_current_executions s)
    (s_registry_last_block_execution s) (s_processor_callbacks s)).
Definition EXTERNAL_DOMAINS : lens storage (gmap string ExternalDomain) :=
  Lens s_external_domains (λ x s, mkStorage (s_contract_info s) (s_ownership s)
    (s_first_ownership s) (s_sub_owners s) (s_authorizations s) (s_verification_router s)
    (s_zk_authorizations s) (s_processor_on_main_domain s) x (s_execution_id s)
    (s_current_executions s) (s_registry_last_block_execution s) (s_processor_callbacks s)).
Definition EXECUTION_ID : lens storage (option N) :=
  Lens s_execution_id (λ x s, mkStorage (s_contract_info s) (s_ownership s)
    (s_first_ownership s) (s_sub_owners s) (s_authorizations s) (s_verification_router s)
    (s_zk_authorizations s) (s_processor_on_main_domain s) (s_external_domains s) x
    (s_current_executions s) (s_registry_last_block_execution s) (s_processor_callbacks s)).
Definition CURRENT_EXECUTIONS : lens storage (gmap string N) :=
  Lens s_current_executions (λ x s, mkStorage (s_contract_info s) (s_ownership s)
    (s_first_ownership s) (s_sub_owners s) (s_authorizations s) (s_verification_router s)
    (s_zk_authorizations s) (s_processor_on_main_domain s) (s_external_domains s)
    (s_execution_id s) x (s_registry_last_block_execution s) (s_processor_callbacks s)).
Definition REGISTRY_LAST_BLOCK_EXECUTION : lens storage (gmap N N) :=
  Lens s_registry_last_block_execution (λ x s, mkStorage (s_contract_info s) (s_ownership s)
    (s_first_ownership s) (s_sub_owners s) (s_authorizations s) (s_verification_router s)
    (s_zk_authorizations s) (s_processor_on_main_domain s) (s_external_domains s)
    (s_execution_id s) (s_current_executions s) x (s_processor_callbacks s)).
Definition PROCESSOR_CALLBACKS : lens storage (gmap N ProcessorCallbackInfo) :=
  Lens s_processor_callbacks (λ x s, mkStorage (s_contract_info s) (s_ownership s)
    (s_first_ownership s) (s_sub_owners s) (s_authorizations s) (s_verification_router s)
    (s_zk_authorizations s) (s_processor_on_main_domain s) (s_external_domains s)
    (s_execution_id s) (s_current_executions s) (s_registry_last_block_execution s) x).

(** ** Queries to other contracts *)
Record Querier := mkQuerier {
  query_balance : Addr → string → result StdError N;
  query_is_valid_library : string → string → string → result StdError bool;
  query_encode : Addr → string → ProcessorMessageToEncode → result StdError Binary;
  query_decode : Addr → string → ProcessorMessageToDecode → result StdError Binary;
  query_get_route : Addr → string → result StdError Addr;
  query_verify : Addr → string → Binary → Binary → Binary → Binary → result StdError bool;
}.

Abbreviation M := (Exec storage ContractError) (only parsing).

(** ** Helpers of [contract.rs] *)
Definition build_tokenfactory_denom (contract_address label : string) : string :=
  ("factory/" +:+ contract_address +:+ "/" +:+ label)%string.

Definition get_and_increase_execution_id : M N :=
  id ← item_load EXECUTION_ID;
  _ ← item_save EXECUTION_ID (wrapping_add u64_max id 1);
  mret id.

(** [CURRENT_EXECUTIONS.load(..).unwrap_or_default()]. *)
Definition load_current_executions (label : string) : M N :=
  c ← map_may_load CURRENT_EXECUTIONS label;
  mret (default 0%N c).
Definition increase_current_executions (label : string) (current_executions : N) : M unit :=
  next ← expect (checked_add u64_max current_executions 1);
  map_save CURRENT_EXECUTIONS label next.
(** The closure of every [CURRENT_EXECUTIONS.update]. *)
Definition decrement (current : option N) : result ContractError N :=
  let count := default 0%N current in
  if (count =? 0)%N then Err CurrentExecutionsIsZero else Ok (count - 1)%N.
Definition reduce_current_executions (label : string) : M unit :=
  map_update CURRENT_EXECUTIONS label decrement.

Definition load_authorization (label : string) : M Authorization :=
  map_err (AuthorizationE (DoesNotExist label))
    (map_load AUTHORIZATIONS label : Exec storage StdError _).
Definition load_zk_authorization (label : string) : M ZkAuthorization :=
  map_err (AuthorizationE (DoesNotExist label))
    (map_load ZK_AUTHORIZATIONS label : Exec storage StdError _).

Definition get_authorization_mode (label : string) : M AuthorizationMode :=
  a ← map_may_load AUTHORIZATIONS label;
  match a with
  | Some authorization => mret (mode authorization)
  | None => zk ← load_zk_authorization label; mret (zk_mode zk)
  end.

(** The addresses that may send the callback and the bridge callback. *)
Definition callback_addresses (domain : Domain) : M (Addr * option Addr) :=
  match domain with
  | DomainMain => processor ← item_load PROCESSOR_ON_MAIN_DOMAIN; mret (processor, None)
  | DomainExternal domain_name =>
      external_domain ← map_load EXTERNAL_DOMAINS domain_name;
      mret (get_callback_address (execution_environment external_domain),
            Some (get_connector_address (execution_environment external_domain)))
  end.
Definition store_inprocess_callback (current_timestamp id : N) (initiator : OperationInitiator)
    (domain : Domain) (label : string) (ttl : option Expiration)
    (messages : list ProcessorMessage) : M unit :=
  addrs ← callback_addresses domain;
  map_save PROCESSOR_CALLBACKS id
    (mkProcessorCallbackInfo id current_timestamp current_timestamp initiator addrs.2 addrs.1
       domain label messages ttl InProcess).

Definition set_result (r : ExecutionResult) (now : N) (c : ProcessorCallbackInfo)
    : ProcessorCallbackInfo :=
  mkProcessorCallbackInfo (cb_execution_id c) (cb_created_at c) now (cb_initiator c)
    (cb_bridge_callback_address c) (cb_processor_callback_address c) (cb_domain c) (cb_label c)
    (cb_messages c) (cb_ttl c) r.

Definition assign_execution_id (msg : AuthorizationMsg) (execution_id : N) : AuthorizationMsg :=
  match msg with
  | EnqueueMsgs _ msgs subroutine priority expiration_time =>
      EnqueueMsgs execution_id msgs subroutine priority expiration_time
  | InsertMsgs queue_position _ msgs subroutine priority expiration_time =>
      InsertMsgs queue_position execution_id msgs subroutine priority expiration_time
  | other => other
  end.

(** Updates of a stored authorization. *)
Definition set_authorization_state (st : AuthorizationState) (a : Authorization) : Authorization :=
  mkAuthorization (label a) (mode a) (not_before a) (expiration a) (max_concurrent_executions a)
    (subroutine a) (priority a) st.
Definition set_zk_authorization_state (st : AuthorizationState) (a : ZkAuthorization)
    : ZkAuthorization :=
  mkZkAuthorization (zk_label a) (zk_mode a) (zk_registry a) (zk_vk a) (zk_verification_route a)
    (zk_metadata_hash a) (zk_validate_last_block_execution a) st.

(** ** Domains ([domain.rs]) *)
Definition get_domain (authorization : Authorization) : M Domain :=
  match subroutine authorization with
  | Atomic config =>
      ok_or (af_domain <$> head (as_functions config)) (AuthorizationE NoFunctions)
  | NonAtomic config =>
      ok_or (nf_domain <$> head (ns_functions config)) (AuthorizationE NoFunctions)
  end.

Section Contract.
Context `{Platform} `{SerdeJson} `{CwOwnable} `{TokenFactoryProto}.
Context `{JsonCodec ProcessorExecuteMsg} `{JsonCodec PolytoneExecuteMsg}.
Context `{JsonCodec HyperlaneExecuteMsg} `{JsonCodec AuthPolytoneCallbackMsg}.
Context `{JsonCodec ZkMessage} `{JsonCodec InternalAuthorizationMsg}.

Definition now_seconds (env : Env) : N := timestamp_seconds (block_time (env_block env)).

Definition add_external_domain (domain : ExternalDomainInfo) : M ExternalDomain :=
  external_domain ← of_result (into_external_domain_validated domain);
  exists_ ← map_has EXTERNAL_DOMAINS (ed_name external_domain);
  _ ← fail_if exists_ (ExternalDomainAlreadyExists (ed_name external_domain));
  _ ← map_save EXTERNAL_DOMAINS (ed_name external_domain) external_domain;
  mret external_domain.

Definition create_msg_for_main_domain (execute_msg : Binary) : M CosmosMsg :=
  processor ← item_load PROCESSOR_ON_MAIN_DOMAIN;
  mret (CosmosWasm (WasmExecute processor execute_msg [])).

Definition create_msg_for_processor (execute_msg : Binary) (domain : Domain)
    (callback_request : option CallbackRequest) : M CosmosMsg :=
  match domain with
  | DomainMain => create_msg_for_main_domain execute_msg
  | DomainExternal name =>
      external_domain ← map_load EXTERNAL_DOMAINS name;
      match execution_environment external_domain with
      | EnvCosmwasm (Polytone_ c) =>
          of_result (create_msg_for_polytone (note_address (polytone_note c))
            (note_timeout_seconds (polytone_note c)) (ed_processor external_domain) execute_msg
            callback_request)
      | EnvEvm _ (Hyperlane_ c) =>
          of_result (create_msg_for_hyperlane (mailbox c) (domain_id c)
            (ed_processor external_domain) execute_msg)
      end
  end.

(** The bytes for the processor of a domain: JSON on a CosmWasm domain, what the
    encoder broker answers on an EVM domain. *)
Definition encode_for_domain (q : Querier) (domain : Domain) (msg : AuthorizationMsg)
    (to_encode : M ProcessorMessageToEncode) : M Binary :=
  let json := of_result (to_json_binary (AuthorizationModuleAction msg)) in
  match domain with
  | DomainMain => json
  | DomainExternal name =>
      external_domain ← map_load EXTERNAL_DOMAINS name;
      match execution_environment external_domain with
      | EnvCosmwasm _ => json
      | EnvEvm encoder _ =>
          message ← to_encode;
          of_result (query_encode q (broker_address encoder) (encoder_version encoder) message)
      end
  end.

(** ** Token factory messages *)
Definition create_denom_msg (sender subdenom : string) : option CosmosMsg :=
  CosmosStargate "/osmosis.tokenfactory.v1beta1.MsgCreateDenom" <$>
    MsgCreateDenom_to_bytes (mkMsgCreateDenom sender subdenom).
Definition mint_msg (sender recipient : string) (amount : N) (denom : string)
    : option CosmosMsg :=
  CosmosStargate "/osmosis.tokenfactory.v1beta1.MsgMint" <$>
    MsgMint_to_bytes (mkMsgMint sender (Some (mkProtoCoin denom (pretty amount))) recipient).
Definition burn_msg (sender : string) (amount : N) (denom : string) : option CosmosMsg :=
  CosmosStargate "/osmosis.tokenfactory.v1beta1.MsgBurn" <$>
    MsgBurn_to_bytes (mkMsgBurn sender (Some (mkProtoCoin denom (pretty amount))) "").

(** ** Validation ([authorization.rs]) *)
Definition validate_domain {F} `{Function F} (func : F) (domain : Domain) : M unit :=
  fail_if (bool_decide (fn_domain func ≠ domain)) (AuthorizationE DifferentFunctionDomains).

Definition is_cosmwasm_type (t : MessageType) : bool :=
  match t with TyCosmwasmExecuteMsg | TyCosmwasmMigrateMsg => true | _ => false end.
Definition is_evm_type (t : MessageType) : bool :=
  match t with TyEvmRawCall | TyEvmCall _ _ => true | _ => false end.
Definition validate_message_type {F} `{Function F} (func : F)
    (external_domain : option ExternalDomain) : M unit :=
  let t := message_type (fn_message_details func) in
  match external_domain with
  | Some domain =>
      match execution_environment domain with
      | EnvCosmwasm _ => fail_if (negb (is_cosmwasm_type t)) (AuthorizationE InvalidMessageType)
      | EnvEvm _ _ => fail_if (negb (is_evm_type t)) (AuthorizationE InvalidMessageType)
      end
  | None => fail_if (negb (is_cosmwasm_type t)) (AuthorizationE InvalidMessageType)
  end.

Definition validate_evm_library {F} `{Function F} (q : Querier) (func : F) : M unit :=
  match message_type (fn_message_details func) with
  | TyEvmCall encoder library_name =>
      exists_ ← of_result (query_is_valid_library q (info_broker_address encoder)
                             (info_encoder_version encoder) library_name);
      fail_if (negb exists_) (AuthorizationE InvalidLibraryName)
  | _ => mret ()
  end.

Definition is_must_be_bytes (r : ParamRestriction) : bool :=
  match r with MustBeBytes _ => true | _ => false end.
(** The restrictions are allowed for the message type. *)
Definition restrictions_allowed (t : MessageType) (restrictions : list ParamRestriction) : bool :=
  match t with
  | TyEvmRawCall =>
      match restrictions with
      | [] => true
      | [r] => is_must_be_bytes r
      | _ => false
      end
  | _ => negb (existsb is_must_be_bytes restrictions)
  end.
Definition validate_param_restrictions {F} `{Function F} (func : F) : M unit :=
  let details := fn_message_details func in
  match params_restrictions (message details) with
  | None => mret ()
  | Some restrictions =>
      fail_if (negb (restrictions_allowed (message_type details) restrictions))
        (AuthorizationE InvalidParamRestrictions)
  end.

Definition validate_functions {F} `{Function F} (q : Querier) (functions : list F) : M unit :=
  first ← ok_or (head functions) (AuthorizationE NoFunctions);
  let domain := fn_domain first in
  external_domain ←
    match domain with
    | DomainMain => mret None
    | DomainExternal name =>
        d ← map_err (DomainIsNotRegistered name)
              (map_load EXTERNAL_DOMAINS name : Exec storage StdError _);
        mret (Some d)
    end;
  for_each functions (λ func,
    _ ← validate_domain func domain;
    _ ← validate_message_type func external_domain;
    _ ← validate_evm_library q func;
    validate_param_restrictions func).

Definition validate_subroutine (q : Querier) (self : Authorization) : M unit :=
  match subroutine self with
  | Atomic config => validate_functions q (as_functions config)
  | NonAtomic config => validate_functions q (ns_functions config)
  end.

Definition validate (q : Querier) (self : Authorization) : M unit :=
  _ ← fail_if (bool_decide (label self = "")) (AuthorizationE EmptyLabel);
  _ ← validate_subroutine q self;
  fail_if (bool_decide (mode self = Permissionless) && bool_decide (priority self = High))
    (AuthorizationE PermissionlessWithHighPriority).

Definition ensure_enabled (self : Authorization) : M unit :=
  fail_if (bool_decide (state self ≠ Enabled)) (Unauthorized NotEnabled).
Definition ensure_active (self : Authorization) (block : BlockInfo) : M unit :=
  match not_before self with
  | Never => mret ()
  | expiration => fail_if (negb (is_expired expiration block)) (Unauthorized NotActiveYet)
  end.
Definition ensure_not_expired (self : Authorization) (block : BlockInfo) : M unit :=
  fail_if (is_expired (expiration self) block) (Unauthorized AuthorizationExpired).

(** The JSON pointer of a path. *)
Definition pointer (keys : list string) : string := ("/" +:+ String.concat "/" keys)%string.
Definition check_json_restriction (json : Value) (param_restriction : ParamRestriction) : M unit :=
  match param_restriction with
  | MustBeIncluded keys =>
      _ ← ok_or (value_pointer json (pointer keys)) (MessageE InvalidMessageParams);
      mret ()
  | CannotBeIncluded keys =>
      fail_if (bool_decide (is_Some (value_pointer json (pointer keys))))
        (MessageE InvalidMessageParams)
  | MustBeValue keys value =>
      final_value ← ok_or (value_pointer json (pointer keys)) (MessageE InvalidMessageParams);
      expected ← map_err (MessageE InvalidMessageParams)
                   (of_result (value_from_slice value) : Exec storage string _);
      fail_if (negb (value_eqb final_value expected)) (MessageE InvalidMessageParams)
  | MustBeBytes _ => fail (MessageE InvalidType)
  end.
Definition check_bytes_restriction (msg : Binary) (param_restriction : ParamRestriction) : M unit :=
  match param_restriction with
  | MustBeBytes expected => fail_if (bool_decide (msg ≠ expected)) (MessageE InvalidMessageParams)
  | _ => fail (MessageE InvalidType)
  end.

(** The body of the loop of [validate_messages_generic]. *)
Definition validate_message {F} `{Function F} (each_message : ProcessorMessage)
    (each_function : F) : M unit :=
  let details := fn_message_details each_function in
  _ ← fail_if (negb (message_matches_type each_message (message_type details)))
        (MessageE InvalidType);
  let msg := get_msg each_message in
  let restrictions := default [] (params_restrictions (message details)) in
  match each_message with
  | CosmwasmExecuteMsg _ | CosmwasmMigrateMsg _ _ | EvmCall _ =>
      json ← of_result (map_err_r InvalidJson (value_from_slice msg));
      _ ← fail_if (negb (bool_decide (from_option length 0 (as_object json) = 1)))
            (MessageE InvalidStructure);
      _ ← fail_if (negb (bool_decide (is_Some (value_get json (msg_name (message details))))))
            (MessageE DoesNotMatch);
      for_each restrictions (check_json_restriction json)
  | EvmRawCall _ => for_each restrictions (check_bytes_restriction msg)
  end.
Definition validate_messages_generic {F} `{Function F} (messages : list ProcessorMessage)
    (functions : list F) : M unit :=
  _ ← fail_if (negb (bool_decide (length messages = length functions))) (MessageE InvalidAmount);
  for_each (zip messages functions) (λ mf, validate_message mf.1 mf.2).
Definition validate_messages (self : Authorization) (messages : list ProcessorMessage) : M unit :=
  match subroutine self with
  | Atomic config => validate_messages_generic messages (as_functions config)
  | NonAtomic config => validate_messages_generic messages (ns_functions config)
  end.

Definition validate_permission (label : string) (authorization_mode : AuthorizationMode)
    (q : Querier) (contract_address : string) (info : MessageInfo) : M unit :=
  let token_factory_denom := build_tokenfactory_denom contract_address label in
  match authorization_mode with
  | Permissionless => mret ()
  | Permissioned (WithoutCallLimit _) =>
      balance ← of_result (query_balance q (info_sender info) token_factory_denom);
      fail_if (balance =? 0)%N (Unauthorized NotAllowed)
  | Permissioned (WithCallLimit _) =>
      funds ← map_err (Unauthorized NotAllowed)
                (of_result (must_pay info token_factory_denom) : Exec storage StdError _);
      fail_if (negb (funds =? 1)%N) (Unauthorized RequiresOneToken)
  end.

Definition validate_executable (q : Querier) (self : Authorization) (block : BlockInfo)
    (contract_address : string) (info : MessageInfo) (messages : list ProcessorMessage) : M unit :=
  _ ← ensure_enabled self;
  _ ← ensure_active self block;
  _ ← ensure_not_expired self block;
  _ ← validate_permission (label self) (mode self) q contract_address info;
  validate_messages self messages.

(** ** Entry points and handlers ([contract.rs]) *)
Definition CONTRACT_NAME : string := "valence-authorization".
Definition CONTRACT_VERSION : string := "0.2.0".
Definition MAX_PAGE_LIMIT : N := 250.

Definition instantiate (_env : Env) (_info : MessageInfo) (msg : AuthInstantiateMsg) : M Response :=
  _ ← item_save CONTRACT_INFO (CONTRACT_NAME, CONTRACT_VERSION);
  ownership ← of_result (initialize_owner (Some (ai_owner msg)));
  _ ← item_save OWNERSHIP ownership;
  _ ← for_each (ai_sub_owners msg) (λ sub_owner,
        addr ← of_result (addr_validate sub_owner);
        map_save SUB_OWNERS addr ());
  processor ← of_result (addr_validate (ai_processor msg));
  _ ← item_save PROCESSOR_ON_MAIN_DOMAIN processor;
  _ ← item_save EXECUTION_ID 0%N;
  _ ← item_save FIRST_OWNERSHIP true;
  mret (add_attribute "method" "instantiate_authorization" Response_new).

Definition assert_owner_or_subowner (address : Addr) : M unit :=
  s ← get_storage;
  owner ← of_result (is_owner (s_ownership s) address);
  sub ← map_has SUB_OWNERS address;
  fail_if (negb owner && negb sub) (Unauthorized NotAllowed).

Definition assert_owner_ (address : Addr) : M unit :=
  s ← get_storage;
  of_result (assert_owner (s_ownership s) address).

Definition update_ownership (env : Env) (info : MessageInfo) (action : OwnableAction)
    : M Response :=
  let update : M Response :=
    s ← get_storage;
    ownership ← of_result (update_ownership_lib (s_ownership s) (env_block env)
                             (info_sender info) action);
    _ ← item_save OWNERSHIP ownership;
    mret (add_attributes (into_attributes ownership) Response_new) in
  match action with
  | TransferOwnership new_owner _ =>
      first ← item_load FIRST_OWNERSHIP;
      if (first : bool) then
        _ ← assert_owner_ (info_sender info);
        _ ← item_save FIRST_OWNERSHIP false;
        ownership ← of_result (initialize_owner (Some new_owner));
        _ ← item_save OWNERSHIP ownership;
        mret (add_attributes (into_attributes ownership) Response_new)
      else update
  | _ => update
  end.

Definition add_sub_owner (sub_owner : string) : M Response :=
  addr ← of_result (addr_validate sub_owner);
  _ ← map_save SUB_OWNERS addr ();
  mret (add_attribute "sub_owner" sub_owner (add_attribute "action" "add_sub_owner" Response_new)).
Definition remove_sub_owner (sub_owner : string) : M Response :=
  addr ← of_result (addr_validate sub_owner);
  _ ← map_remove SUB_OWNERS addr;
  mret (add_attribute "sub_owner" sub_owner
         (add_attribute "action" "remove_sub_owner" Response_new)).

(** The empty polytone message that creates the proxy of a domain. *)
Definition create_proxy_msg (env : Env) (note : PolytoneNote) (domain_name : string) : M CosmosMsg :=
  cb_msg ← of_result (to_json_binary (AuthCreateProxy domain_name));
  msg ← of_result (to_json_binary (PolytoneExecute []
          (Some (mkCallbackRequest (env_contract env) cb_msg)) (note_timeout_seconds note)));
  mret (CosmosWasm (WasmExecute (note_address note) msg [])).

Definition add_external_domains (env : Env) (external_domains : list ExternalDomainInfo)
    : M Response :=
  messages ← fold_each external_domains [] (λ messages domain,
    validated_external_domain ← add_external_domain domain;
    match execution_environment validated_external_domain with
    | EnvCosmwasm (Polytone_ connectors) =>
        msg ← create_proxy_msg env (polytone_note connectors) (ed_name validated_external_domain);
        mret (messages ++ [msg])
    | EnvEvm _ _ => mret messages
    end);
  mret (add_attribute "action" "add_external_domains" (add_messages messages Response_new)).

(** The messages that create the token of a permissioned authorization and mint
    it to the addresses that may execute the authorization. *)
Definition permission_msgs (env : Env) (label : string) (m : AuthorizationMode)
    : M (list CosmosMsg) :=
  match m with
  | Permissioned permission_type =>
      create ← expect (create_denom_msg (env_contract env) label);
      let denom := build_tokenfactory_denom (env_contract env) label in
      let mint addr amount : M CosmosMsg :=
        _ ← of_result (addr_validate addr);
        expect (mint_msg (env_contract env) addr amount denom) in
      match permission_type with
      | WithCallLimit call_limits =>
          fold_each call_limits [create] (λ msgs al,
            msg ← mint al.1 al.2; mret (msgs ++ [msg]))
      | WithoutCallLimit addrs =>
          fold_each addrs [create] (λ msgs addr,
            msg ← mint addr 1%N; mret (msgs ++ [msg]))
      end
  | Permissionless => mret []
  end.

Definition label_exists (label : string) : M bool :=
  a ← map_has AUTHORIZATIONS label;
  if (a : bool) then mret true else map_has ZK_AUTHORIZATIONS label.

(** The body of the loop of [create_authorizations]. *)
Definition create_authorization (q : Querier) (env : Env) (info : AuthorizationInfo)
    : M (list CosmosMsg) :=
  authorization ← expect (into_authorization info (env_block env));
  exists_ ← label_exists (label authorization);
  _ ← fail_if exists_ (AuthorizationE (LabelAlreadyExists (label authorization)));
  _ ← validate q authorization;
  msgs ← permission_msgs env (label authorization) (mode authorization);
  _ ← map_save AUTHORIZATIONS (label authorization) authorization;
  mret msgs.
Definition create_authorizations (q : Querier) (env : Env)
    (authorizations : list AuthorizationInfo) : M Response :=
  tokenfactory_msgs ← fold_each authorizations [] (λ acc info,
    msgs ← create_authorization q env info; mret (acc ++ msgs));
  mret (add_messages tokenfactory_msgs
         (add_attribute "action" "create_authorizations" Response_new)).

(** The body of the loop of [create_zk_authorizations]. *)
Definition create_zk_authorization (env : Env) (info : ZkAuthorizationInfo) : M (list CosmosMsg) :=
  zk_authorization ← expect (into_zk_authorization info);
  exists_ ← label_exists (zk_label zk_authorization);
  _ ← fail_if exists_ (AuthorizationE (LabelAlreadyExists (zk_label zk_authorization)));
  _ ← fail_if (bool_decide (zk_label zk_authorization = "")) (AuthorizationE EmptyLabel);
  msgs ← permission_msgs env (zk_label zk_authorization) (zk_mode zk_authorization);
  _ ← map_save ZK_AUTHORIZATIONS (zk_label zk_authorization) zk_authorization;
  mret msgs.
Definition create_zk_authorizations (env : Env) (zk_authorizations : list ZkAuthorizationInfo)
    : M Response :=
  tokenfactory_msgs ← fold_each zk_authorizations [] (λ acc info,
    msgs ← create_zk_authorization env info; mret (acc ++ msgs));
  mret (add_messages tokenfactory_msgs
         (add_attribute "action" "create_zk_authorizations" Response_new)).

Definition modify_authorization (q : Querier) (label_ : string)
    (not_before_ expiration_ : option Expiration) (max_concurrent_executions_ : option N)
    (priority_ : option Priority) : M Response :=
  a ← load_authorization label_;
  let authorization :=
    mkAuthorization (label a) (mode a) (default (not_before a) not_before_)
      (default (expiration a) expiration_)
      (default (max_concurrent_executions a) max_concurrent_executions_)
      (subroutine a) (default (priority a) priority_) (state a) in
  _ ← validate q authorization;
  _ ← map_save AUTHORIZATIONS label_ authorization;
  mret (add_attribute "action" "modify_authorization" Response_new).

Definition modify_zk_authorization (label : string) (validate_last_block_execution : option bool)
    : M Response :=
  a ← load_zk_authorization label;
  let authorization :=
    mkZkAuthorization (zk_label a) (zk_mode a) (zk_registry a) (zk_vk a) (zk_verification_route a)
      (zk_metadata_hash a)
      (default (zk_validate_last_block_execution a) validate_last_block_execution) (zk_state a) in
  _ ← map_save ZK_AUTHORIZATIONS label authorization;
  mret (add_attribute "action" "modify_zk_authorization" Response_new).

(** The common body of [disable_authorization] and [enable_authorization]. *)
Definition switch_authorization (label : string) (st : AuthorizationState) : M unit :=
  auth_result ← map_may_load AUTHORIZATIONS label;
  match auth_result with
  | Some authorization => map_save AUTHORIZATIONS label (set_authorization_state st authorization)
  | None =>
      zk_authorization ← load_zk_authorization label;
      map_save ZK_AUTHORIZATIONS label (set_zk_authorization_state st zk_authorization)
  end.
Definition disable_authorization (label : string) : M Response :=
  _ ← switch_authorization label Disabled;
  mret (add_attribute "action" "disable_authorization" Response_new).
Definition enable_authorization (label : string) : M Response :=
  _ ← switch_authorization label Enabled;
  mret (add_attribute "action" "enable_authorization" Response_new).

Definition mint_authorizations (env : Env) (label : string) (mints : list Mint) : M Response :=
  authorization_mode ← get_authorization_mode label;
  tokenfactory_msgs ←
    match authorization_mode with
    | Permissioned _ =>
        expect (mapM (λ m, mint_msg (env_contract env) (mint_address m) (mint_amount m)
                             (build_tokenfactory_denom (env_contract env) label)) mints)
    | Permissionless => fail (AuthorizationE CantMintForPermissionless)
    end;
  mret (add_messages tokenfactory_msgs
         (add_attribute "action" "mint_authorizations" Response_new)).

Definition pause_processor (q : Querier) (domain : Domain) : M Response :=
  execute_msg_binary ← encode_for_domain q domain Pause (mret EncodePause);
  message ← create_msg_for_processor execute_msg_binary domain None;
  mret (add_attribute "action" "pause_processor" (add_message message Response_new)).
Definition resume_processor (q : Querier) (domain : Domain) : M Response :=
  execute_msg_binary ← encode_for_domain q domain Resume (mret EncodeResume);
  message ← create_msg_for_processor execute_msg_binary domain None;
  mret (add_attribute "action" "resume_processor" (add_message message Response_new)).

(** [CallbackRequest] with the execution id, for polytone. *)
Definition execution_callback (env : Env) (id : N) : M CallbackRequest :=
  msg ← of_result (to_json_binary (AuthExecutionID id));
  mret (mkCallbackRequest (env_contract env) msg).
(** The batch expiration: [None] also when the sum overflows. *)
Definition batch_expiration (env : Env) (sub : Subroutine) : option N :=
  time ← get_expiration_time sub;
  checked_add u64_max time (now_seconds env).

Definition insert_messages (q : Querier) (env : Env) (label_ : string) (queue_position : N)
    (priority_ : Priority) (messages : list ProcessorMessage) : M Response :=
  authorization ← load_authorization label_;
  _ ← validate_messages authorization messages;
  current_executions ← load_current_executions label_;
  _ ← increase_current_executions label_ current_executions;
  domain ← get_domain authorization;
  id ← get_and_increase_execution_id;
  let expiration_time := batch_expiration env (subroutine authorization) in
  execute_msg_binary ←
    encode_for_domain q domain
      (InsertMsgs queue_position id messages (subroutine authorization) priority_ expiration_time)
      (encoder_messages ← of_result (convert_into_encoder_messages messages authorization);
       mret (EncodeInsertMsgs id queue_position priority_ (subroutine authorization)
               expiration_time encoder_messages));
  callback_request ← execution_callback env id;
  msg ← create_msg_for_processor execute_msg_binary domain (Some callback_request);
  _ ← store_inprocess_callback (now_seconds env) id InitOwner domain label_ None messages;
  mret (add_attribute "authorization_label" (label authorization)
         (add_attribute "action" "add_messages" (add_message msg Response_new))).

Definition evict_messages (q : Querier) (domain : Domain) (queue_position : N)
    (priority : Priority) : M Response :=
  execute_msg_binary ← encode_for_domain q domain (EvictMsgs queue_position priority)
                         (mret (EncodeEvictMsgs queue_position priority));
  msg ← create_msg_for_processor execute_msg_binary domain None;
  mret (add_attribute "action" "remove_messages" (add_message msg Response_new)).

Definition send_msgs (q : Querier) (env : Env) (info : MessageInfo) (label_ : string)
    (ttl : option Expiration) (messages : list ProcessorMessage) : M Response :=
  authorization ← load_authorization label_;
  _ ← validate_executable q authorization (env_block env) (env_contract env) info messages;
  current_executions ← load_current_executions label_;
  _ ← fail_if (max_concurrent_executions authorization <=? current_executions)%N
        (AuthorizationE MaxConcurrentExecutionsReached);
  _ ← increase_current_executions label_ current_executions;
  domain ← get_domain authorization;
  id ← get_and_increase_execution_id;
  let expiration_time := batch_expiration env (subroutine authorization) in
  execute_msg_binary ←
    encode_for_domain q domain
      (EnqueueMsgs id messages (subroutine authorization) (priority authorization) expiration_time)
      (encoder_messages ← of_result (convert_into_encoder_messages messages authorization);
       mret (EncodeSendMsgs id (priority authorization) (subroutine authorization)
               expiration_time encoder_messages));
  callback_request ← execution_callback env id;
  msg ← create_msg_for_processor execute_msg_binary domain (Some callback_request);
  _ ← store_inprocess_callback (now_seconds env) id (InitUser (info_sender info)) domain label_
        ttl messages;
  mret (add_attribute "authorization_label" (label authorization)
         (add_attribute "action" "send_msgs" (add_message msg Response_new))).

Definition set_verification_router (address : string) : M Response :=
  addr ← of_result (addr_validate address);
  _ ← item_save VERIFICATION_ROUTER addr;
  mret (add_attribute "contract" address
         (add_attribute "action" "set_verification_router" Response_new)).

Definition update_zk_authorization_route (label new_route : string) : M Response :=
  a ← load_zk_authorization label;
  let zk_authorization :=
    mkZkAuthorization (zk_label a) (zk_mode a) (zk_registry a) (zk_vk a) new_route
      (zk_metadata_hash a) (zk_validate_last_block_execution a) (zk_state a) in
  _ ← map_save ZK_AUTHORIZATIONS label zk_authorization;
  mret (add_attribute "new_route" new_route (add_attribute "action" "update_route" Response_new)).

(** [&slice[n..]]: panics when the slice is shorter. *)
Definition slice_from (l : Binary) (n : nat) : option Binary :=
  if bool_decide (n ≤ length l) then Some (drop n l) else None.

(** Is the domain of a ZK message known and executed by CosmWasm? *)
Definition check_zk_domain (domain : Domain) : M unit :=
  match domain with
  | DomainMain => mret ()
  | DomainExternal name =>
      external_domain ← map_load EXTERNAL_DOMAINS name;
      match execution_environment external_domain with
      | EnvCosmwasm _ => mret ()
      | EnvEvm _ _ => fail (ZK InvalidDomain)
      end
  end.

(** The check of the block number of a proof against the last one executed. *)
Definition check_last_block (zk_authorization : ZkAuthorization) (block_number : N) : M unit :=
  if zk_validate_last_block_execution zk_authorization then
    last ← map_may_load REGISTRY_LAST_BLOCK_EXECUTION (zk_registry zk_authorization);
    _ ← fail_if (block_number <=? default 0%N last)%N (ZK ProofNoLongerValid);
    map_save REGISTRY_LAST_BLOCK_EXECUTION (zk_registry zk_authorization) block_number
  else mret ().

(** The messages a ZK message enqueues or inserts. *)
Definition zk_batch_msgs (m : AuthorizationMsg) : option (list ProcessorMessage) :=
  match m with
  | EnqueueMsgs _ msgs _ _ _ | InsertMsgs _ _ msgs _ _ _ => Some msgs
  | _ => None
  end.

Definition execute_zk_authorization (q : Querier) (env : Env) (info : MessageInfo)
    (label : string) (inputs proof payload : Binary) : M Response :=
  zk_authorization ← load_zk_authorization label;
  _ ← fail_if (bool_decide (zk_state zk_authorization ≠ Enabled)) (Unauthorized NotEnabled);
  verification_router ← map_err (ZK VerificationRouterNotSet)
                          (item_load VERIFICATION_ROUTER : Exec storage StdError _);
  _ ← validate_permission (zk_label zk_authorization) (zk_mode zk_authorization) q
        (env_contract env) info;
  _ ← map_err (ZK InvalidVerificationRoute)
        (of_result (query_get_route q verification_router
                      (zk_verification_route zk_authorization)) : Exec storage StdError _);
  valid ← of_result (query_verify q verification_router (zk_verification_route zk_authorization)
                       (zk_vk zk_authorization) inputs proof payload);
  _ ← fail_if (negb valid) (ZK InvalidZKProof);
  zk_message_bytes ← expect (slice_from inputs 32);
  zk_message ← of_result (from_json zk_message_bytes);
  _ ← fail_if (negb (zm_registry zk_message =? zk_registry zk_authorization)%N)
        (ZK InvalidZKRegistry);
  _ ← match zm_authorization_contract zk_message with
      | Some authorization_contract =>
          fail_if (bool_decide (authorization_contract ≠ env_contract env))
            (ZK InvalidAuthorizationContract)
      | None => mret ()
      end;
  _ ← check_zk_domain (zm_domain zk_message);
  _ ← check_last_block zk_authorization (zm_block_number zk_message);
  pc ← match zk_batch_msgs (zm_message zk_message) with
       | Some msgs =>
           current_executions ← load_current_executions label;
           _ ← increase_current_executions label current_executions;
           execution_id ← get_and_increase_execution_id;
           let processor_msg := assign_execution_id (zm_message zk_message) execution_id in
           callback_request ← execution_callback env execution_id;
           _ ← store_inprocess_callback (now_seconds env) execution_id
                 (InitUser (info_sender info)) (zm_domain zk_message) label None msgs;
           mret (processor_msg, Some callback_request)
       | None => mret (zm_message zk_message, None)
       end;
  execute_msg_binary ← of_result (to_json_binary (AuthorizationModuleAction pc.1));
  msg ← create_msg_for_processor execute_msg_binary (zm_domain zk_message) pc.2;
  mret (add_attribute "zk_authorization_label" (zk_label zk_authorization)
         (add_attribute "action" "execute_zk_authorization" (add_message msg Response_new))).

(** The token is sent back to the user who paid it. *)
Definition refund_msg (env : Env) (label : string) (initiator_addr : Addr) : CosmosMsg :=
  CosmosBankSend initiator_addr
    [mkCoin (build_tokenfactory_denom (env_contract env) label) 1].

(** A retry sends the batch again while its time to live has not expired;
    afterwards the token of a user is returned once. *)
Definition resend_msgs (env : Env) (execution_id : N) (callback_info : ProcessorCallbackInfo)
    : M (ProcessorCallbackInfo * list CosmosMsg) :=
  current_executions ← map_load CURRENT_EXECUTIONS (cb_label callback_info);
  authorization ← map_load AUTHORIZATIONS (cb_label callback_info);
  _ ← fail_if (max_concurrent_executions authorization <=? current_executions)%N
        (AuthorizationE MaxConcurrentExecutionsReached);
  _ ← increase_current_executions (cb_label callback_info) current_executions;
  let expiration_time := batch_expiration env (subroutine authorization) in
  execute_msg_binary ← of_result (to_json_binary (AuthorizationModuleAction
    (EnqueueMsgs execution_id (cb_messages callback_info) (subroutine authorization)
       (priority authorization) expiration_time)));
  callback_request ← execution_callback env execution_id;
  msg ← create_msg_for_processor execute_msg_binary (cb_domain callback_info)
          (Some callback_request);
  mret (set_result InProcess (now_seconds env) callback_info, [msg]).
Definition give_up_msgs (env : Env) (callback_info : ProcessorCallbackInfo)
    : M (ProcessorCallbackInfo * list CosmosMsg) :=
  authorization ← map_load AUTHORIZATIONS (cb_label callback_info);
  match cb_initiator callback_info, mode authorization with
  | InitUser initiator_addr, Permissioned (WithCallLimit _) =>
      mret (set_result (Timeout false) (now_seconds env) callback_info,
            [refund_msg env (cb_label callback_info) initiator_addr])
  | _, _ => mret (callback_info, [])
  end.
Definition retry_msgs (env : Env) (execution_id : N) : M Response :=
  callback_info ← map_err (ExecutionIDNotFound execution_id)
                    (map_load PROCESSOR_CALLBACKS execution_id : Exec storage StdError _);
  _ ← fail_if (bool_decide (cb_execution_result callback_info ≠ Timeout true))
        (MessageE NotRetriable);
  let live := match cb_ttl callback_info with
              | Some ttl => negb (is_expired ttl (env_block env))
              | None => false
              end in
  cm ← (if live then resend_msgs env execution_id callback_info
        else give_up_msgs env callback_info);
  _ ← map_save PROCESSOR_CALLBACKS execution_id cm.1;
  mret (add_attribute "action" "retry_msgs" (add_messages cm.2 Response_new)).

Definition retry_bridge_creation (env : Env) (domain_name : string) : M Response :=
  external_domain ← map_load EXTERNAL_DOMAINS domain_name;
  match execution_environment external_domain with
  | EnvCosmwasm (Polytone_ connectors) =>
      let note := polytone_note connectors in
      _ ← fail_if (bool_decide (note_state note ≠ ProxyTimedOut))
            (Unauthorized BridgeCreationNotTimedOut);
      let new_connectors :=
        mkPolytoneConnectors
          (mkPolytoneNote (note_address note) (note_timeout_seconds note) ProxyPendingResponse)
          (polytone_proxy connectors) in
      _ ← map_save EXTERNAL_DOMAINS domain_name
            (mkExternalDomain (ed_name external_domain) (EnvCosmwasm (Polytone_ new_connectors))
               (ed_processor external_domain));
      msg ← create_proxy_msg env note domain_name;
      mret (add_attribute "action" "retry_bridge_creation" (add_message msg Response_new))
  | EnvEvm _ (Hyperlane_ _) => fail BridgeCreationNotRequired
  end.

(** What happens to the token of a user once the result is known. *)
Definition settle_token (env : Env) (label : string) (initiator_addr : Addr)
    (r : ExecutionResult) : M CosmosMsg :=
  match r with
  | Success | PartiallyExecuted _ _ | RemovedByOwner =>
      expect (burn_msg (env_contract env) 1
                (build_tokenfactory_denom (env_contract env) label))
  | _ => mret (refund_msg env label initiator_addr)
  end.

Definition process_processor_callback (env : Env) (info : MessageInfo) (execution_id : N)
    (execution_result : ExecutionResult) : M Response :=
  callback ← map_load PROCESSOR_CALLBACKS execution_id;
  _ ← fail_if (bool_decide (info_sender info ≠ cb_processor_callback_address callback))
        (Unauthorized UnauthorizedProcessorCallbackSender);
  let callback := set_result execution_result (now_seconds env) callback in
  _ ← map_save PROCESSOR_CALLBACKS execution_id callback;
  _ ← reduce_current_executions (cb_label callback);
  authorization_mode ← get_authorization_mode (cb_label callback);
  messages ←
    match cb_initiator callback, authorization_mode with
    | InitUser initiator_addr, Permissioned (WithCallLimit _) =>
        msg ← settle_token env (cb_label callback) initiator_addr (cb_execution_result callback);
        mret [msg]
    | _, _ => mret []
    end;
  mret (add_attribute "execution_id" (pretty execution_id)
         (add_attribute "action" "process_processor_callback"
            (add_messages messages Response_new))).

(** A polytone error on an execution that is still in process. *)
Definition polytone_error (env : Env) (execution_id : N) (callback_info : ProcessorCallbackInfo)
    (error : string) : M (list CosmosMsg) :=
  let expired := match cb_ttl callback_info with
                 | Some ttl => is_expired ttl (env_block env)
                 | None => true
                 end in
  rm ← (if bool_decide (error = "timeout") then
          messages ←
            (if expired then
               authorization_mode ← get_authorization_mode (cb_label callback_info);
               match cb_initiator callback_info, authorization_mode with
               | InitUser initiator_addr, Permissioned (WithCallLimit _) =>
                   mret [refund_msg env (cb_label callback_info) initiator_addr]
               | _, _ => mret []
               end
             else mret []);
          mret (Timeout (negb expired), messages)
        else mret (UnexpectedError error, []));
  _ ← map_save PROCESSOR_CALLBACKS execution_id
        (set_result rm.1 (now_seconds env) callback_info);
  _ ← reduce_current_executions (cb_label callback_info);
  mret rm.2.

Definition polytone_execution_callback (env : Env) (info : MessageInfo) (execution_id : N)
    (result : Callback) : M (list CosmosMsg) :=
  callback_info ← map_load PROCESSOR_CALLBACKS execution_id;
  polytone_address ← ok_or (cb_bridge_callback_address callback_info)
                       (Unauthorized UnauthorizedCallbackSender);
  _ ← fail_if (bool_decide (info_sender info ≠ polytone_address))
        (Unauthorized UnauthorizedCallbackSender);
  match result with
  | CallbackExecute (inl _) => mret []
  | CallbackExecute (inr error) =>
      if bool_decide (cb_execution_result callback_info = InProcess)
      then polytone_error env execution_id callback_info error
      else mret []
  | CallbackFatalError error =>
      _ ← map_save PROCESSOR_CALLBACKS execution_id
            (set_result (UnexpectedError error) (now_seconds env) callback_info);
      _ ← reduce_current_executions (cb_label callback_info);
      mret []
  | CallbackQuery => fail (MessageE InvalidPolytoneCallback)
  end.

(** The state of the proxy after a polytone callback. *)
Definition proxy_state_after (c : PolytoneConnectors) (result : Callback)
    : option PolytoneProxyState :=
  match result with
  | CallbackExecute r =>
      Some (if bool_decide (r = inr "timeout") &&
               bool_decide (get_polytone_proxy_state c = ProxyPendingResponse)
            then ProxyTimedOut else ProxyCreated)
  | CallbackFatalError error => Some (ProxyUnexpectedError error)
  | CallbackQuery => None
  end.
Definition polytone_proxy_callback (info : MessageInfo) (domain_name : string) (result : Callback)
    : M (list CosmosMsg) :=
  external_domain ← map_load EXTERNAL_DOMAINS domain_name;
  _ ← fail_if (bool_decide (info_sender info ≠
                 get_connector_address (execution_environment external_domain)))
        (Unauthorized UnauthorizedCallbackSender);
  match execution_environment external_domain with
  | EnvCosmwasm (Polytone_ connectors) =>
      st ← ok_or (proxy_state_after connectors result) (MessageE InvalidPolytoneCallback);
      _ ← map_save EXTERNAL_DOMAINS domain_name
            (mkExternalDomain (ed_name external_domain)
               (EnvCosmwasm (Polytone_ (set_polytone_proxy_state connectors st)))
               (ed_processor external_domain));
      mret []
  | EnvEvm _ _ => fail (MessageE InvalidPolytoneCallback)
  end.

Definition process_polytone_callback (env : Env) (info : MessageInfo)
    (callback_msg : CallbackMessage) : M Response :=
  _ ← fail_if (bool_decide (initiator callback_msg ≠ env_contract env))
        (Unauthorized InvalidPolytoneCallbackInitiator);
  polytone_callback_msg ← map_err (MessageE InvalidPolytoneCallback)
    (of_result (from_json (initiator_msg callback_msg)) : Exec storage StdError _);
  messages ←
    match polytone_callback_msg with
    | AuthExecutionID execution_id =>
        polytone_execution_callback env info execution_id (cm_result callback_msg)
    | AuthCreateProxy domain_name =>
        polytone_proxy_callback info domain_name (cm_result callback_msg)
    end;
  mret (add_attribute "action" "process_polytone_callback" (add_messages messages Response_new)).

(** The encoder of an external domain that a Hyperlane message may come from. *)
Definition hyperlane_encoder (info : MessageInfo) (handle_msg : HandleMsg) (d : ExternalDomain)
    : option Encoder :=
  match execution_environment d with
  | EnvEvm encoder (Hyperlane_ connector) =>
      if bool_decide (mailbox connector ≠ info_sender info) then None
      else if negb (domain_id connector =? hm_origin handle_msg)%N then None
      else match format_address_for_hyperlane (ed_processor d) with
           | Ok formatted_address =>
               if bool_decide (formatted_address = hm_sender handle_msg) then Some encoder
               else None
           | _ => None
           end
  | EnvCosmwasm _ => None
  end.
(** Keys are enumerated in lexicographic order. *)
Definition find_hyperlane_encoder (info : MessageInfo) (handle_msg : HandleMsg) (s : storage)
    : option Encoder :=
  head (omap (λ kd : string * ExternalDomain, hyperlane_encoder info handle_msg kd.2)
          (map_range String.leb (s_external_domains s) None)).

Definition process_hyperlane_callback (q : Querier) (env : Env) (info : MessageInfo)
    (handle_msg : HandleMsg) : M Response :=
  s ← get_storage;
  encoder ← ok_or (find_hyperlane_encoder info handle_msg s)
              (Unauthorized UnauthorizedCallbackSender);
  wrapped_callback ← of_result (query_decode q (broker_address encoder)
                        (encoder_version encoder) (HyperlaneCallback (hm_body handle_msg)));
  cb ← of_result (from_json wrapped_callback);
  let '(ProcessorCallback execution_id execution_result) := cb in
  callback_info ← map_load PROCESSOR_CALLBACKS execution_id;
  _ ← map_save PROCESSOR_CALLBACKS execution_id
        (set_result execution_result (now_seconds env) callback_info);
  _ ← reduce_current_executions (cb_label callback_info);
  mret (add_attribute "execution_id" (pretty execution_id)
         (add_attribute "action" "process_hyperlane_callback" Response_new)).

Definition execute_permissioned (q : Querier) (env : Env) (msg : PermissionedMsg) : M Response :=
  match msg with
  | AddExternalDomains external_domains => add_external_domains env external_domains
  | CreateAuthorizations authorizations => create_authorizations q env authorizations
  | CreateZkAuthorizations zk_authorizations => create_zk_authorizations env zk_authorizations
  | ModifyAuthorization label not_before expiration max_concurrent_executions priority =>
      modify_authorization q label not_before expiration max_concurrent_executions priority
  | ModifyZkAuthorization label validate_last_block_execution =>
      modify_zk_authorization label validate_last_block_execution
  | DisableAuthorization label => disable_authorization label
  | EnableAuthorization label => enable_authorization label
  | MintAuthorizations label mints => mint_authorizations env label mints
  | PermEvictMsgs domain queue_position priority => evict_messages q domain queue_position priority
  | PermInsertMsgs label queue_position priority messages =>
      insert_messages q env label queue_position priority messages
  | PauseProcessor domain => pause_processor q domain
  | ResumeProcessor domain => resume_processor q domain
  | SetVerificationRouter address => set_verification_router address
  | UpdateZkAuthorizationRoute label new_route => update_zk_authorization_route label new_route
  end.
Definition execute_permissionless (q : Querier) (env : Env) (info : MessageInfo)
    (msg : PermissionlessMsg) : M Response :=
  match msg with
  | SendMsgs label messages ttl => send_msgs q env info label ttl messages
  | RetryMsgs execution_id => retry_msgs env execution_id
  | RetryBridgeCreation domain_name => retry_bridge_creation env domain_name
  | ExecuteZkAuthorization label inputs proof payload =>
      execute_zk_authorization q env info label inputs proof payload
  end.
Definition execute (q : Querier) (env : Env) (info : MessageInfo) (msg : AuthorizationExecuteMsg)
    : M Response :=
  match msg with
  | UpdateOwnership action => update_ownership env info action
  | OwnerAction owner_msg =>
      _ ← assert_owner_ (info_sender info);
      match owner_msg with
      | AddSubOwner sub_owner => add_sub_owner sub_owner
      | RemoveSubOwner sub_owner => remove_sub_owner sub_owner
      end
  | PermissionedAction permissioned_msg =>
      _ ← assert_owner_or_subowner (info_sender info);
      execute_permissioned q env permissioned_msg
  | PermissionlessAction permissionless_msg =>
      execute_permissionless q env info permissionless_msg
  | InternalAuthorizationAction (ProcessorCallback execution_id execution_result) =>
      process_processor_callback env info execution_id execution_result
  | AuthPolytoneCallback callback_msg => process_polytone_callback env info callback_msg
  | AuthHyperlaneCallback handle_msg => process_hyperlane_callback q env info handle_msg
  end.

(** ** Queries *)
Definition get_sub_owners : Exec storage StdError (list Addr) :=
  s ← get_storage;
  mret (fst <$> map_range String.leb (s_sub_owners s) None).
Definition get_processor : Exec storage StdError Addr := item_load PROCESSOR_ON_MAIN_DOMAIN.
Definition page_limit (limit : option N) : nat :=
  N.to_nat (N.min (default MAX_PAGE_LIMIT limit) MAX_PAGE_LIMIT).
Definition get_external_domains (s : storage) (start_after : option string) (limit : option N)
    : list ExternalDomain :=
  snd <$> take (page_limit limit) (map_range String.leb (s_external_domains s) start_after).
Definition get_external_domain (name : string) : Exec storage StdError ExternalDomain :=
  map_load EXTERNAL_DOMAINS name.
Definition get_authorizations (s : storage) (start_after : option string) (limit : option N)
    : list Authorization :=
  snd <$> take (page_limit limit) (map_range String.leb (s_authorizations s) start_after).
Definition get_zk_authorizations (s : storage) (start_after : option string) (limit : option N)
    : list ZkAuthorization :=
  snd <$> take (page_limit limit) (map_range String.leb (s_zk_authorizations s) start_after).
Definition get_verification_router : Exec storage StdError Addr := item_load VERIFICATION_ROUTER.
Definition get_processor_callbacks (s : storage) (start_after limit : option N)
    : list ProcessorCallbackInfo :=
  snd <$> take (page_limit limit) (map_range N.leb (s_processor_callbacks s) start_after).
Definition get_processor_callback (execution_id : N)
    : Exec storage StdError ProcessorCallbackInfo :=
  map_load PROCESSOR_CALLBACKS execution_id.
End Contract.
End Authorization.
