(* ===== verification/Routers.v ===== *)
(** * The encoder broker and the verification router

    [contracts/encoders/broker] and [contracts/middleware/verification/router]: two
    registries that the authorization contract queries; and a verifier of proofs behind the
    router, [contracts/middleware/verification/sp1-verifier].  The broker forwards encoding
    requests to the encoder registered for a version, the router forwards proofs to the
    verifier registered for a route.  [routed_querier] answers the queries of the
    authorization contract with them. *)
From Stdlib Require Import Strings.Byte.
From S2P Require Import Prelude Platform Types Accounts LibraryBase AuthorizationUtils Authorization.

(** The error of both contracts; [RouteAlreadyExists] is the router's. *)
Inductive RouterError :=
| RouterStd (e : StdError)
| RouterOwnership (e : OwnershipError)
| RouteAlreadyExists.
#[global] Instance From_Std_Router : From StdError RouterError := RouterStd.
#[global] Instance From_Ownership_Router : From OwnershipError RouterError := RouterOwnership.

(** The encoder contracts, as the broker queries them ([EncoderQueryMsg]). *)
Record Encoders := mkEncoders {
  encoder_is_valid_library : Addr → string → result StdError bool;
  encoder_encode : Addr → ProcessorMessageToEncode → result StdError Binary;
  encoder_decode : Addr → ProcessorMessageToDecode → result StdError Binary;
}.
(** The verifier contracts, as the router queries them: key, inputs, proof, payload. *)
Definition Verifiers : Type := Addr → Binary → Binary → Binary → Binary → result StdError bool.

(** ** The encoder broker *)
Module EncoderBroker.

Record storage := mkStorage {
  s_contract_info : option (string * string);
  s_ownership : option Ownership;
  s_encoders : gmap string Addr;
}.
Definition empty_storage : storage := mkStorage None None ∅.
Definition CONTRACT_INFO : lens storage (option (string * string)) :=
  Lens s_contract_info (λ x s, mkStorage x (s_ownership s) (s_encoders s)).
Definition OWNERSHIP : lens storage (option Ownership) :=
  Lens s_ownership (λ x s, mkStorage (s_contract_info s) x (s_encoders s)).
Definition ENCODERS : lens storage (gmap string Addr) :=
  Lens s_encoders (λ x s, mkStorage (s_contract_info s) (s_ownership s) x).

Record InstantiateMsg := mkInstantiateMsg { bi_encoders : gmap string string; bi_owner : string }.
Inductive ExecuteMsg :=
| RegisterEncoder (version address : string)
| RemoveEncoder (version : string)
| UpdateOwnership (action : OwnableAction).
Definition CONTRACT_NAME : string := "valence-encoder-broker".
Definition CONTRACT_VERSION : string := "0.2.0".

Section Contract.
Context `{Platform} `{CwOwnable} `{HashOrder}.
Abbreviation M := (Exec storage RouterError).

Definition instantiate (_env : Env) (_info : MessageInfo) (msg : InstantiateMsg)
    : Exec storage StdError Response :=
  _ ← item_save CONTRACT_INFO (CONTRACT_NAME, CONTRACT_VERSION);
  ownership ← of_result (initialize_owner (Some (bi_owner msg)));
  _ ← item_save OWNERSHIP ownership;
  _ ← for_each (hash_iter (bi_encoders msg)) (λ '(version, encoder),
        addr ← of_result (addr_validate encoder);
        map_save ENCODERS version addr);
  mret (add_attributes [("method", "instantiate"); ("owner", bi_owner msg)] Response_new).

Definition assert_owner_ (sender : Addr) : M unit :=
  s ← get_storage;
  of_result (assert_owner (s_ownership s) sender).

Definition execute (env : Env) (info : MessageInfo) (msg : ExecuteMsg) : M Response :=
  match msg with
  | RegisterEncoder version address =>
      _ ← assert_owner_ (info_sender info);
      addr ← of_result (addr_validate address);
      _ ← map_save ENCODERS version addr;
      mret (add_attributes [("method", "register_encoder"); ("address", address);
              ("version", version)] Response_new)
  | RemoveEncoder version =>
      _ ← assert_owner_ (info_sender info);
      _ ← map_remove ENCODERS version;
      mret (add_attributes [("method", "remove_encoder"); ("version", version)] Response_new)
  | UpdateOwnership action =>
      s ← get_storage;
      ownership ← of_result (update_ownership_lib (s_ownership s) (env_block env)
                               (info_sender info) action);
      _ ← item_save OWNERSHIP ownership;
      mret (add_attributes (into_attributes ownership) Response_new)
  end.

(** The queries; a missing encoder has the empty address. *)
Definition get_encoder (s : storage) (version : string) : string :=
  default "" (s_encoders s !! version).
Definition list_encoders (s : storage) : list (string * Addr) :=
  map_range String.leb (s_encoders s) None.
Definition load_encoder (s : storage) (version : string) : result StdError Addr :=
  match s_encoders s !! version with Some a => Ok a | None => Err NotFound end.
Definition is_valid_library (e : Encoders) (s : storage) (encoder_version library : string)
    : result StdError bool :=
  encoder ← load_encoder s encoder_version;
  encoder_is_valid_library e encoder library.
Definition encode (e : Encoders) (s : storage) (encoder_version : string)
    (message : ProcessorMessageToEncode) : result StdError Binary :=
  encoder ← load_encoder s encoder_version;
  encoder_encode e encoder message.
Definition decode (e : Encoders) (s : storage) (encoder_version : string)
    (message : ProcessorMessageToDecode) : result StdError Binary :=
  encoder ← load_encoder s encoder_version;
  encoder_decode e encoder message.
End Contract.
End EncoderBroker.

(** ** The verification router *)
Module VerificationRouter.

Record storage := mkStorage {
  s_contract_info : option (string * string);
  s_ownership : option Ownership;
  s_routes : gmap string Addr;
}.
Definition empty_storage : storage := mkStorage None None ∅.
Definition CONTRACT_INFO : lens storage (option (string * string)) :=
  Lens s_contract_info (λ x s, mkStorage x (s_ownership s) (s_routes s)).
Definition OWNERSHIP : lens storage (option Ownership) :=
  Lens s_ownership (λ x s, mkStorage (s_contract_info s) x (s_routes s)).
Definition ROUTES : lens storage (gmap string Addr) :=
  Lens s_routes (λ x s, mkStorage (s_contract_info s) (s_ownership s) x).

Record InstantiateMsg := mkInstantiateMsg { ri_initial_routes : gmap string string; ri_owner : string }.
Inductive ExecuteMsg :=
| AddRoute (name address : string)
| UpdateOwnership (action : OwnableAction).
Definition CONTRACT_NAME : string := "valence-verification-router".
Definition CONTRACT_VERSION : string := "0.2.0".
Definition MAX_PAGE_LIMIT : N := 250.

Section Contract.
Context `{Platform} `{CwOwnable} `{HashOrder}.
Abbreviation M := (Exec storage RouterError).

Definition instantiate (_env : Env) (_info : MessageInfo) (msg : InstantiateMsg)
    : Exec storage StdError Response :=
  _ ← item_save CONTRACT_INFO (CONTRACT_NAME, CONTRACT_VERSION);
  ownership ← of_result (initialize_owner (Some (ri_owner msg)));
  _ ← item_save OWNERSHIP ownership;
  _ ← for_each (hash_iter (ri_initial_routes msg)) (λ '(name, verifier),
        addr ← of_result (addr_validate verifier);
        map_save ROUTES name addr);
  mret (add_attributes [("method", "instantiate"); ("owner", ri_owner msg)] Response_new).

Definition assert_owner_ (sender : Addr) : M unit :=
  s ← get_storage;
  of_result (assert_owner (s_ownership s) sender).

Definition execute (env : Env) (info : MessageInfo) (msg : ExecuteMsg) : M Response :=
  match msg with
  | AddRoute name address =>
      _ ← assert_owner_ (info_sender info);
      exists_ ← map_has ROUTES name;
      _ ← fail_if exists_ RouteAlreadyExists;
      addr ← of_result (addr_validate address);
      _ ← map_save ROUTES name addr;
      mret (add_attributes [("method", "add_route"); ("name", name); ("verifier", addr)] Response_new)
  | UpdateOwnership action =>
      s ← get_storage;
      ownership ← of_result (update_ownership_lib (s_ownership s) (env_block env)
                               (info_sender info) action);
      _ ← item_save OWNERSHIP ownership;
      mret (add_attributes (into_attributes ownership) Response_new)
  end.

Definition get_route (s : storage) (name : string) : result StdError Addr :=
  match s_routes s !! name with Some a => Ok a | None => Err NotFound end.
Definition get_routes (s : storage) (start_after : option string) (limit : option N)
    : list (string * Addr) :=
  let limit := N.min (default MAX_PAGE_LIMIT limit) MAX_PAGE_LIMIT in
  take (N.to_nat limit) (map_range String.leb (s_routes s) start_after).
Definition verify (v : Verifiers) (s : storage) (route : string) (vk inputs proof payload : Binary)
    : result StdError bool :=
  verifier ← get_route s route;
  v verifier vk inputs proof payload.
End Contract.
End VerificationRouter.

(** ** The verifier of SP1 proofs *)
(** The crate [sp1_verifier] with its fixed key, and [String::from_utf8]. *)
Class Groth16 := {
  from_utf8 : Binary → result string string;
  groth16_verify : Binary → Binary → string → result string unit;
}.
Module Sp1Verifier.
Record storage := mkStorage { s_domain_vk : option Binary }.
Definition empty_storage : storage := mkStorage None.
Definition DOMAIN_VK : lens storage (option Binary) := Lens s_domain_vk (λ x _, mkStorage x).
Section Contract.
Context `{Groth16} (binary_to_string : Binary → string).
Definition instantiate (_env : Env) (_info : MessageInfo) (domain_vk : Binary) : Exec storage StdError Response :=
  _ ← item_save DOMAIN_VK domain_vk;
  mret (add_attributes [("action", "instantiate_verifier"); ("domain_vk", binary_to_string domain_vk)] Response_new).
Definition execute (_env : Env) (_info : MessageInfo) : Exec storage StdError Response := λ _, Panic.
Definition verify_proof (vk proof inputs : Binary) : result StdError unit :=
  sp1_vkey_hash ← map_err_r (λ e, GenericErr ("Failed to parse vk hash: " +:+ e)%string) (from_utf8 vk);
  map_err_r (λ e, GenericErr ("Failed to verify SP1 program proof with vk hash " +:+ sp1_vkey_hash +:+ ": " +:+ e)%string)
    (groth16_verify proof inputs sp1_vkey_hash).
Definition query_domain_vk (s : storage) : result StdError Binary := ok_or_r (s_domain_vk s) NotFound.
(** The inputs of the domain proof are the first 32 bytes; shorter inputs are a panic. *)
Definition verify (s : storage) (vk proof inputs payload : Binary) : result StdError bool :=
  _ ← verify_proof vk proof inputs;
  domain_vk ← query_domain_vk s;
  domain_inputs ← expect_r (if 32 <=? length inputs then Some (take 32 inputs) else None);
  _ ← verify_proof domain_vk payload domain_inputs;
  Ok true.
End Contract.
End Sp1Verifier.
(** SP1 verifiers, by address, as the router queries them. *)
Definition sp1_verifiers `{Groth16} (querier_error : StdError → string) (contracts : gmap Addr Sp1Verifier.storage)
    : Verifiers := λ verifier vk inputs proof payload,
  query_contract querier_error contracts verifier (λ s, Sp1Verifier.verify s vk proof inputs payload).

(** ** The queries of the authorization contract *)

(** The contracts on the chain: the brokers and routers with their state, by address. *)
Record Contracts := mkContracts {
  ch_brokers : gmap Addr EncoderBroker.storage;
  ch_routers : gmap Addr VerificationRouter.storage;
  ch_encoders : Encoders;
  ch_verifiers : Verifiers;
  ch_balance : Addr → string → result StdError N;
}.
Definition routed_querier (querier_error : StdError → string) (c : Contracts) : Authorization.Querier :=
  Authorization.mkQuerier (ch_balance c)
    (λ broker version library, query_contract querier_error (ch_brokers c) broker
       (λ s, EncoderBroker.is_valid_library (ch_encoders c) s version library))
    (λ broker version message, query_contract querier_error (ch_brokers c) broker
       (λ s, EncoderBroker.encode (ch_encoders c) s version message))
    (λ broker version message, query_contract querier_error (ch_brokers c) broker
       (λ s, EncoderBroker.decode (ch_encoders c) s version message))
    (λ router route, query_contract querier_error (ch_routers c) router
       (λ s, VerificationRouter.get_route s route))
    (λ router route vk inputs proof payload, query_contract querier_error (ch_routers c) router
       (λ s, VerificationRouter.verify (ch_verifiers c) s route vk inputs proof payload)).
