(* ===== verification/AuthorizationFacts.v ===== *)
(** * Authorization: shared lemmas

    Which handlers only read the storage, and the helpers' effect on it. *)
From S2P Require Import Prelude Platform Types AuthorizationUtils Authorization.
Import Authorization.

Section ReadOnlyHelpers.
Context `{Platform} `{SerdeJson} `{CwOwnable} `{TokenFactoryProto}.
Context `{JsonCodec ProcessorExecuteMsg} `{JsonCodec PolytoneExecuteMsg}.
Context `{JsonCodec HyperlaneExecuteMsg} `{JsonCodec AuthPolytoneCallbackMsg}.

#[global] Instance load_current_executions_ro l : ReadOnly (load_current_executions l).
Proof. unfold load_current_executions. apply _. Qed.
#[global] Instance load_authorization_ro l : ReadOnly (load_authorization l).
Proof. unfold load_authorization. apply _. Qed.
#[global] Instance load_zk_authorization_ro l : ReadOnly (load_zk_authorization l).
Proof. unfold load_zk_authorization. apply _. Qed.
#[global] Instance get_authorization_mode_ro l : ReadOnly (get_authorization_mode l).
Proof. unfold get_authorization_mode. apply _. Qed.
#[global] Instance callback_addresses_ro d : ReadOnly (callback_addresses d).
Proof. unfold callback_addresses. apply _. Qed.
#[global] Instance get_domain_ro a : ReadOnly (get_domain a).
Proof. unfold get_domain. apply _. Qed.
#[global] Instance create_msg_for_processor_ro b d c : ReadOnly (create_msg_for_processor b d c).
Proof. unfold create_msg_for_processor, create_msg_for_main_domain. apply _. Qed.
#[global] Instance encode_for_domain_ro q d m e : ReadOnly e → ReadOnly (encode_for_domain q d m e).
Proof. unfold encode_for_domain. apply _. Qed.
#[global] Instance validate_functions_ro {F} `{Function F} q (fs : list F) :
  ReadOnly (validate_functions q fs).
Proof.
  unfold validate_functions, validate_domain, validate_message_type, validate_evm_library,
    validate_param_restrictions. apply _.
Qed.
#[global] Instance validate_ro q a : ReadOnly (validate q a).
Proof. unfold validate, validate_subroutine. apply _. Qed.
#[global] Instance check_json_restriction_ro json r : ReadOnly (check_json_restriction json r).
Proof. unfold check_json_restriction. apply _. Qed.
#[global] Instance check_bytes_restriction_ro b r : ReadOnly (check_bytes_restriction b r).
Proof. unfold check_bytes_restriction. apply _. Qed.
#[global] Instance validate_message_ro {F} `{Function F} m (f : F) : ReadOnly (validate_message m f).
Proof. unfold validate_message. apply _. Qed.
#[global] Instance validate_messages_ro a ms : ReadOnly (validate_messages a ms).
Proof. unfold validate_messages, validate_messages_generic. apply _. Qed.
#[global] Instance validate_permission_ro l m q c i : ReadOnly (validate_permission l m q c i).
Proof. unfold validate_permission. apply _. Qed.
#[global] Instance validate_executable_ro q a b c i ms : ReadOnly (validate_executable q a b c i ms).
Proof.
  unfold validate_executable, ensure_enabled, ensure_active, ensure_not_expired. apply _.
Qed.
#[global] Instance assert_owner_ro a : ReadOnly (assert_owner_ a).
Proof. unfold assert_owner_. apply _. Qed.
#[global] Instance assert_owner_or_subowner_ro a : ReadOnly (assert_owner_or_subowner a).
Proof. unfold assert_owner_or_subowner. apply _. Qed.
#[global] Instance create_proxy_msg_ro e n d : ReadOnly (create_proxy_msg e n d).
Proof. unfold create_proxy_msg. apply _. Qed.
#[global] Instance permission_msgs_ro e l m : ReadOnly (permission_msgs e l m).
Proof. unfold permission_msgs. apply _. Qed.
#[global] Instance label_exists_ro l : ReadOnly (label_exists l).
Proof. unfold label_exists. apply _. Qed.
#[global] Instance execution_callback_ro e id : ReadOnly (execution_callback e id).
Proof. unfold execution_callback. apply _. Qed.
#[global] Instance check_zk_domain_ro d : ReadOnly (check_zk_domain d).
Proof. unfold check_zk_domain. apply _. Qed.
#[global] Instance give_up_msgs_ro e c : ReadOnly (give_up_msgs e c).
Proof. unfold give_up_msgs. apply _. Qed.
#[global] Instance settle_token_ro e l a r : ReadOnly (settle_token e l a r).
Proof. unfold settle_token. apply _. Qed.
#[global] Instance mint_authorizations_ro e l m : ReadOnly (mint_authorizations e l m).
Proof. unfold mint_authorizations. apply _. Qed.
#[global] Instance pause_processor_ro q d : ReadOnly (pause_processor q d).
Proof. unfold pause_processor. apply _. Qed.
#[global] Instance resume_processor_ro q d : ReadOnly (resume_processor q d).
Proof. unfold resume_processor. apply _. Qed.
#[global] Instance evict_messages_ro q d p pr : ReadOnly (evict_messages q d p pr).
Proof. unfold evict_messages. apply _. Qed.
End ReadOnlyHelpers.

(** ** The counters of executions *)
Definition current (s : storage) (l : string) : N := default 0%N (s_current_executions s !! l).
(** The storage after the execution [id] described by [cb] was started. *)
Definition start (id : N) (cb : ProcessorCallbackInfo) (s : storage) : storage :=
  lset PROCESSOR_CALLBACKS (<[id := cb]> (s_processor_callbacks s))
    (lset EXECUTION_ID (Some (wrapping_add u64_max id 1))
       (lset CURRENT_EXECUTIONS
          (<[cb_label cb := (current s (cb_label cb) + 1)%N]> (s_current_executions s)) s)).
(** The storage after the execution [id] got the result [cb]. *)
Definition settle (id : N) (cb : ProcessorCallbackInfo) (s : storage) : storage :=
  lset CURRENT_EXECUTIONS
    (<[cb_label cb := (current s (cb_label cb) - 1)%N]> (s_current_executions s))
    (lset PROCESSOR_CALLBACKS (<[id := cb]> (s_processor_callbacks s)) s).

Lemma load_current_executions_ok l s c s' :
  load_current_executions l s = Ok (c, s') → c = current s l ∧ s' = s.
Proof. unfold load_current_executions. intros. by run_inv. Qed.
Lemma increase_current_executions_ok l c s u s' :
  increase_current_executions l c s = Ok (u, s') →
  (c + 1 ≤ u64_max)%N ∧
  s' = lset CURRENT_EXECUTIONS (<[l := (c + 1)%N]> (s_current_executions s)) s.
Proof.
  unfold increase_current_executions. intros. run_inv.
  by match goal with H : checked_add _ _ _ = Some _ |- _ => apply checked_add_Some in H as [-> ?] end.
Qed.
Lemma decrement_ok c n : decrement c = Ok n → (0 < default 0 c)%N ∧ n = (default 0 c - 1)%N.
Proof. unfold decrement. case_match eqn:E; intros; simplify_eq. apply N.eqb_neq in E. lia. Qed.
Lemma reduce_current_executions_ok l s u s' :
  reduce_current_executions l s = Ok (u, s') →
  (0 < current s l)%N ∧
  s' = lset CURRENT_EXECUTIONS (<[l := (current s l - 1)%N]> (s_current_executions s)) s.
Proof.
  unfold reduce_current_executions. intros. run_inv.
  match goal with H : decrement _ = Ok _ |- _ => by apply decrement_ok in H as [? ->] end.
Qed.
Lemma get_and_increase_execution_id_ok s id s' :
  get_and_increase_execution_id s = Ok (id, s') →
  s_execution_id s = Some id ∧ s' = lset EXECUTION_ID (Some (wrapping_add u64_max id 1)) s.
Proof. unfold get_and_increase_execution_id. intros. by run_inv. Qed.
Lemma load_authorization_ok l s a s' :
  load_authorization l s = Ok (a, s') → s_authorizations s !! l = Some a ∧ s' = s.
Proof. unfold load_authorization. intros. by run_inv. Qed.
Lemma load_zk_authorization_ok l s a s' :
  load_zk_authorization l s = Ok (a, s') → s_zk_authorizations s !! l = Some a ∧ s' = s.
Proof. unfold load_zk_authorization. intros. by run_inv. Qed.

(** The record of an execution that starts. *)
Definition new_callback (now id : N) (who : OperationInitiator) (addrs : Addr * option Addr)
    (domain : Domain) (label : string) (ttl : option Expiration)
    (messages : list ProcessorMessage) : ProcessorCallbackInfo :=
  mkProcessorCallbackInfo id now now who addrs.2 addrs.1 domain label messages ttl InProcess.
Lemma store_inprocess_callback_ok now id who domain l ttl ms s u s' :
  store_inprocess_callback now id who domain l ttl ms s = Ok (u, s') →
  ∃ addrs, callback_addresses domain s = Ok (addrs, s) ∧
    s' = lset PROCESSOR_CALLBACKS
           (<[id := new_callback now id who addrs domain l ttl ms]> (s_processor_callbacks s)) s.
Proof. unfold store_inprocess_callback. intros. run_inv. by eexists. Qed.

(** The functions of a subroutine, and the domain of the first one. *)
Definition sub_functions (sub : Subroutine) : list DynFunction :=
  match sub with
  | Atomic c => DynAtomic <$> as_functions c
  | NonAtomic c => DynNonAtomic <$> ns_functions c
  end.
Definition authorization_domain (a : Authorization) : option Domain :=
  fn_domain <$> head (sub_functions (subroutine a)).
Lemma get_domain_ok a s d s' :
  get_domain a s = Ok (d, s') → authorization_domain a = Some d ∧ s' = s.
Proof.
  unfold get_domain, authorization_domain. intros.
  destruct (subroutine a) as [[[|f fs] ? ?]|[[|f fs] ?]]; by run_inv.
Qed.

(** Extends [run_inv] with the helpers of the authorization contract. *)
Ltac auth_inv_step :=
  match goal with
  | H : load_current_executions _ _ = Ok (_, _) |- _ =>
      apply load_current_executions_ok in H as [? ?]
  | H : increase_current_executions _ _ _ = Ok (_, _) |- _ =>
      apply increase_current_executions_ok in H as [? ?]
  | H : reduce_current_executions _ _ = Ok (_, _) |- _ =>
      apply reduce_current_executions_ok in H as [? ?]
  | H : get_and_increase_execution_id _ = Ok (_, _) |- _ =>
      apply get_and_increase_execution_id_ok in H as [? ?]
  | H : load_authorization _ _ = Ok (_, _) |- _ => apply load_authorization_ok in H as [? ?]
  | H : load_zk_authorization _ _ = Ok (_, _) |- _ => apply load_zk_authorization_ok in H as [? ?]
  | H : store_inprocess_callback _ _ _ _ _ _ _ _ = Ok (_, _) |- _ =>
      apply store_inprocess_callback_ok in H as (? & ? & ?)
  end.
Ltac auth_inv :=
  repeat (first [exec_inv_step | storage_inv_step | auth_inv_step | read_only_step];
          simplify_eq/=).
Ltac auth_case :=
  repeat (first [exec_inv_step | storage_inv_step | auth_inv_step | read_only_step | case_match];
          simplify_eq/=).

Section Effects.
Context `{Platform} `{SerdeJson} `{CwOwnable} `{TokenFactoryProto}.
Context `{JsonCodec ProcessorExecuteMsg} `{JsonCodec PolytoneExecuteMsg}.
Context `{JsonCodec HyperlaneExecuteMsg} `{JsonCodec AuthPolytoneCallbackMsg}.
Context `{JsonCodec ZkMessage} `{JsonCodec InternalAuthorizationMsg}.
Implicit Types s : storage.

(** The message [msg] carries [m] to the processor of the domain: a direct call
    on the main domain, a polytone packet with the execution id as its callback
    on a CosmWasm domain, and a Hyperlane dispatch of the encoded message on an
    EVM domain. *)
Definition dispatched (q : Querier) (env : Env) s (domain : Domain) (id : N)
    (m : AuthorizationMsg) (enc : result StdError ProcessorMessageToEncode) (msg : CosmosMsg)
    : Prop :=
  match domain with
  | DomainMain =>
      ∃ processor body,
        s_processor_on_main_domain s = Some processor ∧
        to_json_binary (AuthorizationModuleAction m) = Ok body ∧
        msg = CosmosWasm (WasmExecute processor body [])
  | DomainExternal name =>
      ∃ d, s_external_domains s !! name = Some d ∧
      match execution_environment d with
      | EnvCosmwasm (Polytone_ c) =>
          ∃ body cb outer,
            to_json_binary (AuthorizationModuleAction m) = Ok body ∧
            to_json_binary (AuthExecutionID id) = Ok cb ∧
            to_json_binary (PolytoneExecute [CosmosWasm (WasmExecute (ed_processor d) body [])]
              (Some (mkCallbackRequest (env_contract env) cb))
              (note_timeout_seconds (polytone_note c))) = Ok outer ∧
            msg = CosmosWasm (WasmExecute (note_address (polytone_note c)) outer [])
      | EnvEvm e (Hyperlane_ c) =>
          ∃ em body recipient outer,
            enc = Ok em ∧ query_encode q (broker_address e) (encoder_version e) em = Ok body ∧
            format_address_for_hyperlane (ed_processor d) = Ok recipient ∧
            to_json_binary (Dispatch (mkDispatchMsg (domain_id c) recipient body None None))
              = Ok outer ∧
            msg = CosmosWasm (WasmExecute (mailbox c) outer [])
      end
  end.
(** The addresses that may report on an execution in the domain. *)
Definition domain_callbacks s (domain : Domain) : option (Addr * option Addr) :=
  match domain with
  | DomainMain => (λ p, (p, None)) <$> s_processor_on_main_domain s
  | DomainExternal name =>
      (λ d, (get_callback_address (execution_environment d),
             Some (get_connector_address (execution_environment d))))
        <$> s_external_domains s !! name
  end.

Lemma callback_addresses_ok domain s addrs s' :
  callback_addresses domain s = Ok (addrs, s') → domain_callbacks s domain = Some addrs ∧ s' = s.
Proof.
  unfold callback_addresses, domain_callbacks. intros.
  destruct domain; auth_inv; by simplify_option_eq.
Qed.
Lemma dispatch_ok q env s domain id m (enc : result StdError ProcessorMessageToEncode)
    (to_encode : Exec storage ContractError ProcessorMessageToEncode) bytes cr msg :
  (∀ em s1 s2, to_encode s1 = Ok (em, s2) → enc = Ok em ∧ s2 = s1) →
  encode_for_domain q domain m to_encode s = Ok (bytes, s) →
  execution_callback env id s = Ok (cr, s) →
  create_msg_for_processor bytes domain (Some cr) s = Ok (msg, s) →
  dispatched q env s domain id m enc msg.
Proof.
  intros Henc Hb Hcr Hm. unfold encode_for_domain, execution_callback, create_msg_for_processor in *.
  unfold dispatched, create_msg_for_main_domain in *. destruct domain as [|name]; auth_inv; [eauto 6|].
  match goal with H : s_external_domains s !! name = Some ?d |- _ =>
    exists d; split; [done|]; destruct (execution_environment d) as [[c]|e [c]]; auth_inv end.
  - repeat match goal with H : create_msg_for_polytone _ _ _ _ _ = Ok _ |- _ =>
      apply bind_result_ok in H as (? & ? & [= <-]) end. eauto 8.
  - repeat match goal with H : create_msg_for_hyperlane _ _ _ _ = Ok _ |- _ =>
      apply bind_result_ok in H as (? & ? & (? & ? & [= <-])%bind_result_ok) end.
    match goal with H : to_encode _ = Ok _ |- _ => apply Henc in H as [-> _] end. eauto 10.
Qed.

Ltac dispatch_tac :=
  match goal with
  | Hb : encode_for_domain _ _ _ _ _ = _, Hc : execution_callback _ _ _ = _,
    Hm : create_msg_for_processor _ _ _ _ = _ |- dispatched _ _ _ _ _ _ _ _ =>
      refine (dispatch_ok _ _ _ _ _ _ _ _ _ _ _ _ Hb Hc Hm)
  end.

(** What a successful [send_msgs] checked and did. *)
Lemma send_msgs_ok q env info l ttl ms s r s' :
  send_msgs q env info l ttl ms s = Ok (r, s') →
  ∃ a domain addrs id msg,
    s_authorizations s !! l = Some a ∧
    validate_executable q a (env_block env) (env_contract env) info ms s = Ok ((), s) ∧
    (current s l < max_concurrent_executions a)%N ∧ (current s l < u64_max)%N ∧
    authorization_domain a = Some domain ∧ s_execution_id s = Some id ∧
    domain_callbacks s domain = Some addrs ∧
    dispatched q env s domain id
      (EnqueueMsgs id ms (subroutine a) (priority a) (batch_expiration env (subroutine a)))
      (em ← convert_into_encoder_messages ms a;
       mret (EncodeSendMsgs id (priority a) (subroutine a) (batch_expiration env (subroutine a)) em))
      msg ∧
    r = mkResponse [SubMsg_new msg]
          [("action", "send_msgs"); ("authorization_label", label a)] ∧
    s' = start id (new_callback (now_seconds env) id (InitUser (info_sender info)) addrs domain l
                     ttl ms) s.
Proof.
  unfold send_msgs. intros Hrun. auth_inv.
  repeat match goal with u : () |- _ => destruct u end.
  match goal with H : callback_addresses _ _ = _ |- _ => apply callback_addresses_ok in H as [? _] end.
  match goal with H : get_domain _ _ = _ |- _ => apply get_domain_ok in H as [? _] end.
  do 5 eexists. split_and!; try done; [by apply N.leb_gt|lia|dispatch_tac].
  intros em s1 s2 Hem. auth_inv. split; [|done].
  by match goal with H : convert_into_encoder_messages _ _ = _ |- _ => rewrite H end.
Qed.
(** The same for [insert_messages], which does not bound the executions. *)
Lemma insert_messages_ok q env l i p ms s r s' :
  insert_messages q env l i p ms s = Ok (r, s') →
  ∃ a domain addrs id msg,
    s_authorizations s !! l = Some a ∧ validate_messages a ms s = Ok ((), s) ∧
    (current s l < u64_max)%N ∧
    authorization_domain a = Some domain ∧ s_execution_id s = Some id ∧
    domain_callbacks s domain = Some addrs ∧
    dispatched q env s domain id
      (InsertMsgs i id ms (subroutine a) p (batch_expiration env (subroutine a)))
      (em ← convert_into_encoder_messages ms a;
       mret (EncodeInsertMsgs id i p (subroutine a) (batch_expiration env (subroutine a)) em))
      msg ∧
    r = mkResponse [SubMsg_new msg]
          [("action", "add_messages"); ("authorization_label", label a)] ∧
    s' = start id (new_callback (now_seconds env) id InitOwner addrs domain l None ms) s.
Proof.
  unfold insert_messages. intros Hrun. auth_inv.
  repeat match goal with u : () |- _ => destruct u end.
  match goal with H : callback_addresses _ _ = _ |- _ => apply callback_addresses_ok in H as [? _] end.
  match goal with H : get_domain _ _ = _ |- _ => apply get_domain_ok in H as [? _] end.
  do 5 eexists. split_and!; try done; [lia|dispatch_tac].
  intros em s1 s2 Hem. auth_inv. split; [|done].
  by match goal with H : convert_into_encoder_messages _ _ = _ |- _ => rewrite H end.
Qed.

(** The mode of the authorization or ZK authorization with a label. *)
Definition mode_of s (l : string) : option AuthorizationMode :=
  match s_authorizations s !! l with
  | Some a => Some (mode a)
  | None => zk_mode <$> s_zk_authorizations s !! l
  end.
Lemma get_authorization_mode_ok l s m s' :
  get_authorization_mode l s = Ok (m, s') → mode_of s l = Some m ∧ s' = s.
Proof.
  unfold get_authorization_mode, mode_of. intros. auth_case; by simplify_option_eq.
Qed.

(** The user whose token is at stake in an execution. *)
Definition paid_by (who : OperationInitiator) (m : AuthorizationMode) : option Addr :=
  match who, m with
  | InitUser addr, Permissioned (WithCallLimit _) => Some addr
  | _, _ => None
  end.
(** Results for which the token of the execution is burned. *)
Definition consumes_token (r : ExecutionResult) : bool :=
  match r with Success | PartiallyExecuted _ _ | RemovedByOwner => true | _ => false end.
(** The messages that settle the token of an execution. *)
Definition settlement env (cb : ProcessorCallbackInfo) (m : AuthorizationMode)
    (r : ExecutionResult) (msgs : list CosmosMsg) : Prop :=
  match paid_by (cb_initiator cb) m with
  | None => msgs = []
  | Some addr =>
      let denom := build_tokenfactory_denom (env_contract env) (cb_label cb) in
      if consumes_token r
      then ∃ burn, burn_msg (env_contract env) 1 denom = Some burn ∧ msgs = [burn]
      else msgs = [CosmosBankSend addr [mkCoin denom 1]]
  end.

Lemma process_processor_callback_ok env info id res s r s' :
  process_processor_callback env info id res s = Ok (r, s') →
  ∃ cb m msgs,
    s_processor_callbacks s !! id = Some cb ∧
    info_sender info = cb_processor_callback_address cb ∧
    (0 < current s (cb_label cb))%N ∧
    s' = settle id (set_result res (now_seconds env) cb) s ∧
    mode_of s (cb_label cb) = Some m ∧ settlement env cb m res msgs ∧
    r = mkResponse (SubMsg_new <$> msgs)
          [("action", "process_processor_callback"); ("execution_id", pretty id)].
Proof.
  unfold process_processor_callback. intros Hrun. auth_inv.
  rename x into cb.
  match goal with H : get_authorization_mode _ _ = _ |- _ =>
    apply get_authorization_mode_ok in H as [? _] end.
  match goal with H : bool_decide (_ ≠ _) = false |- _ =>
    apply bool_decide_eq_false_1 in H end.
  eexists cb, _, _. split_and!; [done| |done|done|done| |done].
  - by destruct (decide (info_sender info = cb_processor_callback_address cb)).
  - unfold settlement, paid_by, settle_token in *. destruct (cb_initiator cb); auth_case; eauto.
Qed.

Lemma process_hyperlane_callback_ok q env info hm s r s' :
  process_hyperlane_callback q env info hm s = Ok (r, s') →
  ∃ e b id res cb,
    find_hyperlane_encoder info hm s = Some e ∧
    query_decode q (broker_address e) (encoder_version e) (HyperlaneCallback (hm_body hm)) = Ok b ∧
    from_json b = Ok (ProcessorCallback id res) ∧
    s_processor_callbacks s !! id = Some cb ∧ (0 < current s (cb_label cb))%N ∧
    s' = settle id (set_result res (now_seconds env) cb) s ∧
    r = mkResponse [] [("action", "process_hyperlane_callback"); ("execution_id", pretty id)].
Proof.
  unfold process_hyperlane_callback. intros Hrun. auth_inv.
  match goal with H : from_json _ = Ok ?c |- _ => destruct c as [id res] end.
  auth_inv. repeat eexists; done.
Qed.

(** What a polytone callback about an execution did: nothing, or it settled the
    execution with an error.  A timeout returns the token when it is final. *)
Definition ttl_expired env (cb : ProcessorCallbackInfo) : bool :=
  match cb_ttl cb with Some ttl => is_expired ttl (env_block env) | None => true end.
Lemma polytone_execution_callback_ok env info id result s msgs s' :
  polytone_execution_callback env info id result s = Ok (msgs, s') →
  ∃ cb, s_processor_callbacks s !! id = Some cb ∧
    cb_bridge_callback_address cb = Some (info_sender info) ∧
    ((s' = s ∧ msgs = [] ∧
      (result = CallbackExecute (inl ()) ∨
       ∃ error, result = CallbackExecute (inr error) ∧ cb_execution_result cb ≠ InProcess)) ∨
     ∃ res, (0 < current s (cb_label cb))%N ∧
       s' = settle id (set_result res (now_seconds env) cb) s ∧
       ((result = CallbackExecute (inr "timeout") ∧ cb_execution_result cb = InProcess ∧
         res = Timeout (negb (ttl_expired env cb)) ∧
         ∃ m, (ttl_expired env cb = true → mode_of s (cb_label cb) = Some m) ∧
         (if ttl_expired env cb then settlement env cb m res msgs else msgs = [])) ∨
        (∃ error, result = CallbackExecute (inr error) ∧ error ≠ "timeout" ∧
           cb_execution_result cb = InProcess ∧ res = UnexpectedError error ∧ msgs = []) ∨
        (∃ error, result = CallbackFatalError error ∧ res = UnexpectedError error ∧ msgs = []))).
Proof.
  unfold polytone_execution_callback. intros Hrun. auth_inv. rename x into cb.
  match goal with H : bool_decide (_ ≠ _) = false |- _ =>
    apply bool_decide_eq_false_1 in H; apply dec_stable in H end. subst.
  exists cb. split_and!; [done|done|]. destruct result as [|[[]|error]|error]; auth_inv.
  - left. eauto.
  - destruct (decide (cb_execution_result cb = InProcess)) as [Hin|Hin].
    2: { rewrite bool_decide_eq_false_2 in Hrun by done. auth_inv. left. eauto 6. }
    rewrite bool_decide_eq_true_2 in Hrun by done. right.
    unfold polytone_error in Hrun. fold (ttl_expired env cb) in Hrun.
    destruct (decide (error = "timeout")) as [->|Hne].
    + rewrite bool_decide_eq_true_2 in Hrun by done.
      destruct (ttl_expired env cb) eqn:Hexp; auth_inv.
      * match goal with H : get_authorization_mode _ _ = _ |- _ =>
          apply get_authorization_mode_ok in H as [? _] end.
        eexists. split_and!; [done|done|]. left. split_and!; [done|done|done|].
        eexists. split; [done|]. unfold settlement, paid_by, refund_msg in *.
        destruct (cb_initiator cb); auth_case; done.
      * eexists. split_and!; [done|done|]. left. split_and!; [done|done|done|].
        by exists Permissionless.
    + rewrite bool_decide_eq_false_2 in Hrun by done. auth_inv.
      eexists. split_and!; [done|done|]. right. left. eauto 6.
  - right. eexists. split_and!; [done|done|]. right. right. eauto.
Qed.

(** The storage after the execution [id] was sent again. *)
Definition resume (id : N) (cb : ProcessorCallbackInfo) s : storage :=
  lset PROCESSOR_CALLBACKS (<[id := cb]> (s_processor_callbacks s))
    (lset CURRENT_EXECUTIONS
       (<[cb_label cb := (current s (cb_label cb) + 1)%N]> (s_current_executions s)) s).

Lemma live_ttl env (cb : ProcessorCallbackInfo) :
  match cb_ttl cb with Some ttl => negb (is_expired ttl (env_block env)) | None => false end =
  negb (ttl_expired env cb).
Proof. unfold ttl_expired. by destruct (cb_ttl cb). Qed.
Lemma retry_msgs_ok env id s r s' :
  retry_msgs env id s = Ok (r, s') →
  ∃ cb, s_processor_callbacks s !! id = Some cb ∧ cb_execution_result cb = Timeout true ∧
  ∃ a, s_authorizations s !! cb_label cb = Some a ∧
    if ttl_expired env cb then
      match paid_by (cb_initiator cb) (mode a) with
      | Some addr =>
          s' = lset PROCESSOR_CALLBACKS
                 (<[id := set_result (Timeout false) (now_seconds env) cb]>
                    (s_processor_callbacks s)) s ∧
          resp_messages r = [SubMsg_new (refund_msg env (cb_label cb) addr)]
      | None => s' = s ∧ resp_messages r = []
      end
    else
      (current s (cb_label cb) < max_concurrent_executions a)%N ∧
      (current s (cb_label cb) < u64_max)%N ∧
      s' = resume id (set_result InProcess (now_seconds env) cb) s ∧
      ∃ msg, resp_messages r = [SubMsg_new msg].
Proof.
  unfold retry_msgs. intros Hrun. auth_inv. rename x into cb.
  match goal with H : bool_decide (_ ≠ _) = false |- _ =>
    apply bool_decide_eq_false_1 in H; apply dec_stable in H end.
  exists cb. split_and!; [done|done|]. rewrite (live_ttl env cb) in *.
  destruct (ttl_expired env cb); simpl in *.
  - unfold give_up_msgs, paid_by, refund_msg in *. auth_inv.
    match goal with H : s_authorizations _ !! _ = Some ?a |- _ => exists a; split; [done|] end.
    destruct (cb_initiator cb); auth_case; split; try done; by destruct s; simpl in *; rewrite insert_id.
  - unfold resend_msgs in *. auth_inv.
    match goal with H : s_current_executions _ !! _ = Some ?n |- _ =>
      assert (current s (cb_label cb) = n) as Hcur by (unfold current; by rewrite H) end.
    rewrite Hcur. match goal with H : s_authorizations _ !! _ = Some ?a |- _ =>
      exists a; split; [done|] end.
    split_and!; [by apply N.leb_gt|lia| |by eexists].
    unfold resume. simpl. by rewrite Hcur.
Qed.

(** ** ZK authorizations *)
Definition cosmwasm_domain s (domain : Domain) : Prop :=
  match domain with
  | DomainMain => True
  | DomainExternal name =>
      ∃ d c, s_external_domains s !! name = Some d ∧ execution_environment d = EnvCosmwasm c
  end.
(** The storage after the block number of a proof was recorded. *)
Definition record_block (a : ZkAuthorization) (n : N) s : storage :=
  if zk_validate_last_block_execution a then
    lset REGISTRY_LAST_BLOCK_EXECUTION
      (<[zk_registry a := n]> (s_registry_last_block_execution s)) s
  else s.
Definition last_block s (registry : N) : N :=
  default 0%N (s_registry_last_block_execution s !! registry).

Lemma check_zk_domain_ok d s u s' : check_zk_domain d s = Ok (u, s') → cosmwasm_domain s d ∧ s' = s.
Proof.
  unfold check_zk_domain, cosmwasm_domain. intros. destruct d; auth_inv; [done|].
  destruct (execution_environment _) eqn:?; auth_inv. eauto.
Qed.
Lemma check_last_block_ok a n s u s' :
  check_last_block a n s = Ok (u, s') →
  (zk_validate_last_block_execution a = true → last_block s (zk_registry a) < n)%N ∧
  s' = record_block a n s.
Proof.
  unfold check_last_block, record_block, last_block. intros. case_match; auth_inv; [|done].
  split; [|done]. intros _. by apply N.leb_gt.
Qed.
(** A polytone or direct message, built from JSON bytes. *)
Lemma dispatch_json_ok q env s domain id m enc bytes cr msg :
  cosmwasm_domain s domain →
  to_json_binary (AuthorizationModuleAction m) = Ok bytes →
  execution_callback env id s = Ok (cr, s) →
  create_msg_for_processor bytes domain (Some cr) s = Ok (msg, s) →
  dispatched q env s domain id m enc msg.
Proof.
  intros Hd Hb Hcr Hm. eapply (dispatch_ok q env s domain id m enc (fail (Std NotFound)) bytes cr);
    try done. unfold encode_for_domain, of_result. rewrite Hb. destruct domain as [|name]; [done|].
  destruct Hd as (d & c & Hd & Hc). unfold mbind, Exec_bind, map_load. simpl. by rewrite Hd, Hc.
Qed.
Lemma cosmwasm_domain_frame s s' d :
  s_external_domains s' = s_external_domains s → cosmwasm_domain s d → cosmwasm_domain s' d.
Proof. unfold cosmwasm_domain. by intros ->. Qed.

Lemma record_block_frame a n s :
  s_external_domains (record_block a n s) = s_external_domains s ∧
  s_processor_on_main_domain (record_block a n s) = s_processor_on_main_domain s ∧
  s_current_executions (record_block a n s) = s_current_executions s ∧
  s_execution_id (record_block a n s) = s_execution_id s ∧
  s_processor_callbacks (record_block a n s) = s_processor_callbacks s ∧
  s_authorizations (record_block a n s) = s_authorizations s ∧
  s_zk_authorizations (record_block a n s) = s_zk_authorizations s.
Proof. unfold record_block. by case_match. Qed.

Lemma domain_callbacks_frame s s' d :
  s_external_domains s = s_external_domains s' →
  s_processor_on_main_domain s = s_processor_on_main_domain s' →
  domain_callbacks s d = domain_callbacks s' d.
Proof. unfold domain_callbacks. by intros -> ->. Qed.
Lemma dispatched_frame q env s s' d id m enc msg :
  s_external_domains s = s_external_domains s' →
  s_processor_on_main_domain s = s_processor_on_main_domain s' →
  dispatched q env s' d id m enc msg → dispatched q env s d id m enc msg.
Proof. unfold dispatched. by intros -> ->. Qed.
Lemma execution_callback_any env id cr s1 s2 s' :
  execution_callback env id s1 = Ok (cr, s2) → execution_callback env id s' = Ok (cr, s').
Proof.
  unfold execution_callback. intros. auth_inv. unfold mbind, Exec_bind, of_result.
  by match goal with H : to_json_binary _ = _ |- _ => rewrite H end.
Qed.

(** What a successful [execute_zk_authorization] checked and did. *)
Lemma execute_zk_authorization_ok q env info l inputs proof payload s r s' :
  execute_zk_authorization q env info l inputs proof payload s = Ok (r, s') →
  ∃ a router zm msg,
    s_zk_authorizations s !! l = Some a ∧ zk_state a = Enabled ∧
    s_verification_router s = Some router ∧
    validate_permission (zk_label a) (zk_mode a) q (env_contract env) info s = Ok ((), s) ∧
    query_verify q router (zk_verification_route a) (zk_vk a) inputs proof payload = Ok true ∧
    (32 ≤ length inputs)%nat ∧ from_json (drop 32 inputs) = Ok zm ∧
    zm_registry zm = zk_registry a ∧
    (∀ c, zm_authorization_contract zm = Some c → c = env_contract env) ∧
    cosmwasm_domain s (zm_domain zm) ∧
    (zk_validate_last_block_execution a = true →
       last_block s (zk_registry a) < zm_block_number zm)%N ∧
    resp_messages r = [SubMsg_new msg] ∧
    let s1 := record_block a (zm_block_number zm) s in
    match zk_batch_msgs (zm_message zm) with
    | Some ms =>
        ∃ id addrs, s_execution_id s = Some id ∧ (current s l < u64_max)%N ∧
          domain_callbacks s (zm_domain zm) = Some addrs ∧
          dispatched q env s (zm_domain zm) id (assign_execution_id (zm_message zm) id)
            (Err NotFound) msg ∧
          s' = start id (new_callback (now_seconds env) id (InitUser (info_sender info)) addrs
                           (zm_domain zm) l None ms) s1
    | None => s' = s1
    end.
Proof.
  unfold execute_zk_authorization. intros Hrun. auth_inv.
  repeat match goal with u : () |- _ => destruct u end.
  repeat match goal with
  | H : bool_decide (_ ≠ _) = false |- _ => apply bool_decide_eq_false_1, dec_stable in H
  | H : negb ?b = false |- _ => apply negb_false_iff in H
  | H : (_ =? _)%N = true |- _ => apply N.eqb_eq in H
  | H : slice_from _ _ = Some _ |- _ =>
      unfold slice_from in H; case_bool_decide; simplify_eq
  | H : check_zk_domain _ _ = _ |- _ => apply check_zk_domain_ok in H as [? _]
  | H : check_last_block _ _ _ = _ |- _ => apply check_last_block_ok in H as [? ->]
  end.
  rename x into a. match goal with z : ZkMessage |- _ => rename z into zm end.
  pose proof (record_block_frame a (zm_block_number zm) s) as (Hed & Hpr & Hcu & Hid & _).
  do 4 eexists. split_and!; try done.
  { intros c Hc. rewrite Hc in *. auth_inv.
    by match goal with H : bool_decide (_ ≠ _) = false |- _ =>
      apply bool_decide_eq_false_1, dec_stable in H end. }
  set (s1 := record_block a (zm_block_number zm) s) in *.
  destruct (zk_batch_msgs (zm_message zm)) as [ms|]; auth_inv; [|done].
  match goal with H : callback_addresses _ _ = Ok (?x, _) |- _ =>
    apply callback_addresses_ok in H as [Hcb _]; eexists _, x end.
  split_and!; [by rewrite <-Hid|unfold current in *; rewrite <-Hcu; lia| | |done].
  - rewrite <-Hcb. by apply domain_callbacks_frame.
  - eapply dispatched_frame; [symmetry; exact Hed|symmetry; exact Hpr|].
    match goal with
    | Hj : to_json_binary (AuthorizationModuleAction _) = _,
      Hx : execution_callback _ _ _ = _, Hm : create_msg_for_processor _ _ _ _ = _ |- _ =>
        refine (dispatch_json_ok _ _ _ _ _ _ _ _ _ _ _ Hj _ Hm);
          [by eapply cosmwasm_domain_frame|by eapply execution_callback_any]
    end.
Qed.
End Effects.
