(* ===== verification/AuthorizationInvariants.v ===== *)
(** * Authorization: invariants of every reachable state

    The registry of authorizations is well formed after every message, and the
    counters of executions agree with the executions in process. *)
From S2P Require Import Prelude Platform Types AuthorizationUtils Authorization AuthorizationFacts.
Import Authorization.

(** ** Valid authorizations *)
(** The message types a domain accepts. *)
Definition env_accepts (e : ExecutionEnvironment) (t : MessageType) : bool :=
  match e with EnvCosmwasm _ => is_cosmwasm_type t | EnvEvm _ _ => is_evm_type t end.
Definition domain_accepts (domains : gmap string ExternalDomain) (d : Domain) (t : MessageType)
    : Prop :=
  match d with
  | DomainMain => is_cosmwasm_type t = true
  | DomainExternal name =>
      ∃ ed, domains !! name = Some ed ∧ env_accepts (execution_environment ed) t = true
  end.
Definition function_ok {F} `{Function F} (domains : gmap string ExternalDomain) (d : Domain)
    (f : F) : Prop :=
  let details := fn_message_details f in
  fn_domain f = d ∧ domain_accepts domains d (message_type details) ∧
  ∀ rs, params_restrictions (message details) = Some rs →
        restrictions_allowed (message_type details) rs = true.
Record valid_authorization (domains : gmap string ExternalDomain) (a : Authorization) : Prop := {
  va_label : label a ≠ "";
  va_functions : ∃ d, authorization_domain a = Some d ∧
    Forall (function_ok domains d) (sub_functions (subroutine a));
  va_priority : mode a = Permissionless → priority a = Medium;
}.

(** External domains are never removed, and only the state of their proxy changes. *)
Definition env_evolves (e e' : ExecutionEnvironment) : Prop :=
  match e with
  | EnvCosmwasm (Polytone_ c) => ∃ st, e' = EnvCosmwasm (Polytone_ (set_polytone_proxy_state c st))
  | EnvEvm _ _ => e' = e
  end.
Definition domain_evolves (d d' : ExternalDomain) : Prop :=
  ed_name d' = ed_name d ∧ ed_processor d' = ed_processor d ∧
  env_evolves (execution_environment d) (execution_environment d').
Definition domains_le (m m' : gmap string ExternalDomain) : Prop :=
  ∀ n d, m !! n = Some d → ∃ d', m' !! n = Some d' ∧ domain_evolves d d'.

#[global] Instance domains_le_preorder : PreOrder domains_le.
Proof.
  split.
  - intros m n d Hd. exists d. split; [done|]. split_and!; [done|done|].
    destruct d as [? [[[[] ?]]|] ?]; simpl; [|done]. by eexists.
  - intros m1 m2 m3 H1 H2 n d (d2 & H & Hn & Hp & He)%H1.
    apply H2 in H as (d3 & H & Hn' & Hp' & He'). exists d3.
    split; [done|]. split_and!; [congruence|congruence|].
    destruct (execution_environment d) as [[c]|]; simpl in *; [|by rewrite He in He'].
    destruct He as [st Hst]. rewrite Hst in He'. simpl in He'. destruct He' as [st' ->].
    by exists st'.
Qed.

Lemma env_evolves_accepts e e' t : env_evolves e e' → env_accepts e' t = env_accepts e t.
Proof. destruct e as [[c]|]; simpl; [by intros [? ->]|by intros ->]. Qed.
Lemma valid_authorization_mono m m' a :
  domains_le m m' → valid_authorization m a → valid_authorization m' a.
Proof.
  intros Hle [? (d & Hd & Hf) ?]. split; [done| |done]. exists d. split; [done|].
  eapply Forall_impl; [exact Hf|]. intros f (? & Ha & ?). split_and!; [done| |done].
  destruct d as [|n]; [done|]. destruct Ha as (ed & (ed' & ? & (_ & _ & He))%Hle & ?).
  exists ed'. split; [done|]. by rewrite (env_evolves_accepts _ _ _ He).
Qed.

(** The registry is well formed: every entry is stored under its own name, the
    two kinds of authorizations do not share a label, and every authorization is
    valid for the registered domains. *)
Record wf (s : storage) : Prop := {
  wf_label l a : s_authorizations s !! l = Some a → label a = l;
  wf_valid l a : s_authorizations s !! l = Some a → valid_authorization (s_external_domains s) a;
  wf_zk l z : s_zk_authorizations s !! l = Some z → zk_label z = l ∧ l ≠ "";
  wf_disjoint l a z : s_authorizations s !! l = Some a → s_zk_authorizations s !! l = Some z → False;
  wf_domain n d : s_external_domains s !! n = Some d → ed_name d = n;
}.

Definition registry (s : storage) :=
  (s_authorizations s, s_zk_authorizations s, s_external_domains s).

Section Registry.
Context `{CPl : Platform} `{CSj : SerdeJson} `{COw : CwOwnable} `{CTf : TokenFactoryProto}.
Context `{CPe : JsonCodec ProcessorExecuteMsg} `{CPo : JsonCodec PolytoneExecuteMsg}.
Context `{CHy : JsonCodec HyperlaneExecuteMsg} `{CPc : JsonCodec AuthPolytoneCallbackMsg}.
Context `{CZk : JsonCodec ZkMessage} `{CIa : JsonCodec InternalAuthorizationMsg}.
Implicit Types s : storage.

(** The checks of one function. *)
Definition checked {F} `{Function F} (d : Domain) (ext : option ExternalDomain) (f : F) : Prop :=
  let details := fn_message_details f in
  fn_domain f = d ∧
  (match ext with Some ed => env_accepts (execution_environment ed) (message_type details)
             | None => is_cosmwasm_type (message_type details) end) = true ∧
  ∀ rs, params_restrictions (message details) = Some rs →
        restrictions_allowed (message_type details) rs = true.
Lemma validate_function_ok {F} `{Function F} q d ext (f : F) s u s' :
  (_ ← validate_domain f d; _ ← validate_message_type f ext; _ ← validate_evm_library q f;
   validate_param_restrictions f) s = Ok (u, s') → checked d ext f ∧ s' = s.
Proof.
  intros (? & s1 & H1 & (? & s2 & H2 & (? & s3 & H3 & H4)%Exec_bind_ok)%Exec_bind_ok)%Exec_bind_ok.
  assert (s3 = s2) as ->.
  { revert H3. unfold validate_evm_library. intros. by auth_case. }
  apply fail_if_ok in H1 as [Hd <-]. apply bool_decide_eq_false_1, dec_stable in Hd.
  assert (s2 = s ∧ match ext with
    | Some ed => env_accepts (execution_environment ed) (message_type (fn_message_details f))
    | None => is_cosmwasm_type (message_type (fn_message_details f)) end = true) as [-> Ht].
  { revert H2. unfold validate_message_type, env_accepts. intros.
    auth_case; split; try done; by apply negb_false_iff. }
  unfold validate_param_restrictions in H4.
  destruct (params_restrictions _) as [rs|] eqn:Hrs; auth_inv.
  - split; [|done]. split_and!; [done|done|]. intros ? Hr. rewrite Hr in Hrs. simplify_eq.
    by apply negb_false_iff.
  - split; [|done]. split_and!; [done|done|]. intros ? Hr. by rewrite Hr in Hrs.
Qed.

Lemma validate_functions_ok {F} `{Function F} q (fs : list F) s u s' :
  validate_functions q fs s = Ok (u, s') →
  ∃ d, fn_domain <$> head fs = Some d ∧ Forall (function_ok (s_external_domains s) d) fs.
Proof.
  unfold validate_functions.
  intros (f & ? & [Hf <-]%ok_or_ok & (ext & s1 & Hext & Hfor)%Exec_bind_ok)%Exec_bind_ok.
  exists (fn_domain f). split; [by rewrite Hf|].
  eapply for_each_Forall with (Q := λ _, checked (fn_domain f) ext) in Hfor as [Hall ->];
    [|intros x s2 ? ? Hx; by apply validate_function_ok in Hx].
  assert (s1 = s ∧ ext = match fn_domain f with DomainMain => None
    | DomainExternal n => s_external_domains s !! n end ∧
    (is_Some ext ∨ fn_domain f = DomainMain)) as (-> & Hx & Hsome).
  { destruct (fn_domain f); auth_inv; naive_solver. }
  eapply Forall_impl; [exact Hall|]. intros g (? & Ha & ?). split_and!; [done| |done].
  unfold domain_accepts. destruct (fn_domain f) as [|n]; [by subst ext|].
  destruct ext as [ed|]; [by exists ed|]. by destruct Hsome as [[??]|?].
Qed.

Lemma Forall_function_ok_dyn {F} `{Function F} (inj : F → DynFunction) m d (fs : list F) :
  (∀ f, fn_domain (inj f) = fn_domain f ∧ fn_message_details (inj f) = fn_message_details f) →
  Forall (function_ok m d) fs → Forall (function_ok m d) (inj <$> fs).
Proof.
  intros Hinj Hf. apply Forall_fmap. eapply Forall_impl; [exact Hf|]. intros f.
  unfold function_ok, compose. destruct (Hinj f) as [-> ->]. done.
Qed.
Lemma validate_ok q a s u s' :
  validate q a s = Ok (u, s') → valid_authorization (s_external_domains s) a.
Proof.
  unfold validate. intros (? & ? & [Hl <-]%fail_if_ok & (? & s1 & Hs & [Hp <-]%fail_if_ok)%Exec_bind_ok)%Exec_bind_ok.
  apply bool_decide_eq_false_1 in Hl. split; [done| |].
  - unfold validate_subroutine, authorization_domain, sub_functions in *.
    destruct (subroutine a) as [c|c]; apply validate_functions_ok in Hs as (d & Hd & Hf); exists d;
      (split; [by destruct (_ c)|by apply Forall_function_ok_dyn]).
  - intros Hm. rewrite Hm, bool_decide_eq_true_2 in Hp by done. simpl in Hp.
    apply bool_decide_eq_false_1 in Hp. by destruct (priority a).
Qed.

(** *** Preservation *)
(** A change of the storage that keeps the registry well formed. *)
Definition registry_step s s' : Prop :=
  domains_le (s_external_domains s) (s_external_domains s') ∧ (wf s → wf s').
#[local] Instance registry_step_preorder : PreOrder registry_step.
Proof.
  split; [split; [reflexivity|done]|].
  intros s1 s2 s3 [? ?] [? ?]. split; [by etrans|auto].
Qed.

Lemma wf_frame s s' : registry s' = registry s → registry_step s s'.
Proof.
  unfold registry. intros [= Ha Hz Hd]. split; [by rewrite Hd|].
  intros [? ? ? ? ?]. split; intros *; rewrite ?Ha, ?Hz, ?Hd; eauto.
Qed.

(** A valid authorization is stored under its label. *)
Lemma wf_save_authorization l a s :
  valid_authorization (s_external_domains s) a → label a = l → s_zk_authorizations s !! l = None →
  registry_step s (lset AUTHORIZATIONS (<[l := a]> (s_authorizations s)) s).
Proof.
  intros Hv Hl Hz. split; [reflexivity|]. intros [W1 W2 W3 W4 W5]. split; simpl; [| |done| |done].
  - intros l' a' [[<- <-]|[_ ?]]%lookup_insert_Some; eauto.
  - intros l' a' [[<- <-]|[_ ?]]%lookup_insert_Some; eauto.
  - intros l' a' z [[<- <-]|[_ ?]]%lookup_insert_Some; [by rewrite Hz|eauto].
Qed.
Lemma wf_save_zk l z s :
  zk_label z = l → l ≠ "" → s_authorizations s !! l = None →
  registry_step s (lset ZK_AUTHORIZATIONS (<[l := z]> (s_zk_authorizations s)) s).
Proof.
  intros Hl Hne Ha. split; [reflexivity|]. intros [W1 W2 W3 W4 W5]. split; simpl; [done|done| | |done].
  - intros l' z' [[<- <-]|[_ ?]]%lookup_insert_Some; eauto.
  - intros l' a z' ? [[<- <-]|[_ ?]]%lookup_insert_Some; [congruence|eauto].
Qed.
(** A domain is added, or replaced by one that evolves from it. *)
Lemma wf_save_domain n d s :
  ed_name d = n → (∀ d0, s_external_domains s !! n = Some d0 → domain_evolves d0 d) →
  registry_step s (lset EXTERNAL_DOMAINS (<[n := d]> (s_external_domains s)) s).
Proof.
  intros Hn Hev.
  assert (domains_le (s_external_domains s) (<[n := d]> (s_external_domains s))) as Hle.
  { intros n' d' Hd'. destruct (decide (n' = n)) as [->|].
    - exists d. by rewrite lookup_insert_eq; auto.
    - rewrite lookup_insert_ne by done. by apply (PreOrder_Reflexive (R := domains_le)). }
  split; [done|]. intros [W1 W2 W3 W4 W5]. split; simpl; [done| |done|done|].
  - intros. eapply valid_authorization_mono; eauto.
  - intros n' d' [[<- <-]|[_ ?]]%lookup_insert_Some; eauto.
Qed.

Lemma label_exists_ok l s b s' :
  label_exists l s = Ok (b, s') →
  s' = s ∧ (b = false → s_authorizations s !! l = None ∧ s_zk_authorizations s !! l = None).
Proof.
  unfold label_exists. intros (b1 & ? & [-> ->]%map_has_ok & Hk)%Exec_bind_ok.
  case_bool_decide as Ha; [by apply mret_ok in Hk as [<- <-]|].
  apply map_has_ok in Hk as [-> ->]. split; [done|]. intros Hz%bool_decide_eq_false_1.
  by rewrite <-!eq_None_not_Some in *.
Qed.

Lemma create_authorization_registry q env info s r s' :
  create_authorization q env info s = Ok (r, s') → registry_step s s'.
Proof.
  unfold create_authorization. intros. auth_inv.
  match goal with H : label_exists _ _ = _ |- _ => 
    apply label_exists_ok in H as [_ Hle]; destruct (Hle eq_refl) end.
  match goal with H : validate _ _ _ = _ |- _ => apply validate_ok in H end.
  by apply wf_save_authorization.
Qed.
Lemma create_zk_authorization_registry env info s r s' :
  create_zk_authorization env info s = Ok (r, s') → registry_step s s'.
Proof.
  unfold create_zk_authorization. intros. auth_inv.
  match goal with H : label_exists _ _ = _ |- _ => 
    apply label_exists_ok in H as [_ Hle]; destruct (Hle eq_refl) end.
  match goal with H : bool_decide _ = false |- _ => apply bool_decide_eq_false_1 in H end.
  by apply wf_save_zk.
Qed.
Lemma add_external_domain_registry d s r s' :
  add_external_domain d s = Ok (r, s') → registry_step s s'.
Proof.
  unfold add_external_domain. intros. auth_inv. apply wf_save_domain; [done|].
  intros d0 Hd0. exfalso. match goal with H : bool_decide _ = false |- _ =>
    apply bool_decide_eq_false_1 in H; apply H; eauto
  | H : false = bool_decide _ |- _ =>
    symmetry in H; apply bool_decide_eq_false_1 in H; apply H; eauto end.
Qed.

Lemma fold_each_registry {A B} (l : list A) (acc : B)
    (body : B → A → Exec storage ContractError B) s r s' :
  (∀ acc x s r s', body acc x s = Ok (r, s') → registry_step s s') →
  fold_each l acc body s = Ok (r, s') → registry_step s s'.
Proof.
  intros Hb Hf. eapply (fold_each_invariant (registry_step s)); [|reflexivity|exact Hf].
  intros acc' x s1 r1 s2 H1 H2%Hb. by etrans.
Qed.

Lemma modify_authorization_registry q l nb ex mc pr s r s' :
  modify_authorization q l nb ex mc pr s = Ok (r, s') → wf s → registry_step s s'.
Proof.
  unfold modify_authorization. intros ? Hwf. auth_inv.
  match goal with H : validate _ _ _ = _ |- _ => apply validate_ok in H end.
  match goal with H : s_authorizations _ !! _ = Some ?a |- _ => rename H into Ha end.
  apply wf_save_authorization; [done|exact (wf_label _ Hwf _ _ Ha)|].
  destruct (s_zk_authorizations _ !! l) eqn:Hz; [|done]. by edestruct (wf_disjoint _ Hwf).
Qed.
Lemma save_zk_registry l z z' s :
  wf s → s_zk_authorizations s !! l = Some z → zk_label z' = zk_label z →
  registry_step s (lset ZK_AUTHORIZATIONS (<[l := z']> (s_zk_authorizations s)) s).
Proof.
  intros Hwf Hz Hl. destruct (wf_zk _ Hwf _ _ Hz) as [<- ?]. apply wf_save_zk; [done|done|].
  destruct (s_authorizations _ !! _) eqn:Ha; [|done]. by edestruct (wf_disjoint _ Hwf).
Qed.
Lemma switch_authorization_registry l st s r s' :
  switch_authorization l st s = Ok (r, s') → wf s → registry_step s s'.
Proof.
  unfold switch_authorization. intros ? Hwf. auth_inv. case_match; auth_inv.
  - rename select (_ !! l = Some _) into Ha. apply wf_save_authorization.
    + destruct (wf_valid _ Hwf _ _ Ha). by split.
    + exact (wf_label _ Hwf _ _ Ha).
    + destruct (s_zk_authorizations _ !! l) eqn:Hz; [|done]. by edestruct (wf_disjoint _ Hwf).
  - by eapply save_zk_registry.
Qed.
(** The callbacks and retries that touch the proxy state of a domain. *)
Lemma save_proxy_registry n d c st s :
  wf s → s_external_domains s !! n = Some d → execution_environment d = EnvCosmwasm (Polytone_ c) →
  registry_step s (lset EXTERNAL_DOMAINS
    (<[n := mkExternalDomain (ed_name d)
              (EnvCosmwasm (Polytone_ (set_polytone_proxy_state c st))) (ed_processor d)]>
       (s_external_domains s)) s).
Proof.
  intros Hwf Hd He. apply wf_save_domain; [exact (wf_domain _ Hwf _ _ Hd)|].
  intros d0 Hd0. simplify_eq. split_and!; [done..|]. rewrite He. simpl. by eexists.
Qed.
Lemma polytone_proxy_callback_registry info n result s r s' :
  polytone_proxy_callback info n result s = Ok (r, s') → wf s → registry_step s s'.
Proof.
  unfold polytone_proxy_callback. intros ? Hwf. auth_inv.
  destruct (execution_environment _) as [[c]|] eqn:?; auth_inv. by eapply save_proxy_registry.
Qed.
Lemma retry_bridge_creation_registry env n s r s' :
  retry_bridge_creation env n s = Ok (r, s') → wf s → registry_step s s'.
Proof.
  unfold retry_bridge_creation. intros ? Hwf. auth_inv.
  destruct (execution_environment _) as [[c]|e [b]] eqn:?; auth_inv.
  by eapply (save_proxy_registry n _ c ProxyPendingResponse).
Qed.

Lemma execute_permissioned_registry q env msg s r s' :
  execute_permissioned q env msg s = Ok (r, s') → wf s → registry_step s s'.
Proof.
  intros Hrun Hwf. destruct msg; simpl in Hrun.
  - unfold add_external_domains in Hrun. auth_inv.
    eapply fold_each_registry; [|done]. intros acc d s1 r1 s2 Hb. simpl in Hb. auth_inv.
    match goal with H : add_external_domain _ _ = _ |- _ => apply add_external_domain_registry in H end.
    by auth_case.
  - unfold create_authorizations in Hrun. auth_inv.
    eapply fold_each_registry; [|done]. intros acc d s1 r1 s2 Hb. simpl in Hb. auth_inv.
    by eapply create_authorization_registry.
  - unfold create_zk_authorizations in Hrun. auth_inv.
    eapply fold_each_registry; [|done]. intros acc d s1 r1 s2 Hb. simpl in Hb. auth_inv.
    by eapply create_zk_authorization_registry.
  - by eapply modify_authorization_registry.
  - unfold modify_zk_authorization in Hrun. auth_inv. by eapply save_zk_registry.
  - unfold disable_authorization in Hrun. auth_inv. by eapply switch_authorization_registry.
  - unfold enable_authorization in Hrun. auth_inv. by eapply switch_authorization_registry.
  - auth_inv. reflexivity.
  - auth_inv. reflexivity.
  - apply insert_messages_ok in Hrun as (a & d & ad & id & m & _ & _ & _ & _ & _ & _ & _ & _ & ->).
    by apply wf_frame.
  - auth_inv. reflexivity.
  - auth_inv. reflexivity.
  - unfold set_verification_router in Hrun. auth_inv. by apply wf_frame.
  - unfold update_zk_authorization_route in Hrun. auth_inv. by eapply save_zk_registry.
Qed.

Lemma update_ownership_registry env info act s r s' :
  update_ownership env info act s = Ok (r, s') → registry_step s s'.
Proof. unfold update_ownership. intros. auth_case; by apply wf_frame. Qed.

Lemma execute_permissionless_registry q env info msg s r s' :
  execute_permissionless q env info msg s = Ok (r, s') → wf s → registry_step s s'.
Proof.
  intros Hrun Hwf. destruct msg; simpl in Hrun.
  - apply send_msgs_ok in Hrun as (a & d & ad & id & m & _ & _ & _ & _ & _ & _ & _ & _ & _ & ->).
    by apply wf_frame.
  - apply retry_msgs_ok in Hrun as (cb & _ & _ & a & _ & Hs). repeat case_match.
    + destruct Hs as [-> _]. by apply wf_frame.
    + destruct Hs as [-> _]. reflexivity.
    + destruct Hs as (_ & _ & -> & _). by apply wf_frame.
  - by eapply retry_bridge_creation_registry.
  - apply execute_zk_authorization_ok in Hrun as
      (a & ? & zm & m & _ & _ & _ & _ & _ & _ & _ & _ & _ & _ & _ & _ & Hs).
    pose proof (record_block_frame a (zm_block_number zm) s) as (? & _ & _ & _ & _ & ? & ?).
    apply wf_frame. unfold registry. cbv zeta in Hs. destruct (zk_batch_msgs (zm_message zm));
      [destruct Hs as (? & ? & _ & _ & _ & _ & ->)|rewrite Hs]; simpl; congruence.
Qed.

Lemma execute_registry q env info msg s r s' :
  execute q env info msg s = Ok (r, s') → wf s → registry_step s s'.
Proof.
  intros Hrun Hwf. destruct msg as [act|om|pm|pm|[id res]|cm|hm]; simpl in Hrun.
  - by eapply update_ownership_registry.
  - auth_inv. destruct om; unfold add_sub_owner, remove_sub_owner in *; auth_inv; by apply wf_frame.
  - auth_inv. by eapply execute_permissioned_registry.
  - by eapply execute_permissionless_registry.
  - apply process_processor_callback_ok in Hrun as (? & ? & ? & _ & _ & _ & -> & _). by apply wf_frame.
  - unfold process_polytone_callback in Hrun. auth_inv. case_match.
    + match goal with H : polytone_execution_callback _ _ _ _ _ = _ |- _ =>
        apply polytone_execution_callback_ok in H as (cb & _ & _ & [[-> _]|(? & _ & -> & _)]) end;
        by apply wf_frame.
    + by eapply polytone_proxy_callback_registry.
  - apply process_hyperlane_callback_ok in Hrun as (? & ? & ? & ? & ? & _ & _ & _ & _ & _ & -> & _).
    by apply wf_frame.
Qed.
End Registry.

(** ** Executions in process *)
Definition is_in_process (l : string) (cb : ProcessorCallbackInfo) : Prop :=
  cb_label cb = l ∧ cb_execution_result cb = InProcess.
#[global] Instance is_in_process_dec l cb : Decision (is_in_process l cb).
Proof. apply and_dec; apply _. Defined.
(** The number of executions of a label that wait for their result. *)
Definition in_process (callbacks : gmap N ProcessorCallbackInfo) (l : string) : N :=
  N.of_nat (size (filter (λ kv : N * ProcessorCallbackInfo, is_in_process l kv.2) callbacks)).
Definition weight (l : string) (cb : option ProcessorCallbackInfo) : N :=
  match cb with Some cb => if decide (is_in_process l cb) then 1%N else 0%N | None => 0%N end.

Lemma in_process_insert m id cb l :
  (in_process (<[id := cb]> m) l + weight l (m !! id) = in_process m l + weight l (Some cb))%N.
Proof.
  unfold in_process, weight.
  set (P := λ kv : N * ProcessorCallbackInfo, is_in_process l kv.2).
  assert (size (filter P m) = (size (delete id (filter P m)) +
    match m !! id with Some c => if decide (is_in_process l c) then 1 else 0 | None => 0 end)%nat) as Hold.
  { rewrite map_size_delete, map_lookup_filter. destruct (m !! id) as [c|] eqn:Hc; simpl; [|lia].
    destruct (decide (is_in_process l c)) as [Hp|Hp].
    - assert (filter P m !! id = Some c) as Hf by (by apply map_lookup_filter_Some).
      pose proof (map_size_ne_0_lookup_2 _ id (ex_intro _ c Hf : is_Some (filter P m !! id))).
      rewrite option_guard_True by done. simpl. lia.
    - rewrite option_guard_False by done. simpl. lia. }
  destruct (decide (is_in_process l cb)) as [Hn|Hn].
  - rewrite map_filter_insert_True by done.
    rewrite <-insert_delete_eq, map_size_insert_None by apply lookup_delete_eq.
    rewrite Hold. repeat case_match; lia.
  - rewrite map_filter_insert_False, map_filter_delete by done.
    rewrite Hold. repeat case_match; lia.
Qed.

(** The counters agree with the executions: the counter of a label is the number
    of its executions in process, and the next execution id is not in use. *)
Record accounted (s : storage) : Prop := {
  ac_current l : current s l = in_process (s_processor_callbacks s) l;
  ac_next : ∃ n, s_execution_id s = Some n ∧
    ∀ id cb, s_processor_callbacks s !! id = Some cb → (id < n)%N;
}.

Lemma accounted_frame s s' :
  s_current_executions s' = s_current_executions s →
  s_processor_callbacks s' = s_processor_callbacks s → s_execution_id s' = s_execution_id s →
  accounted s → accounted s'.
Proof. intros Hc Hp Hi [H1 H2]. split; unfold current in *; by rewrite ?Hc, ?Hp, ?Hi. Qed.

Lemma current_insert l l' n s s' :
  s_current_executions s' = <[l := n]> (s_current_executions s) →
  current s' l' = if decide (l' = l) then n else current s l'.
Proof.
  intros Hs. unfold current. rewrite Hs. case_decide as Hl; subst.
  - by rewrite lookup_insert_eq.
  - by rewrite lookup_insert_ne.
Qed.

(** A counter is moved together with the execution it counts. *)
Lemma accounted_update id cb n s s' :
  accounted s → s_processor_callbacks s' = <[id := cb]> (s_processor_callbacks s) →
  s_current_executions s' = <[cb_label cb := n]> (s_current_executions s) →
  (∀ old, s_processor_callbacks s !! id = Some old → cb_label old = cb_label cb) →
  (n + weight (cb_label cb) (s_processor_callbacks s !! id) =
     current s (cb_label cb) + weight (cb_label cb) (Some cb))%N →
  (∃ m, s_execution_id s' = Some m ∧ (id < m)%N ∧ ∀ k, s_execution_id s = Some k → (k ≤ m)%N) →
  accounted s'.
Proof.
  intros [Hc (k & Hk & Hlt)] Hp Hcur Hlab Hn (m & Hm & Hid & Hle). split.
  - intros l. rewrite (current_insert _ _ _ _ _ Hcur), Hp.
    pose proof (in_process_insert (s_processor_callbacks s) id cb l) as Hins.
    case_decide as Hl; [subst l; rewrite Hc in Hn; lia|].
    rewrite Hc. unfold weight in Hins.
    destruct (decide (is_in_process l cb)) as [[? _]|]; [by subst|].
    destruct (s_processor_callbacks s !! id) as [old|] eqn:Hold; [|lia].
    destruct (decide (is_in_process l old)) as [[<- _]|]; [|lia].
    destruct Hl. by rewrite (Hlab old).
  - exists m. split; [done|]. rewrite Hp.
    intros id' cb' [[<- _]|[_ Hcb']]%lookup_insert_Some; [done|].
    specialize (Hle k Hk). specialize (Hlt _ _ Hcb'). lia.
Qed.

Lemma weight_new now id who ad d l ttl ms :
  weight l (Some (new_callback now id who ad d l ttl ms)) = 1%N.
Proof. unfold weight. by rewrite decide_True. Qed.

Lemma accounted_start s id cb :
  accounted s → s_execution_id s = Some id → (id < u64_max)%N →
  weight (cb_label cb) (Some cb) = 1%N → accounted (start id cb s).
Proof.
  intros Ha Hid Hlt Hw.
  assert (s_processor_callbacks s !! id = None) as Hfresh.
  { destruct (s_processor_callbacks s !! id) eqn:Hcb; [|done].
    destruct (ac_next _ Ha) as (n & ? & Hn). apply Hn in Hcb. simplify_eq. lia. }
  eapply (accounted_update id cb); [done|done|done| | |].
  - by rewrite Hfresh.
  - rewrite Hfresh, Hw. simpl. lia.
  - exists (id + 1)%N. split_and!; [|lia|intros; simplify_eq; lia].
    simpl. unfold wrapping_add. rewrite N.mod_small by lia. done.
Qed.
Lemma accounted_settle s id old cb :
  accounted s → s_processor_callbacks s !! id = Some old →
  cb_execution_result old = InProcess → cb_label cb = cb_label old →
  cb_execution_result cb ≠ InProcess → (0 < current s (cb_label old))%N →
  accounted (settle id cb s).
Proof.
  intros Ha Hold Hin Hlab Hout Hpos. destruct (ac_next _ Ha) as (n & Hn & Hlt).
  eapply (accounted_update id cb); [done|done|done|by intros; simplify_eq| |].
  - rewrite Hold. unfold weight. rewrite decide_True by done.
    rewrite decide_False by (by intros [_ ?]). rewrite Hlab in *. lia.
  - exists n. split_and!; [done|by eapply Hlt|intros; simplify_eq; lia].
Qed.
Lemma accounted_resume s id old cb :
  accounted s → s_processor_callbacks s !! id = Some old →
  cb_execution_result old ≠ InProcess → cb_label cb = cb_label old →
  cb_execution_result cb = InProcess → accounted (resume id cb s).
Proof.
  intros Ha Hold Hout Hlab Hin. destruct (ac_next _ Ha) as (n & Hn & Hlt).
  eapply (accounted_update id cb); [done|done|done|by intros; simplify_eq| |].
  - rewrite Hold. unfold weight. rewrite decide_False by (by intros [_ ?]).
    rewrite decide_True by done. lia.
  - exists n. split_and!; [done|by eapply Hlt|intros; simplify_eq; lia].
Qed.
(** A result that was not in process is replaced by another such result. *)
Lemma accounted_replace s id old cb :
  accounted s → s_processor_callbacks s !! id = Some old →
  cb_execution_result old ≠ InProcess → cb_execution_result cb ≠ InProcess →
  accounted (lset PROCESSOR_CALLBACKS (<[id := cb]> (s_processor_callbacks s)) s).
Proof.
  intros [Hc (n & Hn & Hlt)] Hold Ho Hi. split.
  - intros l. unfold current in *. simpl. rewrite Hc.
    pose proof (in_process_insert (s_processor_callbacks s) id cb l) as Hins.
    rewrite Hold in Hins. unfold weight in Hins.
    rewrite !decide_False in Hins by (by intros [_ ?]). lia.
  - exists n. split; [done|]. simpl. intros id' cb' [[<- _]|[_ ?]]%lookup_insert_Some; eauto.
Qed.

Section Accounting.
Context `{CPl : Platform} `{CSj : SerdeJson} `{COw : CwOwnable} `{CTf : TokenFactoryProto}.
Context `{CPe : JsonCodec ProcessorExecuteMsg} `{CPo : JsonCodec PolytoneExecuteMsg}.
Context `{CHy : JsonCodec HyperlaneExecuteMsg} `{CPc : JsonCodec AuthPolytoneCallbackMsg}.
Context `{CZk : JsonCodec ZkMessage} `{CIa : JsonCodec InternalAuthorizationMsg}.
Implicit Types s : storage.

(** A report closes an execution that is still open. *)
Definition open s (id : N) : Prop :=
  ∀ cb, s_processor_callbacks s !! id = Some cb → cb_execution_result cb = InProcess.
Definition closes s (id : N) (res : ExecutionResult) : Prop := res ≠ InProcess ∧ open s id.
(** What the contract trusts the processors and the bridges with: an execution is
    reported at most once, and the report is final. *)
Definition honest (q : Querier) s (msg : AuthorizationExecuteMsg) : Prop :=
  match msg with
  | InternalAuthorizationAction (ProcessorCallback id res) => closes s id res
  | AuthHyperlaneCallback hm =>
      ∀ e b id res,
        query_decode q (broker_address e) (encoder_version e) (HyperlaneCallback (hm_body hm)) = Ok b →
        from_json b = Ok (ProcessorCallback id res) → closes s id res
  | AuthPolytoneCallback cm =>
      ∀ id error, from_json (initiator_msg cm) = Ok (AuthExecutionID id) →
        cm_result cm = CallbackFatalError error → open s id
  | _ => True
  end.
(** The execution ids have not wrapped around. *)
Definition ids_left s : Prop := ∀ n, s_execution_id s = Some n → (n < u64_max)%N.

(** The messages of an owner, other than inserting a batch, do not touch the counters. *)
Definition counters s := (s_current_executions s, s_processor_callbacks s, s_execution_id s).
Lemma accounted_counters s s' : counters s' = counters s → accounted s → accounted s'.
Proof. intros [= ? ? ?]. by apply accounted_frame. Qed.
Lemma fold_each_counters {A B} (l : list A) (acc : B)
    (body : B → A → Exec storage ContractError B) s r s' :
  (∀ acc x s r s', body acc x s = Ok (r, s') → counters s' = counters s) →
  fold_each l acc body s = Ok (r, s') → counters s' = counters s.
Proof.
  intros Hb Hf. eapply (fold_each_invariant (λ s2, counters s2 = counters s)); [|done|exact Hf].
  intros acc' x s1 r1 s2 H1 H2%Hb. congruence.
Qed.
Lemma permissioned_counters q env msg s r s' :
  (∀ l i p ms, msg ≠ PermInsertMsgs l i p ms) →
  execute_permissioned q env msg s = Ok (r, s') → counters s' = counters s.
Proof.
  intros Hm Hrun. destruct msg; simpl in Hrun; try (exfalso; by eapply Hm).
  - unfold add_external_domains in Hrun. auth_inv.
    eapply fold_each_counters; [|done]. intros acc d s1 r1 s2 Hb. simpl in Hb.
    unfold add_external_domain in Hb. by auth_case.
  - unfold create_authorizations in Hrun. auth_inv.
    eapply fold_each_counters; [|done]. intros acc d s1 r1 s2 Hb. simpl in Hb.
    unfold create_authorization in Hb. by auth_inv.
  - unfold create_zk_authorizations in Hrun. auth_inv.
    eapply fold_each_counters; [|done]. intros acc d s1 r1 s2 Hb. simpl in Hb.
    unfold create_zk_authorization in Hb. by auth_inv.
  - unfold modify_authorization in Hrun. by auth_inv.
  - unfold modify_zk_authorization in Hrun. by auth_inv.
  - unfold disable_authorization, switch_authorization in Hrun. by auth_case.
  - unfold enable_authorization, switch_authorization in Hrun. by auth_case.
  - by auth_inv.
  - by auth_inv.
  - by auth_inv.
  - by auth_inv.
  - unfold set_verification_router in Hrun. by auth_inv.
  - unfold update_zk_authorization_route in Hrun. by auth_inv.
Qed.

Lemma permissionless_accounted q env info msg s r s' :
  accounted s → ids_left s → execute_permissionless q env info msg s = Ok (r, s') → accounted s'.
Proof.
  intros Ha Hid Hrun. destruct msg; simpl in Hrun.
  - apply send_msgs_ok in Hrun as (a & d & ad & id & m & _ & _ & _ & _ & _ & ? & _ & _ & _ & ->).
    apply accounted_start; [done|done|by apply Hid|apply weight_new].
  - apply retry_msgs_ok in Hrun as (cb & Hcb & Hres & a & _ & Hs).
    destruct (ttl_expired env cb); [destruct (paid_by _ _)|].
    + destruct Hs as [-> _]. eapply accounted_replace; [done|done|by rewrite Hres|done].
    + by destruct Hs as [-> _].
    + destruct Hs as (_ & _ & -> & _). eapply accounted_resume; [done|done|by rewrite Hres|done|done].
  - unfold retry_bridge_creation in Hrun. eapply accounted_counters; [|done]. by auth_case.
  - apply execute_zk_authorization_ok in Hrun as
      (a & ? & zm & m & _ & _ & _ & _ & _ & _ & _ & _ & _ & _ & _ & _ & Hs).
    pose proof (record_block_frame a (zm_block_number zm) s) as (_ & _ & Hc & Hi & Hp & _ & _).
    assert (accounted (record_block a (zm_block_number zm) s)) as Ha' by (by eapply accounted_frame).
    cbv zeta in Hs. destruct (zk_batch_msgs (zm_message zm)); [|by rewrite Hs].
    destruct Hs as (id & ad & Hsid & _ & _ & _ & ->).
    apply accounted_start; [done|congruence|by apply Hid|apply weight_new].
Qed.

Lemma execute_accounted q env info msg s r s' :
  accounted s → ids_left s → honest q s msg → execute q env info msg s = Ok (r, s') → accounted s'.
Proof.
  intros Ha Hid Hh Hrun. destruct msg as [act|om|pm|pm|[id res]|cm|hm]; simpl in Hrun, Hh.
  - unfold update_ownership in Hrun. eapply accounted_counters; [|done]. by auth_case.
  - eapply accounted_counters; [|done]. auth_inv.
    destruct om; unfold add_sub_owner, remove_sub_owner in *; by auth_inv.
  - auth_inv. destruct pm; try (eapply accounted_counters; [eapply permissioned_counters; [|done]|done];
      naive_solver).
    apply insert_messages_ok in Hrun as (a & d & ad & id & m & _ & _ & _ & _ & ? & _ & _ & _ & ->).
    apply accounted_start; [done|done|by apply Hid|apply weight_new].
  - by eapply permissionless_accounted.
  - apply process_processor_callback_ok in Hrun as (cb & ? & ? & Hcb & _ & ? & -> & _).
    destruct Hh as [? Ho]. by eapply accounted_settle; [done|done|by apply Ho|..].
  - unfold process_polytone_callback in Hrun. auth_inv. case_match.
    + match goal with H : polytone_execution_callback _ _ _ _ _ = _ |- _ =>
        apply polytone_execution_callback_ok in H as
          (cb & Hcb & _ & [[-> _]|(res & ? & -> & Hc)]) end; [done|].
      eapply accounted_settle; [done|done| |done| |done];
        destruct Hc as [(_ & ? & -> & _)|[(? & _ & _ & ? & -> & _)|(? & Hf & -> & _)]];
        try done. by eapply Hh.
    + unfold polytone_proxy_callback in *. eapply accounted_counters; [|done]. by auth_case.
  - apply process_hyperlane_callback_ok in Hrun as
      (? & ? & ? & ? & cb & _ & Hq & Hj & Hcb & ? & -> & _).
    destruct (Hh _ _ _ _ Hq Hj) as [? Ho]. by eapply accounted_settle; [done|done|by apply Ho|..].
Qed.
End Accounting.
