(* ===== verification/Samples.v ===== *)
(** * Sample states

    Concrete configurations of the contracts, on which the theorems are applied. *)
From Stdlib Require Import Strings.Byte.
From S2P Require Import Prelude Platform Types Queue Processor ProcessorFacts ProcessorProofs.
From S2P Require Import ProcessorRuns ProcessorRetries AuthorizationUtils Authorization AuthorizationFacts Codec.

(** Evaluates a sample run, leaving serialized messages as they are. *)
Ltac run_sample := lazy -[bits_of_positive encode]; reflexivity.

Definition sample_env (height : N) : Env := mkEnv (mkBlock height (height * 5000000000)) "contract".

(** ** Processor *)
Definition sample_config : Config := mkConfig "authorization" ProcMain Active.
Definition sample_details : MessageDetails :=
  mkMessageDetails TyCosmwasmExecuteMsg (mkMessage "msg" None).
Definition sample_function (addr : string) (rl : option RetryLogic) : NonAtomicFunction :=
  mkNonAtomicFunction DomainMain sample_details (LibAddr addr) rl None.
Definition sample_msg : ProcessorMessage := CosmwasmExecuteMsg [x7b; x7d].
Definition sample_non_atomic (fs : list NonAtomicFunction) (retry : option CurrentRetry)
    : MessageBatch :=
  mkMessageBatch 7 (replicate (length fs) sample_msg) (NonAtomic (mkNonAtomicSubroutine fs None))
    Medium None retry.
Definition sample_atomic (rl : option RetryLogic) : MessageBatch :=
  mkMessageBatch 7 [sample_msg]
    (Atomic (mkAtomicSubroutine
      [mkAtomicFunction DomainMain sample_details (LibAddr "library")] rl None))
    Medium None None.

(** A queue with at most one element. *)
Definition sample_queue (o : option MessageBatch) : QueueMap.storage MessageBatch :=
  match o with
  | Some b => QueueMap.mkStorage {[ 1%N := b ]} None (Some 1%N)
  | None => QueueMap.new
  end.
(** A processor with the batch [stored], its current function and its pending
    callback, and the queued copy [queued] in the medium queue. *)
Definition sample_proc (queued : option MessageBatch) (stored : MessageBatch) (index : option N)
    (pending : option PendingCallback) : Processor.storage :=
  Processor.mkStorage None (Some sample_config) (sample_queue queued) QueueMap.new
    {[ batch_id stored := stored ]}
    (from_option (λ k, {[ batch_id stored := k ]}) ∅ index)
    (from_option (λ c, {[ batch_id stored := c ]}) ∅ pending) ∅.
Definition sample_queues (queued : option MessageBatch) (p : Priority) : list MessageBatch :=
  match p with Medium => option_list queued | High => [] end.

Lemma sample_queue_rep o : QueueMap.queue_rep (sample_queue o) (option_list o).
Proof.
  destruct o as [b|]; [|apply new_rep]. split_and!; [done|by apply N.leb_le|].
  intros [|i] Hi; [done|simpl in Hi; lia].
Qed.
Lemma sample_reps o b i c : reps (sample_proc o b i c) (sample_queues o).
Proof. intros []; [apply sample_queue_rep|apply new_rep]. Qed.
Lemma sample_room o b i c n : (n <= 1000)%N → room (sample_proc o b i c) n.
Proof.
  intros Hn [].
  - transitivity (1003%N); [|by apply N.leb_le]. destruct o; cbn; lia.
  - transitivity (1003%N); [|by apply N.leb_le]. cbn. lia.
Qed.

(** ** Authorization *)
Definition sample_querier (decoded : InternalAuthorizationMsg) : Authorization.Querier :=
  Authorization.mkQuerier (λ _ _, Ok 1%N) (λ _ _ _, Ok true) (λ _ _ _, Ok [x01])
    (λ _ _ _, to_json_binary decoded) (λ _ _, Ok "verifier") (λ _ _ _ _ _ _, Ok true).
Definition sample_q : Authorization.Querier := sample_querier (ProcessorCallback 0 Success).
Definition sample_user_denom : string := "factory/contract/swap".
Definition sample_user : MessageInfo := mkInfo "user" [mkCoin sample_user_denom 1].
Definition sample_owner : MessageInfo := mkInfo "owner" [].
Definition sample_swap (d : Domain) (t : MessageType) : AuthorizationInfo :=
  mkAuthorizationInfo "swap" (PermissionedInfo (WithCallLimitInfo [("user", 3%N)])) Never Forever
    None (NonAtomic (mkNonAtomicSubroutine
      [mkNonAtomicFunction d (mkMessageDetails t (mkMessage "msg" None)) (LibAddr "library")
         None None] None)) None.
Definition sample_polytone_domain : ExternalDomainInfo :=
  mkExternalDomainInfo "juno" (EnvCosmwasmInfo (PolytoneInfo
    (mkPolytoneConnectorsInfo (mkPolytoneNoteInfo "note" 60) "proxy"))) "remote_processor".
Definition sample_evm_domain : ExternalDomainInfo :=
  mkExternalDomainInfo "ethereum" (EnvEvmInfo (mkEncoderInfo "broker" "v1")
    (HyperlaneInfo (mkHyperlaneConnectorInfo "mailbox" 1))) "0xAB".
Definition sample_zk : ZkAuthorizationInfo :=
  mkZkAuthorizationInfo "proved" PermissionlessInfo 3 [x01] "route" [x02] true.

Definition sample_init : Exec Authorization.storage Authorization.ContractError Response :=
  Authorization.instantiate (sample_env 1) sample_owner
    (mkAuthInstantiateMsg "owner" ["sub"] "processor").
Definition sample_s0 : Authorization.storage := after sample_init Authorization.empty_storage.
(** Two domains and an authorization with a call limit for one user. *)
Definition sample_s1 : Authorization.storage :=
  after (Authorization.execute sample_q (sample_env 2) sample_owner
    (PermissionedAction (AddExternalDomains [sample_polytone_domain; sample_evm_domain]))) sample_s0.
Definition sample_s2 (d : Domain) (t : MessageType) : Authorization.storage :=
  after (Authorization.execute sample_q (sample_env 3) sample_owner
    (PermissionedAction (CreateAuthorizations [sample_swap d t]))) sample_s1.
Definition sample_send (m : ProcessorMessage) (ttl : option Expiration) : AuthorizationExecuteMsg :=
  PermissionlessAction (SendMsgs "swap" [m] ttl).
(** The user has sent one message. *)
Definition sample_s3 (d : Domain) (t : MessageType) (m : ProcessorMessage)
    (ttl : option Expiration) : Authorization.storage :=
  after (Authorization.execute sample_q (sample_env 4) sample_user (sample_send m ttl))
    (sample_s2 d t).
