(* ===== verification/ProcessorTheorems.v ===== *)
(** * Processor: theorems on single transactions

    What each entry point does and who may call it, with the sample runs on
    which the theorems of the processor are applied. *)
From Stdlib Require Import Strings.Byte.
From S2P Require Import Prelude Platform Types Queue Processor ProcessorFacts ProcessorProofs.
From S2P Require Import ProcessorRuns ProcessorRetries ProcessorLifecycle Codec Samples.
Import Processor.

(** ** Whole executions *)
Definition sample_two_functions : MessageBatch :=
  sample_non_atomic [sample_function "library1" None; sample_function "library2" None] None.
Definition sample_dispatch (k : N) : WasmMsg :=
  WasmExecute (if (k =? 0)%N then "library1" else "library2") [x7b; x7d] [].

Lemma sample_plain :
  plain_non_atomic sample_two_functions
    (mkNonAtomicSubroutine [sample_function "library1" None; sample_function "library2" None] None)
    2 sample_dispatch.
Proof.
  split; try done.
  - intros k Hk. assert (k = 0 ∨ k = 1)%N as [-> | ->] by lia; by eexists.
  - intros k Hk. assert (k = 0 ∨ k = 1)%N as [-> | ->] by lia; done.
Qed.

(** Two ticks execute a batch of two functions. *)
Lemma non_atomic_batch_completes_witness :
  ∃ rs s' msg env_last,
    run_ticks ((λ e, (e, SubMsgOk)) <$> [sample_env 1; sample_env 2])
      (sample_proc (Some sample_two_functions) sample_two_functions None None) = Ok (rs, s') ∧
    rs.*1 = (λ k, [SubMsg_reply_always (sample_dispatch k) 7]) <$> N_range 0 2 ∧
    concat (rs.*2) = [SubMsg_new msg] ∧
    last [sample_env 1; sample_env 2] = Some env_last ∧
    is_callback sample_config (env_contract env_last) 7 Success msg ∧
    batch_gone s' sample_two_functions.
Proof.
  refine (non_atomic_batch_completes [sample_env 1; sample_env 2] _
    (sample_queues (Some sample_two_functions)) sample_config sample_two_functions _ 2
    sample_dispatch sample_plain _ _ _ _).
  - lia.
  - split; try done. apply sample_reps.
  - by apply sample_room.
  - done.
Defined.

(** An atomic batch that may be retried once is executed twice. *)
Definition sample_retried : MessageBatch :=
  sample_atomic (Some (mkRetryLogic (Amount 1) (DurHeight 1))).
Lemma atomic_retries_bounded_witness :
  ∃ rs s' msg env_last error,
    run_ticks ((λ f : Env * string, (f.1, SubMsgErr f.2)) <$>
                 [(sample_env 1, "first"); (sample_env 2, "second")])
      (sample_proc (Some sample_retried) sample_retried None None) = Ok (rs, s') ∧
    Forall2 (λ f r, ∃ b', batch_id b' = 7%N ∧ atomic_call f.1 b' r.1)
      [(sample_env 1, "first"); (sample_env 2, "second")] rs ∧
    concat (rs.*2) = [SubMsg_new msg] ∧
    last [(sample_env 1, "first"); (sample_env 2, "second")] = Some (env_last, error) ∧
    is_callback sample_config (env_contract env_last) 7 (Rejected error) msg ∧
    batch_gone s' sample_retried.
Proof.
  refine (atomic_retries_bounded [(sample_env 1, "first"); (sample_env 2, "second")] _
    (sample_queues (Some sample_retried)) sample_config sample_retried _ (DurHeight 1) 1
    _ _ _ _ _ _ _ _ _).
  - split; try done. apply sample_reps.
  - done.
  - done.
  - done.
  - done.
  - by apply N.leb_le.
  - done.
  - split; [|done]. by eexists.
  - by apply sample_room.
Defined.

(** The second of two functions fails and has no retry logic. *)
Lemma failed_function_report_witness :
  ∃ msg, reply (sample_env 1) (mkReply 7 (SubMsgErr "failed"))
           (sample_proc None sample_two_functions (Some 1%N) None) =
         Ok (mkResponse [SubMsg_new msg] [("method", "reply")],
             finished 7 (sample_proc None sample_two_functions (Some 1%N) None)) ∧
         is_callback sample_config "contract" 7 (Rejected "failed") msg.
Proof.
  refine (failed_function_report (sample_env 1)
    (sample_proc None sample_two_functions (Some 1%N) None) sample_config
    sample_two_functions _ 1 (sample_function "library2" None) "failed" (Rejected "failed") _ _).
  - by split.
  - done.
Defined.

(** A function that needed one retry is followed by one that allows one retry. *)
Definition sample_once : RetryLogic := mkRetryLogic (Amount 1) (DurHeight 1).
Definition sample_carried : MessageBatch :=
  sample_non_atomic [sample_function "library1" (Some sample_once);
                     sample_function "library2" (Some sample_once)]
    (Some (mkCurrentRetry 1 (AtHeight 1))).
Lemma retry_budget_carried_over_witness :
  let s := sample_proc None sample_carried (Some 0%N) None in
  ∃ s1, reply (sample_env 2) (mkReply 7 SubMsgOk) s = Ok (mkResponse [] [("method", "reply")], s1) ∧
        reps s1 (upd (sample_queues None) Medium [set_retry None sample_carried]) ∧
        ∀ s2, rest_of s2 = rest_of s1 →
          ∃ msg s3, reply (sample_env 3) (mkReply 7 (SubMsgErr "failed")) s2 =
                      Ok (mkResponse [SubMsg_new msg] [("method", "reply")], s3) ∧
                    is_callback sample_config "contract" 7 (PartiallyExecuted 1 "failed") msg.
Proof.
  refine (retry_budget_carried_over (sample_env 2) (sample_env 3)
    (sample_proc None sample_carried (Some 0%N) None) sample_config sample_carried _ 0
    (sample_function "library1" (Some sample_once)) (sample_function "library2" (Some sample_once))
    1 (DurHeight 1) (sample_queues None) "failed" _ _ _ _ _ _ _ _ _); try done.
  - apply sample_reps.
  - by apply sample_room.
Defined.

(** The first of three functions is confirmed while it executes. *)
Definition sample_confirmed : MessageBatch :=
  sample_non_atomic [sample_function "a" None; sample_function "b" None; sample_function "c" None]
    None.
Lemma confirmation_during_execution_skips_witness :
  let s := sample_proc None sample_confirmed (Some 0%N)
             (Some (mkPendingCallback "a" [x01] sample_confirmed)) in
  ∃ s1 s2, process_callback (sample_env 1) (mkInfo "a" []) 7 [x01] s =
             Ok (mkResponse [] [("method", "callback")], s1) ∧
           reply (sample_env 1) (mkReply 7 SubMsgOk) s1 =
             Ok (mkResponse [] [("method", "reply")], s2) ∧
           s_non_atomic_batch_current_function_index s2 !! 7%N = Some 2%N ∧
           reps s2 (upd (upd (sample_queues None) Medium [set_retry None sample_confirmed]) Medium
                      [set_retry None sample_confirmed; set_retry None sample_confirmed]).
Proof.
  refine (confirmation_during_execution_skips (sample_env 1) (mkInfo "a" [])
    (sample_proc None sample_confirmed (Some 0%N)
       (Some (mkPendingCallback "a" [x01] sample_confirmed)))
    sample_config sample_confirmed "a" [x01] 0 (sample_queues None) _ _ _ _ _ _ _ _ _); try done.
  - apply sample_reps.
  - by apply sample_room.
Defined.

(** The first of two functions fails, may be retried once, and is confirmed anyway. *)
Definition sample_retry_once : RetryLogic := mkRetryLogic (Amount 1) (DurHeight 5).
Definition sample_retriable : MessageBatch :=
  sample_non_atomic [sample_function "a" (Some sample_retry_once); sample_function "b" None] None.
Lemma failed_attempt_confirmable_witness :
  let s := sample_proc None sample_retriable (Some 0%N)
             (Some (mkPendingCallback "a" [x01] sample_retriable)) in
  ∃ s1 s2, reply (sample_env 1) (mkReply 7 (SubMsgErr "error")) s =
             Ok (mkResponse [] [("method", "reply")], s1) ∧
           reps s1 (upd (sample_queues None) Medium [retried sample_retriable (AtHeight 6)]) ∧
           process_callback (sample_env 2) (mkInfo "a" []) 7 [x01] s1 =
             Ok (mkResponse [] [("method", "callback")], s2) ∧
           s_non_atomic_batch_current_function_index s2 !! 7%N = Some 1%N ∧
           reps s2 (upd (upd (sample_queues None) Medium [retried sample_retriable (AtHeight 6)])
                      Medium [retried sample_retriable (AtHeight 6); set_retry None sample_retriable]).
Proof.
  refine (failed_attempt_confirmable (sample_env 1) (sample_env 2) (mkInfo "a" [])
    (sample_proc None sample_retriable (Some 0%N)
       (Some (mkPendingCallback "a" [x01] sample_retriable)))
    sample_config sample_retriable _ 0 (sample_function "a" (Some sample_retry_once))
    sample_retry_once (AtHeight 6) "a" [x01] "error" (sample_queues None) _ _ _ _ _ _ _ _ _ _ _);
    try done.
  - apply sample_reps.
  - by apply sample_room.
Defined.

(** ** Ticks *)
Section Ticks.
Context `{CPl : Platform} `{CSj : SerdeJson}.
Context `{CAe : JsonCodec AuthorizationExecuteMsg} `{CPe : JsonCodec ProcessorExecuteMsg}.
Context `{CPo : JsonCodec PolytoneExecuteMsg} `{CPc : JsonCodec ProcPolytoneCallbackMsg}.
Context `{!JsonCodecLaws AuthorizationExecuteMsg} `{!JsonCodecLaws ProcessorExecuteMsg}.
Context `{!JsonCodecLaws PolytoneExecuteMsg} `{!JsonCodecLaws ProcPolytoneCallbackMsg}.
Implicit Types (s : storage) (qs : Priority → list MessageBatch) (env : Env) (b : MessageBatch).

(** How many functions of a batch have been executed. *)
Definition executed s b : N :=
  match batch_subroutine b with
  | Atomic _ => 0%N
  | NonAtomic _ => default 0%N (s_non_atomic_batch_current_function_index s !! batch_id b)
  end.

Lemma tick_expired_run env b s c :
  s_config s = Some c →
  ∃ m, tick_expired env b s =
         Ok (mkResponse [SubMsg_new m] [("method", "tick"); ("action", "expired_batch")],
             after_callback c (batch_id b) (Expired (executed s b)) (finished (batch_id b) s)) ∧
       is_callback c (env_contract env) (batch_id b) (Expired (executed s b)) m.
Proof.
  intros Hc. unfold tick_expired, executed, mbind, Exec_bind, item_load. cbn [lget CONFIG]. rewrite Hc.
  destruct (create_callback_run c (batch_id b)
    (Expired (match batch_subroutine b with
      | Atomic _ => 0%N
      | NonAtomic _ => default 0%N (s_non_atomic_batch_current_function_index s !! batch_id b)
      end)) (env_contract env) (finished (batch_id b) s)) as (m & Hm & His).
  exists m. split; [|done]. destruct (batch_subroutine b); cbn [mret Exec_ret map_may_load lget
    NON_ATOMIC_BATCH_CURRENT_FUNCTION_INDEX] in *; unfold map_may_load in *; simpl in *;
    unfold finished in Hm; simpl in Hm; by rewrite Hm.
Qed.
End Ticks.

(** A tick on an active processor looks at the high-priority queue unless it
    is empty, and takes the batch at its front.  An expired batch is dropped and
    reported with the number of functions it executed; a batch in its retry
    cooldown goes to the back of the same queue and nothing is sent; any other
    batch is executed.  With both queues empty the tick fails. *)
Theorem tick_serves_queue
    `{Platform} `{SerdeJson} `{JsonCodec AuthorizationExecuteMsg} `{JsonCodec ProcessorExecuteMsg}
    `{JsonCodec PolytoneExecuteMsg} `{JsonCodec ProcPolytoneCallbackMsg}
    `{!JsonCodecLaws AuthorizationExecuteMsg} `{!JsonCodecLaws ProcessorExecuteMsg}
    `{!JsonCodecLaws PolytoneExecuteMsg} `{!JsonCodecLaws ProcPolytoneCallbackMsg}
    (env : Env) (s : storage) (qs : Priority → list MessageBatch) (c : Config) :
  reps s qs → room s 1 → s_config s = Some c → proc_state c = Active →
  let p := match qs High with [] => Medium | _ => High end in
  match qs p with
  | [] => process_tick env s = Err NoMessagesToProcess
  | b :: rest =>
      ∃ q, let s1 := lset (get_queue_map p) q s in
      reps s1 (upd qs p rest) ∧
      if batch_expired (batch_expiration_time b) env then
        ∃ m, process_tick env s =
               Ok (mkResponse [SubMsg_new m] [("method", "tick"); ("action", "expired_batch")],
                   after_callback c (batch_id b) (Expired (executed s b))
                     (finished (batch_id b) s1)) ∧
             is_callback c (env_contract env) (batch_id b) (Expired (executed s b)) m
      else if cooling_down env b then
        ∃ s2, process_tick env s =
                Ok (mkResponse [] [("method", "tick"); ("action", "pushed_function_back_to_queue")],
                    s2) ∧
              rest_of s2 = rest_of s ∧ reps s2 (upd qs p (rest ++ [b]))
      else process_tick env s = tick_execute env b s1
  end.
Proof.
  intros Hs Hr Hc Ha. pose proof (tick_outcome_holds env s qs c Hs Hr Hc Ha) as Ht.
  unfold tick_outcome, next_queue in Ht. cbv zeta in *. set (p := match qs High with [] => _ | _ => _ end) in *.
  destruct (qs p) as [|b rest]; [done|]. destruct Ht as (q & Hq & Ht). exists q. split; [done|].
  destruct (batch_expired _ _).
  - destruct (tick_expired_run env b (lset (get_queue_map p) q s) c) as (m & Hm & His).
    { by destruct p. }
    assert (executed (lset (get_queue_map p) q s) b = executed s b) as He by (by destruct p).
    rewrite He in Hm, His. exists m. split; [|done]. by rewrite Ht.
  - destruct (cooling_down env b); [|done]. destruct Ht as (q2 & Ht & Hs2).
    eexists. split_and!; [done| |done]. apply rest_of_lset.
Qed.

Lemma tick_serves_queue_witness :
  let b := sample_atomic None in
  let s := sample_proc (Some b) b None None in
  ∃ q, let s1 := lset (get_queue_map Medium) q s in
    reps s1 (upd (sample_queues (Some b)) Medium []) ∧
    process_tick (sample_env 1) s = tick_execute (sample_env 1) b s1.
Proof.
  exact (tick_serves_queue (sample_env 1) (sample_proc (Some (sample_atomic None)) (sample_atomic None) None None)
    (sample_queues (Some (sample_atomic None))) sample_config (sample_reps _ _ _ _)
    (sample_room _ _ _ _ 1 ltac:(by apply N.leb_le)) eq_refl eq_refl).
Defined.

(** ** Batches that arrive *)

(** A batch that arrives in time goes to the end of the queue of its priority,
    is stored under its id, and nothing else changes; a batch that arrives after
    its expiration is reported as [Expired 0] and never queued. *)
Theorem enqueue_appends
    `{Platform} `{SerdeJson} `{JsonCodec AuthorizationExecuteMsg} `{JsonCodec ProcessorExecuteMsg}
    `{JsonCodec PolytoneExecuteMsg} `{JsonCodec ProcPolytoneCallbackMsg}
    `{!JsonCodecLaws AuthorizationExecuteMsg} `{!JsonCodecLaws ProcessorExecuteMsg}
    `{!JsonCodecLaws PolytoneExecuteMsg} `{!JsonCodecLaws ProcPolytoneCallbackMsg}
    (env : Env) (s : storage) (qs : Priority → list MessageBatch) (c : Config)
    (id : N) (msgs : list ProcessorMessage) (sub : Subroutine) (p : Priority) (exp : option N) :
  reps s qs → room s 1 → s_config s = Some c →
  let b := mkMessageBatch id msgs sub p exp None in
  if batch_expired exp env then
    ∃ m, enqueue_messages env id msgs sub p exp s =
           Ok (mkResponse [SubMsg_new m]
                 [("method", "enqueue_messages"); ("action", "expired_batch")],
               after_callback c id (Expired 0) s) ∧
         is_callback c (env_contract env) id (Expired 0) m
  else
    ∃ q, let s' := lset EXECUTION_ID_TO_BATCH (<[id := b]> (s_execution_id_to_batch s))
                     (lset (get_queue_map p) q s) in
      enqueue_messages env id msgs sub p exp s =
        Ok (mkResponse [] [("method", "enqueue_messages")], s') ∧
      reps s' (upd qs p (qs p ++ [b])).
Proof.
  intros Hs Hr Hc b. destruct (batch_expired exp env) eqn:Hexp.
  - by apply enqueue_expired.
  - destruct (enqueue_run env id msgs sub p exp s qs 0 Hs Hr Hexp) as (q & He & Hq & _).
    exists q. split; [exact He|exact Hq].
Qed.

Lemma enqueue_appends_witness :
  let old := sample_atomic None in
  let s := sample_proc (Some old) old None None in
  let b := mkMessageBatch 8 [sample_msg] (batch_subroutine old) High (Some 100%N) None in
  ∃ q, let s' := lset EXECUTION_ID_TO_BATCH (<[8%N := b]> (s_execution_id_to_batch s))
                   (lset (get_queue_map High) q s) in
    enqueue_messages (sample_env 1) 8 [sample_msg] (batch_subroutine old) High (Some 100%N) s =
      Ok (mkResponse [] [("method", "enqueue_messages")], s') ∧
    reps s' (upd (sample_queues (Some old)) High [b]).
Proof.
  exact (enqueue_appends (sample_env 1)
    (sample_proc (Some (sample_atomic None)) (sample_atomic None) None None)
    (sample_queues (Some (sample_atomic None))) sample_config 8 [sample_msg]
    (batch_subroutine (sample_atomic None)) High (Some 100%N) (sample_reps _ _ _ _)
    (sample_room _ _ _ _ 1 ltac:(by apply N.leb_le)) eq_refl).
Defined.

(** An owner's insertion puts the batch at the requested position of its queue,
    shifting the batches behind it, and an eviction takes out the batch at the
    given position, forgets everything stored about it and reports
    [RemovedByOwner]; so evicting what was inserted gives back the queue. *)
Theorem insert_evict_roundtrip
    `{Platform} `{SerdeJson} `{JsonCodec AuthorizationExecuteMsg} `{JsonCodec ProcessorExecuteMsg}
    `{JsonCodec PolytoneExecuteMsg} `{JsonCodec ProcPolytoneCallbackMsg}
    `{!JsonCodecLaws AuthorizationExecuteMsg} `{!JsonCodecLaws ProcessorExecuteMsg}
    `{!JsonCodecLaws PolytoneExecuteMsg} `{!JsonCodecLaws ProcPolytoneCallbackMsg}
    (env env' : Env) (s : storage) (qs : Priority → list MessageBatch) (c : Config)
    (i id : N) (msgs : list ProcessorMessage) (sub : Subroutine) (p : Priority) (exp : option N) :
  reps s qs → room s 2 → s_config s = Some c → batch_expired exp env = false →
  (i ≤ vec_len (qs p))%N →
  let b := mkMessageBatch id msgs sub p exp None in
  ∃ s1 s2 m,
    insert_messages env i id msgs sub p exp s =
      Ok (mkResponse [] [("method", "insert_messages")], s1) ∧
    reps s1 (upd qs p (take (N.to_nat i) (qs p) ++ b :: drop (N.to_nat i) (qs p))) ∧
    s_execution_id_to_batch s1 !! id = Some b ∧
    evict_messages env' i p s1 =
      Ok (mkResponse [SubMsg_new m]
            [("method", "evict_messages"); ("messages_removed", pretty (vec_len msgs))], s2) ∧
    is_callback c (env_contract env') id RemovedByOwner m ∧
    reps s2 qs ∧ s_execution_id_to_batch s2 !! id = None.
Proof.
  intros Hs Hr Hc Hexp Hi b.
  destruct (insert_run env i id msgs sub p exp s qs 1 Hs Hr Hexp Hi) as (q & Hins & Hs1 & Hr1).
  set (s1 := lset EXECUTION_ID_TO_BATCH _ _) in *.
  assert (length (take (N.to_nat i) (qs p)) = N.to_nat i) as Hlen.
  { rewrite length_take. unfold vec_len in Hi. lia. }
  destruct (evict_run env' i p s1 _ c b 1 Hs1 Hr1) as (q' & m & Hev & Hcb & Hs2 & _).
  { by destruct p. }
  { rewrite upd_eq, lookup_app_r by lia. by rewrite Hlen, Nat.sub_diag. }
  eexists s1, _, m. split_and!; [done|done| |done|done| |].
  - by destruct p; apply lookup_insert_eq.
  - eapply reps_ext; [|exact Hs2]. intros p'. rewrite upd_upd, upd_eq. unfold upd.
    case_decide as Hp; [|done]. subst p'.
    pose proof (delete_middle (take (N.to_nat i) (qs p)) (drop (N.to_nat i) (qs p)) b) as Hd.
    rewrite Hlen in Hd. etrans; [exact Hd|]. apply take_drop.
  - unfold after_callback, evicted. by case_match; destruct p; apply lookup_delete_eq.
Qed.

Lemma insert_evict_roundtrip_witness :
  let old := sample_atomic None in
  let b := mkMessageBatch 8 [sample_msg] (batch_subroutine old) Medium None None in
  ∃ s1 s2 m,
    insert_messages (sample_env 1) 0 8 [sample_msg] (batch_subroutine old) Medium None
      (sample_proc (Some old) old None None) =
      Ok (mkResponse [] [("method", "insert_messages")], s1) ∧
    reps s1 (upd (sample_queues (Some old)) Medium [b; old]) ∧
    s_execution_id_to_batch s1 !! 8%N = Some b ∧
    evict_messages (sample_env 2) 0 Medium s1 =
      Ok (mkResponse [SubMsg_new m]
            [("method", "evict_messages"); ("messages_removed", "1")], s2) ∧
    is_callback sample_config "contract" 8 RemovedByOwner m ∧
    reps s2 (sample_queues (Some old)) ∧ s_execution_id_to_batch s2 !! 8%N = None.
Proof.
  exact (insert_evict_roundtrip (sample_env 1) (sample_env 2)
    (sample_proc (Some (sample_atomic None)) (sample_atomic None) None None)
    (sample_queues (Some (sample_atomic None))) sample_config 0 8 [sample_msg]
    (batch_subroutine (sample_atomic None)) Medium None (sample_reps _ _ _ _)
    (sample_room _ _ _ _ 2 ltac:(by apply N.leb_le)) eq_refl eq_refl (N.le_0_l _)).
Defined.

(** ** Who may call what *)
(** The sender the processor takes commands from. *)
Definition commander (c : Config) : Addr :=
  match processor_domain c with
  | ProcMain => authorization_contract c
  | ProcExternal polytone => polytone_proxy_address polytone
  end.
Definition may_call (c : Config) (env : Env) (info : MessageInfo) (s : storage)
    (msg : ProcessorExecuteMsg) : Prop :=
  match msg with
  | AuthorizationModuleAction _ => info_sender info = commander c
  | ProcPermissionlessAction _ => True
  | InternalProcessorAction (LibraryCallback id _) =>
      ∃ pc, s_pending_callback s !! id = Some pc ∧ info_sender info = pc_address pc
  | InternalProcessorAction (ExecuteAtomic _) => info_sender info = env_contract env
  | ProcPolytoneCallback cm =>
      initiator cm = env_contract env ∧
      ∃ polytone, processor_domain c = ProcExternal polytone ∧
                  info_sender info = polytone_note_address polytone
  end.

(** Only the authorization module (or, on an external domain, its polytone
    proxy) can enqueue, insert, evict, pause or resume; only the contract that a
    batch waits for can confirm it; only the processor itself can start an atomic
    execution; and only the polytone note can acknowledge a callback, of a message
    the processor sent. Every other call fails and leaves the storage as it was. *)
Theorem execute_requires_permission
    `{Platform} `{SerdeJson} `{JsonCodec AuthorizationExecuteMsg} `{JsonCodec ProcessorExecuteMsg}
    `{JsonCodec PolytoneExecuteMsg} `{JsonCodec ProcPolytoneCallbackMsg}
    (env : Env) (info : MessageInfo) (msg : ProcessorExecuteMsg) (s s' : storage) (c : Config)
    (r : Response) :
  s_config s = Some c → execute env info msg s = Ok (r, s') → may_call c env info s msg.
Proof.
  intros Hc Hrun. destruct msg as [am|pm|[id m|b]|cm]; simpl in Hrun |- *; [|done| | |].
  - run_inv. by match goal with H : bool_decide (_ ≠ _) = false |- _ =>
      apply bool_decide_eq_false_1, dec_stable in H end.
  - unfold process_callback in Hrun. run_inv. eexists. split; [done|].
    by match goal with H : bool_decide (_ ≠ _) = false |- _ =>
      apply bool_decide_eq_false_1, dec_stable in H end.
  - unfold execute_atomic in Hrun. run_inv.
    by match goal with H : bool_decide (_ ≠ _) = false |- _ =>
      apply bool_decide_eq_false_1, dec_stable in H end.
  - unfold process_polytone_callback in Hrun. run_inv.
    destruct (processor_domain _) as [|polytone] eqn:Hd; run_inv.
    repeat match goal with H : bool_decide (_ ≠ _) = false |- _ =>
      apply bool_decide_eq_false_1, dec_stable in H end. eauto.
Qed.

Lemma execute_requires_permission_witness :
  let s := sample_proc None (sample_atomic None) None None in
  s_config s = Some sample_config ∧
  (∃ r s', execute (sample_env 1) (mkInfo "authorization" []) (AuthorizationModuleAction Pause) s =
             Ok (r, s')) ∧
  may_call sample_config (sample_env 1) (mkInfo "authorization" []) s
    (AuthorizationModuleAction Pause).
Proof.
  split; [done|]. split; [do 2 eexists; run_sample|].
  eapply (execute_requires_permission (sample_env 1) (mkInfo "authorization" [])
    (AuthorizationModuleAction Pause) (sample_proc None (sample_atomic None) None None));
    [reflexivity|run_sample].
Defined.

(** ** Callbacks of an external domain *)
(** How an acknowledgement changes what is kept about a callback: [None] is a
    failure, [Some None] means that nothing is kept any more. *)
Definition acknowledged (result : Callback) (info : option PendingPolytoneCallbackInfo)
    : option (option PendingPolytoneCallbackInfo) :=
  let mark st := (λ i, Some (mkPendingPolytoneCallbackInfo (pp_execution_result i) st)) <$> info in
  match result with
  | CallbackExecute (inl _) => Some None
  | CallbackExecute (inr error) =>
      mark (if bool_decide (error = "timeout") then CbTimedOut else CbUnexpectedError error)
  | CallbackFatalError error => mark (CbUnexpectedError error)
  | CallbackQuery => None
  end.

Section Acks.
Context `{CPl : Platform} `{CSj : SerdeJson}.
Context `{CAe : JsonCodec AuthorizationExecuteMsg} `{CPe : JsonCodec ProcessorExecuteMsg}.
Context `{CPo : JsonCodec PolytoneExecuteMsg} `{CPc : JsonCodec ProcPolytoneCallbackMsg}.
Context `{!JsonCodecLaws ProcPolytoneCallbackMsg}.

Lemma ack_run env info cm s c polytone id :
  s_config s = Some c → processor_domain c = ProcExternal polytone →
  info_sender info = polytone_note_address polytone → initiator cm = env_contract env →
  to_json_binary (ProcExecutionID id) = Ok (initiator_msg cm) →
  match acknowledged (cm_result cm) (s_pending_polytone_callbacks s !! id) with
  | Some info' =>
      ∃ s', process_polytone_callback env info cm s =
              Ok (mkResponse [] [("function", "process_polytone_callback")], s') ∧
            s_pending_polytone_callbacks s' =
              partial_alter (λ _, info') id (s_pending_polytone_callbacks s) ∧
            (∀ p, queue_at p s' = queue_at p s) ∧
            s_execution_id_to_batch s' = s_execution_id_to_batch s ∧ s_config s' = s_config s
  | None => ∃ e, process_polytone_callback env info cm s = Err e
  end.
Proof.
  intros Hc Hd Hsend Hini Hmsg. apply from_to_json in Hmsg.
  assert (set_domain (ProcExternal polytone) c = c) as Hset by (by destruct c; simpl in *; subst).
  unfold acknowledged, process_polytone_callback, mbind, Exec_bind, item_load, fail_if.
  rewrite (bool_decide_neq _ _ Hini). cbn [lget CONFIG]. rewrite Hc, Hd.
  rewrite (bool_decide_neq _ _ Hsend). rewrite Hmsg.
  destruct (cm_result cm) as [|[u|error]|error]; [by eexists| | |]; cbn [map_remove lget];
    unfold map_update, map_may_load, mbind, Exec_bind, of_result; cbn [lget PENDING_POLYTONE_CALLBACKS].
  2, 3: destruct (s_pending_polytone_callbacks s !! id) as [i|]; [|by eexists].
  all: cbn; rewrite Hset; eexists; split; [done|]; by split_and!; try intros [].
Qed.
End Acks.

(** On an external domain, the acknowledgement of the callback of execution
    [id] updates exactly the record of that callback: success removes it, a
    timeout marks it as timed out, any other error is kept with it (and an
    acknowledgement of a callback that is not pending fails); the result that was
    reported is never changed, nor are the queues and the batches. *)
Theorem polytone_ack_updates
    `{Platform} `{SerdeJson} `{JsonCodec AuthorizationExecuteMsg} `{JsonCodec ProcessorExecuteMsg}
    `{JsonCodec PolytoneExecuteMsg} `{JsonCodec ProcPolytoneCallbackMsg}
    `{!JsonCodecLaws ProcPolytoneCallbackMsg}
    (env : Env) (info : MessageInfo) (cm : CallbackMessage) (s : storage) (c : Config)
    (polytone : Polytone) (id : N) :
  s_config s = Some c → processor_domain c = ProcExternal polytone →
  info_sender info = polytone_note_address polytone → initiator cm = env_contract env →
  to_json_binary (ProcExecutionID id) = Ok (initiator_msg cm) →
  match acknowledged (cm_result cm) (s_pending_polytone_callbacks s !! id) with
  | Some info' =>
      ∃ s', process_polytone_callback env info cm s =
              Ok (mkResponse [] [("function", "process_polytone_callback")], s') ∧
            s_pending_polytone_callbacks s' =
              partial_alter (λ _, info') id (s_pending_polytone_callbacks s) ∧
            (∀ p, queue_at p s' = queue_at p s) ∧
            s_execution_id_to_batch s' = s_execution_id_to_batch s ∧ s_config s' = s_config s
  | None => ∃ e, process_polytone_callback env info cm s = Err e
  end.
Proof. by apply ack_run. Qed.

Definition sample_polytone : Polytone := mkPolytone "proxy" "note" 60 ProxyCreated.
Definition sample_remote : Config := mkConfig "authorization" (ProcExternal sample_polytone) Active.
Definition sample_external (st : PolytoneCallbackState) : storage :=
  mkStorage None (Some sample_remote) QueueMap.new QueueMap.new ∅ ∅ ∅
    {[ 7%N := mkPendingPolytoneCallbackInfo Success st ]}.
Definition sample_ack (r : Callback) : CallbackMessage :=
  mkCallbackMessage "contract" (bits_of_positive (encode (ProcExecutionID 7))) r.
Lemma polytone_ack_updates_witness :
  ∃ s', process_polytone_callback (sample_env 1) (mkInfo "note" [])
          (sample_ack (CallbackExecute (inr "timeout"))) (sample_external CbPending) =
          Ok (mkResponse [] [("function", "process_polytone_callback")], s') ∧
        s_pending_polytone_callbacks s' =
          partial_alter (λ _, Some (mkPendingPolytoneCallbackInfo Success CbTimedOut)) 7%N
            (s_pending_polytone_callbacks (sample_external CbPending)) ∧
        (∀ p, queue_at p s' = queue_at p (sample_external CbPending)) ∧
        s_execution_id_to_batch s' = s_execution_id_to_batch (sample_external CbPending) ∧
        s_config s' = s_config (sample_external CbPending).
Proof.
  exact (polytone_ack_updates (sample_env 1) (mkInfo "note" [])
    (sample_ack (CallbackExecute (inr "timeout"))) (sample_external CbPending) _ sample_polytone 7
    eq_refl eq_refl eq_refl eq_refl eq_refl).
Defined.

(** A callback that timed out can be sent again, with the same result, by
    anyone and exactly once per timeout: the retry marks it as pending, so a second
    retry fails until the bridge reports another timeout. *)
Theorem retry_callback_once_per_timeout
    `{Platform} `{SerdeJson} `{JsonCodec AuthorizationExecuteMsg} `{JsonCodec ProcessorExecuteMsg}
    `{JsonCodec PolytoneExecuteMsg} `{JsonCodec ProcPolytoneCallbackMsg}
    `{!JsonCodecLaws AuthorizationExecuteMsg} `{!JsonCodecLaws ProcessorExecuteMsg}
    `{!JsonCodecLaws PolytoneExecuteMsg} `{!JsonCodecLaws ProcPolytoneCallbackMsg}
    (env env' : Env) (s : storage) (c : Config) (polytone : Polytone) (id : N)
    (res : ExecutionResult) :
  s_config s = Some c → processor_domain c = ProcExternal polytone →
  s_pending_polytone_callbacks s !! id = Some (mkPendingPolytoneCallbackInfo res CbTimedOut) →
  ∃ m s', retry_callback env id s =
            Ok (mkResponse [SubMsg_new m] [("method", "retry_callback")], s') ∧
          is_callback c (env_contract env) id res m ∧
          s_pending_polytone_callbacks s' !! id =
            Some (mkPendingPolytoneCallbackInfo res CbPending) ∧
          retry_callback env' id s' = Err (CallbackError PolytoneCallbackStillPending).
Proof.
  intros Hc Hd Hp.
  destruct (create_callback_run c id res (env_contract env) s) as (m & Hm & His).
  exists m, (after_callback c id res s). unfold after_callback in *. rewrite Hd in *.
  unfold retry_callback, mbind, Exec_bind, map_err, map_load, fail_if, item_load.
  cbn [lget CONFIG PENDING_POLYTONE_CALLBACKS]. rewrite Hp. cbn [pp_state pp_execution_result].
  rewrite bool_decide_neq by done. rewrite Hc, Hm.
  split_and!; [done|done|apply lookup_insert_eq|].
  cbn. rewrite lookup_insert_eq. cbn. done.
Qed.

Lemma retry_callback_once_per_timeout_witness :
  ∃ m s', retry_callback (sample_env 1) 7 (sample_external CbTimedOut) =
            Ok (mkResponse [SubMsg_new m] [("method", "retry_callback")], s') ∧
          is_callback sample_remote "contract" 7 Success m ∧
          s_pending_polytone_callbacks s' !! 7%N =
            Some (mkPendingPolytoneCallbackInfo Success CbPending) ∧
          retry_callback (sample_env 2) 7 s' = Err (CallbackError PolytoneCallbackStillPending).
Proof.
  exact (retry_callback_once_per_timeout (sample_env 1) (sample_env 2) (sample_external CbTimedOut)
    sample_remote sample_polytone 7 Success eq_refl eq_refl eq_refl).
Defined.

(** An atomic batch is accepted, executed and reported. *)
Definition sample_enqueue : ProcessorExecuteMsg :=
  AuthorizationModuleAction (EnqueueMsgs 7 [sample_msg]
    (batch_subroutine (sample_atomic None)) Medium None).
Definition sample_tick : ProcessorExecuteMsg := ProcPermissionlessAction Tick.
Definition sample_p0 : storage :=
  after (instantiate (sample_env 1) sample_owner (mkProcInstantiateMsg "authorization" None))
    empty_storage.
Definition sample_p1 : storage :=
  after (run_tx (sample_env 2) (mkInfo "authorization" []) sample_enqueue SubMsgOk) sample_p0.
Definition sample_p2 : storage :=
  after (run_tx (sample_env 3) (mkInfo "anyone" []) sample_tick SubMsgOk) sample_p1.

Lemma batches_reported_exactly_once_witness :
  ∃ rep qs, nsteps life_step 2 (sample_p0, [], []) (sample_p2, [7%N], rep) ∧ rep = [7%N] ∧
    reps sample_p2 qs ∧ queued qs 7 = 0%nat.
Proof.
  destruct (after_ok (instantiate (sample_env 1) sample_owner
    (mkProcInstantiateMsg "authorization" None)) empty_storage) as [r0 H0]; [vm_compute; reflexivity|].
  destruct (after_ok (run_tx (sample_env 2) (mkInfo "authorization" []) sample_enqueue SubMsgOk)
    sample_p0) as [o1 H1]; [vm_compute; reflexivity|].
  destruct (after_ok (run_tx (sample_env 3) (mkInfo "anyone" []) sample_tick SubMsgOk)
    sample_p1) as [o2 H2]; [vm_compute; reflexivity|].
  assert (o1 = []) as -> by (vm_compute in H1; by injection H1).
  assert (reported sample_config sample_tick o2 = [7%N]) as Ho2.
  { vm_compute in H2. injection H2 as <-. vm_compute. reflexivity. }
  assert (nsteps life_step 2 (sample_p0, [], []) (sample_p2, [7%N], [7%N])) as Hrun.
  { apply (nsteps_l _ _ _ (sample_p1, [7%N], [])).
    - exact (life_tx (sample_env 2) (mkInfo "authorization" []) sample_enqueue SubMsgOk []
        sample_p0 sample_p1 [] [] sample_config ltac:(vm_compute; reflexivity) ltac:(done)
        ltac:(by repeat constructor) H1).
    - pose proof (life_tx (sample_env 3) (mkInfo "anyone" []) sample_tick SubMsgOk o2
        sample_p1 sample_p2 [7%N] [] sample_config ltac:(vm_compute; reflexivity) ltac:(done)
        ltac:(by repeat constructor) H2) as Hstep.
      rewrite Ho2 in Hstep. by apply nsteps_once. }
  destruct (batches_reported_exactly_once (sample_env 1) sample_owner
    (mkProcInstantiateMsg "authorization" None) r0 sample_p0 sample_p2 2 [7%N] [7%N] H0 Hrun)
    as (qs & Hs & Hid); [vm_compute; discriminate|].
  exists [7%N], qs. split_and!; [done|done|done|]. destruct (Hid 7%N) as (_ & Heq & _).
  change (occ 7 [7%N]) with 1%nat in Heq. lia.
Defined.
