(* ===== verification/AuthorizationTheorems.v ===== *)
(** * Authorization: theorems *)
From Stdlib Require Import Strings.Byte.
From S2P Require Import Prelude Platform Types AuthorizationUtils Authorization AuthorizationFacts AuthorizationInvariants Codec.
From S2P Require Import Samples.
Import Authorization.

(** ** What a message must look like *)
Section Conformance.
Context `{CSj : SerdeJson}.

Definition restriction_holds (json : Value) (r : ParamRestriction) : Prop :=
  match r with
  | MustBeIncluded keys => is_Some (value_pointer json (pointer keys))
  | CannotBeIncluded keys => value_pointer json (pointer keys) = None
  | MustBeValue keys value =>
      ∃ x y, value_pointer json (pointer keys) = Some x ∧ value_from_slice value = Ok y ∧
             value_eqb x y = true
  | MustBeBytes _ => False
  end.
(** A message fits the function it is sent for: it has the type of the function;
    raw bytes are the ones the function prescribes, and a JSON message has the
    function's name as its only key and satisfies the restrictions. *)
Definition conforms (m : ProcessorMessage) (d : MessageDetails) : Prop :=
  let restrictions := default [] (params_restrictions (message d)) in
  message_matches_type m (message_type d) = true ∧
  match m with
  | EvmRawCall bytes => Forall (λ r, r = MustBeBytes bytes) restrictions
  | _ =>
      ∃ json kv, value_from_slice (get_msg m) = Ok json ∧ as_object json = Some [kv] ∧
        is_Some (value_get json (msg_name (message d))) ∧
        Forall (restriction_holds json) restrictions
  end.

Lemma for_each_exact {A} (Q : A → Prop) (l : list A)
    (body : A → Exec storage ContractError unit) s :
  (∀ x, ReadOnly (body x)) → (∀ x, body x s = Ok ((), s) ↔ Q x) →
  for_each l body s = Ok ((), s) ↔ Forall Q l.
Proof.
  intros Hro Hb. induction l as [|x l IH]; simpl.
  - split; [constructor|done].
  - rewrite Exec_bind_ok, Forall_cons, <-IH, <-Hb. split.
    + intros ([] & s1 & H1 & H2). pose proof (Hro x _ _ _ H1). by subst.
    + intros [? ?]. eauto.
Qed.
Lemma check_json_restriction_exact json r s :
  check_json_restriction json r s = Ok ((), s) ↔ restriction_holds json r.
Proof.
  destruct r as [k|k|k v|b]; simpl.
  - unfold mbind, Exec_bind, ok_or. destruct (value_pointer _ _); naive_solver.
  - rewrite fail_if_ok. case_bool_decide as Hs; split; try done.
    + by intros [? _].
    + intros Hn. rewrite Hn in Hs. by destruct Hs.
    + intros _. by apply eq_None_not_Some.
  - unfold mbind, Exec_bind, ok_or, map_err, of_result, fail_if.
    destruct (value_pointer _ _) as [x|], (value_from_slice v) as [y|e|]; simpl;
      try (split; [done|]; naive_solver).
    destruct (value_eqb x y) eqn:?; simpl; (split; [|by intros (? & ? & [= <-] & [= <-] & ?); congruence]);
      [eauto 6|done].
  - done.
Qed.
Lemma check_bytes_restriction_exact b r s :
  check_bytes_restriction b r s = Ok ((), s) ↔ r = MustBeBytes b.
Proof.
  destruct r; simpl; [done..|]. rewrite fail_if_ok. split.
  - intros [->%bool_decide_neq_false _]. done.
  - intros [= ->]. by rewrite bool_decide_neq.
Qed.
Lemma validate_message_exact {F} `{Function F} m (f : F) s :
  validate_message m f s = Ok ((), s) ↔ conforms m (fn_message_details f).
Proof.
  unfold validate_message, conforms.
  rewrite Exec_bind_ok. setoid_rewrite fail_if_ok. setoid_rewrite negb_false_iff.
  assert (∀ msg rs, (json ← of_result (map_err_r InvalidJson (value_from_slice msg));
      _ ← fail_if (negb (bool_decide (from_option length 0 (as_object json) = 1)))
            (MessageE InvalidStructure);
      _ ← fail_if (negb (bool_decide (is_Some (value_get json
            (msg_name (message (fn_message_details f))))))) (MessageE DoesNotMatch);
      for_each rs (check_json_restriction json)) s = Ok ((), s) ↔
    ∃ json kv, value_from_slice msg = Ok json ∧ as_object json = Some [kv] ∧
        is_Some (value_get json (msg_name (message (fn_message_details f)))) ∧
        Forall (restriction_holds json) rs) as Hjson.
  { intros msg rs. unfold mbind, Exec_bind, of_result, map_err_r, fail_if.
    destruct (value_from_slice msg) as [json|e|]; [|naive_solver..].
    pose proof (for_each_exact (restriction_holds json) rs (check_json_restriction json) s _
      (λ r, check_json_restriction_exact json r s)) as Hr.
    case_bool_decide as Hlen; simpl.
    2: { split; [done|]. intros (j & kv & [= <-] & Hj & _). by rewrite Hj in Hlen. }
    case_bool_decide as Hget; simpl;
      [|split; [done|]; by intros (j & kv & [= <-] & _ & Hg & _)].
    rewrite Hr. destruct (as_object json) as [[|kv [|]]|] eqn:Hobj; try done. split.
    - intros Hall. exists json, kv. done.
    - intros (j & kv' & Hj & _ & _ & Hall). by injection Hj as <-. }
  split.
  - intros ([] & s1 & [Ht <-] & Hm). split; [done|]. destruct m; try by apply Hjson.
    revert Hm. apply for_each_exact; [apply _|]. intros. apply check_bytes_restriction_exact.
  - intros [Ht Hm]. exists (), s. split; [done|]. destruct m; try by apply Hjson.
    revert Hm. apply for_each_exact; [apply _|]. intros. apply check_bytes_restriction_exact.
Qed.
Lemma validate_messages_generic_exact {F} `{Function F} ms (fs : list F) s :
  validate_messages_generic ms fs s = Ok ((), s) ↔
  Forall2 (λ m f, conforms m (fn_message_details f)) ms fs.
Proof.
  unfold validate_messages_generic. rewrite Exec_bind_ok. setoid_rewrite fail_if_ok.
  setoid_rewrite negb_false_iff. setoid_rewrite bool_decide_eq_true.
  assert (for_each (zip ms fs) (λ mf, validate_message mf.1 mf.2) s = Ok ((), s) ↔
    Forall (λ mf, conforms mf.1 (fn_message_details mf.2)) (zip ms fs)) as Hz.
  { apply for_each_exact; [apply _|]. intros. apply validate_message_exact. }
  split.
  - intros ([] & s1 & [Hl <-] & Hf%Hz). clear Hz. revert fs Hl Hf.
    induction ms as [|m ms IH]; intros [|f fs]; try done; simpl.
    intros [= Hl] [Hm Hf]%Forall_cons. constructor; [done|by apply IH].
  - intros Hf. exists (), s. split; [split; [by eapply Forall2_length|done]|]. apply Hz.
    clear Hz. induction Hf; simpl; [by constructor|by constructor].
Qed.
End Conformance.

(** ** Reachable states *)
Section Reachable.
Context `{CPl : Platform} `{CSj : SerdeJson} `{COw : CwOwnable} `{CTf : TokenFactoryProto}.
Context `{CPe : JsonCodec ProcessorExecuteMsg} `{CPo : JsonCodec PolytoneExecuteMsg}.
Context `{CHy : JsonCodec HyperlaneExecuteMsg} `{CPc : JsonCodec AuthPolytoneCallbackMsg}.
Context `{CZk : JsonCodec ZkMessage} `{CIa : JsonCodec InternalAuthorizationMsg}.

(** Any message of anyone, that the contract accepts. *)
Inductive auth_step : relation storage :=
| AuthStep q env info msg s r s' : execute q env info msg s = Ok (r, s') → auth_step s s'.
(** The same, where processors and bridges report each execution once and the
    execution ids have not wrapped around. *)
Inductive honest_step : relation storage :=
| HonestStep q env info msg s r s' :
    honest q s msg → ids_left s → execute q env info msg s = Ok (r, s') → honest_step s s'.

Lemma instantiate_ok env info im r s :
  instantiate env info im empty_storage = Ok (r, s) →
  registry s = registry empty_storage ∧ s_current_executions s = ∅ ∧
  s_processor_callbacks s = ∅ ∧ s_execution_id s = Some 0%N.
Proof.
  unfold instantiate. intros Hrun. run_inv.
  match goal with H : for_each _ _ _ = Ok (_, ?s1) |- _ => rename H into Hf; rename s1 into sx end.
  eapply (for_each_invariant (λ s1, registry s1 = registry empty_storage ∧
    s_current_executions s1 = ∅ ∧ s_processor_callbacks s1 = ∅)) in Hf; [|..].
  - destruct Hf as (Hr & ? & ?). split; [exact Hr|by split_and!].
  - intros ? ? ? ? (Hr & ? & ?) Hb. run_inv. split; [|by split_and!].
    unfold registry. simpl. congruence.
  - done.
Qed.
Lemma wf_initial s : registry s = registry empty_storage → wf s.
Proof. unfold registry. intros [= H1 H2 H3]. by split; intros *; rewrite ?H1, ?H2, ?H3; intros []%lookup_empty_Some. Qed.
Lemma reachable_wf s s' : rtc auth_step s s' → wf s →
  wf s' ∧ domains_le (s_external_domains s) (s_external_domains s').
Proof.
  induction 1 as [s|s1 s2 s3 [q env info msg s r s' Hrun] _ IH]; intros Hwf.
  - split; [done|reflexivity].
  - destruct (execute_registry _ _ _ _ _ _ _ Hrun Hwf) as [Hle Hwf'].
    destruct (IH (Hwf' Hwf)) as [? ?]. split; [done|by etrans].
Qed.
End Reachable.

(** C9 The registry stays well formed.  In every state the contract can reach, each
    authorization is stored under its own, non-empty label, no label is shared with
    a ZK authorization, and each authorization is valid: it has functions, all on
    the domain of the first one, which is registered; the message type of each
    function fits the execution environment; parameter restrictions fit the message
    type; and a permissionless authorization does not have high priority. *)
Theorem registry_well_formed
    `{Platform} `{SerdeJson} `{CwOwnable} `{TokenFactoryProto}
    `{JsonCodec ProcessorExecuteMsg} `{JsonCodec PolytoneExecuteMsg}
    `{JsonCodec HyperlaneExecuteMsg} `{JsonCodec AuthPolytoneCallbackMsg}
    `{JsonCodec ZkMessage} `{JsonCodec InternalAuthorizationMsg}
    (env : Env) (info : MessageInfo) (im : AuthInstantiateMsg) (r : Response) (s0 s : storage) :
  instantiate env info im empty_storage = Ok (r, s0) → rtc auth_step s0 s → wf s.
Proof.
  intros (Hr & _)%instantiate_ok Hs. by eapply reachable_wf; [|apply wf_initial].
Qed.

Lemma sample_run_1 : rtc auth_step sample_s0 sample_s1.
Proof.
  destruct (after_ok (execute sample_q (sample_env 2) sample_owner
    (PermissionedAction (AddExternalDomains [sample_polytone_domain; sample_evm_domain]))) sample_s0)
    as [r Hr]; [vm_compute; reflexivity|].
  apply rtc_once. econstructor. exact Hr.
Qed.
Lemma sample_run_2 d t :
  succeeds (execute sample_q (sample_env 3) sample_owner
    (PermissionedAction (CreateAuthorizations [sample_swap d t]))) sample_s1 = true →
  rtc auth_step sample_s0 (sample_s2 d t).
Proof.
  intros [r Hr]%after_ok. etrans; [exact sample_run_1|]. apply rtc_once. econstructor. exact Hr.
Qed.
Lemma sample_init_ok : ∃ r, sample_init empty_storage = Ok (r, sample_s0).
Proof. apply after_ok. vm_compute. reflexivity. Qed.

(** Two domains are added and an authorization for one of them is created. *)
Lemma registry_well_formed_witness :
  (∃ r, sample_init empty_storage = Ok (r, sample_s0)) ∧
  wf (sample_s2 (DomainExternal "ethereum") TyEvmRawCall) ∧
  s_authorizations (sample_s2 (DomainExternal "ethereum") TyEvmRawCall) !! "swap" ≠ None.
Proof.
  split; [exact sample_init_ok|]. split; [|vm_compute; discriminate].
  destruct sample_init_ok as [r Hr].
  refine (registry_well_formed (sample_env 1) sample_owner
    (mkAuthInstantiateMsg "owner" ["sub"] "processor") r sample_s0 _ Hr _).
  apply sample_run_2. vm_compute. reflexivity.
Defined.

(** Registered external domains are permanent: whatever messages are executed,
    a domain is never removed, and its name, processor, connectors and encoder
    never change; only the state of its polytone proxy does. *)
Theorem external_domains_permanent
    `{Platform} `{SerdeJson} `{CwOwnable} `{TokenFactoryProto}
    `{JsonCodec ProcessorExecuteMsg} `{JsonCodec PolytoneExecuteMsg}
    `{JsonCodec HyperlaneExecuteMsg} `{JsonCodec AuthPolytoneCallbackMsg}
    `{JsonCodec ZkMessage} `{JsonCodec InternalAuthorizationMsg}
    (env : Env) (info : MessageInfo) (im : AuthInstantiateMsg) (r : Response)
    (s0 s s' : storage) (n : string) (d : ExternalDomain) :
  instantiate env info im empty_storage = Ok (r, s0) → rtc auth_step s0 s → rtc auth_step s s' →
  s_external_domains s !! n = Some d →
  ∃ d', s_external_domains s' !! n = Some d' ∧ domain_evolves d d'.
Proof.
  intros (Hr & _)%instantiate_ok Hs Hs' Hd.
  assert (wf s) as Hwf by (by eapply reachable_wf; [|apply wf_initial]).
  by apply (proj2 (reachable_wf s s' Hs' Hwf)).
Qed.

Lemma external_domains_permanent_witness :
  ∃ d d', s_external_domains sample_s1 !! "juno" = Some d ∧
    s_external_domains (sample_s2 DomainMain TyCosmwasmExecuteMsg) !! "juno" = Some d' ∧
    domain_evolves d d'.
Proof.
  destruct sample_init_ok as [r Hr].
  destruct (s_external_domains sample_s1 !! "juno") as [d|] eqn:Hd; [|vm_compute in Hd; discriminate].
  exists d.
  edestruct (external_domains_permanent (sample_env 1) sample_owner
    (mkAuthInstantiateMsg "owner" ["sub"] "processor") r sample_s0 sample_s1
    (sample_s2 DomainMain TyCosmwasmExecuteMsg) "juno" d Hr sample_run_1)
    as (d' & Hd' & Hev); [|exact Hd|eauto].
  destruct (after_ok (execute sample_q (sample_env 3) sample_owner
    (PermissionedAction (CreateAuthorizations [sample_swap DomainMain TyCosmwasmExecuteMsg]))) sample_s1)
    as [r' Hr']; [vm_compute; reflexivity|].
  apply rtc_once. econstructor. exact Hr'.
Defined.

(** C8 The counters are exact.  In every state reached by messages in which each
    execution is reported at most once, the counter of every label equals the
    number of its executions whose result is still [InProcess], and the next
    execution id has not been used. *)
Theorem executions_accounted
    `{Platform} `{SerdeJson} `{CwOwnable} `{TokenFactoryProto}
    `{JsonCodec ProcessorExecuteMsg} `{JsonCodec PolytoneExecuteMsg}
    `{JsonCodec HyperlaneExecuteMsg} `{JsonCodec AuthPolytoneCallbackMsg}
    `{JsonCodec ZkMessage} `{JsonCodec InternalAuthorizationMsg}
    (env : Env) (info : MessageInfo) (im : AuthInstantiateMsg) (r : Response) (s0 s : storage) :
  instantiate env info im empty_storage = Ok (r, s0) → rtc honest_step s0 s → accounted s.
Proof.
  intros (_ & Hc & Hp & Hi)%instantiate_ok Hs.
  assert (accounted s0) as Ha.
  { split.
    - intros l. unfold current, in_process. rewrite Hc, Hp, lookup_empty, map_filter_empty. done.
    - exists 0%N. split; [done|]. by rewrite Hp. }
  clear -Hs Ha. induction Hs as [s|s1 s2 s3 [q env info msg s r s' ? ? Hrun] _ IH]; [done|].
  apply IH. by eapply execute_accounted.
Qed.

(** A user sends a message and the processor reports its success. *)
Definition sample_main3 : storage := sample_s3 DomainMain TyCosmwasmExecuteMsg sample_msg None.
Definition sample_report : AuthorizationExecuteMsg :=
  InternalAuthorizationAction (ProcessorCallback 0 Success).
Ltac by_ids :=
  intros n Hn; vm_compute in Hn; injection Hn as <-; apply N.ltb_lt; vm_compute; reflexivity.
Lemma executions_accounted_witness :
  (∃ r, sample_init empty_storage = Ok (r, sample_s0)) ∧
  accounted (after (execute sample_q (sample_env 5) (mkInfo "processor" []) sample_report)
               sample_main3) ∧
  current sample_main3 "swap" = 1%N ∧
  current (after (execute sample_q (sample_env 5) (mkInfo "processor" []) sample_report)
               sample_main3) "swap" = 0%N.
Proof.
  split; [exact sample_init_ok|]. split; [|split; vm_compute; reflexivity].
  destruct sample_init_ok as [r Hr].
  refine (executions_accounted (sample_env 1) sample_owner
    (mkAuthInstantiateMsg "owner" ["sub"] "processor") r sample_s0 _ Hr _).
  assert (∀ q env info msg s, honest q s msg → (∀ n, s_execution_id s = Some n → n < u64_max)%N →
    succeeds (execute q env info msg) s = true →
    honest_step s (after (execute q env info msg) s)) as Hstep.
  { intros q env info msg s Hh Hid [r' Hr']%after_ok. by econstructor. }
  eapply rtc_l; [eapply (Hstep sample_q (sample_env 2) sample_owner
    (PermissionedAction (AddExternalDomains [sample_polytone_domain; sample_evm_domain])));
    [exact I| |vm_compute; reflexivity]|].
  { by_ids. }
  eapply rtc_l; [eapply (Hstep sample_q (sample_env 3) sample_owner
    (PermissionedAction (CreateAuthorizations [sample_swap DomainMain TyCosmwasmExecuteMsg])));
    [exact I| |vm_compute; reflexivity]|].
  { by_ids. }
  eapply rtc_l; [eapply (Hstep sample_q (sample_env 4) sample_user (sample_send sample_msg None));
    [exact I| |vm_compute; reflexivity]|].
  { by_ids. }
  apply rtc_once. eapply (Hstep sample_q (sample_env 5) (mkInfo "processor" []) sample_report); [| |vm_compute; reflexivity].
  - split; [done|]. intros cb Hcb. vm_compute in Hcb. injection Hcb as <-. reflexivity.
  - by_ids.
Defined.

(** ** Sending messages *)
(** Who may execute an authorization with a label and a mode. *)
Definition permitted `{Platform} (q : Querier) (contract l : string) (m : AuthorizationMode)
    (info : MessageInfo) : Prop :=
  let denom := build_tokenfactory_denom contract l in
  match m with
  | Permissionless => True
  | Permissioned (WithoutCallLimit _) =>
      ∃ n, query_balance q (info_sender info) denom = Ok n ∧ (0 < n)%N
  | Permissioned (WithCallLimit _) => must_pay info denom = Ok 1%N
  end.
(** An authorization is enabled, has started and has not expired. *)
Definition active `{Platform} (a : Authorization) (block : BlockInfo) : Prop :=
  state a = Enabled ∧ (not_before a = Never ∨ is_expired (not_before a) block = true) ∧
  is_expired (expiration a) block = false.

Section Sending.
Context `{CPl : Platform} `{CSj : SerdeJson}.

Lemma validate_permission_exact l m q contract info s :
  validate_permission l m q contract info s = Ok ((), s) ↔ permitted q contract l m info.
Proof.
  unfold validate_permission, permitted. destruct m as [[ps|ps]|]; simpl; [| |done].
  - unfold mbind, Exec_bind, map_err, of_result, fail_if.
    destruct (must_pay _ _) as [n|e|]; simpl; [|naive_solver..].
    destruct (n =? 1)%N eqn:Hn; simpl; [apply N.eqb_eq in Hn; naive_solver|].
    apply N.eqb_neq in Hn. naive_solver.
  - unfold mbind, Exec_bind, of_result, fail_if.
    destruct (query_balance _ _ _) as [n|e|]; simpl; [|naive_solver..].
    destruct (n =? 0)%N eqn:Hn; [apply N.eqb_eq in Hn|apply N.eqb_neq in Hn]; split; try done.
    + intros (? & [= <-] & ?). lia.
    + intros _. exists n. split; [done|lia].
Qed.
Lemma validate_messages_exact_lemma a ms s :
  validate_messages a ms s = Ok ((), s) ↔
  Forall2 (λ m f, conforms m (fn_message_details f)) ms (sub_functions (subroutine a)).
Proof.
  unfold validate_messages, sub_functions.
  destruct (subroutine a); by rewrite validate_messages_generic_exact, Forall2_fmap_r.
Qed.
Lemma validate_executable_ok q a block contract info ms s :
  validate_executable q a block contract info ms s = Ok ((), s) →
  active a block ∧ permitted q contract (label a) (mode a) info ∧
  Forall2 (λ m f, conforms m (fn_message_details f)) ms (sub_functions (subroutine a)).
Proof.
  unfold validate_executable, ensure_enabled, ensure_not_expired.
  intros (? & ? & [H1 <-]%fail_if_ok & (? & s1 & H2 & (? & ? & [H3 <-]%fail_if_ok &
    ([] & s2 & H4 & H5)%Exec_bind_ok)%Exec_bind_ok)%Exec_bind_ok)%Exec_bind_ok.
  apply bool_decide_neq_false in H1.
  assert (s1 = s ∧ (not_before a = Never ∨ is_expired (not_before a) block = true)) as [-> Hnb].
  { unfold ensure_active in H2. destruct (not_before a); run_inv; eauto;
      (split; [done|]; right; by apply negb_false_iff). }
  assert (s2 = s) as -> by exact (read_only _ _ _ H4).
  apply validate_permission_exact in H4. apply validate_messages_exact_lemma in H5. done.
Qed.
End Sending.

(** C10 What a user's messages went through before they are sent: the authorization
    exists, is enabled, active and not expired; the sender holds or pays the token
    its mode asks for; the messages fit its functions one by one; and it has fewer
    executions in process than its limit, also after this one.  The execution gets
    a fresh id, is recorded as in process for the sender, and exactly one message
    leaves, which carries the batch to the processor of the authorization's
    domain. *)
Theorem send_msgs_guarded
    `{Platform} `{SerdeJson} `{CwOwnable} `{TokenFactoryProto}
    `{JsonCodec ProcessorExecuteMsg} `{JsonCodec PolytoneExecuteMsg}
    `{JsonCodec HyperlaneExecuteMsg} `{JsonCodec AuthPolytoneCallbackMsg}
    (q : Querier) (env : Env) (info : MessageInfo) (l : string) (ttl : option Expiration)
    (ms : list ProcessorMessage) (s s' : storage) (r : Response) :
  accounted s → send_msgs q env info l ttl ms s = Ok (r, s') →
  ∃ a domain id msg cb,
    s_authorizations s !! l = Some a ∧ active a (env_block env) ∧
    permitted q (env_contract env) (label a) (mode a) info ∧
    Forall2 (λ m f, conforms m (fn_message_details f)) ms (sub_functions (subroutine a)) ∧
    (in_process (s_processor_callbacks s') l = in_process (s_processor_callbacks s) l + 1)%N ∧
    (in_process (s_processor_callbacks s') l ≤ max_concurrent_executions a)%N ∧
    authorization_domain a = Some domain ∧
    s_execution_id s = Some id ∧ s_processor_callbacks s !! id = None ∧
    s_processor_callbacks s' = <[id := cb]> (s_processor_callbacks s) ∧
    cb_label cb = l ∧ cb_initiator cb = InitUser (info_sender info) ∧
    cb_execution_result cb = InProcess ∧ cb_domain cb = domain ∧ cb_messages cb = ms ∧
    domain_callbacks s domain = Some (cb_processor_callback_address cb, cb_bridge_callback_address cb) ∧
    resp_messages r = [SubMsg_new msg] ∧
    dispatched q env s domain id
      (EnqueueMsgs id ms (subroutine a) (priority a) (batch_expiration env (subroutine a)))
      (em ← convert_into_encoder_messages ms a;
       mret (EncodeSendMsgs id (priority a) (subroutine a) (batch_expiration env (subroutine a)) em))
      msg.
Proof.
  intros Hacc Hrun. apply send_msgs_ok in Hrun as
    (a & domain & addrs & id & msg & Ha & Hv & Hmax & _ & Hdom & Hid & Hcb & Hd & -> & ->).
  apply validate_executable_ok in Hv as (? & ? & ?).
  assert (s_processor_callbacks s !! id = None) as Hfresh.
  { destruct (s_processor_callbacks s !! id) eqn:Hc; [|done].
    destruct (ac_next _ Hacc) as (n & ? & Hn). apply Hn in Hc. simplify_eq. lia. }
  set (cb := new_callback _ _ _ _ _ _ _ _).
  pose proof (in_process_insert (s_processor_callbacks s) id cb l) as Hin.
  rewrite Hfresh in Hin. unfold cb in Hin. rewrite weight_new in Hin. fold cb in Hin. simpl in Hin.
  exists a, domain, id, msg, cb. rewrite (ac_current _ Hacc) in Hmax.
  split_and!; try done; try (simpl; lia). by destruct addrs.
Qed.

Lemma sample_main2_accounted : accounted (sample_s2 DomainMain TyCosmwasmExecuteMsg).
Proof.
  set (s := sample_s2 DomainMain TyCosmwasmExecuteMsg).
  assert (s_current_executions s = ∅) as H1 by (vm_compute; reflexivity).
  assert (s_processor_callbacks s = ∅) as H2 by (vm_compute; reflexivity).
  assert (s_execution_id s = Some 0%N) as H3 by (vm_compute; reflexivity).
  split; unfold current.
  - intros l. unfold in_process. by rewrite H1, H2, lookup_empty, map_filter_empty.
  - exists 0%N. split; [done|]. by rewrite H2.
Qed.
Lemma send_msgs_guarded_witness :
  ∃ r a domain id msg cb,
    send_msgs sample_q (sample_env 4) sample_user "swap" None [sample_msg]
      (sample_s2 DomainMain TyCosmwasmExecuteMsg) = Ok (r, sample_main3) ∧
    s_authorizations (sample_s2 DomainMain TyCosmwasmExecuteMsg) !! "swap" = Some a ∧
    active a (env_block (sample_env 4)) ∧
    permitted sample_q "contract" (label a) (mode a) sample_user ∧
    (in_process (s_processor_callbacks sample_main3) "swap" ≤ max_concurrent_executions a)%N ∧
    s_processor_callbacks sample_main3 =
      <[id := cb]> (s_processor_callbacks (sample_s2 DomainMain TyCosmwasmExecuteMsg)) ∧
    cb_initiator cb = InitUser "user" ∧ resp_messages r = [SubMsg_new msg] ∧
    cb_domain cb = domain.
Proof.
  destruct (after_ok (send_msgs sample_q (sample_env 4) sample_user "swap" None [sample_msg])
    (sample_s2 DomainMain TyCosmwasmExecuteMsg)) as [r Hr]; [vm_compute; reflexivity|].
  pose proof (send_msgs_guarded sample_q (sample_env 4) sample_user "swap" None [sample_msg]
    (sample_s2 DomainMain TyCosmwasmExecuteMsg) _ r sample_main2_accounted Hr) as
    (a & domain & id & msg & cb & Ha & Hact & Hp & _ & _ & Hle & _ & _ & _ & Hs & _ & Hi & _ & Hd & _
     & _ & Hm & _).
  exists r, a, domain, id, msg, cb. split_and!; [exact Hr|done|exact Hact|exact Hp|exact Hle|exact Hs|done..].
Defined.

(** C38 Message validation is exact: it accepts a list of messages if and only if
    there is one message per function and each fits its function, that is, it has
    the type of the function and, for JSON messages, the function's name as its
    only top-level key and parameters that satisfy every restriction; raw calls
    must be the prescribed bytes. *)
Theorem validate_messages_exact `{SerdeJson} (a : Authorization) (ms : list ProcessorMessage)
    (s : storage) :
  validate_messages a ms s = Ok ((), s) ↔
  Forall2 (λ m f, conforms m (fn_message_details f)) ms (sub_functions (subroutine a)).
Proof. apply validate_messages_exact_lemma. Qed.
