(* ===== verification/AuthorizationSettlement.v ===== *)
(** * Authorization: results, tokens, retries and proofs

    What happens when the result of an execution comes back, when a message timed
    out on its way, and when a ZK proof is presented. *)
From Stdlib Require Import Strings.Byte.
From S2P Require Import Prelude Platform Types AuthorizationUtils Authorization AuthorizationFacts AuthorizationInvariants AuthorizationTheorems.
From S2P Require Import Codec Samples.
Import Authorization.

Section Settlement.
Context `{CPl : Platform} `{CSj : SerdeJson} `{COw : CwOwnable} `{CTf : TokenFactoryProto}.
Context `{CPe : JsonCodec ProcessorExecuteMsg} `{CPo : JsonCodec PolytoneExecuteMsg}.
Context `{CHy : JsonCodec HyperlaneExecuteMsg} `{CPc : JsonCodec AuthPolytoneCallbackMsg}.
Context `{CZk : JsonCodec ZkMessage} `{CIa : JsonCodec InternalAuthorizationMsg}.
Implicit Types s : storage.

Lemma get_authorization_mode_run l s m :
  mode_of s l = Some m → get_authorization_mode l s = Ok (m, s).
Proof.
  unfold mode_of, get_authorization_mode, mbind, Exec_bind, map_may_load, load_zk_authorization,
    map_err, map_load. cbn [lget AUTHORIZATIONS ZK_AUTHORIZATIONS].
  destruct (s_authorizations s !! l); [by intros [= <-]|].
  by destruct (s_zk_authorizations s !! l); simpl; intros [= <-].
Qed.
Lemma reduce_current_executions_run l s :
  (0 < current s l)%N →
  reduce_current_executions l s =
    Ok ((), lset CURRENT_EXECUTIONS (<[l := (current s l - 1)%N]> (s_current_executions s)) s).
Proof.
  intros Hpos. unfold reduce_current_executions, map_update, mbind, Exec_bind, map_may_load, of_result,
    decrement, map_save. cbn [lget CURRENT_EXECUTIONS]. fold (current s l).
  destruct (current s l =? 0)%N eqn:Hz; [apply N.eqb_eq in Hz; lia|done].
Qed.

Context `{!TokenFactoryProtoLaws}.
Lemma process_processor_callback_run env info id res s cb m :
  s_processor_callbacks s !! id = Some cb →
  info_sender info = cb_processor_callback_address cb →
  (0 < current s (cb_label cb))%N → mode_of s (cb_label cb) = Some m →
  ∃ msgs, settlement env cb m res msgs ∧
    process_processor_callback env info id res s =
      Ok (mkResponse (SubMsg_new <$> msgs)
            [("action", "process_processor_callback"); ("execution_id", pretty id)],
          settle id (set_result res (now_seconds env) cb) s).
Proof.
  intros Hcb Hsend Hpos Hm. unfold process_processor_callback, mbind, Exec_bind, map_load, fail_if.
  cbn [lget PROCESSOR_CALLBACKS]. rewrite Hcb, (bool_decide_neq _ _ Hsend).
  unfold map_save. cbn [lget PROCESSOR_CALLBACKS cb_label set_result lset].
  set (s1 := mkStorage _ _ _ _ _ _ _ _ _ _ _ _ _).
  rewrite (reduce_current_executions_run (cb_label cb) s1) by done.
  rewrite (get_authorization_mode_run (cb_label cb) _ m) by done.
  unfold settlement, paid_by. cbn [cb_initiator set_result cb_execution_result].
  destruct (cb_initiator cb) as [|addr]; [by exists []|].
  destruct m as [[ps|ps]|]; [|by exists []..].
  unfold settle_token. destruct (consumes_token res) eqn:Hres.
  - destruct (MsgBurn_total (mkMsgBurn (env_contract env)
      (Some (mkProtoCoin (build_tokenfactory_denom (env_contract env) (cb_label cb)) (pretty 1%N))) ""))
      as [b Hb].
    eexists. split; [eexists; split; [unfold burn_msg; by rewrite Hb|done]|].
    destruct res; try done; unfold mbind, Exec_bind, expect, burn_msg; rewrite Hb; done.
  - eexists. split; [done|]. by destruct res.
Qed.
End Settlement.

(** The report of the processor settles the execution and the token that was
    paid for it.  A report from the recorded processor (or proxy) for an execution
    is accepted; it stores the result and releases one slot of the label.  If a user
    paid with a call-limit token, the token is burned when the execution had an
    effect (success, partial execution, eviction by the owner) and sent back to that
    user otherwise; in every other case no message leaves. *)
Theorem processor_callback_settles
    `{Platform} `{SerdeJson} `{CwOwnable} `{TokenFactoryProto}
    `{!TokenFactoryProtoLaws}
    (env : Env) (info : MessageInfo) (id : N) (res : ExecutionResult) (s : storage)
    (cb : ProcessorCallbackInfo) (m : AuthorizationMode) :
  s_processor_callbacks s !! id = Some cb →
  info_sender info = cb_processor_callback_address cb →
  (0 < current s (cb_label cb))%N → mode_of s (cb_label cb) = Some m →
  ∃ msgs, settlement env cb m res msgs ∧
    process_processor_callback env info id res s =
      Ok (mkResponse (SubMsg_new <$> msgs)
            [("action", "process_processor_callback"); ("execution_id", pretty id)],
          settle id (set_result res (now_seconds env) cb) s).
Proof. by apply process_processor_callback_run. Qed.

(** The rejected message of a user gives the token back. *)
Lemma processor_callback_settles_witness :
  ∃ cb m, s_processor_callbacks sample_main3 !! 0%N = Some cb ∧
    mode_of sample_main3 (cb_label cb) = Some m ∧ paid_by (cb_initiator cb) m = Some "user" ∧
    ∃ msgs, settlement (sample_env 5) cb m (Rejected "no") msgs ∧
      process_processor_callback (sample_env 5) (mkInfo "processor" []) 0 (Rejected "no")
        sample_main3 =
        Ok (mkResponse (SubMsg_new <$> msgs)
              [("action", "process_processor_callback"); ("execution_id", pretty 0%N)],
            settle 0 (set_result (Rejected "no") (now_seconds (sample_env 5)) cb) sample_main3).
Proof.
  eexists _, _. split; [vm_compute; reflexivity|]. split; [vm_compute; reflexivity|].
  split; [reflexivity|].
  eapply (processor_callback_settles (sample_env 5) (mkInfo "processor" []) 0 (Rejected "no")
    sample_main3); vm_compute; reflexivity.
Defined.

(** The report of an EVM processor closes the execution but never settles the
    token: a Hyperlane callback that is accepted comes from the mailbox and the
    processor of a registered EVM domain, stores the decoded result and releases one
    slot of the label, and sends no message at all, also when a user paid for the
    execution with a call-limit token, which stays in the contract. *)
Theorem hyperlane_callback_keeps_token
    `{Platform} `{SerdeJson} `{JsonCodec InternalAuthorizationMsg}
    (q : Querier) (env : Env) (info : MessageInfo) (hm : HandleMsg) (s s' : storage)
    (r : Response) :
  process_hyperlane_callback q env info hm s = Ok (r, s') →
  ∃ name d e c b id res cb,
    s_external_domains s !! name = Some d ∧
    execution_environment d = EnvEvm e (Hyperlane_ c) ∧
    mailbox c = info_sender info ∧ domain_id c = hm_origin hm ∧
    format_address_for_hyperlane (ed_processor d) = Ok (hm_sender hm) ∧
    query_decode q (broker_address e) (encoder_version e) (HyperlaneCallback (hm_body hm)) = Ok b ∧
    from_json b = Ok (ProcessorCallback id res) ∧
    s_processor_callbacks s !! id = Some cb ∧
    s' = settle id (set_result res (now_seconds env) cb) s ∧
    resp_messages r = [].
Proof.
  intros (e & b & id & res & cb & Hf & Hq & Hj & Hcb & _ & -> & ->)%process_hyperlane_callback_ok.
  unfold find_hyperlane_encoder in Hf. apply head_Some_elem_of, list_elem_of_omap in Hf as
    ([name d] & Hd & He). apply elem_of_map_range in Hd. simpl in He.
  unfold hyperlane_encoder in He. destruct (execution_environment d) as [|e' [c]] eqn:Henv; [done|].
  destruct (bool_decide (mailbox c ≠ info_sender info)) eqn:Hm; [done|].
  destruct (domain_id c =? hm_origin hm)%N eqn:Ho; [|done]. simpl in He.
  destruct (format_address_for_hyperlane (ed_processor d)) as [fa| |] eqn:Hfa; [|done..].
  case_bool_decide; simplify_eq.
  exists name, d, e, c, b, id, res, cb. apply bool_decide_neq_false in Hm. apply N.eqb_eq in Ho.
  by split_and!.
Qed.

(** A user's message to an EVM domain succeeds: nothing burns the token. *)
Definition sample_evm3 : storage :=
  sample_s3 (DomainExternal "ethereum") TyEvmRawCall (EvmRawCall []) None.
Definition sample_handle : HandleMsg :=
  mkHandleMsg 1 (replicate 31 x00 ++ [xab]) [x05].
Lemma hyperlane_callback_keeps_token_witness :
  ∃ r s', process_hyperlane_callback sample_q (sample_env 5) (mkInfo "mailbox" []) sample_handle
            sample_evm3 = Ok (r, s') ∧
    resp_messages r = [] ∧
    ∃ cb, s_processor_callbacks sample_evm3 !! 0%N = Some cb ∧
          cb_initiator cb = InitUser "user" ∧
          paid_by (cb_initiator cb) (Permissioned (WithCallLimit [("user", 3%N)])) = Some "user" ∧
          mode_of sample_evm3 (cb_label cb) = Some (Permissioned (WithCallLimit [("user", 3%N)])).
Proof.
  destruct (after_ok (process_hyperlane_callback sample_q (sample_env 5) (mkInfo "mailbox" [])
    sample_handle) sample_evm3) as [r Hr]; [vm_compute; reflexivity|].
  eexists r, _. split; [exact Hr|].
  destruct (hyperlane_callback_keeps_token sample_q (sample_env 5) (mkInfo "mailbox" [])
    sample_handle sample_evm3 _ r Hr) as (name & d & e & c & b & id & res & cb & _ & _ & _ & _ & _ & _ & _
    & _ & _ & Hm).
  split; [exact Hm|]. eexists. split_and!; vm_compute; reflexivity.
Defined.

(** A Hyperlane report is not tied to a domain: the execution it names may belong to
    the main domain or to any other one.  When it was the only execution of its label,
    the report of the processor that really has the batch is refused afterwards. *)
Theorem hyperlane_report_any_domain
    `{Platform} `{SerdeJson} `{CwOwnable} `{TokenFactoryProto}
    `{JsonCodec InternalAuthorizationMsg}
    (q : Querier) (env env' : Env) (info info' : MessageInfo) (hm : HandleMsg) (s : storage)
    (e : Encoder) (b : Binary) (id : N) (res res' : ExecutionResult) (cb : ProcessorCallbackInfo) :
  find_hyperlane_encoder info hm s = Some e →
  query_decode q (broker_address e) (encoder_version e) (HyperlaneCallback (hm_body hm)) = Ok b →
  from_json b = Ok (ProcessorCallback id res) →
  s_processor_callbacks s !! id = Some cb →
  current s (cb_label cb) = 1%N →
  info_sender info' = cb_processor_callback_address cb →
  ∃ r s', process_hyperlane_callback q env info hm s = Ok (r, s') ∧
    process_processor_callback env' info' id res' s' = Err CurrentExecutionsIsZero.
Proof.
  intros He Hq Hj Hcb Hone Hsend. unfold process_hyperlane_callback, mbind, Exec_bind, get_storage,
    ok_or, of_result, map_load, map_save. rewrite He. cbn. rewrite Hq, Hj. cbn [lget PROCESSOR_CALLBACKS].
  rewrite Hcb. cbn [lset PROCESSOR_CALLBACKS].
  rewrite reduce_current_executions_run by (unfold current in *; simpl; lia).
  eexists _, _. split; [done|].
  unfold process_processor_callback, mbind, Exec_bind, map_load, fail_if. cbn.
  rewrite lookup_insert_eq. cbn. rewrite (bool_decide_neq _ _ Hsend).
  unfold reduce_current_executions, map_update, mbind, Exec_bind, map_may_load, of_result,
    decrement, map_save. cbn. rewrite lookup_insert_eq. cbn.
  unfold current in *; simpl in *. rewrite Hone. done.
Qed.

(** The EVM processor closes the execution of the main domain. *)
Lemma hyperlane_report_any_domain_witness :
  ∃ cb, s_processor_callbacks sample_main3 !! 0%N = Some cb ∧ cb_domain cb = DomainMain ∧
    ∃ r s', process_hyperlane_callback sample_q (sample_env 5) (mkInfo "mailbox" []) sample_handle
              sample_main3 = Ok (r, s') ∧
      process_processor_callback (sample_env 6) (mkInfo "processor" []) 0 (Rejected "no") s' =
        Err CurrentExecutionsIsZero.
Proof.
  eexists. split; [vm_compute; reflexivity|]. split; [reflexivity|].
  eapply hyperlane_report_any_domain; vm_compute; reflexivity.
Defined.

(** ** Messages that got lost on their way *)

(** C39 What a polytone callback does to an execution.  It is accepted only from the
    connector recorded for the execution.  A delivery, and an error about an
    execution that already has a result, change nothing.  An error or a fatal error
    closes the execution and releases its slot; a timeout is retriable while the
    time to live of the messages has not expired, and otherwise final, in which case
    the token of a user who paid is sent back.  Any other error keeps the token. *)
Theorem polytone_callback_settles
    `{Platform} `{SerdeJson} `{CwOwnable} `{TokenFactoryProto}
    (env : Env) (info : MessageInfo) (id : N) (result : Callback) (s s' : storage)
    (msgs : list CosmosMsg) :
  polytone_execution_callback env info id result s = Ok (msgs, s') →
  ∃ cb, s_processor_callbacks s !! id = Some cb ∧
    cb_bridge_callback_address cb = Some (info_sender info) ∧
    ((s' = s ∧ msgs = [] ∧
      (result = CallbackExecute (inl ()) ∨
       ∃ error, result = CallbackExecute (inr error) ∧ cb_execution_result cb ≠ InProcess)) ∨
     ∃ res, (0 < current s (cb_label cb))%N ∧
       s' = settle id (set_result res (now_seconds env) cb) s ∧
       ((result = CallbackExecute (inr "timeout") ∧ cb_execution_result cb = InProcess ∧
         res = Timeout (negb (ttl_expired env cb)) ∧
         ∃ m, (ttl_expired env cb = true → mode_of s (cb_label cb) = Some m) ∧
         (if ttl_expired env cb then settlement env cb m res msgs else msgs = [])) ∨
        (∃ error, result = CallbackExecute (inr error) ∧ error ≠ "timeout" ∧
           cb_execution_result cb = InProcess ∧ res = UnexpectedError error ∧ msgs = []) ∨
        (∃ error, result = CallbackFatalError error ∧ res = UnexpectedError error ∧ msgs = []))).
Proof. apply polytone_execution_callback_ok. Qed.

(** A user's messages to a CosmWasm domain time out before their time to live. *)
Definition sample_juno3 (ttl : option Expiration) : storage :=
  sample_s3 (DomainExternal "juno") TyCosmwasmExecuteMsg sample_msg ttl.
Definition sample_lost (ttl : option Expiration) : storage :=
  after (polytone_execution_callback (sample_env 5) (mkInfo "note" []) 0
    (CallbackExecute (inr "timeout"))) (sample_juno3 ttl).
Lemma polytone_callback_settles_witness :
  ∃ cb msgs, polytone_execution_callback (sample_env 5) (mkInfo "note" []) 0
      (CallbackExecute (inr "timeout")) (sample_juno3 (Some (AtHeight 9))) =
      Ok (msgs, sample_lost (Some (AtHeight 9))) ∧
    s_processor_callbacks (sample_juno3 (Some (AtHeight 9))) !! 0%N = Some cb ∧
    cb_bridge_callback_address cb = Some "note" ∧
    cb_execution_result <$> (s_processor_callbacks (sample_lost (Some (AtHeight 9))) !! 0%N) =
      Some (Timeout true).
Proof.
  destruct (after_ok (polytone_execution_callback (sample_env 5) (mkInfo "note" []) 0
    (CallbackExecute (inr "timeout"))) (sample_juno3 (Some (AtHeight 9)))) as [msgs Hr];
    [vm_compute; reflexivity|].
  destruct (polytone_callback_settles (sample_env 5) (mkInfo "note" []) 0
    (CallbackExecute (inr "timeout")) (sample_juno3 (Some (AtHeight 9))) _ msgs Hr)
    as (cb & Hcb & Hb & _).
  exists cb, msgs. split; [exact Hr|]. split; [exact Hcb|]. split; [exact Hb|].
  vm_compute. reflexivity.
Defined.

(** Retrying messages.  Only an execution whose messages timed out while they
    could still be retried is accepted.  Before its time to live expires the batch is
    sent again under the same id, if the label has a free slot, and is in process
    again; afterwards the token of a user who paid is sent back, once.  Either way
    a second retry fails, until the bridge reports another timeout; when there is
    neither a batch to send nor a token to return, nothing changes. *)
Theorem retry_or_refund_once
    `{Platform} `{SerdeJson} `{CwOwnable} `{TokenFactoryProto}
    `{JsonCodec ProcessorExecuteMsg} `{JsonCodec PolytoneExecuteMsg}
    `{JsonCodec HyperlaneExecuteMsg} `{JsonCodec AuthPolytoneCallbackMsg}
    (env : Env) (id : N) (s s' : storage) (r : Response) :
  retry_msgs env id s = Ok (r, s') →
  ∃ cb a, s_processor_callbacks s !! id = Some cb ∧ cb_execution_result cb = Timeout true ∧
    s_authorizations s !! cb_label cb = Some a ∧
    if ttl_expired env cb then
      match paid_by (cb_initiator cb) (mode a) with
      | Some addr =>
          s_processor_callbacks s' =
            <[id := set_result (Timeout false) (now_seconds env) cb]> (s_processor_callbacks s) ∧
          s_current_executions s' = s_current_executions s ∧
          resp_messages r = [SubMsg_new (refund_msg env (cb_label cb) addr)] ∧
          ∀ env', retry_msgs env' id s' = Err (MessageE NotRetriable)
      | None => s' = s ∧ resp_messages r = []
      end
    else
      (current s (cb_label cb) < max_concurrent_executions a)%N ∧
      s' = resume id (set_result InProcess (now_seconds env) cb) s ∧
      (∃ msg, resp_messages r = [SubMsg_new msg]) ∧
      ∀ env', retry_msgs env' id s' = Err (MessageE NotRetriable).
Proof.
  intros (cb & Hcb & Hres & a & Ha & Hs)%retry_msgs_ok. exists cb, a. split_and!; [done..|].
  assert (∀ env' s1 cb1, s_processor_callbacks s1 = <[id := cb1]> (s_processor_callbacks s) →
    cb_execution_result cb1 ≠ Timeout true → retry_msgs env' id s1 = Err (MessageE NotRetriable)) as Hno.
  { intros env' s1 cb1 Hs1 Hr1. unfold retry_msgs, mbind, Exec_bind, map_err, map_load, fail_if.
    cbn [lget PROCESSOR_CALLBACKS]. rewrite Hs1, lookup_insert_eq. by rewrite bool_decide_eq_true_2. }
  destruct (ttl_expired env cb); [destruct (paid_by _ _)|].
  - destruct Hs as [-> Hm]. split_and!; [done|done|done|]. intros env'. by eapply Hno.
  - done.
  - destruct Hs as (? & _ & -> & ?). split_and!; [done|done|done|]. intros env'. by eapply Hno.
Qed.

Lemma retry_or_refund_once_witness :
  ∃ r cb a, retry_msgs (sample_env 12) 0 (sample_lost (Some (AtHeight 9))) =
      Ok (r, after (retry_msgs (sample_env 12) 0) (sample_lost (Some (AtHeight 9)))) ∧
    s_processor_callbacks (sample_lost (Some (AtHeight 9))) !! 0%N = Some cb ∧
    s_authorizations (sample_lost (Some (AtHeight 9))) !! cb_label cb = Some a ∧
    ttl_expired (sample_env 12) cb = true ∧ paid_by (cb_initiator cb) (mode a) = Some "user" ∧
    resp_messages r = [SubMsg_new (refund_msg (sample_env 12) (cb_label cb) "user")] ∧
    ∀ env', retry_msgs env' 0 (after (retry_msgs (sample_env 12) 0) (sample_lost (Some (AtHeight 9))))
              = Err (MessageE NotRetriable).
Proof.
  destruct (after_ok (retry_msgs (sample_env 12) 0) (sample_lost (Some (AtHeight 9)))) as [r Hr];
    [vm_compute; reflexivity|].
  destruct (retry_or_refund_once (sample_env 12) 0 (sample_lost (Some (AtHeight 9))) _ r Hr)
    as (cb & a & Hcb & _ & Ha & Hs).
  assert (ttl_expired (sample_env 12) cb = true) as He.
  { vm_compute in Hcb. injection Hcb as <-. vm_compute. reflexivity. }
  assert (paid_by (cb_initiator cb) (mode a) = Some "user") as Hp.
  { vm_compute in Hcb. injection Hcb as <-. vm_compute in Ha. injection Ha as <-. reflexivity. }
  rewrite He, Hp in Hs. destruct Hs as (_ & _ & Hm & Hno).
  exists r, cb, a. split_and!; [exact Hr|done..].
Defined.
