(* ===== verification/AuthorizationAccess.v ===== *)
(** * Authorization: proofs and access control

    What a ZK proof must satisfy to be executed, that it cannot be replayed, and
    who may perform the privileged actions. *)
From Stdlib Require Import Strings.Byte.
From S2P Require Import Prelude Platform Types AuthorizationUtils Authorization AuthorizationFacts AuthorizationInvariants AuthorizationTheorems.
From S2P Require Import Codec Samples.
Import Authorization.

Section Blocks.
Context `{CPl : Platform} `{CSj : SerdeJson} `{COw : CwOwnable} `{CTf : TokenFactoryProto}.
Context `{CPe : JsonCodec ProcessorExecuteMsg} `{CPo : JsonCodec PolytoneExecuteMsg}.
Context `{CHy : JsonCodec HyperlaneExecuteMsg} `{CPc : JsonCodec AuthPolytoneCallbackMsg}.
Context `{CZk : JsonCodec ZkMessage} `{CIa : JsonCodec InternalAuthorizationMsg}.
Implicit Types s : storage.
Abbreviation blocks := s_registry_last_block_execution.

Lemma fold_each_blocks {A B} (l : list A) (acc : B)
    (body : B → A → Exec storage ContractError B) s r s' :
  (∀ acc x s r s', body acc x s = Ok (r, s') → blocks s' = blocks s) →
  fold_each l acc body s = Ok (r, s') → blocks s' = blocks s.
Proof.
  intros Hb Hf. eapply (fold_each_invariant (λ s2, blocks s2 = blocks s)); [|done|exact Hf].
  intros acc' x s1 r1 s2 H1 H2%Hb. congruence.
Qed.
Lemma permissioned_blocks q env msg s r s' :
  execute_permissioned q env msg s = Ok (r, s') → blocks s' = blocks s.
Proof.
  intros Hrun. destruct msg; simpl in Hrun.
  1: unfold add_external_domains in Hrun.
  2: unfold create_authorizations in Hrun.
  3: unfold create_zk_authorizations in Hrun.
  1-3: auth_inv; eapply fold_each_blocks; [|done]; intros acc d s1 r1 s2 Hb; simpl in Hb;
    unfold add_external_domain, create_authorization, create_zk_authorization in Hb; by auth_case.
  all: try (apply insert_messages_ok in Hrun as
    (a & d & ad & id & m & _ & _ & _ & _ & _ & _ & _ & _ & ->); done).
  all: unfold modify_authorization, modify_zk_authorization, disable_authorization,
    enable_authorization, switch_authorization, set_verification_router,
    update_zk_authorization_route in *; by auth_case.
Qed.
Lemma record_block_le a n s registry :
  (zk_validate_last_block_execution a = true → last_block s (zk_registry a) < n)%N →
  (last_block s registry ≤ last_block (record_block a n s) registry)%N.
Proof.
  intros Hn. unfold record_block. case_match; [|lia]. specialize (Hn eq_refl).
  unfold last_block in *. cbn. destruct (decide (zk_registry a = registry)) as [<-|].
  - rewrite lookup_insert_eq. simpl. lia.
  - by rewrite lookup_insert_ne.
Qed.
(** The last block of a registry never goes back. *)
Lemma execute_blocks q env info msg s r s' registry :
  execute q env info msg s = Ok (r, s') → (last_block s registry ≤ last_block s' registry)%N.
Proof.
  intros Hrun. assert (blocks s' = blocks s → (last_block s registry ≤ last_block s' registry)%N) as He.
  { unfold last_block. by intros ->. }
  destruct msg as [act|om|pm|pm|[id res]|cm|hm]; simpl in Hrun.
  - apply He. unfold update_ownership in Hrun. by auth_case.
  - apply He. auth_inv. destruct om; unfold add_sub_owner, remove_sub_owner in *; by auth_inv.
  - apply He. auth_inv. by eapply permissioned_blocks.
  - destruct pm; simpl in Hrun.
    + apply He. by apply send_msgs_ok in Hrun as
        (a & d & ad & id & m & _ & _ & _ & _ & _ & _ & _ & _ & _ & ->).
    + apply He. apply retry_msgs_ok in Hrun as (cb & _ & _ & a & _ & Hs).
      destruct (ttl_expired env cb); [destruct (paid_by _ _)|];
        first [by destruct Hs as [-> _]|by destruct Hs as (_ & _ & -> & _)].
    + apply He. unfold retry_bridge_creation in Hrun. by auth_case.
    + apply execute_zk_authorization_ok in Hrun as
        (a & ? & zm & m & _ & _ & _ & _ & _ & _ & _ & _ & _ & _ & Hn & _ & Hs).
      etrans; [by eapply (record_block_le a)|]. cbv zeta in Hs.
      destruct (zk_batch_msgs (zm_message zm)); [|by rewrite Hs].
      by destruct Hs as (id & ad & _ & _ & _ & _ & ->).
  - apply He. by apply process_processor_callback_ok in Hrun as (cb & ? & ? & _ & _ & _ & -> & _).
  - apply He. unfold process_polytone_callback in Hrun. auth_inv. case_match.
    + match goal with H : polytone_execution_callback _ _ _ _ _ = _ |- _ =>
        by apply polytone_execution_callback_ok in H as
          (cb & _ & _ & [[-> _]|(res & _ & -> & _)]) end.
    + unfold polytone_proxy_callback in *. by auth_case.
  - apply He. by apply process_hyperlane_callback_ok in Hrun as
      (? & ? & ? & ? & cb & _ & _ & _ & _ & _ & -> & _).
Qed.
Lemma reachable_blocks s s' registry :
  rtc auth_step s s' → (last_block s registry ≤ last_block s' registry)%N.
Proof.
  induction 1 as [s|s1 s2 s3 [q env info msg s r s' Hrun] _ IH]; [done|].
  etrans; [by eapply execute_blocks|done].
Qed.
End Blocks.

(** What a ZK execution went through: the authorization is enabled and the sender
    permitted, the router accepted the proof for the authorization's route, key and
    the given inputs, the message in the inputs names the authorization's registry
    and, if any, this contract, and its domain runs CosmWasm.  A batch it carries is
    sent to the processor of that domain under a fresh execution id chosen by the
    contract, not by the message, and is recorded as in process for the sender. *)
Theorem zk_execution_checked
    `{Platform} `{SerdeJson} `{CwOwnable} `{TokenFactoryProto}
    `{JsonCodec ProcessorExecuteMsg} `{JsonCodec PolytoneExecuteMsg}
    `{JsonCodec HyperlaneExecuteMsg} `{JsonCodec AuthPolytoneCallbackMsg} `{JsonCodec ZkMessage}
    (q : Querier) (env : Env) (info : MessageInfo) (l : string)
    (inputs proof payload : list Byte.byte) (s s' : storage) (r : Response) :
  execute_zk_authorization q env info l inputs proof payload s = Ok (r, s') →
  ∃ a router zm msg,
    s_zk_authorizations s !! l = Some a ∧ zk_state a = Enabled ∧
    permitted q (env_contract env) (zk_label a) (zk_mode a) info ∧
    s_verification_router s = Some router ∧
    query_verify q router (zk_verification_route a) (zk_vk a) inputs proof payload = Ok true ∧
    from_json (drop 32 inputs) = Ok zm ∧ zm_registry zm = zk_registry a ∧
    (∀ c, zm_authorization_contract zm = Some c → c = env_contract env) ∧
    cosmwasm_domain s (zm_domain zm) ∧ resp_messages r = [SubMsg_new msg] ∧
    ∀ ms, zk_batch_msgs (zm_message zm) = Some ms →
      ∃ id cb, s_execution_id s = Some id ∧
        s_processor_callbacks s' = <[id := cb]> (s_processor_callbacks s) ∧
        cb_label cb = l ∧ cb_initiator cb = InitUser (info_sender info) ∧
        cb_messages cb = ms ∧ cb_execution_result cb = InProcess ∧
        dispatched q env s (zm_domain zm) id (assign_execution_id (zm_message zm) id)
          (Err NotFound) msg.
Proof.
  intros (a & router & zm & msg & Ha & Hst & Hro & Hp & Hv & _ & Hj & Hreg & Hc & Hd & _ & Hr & Hs)
    %execute_zk_authorization_ok.
  apply validate_permission_exact in Hp. exists a, router, zm, msg. split_and!; [done..|].
  intros ms Hms. cbv zeta in Hs. rewrite Hms in Hs.
  destruct Hs as (id & ad & Hid & _ & _ & Hdis & ->).
  pose proof (record_block_frame a (zm_block_number zm) s) as (_ & _ & _ & _ & Hp' & _).
  eexists id, _. split; [done|]. split; [simpl; rewrite Hp'; reflexivity|]. by split_and!.
Qed.

(** The sample: a proof that enqueues one message. *)
Definition sample_zk_message (n : N) : ZkMessage :=
  mkZkMessage 3 n DomainMain (Some "contract")
    (EnqueueMsgs 99 [sample_msg] (ai_subroutine (sample_swap DomainMain TyCosmwasmExecuteMsg))
       Medium None).
Definition sample_inputs (n : N) : list Byte.byte :=
  replicate 32 x00 ++ bits_of_positive (encode (sample_zk_message n)).
Definition sample_zk2 : storage :=
  after (execute sample_q (sample_env 3) sample_owner
    (PermissionedAction (SetVerificationRouter "router")))
    (after (execute sample_q (sample_env 3) sample_owner
       (PermissionedAction (CreateZkAuthorizations [sample_zk]))) sample_s1).
Definition sample_prove (n : N) : Exec storage ContractError Response :=
  execute_zk_authorization sample_q (sample_env 4) (mkInfo "prover" []) "proved" (sample_inputs n)
    [] [].
Lemma zk_execution_checked_witness :
  ∃ r a, sample_prove 10 sample_zk2 = Ok (r, after (sample_prove 10) sample_zk2) ∧
    s_zk_authorizations sample_zk2 !! "proved" = Some a ∧ zk_state a = Enabled ∧
    ∃ msg, resp_messages r = [SubMsg_new msg].
Proof.
  destruct (after_ok (sample_prove 10) sample_zk2) as [r Hr]; [vm_compute; reflexivity|].
  destruct (zk_execution_checked sample_q (sample_env 4) (mkInfo "prover" []) "proved"
    (sample_inputs 10) [] [] sample_zk2 _ r Hr)
    as (a & router & zm & msg & Ha & Hst & _ & _ & _ & _ & _ & _ & _ & Hm & _).
  exists r, a. split; [exact Hr|]. split; [exact Ha|]. split; [exact Hst|]. by exists msg.
Defined.

(** C37 A proof cannot be replayed.  After a ZK authorization that validates block
    numbers executed a message of some block, no later execution, by any
    authorization that validates block numbers of the same registry, accepts a
    message of that block or an earlier one, whatever happened in between. *)
Theorem zk_proof_not_replayable
    `{Platform} `{SerdeJson} `{CwOwnable} `{TokenFactoryProto}
    `{JsonCodec ProcessorExecuteMsg} `{JsonCodec PolytoneExecuteMsg}
    `{JsonCodec HyperlaneExecuteMsg} `{JsonCodec AuthPolytoneCallbackMsg}
    `{JsonCodec ZkMessage} `{JsonCodec InternalAuthorizationMsg}
    (q q' : Querier) (env env' : Env) (info info' : MessageInfo) (l l' : string)
    (inputs proof payload inputs' proof' payload' : list Byte.byte) (s s1 s2 s3 : storage)
    (r r' : Response) (a a' : ZkAuthorization) (zm zm' : ZkMessage) :
  execute_zk_authorization q env info l inputs proof payload s = Ok (r, s1) →
  rtc auth_step s1 s2 →
  execute_zk_authorization q' env' info' l' inputs' proof' payload' s2 = Ok (r', s3) →
  s_zk_authorizations s !! l = Some a → zk_validate_last_block_execution a = true →
  s_zk_authorizations s2 !! l' = Some a' → zk_validate_last_block_execution a' = true →
  zk_registry a = zk_registry a' →
  from_json (drop 32 inputs) = Ok zm → from_json (drop 32 inputs') = Ok zm' →
  (zm_block_number zm < zm_block_number zm')%N.
Proof.
  intros Hfst Hmid Hsnd Ha Hv Ha' Hv' Hreg Hj Hj'.
  apply execute_zk_authorization_ok in Hfst as
    (a0 & ? & zm0 & ? & Ha0 & _ & _ & _ & _ & _ & Hj0 & _ & _ & _ & _ & _ & Hs1).
  apply execute_zk_authorization_ok in Hsnd as
    (a0' & ? & zm0' & ? & Ha0' & _ & _ & _ & _ & _ & Hj0' & _ & _ & _ & Hlt & _ & _).
  simplify_eq. specialize (Hlt Hv').
  assert (last_block s1 (zk_registry a0') = zm_block_number zm0) as Hb.
  { cbv zeta in Hs1. assert (last_block (record_block a0 (zm_block_number zm0) s) (zk_registry a0')
      = zm_block_number zm0) as Hb.
    { unfold last_block, record_block. rewrite Hv. cbn. rewrite Hreg. by rewrite lookup_insert_eq. }
    destruct (zk_batch_msgs (zm_message zm0)); [|by rewrite Hs1].
    by destruct Hs1 as (id & ad & _ & _ & _ & _ & ->). }
  pose proof (reachable_blocks s1 s2 (zk_registry a0') Hmid).
  assert (zm0 = zm) as <- by congruence. assert (zm0' = zm') as <- by congruence. lia.
Qed.

Lemma zk_proof_not_replayable_witness :
  ∃ r r', sample_prove 10 sample_zk2 = Ok (r, after (sample_prove 10) sample_zk2) ∧
    sample_prove 11 (after (sample_prove 10) sample_zk2) = Ok (r', after (sample_prove 11)
      (after (sample_prove 10) sample_zk2)) ∧
    sample_prove 10 (after (sample_prove 10) sample_zk2) = Err (ZK ProofNoLongerValid) ∧
    (zm_block_number (sample_zk_message 10) < zm_block_number (sample_zk_message 11))%N.
Proof.
  destruct (after_ok (sample_prove 10) sample_zk2) as [r Hr]; [vm_compute; reflexivity|].
  destruct (after_ok (sample_prove 11) (after (sample_prove 10) sample_zk2)) as [r' Hr'];
    [vm_compute; reflexivity|].
  exists r, r'. split; [exact Hr|]. split; [exact Hr'|]. split; [vm_compute; reflexivity|].
  assert (∀ s1, s_zk_authorizations s1 = s_zk_authorizations sample_zk2 →
    ∃ a, s_zk_authorizations s1 !! "proved" = Some a ∧
      zk_validate_last_block_execution a = true ∧ zk_registry a = 3%N) as Hz.
  { intros s1 ->. eexists. split_and!; vm_compute; reflexivity. }
  destruct (Hz sample_zk2 eq_refl) as (a & Ha & Hv & Hreg).
  destruct (Hz (after (sample_prove 10) sample_zk2)) as (a' & Ha' & Hv' & Hreg');
    [vm_compute; reflexivity|].
  eapply (zk_proof_not_replayable sample_q sample_q (sample_env 4) (sample_env 4) (mkInfo "prover" [])
    (mkInfo "prover" []) "proved" "proved" (sample_inputs 10) [] [] (sample_inputs 11) [] []
    sample_zk2 (after (sample_prove 10) sample_zk2) (after (sample_prove 10) sample_zk2) _ r r' a a');
    [exact Hr|apply rtc_refl|exact Hr'|exact Ha|exact Hv|exact Ha'|exact Hv'|congruence
    |vm_compute; reflexivity|vm_compute; reflexivity].
Defined.

(** ** Who may do what *)
Definition owner_of (s : storage) (a : Addr) : Prop :=
  ∃ ow, s_ownership s = Some ow ∧ own_owner ow = Some a.
Definition sub_owner_of (s : storage) (a : Addr) : Prop := is_Some (s_sub_owners s !! a).
(** The role a message requires of its sender. *)
Definition role (env : Env) (info : MessageInfo) (s : storage) (msg : AuthorizationExecuteMsg)
    : Prop :=
  match msg with
  | UpdateOwnership _ | PermissionlessAction _ => True
  | OwnerAction _ => owner_of s (info_sender info)
  | PermissionedAction _ => owner_of s (info_sender info) ∨ sub_owner_of s (info_sender info)
  | InternalAuthorizationAction (ProcessorCallback id _) =>
      ∃ cb, s_processor_callbacks s !! id = Some cb ∧
            info_sender info = cb_processor_callback_address cb
  | AuthPolytoneCallback cm =>
      initiator cm = env_contract env ∧
      ((∃ id cb, s_processor_callbacks s !! id = Some cb ∧
                 cb_bridge_callback_address cb = Some (info_sender info)) ∨
       ∃ n d c, s_external_domains s !! n = Some d ∧
                execution_environment d = EnvCosmwasm (Polytone_ c) ∧
                info_sender info = note_address (polytone_note c))
  | AuthHyperlaneCallback hm =>
      ∃ n d e c, s_external_domains s !! n = Some d ∧
        execution_environment d = EnvEvm e (Hyperlane_ c) ∧ mailbox c = info_sender info
  end.
(** The owners. *)
Definition owners (s : storage) := (s_ownership s, s_sub_owners s, s_first_ownership s).

Section Access.
Context `{CPl : Platform} `{CSj : SerdeJson} `{COw : CwOwnable} `{CTf : TokenFactoryProto}.
Context `{CPe : JsonCodec ProcessorExecuteMsg} `{CPo : JsonCodec PolytoneExecuteMsg}.
Context `{CHy : JsonCodec HyperlaneExecuteMsg} `{CPc : JsonCodec AuthPolytoneCallbackMsg}.
Context `{CZk : JsonCodec ZkMessage} `{CIa : JsonCodec InternalAuthorizationMsg}.
Implicit Types s : storage.

Lemma fold_each_owners {A B} (l : list A) (acc : B)
    (body : B → A → Exec storage ContractError B) s r s' :
  (∀ acc x s r s', body acc x s = Ok (r, s') → owners s' = owners s) →
  fold_each l acc body s = Ok (r, s') → owners s' = owners s.
Proof.
  intros Hb Hf. eapply (fold_each_invariant (λ s2, owners s2 = owners s)); [|done|exact Hf].
  intros acc' x s1 r1 s2 H1 H2%Hb. congruence.
Qed.
Lemma permissioned_owners q env msg s r s' :
  execute_permissioned q env msg s = Ok (r, s') → owners s' = owners s.
Proof.
  intros Hrun. destruct msg; simpl in Hrun.
  1: unfold add_external_domains in Hrun.
  2: unfold create_authorizations in Hrun.
  3: unfold create_zk_authorizations in Hrun.
  1-3: auth_inv; eapply fold_each_owners; [|done]; intros acc d s1 r1 s2 Hb; simpl in Hb;
    unfold add_external_domain, create_authorization, create_zk_authorization in Hb; by auth_case.
  all: try (apply insert_messages_ok in Hrun as
    (a & d & ad & id & m & _ & _ & _ & _ & _ & _ & _ & _ & ->); done).
  all: unfold modify_authorization, modify_zk_authorization, disable_authorization,
    enable_authorization, switch_authorization, set_verification_router,
    update_zk_authorization_route in *; by auth_case.
Qed.
Lemma record_block_owners a n s : owners (record_block a n s) = owners s.
Proof. unfold record_block. by case_match. Qed.
Lemma execute_owners q env info msg s r s' :
  (∀ act, msg ≠ UpdateOwnership act) → (∀ om, msg ≠ OwnerAction om) →
  execute q env info msg s = Ok (r, s') → owners s' = owners s.
Proof.
  intros Hm1 Hm2 Hrun. destruct msg as [act|om|pm|pm|[id res]|cm|hm]; simpl in Hrun;
    [naive_solver|naive_solver|..].
  - auth_inv. by eapply permissioned_owners.
  - destruct pm; simpl in Hrun.
    + by apply send_msgs_ok in Hrun as
        (a & d & ad & id & m & _ & _ & _ & _ & _ & _ & _ & _ & _ & ->).
    + apply retry_msgs_ok in Hrun as (cb & _ & _ & a & _ & Hs).
      destruct (ttl_expired env cb); [destruct (paid_by _ _)|];
        first [by destruct Hs as [-> _]|by destruct Hs as (_ & _ & -> & _)].
    + unfold retry_bridge_creation in Hrun. by auth_case.
    + apply execute_zk_authorization_ok in Hrun as
        (a & ? & zm & m & _ & _ & _ & _ & _ & _ & _ & _ & _ & _ & _ & _ & Hs).
      rewrite <-(record_block_owners a (zm_block_number zm) s). cbv zeta in Hs.
      destruct (zk_batch_msgs (zm_message zm)); [|by rewrite Hs].
      by destruct Hs as (id & ad & _ & _ & _ & _ & ->).
  - by apply process_processor_callback_ok in Hrun as (cb & ? & ? & _ & _ & _ & -> & _).
  - unfold process_polytone_callback in Hrun. auth_inv. case_match.
    + match goal with H : polytone_execution_callback _ _ _ _ _ = _ |- _ =>
        by apply polytone_execution_callback_ok in H as
          (cb & _ & _ & [[-> _]|(res & _ & -> & _)]) end.
    + unfold polytone_proxy_callback in *. by auth_case.
  - by apply process_hyperlane_callback_ok in Hrun as
      (? & ? & ? & ? & cb & _ & _ & _ & _ & _ & -> & _).
Qed.

Context `{!CwOwnableLaws}.
Lemma assert_owner_ok a s u s' : assert_owner_ a s = Ok (u, s') → owner_of s a.
Proof.
  unfold assert_owner_. intros Hrun. auth_inv. destruct u.
  by match goal with H : assert_owner _ _ = _ |- _ => apply assert_owner_spec in H end.
Qed.
Lemma assert_owner_or_subowner_ok a ow s u s' :
  s_ownership s = Some ow → assert_owner_or_subowner a s = Ok (u, s') →
  owner_of s a ∨ sub_owner_of s a.
Proof.
  unfold assert_owner_or_subowner, owner_of, sub_owner_of. intros How Hrun. auth_inv.
  match goal with H : is_owner _ _ = Ok ?b |- _ => rewrite How in H; apply is_owner_spec in H; subst end.
  match goal with H : negb _ && negb _ = false |- _ =>
    apply andb_false_iff in H as [H|H]; apply negb_false_iff, bool_decide_eq_true in H end; eauto.
Qed.
Lemma execute_role q env info msg s ow r s' :
  s_ownership s = Some ow → execute q env info msg s = Ok (r, s') → role env info s msg.
Proof.
  intros How Hrun. destruct msg as [act|om|pm|pm|[id res]|cm|hm]; simpl in Hrun |- *; [done| | |done| | |].
  - apply Exec_bind_ok in Hrun as (? & ? & Ho & _). by eapply assert_owner_ok.
  - apply Exec_bind_ok in Hrun as (? & ? & Ho & _). by eapply assert_owner_or_subowner_ok.
  - apply process_processor_callback_ok in Hrun as (cb & ? & ? & ? & ? & _). eauto.
  - unfold process_polytone_callback in Hrun. auth_inv.
    match goal with H : bool_decide (_ ≠ _) = false |- _ => apply bool_decide_neq_false in H end.
    split; [done|]. case_match.
    + match goal with H : polytone_execution_callback _ _ _ _ _ = _ |- _ =>
        apply polytone_execution_callback_ok in H as (cb & ? & ? & _) end. eauto.
    + unfold polytone_proxy_callback in *. auth_inv.
      match goal with H : bool_decide (_ ≠ _) = false |- _ => apply bool_decide_neq_false in H end.
      right. destruct (execution_environment _) as [[c]|] eqn:He; auth_inv. eauto 7.
  - apply process_hyperlane_callback_ok in Hrun as (e & ? & ? & ? & ? & Hf & _).
    unfold find_hyperlane_encoder in Hf. apply head_Some_elem_of, list_elem_of_omap in Hf as
      ([name d] & Hd & He). apply elem_of_map_range in Hd. simpl in He. unfold hyperlane_encoder in He.
    destruct (execution_environment d) as [|e' [c]] eqn:Henv; [done|].
    destruct (bool_decide (mailbox c ≠ info_sender info)) eqn:Hm; [done|].
    apply bool_decide_neq_false in Hm. eauto 7.
Qed.
End Access.

(** Privileged actions need their role.  A message the contract accepts was sent by
    the owner if it manages sub-owners; by the owner or a sub-owner if it manages
    domains, authorizations, minting, queues or processors; by the processor or
    proxy recorded for the execution if it reports a result; and by the registered
    polytone note or Hyperlane mailbox if it is a bridge callback. *)
Theorem privileged_actions_authorized
    `{Platform} `{SerdeJson} `{CwOwnable} `{TokenFactoryProto}
    `{JsonCodec ProcessorExecuteMsg} `{JsonCodec PolytoneExecuteMsg}
    `{JsonCodec HyperlaneExecuteMsg} `{JsonCodec AuthPolytoneCallbackMsg}
    `{JsonCodec ZkMessage} `{JsonCodec InternalAuthorizationMsg} `{!CwOwnableLaws}
    (q : Querier) (env : Env) (info : MessageInfo) (msg : AuthorizationExecuteMsg)
    (s s' : storage) (ow : Ownership) (r : Response) :
  s_ownership s = Some ow → execute q env info msg s = Ok (r, s') → role env info s msg.
Proof. apply execute_role. Qed.

Lemma privileged_actions_authorized_witness :
  ∃ r ow, s_ownership sample_s0 = Some ow ∧
    execute sample_q (sample_env 2) (mkInfo "sub" [])
      (PermissionedAction (SetVerificationRouter "router")) sample_s0 =
      Ok (r, after (execute sample_q (sample_env 2) (mkInfo "sub" [])
        (PermissionedAction (SetVerificationRouter "router"))) sample_s0) ∧
    (owner_of sample_s0 "sub" ∨ sub_owner_of sample_s0 "sub").
Proof.
  destruct (after_ok (execute sample_q (sample_env 2) (mkInfo "sub" [])
    (PermissionedAction (SetVerificationRouter "router"))) sample_s0) as [r Hr];
    [vm_compute; reflexivity|].
  exists r, (mkOwnership (Some "owner") None None). split; [vm_compute; reflexivity|].
  split; [exact Hr|].
  exact (privileged_actions_authorized sample_q (sample_env 2) (mkInfo "sub" [])
    (PermissionedAction (SetVerificationRouter "router")) sample_s0 _
    (mkOwnership (Some "owner") None None) r ltac:(vm_compute; reflexivity) Hr).
Defined.

(** Only ownership actions change the owners: apart from [UpdateOwnership] and the
    owner's own management of sub-owners, no message, whoever sends it, changes the
    owner, the pending transfer or the set of sub-owners. *)
Theorem owners_change_only_by_owner_actions
    `{Platform} `{SerdeJson} `{CwOwnable} `{TokenFactoryProto}
    `{JsonCodec ProcessorExecuteMsg} `{JsonCodec PolytoneExecuteMsg}
    `{JsonCodec HyperlaneExecuteMsg} `{JsonCodec AuthPolytoneCallbackMsg}
    `{JsonCodec ZkMessage} `{JsonCodec InternalAuthorizationMsg} `{!CwOwnableLaws}
    (q : Querier) (env : Env) (info : MessageInfo) (msg : AuthorizationExecuteMsg)
    (s s' : storage) (r : Response) :
  execute q env info msg s = Ok (r, s') → owners s' ≠ owners s →
  (∃ act, msg = UpdateOwnership act) ∨
  (∃ om, msg = OwnerAction om ∧ owner_of s (info_sender info)).
Proof.
  intros Hrun Hne. destruct msg as [act|om|pm|pm|im|cm|hm];
    try (exfalso; apply Hne; eapply execute_owners; [| |exact Hrun]; by intros).
  - eauto.
  - right. exists om. split; [done|]. simpl in Hrun.
    apply Exec_bind_ok in Hrun as (? & ? & Ho & _). by eapply assert_owner_ok.
Qed.

Lemma owners_change_only_by_owner_actions_witness :
  let add := OwnerAction (AddSubOwner "second") in
  ∃ r, execute sample_q (sample_env 2) sample_owner add sample_s0 =
         Ok (r, after (execute sample_q (sample_env 2) sample_owner add) sample_s0) ∧
    ((∃ act, add = UpdateOwnership act) ∨ (∃ om, add = OwnerAction om ∧ owner_of sample_s0 "owner")).
Proof.
  destruct (after_ok (execute sample_q (sample_env 2) sample_owner
    (OwnerAction (AddSubOwner "second"))) sample_s0) as [r Hr]; [vm_compute; reflexivity|].
  exists r. split; [exact Hr|].
  refine (owners_change_only_by_owner_actions sample_q (sample_env 2) sample_owner
    (OwnerAction (AddSubOwner "second")) sample_s0 _ r Hr _).
  vm_compute. discriminate.
Defined.
