(* ===== verification/RouterTheorems.v ===== *)
(** * Broker and router: registrations, and proofs checked through the router *)
From Stdlib Require Import Strings.Byte.
From S2P Require Import Prelude Platform Types Accounts LibraryBase AuthorizationUtils Authorization AuthorizationFacts.
From S2P Require Import Routers Codec LibraryCodec Samples AuthorizationAccess.

Section Proofs.
Context `{CPl : Platform} `{COw : CwOwnable} `{CHo : HashOrder}.

#[global] Instance broker_assert_owner_ro a : ReadOnly (EncoderBroker.assert_owner_ a).
Proof. unfold EncoderBroker.assert_owner_. apply _. Qed.
#[global] Instance router_assert_owner_ro a : ReadOnly (VerificationRouter.assert_owner_ a).
Proof. unfold VerificationRouter.assert_owner_. apply _. Qed.

(** ** The router: a route never changes *)
Definition router_step (s s' : VerificationRouter.storage) : Prop :=
  ∃ env info msg r, VerificationRouter.execute env info msg s = Ok (r, s').
Lemma router_step_routes s s' :
  router_step s s' → VerificationRouter.s_routes s ⊆ VerificationRouter.s_routes s'.
Proof.
  intros (env & info & msg & r & He). destruct msg as [name address|action]; simpl in He.
  - apply Exec_bind_ok in He as (u & s1 & Ho & He). apply read_only in Ho as ->.
    apply Exec_bind_ok in He as (b & s1 & [-> ->]%map_has_ok & He). run_inv.
    apply insert_subseteq. apply eq_None_not_Some.
    by match goal with Hb : bool_decide _ = false |- _ => apply bool_decide_eq_false_1 in Hb end.
  - by run_inv.
Qed.
Lemma router_steps_routes s s' :
  rtc router_step s s' → VerificationRouter.s_routes s ⊆ VerificationRouter.s_routes s'.
Proof. induction 1 as [s|s1 s2 s3 Hs _ IH]; [done|]. etrans; [by apply router_step_routes|done]. Qed.

(** ** The broker: the registered encoders are those of the owner's latest messages *)
Definition encoder_step (m : gmap string Addr) (msg : EncoderBroker.ExecuteMsg) : gmap string Addr :=
  match msg with
  | EncoderBroker.RegisterEncoder version address =>
      match addr_validate address with Ok a => <[version := a]> m | _ => m end
  | EncoderBroker.RemoveEncoder version => delete version m
  | EncoderBroker.UpdateOwnership _ => m
  end.
Lemma broker_execute_encoders `{!CwOwnableLaws} env info msg s r s' :
  EncoderBroker.execute env info msg s = Ok (r, s') →
  EncoderBroker.s_encoders s' = encoder_step (EncoderBroker.s_encoders s) msg ∧
  (EncoderBroker.s_encoders s' ≠ EncoderBroker.s_encoders s →
   ∃ o, EncoderBroker.s_ownership s = Some o ∧ own_owner o = Some (info_sender info)).
Proof.
  intros He. destruct msg as [version address|version|action]; simpl in He.
  - apply Exec_bind_ok in He as (u & s1 & Ho & He). pose proof (read_only _ _ _ Ho) as ->.
    unfold EncoderBroker.assert_owner_ in Ho. run_inv.
    match goal with Ha : addr_validate _ = Ok _ |- _ => rewrite Ha end.
    split; [done|]. intros _. apply assert_owner_spec. by destruct u.
  - apply Exec_bind_ok in He as (u & s1 & Ho & He). pose proof (read_only _ _ _ Ho) as ->.
    unfold EncoderBroker.assert_owner_ in Ho. run_inv.
    split; [done|]. intros _. apply assert_owner_spec. by destruct u.
  - by run_inv.
Qed.

(** ** Queries through the routers *)
Lemma query_contract_ok {S A} err (cs : gmap Addr S) addr (f : S → result StdError A) a :
  query_contract err cs addr f = Ok a ↔ ∃ s, cs !! addr = Some s ∧ f s = Ok a.
Proof.
  unfold query_contract. destruct (cs !! addr) as [s|]; [|naive_solver].
  rewrite map_err_r_ok. naive_solver.
Qed.
Lemma routed_verify err c router route vk inputs proof payload :
  Authorization.query_verify (routed_querier err c) router route vk inputs proof payload = Ok true →
  ∃ rs verifier, ch_routers c !! router = Some rs ∧
    VerificationRouter.s_routes rs !! route = Some verifier ∧
    ch_verifiers c verifier vk inputs proof payload = Ok true.
Proof.
  simpl. intros (rs & Hrs & Hv)%query_contract_ok. unfold VerificationRouter.verify in Hv.
  apply bind_result_ok in Hv as (verifier & Hg & Hv). unfold VerificationRouter.get_route in Hg.
  destruct (VerificationRouter.s_routes rs !! route) as [a|] eqn:Hr; simplify_eq. eauto.
Qed.
(** A proof that the library accepts for a key. *)
Definition proven `{Groth16} (vk proof inputs : Binary) : Prop :=
  ∃ hash, from_utf8 vk = Ok hash ∧ groth16_verify proof inputs hash = Ok ().
Lemma verify_proof_ok `{Groth16} vk proof inputs :
  Sp1Verifier.verify_proof vk proof inputs = Ok () ↔ proven vk proof inputs.
Proof.
  unfold Sp1Verifier.verify_proof, proven. split.
  - intros (hash & Hh%map_err_r_ok & Hv%map_err_r_ok)%bind_result_ok. eauto.
  - intros (hash & -> & Hv). simpl. by rewrite Hv.
Qed.
Lemma sp1_verify_ok `{Groth16} err contracts verifier vk inputs proof payload b :
  sp1_verifiers err contracts verifier vk inputs proof payload = Ok b →
  b = true ∧ ∃ s domain_vk, contracts !! verifier = Some s ∧ Sp1Verifier.s_domain_vk s = Some domain_vk ∧
    proven vk proof inputs ∧ 32 ≤ length inputs ∧ proven domain_vk payload (take 32 inputs).
Proof.
  intros (s & Hs & Hv)%query_contract_ok. unfold Sp1Verifier.verify, Sp1Verifier.query_domain_vk in Hv.
  apply bind_result_ok in Hv as ([] & Hp%verify_proof_ok & (domain_vk & Hd & Hv)%bind_result_ok).
  destruct (Sp1Verifier.s_domain_vk s) as [vk'|] eqn:Hvk; [|done]. injection Hd as <-.
  apply bind_result_ok in Hv as (domain_inputs & Hi & ([] & Hq%verify_proof_ok & [= <-])%bind_result_ok).
  destruct (32 <=? length inputs) eqn:Hlen; [|done]. apply Nat.leb_le in Hlen. injection Hi as <-.
  split; [done|]. eauto 10.
Qed.
End Proofs.

(** C21 Proofs are checked by the verifier registered for the route.  When the queries of
    the authorization contract are answered by the verification router at the configured
    address, an accepted ZK execution means that the verifier registered there for the
    authorization's route accepted the authorization's key, the inputs, the proof and the
    payload; and whatever messages the router executes afterwards, that route keeps
    resolving to the same verifier.  Where the verifiers are SP1 verifiers, both proofs hold:
    the one of the program for the authorization's key and the inputs, and the one of the
    domain for the key of that verifier and the first 32 bytes of the inputs. *)
Theorem zk_proof_checked_by_registered_verifier
    `{Platform} `{SerdeJson} `{CwOwnable} `{TokenFactoryProto}
    `{JsonCodec ProcessorExecuteMsg} `{JsonCodec PolytoneExecuteMsg}
    `{JsonCodec HyperlaneExecuteMsg} `{JsonCodec AuthPolytoneCallbackMsg} `{JsonCodec ZkMessage}
    (err : StdError → string) (c : Contracts) (env : Env) (info : MessageInfo) (l : string)
    (inputs proof payload : list byte) (s s' : Authorization.storage) (r : Response) :
  Authorization.execute_zk_authorization (routed_querier err c) env info l inputs proof payload s =
    Ok (r, s') →
  ∃ a router rs verifier,
    Authorization.s_zk_authorizations s !! l = Some a ∧
    Authorization.s_verification_router s = Some router ∧ ch_routers c !! router = Some rs ∧
    ch_verifiers c verifier (zk_vk a) inputs proof payload = Ok true ∧
    (∀ rs', rtc router_step rs rs' →
      VerificationRouter.get_route rs' (zk_verification_route a) = Ok verifier) ∧
    ∀ `(Groth16) err' sp1, ch_verifiers c = sp1_verifiers err' sp1 →
      ∃ vs domain_vk, sp1 !! verifier = Some vs ∧ Sp1Verifier.s_domain_vk vs = Some domain_vk ∧
        proven (zk_vk a) proof inputs ∧ proven domain_vk payload (take 32 inputs).
Proof.
  intros (a & router & zm & msg & Ha & _ & Hro & _ & Hv & _)%execute_zk_authorization_ok.
  apply routed_verify in Hv as (rs & verifier & Hrs & Hr & Hv).
  exists a, router, rs, verifier. split_and!; [done..| |].
  - intros rs' Hsteps%router_steps_routes. unfold VerificationRouter.get_route.
    by rewrite (lookup_weaken _ _ _ _ Hr Hsteps).
  - intros ? err' sp1 Hsp1. rewrite Hsp1 in Hv. apply sp1_verify_ok in Hv as (_ & vs & vk & ? & ? & ? & _ & ?).
    by exists vs, vk.
Qed.

(** A router with one route to a verifier with a key of its own, and proofs that are the
    inputs they prove. *)
#[local] Instance sample_groth16 : Groth16 := {
  from_utf8 b := Ok (String.string_of_list_byte b);
  groth16_verify proof inputs _ := if bool_decide (proof = inputs) then Ok () else Err "wrong";
}.
Definition sample_verifiers : gmap Addr Sp1Verifier.storage := {[ "verifier" := Sp1Verifier.mkStorage (Some [x01]) ]}.
Definition sample_router_init : Exec VerificationRouter.storage StdError Response :=
  VerificationRouter.instantiate (sample_env 1) sample_owner
    (VerificationRouter.mkInstantiateMsg {[ zi_verification_route sample_zk := "verifier" ]} "owner").
Definition sample_contracts : Contracts :=
  mkContracts ∅ {[ "router" := after sample_router_init VerificationRouter.empty_storage ]}
    (mkEncoders (λ _ _, Ok true) (λ _ _, Ok []) (λ _ _, Ok []))
    (sp1_verifiers (λ _, "error") sample_verifiers) (λ _ _, Ok 1%N).
Definition sample_routed_prove : Exec Authorization.storage Authorization.ContractError Response :=
  Authorization.execute_zk_authorization (routed_querier (λ _, "error") sample_contracts)
    (sample_env 4) (mkInfo "prover" []) "proved" (sample_inputs 10) (sample_inputs 10) (take 32 (sample_inputs 10)).
Lemma zk_proof_checked_by_registered_verifier_witness : ∃ r a,
  sample_routed_prove sample_zk2 = Ok (r, after sample_routed_prove sample_zk2) ∧
  Authorization.s_zk_authorizations sample_zk2 !! "proved" = Some a ∧
  proven (zk_vk a) (sample_inputs 10) (sample_inputs 10) ∧
  ∃ domain_vk, proven domain_vk (take 32 (sample_inputs 10)) (take 32 (sample_inputs 10)).
Proof.
  destruct (after_ok sample_routed_prove sample_zk2) as [r Hr]; [vm_compute; reflexivity|].
  destruct (zk_proof_checked_by_registered_verifier _ _ _ _ _ _ _ _ _ _ _ Hr)
    as (a & router & rs & verifier & Ha & _ & _ & _ & _ & Hsp1).
  destruct (Hsp1 _ _ _ eq_refl) as (vs & domain_vk & _ & _ & Hp & Hd).
  exists r, a. split; [exact Hr|]. split; [exact Ha|]. split; [exact Hp|]. by exists domain_vk.
Defined.
