(* ===== verification/EvmEncoder.v ===== *)
(** * The EVM encoder

    [contracts/encoders/evm-encoder], with [packages/encoder-utils/src/processor] and
    [libraries]: messages for a processor on an EVM chain, and the calls of the libraries
    there, in the encoding of Solidity; and the callbacks that come back.  The encoding
    itself ([alloy_sol_types]) is a parameter: the structs of the [sol!] macros are
    records, and what a struct of them can hold is [sol_fits]. *)
From Stdlib Require Import Strings.Byte.
From S2P Require Import Prelude Platform Types Accounts LibraryBase Forwarder AuthorizationUtils Authorization Routers.

(** ** Solidity values

    An [address] of 160 bits and a [uint256] are numbers; [bytes32] is a list of 32
    bytes. *)
Definition EvmAddress : Type := N.
Definition U256 : Type := N.
Definition u256_max : N := 2 ^ 256 - 1.
Definition u32_max : N := 2 ^ 32 - 1.
Definition u24_max : N := 2 ^ 24 - 1.
Definition u16_max : N := 2 ^ 16 - 1.
Definition MIN_INT24 : Z := -8388608.
Definition MAX_INT24 : Z := 8388607.
(** The values that fit the fields of a struct. *)
Class SolType (T : Type) := sol_fits : T → Prop.
(** [SolValue::abi_encode] and [abi_decode], with the text of its error. *)
Class SolValue (T : Type) := {
  abi_encode : T → Binary;
  abi_decode : Binary → result string T;
}.
(** What fits is decoded again. *)
Class SolValueLaws (T : Type) `{SolType T} `{SolValue T} : Prop := {
  abi_decode_encode (x : T) : sol_fits x → abi_decode (abi_encode x) = Ok x;
}.
(** [Address::from_str], with the text of its error, and [Display for Bytes]. *)
Class EvmText := {
  address_from_str : string → result string EvmAddress;
  bytes_to_string : Binary → string;
}.
Class EvmTextLaws `{EvmText} : Prop := {
  address_from_str_fits s a : address_from_str s = Ok a → (a < 2 ^ 160)%N;
}.
(** [serde_json::from_slice], whose error is not used, and [to_vec]. *)
Class SerdeFrom (T : Type) := serde_from_slice : Binary → option T.
Class SerdeTo (T : Type) := serde_to_vec : T → result string Binary.

(** ** [solidity_types.rs] of the processor *)
Module Sol.
Inductive ProcessorMessageType := PauseT | ResumeT | EvictMsgsT | SendMsgsT | InsertMsgsT.
Record ProcessorMessage := mkProcessorMessage { messageType : ProcessorMessageType; pm_message : Binary }.
Inductive Priority := Medium | High.
Inductive SubroutineType := AtomicT | NonAtomicT.
Record Subroutine := mkSubroutine { subroutineType : SubroutineType; sub_subroutine : Binary }.
Inductive DurationType := HeightT | TimeT.
Record Duration := mkDuration { durationType : DurationType; dur_value : N }.
Inductive RetryTimesType := NoRetry | IndefinitelyT | AmountT.
Record RetryTimes := mkRetryTimes { retryType : RetryTimesType; retry_amount : N }.
Record RetryLogic := mkRetryLogic { rl_times : RetryTimes; rl_interval : Duration }.
Record AtomicFunction := mkAtomicFunction { af_contractAddress : EvmAddress }.
Record AtomicSubroutine := mkAtomicSubroutine {
  as_functions : list AtomicFunction;
  as_retryLogic : RetryLogic;
}.
Record FunctionCallback := mkFunctionCallback { fc_contractAddress : EvmAddress; callbackMessage : Binary }.
Record NonAtomicFunction := mkNonAtomicFunction {
  nf_contractAddress : EvmAddress;
  nf_retryLogic : RetryLogic;
  callbackConfirmation : FunctionCallback;
}.
Record NonAtomicSubroutine := mkNonAtomicSubroutine { ns_functions : list NonAtomicFunction }.
Record InsertMsgs := mkInsertMsgs {
  im_executionId : N;
  im_queuePosition : N;
  im_priority : Priority;
  im_subroutine : Subroutine;
  im_expirationTime : N;
  im_messages : list Binary;
}.
Record SendMsgs := mkSendMsgs {
  sm_executionId : N;
  sm_priority : Priority;
  sm_subroutine : Subroutine;
  sm_expirationTime : N;
  sm_messages : list Binary;
}.
Record EvictMsgs := mkEvictMsgs { ev_queuePosition : N; ev_priority : Priority }.
Inductive ExecutionResult := Success | Rejected | PartiallyExecuted | Expired.
Record Callback := mkCallback {
  cb_executionId : N;
  executionResult : ExecutionResult;
  executedCount : U256;
  cb_data : Binary;
}.

(** [uint64], [address]; a dynamic type holds anything. *)
Definition retry_fits (r : RetryLogic) : Prop :=
  (retry_amount (rl_times r) ≤ u64_max)%N ∧ (dur_value (rl_interval r) ≤ u64_max)%N.
Definition address_fits (a : EvmAddress) : Prop := (a < 2 ^ 160)%N.
#[global] Instance ProcessorMessage_sol : SolType ProcessorMessage := λ _, True.
#[global] Instance AtomicSubroutine_sol : SolType AtomicSubroutine := λ s,
  Forall (λ f, address_fits (af_contractAddress f)) (as_functions s) ∧ retry_fits (as_retryLogic s).
#[global] Instance NonAtomicSubroutine_sol : SolType NonAtomicSubroutine := λ s,
  Forall (λ f, address_fits (nf_contractAddress f) ∧ retry_fits (nf_retryLogic f) ∧
    address_fits (fc_contractAddress (callbackConfirmation f))) (ns_functions s).
#[global] Instance InsertMsgs_sol : SolType InsertMsgs := λ m,
  (im_executionId m ≤ u64_max ∧ im_queuePosition m ≤ u64_max ∧ im_expirationTime m ≤ u64_max)%N.
#[global] Instance SendMsgs_sol : SolType SendMsgs := λ m,
  (sm_executionId m ≤ u64_max ∧ sm_expirationTime m ≤ u64_max)%N.
#[global] Instance EvictMsgs_sol : SolType EvictMsgs := λ m, (ev_queuePosition m ≤ u64_max)%N.
#[global] Instance Callback_sol : SolType Callback := λ c,
  (cb_executionId c ≤ u64_max ∧ executedCount c ≤ u256_max)%N.

(** [From] of the priority, and of a callback; [U256::to] panics when the number does not
    fit. *)
Definition Priority_from (p : Types.Priority) : Priority :=
  match p with Types.Medium => Medium | Types.High => High end.
Definition u256_to_u64 (n : U256) : result StdError N := if (n <=? u64_max)%N then Ok n else Panic.
Definition InternalAuthorizationMsg_from `{EvmText} (msg : Callback) : result StdError InternalAuthorizationMsg :=
  execution_result ← match executionResult msg with
                     | Success => Ok Types.Success
                     | Rejected => Ok (Types.Rejected (bytes_to_string (cb_data msg)))
                     | PartiallyExecuted =>
                         count ← u256_to_u64 (executedCount msg);
                         Ok (Types.PartiallyExecuted count (bytes_to_string (cb_data msg)))
                     | Expired => count ← u256_to_u64 (executedCount msg); Ok (Types.Expired count)
                     end;
  Ok (ProcessorCallback (cb_executionId msg) execution_result).
End Sol.

(** ** The calls and configurations of the libraries *)
Record EvmForwardingConfig := mkEvmForwardingConfig { tokenAddress : EvmAddress; maxAmount : U256 }.
Inductive IntervalType := TIME | BLOCKS.
Record ForwarderConfig := mkForwarderConfig {
  fo_inputAccount : EvmAddress;
  fo_outputAccount : EvmAddress;
  forwardingConfigs : list EvmForwardingConfig;
  intervalType : IntervalType;
  minInterval : N;
}.
Record CCTPTransferConfig := mkCCTPTransferConfig {
  ct_amount : U256;
  ct_mintRecipient : Binary;
  ct_inputAccount : EvmAddress;
  ct_destinationDomain : N;
  ct_cctpTokenMessenger : EvmAddress;
  ct_transferToken : EvmAddress;
}.
Record StargateTransferConfig := mkStargateTransferConfig {
  sg_recipient : Binary;
  sg_inputAccount : EvmAddress;
  sg_destinationDomain : N;
  sg_stargateAddress : EvmAddress;
  sg_transferToken : EvmAddress;
  sg_amount : U256;
  sg_minAmountToReceive : U256;
  sg_refundAddress : EvmAddress;
  sg_extraOptions : Binary;
  sg_composeMsg : Binary;
  sg_oftCmd : Binary;
}.
Record AavePositionManagerConfig := mkAavePositionManagerConfig {
  aa_poolAddress : EvmAddress;
  aa_inputAccount : EvmAddress;
  aa_outputAccount : EvmAddress;
  aa_supplyAsset : EvmAddress;
  aa_borrowAsset : EvmAddress;
  aa_referralCode : N;
}.
Record BalancerV2SwapConfig := mkBalancerV2SwapConfig {
  ba_inputAccount : EvmAddress;
  ba_outputAccount : EvmAddress;
  ba_vaultAddress : EvmAddress;
}.
Record StandardBridgeTransferConfig := mkStandardBridgeTransferConfig {
  sb_amount : U256;
  sb_inputAccount : EvmAddress;
  sb_recipient : EvmAddress;
  sb_standardBridge : EvmAddress;
  sb_token : EvmAddress;
  sb_remoteToken : EvmAddress;
  sb_minGasLimit : N;
  sb_extraData : Binary;
}.
Record IBCEurekaTransferConfig := mkIBCEurekaTransferConfig {
  eu_amount : U256;
  eu_minAmountOut : U256;
  eu_transferToken : EvmAddress;
  eu_inputAccount : EvmAddress;
  eu_recipient : string;
  eu_sourceClient : string;
  eu_timeout : N;
  eu_eurekaHandler : EvmAddress;
}.
Record EvmFees := mkEvmFees { relayFee : U256; relayFeeRecipient : EvmAddress; quoteExpiry : N }.
Record PancakeSwapV3PositionManagerConfig := mkPancakeConfig {
  pa_inputAccount : EvmAddress;
  pa_outputAccount : EvmAddress;
  pa_positionManager : EvmAddress;
  pa_masterChef : EvmAddress;
  pa_token0 : EvmAddress;
  pa_token1 : EvmAddress;
  poolFee : N;
  slippageBps : N;
  pa_timeout : U256;
}.
(** The functions of the [sol!] macros; [transfer()] is the same in three libraries. *)
Inductive SolCall :=
| updateProcessorCall (_processor : EvmAddress)
| updateConfigCall (_config : Binary)
| renounceOwnershipCall
| transferOwnershipCall (newOwner : EvmAddress)
| forwardCall
| transferCall
| supplyCall (amount : U256)
| borrowCall (amount : U256)
| withdrawCall (amount : U256)
| repayCall (amount : U256)
| repayWithSharesCall (amount : U256)
| swapCall (poolId : Binary) (tokenIn tokenOut : EvmAddress) (userData : Binary) (amountIn minAmountOut timeout : U256)
| multiSwapCall (poolIds : list Binary) (tokens : list EvmAddress) (userDataArray : list Binary)
    (amountIn minAmountOut timeout : U256)
| eurekaTransferCall (fees : EvmFees) (memo : string)
| lombardTransferCall (fees : EvmFees) (memo : string)
| createPositionCall (tickLower tickUpper : Z) (amount0 amount1 : U256)
| withdrawPositionCall (tokenId : U256).
(** [SolCall::abi_encode]: the selector and the arguments; [SELECTOR]. *)
Class SolCalls := {
  call_abi_encode : SolCall → Binary;
  SELECTOR : SolCall → Binary;
}.
(** The calls that [SELECTOR] alone encodes. *)
Definition no_arguments (c : SolCall) : bool :=
  match c with renounceOwnershipCall | forwardCall | transferCall => true | _ => false end.
Class SolCallsLaws `{SolCalls} : Prop := {
  selector_encodes c : no_arguments c = true → call_abi_encode c = SELECTOR c;
}.

(** [Bytes32Address::to_fixed_bytes]. *)
Definition Bytes32Address : Type := Binary.
Definition to_fixed_bytes (self : Bytes32Address) : result StdError Binary :=
  if bool_decide (length self = 32) then Ok self
  else Err (GenericErr "Error converting Bytes32Address to fixed size: could not convert slice to array").

(** ** [lib.rs] *)
Inductive EVMLibrary :=
| NoLibrary
| LibForwarder
| LibCctpTransfer
| LibStargateTransfer
| LibAavePositionManager
| LibBalancerV2Swap
| LibStandardBridgeTransfer
| LibIbcEurekaTransfer
| LibPancakeV3PositionManager.
#[global] Instance EVMLibrary_eq_dec : EqDecision EVMLibrary. Proof. solve_decision. Defined.
(** [strum::EnumString], in snake case. *)
Definition EVMLibrary_names : list (string * EVMLibrary) :=
  [("no_library", NoLibrary); ("forwarder", LibForwarder); ("cctp_transfer", LibCctpTransfer);
   ("stargate_transfer", LibStargateTransfer); ("aave_position_manager", LibAavePositionManager);
   ("balancer_v2_swap", LibBalancerV2Swap); ("standard_bridge_transfer", LibStandardBridgeTransfer);
   ("ibc_eureka_transfer", LibIbcEurekaTransfer); ("pancake_v3_position_manager", LibPancakeV3PositionManager)].
Definition EVMLibrary_parse (lib : string) : option EVMLibrary :=
  snd <$> find (λ nl : string * EVMLibrary, bool_decide (nl.1 = lib)) EVMLibrary_names.
Definition get_library (lib : string) : result StdError EVMLibrary :=
  ok_or_r (EVMLibrary_parse lib) (GenericErr "Invalid library").
Definition EVMLibrary_is_valid (lib : string) : bool :=
  match EVMLibrary_parse lib with Some library => bool_decide (library ≠ NoLibrary) | None => false end.
Definition validate_i24_value (value : Z) : result StdError Z :=
  if (MIN_INT24 <=? value)%Z && (value <=? MAX_INT24)%Z then Ok value
  else Err (GenericErr ("Value " +:+ pretty value +:+ " outside int24 range (-8388608 to 8388607)")%string).
Section Addresses.
Context `{EvmText}.
Definition parse_address (addr : string) : result StdError EvmAddress :=
  map_err_r (λ e, GenericErr ("Invalid address: " +:+ e)%string) (address_from_str addr).
(** [Address::from_str(..).map_err(|e| StdError::generic_err(e.to_string()))]. *)
Definition plain_address (addr : string) : result StdError EvmAddress :=
  map_err_r GenericErr (address_from_str addr).
Definition account_address (l : LibraryAccountType) : result StdError EvmAddress :=
  addr ← lib_to_string l; parse_address addr.
End Addresses.
Definition encode_retry_logic (retry_logic : option RetryLogic) : Sol.RetryLogic :=
  match retry_logic with
  | Some retry_logic =>
      Sol.mkRetryLogic
        match times retry_logic with
        | Indefinitely => Sol.mkRetryTimes Sol.IndefinitelyT 0
        | Amount amount => Sol.mkRetryTimes Sol.AmountT amount
        end
        match interval retry_logic with
        | DurHeight blocks => Sol.mkDuration Sol.HeightT blocks
        | DurTime seconds => Sol.mkDuration Sol.TimeT seconds
        end
  | None => Sol.mkRetryLogic (Sol.mkRetryTimes Sol.NoRetry 0) (Sol.mkDuration Sol.TimeT 0)
  end.
(** The message of a library, or the one error that all of them have. *)
Definition parse_library_msg {F U} `{SerdeFrom (LibExecuteMsg F U)} (msg : Binary)
    : result StdError (LibExecuteMsg F U) :=
  ok_or_r (serde_from_slice msg) (GenericErr "Message sent is not a valid message for this library!").

Section Subroutines.
Context `{EvmText} `{SolValue Sol.AtomicSubroutine} `{SolValue Sol.NonAtomicSubroutine}.
Definition encode_atomic_function (function : AtomicFunction) : result StdError Sol.AtomicFunction :=
  addr ← lib_to_string (af_contract_address function);
  addr ← plain_address addr;
  Ok (Sol.mkAtomicFunction addr).
Definition encode_callback (callback : option FunctionCallback) : result StdError Sol.FunctionCallback :=
  match callback with
  | None => Ok (Sol.mkFunctionCallback 0%N [])
  | Some callback =>
      addr ← plain_address (fc_contract_address callback);
      Ok (Sol.mkFunctionCallback addr (fc_callback_message callback))
  end.
Definition encode_non_atomic_function (function : NonAtomicFunction) : result StdError Sol.NonAtomicFunction :=
  callback ← encode_callback (callback_confirmation function);
  addr ← lib_to_string (nf_contract_address function);
  addr ← plain_address addr;
  Ok (Sol.mkNonAtomicFunction addr (encode_retry_logic (nf_retry_logic function)) callback).
Definition encode_subroutine (subroutine : Subroutine) : result StdError Sol.Subroutine :=
  match subroutine with
  | Atomic atomic_subroutine =>
      functions ← mapM encode_atomic_function (as_functions atomic_subroutine);
      let retry_logic := encode_retry_logic (as_retry_logic atomic_subroutine) in
      Ok (Sol.mkSubroutine Sol.AtomicT (abi_encode (Sol.mkAtomicSubroutine functions retry_logic)))
  | NonAtomic non_atomic_subroutine =>
      functions ← mapM encode_non_atomic_function (ns_functions non_atomic_subroutine);
      Ok (Sol.mkSubroutine Sol.NonAtomicT (abi_encode (Sol.mkNonAtomicSubroutine functions)))
  end.
End Subroutines.

(** ** [libraries/mod.rs] *)
Section Common.
Context `{EvmText} `{SolCalls}.
Definition get_update_processor_call (processor_addr : string) : result StdError Binary :=
  processor_addr ← parse_address processor_addr;
  Ok (call_abi_encode (updateProcessorCall processor_addr)).
Definition get_update_ownership_call (action : OwnableAction) : result StdError Binary :=
  match action with
  | TransferOwnership new_owner _ =>
      new_owner_addr ← parse_address new_owner;
      Ok (call_abi_encode (transferOwnershipCall new_owner_addr))
  | RenounceOwnership => Ok (SELECTOR renounceOwnershipCall)
  | AcceptOwnership => Err (GenericErr "AcceptOwnership is not supported")
  end.
(** The messages of a library: its own functions and configuration, and what all have. *)
Definition encode_library_msg {F U} `{SerdeFrom (LibExecuteMsg F U)} (process : F → result StdError Binary)
    (update : U → result StdError Binary) (msg : Binary) : result StdError Binary :=
  msg ← parse_library_msg msg;
  match msg with
  | ProcessFunction function => process function
  | UpdateConfig new_config => config ← update new_config; Ok (call_abi_encode (updateConfigCall config))
  | UpdateProcessor processor => get_update_processor_call processor
  | LibUpdateOwnership action => get_update_ownership_call action
  end.
End Common.

Module EvmForwarder.
Record ForwardingConfig := mkForwardingConfig { token_address : string; max_amount : N }.
Record LibraryConfig := mkLibraryConfig {
  input_addr : LibraryAccountType;
  output_addr : LibraryAccountType;
  forwarding_configs : list ForwardingConfig;
  forwarding_constraints : Forwarder.ForwardingConstraints;
}.
Section Encode.
Context `{EvmText} `{SolCalls} `{SolValue ForwarderConfig}.
Context `{SerdeFrom (LibExecuteMsg Forwarder.FunctionMsgs LibraryConfig)}.
Definition encode_forwarding (cfg : ForwardingConfig) : result StdError EvmForwardingConfig :=
  token ← parse_address (token_address cfg);
  Ok (mkEvmForwardingConfig token (max_amount cfg)).
Definition encode_interval (c : Forwarder.ForwardingConstraints) : IntervalType * N :=
  match Forwarder.min_interval c with
  | Some (DurHeight blocks) => (BLOCKS, blocks)
  | Some (DurTime time) => (TIME, time)
  | None => (TIME, 0%N)
  end.
Definition build_config (new_config : LibraryConfig) : result StdError ForwarderConfig :=
  input_account ← account_address (input_addr new_config);
  output_account ← account_address (output_addr new_config);
  forwarding_configs ← mapM encode_forwarding (forwarding_configs new_config);
  let '(interval_type, min_interval) := encode_interval (forwarding_constraints new_config) in
  Ok (mkForwarderConfig input_account output_account forwarding_configs interval_type min_interval).
Definition encode (msg : Binary) : result StdError Binary :=
  encode_library_msg (λ f, match f with Forwarder.Forward => Ok (SELECTOR forwardCall) end)
    (λ new_config, config ← build_config new_config; Ok (abi_encode config)) msg.
End Encode.
End EvmForwarder.

Module EvmCctpTransfer.
Record LibraryConfig := mkLibraryConfig {
  input_addr : LibraryAccountType;
  mint_recipient : Bytes32Address;
  amount : N;
  destination_domain : N;
  transfer_token : string;
  cctp_token_messenger : string;
}.
Inductive FunctionMsgs := Transfer.
Section Encode.
Context `{EvmText} `{SolCalls} `{SolValue CCTPTransferConfig} `{SerdeFrom (LibExecuteMsg FunctionMsgs LibraryConfig)}.
Definition build_config (new_config : LibraryConfig) : result StdError CCTPTransferConfig :=
  input_account ← account_address (input_addr new_config);
  cctp_transfer_messenger ← parse_address (cctp_token_messenger new_config);
  transfer_token ← parse_address (transfer_token new_config);
  mint_recipient ← to_fixed_bytes (mint_recipient new_config);
  Ok (mkCCTPTransferConfig (amount new_config) mint_recipient input_account (destination_domain new_config)
        cctp_transfer_messenger transfer_token).
Definition encode (msg : Binary) : result StdError Binary :=
  encode_library_msg (λ f, match f with Transfer => Ok (SELECTOR transferCall) end)
    (λ new_config, config ← build_config new_config; Ok (abi_encode config)) msg.
End Encode.
End EvmCctpTransfer.

Module EvmStargateTransfer.
Record LibraryConfig := mkLibraryConfig {
  input_addr : LibraryAccountType;
  recipient : Bytes32Address;
  destination_domain : N;
  stargate_address : string;
  transfer_token : string;
  amount : N;
  min_amount_to_receive : option N;
  refund_address : option string;
  extra_options : option Binary;
  compose_msg : option Binary;
  oft_cmd : option Binary;
}.
Inductive FunctionMsgs := Transfer.
Section Encode.
Context `{EvmText} `{SolCalls} `{SolValue StargateTransferConfig} `{SerdeFrom (LibExecuteMsg FunctionMsgs LibraryConfig)}.
Definition build_config (new_config : LibraryConfig) : result StdError StargateTransferConfig :=
  input_account ← account_address (input_addr new_config);
  stargate_address ← parse_address (stargate_address new_config);
  transfer_token ← parse_address (transfer_token new_config);
  refund_address ← match refund_address new_config with
                   | Some x => parse_address x
                   | None => Ok input_account
                   end;
  recipient ← to_fixed_bytes (recipient new_config);
  Ok (mkStargateTransferConfig recipient input_account (destination_domain new_config) stargate_address
        transfer_token (amount new_config) (default 0%N (min_amount_to_receive new_config)) refund_address
        (default [] (extra_options new_config)) (default [] (compose_msg new_config))
        (default [] (oft_cmd new_config))).
Definition encode (msg : Binary) : result StdError Binary :=
  encode_library_msg (λ f, match f with Transfer => Ok (SELECTOR transferCall) end)
    (λ new_config, config ← build_config new_config; Ok (abi_encode config)) msg.
End Encode.
End EvmStargateTransfer.

Module EvmAavePositionManager.
Record LibraryConfig := mkLibraryConfig {
  input_addr : LibraryAccountType;
  output_addr : LibraryAccountType;
  pool : string;
  supply_asset : string;
  borrow_asset : string;
  referral_code : option N;
}.
Inductive FunctionMsgs :=
| Supply (amount : N)
| Borrow (amount : N)
| Withdraw (amount : N)
| Repay (amount : N)
| RepayWithShares (amount : N).
Section Encode.
Context `{EvmText} `{SolCalls} `{SolValue AavePositionManagerConfig}.
Context `{SerdeFrom (LibExecuteMsg FunctionMsgs LibraryConfig)}.
Definition build_call (function : FunctionMsgs) : SolCall :=
  match function with
  | Supply amount => supplyCall amount
  | Borrow amount => borrowCall amount
  | Withdraw amount => withdrawCall amount
  | Repay amount => repayCall amount
  | RepayWithShares amount => repayWithSharesCall amount
  end.
Definition build_config (new_config : LibraryConfig) : result StdError AavePositionManagerConfig :=
  input_account ← account_address (input_addr new_config);
  output_account ← account_address (output_addr new_config);
  pool_address ← parse_address (pool new_config);
  supply_asset ← parse_address (supply_asset new_config);
  borrow_asset ← parse_address (borrow_asset new_config);
  Ok (mkAavePositionManagerConfig pool_address input_account output_account supply_asset borrow_asset
        (default 0%N (referral_code new_config))).
Definition encode (msg : Binary) : result StdError Binary :=
  encode_library_msg (λ f, Ok (call_abi_encode (build_call f)))
    (λ new_config, config ← build_config new_config; Ok (abi_encode config)) msg.
End Encode.
End EvmAavePositionManager.

Module EvmBalancerV2Swap.
Record LibraryConfig := mkLibraryConfig {
  input_addr : LibraryAccountType;
  output_addr : LibraryAccountType;
  vault : string;
}.
Inductive FunctionMsgs :=
| Swap (pool_id : Bytes32Address) (token_in token_out : string) (amount_in min_amount_out timeout : N) (user_data : Binary)
| MultiSwap (pool_ids : list Bytes32Address) (tokens : list string) (amount_in min_amount_out timeout : N)
    (user_data : list Binary).
Section Encode.
Context `{EvmText} `{SolCalls} `{SolValue BalancerV2SwapConfig} `{SerdeFrom (LibExecuteMsg FunctionMsgs LibraryConfig)}.
Definition build_call (function : FunctionMsgs) : result StdError SolCall :=
  match function with
  | Swap pool_id token_in token_out amount_in min_amount_out timeout user_data =>
      pool_id ← to_fixed_bytes pool_id;
      token_in ← parse_address token_in;
      token_out ← parse_address token_out;
      Ok (swapCall pool_id token_in token_out user_data amount_in min_amount_out timeout)
  | MultiSwap pool_ids tokens amount_in min_amount_out timeout user_data =>
      pool_ids ← mapM to_fixed_bytes pool_ids;
      tokens ← mapM parse_address tokens;
      Ok (multiSwapCall pool_ids tokens user_data amount_in min_amount_out timeout)
  end.
Definition build_config (new_config : LibraryConfig) : result StdError BalancerV2SwapConfig :=
  input_account ← account_address (input_addr new_config);
  output_account ← account_address (output_addr new_config);
  vault_address ← parse_address (vault new_config);
  Ok (mkBalancerV2SwapConfig input_account output_account vault_address).
Definition encode (msg : Binary) : result StdError Binary :=
  encode_library_msg (λ f, call ← build_call f; Ok (call_abi_encode call))
    (λ new_config, config ← build_config new_config; Ok (abi_encode config)) msg.
End Encode.
End EvmBalancerV2Swap.

Module EvmStandardBridgeTransfer.
Record LibraryConfig := mkLibraryConfig {
  input_addr : LibraryAccountType;
  recipient : string;
  amount : N;
  standard_bridge_address : string;
  transfer_token : string;
  remote_token : string;
  gas_limit : N;
  extra_data : option Binary;
}.
Inductive FunctionMsgs := Transfer.
Section Encode.
Context `{EvmText} `{SolCalls} `{SolValue StandardBridgeTransferConfig}.
Context `{SerdeFrom (LibExecuteMsg FunctionMsgs LibraryConfig)}.
Definition build_config (new_config : LibraryConfig) : result StdError StandardBridgeTransferConfig :=
  input_account ← account_address (input_addr new_config);
  recipient ← parse_address (recipient new_config);
  standard_bridge ← parse_address (standard_bridge_address new_config);
  transfer_token ← parse_address (transfer_token new_config);
  remote_token ← parse_address (remote_token new_config);
  Ok (mkStandardBridgeTransferConfig (amount new_config) input_account recipient standard_bridge transfer_token
        remote_token (gas_limit new_config) (default [] (extra_data new_config))).
Definition encode (msg : Binary) : result StdError Binary :=
  encode_library_msg (λ f, match f with Transfer => Ok (SELECTOR transferCall) end)
    (λ new_config, config ← build_config new_config; Ok (abi_encode config)) msg.
End Encode.
End EvmStandardBridgeTransfer.

Module EvmIbcEurekaTransfer.
Record LibraryConfig := mkLibraryConfig {
  input_addr : LibraryAccountType;
  recipient : string;
  amount : N;
  min_amount_out : N;
  eureka_handler_address : string;
  transfer_token : string;
  source_client : string;
  timeout : N;
}.
Record Fees := mkFees { relay_fee : N; relay_fee_recipient : string; quote_expiry : N }.
Inductive FunctionMsgs := Transfer (fees : Fees) (memo : string) | LombardTransfer (fees : Fees) (memo : string).
Section Encode.
Context `{EvmText} `{SolCalls} `{SolValue IBCEurekaTransferConfig} `{SerdeFrom (LibExecuteMsg FunctionMsgs LibraryConfig)}.
Definition build_fees (fees : Fees) : result StdError EvmFees :=
  recipient ← parse_address (relay_fee_recipient fees);
  Ok (mkEvmFees (relay_fee fees) recipient (quote_expiry fees)).
Definition build_call (function : FunctionMsgs) : result StdError SolCall :=
  match function with
  | Transfer fees memo => fees ← build_fees fees; Ok (eurekaTransferCall fees memo)
  | LombardTransfer fees memo => fees ← build_fees fees; Ok (lombardTransferCall fees memo)
  end.
Definition build_config (new_config : LibraryConfig) : result StdError IBCEurekaTransferConfig :=
  input_account ← account_address (input_addr new_config);
  eureka_handler ← parse_address (eureka_handler_address new_config);
  transfer_token ← parse_address (transfer_token new_config);
  Ok (mkIBCEurekaTransferConfig (amount new_config) (min_amount_out new_config) transfer_token input_account
        (recipient new_config) (source_client new_config) (timeout new_config) eureka_handler).
Definition encode (msg : Binary) : result StdError Binary :=
  encode_library_msg (λ f, call ← build_call f; Ok (call_abi_encode call))
    (λ new_config, config ← build_config new_config; Ok (abi_encode config)) msg.
End Encode.
End EvmIbcEurekaTransfer.

Module EvmPancakeV3PositionManager.
Record LibraryConfig := mkLibraryConfig {
  input_addr : LibraryAccountType;
  output_addr : LibraryAccountType;
  position_manager : string;
  master_chef : string;
  token0 : string;
  token1 : string;
  pool_fee : N;
  slippage_bps : N;
  timeout : N;
}.
Inductive FunctionMsgs :=
| CreatePosition (tick_lower tick_upper : Z) (amount0 amount1 : N)
| WithdrawPosition (token_id : N).
Section Encode.
Context `{EvmText} `{SolCalls} `{SolValue PancakeSwapV3PositionManagerConfig}.
Context `{SerdeFrom (LibExecuteMsg FunctionMsgs LibraryConfig)}.
Definition build_call (function : FunctionMsgs) : result StdError SolCall :=
  match function with
  | CreatePosition tick_lower tick_upper amount0 amount1 =>
      tick_lower ← validate_i24_value tick_lower;
      tick_upper ← validate_i24_value tick_upper;
      Ok (createPositionCall tick_lower tick_upper amount0 amount1)
  | WithdrawPosition token_id => Ok (withdrawPositionCall token_id)
  end.
Definition build_config (new_config : LibraryConfig) : result StdError PancakeSwapV3PositionManagerConfig :=
  input_account ← account_address (input_addr new_config);
  output_account ← account_address (output_addr new_config);
  position_manager ← parse_address (position_manager new_config);
  master_chef ← parse_address (master_chef new_config);
  token0 ← parse_address (token0 new_config);
  token1 ← parse_address (token1 new_config);
  Ok (mkPancakeConfig input_account output_account position_manager master_chef token0 token1
        (pool_fee new_config) (slippage_bps new_config) (timeout new_config)).
Definition encode (msg : Binary) : result StdError Binary :=
  encode_library_msg (λ f, call ← build_call f; Ok (call_abi_encode call))
    (λ new_config, config ← build_config new_config; Ok (abi_encode config)) msg.
End Encode.
End EvmPancakeV3PositionManager.

(** ** Encodings

    Every encoding that the contract uses, and what is documented of them. *)
Class EvmCodec := {
  codec_text :: EvmText;
  codec_calls :: SolCalls;
  codec_ProcessorMessage :: SolValue Sol.ProcessorMessage;
  codec_AtomicSubroutine :: SolValue Sol.AtomicSubroutine;
  codec_NonAtomicSubroutine :: SolValue Sol.NonAtomicSubroutine;
  codec_InsertMsgs :: SolValue Sol.InsertMsgs;
  codec_SendMsgs :: SolValue Sol.SendMsgs;
  codec_EvictMsgs :: SolValue Sol.EvictMsgs;
  codec_Callback :: SolValue Sol.Callback;
  codec_ForwarderConfig :: SolValue ForwarderConfig;
  codec_CCTPTransferConfig :: SolValue CCTPTransferConfig;
  codec_StargateTransferConfig :: SolValue StargateTransferConfig;
  codec_AavePositionManagerConfig :: SolValue AavePositionManagerConfig;
  codec_BalancerV2SwapConfig :: SolValue BalancerV2SwapConfig;
  codec_StandardBridgeTransferConfig :: SolValue StandardBridgeTransferConfig;
  codec_IBCEurekaTransferConfig :: SolValue IBCEurekaTransferConfig;
  codec_PancakeConfig :: SolValue PancakeSwapV3PositionManagerConfig;
  codec_ForwarderMsg :: SerdeFrom (LibExecuteMsg Forwarder.FunctionMsgs EvmForwarder.LibraryConfig);
  codec_CctpTransferMsg :: SerdeFrom (LibExecuteMsg EvmCctpTransfer.FunctionMsgs EvmCctpTransfer.LibraryConfig);
  codec_StargateTransferMsg ::
    SerdeFrom (LibExecuteMsg EvmStargateTransfer.FunctionMsgs EvmStargateTransfer.LibraryConfig);
  codec_AavePositionManagerMsg ::
    SerdeFrom (LibExecuteMsg EvmAavePositionManager.FunctionMsgs EvmAavePositionManager.LibraryConfig);
  codec_BalancerV2SwapMsg :: SerdeFrom (LibExecuteMsg EvmBalancerV2Swap.FunctionMsgs EvmBalancerV2Swap.LibraryConfig);
  codec_StandardBridgeTransferMsg ::
    SerdeFrom (LibExecuteMsg EvmStandardBridgeTransfer.FunctionMsgs EvmStandardBridgeTransfer.LibraryConfig);
  codec_IBCEurekaTransferMsg ::
    SerdeFrom (LibExecuteMsg EvmIbcEurekaTransfer.FunctionMsgs EvmIbcEurekaTransfer.LibraryConfig);
  codec_PancakeMsg ::
    SerdeFrom (LibExecuteMsg EvmPancakeV3PositionManager.FunctionMsgs EvmPancakeV3PositionManager.LibraryConfig);
  codec_InternalAuthorizationMsg :: SerdeTo InternalAuthorizationMsg;
}.
Class EvmCodecLaws `{EvmCodec} : Prop := {
  laws_text :: EvmTextLaws;
  laws_calls :: SolCallsLaws;
  laws_ProcessorMessage :: SolValueLaws Sol.ProcessorMessage;
  laws_AtomicSubroutine :: SolValueLaws Sol.AtomicSubroutine;
  laws_NonAtomicSubroutine :: SolValueLaws Sol.NonAtomicSubroutine;
  laws_InsertMsgs :: SolValueLaws Sol.InsertMsgs;
  laws_SendMsgs :: SolValueLaws Sol.SendMsgs;
  laws_EvictMsgs :: SolValueLaws Sol.EvictMsgs;
  laws_Callback :: SolValueLaws Sol.Callback;
}.

Section Contract.
Context `{EvmCodec}.

(** [EVMLibrary::encode_message]. *)
Definition encode_message (lib : string) (msg : Binary) : result StdError Binary :=
  library ← get_library lib;
  match library with
  | NoLibrary => Ok msg
  | LibForwarder => EvmForwarder.encode msg
  | LibCctpTransfer => EvmCctpTransfer.encode msg
  | LibStargateTransfer => EvmStargateTransfer.encode msg
  | LibAavePositionManager => EvmAavePositionManager.encode msg
  | LibBalancerV2Swap => EvmBalancerV2Swap.encode msg
  | LibStandardBridgeTransfer => EvmStandardBridgeTransfer.encode msg
  | LibIbcEurekaTransfer => EvmIbcEurekaTransfer.encode msg
  | LibPancakeV3PositionManager => EvmPancakeV3PositionManager.encode msg
  end.
Definition encode_messages (messages : list EncoderMessage) : result StdError (list Binary) :=
  mapM (λ m, encode_message (em_library m) (em_data m)) messages.

(** ** The messages to the processor *)
Definition processor_message (messageType : Sol.ProcessorMessageType) (message : Binary) : Binary :=
  abi_encode (Sol.mkProcessorMessage messageType message).
Definition encode_send_msgs (execution_id : N) (priority : Priority) (subroutine : Subroutine)
    (expiration_time : option N) (messages : list EncoderMessage) : result StdError Binary :=
  subroutine ← encode_subroutine subroutine;
  messages ← encode_messages messages;
  let message := Sol.mkSendMsgs execution_id (Sol.Priority_from priority) subroutine
                   (default 0%N expiration_time) messages in
  Ok (processor_message Sol.SendMsgsT (abi_encode message)).
Definition encode_insert_msgs (execution_id queue_position : N) (priority : Priority) (subroutine : Subroutine)
    (expiration_time : option N) (messages : list EncoderMessage) : result StdError Binary :=
  subroutine ← encode_subroutine subroutine;
  messages ← encode_messages messages;
  let message := Sol.mkInsertMsgs execution_id queue_position (Sol.Priority_from priority) subroutine
                   (default 0%N expiration_time) messages in
  Ok (processor_message Sol.InsertMsgsT (abi_encode message)).
Definition encode_evict_msgs (queue_position : N) (priority : Priority) : result StdError Binary :=
  let message := Sol.mkEvictMsgs queue_position (Sol.Priority_from priority) in
  Ok (processor_message Sol.EvictMsgsT (abi_encode message)).
Definition encode_pause : Binary := processor_message Sol.PauseT [].
Definition encode_resume : Binary := processor_message Sol.ResumeT [].

(** ** [hyperlane/callback.rs] *)
Definition callback_decode (msg : Binary) : result StdError Binary :=
  callback ← map_err_r GenericErr (abi_decode msg);
  processor_callback ← Sol.InternalAuthorizationMsg_from callback;
  map_err_r (λ e, GenericErr ("Failed to serialize callback: " +:+ e)%string) (serde_to_vec processor_callback).

(** ** The contract *)
Definition evm_is_valid_library (library : string) : bool := EVMLibrary_is_valid library.
Definition evm_encode (message : ProcessorMessageToEncode) : result StdError Binary :=
  match message with
  | EncodeSendMsgs execution_id priority subroutine expiration_time messages =>
      encode_send_msgs execution_id priority subroutine expiration_time messages
  | EncodeInsertMsgs execution_id queue_position priority subroutine expiration_time messages =>
      encode_insert_msgs execution_id queue_position priority subroutine expiration_time messages
  | EncodeEvictMsgs queue_position priority => encode_evict_msgs queue_position priority
  | EncodePause => Ok encode_pause
  | EncodeResume => Ok encode_resume
  end.
Definition evm_decode (message : ProcessorMessageToDecode) : result StdError Binary :=
  match message with HyperlaneCallback callback => callback_decode callback end.
(** The contract keeps only its version, answers the three queries and executes nothing. *)
Definition evm_instantiate : result StdError (Response * (string * string)) :=
  Ok (add_attribute "method" "instantiate" Response_new, ("valence-evm-encoder-v1", "1.0.0")).
Definition evm_execute (env : Env) (info : MessageInfo) : result StdError Response := Panic.
(** What the broker queries, when every registered encoder is this contract. *)
Definition evm_encoders : Encoders :=
  mkEncoders (λ _ library, Ok (evm_is_valid_library library)) (λ _ message, evm_encode message)
    (λ _ message, evm_decode message).
End Contract.
