(* ===== verification/EvmLibraryCalls.v ===== *)
(** * The EVM encoder: the calls of the libraries

    A message is encoded as the call that it asks for.  The arguments of the calls have the
    widths of Solidity, which are not those of Rust: an address has 160 bits, a tick 24, an
    identifier 32 bytes.  What does not fit would be cut off in the encoding. *)
From S2P Require Import Prelude Platform Types Accounts LibraryBase Forwarder EvmEncoder.

(** ** The types in Rust

    What a message that has been parsed can hold. *)
Definition u256 (n : N) : bool := (n <=? u256_max)%N.
Definition u64 (n : N) : bool := (n <=? u64_max)%N.
Definition u32 (n : N) : bool := (n <=? u32_max)%N.
Definition u16 (n : N) : bool := (n <=? u16_max)%N.
Definition duration_typed (d : Duration) : bool := match d with DurHeight n | DurTime n => u64 n end.
Definition forwarder_typed (c : EvmForwarder.LibraryConfig) : bool :=
  forallb (λ f, u256 (EvmForwarder.max_amount f)) (EvmForwarder.forwarding_configs c) &&
  from_option duration_typed true (Forwarder.min_interval (EvmForwarder.forwarding_constraints c)).
Definition cctp_typed (c : EvmCctpTransfer.LibraryConfig) : bool :=
  u256 (EvmCctpTransfer.amount c) && u32 (EvmCctpTransfer.destination_domain c).
Definition stargate_typed (c : EvmStargateTransfer.LibraryConfig) : bool :=
  u256 (EvmStargateTransfer.amount c) && u32 (EvmStargateTransfer.destination_domain c) &&
  u256 (default 0%N (EvmStargateTransfer.min_amount_to_receive c)).
Definition aave_typed (c : EvmAavePositionManager.LibraryConfig) : bool :=
  u16 (default 0%N (EvmAavePositionManager.referral_code c)).
Definition aave_function_typed (f : EvmAavePositionManager.FunctionMsgs) : bool :=
  match f with
  | EvmAavePositionManager.Supply n | EvmAavePositionManager.Borrow n | EvmAavePositionManager.Withdraw n
  | EvmAavePositionManager.Repay n | EvmAavePositionManager.RepayWithShares n => u256 n
  end.
Definition balancer_function_typed (f : EvmBalancerV2Swap.FunctionMsgs) : bool :=
  match f with
  | EvmBalancerV2Swap.Swap _ _ _ a m t _ | EvmBalancerV2Swap.MultiSwap _ _ a m t _ => u256 a && u256 m && u256 t
  end.
Definition bridge_typed (c : EvmStandardBridgeTransfer.LibraryConfig) : bool :=
  u256 (EvmStandardBridgeTransfer.amount c) && u32 (EvmStandardBridgeTransfer.gas_limit c).
Definition eureka_typed (c : EvmIbcEurekaTransfer.LibraryConfig) : bool :=
  u256 (EvmIbcEurekaTransfer.amount c) && u256 (EvmIbcEurekaTransfer.min_amount_out c) &&
  u64 (EvmIbcEurekaTransfer.timeout c).
Definition eureka_function_typed (f : EvmIbcEurekaTransfer.FunctionMsgs) : bool :=
  match f with
  | EvmIbcEurekaTransfer.Transfer fees _ | EvmIbcEurekaTransfer.LombardTransfer fees _ =>
      u256 (EvmIbcEurekaTransfer.relay_fee fees) && u64 (EvmIbcEurekaTransfer.quote_expiry fees)
  end.
Definition pancake_typed (c : EvmPancakeV3PositionManager.LibraryConfig) : bool :=
  u32 (EvmPancakeV3PositionManager.pool_fee c) && u16 (EvmPancakeV3PositionManager.slippage_bps c) &&
  u256 (EvmPancakeV3PositionManager.timeout c).
Definition pancake_function_typed (f : EvmPancakeV3PositionManager.FunctionMsgs) : bool :=
  match f with
  | EvmPancakeV3PositionManager.CreatePosition _ _ a b => u256 a && u256 b
  | EvmPancakeV3PositionManager.WithdrawPosition n => u256 n
  end.
(** The parser gives values of the types. *)
Definition msg_typed {F U} (function : F → bool) (config : U → bool) (m : LibExecuteMsg F U) : bool :=
  match m with ProcessFunction f => function f | UpdateConfig u => config u | _ => true end.
Class SerdeTyped {F U} `{SerdeFrom (LibExecuteMsg F U)} (function : F → bool) (config : U → bool) : Prop :=
  serde_typed b m : serde_from_slice b = Some m → msg_typed function config m = true.
Class EvmSerdeLaws `{EvmCodec} : Prop := {
  typed_forwarder :: SerdeTyped (λ _, true) forwarder_typed;
  typed_cctp :: SerdeTyped (λ _, true) cctp_typed;
  typed_stargate :: SerdeTyped (λ _, true) stargate_typed;
  typed_aave :: SerdeTyped aave_function_typed aave_typed;
  typed_balancer :: SerdeTyped balancer_function_typed (λ _, true);
  typed_bridge :: SerdeTyped (λ _, true) bridge_typed;
  typed_eureka :: SerdeTyped eureka_function_typed eureka_typed;
  typed_pancake :: SerdeTyped pancake_function_typed pancake_typed;
}.

(** ** The types in Solidity *)
Notation address_ok := Sol.address_fits.
Definition bytes32 (b : Binary) : Prop := length b = 32.
Definition int24 (z : Z) : Prop := (MIN_INT24 ≤ z ≤ MAX_INT24)%Z.
#[global] Instance ForwarderConfig_sol : SolType ForwarderConfig := λ c,
  address_ok (fo_inputAccount c) ∧ address_ok (fo_outputAccount c) ∧ (minInterval c ≤ u64_max)%N ∧
  Forall (λ f, address_ok (tokenAddress f) ∧ (maxAmount f ≤ u256_max)%N) (forwardingConfigs c).
#[global] Instance CCTPTransferConfig_sol : SolType CCTPTransferConfig := λ c,
  (ct_amount c ≤ u256_max)%N ∧ bytes32 (ct_mintRecipient c) ∧ address_ok (ct_inputAccount c) ∧
  (ct_destinationDomain c ≤ u32_max)%N ∧ address_ok (ct_cctpTokenMessenger c) ∧ address_ok (ct_transferToken c).
#[global] Instance StargateTransferConfig_sol : SolType StargateTransferConfig := λ c,
  bytes32 (sg_recipient c) ∧ address_ok (sg_inputAccount c) ∧ (sg_destinationDomain c ≤ u32_max)%N ∧
  address_ok (sg_stargateAddress c) ∧ address_ok (sg_transferToken c) ∧ (sg_amount c ≤ u256_max)%N ∧
  (sg_minAmountToReceive c ≤ u256_max)%N ∧ address_ok (sg_refundAddress c).
#[global] Instance AavePositionManagerConfig_sol : SolType AavePositionManagerConfig := λ c,
  address_ok (aa_poolAddress c) ∧ address_ok (aa_inputAccount c) ∧ address_ok (aa_outputAccount c) ∧
  address_ok (aa_supplyAsset c) ∧ address_ok (aa_borrowAsset c) ∧ (aa_referralCode c ≤ u16_max)%N.
#[global] Instance BalancerV2SwapConfig_sol : SolType BalancerV2SwapConfig := λ c,
  address_ok (ba_inputAccount c) ∧ address_ok (ba_outputAccount c) ∧ address_ok (ba_vaultAddress c).
#[global] Instance StandardBridgeTransferConfig_sol : SolType StandardBridgeTransferConfig := λ c,
  (sb_amount c ≤ u256_max)%N ∧ address_ok (sb_inputAccount c) ∧ address_ok (sb_recipient c) ∧
  address_ok (sb_standardBridge c) ∧ address_ok (sb_token c) ∧ address_ok (sb_remoteToken c) ∧
  (sb_minGasLimit c ≤ u32_max)%N.
#[global] Instance IBCEurekaTransferConfig_sol : SolType IBCEurekaTransferConfig := λ c,
  (eu_amount c ≤ u256_max)%N ∧ (eu_minAmountOut c ≤ u256_max)%N ∧ address_ok (eu_transferToken c) ∧
  address_ok (eu_inputAccount c) ∧ (eu_timeout c ≤ u64_max)%N ∧ address_ok (eu_eurekaHandler c).
#[global] Instance PancakeConfig_sol : SolType PancakeSwapV3PositionManagerConfig := λ c,
  address_ok (pa_inputAccount c) ∧ address_ok (pa_outputAccount c) ∧ address_ok (pa_positionManager c) ∧
  address_ok (pa_masterChef c) ∧ address_ok (pa_token0 c) ∧ address_ok (pa_token1 c) ∧
  (poolFee c ≤ u24_max)%N ∧ (slippageBps c ≤ u16_max)%N ∧ (pa_timeout c ≤ u256_max)%N.
Definition fees_fit (f : EvmFees) : Prop :=
  (relayFee f ≤ u256_max)%N ∧ address_ok (relayFeeRecipient f) ∧ (quoteExpiry f ≤ u64_max)%N.
(** The arguments of a call, with [P] for a configuration, which is bytes in the call. *)
Definition call_fits (P : Binary → Prop) (c : SolCall) : Prop :=
  match c with
  | updateProcessorCall a | transferOwnershipCall a => address_ok a
  | updateConfigCall b => P b
  | renounceOwnershipCall | forwardCall | transferCall => True
  | supplyCall n | borrowCall n | withdrawCall n | repayCall n | repayWithSharesCall n
  | withdrawPositionCall n => (n ≤ u256_max)%N
  | swapCall p ti to _ a m t =>
      bytes32 p ∧ address_ok ti ∧ address_ok to ∧ (a ≤ u256_max ∧ m ≤ u256_max ∧ t ≤ u256_max)%N
  | multiSwapCall ps ts _ a m t =>
      Forall bytes32 ps ∧ Forall address_ok ts ∧ (a ≤ u256_max ∧ m ≤ u256_max ∧ t ≤ u256_max)%N
  | eurekaTransferCall f _ | lombardTransferCall f _ => fees_fit f
  | createPositionCall l u a b => int24 l ∧ int24 u ∧ (a ≤ u256_max ∧ b ≤ u256_max)%N
  end.

Section Calls.
Context `{EvmCodec} `{!EvmCodecLaws}.

(** ** What a message asks for

    The calls and configurations that the libraries on an EVM chain have to be sent for a
    message, field by field: the address that a text denotes, the same amounts, the same
    bytes. *)
Definition at_text (text : string) (a : EvmAddress) : Prop := address_from_str text = Ok a.
Definition at_account (l : LibraryAccountType) (a : EvmAddress) : Prop := ∃ text, l = LibAddr text ∧ at_text text a.
Definition only_call {F} (call : SolCall) (f : F) (c : SolCall) : Prop := c = call.
Definition aave_asks (f : EvmAavePositionManager.FunctionMsgs) (c : SolCall) : Prop :=
  match f with
  | EvmAavePositionManager.Supply n => c = supplyCall n
  | EvmAavePositionManager.Borrow n => c = borrowCall n
  | EvmAavePositionManager.Withdraw n => c = withdrawCall n
  | EvmAavePositionManager.Repay n => c = repayCall n
  | EvmAavePositionManager.RepayWithShares n => c = repayWithSharesCall n
  end.
Definition balancer_asks (f : EvmBalancerV2Swap.FunctionMsgs) (c : SolCall) : Prop :=
  match f with
  | EvmBalancerV2Swap.Swap pool tin tout amount least timeout data =>
      ∃ a b, bytes32 pool ∧ at_text tin a ∧ at_text tout b ∧ c = swapCall pool a b data amount least timeout
  | EvmBalancerV2Swap.MultiSwap pools tokens amount least timeout data =>
      ∃ ts, Forall bytes32 pools ∧ Forall2 at_text tokens ts ∧ c = multiSwapCall pools ts data amount least timeout
  end.
Definition fees_asked (f : EvmIbcEurekaTransfer.Fees) (f' : EvmFees) : Prop :=
  relayFee f' = EvmIbcEurekaTransfer.relay_fee f ∧
  at_text (EvmIbcEurekaTransfer.relay_fee_recipient f) (relayFeeRecipient f') ∧
  quoteExpiry f' = EvmIbcEurekaTransfer.quote_expiry f.
Definition eureka_asks (f : EvmIbcEurekaTransfer.FunctionMsgs) (c : SolCall) : Prop :=
  match f with
  | EvmIbcEurekaTransfer.Transfer fees memo => ∃ f', fees_asked fees f' ∧ c = eurekaTransferCall f' memo
  | EvmIbcEurekaTransfer.LombardTransfer fees memo => ∃ f', fees_asked fees f' ∧ c = lombardTransferCall f' memo
  end.
Definition pancake_asks (f : EvmPancakeV3PositionManager.FunctionMsgs) (c : SolCall) : Prop :=
  match f with
  | EvmPancakeV3PositionManager.CreatePosition l u a b => int24 l ∧ int24 u ∧ c = createPositionCall l u a b
  | EvmPancakeV3PositionManager.WithdrawPosition n => c = withdrawPositionCall n
  end.
Definition interval_asked (c : Forwarder.ForwardingConstraints) (ty : IntervalType) (n : N) : Prop :=
  match Forwarder.min_interval c with
  | Some (DurHeight blocks) => ty = BLOCKS ∧ n = blocks
  | Some (DurTime seconds) => ty = TIME ∧ n = seconds
  | None => ty = TIME ∧ n = 0%N
  end.
Definition forwarder_config (u : EvmForwarder.LibraryConfig) (x : ForwarderConfig) : Prop :=
  at_account (EvmForwarder.input_addr u) (fo_inputAccount x) ∧
  at_account (EvmForwarder.output_addr u) (fo_outputAccount x) ∧
  Forall2 (λ f f', at_text (EvmForwarder.token_address f) (tokenAddress f') ∧ maxAmount f' = EvmForwarder.max_amount f)
    (EvmForwarder.forwarding_configs u) (forwardingConfigs x) ∧
  interval_asked (EvmForwarder.forwarding_constraints u) (intervalType x) (minInterval x).
Definition cctp_config (u : EvmCctpTransfer.LibraryConfig) (x : CCTPTransferConfig) : Prop :=
  ct_amount x = EvmCctpTransfer.amount u ∧ ct_mintRecipient x = EvmCctpTransfer.mint_recipient u ∧
  bytes32 (ct_mintRecipient x) ∧ at_account (EvmCctpTransfer.input_addr u) (ct_inputAccount x) ∧
  ct_destinationDomain x = EvmCctpTransfer.destination_domain u ∧
  at_text (EvmCctpTransfer.cctp_token_messenger u) (ct_cctpTokenMessenger x) ∧
  at_text (EvmCctpTransfer.transfer_token u) (ct_transferToken x).
(** Without a refund address, the input account is refunded. *)
Definition stargate_config (u : EvmStargateTransfer.LibraryConfig) (x : StargateTransferConfig) : Prop :=
  sg_recipient x = EvmStargateTransfer.recipient u ∧ bytes32 (sg_recipient x) ∧
  at_account (EvmStargateTransfer.input_addr u) (sg_inputAccount x) ∧
  sg_destinationDomain x = EvmStargateTransfer.destination_domain u ∧
  at_text (EvmStargateTransfer.stargate_address u) (sg_stargateAddress x) ∧
  at_text (EvmStargateTransfer.transfer_token u) (sg_transferToken x) ∧
  sg_amount x = EvmStargateTransfer.amount u ∧
  sg_minAmountToReceive x = default 0%N (EvmStargateTransfer.min_amount_to_receive u) ∧
  match EvmStargateTransfer.refund_address u with
  | Some text => at_text text (sg_refundAddress x)
  | None => sg_refundAddress x = sg_inputAccount x
  end ∧
  sg_extraOptions x = default [] (EvmStargateTransfer.extra_options u) ∧
  sg_composeMsg x = default [] (EvmStargateTransfer.compose_msg u) ∧
  sg_oftCmd x = default [] (EvmStargateTransfer.oft_cmd u).
Definition aave_config (u : EvmAavePositionManager.LibraryConfig) (x : AavePositionManagerConfig) : Prop :=
  at_text (EvmAavePositionManager.pool u) (aa_poolAddress x) ∧
  at_account (EvmAavePositionManager.input_addr u) (aa_inputAccount x) ∧
  at_account (EvmAavePositionManager.output_addr u) (aa_outputAccount x) ∧
  at_text (EvmAavePositionManager.supply_asset u) (aa_supplyAsset x) ∧
  at_text (EvmAavePositionManager.borrow_asset u) (aa_borrowAsset x) ∧
  aa_referralCode x = default 0%N (EvmAavePositionManager.referral_code u).
Definition balancer_config (u : EvmBalancerV2Swap.LibraryConfig) (x : BalancerV2SwapConfig) : Prop :=
  at_account (EvmBalancerV2Swap.input_addr u) (ba_inputAccount x) ∧
  at_account (EvmBalancerV2Swap.output_addr u) (ba_outputAccount x) ∧
  at_text (EvmBalancerV2Swap.vault u) (ba_vaultAddress x).
Definition bridge_config (u : EvmStandardBridgeTransfer.LibraryConfig) (x : StandardBridgeTransferConfig) : Prop :=
  sb_amount x = EvmStandardBridgeTransfer.amount u ∧
  at_account (EvmStandardBridgeTransfer.input_addr u) (sb_inputAccount x) ∧
  at_text (EvmStandardBridgeTransfer.recipient u) (sb_recipient x) ∧
  at_text (EvmStandardBridgeTransfer.standard_bridge_address u) (sb_standardBridge x) ∧
  at_text (EvmStandardBridgeTransfer.transfer_token u) (sb_token x) ∧
  at_text (EvmStandardBridgeTransfer.remote_token u) (sb_remoteToken x) ∧
  sb_minGasLimit x = EvmStandardBridgeTransfer.gas_limit u ∧
  sb_extraData x = default [] (EvmStandardBridgeTransfer.extra_data u).
Definition eureka_config (u : EvmIbcEurekaTransfer.LibraryConfig) (x : IBCEurekaTransferConfig) : Prop :=
  eu_amount x = EvmIbcEurekaTransfer.amount u ∧ eu_minAmountOut x = EvmIbcEurekaTransfer.min_amount_out u ∧
  at_text (EvmIbcEurekaTransfer.transfer_token u) (eu_transferToken x) ∧
  at_account (EvmIbcEurekaTransfer.input_addr u) (eu_inputAccount x) ∧
  eu_recipient x = EvmIbcEurekaTransfer.recipient u ∧ eu_sourceClient x = EvmIbcEurekaTransfer.source_client u ∧
  eu_timeout x = EvmIbcEurekaTransfer.timeout u ∧
  at_text (EvmIbcEurekaTransfer.eureka_handler_address u) (eu_eurekaHandler x).
Definition pancake_config (u : EvmPancakeV3PositionManager.LibraryConfig)
    (x : PancakeSwapV3PositionManagerConfig) : Prop :=
  at_account (EvmPancakeV3PositionManager.input_addr u) (pa_inputAccount x) ∧
  at_account (EvmPancakeV3PositionManager.output_addr u) (pa_outputAccount x) ∧
  at_text (EvmPancakeV3PositionManager.position_manager u) (pa_positionManager x) ∧
  at_text (EvmPancakeV3PositionManager.master_chef u) (pa_masterChef x) ∧
  at_text (EvmPancakeV3PositionManager.token0 u) (pa_token0 x) ∧
  at_text (EvmPancakeV3PositionManager.token1 u) (pa_token1 x) ∧
  poolFee x = EvmPancakeV3PositionManager.pool_fee u ∧ slippageBps x = EvmPancakeV3PositionManager.slippage_bps u ∧
  pa_timeout x = EvmPancakeV3PositionManager.timeout u.
(** The call of a message: its function, its configuration, or what all libraries have. *)
Definition message_asks {F U T} `{SolValue T} (function : F → SolCall → Prop) (config : U → T → Prop)
    (m : LibExecuteMsg F U) (c : SolCall) : Prop :=
  match m with
  | ProcessFunction f => function f c
  | UpdateConfig u => ∃ x, config u x ∧ c = updateConfigCall (abi_encode x)
  | UpdateProcessor p => ∃ a, at_text p a ∧ c = updateProcessorCall a
  | LibUpdateOwnership (TransferOwnership owner _) => ∃ a, at_text owner a ∧ c = transferOwnershipCall a
  | LibUpdateOwnership AcceptOwnership => False
  | LibUpdateOwnership RenounceOwnership => c = renounceOwnershipCall
  end.
Definition bytes_ask {F U T} `{SolValue T} `{SerdeFrom (LibExecuteMsg F U)} (function : F → SolCall → Prop)
    (config : U → T → Prop) (msg : Binary) (c : SolCall) : Prop :=
  ∃ m, serde_from_slice msg = Some m ∧ message_asks function config m c.
Definition library_asks (library : EVMLibrary) : Binary → SolCall → Prop :=
  match library with
  | NoLibrary => λ _ _, False
  | LibForwarder => bytes_ask (only_call forwardCall) forwarder_config
  | LibCctpTransfer => bytes_ask (only_call transferCall) cctp_config
  | LibStargateTransfer => bytes_ask (only_call transferCall) stargate_config
  | LibAavePositionManager => bytes_ask aave_asks aave_config
  | LibBalancerV2Swap => bytes_ask balancer_asks balancer_config
  | LibStandardBridgeTransfer => bytes_ask (only_call transferCall) bridge_config
  | LibIbcEurekaTransfer => bytes_ask eureka_asks eureka_config
  | LibPancakeV3PositionManager => bytes_ask pancake_asks pancake_config
  end.

(** ** What fits *)

(** The encoding of a configuration that fits. *)
Definition config_fits (T : Type) `{SolType T} `{SolValue T} (b : Binary) : Prop :=
  ∃ x : T, b = abi_encode x ∧ sol_fits x.
(** The configuration that a library is sent.  The pool fee of the position manager is the
    exception: 24 bits in Solidity, 32 in the message, and not checked. *)
Definition config_sent (library : EVMLibrary) : Binary → Prop :=
  match library with
  | NoLibrary => λ _, False
  | LibForwarder => config_fits ForwarderConfig
  | LibCctpTransfer => config_fits CCTPTransferConfig
  | LibStargateTransfer => config_fits StargateTransferConfig
  | LibAavePositionManager => config_fits AavePositionManagerConfig
  | LibBalancerV2Swap => config_fits BalancerV2SwapConfig
  | LibStandardBridgeTransfer => config_fits StandardBridgeTransferConfig
  | LibIbcEurekaTransfer => config_fits IBCEurekaTransferConfig
  | LibPancakeV3PositionManager => λ b, ∃ x : PancakeSwapV3PositionManagerConfig,
      b = abi_encode x ∧ (sol_fits x ↔ (poolFee x ≤ u24_max)%N)
  end.

Lemma parse_address_fits text a : parse_address text = Ok a → address_ok a.
Proof. intros Ha%map_err_r_ok. by eapply address_from_str_fits. Qed.
Lemma account_address_fits l a : account_address l = Ok a → address_ok a.
Proof. intros (text & _ & Ha)%bind_result_ok. by eapply parse_address_fits. Qed.
Lemma to_fixed_bytes_fits b b' : to_fixed_bytes b = Ok b' → b' = b ∧ bytes32 b'.
Proof. unfold to_fixed_bytes. case_bool_decide; intros; by simplify_eq. Qed.
Lemma validate_i24_value_fits z z' : validate_i24_value z = Ok z' → z' = z ∧ int24 z'.
Proof.
  unfold validate_i24_value, int24. destruct (_ && _)%bool eqn:Hz; intros; simplify_eq.
  apply andb_true_iff in Hz. rewrite !Z.leb_le in Hz. done.
Qed.
(** Solves the goals on parsed values. *)
Ltac fits :=
  repeat match goal with
  | Hb : mbind _ _ = Ok _ |- _ => apply bind_result_ok in Hb as (? & ? & ?)
  | Hb : Ok _ = Ok _ |- _ => injection Hb as <-
  | Hb : parse_address _ = Ok _ |- _ => apply parse_address_fits in Hb
  | Hb : account_address _ = Ok _ |- _ => apply account_address_fits in Hb
  | Hb : to_fixed_bytes _ = Ok _ |- _ => apply to_fixed_bytes_fits in Hb as [-> Hb]
  | Hb : validate_i24_value _ = Ok _ |- _ => apply validate_i24_value_fits in Hb as [-> Hb]
  | Hb : (_ && _)%bool = true |- _ => apply andb_true_iff in Hb as [? ?]
  | Hb : (_ <=? _)%N = true |- _ => apply N.leb_le in Hb
  end; try lazymatch goal with |- sol_fits _ => hnf end; cbn [call_fits]; split_and?; simpl; try done.

(** The configurations. *)
Lemma encode_forwarding_fits cs fs :
  forallb (λ f, u256 (EvmForwarder.max_amount f)) cs = true → mapM EvmForwarder.encode_forwarding cs = Ok fs →
  Forall (λ f, address_ok (tokenAddress f) ∧ (maxAmount f ≤ u256_max)%N) fs.
Proof.
  intros Hc Hf%mapM_result_Forall2. induction Hf as [|c f cs fs Hf _ IH]; constructor.
  - simpl in Hc. unfold EvmForwarder.encode_forwarding in Hf. unfold u256 in Hc. fits.
  - apply IH. simpl in Hc. by apply andb_true_iff in Hc as [_ ?].
Qed.
Lemma encode_interval_fits c :
  from_option duration_typed true (Forwarder.min_interval c) = true →
  ((EvmForwarder.encode_interval c).2 ≤ u64_max)%N.
Proof.
  unfold EvmForwarder.encode_interval. destruct (Forwarder.min_interval c) as [[n|n]|]; [by intros ?%N.leb_le..|done].
Qed.
Lemma forwarder_config_fits c x : forwarder_typed c = true → EvmForwarder.build_config c = Ok x → sol_fits x.
Proof.
  unfold EvmForwarder.build_config. intros [Hm Hi]%andb_true_iff Hb.
  apply bind_result_ok in Hb as (i & Hin%account_address_fits & (o & Ho%account_address_fits & Hb)%bind_result_ok).
  apply bind_result_ok in Hb as (fs & Hf%encode_forwarding_fits & Hb); [|done].
  apply encode_interval_fits in Hi. destruct (EvmForwarder.encode_interval _) as [ty n]. simplify_eq. fits.
Qed.
Lemma cctp_config_fits c x : cctp_typed c = true → EvmCctpTransfer.build_config c = Ok x → sol_fits x.
Proof. unfold EvmCctpTransfer.build_config, cctp_typed, u256, u32. intros. fits. Qed.
Lemma stargate_config_fits c x :
  stargate_typed c = true → EvmStargateTransfer.build_config c = Ok x → sol_fits x.
Proof.
  unfold EvmStargateTransfer.build_config, stargate_typed, u256, u32. intros.
  destruct (EvmStargateTransfer.refund_address c); fits.
Qed.
Lemma aave_config_fits c x :
  aave_typed c = true → EvmAavePositionManager.build_config c = Ok x → sol_fits x.
Proof. unfold EvmAavePositionManager.build_config, aave_typed, u16. intros. fits. Qed.
Lemma balancer_config_fits c x : EvmBalancerV2Swap.build_config c = Ok x → sol_fits x.
Proof. unfold EvmBalancerV2Swap.build_config. intros. fits. Qed.
Lemma bridge_config_fits c x :
  bridge_typed c = true → EvmStandardBridgeTransfer.build_config c = Ok x → sol_fits x.
Proof. unfold EvmStandardBridgeTransfer.build_config, bridge_typed, u256, u32. intros. fits. Qed.
Lemma eureka_config_fits c x :
  eureka_typed c = true → EvmIbcEurekaTransfer.build_config c = Ok x → sol_fits x.
Proof. unfold EvmIbcEurekaTransfer.build_config, eureka_typed, u256, u64. intros. fits. Qed.
Lemma pancake_config_fits c x :
  pancake_typed c = true → EvmPancakeV3PositionManager.build_config c = Ok x →
  poolFee x = EvmPancakeV3PositionManager.pool_fee c ∧ (sol_fits x ↔ (poolFee x ≤ u24_max)%N).
Proof.
  unfold EvmPancakeV3PositionManager.build_config, pancake_typed, u256, u32, u16. intros.
  fits. split; [by intros (_ & _ & _ & _ & _ & _ & Hf & _)|]. intros. fits.
Qed.

(** The functions. *)
Lemma aave_call_fits P f :
  aave_function_typed f = true → call_fits P (EvmAavePositionManager.build_call f).
Proof. by destruct f; intros ?%N.leb_le. Qed.
Lemma mapM_Forall_result {A B} (f : A → result StdError B) (Q : B → Prop) l k :
  (∀ x y, f x = Ok y → Q y) → mapM f l = Ok k → Forall Q k.
Proof. intros Hf Hm%mapM_result_Forall2. induction Hm; constructor; [by eapply Hf|done]. Qed.
Lemma balancer_call_fits P f c :
  balancer_function_typed f = true → EvmBalancerV2Swap.build_call f = Ok c → call_fits P c.
Proof.
  destruct f; simpl; unfold u256; intros; fits.
  - by eapply mapM_Forall_result; [|done]; intros ? ? [_ ?]%to_fixed_bytes_fits.
  - by eapply mapM_Forall_result; [|done]; intros ? ? ?%parse_address_fits.
Qed.
Lemma eureka_call_fits P f c :
  eureka_function_typed f = true → EvmIbcEurekaTransfer.build_call f = Ok c → call_fits P c.
Proof. destruct f; simpl; unfold EvmIbcEurekaTransfer.build_fees, u256, u64; intros; fits. Qed.
Lemma pancake_call_fits P f c :
  pancake_function_typed f = true → EvmPancakeV3PositionManager.build_call f = Ok c → call_fits P c.
Proof. destruct f; simpl; unfold u256; intros; fits. Qed.

(** ** The code, exactly *)
Lemma parse_address_iff text a : parse_address text = Ok a ↔ at_text text a.
Proof. apply map_err_r_ok. Qed.
Lemma account_address_iff l a : account_address l = Ok a ↔ at_account l a.
Proof.
  unfold account_address, at_account. rewrite bind_result_iff. setoid_rewrite parse_address_iff.
  destruct l; simpl; naive_solver.
Qed.
Lemma to_fixed_bytes_iff b b' : to_fixed_bytes b = Ok b' ↔ b' = b ∧ bytes32 b.
Proof. unfold to_fixed_bytes, bytes32. case_bool_decide; naive_solver. Qed.
Lemma validate_i24_value_iff z z' : validate_i24_value z = Ok z' ↔ z' = z ∧ int24 z.
Proof.
  unfold validate_i24_value, int24. destruct (_ && _)%bool eqn:Hz; [apply andb_true_iff in Hz|apply andb_false_iff in Hz];
    rewrite ?Z.leb_le, ?Z.leb_gt in Hz; naive_solver lia.
Qed.
Lemma Ok_iff {E A} (a b : A) : (Ok a : result E A) = Ok b ↔ a = b.
Proof. naive_solver. Qed.
(** Brings a run of the code to the fields that it reads. *)
Ltac exact_fields :=
  repeat first [setoid_rewrite account_address_iff | setoid_rewrite parse_address_iff
    | setoid_rewrite to_fixed_bytes_iff | setoid_rewrite validate_i24_value_iff | setoid_rewrite bind_result_iff
    | setoid_rewrite Ok_iff].
#[local] Opaque account_address parse_address.
(** A struct is built if and only if its fields are as they should. *)
Ltac same_fields :=
  split;
  [ intros; repeat match goal with Hx : ∃ _, _ |- _ => destruct Hx | Hx : _ ∧ _ |- _ => destruct Hx end;
    match goal with Hx : _ = _ |- _ => injection Hx; clear Hx; intros end; subst; by split_and!
  | intros; destruct_and?; subst; eauto 30 ].
Lemma mapM_iff {A B} (f : A → result StdError B) (R : A → B → Prop) l k :
  (∀ x y, f x = Ok y ↔ R x y) → mapM f l = Ok k ↔ Forall2 R l k.
Proof. intros Hf. rewrite mapM_result_Forall2. split; intros Hm; (eapply Forall2_impl; [exact Hm|]); intros; by apply Hf. Qed.
Lemma forwarder_config_iff u x : EvmForwarder.build_config u = Ok x ↔ forwarder_config u x.
Proof.
  unfold EvmForwarder.build_config, forwarder_config.
  assert (∀ k, mapM EvmForwarder.encode_forwarding (EvmForwarder.forwarding_configs u) = Ok k ↔ Forall2 (λ f f',
    at_text (EvmForwarder.token_address f) (tokenAddress f') ∧ maxAmount f' = EvmForwarder.max_amount f)
    (EvmForwarder.forwarding_configs u) k) as Hm.
  { intros k. apply mapM_iff. intros f f'. unfold EvmForwarder.encode_forwarding. exact_fields. destruct f'. naive_solver. }
  unfold EvmForwarder.encode_interval, interval_asked.
  exact_fields. setoid_rewrite Hm. destruct x.
  destruct (Forwarder.min_interval _) as [[]|]; setoid_rewrite Ok_iff; simpl; naive_solver.
Qed.
Lemma cctp_config_iff u x : EvmCctpTransfer.build_config u = Ok x ↔ cctp_config u x.
Proof. unfold EvmCctpTransfer.build_config, cctp_config. exact_fields. destruct x. simpl. same_fields. Qed.
Lemma stargate_config_iff u x : EvmStargateTransfer.build_config u = Ok x ↔ stargate_config u x.
Proof.
  unfold EvmStargateTransfer.build_config, stargate_config.
  destruct (EvmStargateTransfer.refund_address u); exact_fields; destruct x; simpl; same_fields.
Qed.
Lemma aave_config_iff u x : EvmAavePositionManager.build_config u = Ok x ↔ aave_config u x.
Proof. unfold EvmAavePositionManager.build_config, aave_config. exact_fields. destruct x. simpl. same_fields. Qed.
Lemma balancer_config_iff u x : EvmBalancerV2Swap.build_config u = Ok x ↔ balancer_config u x.
Proof. unfold EvmBalancerV2Swap.build_config, balancer_config. exact_fields. destruct x. simpl. same_fields. Qed.
Lemma bridge_config_iff u x : EvmStandardBridgeTransfer.build_config u = Ok x ↔ bridge_config u x.
Proof. unfold EvmStandardBridgeTransfer.build_config, bridge_config. exact_fields. destruct x. simpl. same_fields. Qed.
Lemma eureka_config_iff u x : EvmIbcEurekaTransfer.build_config u = Ok x ↔ eureka_config u x.
Proof. unfold EvmIbcEurekaTransfer.build_config, eureka_config. exact_fields. destruct x. simpl. same_fields. Qed.
Lemma pancake_config_iff u x : EvmPancakeV3PositionManager.build_config u = Ok x ↔ pancake_config u x.
Proof. unfold EvmPancakeV3PositionManager.build_config, pancake_config. exact_fields. destruct x. simpl. same_fields. Qed.
Lemma aave_call_iff f c : EvmAavePositionManager.build_call f = c ↔ aave_asks f c.
Proof. destruct f; simpl; naive_solver. Qed.
Lemma fixed_bytes_all l k : Forall2 (λ b b', b' = b ∧ bytes32 b) l k ↔ k = l ∧ Forall bytes32 l.
Proof.
  split.
  - induction 1 as [|b b' l k [-> Hb] _ [-> IH]]; [by split; [|constructor]|]. by split; [|constructor].
  - intros [-> Hl]. induction Hl; constructor; done.
Qed.
Lemma balancer_call_iff f c : EvmBalancerV2Swap.build_call f = Ok c ↔ balancer_asks f c.
Proof.
  destruct f; simpl; exact_fields; [naive_solver|]. setoid_rewrite (mapM_iff to_fixed_bytes _ _ _ to_fixed_bytes_iff).
  setoid_rewrite (mapM_iff parse_address _ _ _ parse_address_iff). setoid_rewrite fixed_bytes_all. naive_solver.
Qed.
Lemma eureka_call_iff f c : EvmIbcEurekaTransfer.build_call f = Ok c ↔ eureka_asks f c.
Proof.
  assert (∀ g g', EvmIbcEurekaTransfer.build_fees g = Ok g' ↔ fees_asked g g') as Hg.
  { intros g g'. unfold EvmIbcEurekaTransfer.build_fees, fees_asked. exact_fields. destruct g'. simpl. naive_solver. }
  destruct f; simpl; rewrite bind_result_iff; setoid_rewrite Hg; setoid_rewrite Ok_iff; naive_solver.
Qed.
Lemma pancake_call_iff f c : EvmPancakeV3PositionManager.build_call f = Ok c ↔ pancake_asks f c.
Proof. destruct f; simpl; exact_fields; naive_solver. Qed.

(** The messages that all libraries have, around those of one. *)
Lemma encode_library_msg_iff {F U T} `{SolValue T} `{SerdeFrom (LibExecuteMsg F U)} (function : F → SolCall → Prop)
    (config : U → T → Prop) process build msg b :
  (∀ f b, process f = Ok b ↔ ∃ c, function f c ∧ b = call_abi_encode c) →
  (∀ u x, build u = Ok x ↔ config u x) →
  encode_library_msg process (λ u, x ← build u; Ok (abi_encode x)) msg = Ok b ↔
    ∃ c, bytes_ask function config msg c ∧ b = call_abi_encode c.
Proof.
  intros Hp Hu. unfold encode_library_msg, parse_library_msg, bytes_ask. rewrite bind_result_iff.
  destruct (serde_from_slice msg) as [m|]; simpl; [|naive_solver].
  transitivity (∃ c, message_asks function config m c ∧ b = call_abi_encode c); [|naive_solver].
  transitivity (match m with
    | ProcessFunction f => process f
    | UpdateConfig u => cfg ← (x ← build u; Ok (abi_encode x)); Ok (call_abi_encode (updateConfigCall cfg))
    | UpdateProcessor p => get_update_processor_call p
    | LibUpdateOwnership action => get_update_ownership_call action
    end = Ok b); [naive_solver|].
  destruct m as [f|u|p|[o ?| |]]; simpl.
  - apply Hp.
  - exact_fields. setoid_rewrite Hu. naive_solver.
  - unfold get_update_processor_call. exact_fields. naive_solver.
  - exact_fields. naive_solver.
  - naive_solver.
  - rewrite <- selector_encodes by done. naive_solver.
Qed.
Lemma selector_asked {F} (call : SolCall) (f : F) b :
  no_arguments call = true → Ok (SELECTOR call) = (Ok b : result StdError Binary) ↔
    ∃ c, only_call call f c ∧ b = call_abi_encode c.
Proof. intros Hn. rewrite <- (selector_encodes _ Hn). unfold only_call. naive_solver. Qed.
Lemma built_call_asked {F} (build : F → result StdError SolCall) (function : F → SolCall → Prop) f b :
  (∀ f c, build f = Ok c ↔ function f c) →
  (call ← build f; Ok (call_abi_encode call)) = Ok b ↔ ∃ c, function f c ∧ b = call_abi_encode c.
Proof. intros Hf. exact_fields. setoid_rewrite Hf. naive_solver. Qed.
(** The encoders of the libraries. *)
Definition library_encode (library : EVMLibrary) (msg : Binary) : result StdError Binary :=
  match library with
  | NoLibrary => Ok msg
  | LibForwarder => EvmForwarder.encode msg
  | LibCctpTransfer => EvmCctpTransfer.encode msg
  | LibStargateTransfer => EvmStargateTransfer.encode msg
  | LibAavePositionManager => EvmAavePositionManager.encode msg
  | LibBalancerV2Swap => EvmBalancerV2Swap.encode msg
  | LibStandardBridgeTransfer => EvmStandardBridgeTransfer.encode msg
  | LibIbcEurekaTransfer => EvmIbcEurekaTransfer.encode msg
  | LibPancakeV3PositionManager => EvmPancakeV3PositionManager.encode msg
  end.
Lemma library_encoded library msg b :
  library ≠ NoLibrary →
  library_encode library msg = Ok b ↔ ∃ c, library_asks library msg c ∧ b = call_abi_encode c.
Proof.
  intros Hl. destruct library; simpl; [done|..]; apply encode_library_msg_iff.
  - intros [] b'. by apply selector_asked.
  - apply forwarder_config_iff.
  - intros [] b'. by apply selector_asked.
  - apply cctp_config_iff.
  - intros [] b'. by apply selector_asked.
  - apply stargate_config_iff.
  - intros f b'. setoid_rewrite <- aave_call_iff. naive_solver.
  - apply aave_config_iff.
  - intros f b'. apply built_call_asked, balancer_call_iff.
  - apply balancer_config_iff.
  - intros [] b'. by apply selector_asked.
  - apply bridge_config_iff.
  - intros f b'. apply built_call_asked, eureka_call_iff.
  - apply eureka_config_iff.
  - intros f b'. apply built_call_asked, pancake_call_iff.
  - apply pancake_config_iff.
Qed.
Lemma encode_message_iff lib msg b :
  encode_message lib msg = Ok b ↔
  ∃ library, EVMLibrary_parse lib = Some library ∧
    (library = NoLibrary ∧ b = msg ∨ ∃ c, library_asks library msg c ∧ b = call_abi_encode c).
Proof.
  unfold encode_message, get_library. rewrite bind_result_iff.
  destruct (EVMLibrary_parse lib) as [library|]; simpl; [|naive_solver].
  transitivity (library = NoLibrary ∧ b = msg ∨ ∃ c, library_asks library msg c ∧ b = call_abi_encode c); [|naive_solver].
  transitivity (library_encode library msg = Ok b); [naive_solver|].
  destruct (decide (library = NoLibrary)) as [->|Hl]; [|rewrite library_encoded by done; naive_solver].
  simpl. rewrite Ok_iff. naive_solver.
Qed.

(** ** A call that is asked for fits *)
Lemma bytes_ask_fits {F U T} `{SolType T} `{SolValue T} `{SerdeFrom (LibExecuteMsg F U)} ft ut
    `{!SerdeTyped (F:=F) (U:=U) ft ut} (P : Binary → Prop) (function : F → SolCall → Prop) (config : U → T → Prop) msg c :
  (∀ f c, ft f = true → function f c → call_fits P c) →
  (∀ u x, ut u = true → config u x → P (abi_encode x)) →
  bytes_ask function config msg c → call_fits P c.
Proof.
  intros Hf Hu (m & Hm%serde_typed & Ha). destruct m as [f|u|p|[o ?| |]]; simpl in *.
  - by eapply Hf.
  - destruct Ha as (x & Hx & ->). by eapply Hu.
  - destruct Ha as (a & Ha & ->). by eapply address_from_str_fits.
  - destruct Ha as (a & Ha & ->). by eapply address_from_str_fits.
  - done.
  - by subst.
Qed.
(** A configuration is encoded after it was built. *)
Lemma built_config_fits {U T} `{SolType T} `{SolValue T} (build : U → result StdError T) (ut : U → bool)
    (config : U → T → Prop) :
  (∀ u x, build u = Ok x ↔ config u x) → (∀ u x, ut u = true → build u = Ok x → sol_fits x) →
  ∀ u x, ut u = true → config u x → config_fits T (abi_encode x).
Proof. intros Hc Hb u x Hu Hx%Hc. exists x. split; [done|by eapply Hb]. Qed.
Lemma only_call_fits {F} P call (f : F) c : call_fits P call → only_call call f c → call_fits P c.
Proof. by intros Hc ->. Qed.
Lemma library_asks_fits `{!EvmSerdeLaws} library msg c :
  library_asks library msg c → call_fits (config_sent library) c.
Proof.
  destruct library; simpl; [done|..].
  - apply (bytes_ask_fits (λ _, true) forwarder_typed); [by intros [] c' _; apply only_call_fits|].
    eapply built_config_fits; [apply forwarder_config_iff|apply forwarder_config_fits].
  - apply (bytes_ask_fits (λ _, true) cctp_typed); [by intros [] c' _; apply only_call_fits|].
    eapply built_config_fits; [apply cctp_config_iff|apply cctp_config_fits].
  - apply (bytes_ask_fits (λ _, true) stargate_typed); [by intros [] c' _; apply only_call_fits|].
    eapply built_config_fits; [apply stargate_config_iff|apply stargate_config_fits].
  - apply (bytes_ask_fits aave_function_typed aave_typed).
    + intros f c' Hf <-%aave_call_iff. by apply aave_call_fits.
    + eapply built_config_fits; [apply aave_config_iff|apply aave_config_fits].
  - apply (bytes_ask_fits balancer_function_typed (λ _, true)).
    + intros f c' Hf Hc%balancer_call_iff. by eapply balancer_call_fits.
    + eapply built_config_fits; [apply balancer_config_iff|]. by intros u x _ ?%balancer_config_fits.
  - apply (bytes_ask_fits (λ _, true) bridge_typed); [by intros [] c' _; apply only_call_fits|].
    eapply built_config_fits; [apply bridge_config_iff|apply bridge_config_fits].
  - apply (bytes_ask_fits eureka_function_typed eureka_typed).
    + intros f c' Hf Hc%eureka_call_iff. by eapply eureka_call_fits.
    + eapply built_config_fits; [apply eureka_config_iff|apply eureka_config_fits].
  - apply (bytes_ask_fits pancake_function_typed pancake_typed).
    + intros f c' Hf Hc%pancake_call_iff. by eapply pancake_call_fits.
    + intros u x Hu Hx%pancake_config_iff. exists x. split; [done|]. by eapply pancake_config_fits.
Qed.
End Calls.

(** C29 A message for a library of an EVM chain is encoded exactly as the call that it asks
    for.  For one of the eight libraries there is an encoding if and only if the bytes read
    as a message of that library whose texts of addresses denote addresses, whose
    identifiers have 32 bytes and whose ticks are in 24 bits, and it is not an acceptance of
    ownership; then it is that of the call with the function of the message, or of the
    update with its configuration, processor or owner, field by field as the message says.
    Without a library the bytes pass unchanged, and an unknown library is refused.  Nothing
    is cut off: the arguments of such a call fit their types in Solidity, and so does the
    configuration, with one exception: the pool fee of the PancakeSwap position manager, of
    32 bits in the message and 24 in the configuration, is not checked, and that
    configuration fits exactly when the fee does. *)
Theorem library_calls_exact `{EvmCodec} `{!EvmCodecLaws} `{!EvmSerdeLaws} (lib : string) (msg : Binary) :
  (∀ b, encode_message lib msg = Ok b ↔
    ∃ library, EVMLibrary_parse lib = Some library ∧
      (library = NoLibrary ∧ b = msg ∨ ∃ c, library_asks library msg c ∧ b = call_abi_encode c)) ∧
  ∀ library c, library_asks library msg c → call_fits (config_sent library) c.
Proof. split; [intros b; apply encode_message_iff|intros library c; apply library_asks_fits]. Qed.
