(* ===== verification/EvmCodecRef.v ===== *)
(** * A reference encoding for the EVM encoder

    Instances of its interfaces: values as bits, addresses from the length of their text,
    and a parser that keeps to the types. *)
From Stdlib Require Import Strings.Byte.
From S2P Require Import Prelude Platform Types Accounts LibraryBase Forwarder EvmEncoder EvmLibraryCalls.
From S2P Require Import Codec LibraryCodec.

(** ** Values as numbers *)
#[global] Instance Sol_ProcessorMessageType_eq_dec : EqDecision Sol.ProcessorMessageType. Proof. solve_decision. Defined.
#[global] Instance Sol_ProcessorMessageType_countable : Countable Sol.ProcessorMessageType.
Proof.
  by_iso (λ x, match x with
    | Sol.PauseT => (inl ())
    | Sol.ResumeT => (inr (inl ()))
    | Sol.EvictMsgsT => (inr (inr (inl ())))
    | Sol.SendMsgsT => (inr (inr (inr (inl ()))))
    | Sol.InsertMsgsT => (inr (inr (inr (inr ())))) end)
    (λ y, match y with
    | (inl _) => Sol.PauseT
    | (inr (inl _)) => Sol.ResumeT
    | (inr (inr (inl _))) => Sol.EvictMsgsT
    | (inr (inr (inr (inl _)))) => Sol.SendMsgsT
    | (inr (inr (inr (inr _)))) => Sol.InsertMsgsT end).
Defined.
#[global] Instance Sol_ProcessorMessage_eq_dec : EqDecision Sol.ProcessorMessage. Proof. solve_decision. Defined.
#[global] Instance Sol_ProcessorMessage_countable : Countable Sol.ProcessorMessage.
Proof. by_iso (λ '(Sol.mkProcessorMessage a0 a1), (a0, a1)) (λ '(a0, a1), Sol.mkProcessorMessage a0 a1). Defined.
#[global] Instance Sol_Priority_eq_dec : EqDecision Sol.Priority. Proof. solve_decision. Defined.
#[global] Instance Sol_Priority_countable : Countable Sol.Priority.
Proof.
  by_iso (λ x, match x with
    | Sol.Medium => (inl ())
    | Sol.High => (inr ()) end)
    (λ y, match y with
    | (inl _) => Sol.Medium
    | (inr _) => Sol.High end).
Defined.
#[global] Instance Sol_SubroutineType_eq_dec : EqDecision Sol.SubroutineType. Proof. solve_decision. Defined.
#[global] Instance Sol_SubroutineType_countable : Countable Sol.SubroutineType.
Proof.
  by_iso (λ x, match x with
    | Sol.AtomicT => (inl ())
    | Sol.NonAtomicT => (inr ()) end)
    (λ y, match y with
    | (inl _) => Sol.AtomicT
    | (inr _) => Sol.NonAtomicT end).
Defined.
#[global] Instance Sol_Subroutine_eq_dec : EqDecision Sol.Subroutine. Proof. solve_decision. Defined.
#[global] Instance Sol_Subroutine_countable : Countable Sol.Subroutine.
Proof. by_iso (λ '(Sol.mkSubroutine a0 a1), (a0, a1)) (λ '(a0, a1), Sol.mkSubroutine a0 a1). Defined.
#[global] Instance Sol_DurationType_eq_dec : EqDecision Sol.DurationType. Proof. solve_decision. Defined.
#[global] Instance Sol_DurationType_countable : Countable Sol.DurationType.
Proof.
  by_iso (λ x, match x with
    | Sol.HeightT => (inl ())
    | Sol.TimeT => (inr ()) end)
    (λ y, match y with
    | (inl _) => Sol.HeightT
    | (inr _) => Sol.TimeT end).
Defined.
#[global] Instance Sol_Duration_eq_dec : EqDecision Sol.Duration. Proof. solve_decision. Defined.
#[global] Instance Sol_Duration_countable : Countable Sol.Duration.
Proof. by_iso (λ '(Sol.mkDuration a0 a1), (a0, a1)) (λ '(a0, a1), Sol.mkDuration a0 a1). Defined.
#[global] Instance Sol_RetryTimesType_eq_dec : EqDecision Sol.RetryTimesType. Proof. solve_decision. Defined.
#[global] Instance Sol_RetryTimesType_countable : Countable Sol.RetryTimesType.
Proof.
  by_iso (λ x, match x with
    | Sol.NoRetry => (inl ())
    | Sol.IndefinitelyT => (inr (inl ()))
    | Sol.AmountT => (inr (inr ())) end)
    (λ y, match y with
    | (inl _) => Sol.NoRetry
    | (inr (inl _)) => Sol.IndefinitelyT
    | (inr (inr _)) => Sol.AmountT end).
Defined.
#[global] Instance Sol_RetryTimes_eq_dec : EqDecision Sol.RetryTimes. Proof. solve_decision. Defined.
#[global] Instance Sol_RetryTimes_countable : Countable Sol.RetryTimes.
Proof. by_iso (λ '(Sol.mkRetryTimes a0 a1), (a0, a1)) (λ '(a0, a1), Sol.mkRetryTimes a0 a1). Defined.
#[global] Instance Sol_RetryLogic_eq_dec : EqDecision Sol.RetryLogic. Proof. solve_decision. Defined.
#[global] Instance Sol_RetryLogic_countable : Countable Sol.RetryLogic.
Proof. by_iso (λ '(Sol.mkRetryLogic a0 a1), (a0, a1)) (λ '(a0, a1), Sol.mkRetryLogic a0 a1). Defined.
#[global] Instance Sol_AtomicFunction_eq_dec : EqDecision Sol.AtomicFunction. Proof. solve_decision. Defined.
#[global] Instance Sol_AtomicFunction_countable : Countable Sol.AtomicFunction.
Proof. by_iso (λ '(Sol.mkAtomicFunction a0), a0) (λ a0, Sol.mkAtomicFunction a0). Defined.
#[global] Instance Sol_AtomicSubroutine_eq_dec : EqDecision Sol.AtomicSubroutine. Proof. solve_decision. Defined.
#[global] Instance Sol_AtomicSubroutine_countable : Countable Sol.AtomicSubroutine.
Proof. by_iso (λ '(Sol.mkAtomicSubroutine a0 a1), (a0, a1)) (λ '(a0, a1), Sol.mkAtomicSubroutine a0 a1). Defined.
#[global] Instance Sol_FunctionCallback_eq_dec : EqDecision Sol.FunctionCallback. Proof. solve_decision. Defined.
#[global] Instance Sol_FunctionCallback_countable : Countable Sol.FunctionCallback.
Proof. by_iso (λ '(Sol.mkFunctionCallback a0 a1), (a0, a1)) (λ '(a0, a1), Sol.mkFunctionCallback a0 a1). Defined.
#[global] Instance Sol_NonAtomicFunction_eq_dec : EqDecision Sol.NonAtomicFunction. Proof. solve_decision. Defined.
#[global] Instance Sol_NonAtomicFunction_countable : Countable Sol.NonAtomicFunction.
Proof. by_iso (λ '(Sol.mkNonAtomicFunction a0 a1 a2), (a0, a1, a2)) (λ '(a0, a1, a2), Sol.mkNonAtomicFunction a0 a1 a2). Defined.
#[global] Instance Sol_NonAtomicSubroutine_eq_dec : EqDecision Sol.NonAtomicSubroutine. Proof. solve_decision. Defined.
#[global] Instance Sol_NonAtomicSubroutine_countable : Countable Sol.NonAtomicSubroutine.
Proof. by_iso (λ '(Sol.mkNonAtomicSubroutine a0), a0) (λ a0, Sol.mkNonAtomicSubroutine a0). Defined.
#[global] Instance Sol_InsertMsgs_eq_dec : EqDecision Sol.InsertMsgs. Proof. solve_decision. Defined.
#[global] Instance Sol_InsertMsgs_countable : Countable Sol.InsertMsgs.
Proof. by_iso (λ '(Sol.mkInsertMsgs a0 a1 a2 a3 a4 a5), (a0, a1, a2, a3, a4, a5)) (λ '(a0, a1, a2, a3, a4, a5), Sol.mkInsertMsgs a0 a1 a2 a3 a4 a5). Defined.
#[global] Instance Sol_SendMsgs_eq_dec : EqDecision Sol.SendMsgs. Proof. solve_decision. Defined.
#[global] Instance Sol_SendMsgs_countable : Countable Sol.SendMsgs.
Proof. by_iso (λ '(Sol.mkSendMsgs a0 a1 a2 a3 a4), (a0, a1, a2, a3, a4)) (λ '(a0, a1, a2, a3, a4), Sol.mkSendMsgs a0 a1 a2 a3 a4). Defined.
#[global] Instance Sol_EvictMsgs_eq_dec : EqDecision Sol.EvictMsgs. Proof. solve_decision. Defined.
#[global] Instance Sol_EvictMsgs_countable : Countable Sol.EvictMsgs.
Proof. by_iso (λ '(Sol.mkEvictMsgs a0 a1), (a0, a1)) (λ '(a0, a1), Sol.mkEvictMsgs a0 a1). Defined.
#[global] Instance Sol_ExecutionResult_eq_dec : EqDecision Sol.ExecutionResult. Proof. solve_decision. Defined.
#[global] Instance Sol_ExecutionResult_countable : Countable Sol.ExecutionResult.
Proof.
  by_iso (λ x, match x with
    | Sol.Success => (inl ())
    | Sol.Rejected => (inr (inl ()))
    | Sol.PartiallyExecuted => (inr (inr (inl ())))
    | Sol.Expired => (inr (inr (inr ()))) end)
    (λ y, match y with
    | (inl _) => Sol.Success
    | (inr (inl _)) => Sol.Rejected
    | (inr (inr (inl _))) => Sol.PartiallyExecuted
    | (inr (inr (inr _))) => Sol.Expired end).
Defined.
#[global] Instance Sol_Callback_eq_dec : EqDecision Sol.Callback. Proof. solve_decision. Defined.
#[global] Instance Sol_Callback_countable : Countable Sol.Callback.
Proof. by_iso (λ '(Sol.mkCallback a0 a1 a2 a3), (a0, a1, a2, a3)) (λ '(a0, a1, a2, a3), Sol.mkCallback a0 a1 a2 a3). Defined.
#[global] Instance EvmForwardingConfig_eq_dec : EqDecision EvmForwardingConfig. Proof. solve_decision. Defined.
#[global] Instance EvmForwardingConfig_countable : Countable EvmForwardingConfig.
Proof. by_iso (λ '(mkEvmForwardingConfig a0 a1), (a0, a1)) (λ '(a0, a1), mkEvmForwardingConfig a0 a1). Defined.
#[global] Instance IntervalType_eq_dec : EqDecision IntervalType. Proof. solve_decision. Defined.
#[global] Instance IntervalType_countable : Countable IntervalType.
Proof.
  by_iso (λ x, match x with
    | TIME => (inl ())
    | BLOCKS => (inr ()) end)
    (λ y, match y with
    | (inl _) => TIME
    | (inr _) => BLOCKS end).
Defined.
#[global] Instance EForwarderConfig_eq_dec : EqDecision ForwarderConfig. Proof. solve_decision. Defined.
#[global] Instance EForwarderConfig_countable : Countable ForwarderConfig.
Proof. by_iso (λ '(mkForwarderConfig a0 a1 a2 a3 a4), (a0, a1, a2, a3, a4)) (λ '(a0, a1, a2, a3, a4), mkForwarderConfig a0 a1 a2 a3 a4). Defined.
#[global] Instance ECCTP_eq_dec : EqDecision CCTPTransferConfig. Proof. solve_decision. Defined.
#[global] Instance ECCTP_countable : Countable CCTPTransferConfig.
Proof. by_iso (λ '(mkCCTPTransferConfig a0 a1 a2 a3 a4 a5), (a0, a1, a2, a3, a4, a5)) (λ '(a0, a1, a2, a3, a4, a5), mkCCTPTransferConfig a0 a1 a2 a3 a4 a5). Defined.
#[global] Instance EStargate_eq_dec : EqDecision StargateTransferConfig. Proof. solve_decision. Defined.
#[global] Instance EStargate_countable : Countable StargateTransferConfig.
Proof. by_iso (λ '(mkStargateTransferConfig a0 a1 a2 a3 a4 a5 a6 a7 a8 a9 a10), (a0, a1, a2, a3, a4, a5, a6, a7, a8, a9, a10)) (λ '(a0, a1, a2, a3, a4, a5, a6, a7, a8, a9, a10), mkStargateTransferConfig a0 a1 a2 a3 a4 a5 a6 a7 a8 a9 a10). Defined.
#[global] Instance EAave_eq_dec : EqDecision AavePositionManagerConfig. Proof. solve_decision. Defined.
#[global] Instance EAave_countable : Countable AavePositionManagerConfig.
Proof. by_iso (λ '(mkAavePositionManagerConfig a0 a1 a2 a3 a4 a5), (a0, a1, a2, a3, a4, a5)) (λ '(a0, a1, a2, a3, a4, a5), mkAavePositionManagerConfig a0 a1 a2 a3 a4 a5). Defined.
#[global] Instance EBalancer_eq_dec : EqDecision BalancerV2SwapConfig. Proof. solve_decision. Defined.
#[global] Instance EBalancer_countable : Countable BalancerV2SwapConfig.
Proof. by_iso (λ '(mkBalancerV2SwapConfig a0 a1 a2), (a0, a1, a2)) (λ '(a0, a1, a2), mkBalancerV2SwapConfig a0 a1 a2). Defined.
#[global] Instance EBridge_eq_dec : EqDecision StandardBridgeTransferConfig. Proof. solve_decision. Defined.
#[global] Instance EBridge_countable : Countable StandardBridgeTransferConfig.
Proof. by_iso (λ '(mkStandardBridgeTransferConfig a0 a1 a2 a3 a4 a5 a6 a7), (a0, a1, a2, a3, a4, a5, a6, a7)) (λ '(a0, a1, a2, a3, a4, a5, a6, a7), mkStandardBridgeTransferConfig a0 a1 a2 a3 a4 a5 a6 a7). Defined.
#[global] Instance EEureka_eq_dec : EqDecision IBCEurekaTransferConfig. Proof. solve_decision. Defined.
#[global] Instance EEureka_countable : Countable IBCEurekaTransferConfig.
Proof. by_iso (λ '(mkIBCEurekaTransferConfig a0 a1 a2 a3 a4 a5 a6 a7), (a0, a1, a2, a3, a4, a5, a6, a7)) (λ '(a0, a1, a2, a3, a4, a5, a6, a7), mkIBCEurekaTransferConfig a0 a1 a2 a3 a4 a5 a6 a7). Defined.
#[global] Instance EvmFees_eq_dec : EqDecision EvmFees. Proof. solve_decision. Defined.
#[global] Instance EvmFees_countable : Countable EvmFees.
Proof. by_iso (λ '(mkEvmFees a0 a1 a2), (a0, a1, a2)) (λ '(a0, a1, a2), mkEvmFees a0 a1 a2). Defined.
#[global] Instance EPancake_eq_dec : EqDecision PancakeSwapV3PositionManagerConfig. Proof. solve_decision. Defined.
#[global] Instance EPancake_countable : Countable PancakeSwapV3PositionManagerConfig.
Proof. by_iso (λ '(mkPancakeConfig a0 a1 a2 a3 a4 a5 a6 a7 a8), (a0, a1, a2, a3, a4, a5, a6, a7, a8)) (λ '(a0, a1, a2, a3, a4, a5, a6, a7, a8), mkPancakeConfig a0 a1 a2 a3 a4 a5 a6 a7 a8). Defined.
#[global] Instance SolCall_eq_dec : EqDecision SolCall. Proof. solve_decision. Defined.
#[global] Instance SolCall_countable : Countable SolCall.
Proof.
  by_iso (λ x, match x with
    | updateProcessorCall a0 => (inl a0)
    | updateConfigCall a0 => (inr (inl a0))
    | renounceOwnershipCall => (inr (inr (inl ())))
    | transferOwnershipCall a0 => (inr (inr (inr (inl a0))))
    | forwardCall => (inr (inr (inr (inr (inl ())))))
    | transferCall => (inr (inr (inr (inr (inr (inl ()))))))
    | supplyCall a0 => (inr (inr (inr (inr (inr (inr (inl a0)))))))
    | borrowCall a0 => (inr (inr (inr (inr (inr (inr (inr (inl a0))))))))
    | withdrawCall a0 => (inr (inr (inr (inr (inr (inr (inr (inr (inl a0)))))))))
    | repayCall a0 => (inr (inr (inr (inr (inr (inr (inr (inr (inr (inl a0))))))))))
    | repayWithSharesCall a0 => (inr (inr (inr (inr (inr (inr (inr (inr (inr (inr (inl a0)))))))))))
    | swapCall a0 a1 a2 a3 a4 a5 a6 => (inr (inr (inr (inr (inr (inr (inr (inr (inr (inr (inr (inl (a0, a1, a2, a3, a4, a5, a6)))))))))))))
    | multiSwapCall a0 a1 a2 a3 a4 a5 => (inr (inr (inr (inr (inr (inr (inr (inr (inr (inr (inr (inr (inl (a0, a1, a2, a3, a4, a5))))))))))))))
    | eurekaTransferCall a0 a1 => (inr (inr (inr (inr (inr (inr (inr (inr (inr (inr (inr (inr (inr (inl (a0, a1)))))))))))))))
    | lombardTransferCall a0 a1 => (inr (inr (inr (inr (inr (inr (inr (inr (inr (inr (inr (inr (inr (inr (inl (a0, a1))))))))))))))))
    | createPositionCall a0 a1 a2 a3 => (inr (inr (inr (inr (inr (inr (inr (inr (inr (inr (inr (inr (inr (inr (inr (inl (a0, a1, a2, a3)))))))))))))))))
    | withdrawPositionCall a0 => (inr (inr (inr (inr (inr (inr (inr (inr (inr (inr (inr (inr (inr (inr (inr (inr a0)))))))))))))))) end)
    (λ y, match y with
    | (inl a0) => updateProcessorCall a0
    | (inr (inl a0)) => updateConfigCall a0
    | (inr (inr (inl _))) => renounceOwnershipCall
    | (inr (inr (inr (inl a0)))) => transferOwnershipCall a0
    | (inr (inr (inr (inr (inl _))))) => forwardCall
    | (inr (inr (inr (inr (inr (inl _)))))) => transferCall
    | (inr (inr (inr (inr (inr (inr (inl a0))))))) => supplyCall a0
    | (inr (inr (inr (inr (inr (inr (inr (inl a0)))))))) => borrowCall a0
    | (inr (inr (inr (inr (inr (inr (inr (inr (inl a0))))))))) => withdrawCall a0
    | (inr (inr (inr (inr (inr (inr (inr (inr (inr (inl a0)))))))))) => repayCall a0
    | (inr (inr (inr (inr (inr (inr (inr (inr (inr (inr (inl a0))))))))))) => repayWithSharesCall a0
    | (inr (inr (inr (inr (inr (inr (inr (inr (inr (inr (inr (inl (a0, a1, a2, a3, a4, a5, a6))))))))))))) => swapCall a0 a1 a2 a3 a4 a5 a6
    | (inr (inr (inr (inr (inr (inr (inr (inr (inr (inr (inr (inr (inl (a0, a1, a2, a3, a4, a5)))))))))))))) => multiSwapCall a0 a1 a2 a3 a4 a5
    | (inr (inr (inr (inr (inr (inr (inr (inr (inr (inr (inr (inr (inr (inl (a0, a1))))))))))))))) => eurekaTransferCall a0 a1
    | (inr (inr (inr (inr (inr (inr (inr (inr (inr (inr (inr (inr (inr (inr (inl (a0, a1)))))))))))))))) => lombardTransferCall a0 a1
    | (inr (inr (inr (inr (inr (inr (inr (inr (inr (inr (inr (inr (inr (inr (inr (inl (a0, a1, a2, a3))))))))))))))))) => createPositionCall a0 a1 a2 a3
    | (inr (inr (inr (inr (inr (inr (inr (inr (inr (inr (inr (inr (inr (inr (inr (inr a0)))))))))))))))) => withdrawPositionCall a0 end).
Defined.
#[global] Instance EvmForwarder_ForwardingConfig_eq_dec : EqDecision EvmForwarder.ForwardingConfig. Proof. solve_decision. Defined.
#[global] Instance EvmForwarder_ForwardingConfig_countable : Countable EvmForwarder.ForwardingConfig.
Proof. by_iso (λ '(EvmForwarder.mkForwardingConfig a0 a1), (a0, a1)) (λ '(a0, a1), EvmForwarder.mkForwardingConfig a0 a1). Defined.
#[global] Instance Forwarder_constraints_eq_dec : EqDecision Forwarder.ForwardingConstraints. Proof. solve_decision. Defined.
#[global] Instance Forwarder_constraints_countable : Countable Forwarder.ForwardingConstraints.
Proof. by_iso (λ '(Forwarder.mkForwardingConstraints a0), a0) (λ a0, Forwarder.mkForwardingConstraints a0). Defined.
#[global] Instance Forwarder_function_eq_dec : EqDecision Forwarder.FunctionMsgs. Proof. solve_decision. Defined.
#[global] Instance Forwarder_function_countable : Countable Forwarder.FunctionMsgs.
Proof. by_iso (λ '(Forwarder.Forward), ()) (λ '(), Forwarder.Forward). Defined.
#[global] Instance EvmForwarder_config_eq_dec : EqDecision EvmForwarder.LibraryConfig. Proof. solve_decision. Defined.
#[global] Instance EvmForwarder_config_countable : Countable EvmForwarder.LibraryConfig.
Proof. by_iso (λ '(EvmForwarder.mkLibraryConfig a0 a1 a2 a3), (a0, a1, a2, a3)) (λ '(a0, a1, a2, a3), EvmForwarder.mkLibraryConfig a0 a1 a2 a3). Defined.
#[global] Instance EvmCctp_config_eq_dec : EqDecision EvmCctpTransfer.LibraryConfig. Proof. solve_decision. Defined.
#[global] Instance EvmCctp_config_countable : Countable EvmCctpTransfer.LibraryConfig.
Proof. by_iso (λ '(EvmCctpTransfer.mkLibraryConfig a0 a1 a2 a3 a4 a5), (a0, a1, a2, a3, a4, a5)) (λ '(a0, a1, a2, a3, a4, a5), EvmCctpTransfer.mkLibraryConfig a0 a1 a2 a3 a4 a5). Defined.
#[global] Instance EvmCctp_function_eq_dec : EqDecision EvmCctpTransfer.FunctionMsgs. Proof. solve_decision. Defined.
#[global] Instance EvmCctp_function_countable : Countable EvmCctpTransfer.FunctionMsgs.
Proof. by_iso (λ '(EvmCctpTransfer.Transfer), ()) (λ '(), EvmCctpTransfer.Transfer). Defined.
#[global] Instance EvmStargate_config_eq_dec : EqDecision EvmStargateTransfer.LibraryConfig. Proof. solve_decision. Defined.
#[global] Instance EvmStargate_config_countable : Countable EvmStargateTransfer.LibraryConfig.
Proof. by_iso (λ '(EvmStargateTransfer.mkLibraryConfig a0 a1 a2 a3 a4 a5 a6 a7 a8 a9 a10), (a0, a1, a2, a3, a4, a5, a6, a7, a8, a9, a10)) (λ '(a0, a1, a2, a3, a4, a5, a6, a7, a8, a9, a10), EvmStargateTransfer.mkLibraryConfig a0 a1 a2 a3 a4 a5 a6 a7 a8 a9 a10). Defined.
#[global] Instance EvmStargate_function_eq_dec : EqDecision EvmStargateTransfer.FunctionMsgs. Proof. solve_decision. Defined.
#[global] Instance EvmStargate_function_countable : Countable EvmStargateTransfer.FunctionMsgs.
Proof. by_iso (λ '(EvmStargateTransfer.Transfer), ()) (λ '(), EvmStargateTransfer.Transfer). Defined.
#[global] Instance EvmAave_config_eq_dec : EqDecision EvmAavePositionManager.LibraryConfig. Proof. solve_decision. Defined.
#[global] Instance EvmAave_config_countable : Countable EvmAavePositionManager.LibraryConfig.
Proof. by_iso (λ '(EvmAavePositionManager.mkLibraryConfig a0 a1 a2 a3 a4 a5), (a0, a1, a2, a3, a4, a5)) (λ '(a0, a1, a2, a3, a4, a5), EvmAavePositionManager.mkLibraryConfig a0 a1 a2 a3 a4 a5). Defined.
#[global] Instance EvmAave_function_eq_dec : EqDecision EvmAavePositionManager.FunctionMsgs. Proof. solve_decision. Defined.
#[global] Instance EvmAave_function_countable : Countable EvmAavePositionManager.FunctionMsgs.
Proof.
  by_iso (λ x, match x with
    | EvmAavePositionManager.Supply a0 => (inl a0)
    | EvmAavePositionManager.Borrow a0 => (inr (inl a0))
    | EvmAavePositionManager.Withdraw a0 => (inr (inr (inl a0)))
    | EvmAavePositionManager.Repay a0 => (inr (inr (inr (inl a0))))
    | EvmAavePositionManager.RepayWithShares a0 => (inr (inr (inr (inr a0)))) end)
    (λ y, match y with
    | (inl a0) => EvmAavePositionManager.Supply a0
    | (inr (inl a0)) => EvmAavePositionManager.Borrow a0
    | (inr (inr (inl a0))) => EvmAavePositionManager.Withdraw a0
    | (inr (inr (inr (inl a0)))) => EvmAavePositionManager.Repay a0
    | (inr (inr (inr (inr a0)))) => EvmAavePositionManager.RepayWithShares a0 end).
Defined.
#[global] Instance EvmBalancer_config_eq_dec : EqDecision EvmBalancerV2Swap.LibraryConfig. Proof. solve_decision. Defined.
#[global] Instance EvmBalancer_config_countable : Countable EvmBalancerV2Swap.LibraryConfig.
Proof. by_iso (λ '(EvmBalancerV2Swap.mkLibraryConfig a0 a1 a2), (a0, a1, a2)) (λ '(a0, a1, a2), EvmBalancerV2Swap.mkLibraryConfig a0 a1 a2). Defined.
#[global] Instance EvmBalancer_function_eq_dec : EqDecision EvmBalancerV2Swap.FunctionMsgs. Proof. solve_decision. Defined.
#[global] Instance EvmBalancer_function_countable : Countable EvmBalancerV2Swap.FunctionMsgs.
Proof.
  by_iso (λ x, match x with
    | EvmBalancerV2Swap.Swap a0 a1 a2 a3 a4 a5 a6 => (inl (a0, a1, a2, a3, a4, a5, a6))
    | EvmBalancerV2Swap.MultiSwap a0 a1 a2 a3 a4 a5 => (inr (a0, a1, a2, a3, a4, a5)) end)
    (λ y, match y with
    | (inl (a0, a1, a2, a3, a4, a5, a6)) => EvmBalancerV2Swap.Swap a0 a1 a2 a3 a4 a5 a6
    | (inr (a0, a1, a2, a3, a4, a5)) => EvmBalancerV2Swap.MultiSwap a0 a1 a2 a3 a4 a5 end).
Defined.
#[global] Instance EvmBridge_config_eq_dec : EqDecision EvmStandardBridgeTransfer.LibraryConfig. Proof. solve_decision. Defined.
#[global] Instance EvmBridge_config_countable : Countable EvmStandardBridgeTransfer.LibraryConfig.
Proof. by_iso (λ '(EvmStandardBridgeTransfer.mkLibraryConfig a0 a1 a2 a3 a4 a5 a6 a7), (a0, a1, a2, a3, a4, a5, a6, a7)) (λ '(a0, a1, a2, a3, a4, a5, a6, a7), EvmStandardBridgeTransfer.mkLibraryConfig a0 a1 a2 a3 a4 a5 a6 a7). Defined.
#[global] Instance EvmBridge_function_eq_dec : EqDecision EvmStandardBridgeTransfer.FunctionMsgs. Proof. solve_decision. Defined.
#[global] Instance EvmBridge_function_countable : Countable EvmStandardBridgeTransfer.FunctionMsgs.
Proof. by_iso (λ '(EvmStandardBridgeTransfer.Transfer), ()) (λ '(), EvmStandardBridgeTransfer.Transfer). Defined.
#[global] Instance EvmEureka_config_eq_dec : EqDecision EvmIbcEurekaTransfer.LibraryConfig. Proof. solve_decision. Defined.
#[global] Instance EvmEureka_config_countable : Countable EvmIbcEurekaTransfer.LibraryConfig.
Proof. by_iso (λ '(EvmIbcEurekaTransfer.mkLibraryConfig a0 a1 a2 a3 a4 a5 a6 a7), (a0, a1, a2, a3, a4, a5, a6, a7)) (λ '(a0, a1, a2, a3, a4, a5, a6, a7), EvmIbcEurekaTransfer.mkLibraryConfig a0 a1 a2 a3 a4 a5 a6 a7). Defined.
#[global] Instance EvmEureka_Fees_eq_dec : EqDecision EvmIbcEurekaTransfer.Fees. Proof. solve_decision. Defined.
#[global] Instance EvmEureka_Fees_countable : Countable EvmIbcEurekaTransfer.Fees.
Proof. by_iso (λ '(EvmIbcEurekaTransfer.mkFees a0 a1 a2), (a0, a1, a2)) (λ '(a0, a1, a2), EvmIbcEurekaTransfer.mkFees a0 a1 a2). Defined.
#[global] Instance EvmEureka_function_eq_dec : EqDecision EvmIbcEurekaTransfer.FunctionMsgs. Proof. solve_decision. Defined.
#[global] Instance EvmEureka_function_countable : Countable EvmIbcEurekaTransfer.FunctionMsgs.
Proof.
  by_iso (λ x, match x with
    | EvmIbcEurekaTransfer.Transfer a0 a1 => (inl (a0, a1))
    | EvmIbcEurekaTransfer.LombardTransfer a0 a1 => (inr (a0, a1)) end)
    (λ y, match y with
    | (inl (a0, a1)) => EvmIbcEurekaTransfer.Transfer a0 a1
    | (inr (a0, a1)) => EvmIbcEurekaTransfer.LombardTransfer a0 a1 end).
Defined.
#[global] Instance EvmPancake_config_eq_dec : EqDecision EvmPancakeV3PositionManager.LibraryConfig. Proof. solve_decision. Defined.
#[global] Instance EvmPancake_config_countable : Countable EvmPancakeV3PositionManager.LibraryConfig.
Proof. by_iso (λ '(EvmPancakeV3PositionManager.mkLibraryConfig a0 a1 a2 a3 a4 a5 a6 a7 a8), (a0, a1, a2, a3, a4, a5, a6, a7, a8)) (λ '(a0, a1, a2, a3, a4, a5, a6, a7, a8), EvmPancakeV3PositionManager.mkLibraryConfig a0 a1 a2 a3 a4 a5 a6 a7 a8). Defined.
#[global] Instance EvmPancake_function_eq_dec : EqDecision EvmPancakeV3PositionManager.FunctionMsgs. Proof. solve_decision. Defined.
#[global] Instance EvmPancake_function_countable : Countable EvmPancakeV3PositionManager.FunctionMsgs.
Proof.
  by_iso (λ x, match x with
    | EvmPancakeV3PositionManager.CreatePosition a0 a1 a2 a3 => (inl (a0, a1, a2, a3))
    | EvmPancakeV3PositionManager.WithdrawPosition a0 => (inr a0) end)
    (λ y, match y with
    | (inl (a0, a1, a2, a3)) => EvmPancakeV3PositionManager.CreatePosition a0 a1 a2 a3
    | (inr a0) => EvmPancakeV3PositionManager.WithdrawPosition a0 end).
Defined.

(** The messages of a library. *)
#[global] Instance LibExecuteMsg_eq_dec {F U} `{EqDecision F, EqDecision U} : EqDecision (LibExecuteMsg F U).
Proof. solve_decision. Defined.
#[global] Instance LibExecuteMsg_countable {F U} `{Countable F, Countable U} : Countable (LibExecuteMsg F U).
Proof.
  by_iso (λ x : LibExecuteMsg F U, match x with
    | ProcessFunction a0 => inl a0
    | UpdateConfig a0 => (inr (inl a0))
    | UpdateProcessor a0 => (inr (inr (inl a0)))
    | LibUpdateOwnership a0 => (inr (inr (inr a0))) end)
    (λ y, match y with
    | inl a0 => ProcessFunction a0
    | (inr (inl a0)) => UpdateConfig a0
    | (inr (inr (inl a0))) => UpdateProcessor a0
    | (inr (inr (inr a0))) => LibUpdateOwnership a0 end).
Defined.

(** ** The encodings *)
#[local] Instance ref_sol_value {T} `{Countable T} : SolValue T := {
  abi_encode x := bits_of_positive (encode x);
  abi_decode b := match decode (positive_of_bits b) with Some x => Ok x | None => Err "decode" end;
}.
#[local] Instance ref_sol_value_laws {T} `{Countable T} `{SolType T} : SolValueLaws T.
Proof. split. intros x _. simpl. by rewrite positive_of_bits_of_positive, decode_encode. Qed.
#[local] Instance ref_evm_text : EvmText := {
  address_from_str s := Ok (N.of_nat (String.length s) mod 2 ^ 160)%N;
  bytes_to_string b := "0x";
}.
#[local] Instance ref_evm_text_laws : EvmTextLaws.
Proof. split. intros s a [= <-]. by apply N.mod_lt. Qed.
#[local] Instance ref_sol_calls : SolCalls := {
  call_abi_encode c := bits_of_positive (encode c);
  SELECTOR c := bits_of_positive (encode c);
}.
#[local] Instance ref_sol_calls_laws : SolCallsLaws.
Proof. by split. Qed.
Definition ref_serde_from {F U} `{Countable F, Countable U} (ft : F → bool) (ut : U → bool)
    : SerdeFrom (LibExecuteMsg F U) :=
  λ b, match decode (positive_of_bits b) with
       | Some m => if msg_typed ft ut m then Some m else None
       | None => None
       end.
Lemma ref_serde_typed {F U} `{Countable F, Countable U} (ft : F → bool) (ut : U → bool) :
  @SerdeTyped F U (ref_serde_from ft ut) ft ut.
Proof.
  intros b m. unfold serde_from_slice, ref_serde_from. intros. repeat case_match; by simplify_eq.
Qed.
#[global] Instance ref_evm_codec : EvmCodec := {
  codec_ForwarderMsg := ref_serde_from (λ _, true) forwarder_typed;
  codec_CctpTransferMsg := ref_serde_from (λ _, true) cctp_typed;
  codec_StargateTransferMsg := ref_serde_from (λ _, true) stargate_typed;
  codec_AavePositionManagerMsg := ref_serde_from aave_function_typed aave_typed;
  codec_BalancerV2SwapMsg := ref_serde_from balancer_function_typed (λ _, true);
  codec_StandardBridgeTransferMsg := ref_serde_from (λ _, true) bridge_typed;
  codec_IBCEurekaTransferMsg := ref_serde_from eureka_function_typed eureka_typed;
  codec_PancakeMsg := ref_serde_from pancake_function_typed pancake_typed;
  codec_InternalAuthorizationMsg := λ m, Ok (bits_of_positive (encode m));
}.
#[global] Instance ref_evm_codec_laws : EvmCodecLaws.
Proof. split; apply _. Qed.
#[global] Instance ref_evm_serde_laws : EvmSerdeLaws.
Proof. split; apply ref_serde_typed. Qed.
