(* ===== verification/EvmEncoderTheorems.v ===== *)
(** * The EVM encoder: what the processor on the other chain reads

    The messages of the authorization contract for an EVM domain, read back there; the
    calls of the libraries, whose arguments fit; and the callbacks of that processor. *)
From Stdlib Require Import Strings.Byte.
From S2P Require Import Prelude Platform Types Accounts LibraryBase Forwarder AuthorizationUtils Authorization.
From S2P Require Import AuthorizationFacts AuthorizationSettlement Routers RouterTheorems EvmEncoder EvmLibraryCalls.
From S2P Require Import Codec LibraryCodec EvmCodecRef Samples.

(** ** The reading side

    What the processor of an EVM chain decodes: the kind of message first, then its
    contents, then the subroutine in it. *)
Inductive EvmSubroutine :=
| EvmAtomic (functions : list EvmAddress) (retry : option RetryLogic)
| EvmNonAtomic (functions : list (EvmAddress * option RetryLogic * Sol.FunctionCallback)).
Inductive EvmOrder :=
| OrderPause
| OrderResume
| OrderEvict (position : N) (priority : Priority)
| OrderSend (id : N) (priority : Priority) (subroutine : EvmSubroutine) (expiration : N) (calls : list Binary)
| OrderInsert (id position : N) (priority : Priority) (subroutine : EvmSubroutine) (expiration : N)
    (calls : list Binary).
Definition read_priority (p : Sol.Priority) : Priority :=
  match p with Sol.Medium => Medium | Sol.High => High end.
Definition read_duration (d : Sol.Duration) : Duration :=
  match Sol.durationType d with Sol.HeightT => DurHeight | Sol.TimeT => DurTime end (Sol.dur_value d).
Definition read_retry (r : Sol.RetryLogic) : option RetryLogic :=
  match Sol.retryType (Sol.rl_times r) with
  | Sol.NoRetry => None
  | Sol.IndefinitelyT => Some (mkRetryLogic Indefinitely (read_duration (Sol.rl_interval r)))
  | Sol.AmountT =>
      Some (mkRetryLogic (Amount (Sol.retry_amount (Sol.rl_times r))) (read_duration (Sol.rl_interval r)))
  end.
Definition read_subroutine `{EvmCodec} (s : Sol.Subroutine) : result string EvmSubroutine :=
  match Sol.subroutineType s with
  | Sol.AtomicT =>
      a ← abi_decode (T:=Sol.AtomicSubroutine) (Sol.sub_subroutine s);
      Ok (EvmAtomic (Sol.af_contractAddress <$> Sol.as_functions a) (read_retry (Sol.as_retryLogic a)))
  | Sol.NonAtomicT =>
      n ← abi_decode (T:=Sol.NonAtomicSubroutine) (Sol.sub_subroutine s);
      Ok (EvmNonAtomic ((λ f, (Sol.nf_contractAddress f, read_retry (Sol.nf_retryLogic f),
        Sol.callbackConfirmation f)) <$> Sol.ns_functions n))
  end.
Definition read_order `{EvmCodec} (b : Binary) : result string EvmOrder :=
  m ← abi_decode (T:=Sol.ProcessorMessage) b;
  match Sol.messageType m with
  | Sol.PauseT => Ok OrderPause
  | Sol.ResumeT => Ok OrderResume
  | Sol.EvictMsgsT =>
      e ← abi_decode (T:=Sol.EvictMsgs) (Sol.pm_message m);
      Ok (OrderEvict (Sol.ev_queuePosition e) (read_priority (Sol.ev_priority e)))
  | Sol.SendMsgsT =>
      x ← abi_decode (T:=Sol.SendMsgs) (Sol.pm_message m);
      sub ← read_subroutine (Sol.sm_subroutine x);
      Ok (OrderSend (Sol.sm_executionId x) (read_priority (Sol.sm_priority x)) sub (Sol.sm_expirationTime x)
            (Sol.sm_messages x))
  | Sol.InsertMsgsT =>
      x ← abi_decode (T:=Sol.InsertMsgs) (Sol.pm_message m);
      sub ← read_subroutine (Sol.im_subroutine x);
      Ok (OrderInsert (Sol.im_executionId x) (Sol.im_queuePosition x) (read_priority (Sol.im_priority x)) sub
            (Sol.im_expirationTime x) (Sol.im_messages x))
  end.

(** ** What should be read *)

(** The numbers of a message are of 64 bits. *)
Definition duration_number (d : Duration) : N := match d with DurHeight n | DurTime n => n end.
Definition retry_u64 (r : option RetryLogic) : Prop :=
  match r with
  | Some r => (match times r with Amount n => n | Indefinitely => 0 end ≤ u64_max)%N ∧
              (duration_number (interval r) ≤ u64_max)%N
  | None => True
  end.
Definition subroutine_u64 (s : Subroutine) : Prop :=
  match s with
  | Atomic a => retry_u64 (as_retry_logic a)
  | NonAtomic n => Forall (λ f, retry_u64 (nf_retry_logic f)) (ns_functions n)
  end.
Definition message_u64 (m : ProcessorMessageToEncode) : Prop :=
  match m with
  | EncodeSendMsgs id _ sub exp _ => (id ≤ u64_max ∧ default 0 exp ≤ u64_max)%N ∧ subroutine_u64 sub
  | EncodeInsertMsgs id pos _ sub exp _ =>
      (id ≤ u64_max ∧ pos ≤ u64_max ∧ default 0 exp ≤ u64_max)%N ∧ subroutine_u64 sub
  | EncodeEvictMsgs pos _ => (pos ≤ u64_max)%N
  | EncodePause | EncodeResume => True
  end.

Section Meaning.
Context `{EvmCodec}.
(** The account of a library, by its address there. *)
Definition located (l : LibraryAccountType) (a : EvmAddress) : Prop :=
  ∃ text, lib_to_string l = Ok text ∧ address_from_str text = Ok a.
(** The confirmation a function waits for: none is the zero address. *)
Definition confirmation_sent (c : option FunctionCallback) (k : Sol.FunctionCallback) : Prop :=
  match c with
  | None => k = Sol.mkFunctionCallback 0%N []
  | Some c => address_from_str (fc_contract_address c) = Ok (Sol.fc_contractAddress k) ∧
              Sol.callbackMessage k = fc_callback_message c
  end.
Definition function_sent (f : NonAtomicFunction) (g : EvmAddress * option RetryLogic * Sol.FunctionCallback)
    : Prop :=
  located (nf_contract_address f) g.1.1 ∧ g.1.2 = nf_retry_logic f ∧
  confirmation_sent (callback_confirmation f) g.2.
Definition subroutine_sent (s : Subroutine) (t : EvmSubroutine) : Prop :=
  match s, t with
  | Atomic a, EvmAtomic fs retry =>
      Forall2 (λ f addr, located (af_contract_address f) addr) (as_functions a) fs ∧ retry = as_retry_logic a
  | NonAtomic n, EvmNonAtomic fs => Forall2 function_sent (ns_functions n) fs
  | _, _ => False
  end.
Definition calls_sent (messages : list EncoderMessage) (calls : list Binary) : Prop :=
  Forall2 (λ m call, encode_message (em_library m) (em_data m) = Ok call) messages calls.
Definition order_sent (m : ProcessorMessageToEncode) (o : EvmOrder) : Prop :=
  match m with
  | EncodeSendMsgs id prio sub exp messages =>
      ∃ t calls, o = OrderSend id prio t (default 0%N exp) calls ∧ subroutine_sent sub t ∧
        calls_sent messages calls
  | EncodeInsertMsgs id pos prio sub exp messages =>
      ∃ t calls, o = OrderInsert id pos prio t (default 0%N exp) calls ∧ subroutine_sent sub t ∧
        calls_sent messages calls
  | EncodeEvictMsgs pos prio => o = OrderEvict pos prio
  | EncodePause => o = OrderPause
  | EncodeResume => o = OrderResume
  end.
End Meaning.

(** ** Reading back *)
Lemma read_retry_encode r : read_retry (encode_retry_logic r) = r.
Proof. by destruct r as [[[|n] [d|d]]|]. Qed.
Lemma read_priority_from p : read_priority (Sol.Priority_from p) = p.
Proof. by destruct p. Qed.
Lemma encode_retry_fits r : retry_u64 r → Sol.retry_fits (encode_retry_logic r).
Proof. destruct r as [[[|n] [d|d]]|]; unfold retry_u64, Sol.retry_fits, u64_max; simpl; lia. Qed.
#[local] Hint Resolve encode_retry_fits : core.

Section Orders.
Context `{EvmCodec} `{!EvmCodecLaws}.

Lemma plain_address_ok text a :
  plain_address text = Ok a → address_from_str text = Ok a ∧ Sol.address_fits a.
Proof. intros Ha%map_err_r_ok. split; [done|]. by eapply address_from_str_fits. Qed.
Lemma encode_atomic_function_ok f g :
  encode_atomic_function f = Ok g →
  located (af_contract_address f) (Sol.af_contractAddress g) ∧ Sol.address_fits (Sol.af_contractAddress g).
Proof.
  intros (text & Ht & (a & [Ha Hf]%plain_address_ok & [= <-])%bind_result_ok)%bind_result_ok.
  split; [by exists text|done].
Qed.
Lemma encode_callback_ok c k :
  encode_callback c = Ok k → confirmation_sent c k ∧ Sol.address_fits (Sol.fc_contractAddress k).
Proof.
  destruct c as [c|]; simpl.
  - by intros (a & [Ha Hf]%plain_address_ok & [= <-])%bind_result_ok.
  - intros [= <-]. by split; [|compute].
Qed.
Lemma encode_non_atomic_function_ok f g :
  retry_u64 (nf_retry_logic f) → encode_non_atomic_function f = Ok g →
  function_sent f (Sol.nf_contractAddress g, read_retry (Sol.nf_retryLogic g), Sol.callbackConfirmation g) ∧
  Sol.address_fits (Sol.nf_contractAddress g) ∧ Sol.retry_fits (Sol.nf_retryLogic g) ∧
  Sol.address_fits (Sol.fc_contractAddress (Sol.callbackConfirmation g)).
Proof.
  intros Hr (k & [Hk Hkf]%encode_callback_ok & (text & Ht & (a & [Ha Hf]%plain_address_ok & [= <-])
    %bind_result_ok)%bind_result_ok)%bind_result_ok.
  split_and!; simpl; auto. split_and!; simpl; [by exists text|apply read_retry_encode|done].
Qed.

(** A subroutine is read as it was. *)
Lemma encode_subroutine_read sub e :
  subroutine_u64 sub → encode_subroutine sub = Ok e →
  ∃ t, read_subroutine e = Ok t ∧ subroutine_sent sub t.
Proof.
  destruct sub as [a|n]; simpl; intros Hu (fs & Hfs%mapM_result_Forall2 & [= <-])%bind_result_ok.
  - eexists. unfold read_subroutine. simpl. rewrite abi_decode_encode; simpl.
    + split; [done|]. simpl. rewrite read_retry_encode. split; [|done]. apply Forall2_fmap_r.
      eapply Forall2_impl; [exact Hfs|]. by intros f g [? _]%encode_atomic_function_ok.
    + split; [|by apply encode_retry_fits]. clear Hu. induction Hfs as [|f g l k Hg _ IH]; constructor; [|done].
      by apply encode_atomic_function_ok in Hg as [_ ?].
  - eexists. unfold read_subroutine. simpl. rewrite abi_decode_encode; simpl.
    + split; [done|]. simpl. apply Forall2_fmap_r. induction Hfs as [|f g l k Hg _ IH]; constructor.
      * apply Forall_cons in Hu as [Hu _]. by apply encode_non_atomic_function_ok in Hg as [? _].
      * by apply Forall_cons in Hu as [_ ?]; auto.
    + induction Hfs as [|f g l k Hg _ IH]; constructor; apply Forall_cons in Hu as [Hu ?].
      * by apply encode_non_atomic_function_ok in Hg as [_ ?].
      * by apply IH.
Qed.

(** What was encoded is read as the message that it was made from. *)
Lemma evm_encode_read m b :
  message_u64 m → evm_encode m = Ok b → ∃ o, read_order b = Ok o ∧ order_sent m o.
Proof.
  unfold read_order. destruct m as [id prio sub exp ms|id pos prio sub exp ms|pos prio| |]; simpl; intros Hu.
  - intros (e & He & (calls & Hc%mapM_result_Forall2 & [= <-])%bind_result_ok)%bind_result_ok.
    destruct (encode_subroutine_read _ _ (proj2 Hu) He) as (t & Ht & Hs).
    unfold processor_message. rewrite abi_decode_encode by done. simpl.
    rewrite abi_decode_encode by (destruct Hu; done). simpl. rewrite Ht. simpl.
    rewrite read_priority_from. eauto 8.
  - intros (e & He & (calls & Hc%mapM_result_Forall2 & [= <-])%bind_result_ok)%bind_result_ok.
    destruct (encode_subroutine_read _ _ (proj2 Hu) He) as (t & Ht & Hs).
    unfold processor_message. rewrite abi_decode_encode by done. simpl.
    rewrite abi_decode_encode by (destruct Hu; done). simpl. rewrite Ht. simpl.
    rewrite read_priority_from. eauto 8.
  - intros [= <-]. unfold processor_message. rewrite abi_decode_encode by done. simpl.
    rewrite abi_decode_encode by done. simpl. rewrite read_priority_from. eauto.
  - intros [= <-]. unfold encode_pause, processor_message. rewrite abi_decode_encode by done. eauto.
  - intros [= <-]. unfold encode_resume, processor_message. rewrite abi_decode_encode by done. eauto.
Qed.
End Orders.

(** ** Through the authorization contract and the broker *)
Section Routed.
Context `{EvmCodec}.
Definition evm_contracts (c : Contracts) : Prop := ch_encoders c = evm_encoders.
Lemma routed_encode err c broker version m b :
  evm_contracts c → Authorization.query_encode (routed_querier err c) broker version m = Ok b → evm_encode m = Ok b.
Proof.
  unfold evm_contracts. simpl. intros -> (bs & _ & Hb)%query_contract_ok. unfold EncoderBroker.encode in Hb.
  by apply bind_result_ok in Hb as (a & _ & Hb).
Qed.
Lemma routed_decode err c broker version bs a m :
  evm_contracts c → ch_brokers c !! broker = Some bs → EncoderBroker.s_encoders bs !! version = Some a →
  Authorization.query_decode (routed_querier err c) broker version m =
    map_err_r (λ e, GenericErr (err e)) (evm_decode m).
Proof.
  unfold evm_contracts. simpl. intros -> Hbs Ha. unfold query_contract. rewrite Hbs.
  unfold EncoderBroker.decode, EncoderBroker.load_encoder. by rewrite Ha.
Qed.
End Routed.
Lemma batch_expiration_u64 `{Platform} env sub : (default 0%N (Authorization.batch_expiration env sub) ≤ u64_max)%N.
Proof.
  unfold Authorization.batch_expiration. destruct (get_expiration_time sub) as [t|]; [|done]. simpl.
  unfold checked_add. case_match; simpl; [|done]. by apply N.leb_le.
Qed.

(** C4 A user's batch reaches an EVM processor as it was authorized.  When the broker's
    encoder is this one, an accepted [send_msgs] for an authorization on an EVM domain
    sends one message, to the mailbox of the domain, whose body the processor there reads
    as: execute, under the id of the execution and with the priority of the authorization,
    the functions of the subroutine at their addresses, with their retry logic and
    confirmations, until the expiration time (0 for none), with one call for each message,
    in order, as the library of its function encodes it. *)
Theorem evm_batch_end_to_end
    `{Platform} `{SerdeJson} `{CwOwnable} `{TokenFactoryProto}
    `{JsonCodec ProcessorExecuteMsg} `{JsonCodec PolytoneExecuteMsg}
    `{JsonCodec HyperlaneExecuteMsg} `{JsonCodec AuthPolytoneCallbackMsg} `{EvmCodec} `{!EvmCodecLaws}
    (err : StdError → string) (c : Contracts) (env : Env) (info : MessageInfo) (l : string)
    (ttl : option Expiration) (ms : list ProcessorMessage) (s s' : Authorization.storage) (r : Response)
    (a : Authorization) (name : string) (d : ExternalDomain) (e : Encoder) (h : HyperlaneConnector) (id : N) :
  evm_contracts c →
  Authorization.send_msgs (routed_querier err c) env info l ttl ms s = Ok (r, s') →
  Authorization.s_authorizations s !! l = Some a →
  authorization_domain a = Some (DomainExternal name) →
  Authorization.s_external_domains s !! name = Some d →
  execution_environment d = EnvEvm e (Hyperlane_ h) →
  Authorization.s_execution_id s = Some id →
  (id ≤ u64_max)%N → subroutine_u64 (subroutine a) →
  ∃ recipient body outer em t calls,
    resp_messages r = [SubMsg_new (CosmosWasm (WasmExecute (mailbox h) outer []))] ∧
    to_json_binary (Dispatch (mkDispatchMsg (domain_id h) recipient body None None)) = Ok outer ∧
    format_address_for_hyperlane (ed_processor d) = Ok recipient ∧
    read_order body =
      Ok (OrderSend id (priority a) t (default 0%N (Authorization.batch_expiration env (subroutine a))) calls) ∧
    subroutine_sent (subroutine a) t ∧
    convert_into_encoder_messages ms a = Ok em ∧ calls_sent em calls.
Proof.
  intros Hc Hs Ha Hd Hx He Hid Hu Hsub.
  apply send_msgs_ok in Hs as (a' & dom & addrs & id' & msg & Ha' & _ & _ & _ & Hd' & Hid' & _ & Hdisp & -> & _).
  simplify_eq. destruct Hdisp as (d' & Hx' & Hm). simplify_eq. rewrite He in Hm.
  destruct Hm as (em & body & recipient & outer & Hem & Hq & Hr & Ho & ->).
  apply bind_result_ok in Hem as (ems & Hems & [= <-]). apply routed_encode in Hq; [|done].
  apply evm_encode_read in Hq as (o & Hro & t & calls & -> & Ht & Hcalls);
    [|split; [split; [done|apply batch_expiration_u64]|done]].
  exists recipient, body, outer, ems, t, calls. by split_and!.
Qed.

(** ** Callbacks *)

(** The result that a callback reports; none when the count has more than 64 bits. *)
Definition callback_result `{EvmText} (cb : Sol.Callback) : option ExecutionResult :=
  let data := bytes_to_string (Sol.cb_data cb) in
  match Sol.executionResult cb with
  | Sol.Success => Some Success
  | Sol.Rejected => Some (Rejected data)
  | Sol.PartiallyExecuted =>
      if (Sol.executedCount cb <=? u64_max)%N then Some (PartiallyExecuted (Sol.executedCount cb) data) else None
  | Sol.Expired => if (Sol.executedCount cb <=? u64_max)%N then Some (Expired (Sol.executedCount cb)) else None
  end.
(** What [serde_json] writes is what [from_json] reads. *)
Class SerdeWire (A : Type) `{SerdeTo A} `{JsonCodec A} : Prop :=
  serde_wire (x : A) : ∃ b, serde_to_vec x = Ok b ∧ from_json b = Ok x.
Lemma callback_from `{EvmText} cb :
  Sol.InternalAuthorizationMsg_from cb =
    match callback_result cb with Some res => Ok (ProcessorCallback (Sol.cb_executionId cb) res) | None => Panic end.
Proof.
  unfold Sol.InternalAuthorizationMsg_from, callback_result, Sol.u256_to_u64.
  destruct (Sol.executionResult cb); try done; by case_match.
Qed.
Lemma process_hyperlane_callback_run `{Platform} `{SerdeJson} `{CwOwnable} `{TokenFactoryProto}
    `{JsonCodec InternalAuthorizationMsg} q env info hm s e b id res cb :
  Authorization.find_hyperlane_encoder info hm s = Some e →
  Authorization.query_decode q (broker_address e) (encoder_version e) (HyperlaneCallback (hm_body hm)) = Ok b →
  from_json b = Ok (ProcessorCallback id res) →
  Authorization.s_processor_callbacks s !! id = Some cb → (0 < current s (cb_label cb))%N →
  ∃ r, Authorization.process_hyperlane_callback q env info hm s =
    Ok (r, settle id (Authorization.set_result res (Authorization.now_seconds env) cb) s) ∧ resp_messages r = [].
Proof.
  intros He Hq Hj Hcb Hpos. unfold Authorization.process_hyperlane_callback, mbind, Exec_bind, get_storage,
    ok_or, of_result, map_load, map_save. rewrite He. cbn. rewrite Hq, Hj.
  cbn [lget Authorization.PROCESSOR_CALLBACKS]. rewrite Hcb. cbn [lset Authorization.PROCESSOR_CALLBACKS].
  rewrite reduce_current_executions_run by (unfold current in *; simpl; lia). by eexists.
Qed.

(** C16 The report of an EVM processor closes its execution with the result it had there.
    When the broker has this encoder under the version of the domain, a Hyperlane message
    from the processor of that domain whose body is an encoded callback for a recorded
    execution is accepted and stores the result (the error data as text, the count of the
    executed functions) under the id of the callback, releasing a slot; except that a count
    of more than 64 bits, for which the conversion panics, is never accepted. *)
Theorem evm_callback_settles
    `{Platform} `{SerdeJson} `{CwOwnable} `{TokenFactoryProto} `{JsonCodec InternalAuthorizationMsg}
    `{EvmCodec} `{!EvmCodecLaws} `{!SerdeWire InternalAuthorizationMsg}
    (err : StdError → string) (c : Contracts) (env : Env) (info : MessageInfo) (hm : HandleMsg)
    (s : Authorization.storage) (e : Encoder) (bs : EncoderBroker.storage) (encoder : Addr)
    (report : Sol.Callback) (cb : ProcessorCallbackInfo) :
  evm_contracts c → Authorization.find_hyperlane_encoder info hm s = Some e →
  ch_brokers c !! broker_address e = Some bs →
  EncoderBroker.s_encoders bs !! encoder_version e = Some encoder →
  sol_fits report → hm_body hm = abi_encode report →
  Authorization.s_processor_callbacks s !! Sol.cb_executionId report = Some cb →
  (0 < current s (cb_label cb))%N →
  match callback_result report with
  | Some res =>
      ∃ r, Authorization.process_hyperlane_callback (routed_querier err c) env info hm s =
        Ok (r, settle (Sol.cb_executionId report)
                 (Authorization.set_result res (Authorization.now_seconds env) cb) s) ∧ resp_messages r = []
  | None => ∀ r s', Authorization.process_hyperlane_callback (routed_querier err c) env info hm s ≠ Ok (r, s')
  end.
Proof.
  intros Hc He Hbs Henc Hfit Hbody Hcb Hpos.
  pose proof (routed_decode err c _ _ bs encoder (HyperlaneCallback (hm_body hm)) Hc Hbs Henc) as Hq.
  cbn [evm_decode] in Hq. unfold callback_decode in Hq. rewrite Hbody, abi_decode_encode in Hq by done.
  cbn [map_err_r mbind result_bind] in Hq. rewrite callback_from in Hq.
  destruct (callback_result report) as [res|].
  - destruct (serde_wire (ProcessorCallback (Sol.cb_executionId report) res)) as (b & Hb & Hj).
    cbn [mbind result_bind] in Hq. rewrite Hb in Hq. cbn [map_err_r] in Hq. rewrite <- Hbody in Hq.
    by eapply process_hyperlane_callback_run.
  - intros r s' Hp. apply process_hyperlane_callback_ok in Hp as (e' & b & id & res & cb' & He' & Hq' & _).
    simplify_eq. rewrite Hbody, Hq in Hq'. done.
Qed.

(** ** Samples

    The broker with this encoder, a message of an authorization on Ethereum, and the
    report of the processor there. *)
Definition sample_evm_contracts : Contracts :=
  mkContracts {[ "broker" := EncoderBroker.mkStorage None None {[ "v1" := "encoder" ]} ]} ∅ evm_encoders
    (λ _ _ _ _ _, Ok true) (λ _ _, Ok 1%N).
Definition sample_evm_q : Authorization.Querier := routed_querier (λ _, "error") sample_evm_contracts.
Definition sample_position : EvmPancakeV3PositionManager.FunctionMsgs :=
  EvmPancakeV3PositionManager.CreatePosition (-100) 100 5 6.
Definition sample_position_msg : Binary :=
  bits_of_positive (encode (ProcessFunction (U:=EvmPancakeV3PositionManager.LibraryConfig) sample_position)).
Definition sample_evm2 : Authorization.storage :=
  sample_s2 (DomainExternal "ethereum") (TyEvmCall (mkEncoderInfo "broker" "v1") "pancake_v3_position_manager").
Definition sample_evm_send : Exec Authorization.storage Authorization.ContractError Response :=
  Authorization.send_msgs sample_evm_q (sample_env 4) sample_user "swap" None [EvmCall sample_position_msg].
Definition sample_evm_authorization : Authorization :=
  mkAuthorization "swap" (Permissioned (WithCallLimit [("user", 3%N)])) Never Never 1
    (NonAtomic (mkNonAtomicSubroutine
       [mkNonAtomicFunction (DomainExternal "ethereum")
          (mkMessageDetails (TyEvmCall (mkEncoderInfo "broker" "v1") "pancake_v3_position_manager")
             (mkMessage "msg" None)) (LibAddr "library") None None] None)) Medium Enabled.
Definition sample_ethereum : ExternalDomain :=
  mkExternalDomain "ethereum" (EnvEvm (mkEncoder "broker" "v1") (Hyperlane_ (mkHyperlaneConnector "mailbox" 1)))
    "0xAB".
Lemma evm_batch_end_to_end_witness : ∃ r body t calls,
  sample_evm_send sample_evm2 = Ok (r, after sample_evm_send sample_evm2) ∧
  read_order body = Ok (OrderSend 0 Medium t 0 calls) ∧
  calls_sent [mkEncoderMessage "pancake_v3_position_manager" sample_position_msg] calls.
Proof.
  destruct (after_ok sample_evm_send sample_evm2) as [r Hr]; [vm_compute; reflexivity|].
  destruct (evm_batch_end_to_end (λ _, "error") sample_evm_contracts (sample_env 4) sample_user "swap" None
    [EvmCall sample_position_msg] sample_evm2 _ r sample_evm_authorization "ethereum" sample_ethereum
    (mkEncoder "broker" "v1") (mkHyperlaneConnector "mailbox" 1) 0%N eq_refl Hr)
    as (recipient & body & outer & em & t & calls & _ & _ & _ & Ho & Ht & Hem & Hcalls);
    [vm_compute; reflexivity..|vm_compute; discriminate|by repeat constructor|].
  exists r, body, t, calls. split; [exact Hr|]. split; [exact Ho|]. injection Hem as <-. exact Hcalls.
Defined.

#[global] Instance ref_serde_wire : SerdeWire InternalAuthorizationMsg.
Proof.
  intros x. eexists. split; [done|]. simpl. by rewrite positive_of_bits_of_positive, decode_encode.
Qed.
(** Two functions of a batch were executed, as the processor on Ethereum reports. *)
Definition sample_report : Sol.Callback := Sol.mkCallback 0 Sol.PartiallyExecuted 2%N [x01].
Definition sample_evm_handle : HandleMsg :=
  mkHandleMsg 1 (replicate 31 x00 ++ [xab]) (abi_encode sample_report).
Definition sample_evm4 : Authorization.storage := after sample_evm_send sample_evm2.
Lemma evm_callback_settles_witness : ∃ cb r,
  Authorization.s_processor_callbacks sample_evm4 !! 0%N = Some cb ∧
  Authorization.process_hyperlane_callback sample_evm_q (sample_env 5) (mkInfo "mailbox" []) sample_evm_handle
    sample_evm4 =
    Ok (r, settle 0 (Authorization.set_result (PartiallyExecuted 2 "0x") (Authorization.now_seconds (sample_env 5)) cb)
             sample_evm4).
Proof.
  eexists. refine (match evm_callback_settles (λ _, "error") sample_evm_contracts (sample_env 5) (mkInfo "mailbox" [])
    sample_evm_handle sample_evm4 (mkEncoder "broker" "v1") (EncoderBroker.mkStorage None None {[ "v1" := "encoder" ]})
    "encoder" sample_report _ eq_refl _ _ _ _ eq_refl _ _ with ex_intro _ r (conj Hr _) => ex_intro _ r (conj _ Hr) end);
    try (vm_compute; reflexivity). split; by apply N.leb_le.
Defined.

(** A fee of 24 bits and one more: the message is encoded, the configuration does not fit. *)
Definition sample_fee_config : EvmPancakeV3PositionManager.LibraryConfig :=
  EvmPancakeV3PositionManager.mkLibraryConfig (LibAddr "in") (LibAddr "out") "manager" "chef" "token0" "token1"
    (2 ^ 24) 50 600.
Definition sample_fee_msg : Binary :=
  bits_of_positive (encode (UpdateConfig (F:=EvmPancakeV3PositionManager.FunctionMsgs) sample_fee_config)).
Definition sample_fee_struct : PancakeSwapV3PositionManagerConfig :=
  match EvmPancakeV3PositionManager.build_config sample_fee_config with
  | Ok x => x
  | _ => mkPancakeConfig 0%N 0%N 0%N 0%N 0%N 0%N 0%N 0%N 0%N
  end.
Definition sample_repay_msg : Binary :=
  bits_of_positive (encode (ProcessFunction (U:=EvmAavePositionManager.LibraryConfig) (EvmAavePositionManager.Repay 5))).
(** A repayment is encoded as one; so is the update of the fee, which fits only as far as the
    fee does. *)
Lemma library_calls_exact_witness :
  encode_message "aave_position_manager" sample_repay_msg = Ok (call_abi_encode (repayCall 5%N)) ∧
  encode_message "pancake_v3_position_manager" sample_fee_msg =
    Ok (call_abi_encode (updateConfigCall (abi_encode sample_fee_struct))) ∧
  call_fits (config_sent LibPancakeV3PositionManager) (updateConfigCall (abi_encode sample_fee_struct)) ∧
  poolFee sample_fee_struct = (u24_max + 1)%N.
Proof.
  assert (library_asks LibPancakeV3PositionManager sample_fee_msg
    (updateConfigCall (abi_encode sample_fee_struct))) as Hfee.
  { exists (UpdateConfig sample_fee_config). split; [vm_compute; reflexivity|]. exists sample_fee_struct.
    split; [|reflexivity]. apply pancake_config_iff. vm_compute. reflexivity. }
  split_and!.
  - apply (proj1 (library_calls_exact "aave_position_manager" sample_repay_msg)). exists LibAavePositionManager.
    split; [reflexivity|]. right. exists (repayCall 5%N). split; [|reflexivity].
    exists (ProcessFunction (EvmAavePositionManager.Repay 5)). split; [vm_compute; reflexivity|reflexivity].
  - apply (proj1 (library_calls_exact "pancake_v3_position_manager" sample_fee_msg)).
    exists LibPancakeV3PositionManager. split; [reflexivity|]. right. by eexists.
  - by apply (proj2 (library_calls_exact "pancake_v3_position_manager" sample_fee_msg)).
  - vm_compute. reflexivity.
Defined.
