(* ===== verification/ManagerLibrary.v ===== *)
(** * The program manager: the configurations of its libraries

    [program-manager/src/library.rs], with the code that [manager_impl_library_configs]
    ([packages/valence-macros]) generates for it: one configuration per kind of library,
    its text with account ids in it, and the texts of an update. *)
From Stdlib Require Import Strings.Byte.
From S2P Require Import Prelude Platform Types Format Accounts LibraryBase.
From S2P Require Import Forwarder Splitter ReverseSplitter Astroport Osmosis IbcTransfer.
From S2P Require Import LiquidStaking MarsLending Duality Vaults Vortex.

Module Manager.
(** [serde_json] at the type of a configuration and of the message that instantiates its
    library, with the texts of its errors. *)
Class ConfigSerde (C : Type) := {
  serde_to_string : C → result string string;
  serde_from_str : string → result string C;
  instantiate_to_vec : LibInstantiateMsg C → result string Binary;
}.
(** [AhoCorasick::new], whose error is a text, and its searches: where the matches in a
    text end, and the text with the matches of each pattern replaced. *)
Class AhoCorasick := {
  ac_new : list string → result string unit;
  ac_match_ends : list string → string → list nat;
  ac_replace_all : list string → list string → string → string;
}.

(** [LibraryError] of [library.rs]. *)
Inductive MLibraryError :=
| AhoCorasickE (e : string)
| SerdeJsonError (e : string)
| CosmwasmStdError (e : StdError)
| ParseIntError
| ValenceLibraryError (e : LibraryError)
| ConfigsMismatch (a b : string)
| NoLibraryConfig
| NoLibraryConfigUpdate.

Inductive LibraryConfig :=
| NoConfig
| ValenceForwarderLibrary (c : Forwarder.LibraryConfig)
| ValenceSplitterLibrary (c : Splitter.LibraryConfig)
| ValenceReverseSplitterLibrary (c : ReverseSplitter.LibraryConfig)
| ValenceAstroportLper (c : AstroportLper.LibraryConfig)
| ValenceAstroportWithdrawer (c : AstroportWithdrawer.LibraryConfig)
| ValenceOsmosisGammLper (c : OsmosisGammLper.LibraryConfig)
| ValenceOsmosisGammWithdrawer (c : OsmosisGammWithdrawer.LibraryConfig)
| ValenceGenericIbcTransferLibrary (c : GenericIbcTransfer.LibraryConfig)
| ValenceNeutronIbcTransferLibrary (c : GenericIbcTransfer.LibraryConfig)
| ValenceOsmosisClLper (c : OsmosisClLper.LibraryConfig)
| ValenceOsmosisClWithdrawer (c : OsmosisClWithdrawer.LibraryConfig)
| ValenceDropLiquidStaker (c : DropLiquidStaker.LibraryConfig)
| ValenceDropLiquidUnstaker (c : DropLiquidUnstaker.LibraryConfig)
| ValenceMarsLending (c : MarsLending.LibraryConfig)
| ValenceDualityLper (c : DualityLper.LibraryConfig)
| ValenceDualityWithdrawer (c : DualityWithdrawer.LibraryConfig)
| ValenceMagmaLper (c : MagmaLper.LibraryConfig)
| ValenceMagmaWithdrawer (c : MagmaWithdrawer.LibraryConfig)
| ValenceVortexLper (c : VortexLper.LibraryConfig).
Inductive LibraryConfigUpdate :=
| NoUpdate
| ForwarderUpdate (u : Forwarder.LibraryConfigUpdate)
| SplitterUpdate (u : Splitter.LibraryConfigUpdate)
| ReverseSplitterUpdate (u : ReverseSplitter.LibraryConfigUpdate)
| AstroportLperUpdate (u : AstroportLper.LibraryConfigUpdate)
| AstroportWithdrawerUpdate (u : AstroportWithdrawer.LibraryConfigUpdate)
| OsmosisGammLperUpdate (u : OsmosisGammLper.LibraryConfigUpdate)
| OsmosisGammWithdrawerUpdate (u : OsmosisGammWithdrawer.LibraryConfigUpdate)
| GenericIbcTransferUpdate (u : GenericIbcTransfer.LibraryConfigUpdate)
| NeutronIbcTransferUpdate (u : GenericIbcTransfer.LibraryConfigUpdate)
| OsmosisClLperUpdate (u : OsmosisClLper.LibraryConfigUpdate)
| OsmosisClWithdrawerUpdate (u : OsmosisClWithdrawer.LibraryConfigUpdate)
| DropLiquidStakerUpdate (u : DropLiquidStaker.LibraryConfigUpdate)
| DropLiquidUnstakerUpdate (u : DropLiquidUnstaker.LibraryConfigUpdate)
| MarsLendingUpdate (u : MarsLending.LibraryConfigUpdate)
| DualityLperUpdate (u : DualityLper.LibraryConfigUpdate)
| DualityWithdrawerUpdate (u : DualityWithdrawer.LibraryConfigUpdate)
| MagmaLperUpdate (u : MagmaLper.LibraryConfigUpdate)
| MagmaWithdrawerUpdate (u : MagmaWithdrawer.LibraryConfigUpdate)
| VortexLperUpdate (u : VortexLper.LibraryConfigUpdate).
(** [strum::Display] in snake case: the name of the contract. *)
Definition LibraryConfig_to_string (c : LibraryConfig) : string :=
  match c with
  | NoConfig => "none"
  | ValenceForwarderLibrary _ => "valence_forwarder_library"
  | ValenceSplitterLibrary _ => "valence_splitter_library"
  | ValenceReverseSplitterLibrary _ => "valence_reverse_splitter_library"
  | ValenceAstroportLper _ => "valence_astroport_lper"
  | ValenceAstroportWithdrawer _ => "valence_astroport_withdrawer"
  | ValenceOsmosisGammLper _ => "valence_osmosis_gamm_lper"
  | ValenceOsmosisGammWithdrawer _ => "valence_osmosis_gamm_withdrawer"
  | ValenceGenericIbcTransferLibrary _ => "valence_generic_ibc_transfer_library"
  | ValenceNeutronIbcTransferLibrary _ => "valence_neutron_ibc_transfer_library"
  | ValenceOsmosisClLper _ => "valence_osmosis_cl_lper"
  | ValenceOsmosisClWithdrawer _ => "valence_osmosis_cl_withdrawer"
  | ValenceDropLiquidStaker _ => "valence_drop_liquid_staker"
  | ValenceDropLiquidUnstaker _ => "valence_drop_liquid_unstaker"
  | ValenceMarsLending _ => "valence_mars_lending"
  | ValenceDualityLper _ => "valence_duality_lper"
  | ValenceDualityWithdrawer _ => "valence_duality_withdrawer"
  | ValenceMagmaLper _ => "valence_magma_lper"
  | ValenceMagmaWithdrawer _ => "valence_magma_withdrawer"
  | ValenceVortexLper _ => "valence_vortex_lper"
  end.

(** [pre_validate] of a library: its [do_validate], with the address checks of the chain
    it will be on. *)
Class PreValidate (C : Type) := pre_validate : Platform → C → result LibraryError unit.
#[global] Instance forwarder_pre_validate : PreValidate Forwarder.LibraryConfig :=
  λ api self, _ ← Forwarder.do_validate self; Ok ().
#[global] Instance splitter_pre_validate `{CosmMath} `{HashOrder} : PreValidate Splitter.LibraryConfig :=
  λ api self, _ ← Splitter.do_validate self; Ok ().
#[global] Instance reverse_splitter_pre_validate `{CosmMath} : PreValidate ReverseSplitter.LibraryConfig :=
  λ api self, _ ← ReverseSplitter.do_validate self; Ok ().
#[global] Instance astroport_lper_pre_validate : PreValidate AstroportLper.LibraryConfig :=
  λ api self, _ ← AstroportLper.do_validate self; Ok ().
#[global] Instance astroport_withdrawer_pre_validate : PreValidate AstroportWithdrawer.LibraryConfig :=
  λ api self, _ ← AstroportWithdrawer.do_validate self; Ok ().
#[global] Instance gamm_lper_pre_validate : PreValidate OsmosisGammLper.LibraryConfig :=
  λ api self, _ ← OsmosisGammLper.do_validate self; Ok ().
#[global] Instance gamm_withdrawer_pre_validate : PreValidate OsmosisGammWithdrawer.LibraryConfig :=
  λ api self, _ ← OsmosisGammWithdrawer.do_validate self; Ok ().
#[global] Instance ibc_pre_validate : PreValidate GenericIbcTransfer.LibraryConfig :=
  λ api self, _ ← GenericIbcTransfer.do_validate self; Ok ().
#[global] Instance cl_lper_pre_validate : PreValidate OsmosisClLper.LibraryConfig :=
  λ api self, _ ← OsmosisClLper.do_validate self; Ok ().
#[global] Instance cl_withdrawer_pre_validate : PreValidate OsmosisClWithdrawer.LibraryConfig :=
  λ api self, _ ← OsmosisClWithdrawer.do_validate self; Ok ().
#[global] Instance staker_pre_validate : PreValidate DropLiquidStaker.LibraryConfig :=
  λ api self, _ ← DropLiquidStaker.do_validate self; Ok ().
#[global] Instance unstaker_pre_validate : PreValidate DropLiquidUnstaker.LibraryConfig :=
  λ api self, _ ← DropLiquidUnstaker.do_validate self; Ok ().
#[global] Instance mars_pre_validate : PreValidate MarsLending.LibraryConfig :=
  λ api self, _ ← MarsLending.do_validate self; Ok ().
#[global] Instance duality_lper_pre_validate : PreValidate DualityLper.LibraryConfig :=
  λ api self, _ ← DualityLper.do_validate self; Ok ().
#[global] Instance duality_withdrawer_pre_validate : PreValidate DualityWithdrawer.LibraryConfig :=
  λ api self, _ ← DualityWithdrawer.do_validate self; Ok ().
#[global] Instance magma_lper_pre_validate : PreValidate MagmaLper.LibraryConfig :=
  λ api self, _ ← MagmaLper.do_validate self; Ok ().
#[global] Instance magma_withdrawer_pre_validate : PreValidate MagmaWithdrawer.LibraryConfig :=
  λ api self, _ ← MagmaWithdrawer.do_validate self; Ok ().
#[global] Instance vortex_pre_validate : PreValidate VortexLper.LibraryConfig :=
  λ api self, _ ← VortexLper.do_validate self; Ok ().

(** The serializers of every kind. *)
Class LibrarySerde := {
  serde_forwarder :: ConfigSerde Forwarder.LibraryConfig;
  serde_splitter :: ConfigSerde Splitter.LibraryConfig;
  serde_reverse_splitter :: ConfigSerde ReverseSplitter.LibraryConfig;
  serde_astroport_lper :: ConfigSerde AstroportLper.LibraryConfig;
  serde_astroport_withdrawer :: ConfigSerde AstroportWithdrawer.LibraryConfig;
  serde_gamm_lper :: ConfigSerde OsmosisGammLper.LibraryConfig;
  serde_gamm_withdrawer :: ConfigSerde OsmosisGammWithdrawer.LibraryConfig;
  serde_ibc :: ConfigSerde GenericIbcTransfer.LibraryConfig;
  serde_cl_lper :: ConfigSerde OsmosisClLper.LibraryConfig;
  serde_cl_withdrawer :: ConfigSerde OsmosisClWithdrawer.LibraryConfig;
  serde_staker :: ConfigSerde DropLiquidStaker.LibraryConfig;
  serde_unstaker :: ConfigSerde DropLiquidUnstaker.LibraryConfig;
  serde_mars :: ConfigSerde MarsLending.LibraryConfig;
  serde_duality_lper :: ConfigSerde DualityLper.LibraryConfig;
  serde_duality_withdrawer :: ConfigSerde DualityWithdrawer.LibraryConfig;
  serde_magma_lper :: ConfigSerde MagmaLper.LibraryConfig;
  serde_magma_withdrawer :: ConfigSerde MagmaWithdrawer.LibraryConfig;
  serde_vortex :: ConfigSerde VortexLper.LibraryConfig;
}.
Class UpdateSerde := {
  update_forwarder :: JsonCodec (LibExecuteMsg () Forwarder.LibraryConfigUpdate);
  update_splitter :: JsonCodec (LibExecuteMsg () Splitter.LibraryConfigUpdate);
  update_reverse_splitter :: JsonCodec (LibExecuteMsg () ReverseSplitter.LibraryConfigUpdate);
  update_astroport_lper :: JsonCodec (LibExecuteMsg () AstroportLper.LibraryConfigUpdate);
  update_astroport_withdrawer :: JsonCodec (LibExecuteMsg () AstroportWithdrawer.LibraryConfigUpdate);
  update_gamm_lper :: JsonCodec (LibExecuteMsg () OsmosisGammLper.LibraryConfigUpdate);
  update_gamm_withdrawer :: JsonCodec (LibExecuteMsg () OsmosisGammWithdrawer.LibraryConfigUpdate);
  update_ibc :: JsonCodec (LibExecuteMsg () GenericIbcTransfer.LibraryConfigUpdate);
  update_cl_lper :: JsonCodec (LibExecuteMsg () OsmosisClLper.LibraryConfigUpdate);
  update_cl_withdrawer :: JsonCodec (LibExecuteMsg () OsmosisClWithdrawer.LibraryConfigUpdate);
  update_staker :: JsonCodec (LibExecuteMsg () DropLiquidStaker.LibraryConfigUpdate);
  update_unstaker :: JsonCodec (LibExecuteMsg () DropLiquidUnstaker.LibraryConfigUpdate);
  update_mars :: JsonCodec (LibExecuteMsg () MarsLending.LibraryConfigUpdate);
  update_duality_lper :: JsonCodec (LibExecuteMsg () DualityLper.LibraryConfigUpdate);
  update_duality_withdrawer :: JsonCodec (LibExecuteMsg () DualityWithdrawer.LibraryConfigUpdate);
  update_magma_lper :: JsonCodec (LibExecuteMsg () MagmaLper.LibraryConfigUpdate);
  update_magma_withdrawer :: JsonCodec (LibExecuteMsg () MagmaWithdrawer.LibraryConfigUpdate);
  update_vortex :: JsonCodec (LibExecuteMsg () VortexLper.LibraryConfigUpdate);
}.

(** The rest of a text, and the digits it starts with. *)
Fixpoint string_drop (n : nat) (s : string) : string :=
  match n, s with S n, String _ s => string_drop n s | _, _ => s end.
Fixpoint take_digits (s : string) : string :=
  match s with
  | String a s => match digit_value a with Some _ => String a (take_digits s) | None => "" end
  | "" => ""
  end.
Section Configs.
Context `{CosmMath} `{HashOrder} `{LibrarySerde} `{UpdateSerde} `{AhoCorasick}.
(** What the macro does with every variant but the first. *)
Definition match_config {B} (none : B) (f : ∀ C, ConfigSerde C → PreValidate C → C → B) (self : LibraryConfig) : B :=
  match self with
  | NoConfig => none
  | ValenceForwarderLibrary c => f _ _ _ c
  | ValenceSplitterLibrary c => f _ _ _ c
  | ValenceReverseSplitterLibrary c => f _ _ _ c
  | ValenceAstroportLper c => f _ _ _ c
  | ValenceAstroportWithdrawer c => f _ _ _ c
  | ValenceOsmosisGammLper c => f _ _ _ c
  | ValenceOsmosisGammWithdrawer c => f _ _ _ c
  | ValenceGenericIbcTransferLibrary c => f _ _ _ c
  | ValenceNeutronIbcTransferLibrary c => f _ _ _ c
  | ValenceOsmosisClLper c => f _ _ _ c
  | ValenceOsmosisClWithdrawer c => f _ _ _ c
  | ValenceDropLiquidStaker c => f _ _ _ c
  | ValenceDropLiquidUnstaker c => f _ _ _ c
  | ValenceMarsLending c => f _ _ _ c
  | ValenceDualityLper c => f _ _ _ c
  | ValenceDualityWithdrawer c => f _ _ _ c
  | ValenceMagmaLper c => f _ _ _ c
  | ValenceMagmaWithdrawer c => f _ _ _ c
  | ValenceVortexLper c => f _ _ _ c
  end.
Definition map_config (f : ∀ C, ConfigSerde C → C → result MLibraryError C) (self : LibraryConfig)
    : result MLibraryError LibraryConfig :=
  match self with
  | NoConfig => Err NoLibraryConfig
  | ValenceForwarderLibrary c => c ← f _ _ c; Ok (ValenceForwarderLibrary c)
  | ValenceSplitterLibrary c => c ← f _ _ c; Ok (ValenceSplitterLibrary c)
  | ValenceReverseSplitterLibrary c => c ← f _ _ c; Ok (ValenceReverseSplitterLibrary c)
  | ValenceAstroportLper c => c ← f _ _ c; Ok (ValenceAstroportLper c)
  | ValenceAstroportWithdrawer c => c ← f _ _ c; Ok (ValenceAstroportWithdrawer c)
  | ValenceOsmosisGammLper c => c ← f _ _ c; Ok (ValenceOsmosisGammLper c)
  | ValenceOsmosisGammWithdrawer c => c ← f _ _ c; Ok (ValenceOsmosisGammWithdrawer c)
  | ValenceGenericIbcTransferLibrary c => c ← f _ _ c; Ok (ValenceGenericIbcTransferLibrary c)
  | ValenceNeutronIbcTransferLibrary c => c ← f _ _ c; Ok (ValenceNeutronIbcTransferLibrary c)
  | ValenceOsmosisClLper c => c ← f _ _ c; Ok (ValenceOsmosisClLper c)
  | ValenceOsmosisClWithdrawer c => c ← f _ _ c; Ok (ValenceOsmosisClWithdrawer c)
  | ValenceDropLiquidStaker c => c ← f _ _ c; Ok (ValenceDropLiquidStaker c)
  | ValenceDropLiquidUnstaker c => c ← f _ _ c; Ok (ValenceDropLiquidUnstaker c)
  | ValenceMarsLending c => c ← f _ _ c; Ok (ValenceMarsLending c)
  | ValenceDualityLper c => c ← f _ _ c; Ok (ValenceDualityLper c)
  | ValenceDualityWithdrawer c => c ← f _ _ c; Ok (ValenceDualityWithdrawer c)
  | ValenceMagmaLper c => c ← f _ _ c; Ok (ValenceMagmaLper c)
  | ValenceMagmaWithdrawer c => c ← f _ _ c; Ok (ValenceMagmaWithdrawer c)
  | ValenceVortexLper c => c ← f _ _ c; Ok (ValenceVortexLper c)
  end.
Definition replace_config (self : LibraryConfig) (patterns replace_with : list string)
    : result MLibraryError LibraryConfig :=
  _ ← map_err_r AhoCorasickE (ac_new patterns);
  map_config (λ C _ config,
    json ← map_err_r SerdeJsonError (serde_to_string config);
    let res := ac_replace_all patterns replace_with json in
    map_err_r SerdeJsonError (serde_from_str res)) self.
Definition get_instantiate_msg (self : LibraryConfig) (owner processor : string) : result MLibraryError Binary :=
  match_config (Err NoLibraryConfig)
    (λ C _ _ config, map_err_r SerdeJsonError (instantiate_to_vec (mkLibInstantiateMsg owner processor config))) self.
Definition pre_validate_config (api : Platform) (self : LibraryConfig) : result MLibraryError unit :=
  match_config (Err NoLibraryConfig) (λ C _ _ config, map_err_r ValenceLibraryError (pre_validate api config)) self.
(** The number after each match of the pattern; the text of a number is of ASCII digits. *)
Definition ACCOUNT_ID_PATTERN : string :=
  String (Ascii.ascii_of_nat 34) ("|account_id|" +:+ String (Ascii.ascii_of_nat 34) ":").
Definition find_account_id (json : string) (match_end : nat) : result MLibraryError N :=
  ok_or_r (parse_u64 (take_digits (string_drop match_end json))) ParseIntError.
Definition find_account_ids (patterns : list string) (json : string) : result MLibraryError (list N) :=
  mapM (find_account_id json) (ac_match_ends patterns json).
Definition get_account_ids (self : LibraryConfig) : result MLibraryError (list N) :=
  match ac_new [ACCOUNT_ID_PATTERN] with
  | Ok _ =>
      match_config (Err NoLibraryConfig) (λ C _ _ config,
        json ← map_err_r SerdeJsonError (serde_to_string config);
        find_account_ids [ACCOUNT_ID_PATTERN] json) self
  | _ => Panic
  end.
Definition get_update_msg (self : LibraryConfigUpdate) : result MLibraryError Binary :=
  match self with
  | NoUpdate => Err NoLibraryConfigUpdate
  | ForwarderUpdate u => map_err_r CosmwasmStdError (to_json_binary (UpdateConfig (F:=()) u))
  | SplitterUpdate u => map_err_r CosmwasmStdError (to_json_binary (UpdateConfig (F:=()) u))
  | ReverseSplitterUpdate u => map_err_r CosmwasmStdError (to_json_binary (UpdateConfig (F:=()) u))
  | AstroportLperUpdate u => map_err_r CosmwasmStdError (to_json_binary (UpdateConfig (F:=()) u))
  | AstroportWithdrawerUpdate u => map_err_r CosmwasmStdError (to_json_binary (UpdateConfig (F:=()) u))
  | OsmosisGammLperUpdate u => map_err_r CosmwasmStdError (to_json_binary (UpdateConfig (F:=()) u))
  | OsmosisGammWithdrawerUpdate u => map_err_r CosmwasmStdError (to_json_binary (UpdateConfig (F:=()) u))
  | GenericIbcTransferUpdate u => map_err_r CosmwasmStdError (to_json_binary (UpdateConfig (F:=()) u))
  | NeutronIbcTransferUpdate u => map_err_r CosmwasmStdError (to_json_binary (UpdateConfig (F:=()) u))
  | OsmosisClLperUpdate u => map_err_r CosmwasmStdError (to_json_binary (UpdateConfig (F:=()) u))
  | OsmosisClWithdrawerUpdate u => map_err_r CosmwasmStdError (to_json_binary (UpdateConfig (F:=()) u))
  | DropLiquidStakerUpdate u => map_err_r CosmwasmStdError (to_json_binary (UpdateConfig (F:=()) u))
  | DropLiquidUnstakerUpdate u => map_err_r CosmwasmStdError (to_json_binary (UpdateConfig (F:=()) u))
  | MarsLendingUpdate u => map_err_r CosmwasmStdError (to_json_binary (UpdateConfig (F:=()) u))
  | DualityLperUpdate u => map_err_r CosmwasmStdError (to_json_binary (UpdateConfig (F:=()) u))
  | DualityWithdrawerUpdate u => map_err_r CosmwasmStdError (to_json_binary (UpdateConfig (F:=()) u))
  | MagmaLperUpdate u => map_err_r CosmwasmStdError (to_json_binary (UpdateConfig (F:=()) u))
  | MagmaWithdrawerUpdate u => map_err_r CosmwasmStdError (to_json_binary (UpdateConfig (F:=()) u))
  | VortexLperUpdate u => map_err_r CosmwasmStdError (to_json_binary (UpdateConfig (F:=()) u))
  end.
End Configs.
End Manager.
