(* ===== verification/ProgramManager.v ===== *)
(** * The program manager: a new program

    [program-manager/src]: the data ([account.rs], [library.rs], [domain/mod.rs],
    [bridge.rs], [config.rs], [error.rs], [program_config.rs]), the chains
    ([connectors.rs] and the trait [Connector]), and [ProgramConfig::init].  The manager
    runs off-chain.  Its effect is what it asks the chains, in which order: an operation
    takes the calls made so far and returns the calls made after it, whether it succeeds
    or not.  What the chains answer to a call, after the calls before it, is a parameter. *)
From Stdlib Require Import Strings.Ascii Strings.Byte.
From S2P Require Import Prelude Platform Types Format Accounts LibraryBase LibraryAccount ProgramRegistry ManagerLibrary.

Module ProgramManager.
Import Manager.
Definition NEUTRON_CHAIN : string := "neutron".

(** ** [domain/mod.rs] *)
Inductive Domain := CosmosCosmwasm (chain_name : string).
#[global] Instance Domain_eq_dec : EqDecision Domain. Proof. solve_decision. Defined.
#[global] Instance Domain_countable : Countable Domain.
Proof. refine (inj_countable' (λ '(CosmosCosmwasm s), s) CosmosCosmwasm _). by intros []. Defined.
Definition neutron_domain : Domain := CosmosCosmwasm NEUTRON_CHAIN.
Definition Domain_to_string (self : Domain) : string :=
  match self with CosmosCosmwasm chain_name => "CosmosCosmwasm:" +:+ chain_name end.
Definition get_chain_name (self : Domain) : string := match self with CosmosCosmwasm chain_name => chain_name end.
(** [str::split(':')]: the first part, and the rest after the separator. *)
Fixpoint split_once (s : string) : string * option string :=
  match s with
  | "" => ("", None)
  | String ":"%char rest => ("", Some rest)
  | String a rest => let '(part, rest) := split_once rest in (String a part, rest)
  end.

(** ** [config.rs] and [bridge.rs] *)
Inductive ConfigError :=
| ChainInfoNotFound (chain : string)
| CodeIdsNotFound (chain : string)
| MainChainBridgeNotFound (chain : string)
| ChainBridgeNotFound (chain : string).
Record PolytoneSingleChainInfo := mkPolytoneSingleChainInfo {
  voice_addr : string;
  note_addr : string;
  other_note_port : string;
  connection_id : string;
  channel_id : string;
}.
Definition PolytoneBridgeInfo : Type := gmap string PolytoneSingleChainInfo.
Inductive Bridge := Polytone (info : PolytoneBridgeInfo).
Definition bridge_polytone_info (self : Bridge) : PolytoneBridgeInfo := match self with Polytone b => b end.
Record ChainInfo := mkChainInfo {
  ch_name : string;
  ch_rpc : string;
  ch_grpc : string;
  ch_prefix : string;
  ch_gas_price : string;
  ch_gas_denom : string;
  ch_coin_type : N;
}.
Record GlobalConfig := mkGlobalConfig {
  gc_chains : gmap string ChainInfo;
  gc_code_ids : gmap string (gmap string N);
  gc_bridges : gmap string (gmap string Bridge);
  gc_registry_addr : string;
}.
Definition get_chain_info (self : GlobalConfig) (chain_name : string) : result ConfigError ChainInfo :=
  ok_or_r (gc_chains self !! chain_name) (ChainInfoNotFound chain_name).
Definition get_code_ids (self : GlobalConfig) (chain_name : string) : result ConfigError (gmap string N) :=
  ok_or_r (gc_code_ids self !! chain_name) (CodeIdsNotFound chain_name).
Definition get_bridge_info (self : GlobalConfig) (main_chain chain_name : string) : result ConfigError Bridge :=
  bridges ← ok_or_r (gc_bridges self !! main_chain) (MainChainBridgeNotFound main_chain);
  ok_or_r (bridges !! chain_name) (ChainBridgeNotFound chain_name).
Definition update_code_id (chain_name contract_name : string) (code_id : N) (self : GlobalConfig) : GlobalConfig :=
  mkGlobalConfig (gc_chains self)
    (<[chain_name := <[contract_name := code_id]> (default ∅ (gc_code_ids self !! chain_name))]> (gc_code_ids self))
    (gc_bridges self) (gc_registry_addr self).
(** [helpers.rs]. *)
Definition get_polytone_info (gc : GlobalConfig) (main_chain other_chain : string)
    : result ConfigError PolytoneBridgeInfo :=
  bridge ← get_bridge_info gc main_chain other_chain;
  Ok (bridge_polytone_info bridge).

(** ** [account.rs], [library.rs] and [program_config.rs] *)
Inductive AccountType := AccAddr (addr : string) | Base (admin : option string).
Definition AccountType_to_string (self : AccountType) : string :=
  match self with AccAddr _ => "Addr" | Base _ => "valence_base_account" end.
Record AccountInfo := mkAccountInfo {
  acc_name : string;
  acc_ty : AccountType;
  acc_domain : Domain;
  acc_addr : option string;
}.
Record InstantiateAccountData := mkInstantiateAccountData {
  iad_id : N;
  iad_info : AccountInfo;
  iad_addr : string;
  iad_salt : Binary;
  iad_approved_libraries : list string;
}.
Definition InstantiateAccountData_new (id : N) (info : AccountInfo) (addr : string) (salt : Binary)
    : InstantiateAccountData := mkInstantiateAccountData id info addr salt [].
Definition add_library (library_addr : string) (self : InstantiateAccountData) : InstantiateAccountData :=
  mkInstantiateAccountData (iad_id self) (iad_info self) (iad_addr self) (iad_salt self)
    (iad_approved_libraries self ++ [library_addr]).
Record LibraryInfo := mkLibraryInfo {
  li_name : string;
  li_domain : Domain;
  li_config : LibraryConfig;
  li_addr : option string;
}.
Record Link := mkLink {
  input_accounts_id : list N;
  output_accounts_id : list N;
  library_id : N;
}.
Record AuthorizationData := mkAuthorizationData {
  authorization_addr : string;
  processor_addrs : gmap string string;
  authorization_bridge_addrs : gmap string string;
  processor_bridge_addrs : list string;
}.
#[global] Instance AuthorizationData_eq_dec : EqDecision AuthorizationData. Proof. solve_decision. Defined.
Definition AuthorizationData_default : AuthorizationData := mkAuthorizationData "" ∅ ∅ [].
Definition set_authorization_addr (addr : string) (self : AuthorizationData) : AuthorizationData :=
  mkAuthorizationData addr (processor_addrs self) (authorization_bridge_addrs self) (processor_bridge_addrs self).
Definition set_processor_addr (domain : Domain) (addr : string) (self : AuthorizationData) : AuthorizationData :=
  mkAuthorizationData (authorization_addr self) (<[Domain_to_string domain := addr]> (processor_addrs self))
    (authorization_bridge_addrs self) (processor_bridge_addrs self).
Definition set_authorization_bridge_addr (domain : Domain) (addr : string) (self : AuthorizationData)
    : AuthorizationData :=
  mkAuthorizationData (authorization_addr self) (processor_addrs self)
    (<[Domain_to_string domain := addr]> (authorization_bridge_addrs self)) (processor_bridge_addrs self).
Definition set_processor_bridge_addr (addr : string) (self : AuthorizationData) : AuthorizationData :=
  mkAuthorizationData (authorization_addr self) (processor_addrs self) (authorization_bridge_addrs self)
    (processor_bridge_addrs self ++ [addr]).
Record ProgramConfig := mkProgramConfig {
  pc_id : N;
  pc_name : string;
  pc_owner : string;
  pc_links : gmap N Link;
  pc_accounts : gmap N AccountInfo;
  pc_libraries : gmap N LibraryInfo;
  pc_authorizations : list AuthorizationInfo;
  pc_authorization_data : AuthorizationData;
}.
(** A [BTreeMap] by id, or by text, in order. *)
Definition ids {V} (m : gmap N V) : list (N * V) := map_range N.leb m None.
Definition by_name {V} (m : gmap string V) : list (string * V) := map_range String.leb m None.

(** ** [error.rs]

    [ensure!] wraps its error in an [anyhow::Error], [context] makes one of a text. *)
Inductive CosmosCosmwasmError :=
| CwError (e : string)
| CwGrpcError (e : string)
| CwSerdeJsonError (e : string)
| CwConfigError (e : ConfigError)
| CwLibraryError (e : MLibraryError)
| CwStdError (e : StdError).
Inductive ConnectorError := ConnectorConfig (e : ConfigError) | CosmosCosmwasmErr (e : CosmosCosmwasmError).
Inductive ManagerError :=
| ErrorContext (context : string)
| ErrorOf (e : ManagerError)
| Generic (e : string)
| ConnectorE (e : ConnectorError)
| ConfigE (e : ConfigError)
| LibraryE (e : MLibraryError)
| AuthorizationDataNotDefault
| IdNotZero
| OwnerEmpty
| NoAuthorizations
| AccountIdNotFoundInLinks (id : N)
| AccountIdNotFoundInLibraries (id : N)
| LibraryIdNotFoundInLinks (id : N)
| AccountIdNotFoundLink (ids : gset N)
| AccountIdNotFoundLibraryConfig (ids : gset N)
| LibraryIdNotFoundLink (ids : gset N)
| FailedToRetrieveAccountInitData (account_id library_id : N)
| ProgramIdAlreadyExists (id : N)
| ProcessorAddrNotFound (domain : string)
| InvalidProgramId
| AccountWasRemoved (account : string)
| LibraryIdIsMissing (id : N)
| AuthorizationLabelNotFound (label : string)
| AuthorizationLabelExists (label : string)
| FundsTransferAmountZero (from to : string)
| AccountNotFoundInOldProgram (addr : string)
| AccountIdWasNotFound (id : N).
#[global] Instance From_Connector_Manager : From ConnectorError ManagerError := ConnectorE.
#[global] Instance From_Config_Manager : From ConfigError ManagerError := ConfigE.
#[global] Instance From_Library_Manager : From MLibraryError ManagerError := LibraryE.
Definition ensure_m (cond : bool) (e : ManagerError) : result ManagerError unit :=
  if cond then Ok () else Err (ErrorOf e).
Definition from_string (input : string) : result ManagerError Domain :=
  let '(domain, rest) := split_once input in
  if bool_decide (domain = "CosmosCosmwasm") then
    rest ← ok_or_r rest (ErrorContext "CosmosCosmwasm Domain missing chain name");
    Ok (CosmosCosmwasm (split_once rest).1)
  else Err (ErrorContext ("Failed to parse domain from string: " +:+ domain)%string).

(** ** The chains

    [get_or_create_connector] and the methods of the trait [Connector], on a domain. *)
Inductive Call :=
| Connect (d : Domain)
| GetAddress (d : Domain) (program_id : N) (contract_name extra_salt : string)
| GetAddressBridge (d : Domain) (sender_addr main_chain sender_chain receiving_chain : string)
| InstantiateAccount (d : Domain) (program_id : N) (processor_addr : string) (data : InstantiateAccountData)
| InstantiateLibrary (d : Domain) (program_id : N) (processor_addr : string) (library_id : N)
    (library_config : LibraryConfig) (salt : Binary)
| InstantiateProcessor (d : Domain) (program_id : N) (salt : Binary) (admin authorization : string)
    (polytone_config : option PolytoneContracts)
| InstantiateProcessorBridgeAccount (d : Domain) (processor_addr : string) (retry : N)
| VerifyAccount (d : Domain) (account_addr : string)
| VerifyLibrary (d : Domain) (library_addr : option string)
| VerifyProcessor (d : Domain) (processor_addr : string)
| VerifyBridgeAccount (d : Domain) (bridge_addr : string)
| ReserveProgramId (d : Domain)
| InstantiateAuthorization (d : Domain) (program_id : N) (salt : Binary) (processor_addr : string)
| AddAuthorizations (d : Domain) (authorization_addr : string) (authorizations : list AuthorizationInfo)
| InstantiateAuthorizationBridgeAccount (d : Domain) (authorization_addr domain : string) (retry : N)
| AddExternalDomain (d : Domain) (main_domain domain authorization_addr processor_addr bridge_account_addr : string)
| ChangeAuthorizationOwner (d : Domain) (authorization_addr owner : string)
| QueryProgramRegistry (d : Domain) (id : N)
| VerifyAuthorizationAddr (d : Domain) (addr : string)
| SaveProgramConfig (d : Domain) (config : ProgramConfig)
| UpdateProgramConfig (d : Domain) (config : ProgramConfig)
| GetProgramConfig (d : Domain) (id : N).
(** The answers, after the calls made before, and [get_api]. *)
Class Chains := {
  chain_done : list Call → Call → result ConnectorError unit;
  chain_address : list Call → Call → result ConnectorError (string * Binary);
  chain_bridge_address : list Call → Call → result ConnectorError string;
  chain_program_id : list Call → Call → result ConnectorError N;
  chain_registry : list Call → Call → result ConnectorError ProgramRegistry.ProgramResponse;
  chain_program : list Call → Call → result ConnectorError ProgramConfig;
  chain_api : Domain → Platform;
}.
(** Hashing: iteration over a [HashMap] or [HashSet] has no specified order, and the [DashMap]
    of the connectors keeps an entry in the shard of its hash. *)
Class ManagerOrder := {
  iter_map : ∀ {V : Type}, gmap N V → list (N * V);
  iter_domains : gset Domain → list Domain;
  connector_shard : Domain → N;
}.
Class ManagerOrderLaws `{ManagerOrder} : Prop := {
  iter_map_perm {V} (m : gmap N V) : iter_map m ≡ₚ map_to_list m;
  iter_domains_perm (ds : gset Domain) : iter_domains ds ≡ₚ elements ds;
}.

(** ** Operations of the manager *)
Definition Mgr (A : Type) : Type := list Call → list Call * result ManagerError A.
#[global] Instance Mgr_ret : MRet Mgr := λ A a log, (log, Ok a).
#[global] Instance Mgr_bind : MBind Mgr := λ A B f m log,
  match m log with
  | (log, Ok a) => f a log
  | (log, Err e) => (log, Err e)
  | (log, Panic) => (log, Panic)
  end.
Definition lift_m {E A} `{From E ManagerError} (r : result E A) : Mgr A := λ log, (log, map_err_r from r).
Definition ask {A} (answer : list Call → Call → result ConnectorError A) (c : Call) : Mgr A := λ log,
  (log ++ [c], map_err_r ConnectorE (answer log c)).
Definition ask_result {A} (answer : list Call → Call → result ConnectorError A) (c : Call)
    : Mgr (result ConnectorError A) := λ log, (log ++ [c], Ok (answer log c)).
(** A loop that carries a state. *)
Fixpoint fold_m {A B} (f : B → A → Mgr B) (b : B) (l : list A) : Mgr B :=
  match l with
  | [] => mret b
  | x :: l => b ← f b x; fold_m f b l
  end.
Definition each_m {A} (f : A → Mgr unit) (l : list A) : Mgr unit := fold_m (λ _ x, f x) () l.

(** ** [verify_new_config] *)
Section Verify.
Context `{CosmMath} `{HashOrder} `{LibrarySerde} `{AhoCorasick}.
(** [BTreeSet::remove] of each id in turn. *)
Fixpoint remove_ids (missing : N → ManagerError) (keys : list N) (set : gset N) : result ManagerError (gset N) :=
  match keys with
  | [] => Ok set
  | id :: keys =>
      if bool_decide (id ∈ set) then remove_ids missing keys (set ∖ {[ id ]}) else Err (missing id)
  end.
Definition link_accounts (links : gmap N Link) : gset N :=
  list_to_set (l ← (ids links).*2; input_accounts_id l ++ output_accounts_id l).
Definition link_libraries (links : gmap N Link) : gset N := list_to_set (library_id <$> (ids links).*2).
Definition config_accounts (libraries : gmap N LibraryInfo) : result ManagerError (gset N) :=
  found ← map_err_r LibraryE (mapM (λ l, get_account_ids (li_config l)) (ids libraries).*2);
  Ok (list_to_set (mjoin found)).
Definition verify_new_config (self : ProgramConfig) : result ManagerError unit :=
  _ ← ensure_m (pc_id self =? 0)%N IdNotZero;
  _ ← ensure_m (negb (bool_decide (pc_owner self = ""))) OwnerEmpty;
  _ ← ensure_m (bool_decide (pc_authorization_data self = AuthorizationData_default)) AuthorizationDataNotDefault;
  _ ← ensure_m (negb (bool_decide (length (pc_authorizations self) = 0))) NoAuthorizations;
  accounts ← remove_ids AccountIdNotFoundInLinks (ids (pc_accounts self)).*1 (link_accounts (pc_links self));
  _ ← ensure_m (bool_decide (accounts = ∅)) (AccountIdNotFoundLink accounts);
  libraries ← remove_ids LibraryIdNotFoundInLinks (ids (pc_libraries self)).*1 (link_libraries (pc_links self));
  _ ← ensure_m (bool_decide (libraries = ∅)) (LibraryIdNotFoundLink libraries);
  found ← config_accounts (pc_libraries self);
  accounts ← remove_ids AccountIdNotFoundInLibraries (ids (pc_accounts self)).*1 (accounts ∪ found);
  ensure_m (bool_decide (accounts = ∅)) (AccountIdNotFoundLibraryConfig accounts).
End Verify.

(** ** The methods of a configuration *)
Definition get_all_domains (self : ProgramConfig) : gset Domain :=
  list_to_set ((acc_domain <$> (ids (pc_accounts self)).*2) ++ (li_domain <$> (ids (pc_libraries self)).*2)).
Definition get_account (self : ProgramConfig) (id : N) : result ManagerError AccountInfo :=
  ok_or_r (pc_accounts self !! id) (Generic ("Account with id " +:+ pretty id +:+ " not found")%string).
Definition get_library (libraries : gmap N LibraryInfo) (id : N) : result ManagerError LibraryInfo :=
  ok_or_r (libraries !! id) (Generic ("Library with id " +:+ pretty id +:+ " not found")%string).
Definition get_processor_account_on_domain (self : AuthorizationData) (domain : Domain) : result ManagerError string :=
  ok_or_r (processor_addrs self !! Domain_to_string domain) (ProcessorAddrNotFound (Domain_to_string domain)).
Definition get_processor_addr (self : ProgramConfig) (domain : string) : result ManagerError string :=
  ok_or_r (processor_addrs (pc_authorization_data self) !! domain) (ProcessorAddrNotFound domain).
Definition set_id (id : N) (self : ProgramConfig) : ProgramConfig :=
  mkProgramConfig id (pc_name self) (pc_owner self) (pc_links self) (pc_accounts self) (pc_libraries self)
    (pc_authorizations self) (pc_authorization_data self).
Definition set_parts (accounts : gmap N AccountInfo) (libraries : gmap N LibraryInfo)
    (authorizations : list AuthorizationInfo) (data : AuthorizationData) (self : ProgramConfig) : ProgramConfig :=
  mkProgramConfig (pc_id self) (pc_name self) (pc_owner self) (pc_links self) accounts libraries authorizations data.

(** ** [init] *)
Section Init.
Context `{CosmMath} `{HashOrder} `{LibrarySerde} `{AhoCorasick} `{Chains} `{ManagerOrder} (gc : GlobalConfig).

(** A connector is made once and cached.  The caller holds the connector as a guard that
    locks its shard of the map; [held] are the domains whose guards are alive when the call
    is made.  A call for a domain in a shard that is already locked waits for a guard of its
    own task and never returns: like a panic, it ends the run without a result. *)
Definition shard_locked (held : list Domain) (d : Domain) : bool :=
  existsb (λ h, connector_shard h =? connector_shard d)%N held.
Definition never_returns {A} : Mgr A := λ log, (log, Panic).
Definition get_or_create_connector (held : list Domain) (d : Domain) : Mgr unit := λ log,
  if shard_locked held d then never_returns log
  else if existsb (λ c, match c with Connect d' => bool_decide (d = d') | _ => false end) log
  then (log, Ok ()) else ask chain_done (Connect d) log.
Definition get_address (d : Domain) (program_id : N) (contract_name extra_salt : string) : Mgr (string * Binary) :=
  ask chain_address (GetAddress d program_id contract_name extra_salt).
Definition do_ (c : Call) : Mgr unit := ask chain_done c.

(** The processor and the bridge accounts of another domain, while the connector of neutron
    is held. *)
Definition init_domain (program_id : N) (authorization_addr : string) (data : AuthorizationData) (domain : Domain)
    : Mgr AuthorizationData :=
  if bool_decide (domain = neutron_domain) then mret data else
  _ ← get_or_create_connector [neutron_domain] domain;
  authorization_bridge_account_addr ← ask chain_bridge_address
    (GetAddressBridge domain authorization_addr NEUTRON_CHAIN NEUTRON_CHAIN (get_chain_name domain));
  '(processor_addr, salt) ← get_address domain program_id "valence_processor" "valence_processor";
  polytone_bridge_info ← lift_m (get_polytone_info gc NEUTRON_CHAIN (get_chain_name domain));
  let polytone_config :=
    (λ chain_info, mkPolytoneContracts authorization_bridge_account_addr (note_addr chain_info) 3010000)
      <$> (polytone_bridge_info !! get_chain_name domain) in
  processor_bridge_account_addr ← ask chain_bridge_address
    (GetAddressBridge neutron_domain processor_addr NEUTRON_CHAIN (get_chain_name domain) NEUTRON_CHAIN);
  _ ← do_ (InstantiateProcessor domain program_id salt authorization_bridge_account_addr authorization_addr
             polytone_config);
  _ ← do_ (AddExternalDomain neutron_domain (get_chain_name neutron_domain) (get_chain_name domain)
             authorization_addr processor_addr processor_bridge_account_addr);
  _ ← do_ (InstantiateAuthorizationBridgeAccount neutron_domain authorization_addr (get_chain_name domain) 3);
  _ ← do_ (InstantiateProcessorBridgeAccount domain processor_addr 3);
  mret (set_processor_bridge_addr processor_bridge_account_addr
         (set_authorization_bridge_addr domain authorization_bridge_account_addr
           (set_processor_addr domain processor_addr data))).

(** The address of an account that the program brings along. *)
Definition predict_account (program_id : N)
    (st : gmap N AccountInfo * gmap N InstantiateAccountData) (ia : N * AccountInfo)
    : Mgr (gmap N AccountInfo * gmap N InstantiateAccountData) :=
  let '(accounts, datas) := st in
  let '(account_id, account) := ia in
  match acc_ty account with
  | AccAddr _ => mret (accounts, datas)
  | Base _ =>
      _ ← get_or_create_connector [] (acc_domain account);
      '(addr, salt) ← get_address (acc_domain account) program_id (AccountType_to_string (acc_ty account))
                        ("account_" +:+ pretty account_id)%string;
      mret (<[account_id := mkAccountInfo (acc_name account) (AccAddr addr) (acc_domain account) (Some addr)]> accounts,
            <[account_id := InstantiateAccountData_new account_id account addr salt]> datas)
  end.

(** The texts that stand for an account in a configuration, and what they become. *)
Definition quote : string := String (Ascii.ascii_of_nat 34) "".
Definition account_patterns (account_id : N) : list string :=
  ["|account_id|" +:+ quote +:+ ":" +:+ pretty account_id;
   LIBRARY_ACCOUNT_RAW_PLACEHOLDER +:+ ":" +:+ pretty account_id]%string.
Definition account_replacements (addr : string) : list string :=
  ["library_account_addr" +:+ quote +:+ ":" +:+ quote +:+ addr +:+ quote; addr]%string.
Definition init_data (datas : gmap N InstantiateAccountData) (account_id library_id : N)
    : result ManagerError InstantiateAccountData :=
  ok_or_r (datas !! account_id) (FailedToRetrieveAccountInitData account_id library_id).
Fixpoint approve_inputs (library_id : N) (library_addr : string) (inputs : list N)
    (datas : gmap N InstantiateAccountData) (patterns replace_with : list string)
    : result ManagerError (gmap N InstantiateAccountData * list string * list string) :=
  match inputs with
  | [] => Ok (datas, patterns, replace_with)
  | account_id :: inputs =>
      account_data ← init_data datas account_id library_id;
      approve_inputs library_id library_addr inputs
        (<[account_id := add_library library_addr account_data]> datas)
        (patterns ++ account_patterns account_id) (replace_with ++ account_replacements (iad_addr account_data))
  end.
Fixpoint list_outputs (library_id : N) (outputs : list N) (datas : gmap N InstantiateAccountData)
    (patterns replace_with : list string) : result ManagerError (list string * list string) :=
  match outputs with
  | [] => Ok (patterns, replace_with)
  | account_id :: outputs =>
      account_data ← init_data datas account_id library_id;
      list_outputs library_id outputs datas
        (patterns ++ account_patterns account_id) (replace_with ++ account_replacements (iad_addr account_data))
  end.
(** The state of the loop over the links: libraries, accounts and the salts. *)
Definition LinkState : Type := gmap N LibraryInfo * gmap N InstantiateAccountData * gmap N Binary.
Definition prepare_link (program_id : N) (st : LinkState) (link : Link) : Mgr LinkState :=
  let '(libraries, datas, salts) := st in
  library ← lift_m (get_library libraries (library_id link));
  _ ← get_or_create_connector [] (li_domain library);
  '(library_addr, salt) ← get_address (li_domain library) program_id (LibraryConfig_to_string (li_config library))
                            ("library_" +:+ pretty (library_id link))%string;
  '(datas, patterns, replace_with) ←
    lift_m (approve_inputs (library_id link) library_addr (input_accounts_id link) datas [] []);
  '(patterns, replace_with) ←
    lift_m (list_outputs (library_id link) (output_accounts_id link) datas patterns replace_with);
  config ← lift_m (replace_config (li_config library) patterns replace_with);
  _ ← lift_m (pre_validate_config (chain_api (li_domain library)) config);
  mret (<[library_id link := mkLibraryInfo (li_name library) (li_domain library) config (Some library_addr)]> libraries,
        datas, <[library_id link := salt]> salts).
Definition instantiate_link (program_id : N) (data : AuthorizationData) (libraries : gmap N LibraryInfo)
    (salts : gmap N Binary) (link : Link) : Mgr unit :=
  library ← lift_m (get_library libraries (library_id link));
  _ ← get_or_create_connector [] (li_domain library);
  processor_addr ← lift_m (get_processor_account_on_domain data (li_domain library));
  salt ← lift_m (expect_r (E:=ManagerError) (salts !! library_id link));
  do_ (InstantiateLibrary (li_domain library) program_id processor_addr (library_id link) (li_config library) salt).
Definition instantiate_account (program_id : N) (self : ProgramConfig) (data : N * InstantiateAccountData) : Mgr unit :=
  account ← lift_m (get_account self data.1);
  _ ← get_or_create_connector [] (acc_domain account);
  processor_addr ← lift_m (get_processor_addr self (Domain_to_string (acc_domain account)));
  do_ (InstantiateAccount (acc_domain account) program_id processor_addr data.2).

(** Ids become addresses in the functions of an authorization. *)
Definition resolve (datas : gmap N InstantiateAccountData) (libraries : gmap N LibraryInfo)
    (l : LibraryAccountType) : result ManagerError LibraryAccountType :=
  match l with
  | LibAddr a => Ok (LibAddr a)
  | LibAccountId account_id => data ← expect_r (datas !! account_id); Ok (LibAddr (iad_addr data))
  | LibLibraryId library_id =>
      library ← expect_r (libraries !! library_id);
      addr ← expect_r (li_addr library);
      Ok (LibAddr addr)
  end.
Definition resolve_atomic (datas : gmap N InstantiateAccountData) (libraries : gmap N LibraryInfo)
    (f : AtomicFunction) : result ManagerError AtomicFunction :=
  addr ← resolve datas libraries (af_contract_address f);
  Ok (mkAtomicFunction (af_domain f) (af_message_details f) addr).
Definition resolve_non_atomic (datas : gmap N InstantiateAccountData) (libraries : gmap N LibraryInfo)
    (f : NonAtomicFunction) : result ManagerError NonAtomicFunction :=
  addr ← resolve datas libraries (nf_contract_address f);
  Ok (mkNonAtomicFunction (nf_domain f) (nf_message_details f) addr (nf_retry_logic f) (callback_confirmation f)).
Definition resolve_authorization (datas : gmap N InstantiateAccountData) (libraries : gmap N LibraryInfo)
    (a : AuthorizationInfo) : result ManagerError AuthorizationInfo :=
  sub ← match ai_subroutine a with
        | Atomic s =>
            fs ← mapM (resolve_atomic datas libraries) (as_functions s);
            Ok (Atomic (mkAtomicSubroutine fs (as_retry_logic s) (as_expiration_time s)))
        | NonAtomic s =>
            fs ← mapM (resolve_non_atomic datas libraries) (ns_functions s);
            Ok (NonAtomic (mkNonAtomicSubroutine fs (ns_expiration_time s)))
        end;
  Ok (mkAuthorizationInfo (ai_label a) (ai_mode a) (ai_not_before a) (ai_duration a) (ai_max_concurrent_executions a)
        sub (ai_priority a)).

(** ** [verify_init_was_successful] *)
Definition on_domain (name : string) (c : Domain → Call) : Mgr unit :=
  domain ← lift_m (from_string name);
  _ ← get_or_create_connector [] domain;
  do_ (c domain).
Definition verify_init_was_successful (self : ProgramConfig) (datas : gmap N InstantiateAccountData) : Mgr unit :=
  let data := pc_authorization_data self in
  _ ← get_or_create_connector [] neutron_domain;
  found ← ask_result chain_registry (QueryProgramRegistry neutron_domain (pc_id self));
  _ ← match found with
      | Ok _ => lift_m (Err (ErrorOf (ProgramIdAlreadyExists (pc_id self))))
      | Err _ => mret ()
      | Panic => lift_m (E:=ManagerError) Panic
      end;
  _ ← do_ (VerifyAuthorizationAddr neutron_domain (authorization_addr data));
  _ ← each_m (λ d : N * InstantiateAccountData,
        _ ← get_or_create_connector [] (acc_domain (iad_info d.2));
        do_ (VerifyAccount (acc_domain (iad_info d.2)) (iad_addr d.2))) (iter_map datas);
  _ ← each_m (λ l, _ ← get_or_create_connector [] (li_domain l); do_ (VerifyLibrary (li_domain l) (li_addr l)))
        (ids (pc_libraries self)).*2;
  _ ← each_m (λ p : string * string, on_domain p.1 (λ d, VerifyProcessor d p.2)) (by_name (processor_addrs data));
  _ ← each_m (λ p : string * string, on_domain p.1 (λ d, VerifyBridgeAccount d p.2))
        (by_name (authorization_bridge_addrs data));
  each_m (λ addr, _ ← get_or_create_connector [] neutron_domain; do_ (VerifyBridgeAccount neutron_domain addr))
    (processor_bridge_addrs data).

(** A program is instantiated on all its domains. *)
Definition init (self : ProgramConfig) : Mgr ProgramConfig :=
  _ ← lift_m (verify_new_config self);
  _ ← get_or_create_connector [] neutron_domain;
  program_id ← ask chain_program_id (ReserveProgramId neutron_domain);
  let self := set_id program_id self in
  let all_domains := get_all_domains self in
  '(authorization_addr, authorization_salt) ←
    get_address neutron_domain program_id "valence_authorization" "valence_authorization";
  '(main_processor_addr, main_processor_salt) ←
    get_address neutron_domain program_id "valence_processor" "valence_processor";
  _ ← do_ (InstantiateAuthorization neutron_domain program_id authorization_salt main_processor_addr);
  _ ← do_ (InstantiateProcessor neutron_domain program_id main_processor_salt authorization_addr authorization_addr None);
  let data := set_processor_addr neutron_domain main_processor_addr
                (set_authorization_addr authorization_addr (pc_authorization_data self)) in
  data ← fold_m (init_domain program_id authorization_addr) data (iter_domains all_domains);
  '(accounts, datas) ← fold_m (predict_account program_id) (pc_accounts self, ∅) (ids (pc_accounts self));
  '(libraries, datas, salts) ←
    fold_m (prepare_link program_id) (pc_libraries self, datas, ∅) (ids (pc_links self)).*2;
  _ ← each_m (instantiate_link program_id data libraries salts) (ids (pc_links self)).*2;
  let self := set_parts accounts libraries (pc_authorizations self) data self in
  _ ← each_m (instantiate_account program_id self) (iter_map datas);
  authorizations ← lift_m (mapM (resolve_authorization datas libraries) (pc_authorizations self));
  let self := set_parts accounts libraries authorizations data self in
  _ ← verify_init_was_successful self datas;
  _ ← get_or_create_connector [] neutron_domain;
  _ ← do_ (AddAuthorizations neutron_domain authorization_addr authorizations);
  _ ← do_ (ChangeAuthorizationOwner neutron_domain authorization_addr (pc_owner self));
  _ ← do_ (SaveProgramConfig neutron_domain self);
  mret self.
End Init.
End ProgramManager.
