(* ===== verification/ProgramManagerTheorems.v ===== *)
(** * The program manager: a new program is wired as it was described *)
From Stdlib Require Import Strings.Byte.
From S2P Require Import Prelude Platform Types Format Accounts LibraryBase LibraryAccount ProgramRegistry.
From S2P Require Import ManagerLibrary ProgramManager.
Import Manager ProgramManager.

(** ** Runs of the manager *)
Lemma mgr_bind_ok {A B} (m : Mgr A) (f : A → Mgr B) log log' b :
  mbind (M:=Mgr) f m log = (log', Ok b) ↔ ∃ a l, m log = (l, Ok a) ∧ f a l = (log', Ok b).
Proof.
  unfold mbind, Mgr_bind. destruct (m log) as [l [a| |]]; split; try naive_solver.
Qed.
Lemma lift_m_ok {E A} `{From E ManagerError} (r : result E A) log log' a :
  lift_m r log = (log', Ok a) ↔ r = Ok a ∧ log' = log.
Proof. unfold lift_m. destruct r; simpl; naive_solver. Qed.
Lemma ask_ok {A} (answer : list Call → Call → result ConnectorError A) c log log' a :
  ask answer c log = (log', Ok a) ↔ answer log c = Ok a ∧ log' = log ++ [c].
Proof. unfold ask. destruct (answer log c); simpl; naive_solver. Qed.
Lemma mgr_ret_ok {A} (a b : A) log log' : mret (M:=Mgr) a log = (log', Ok b) ↔ b = a ∧ log' = log.
Proof. unfold mret, Mgr_ret. naive_solver. Qed.

(** Decomposes a run that succeeds. *)
Ltac mgr_inv :=
  repeat match goal with
  | H : mbind _ _ _ = (_, Ok _) |- _ => apply mgr_bind_ok in H as (? & ? & ? & ?)
  | H : lift_m _ _ = (_, Ok _) |- _ => apply lift_m_ok in H as [? ->]
  | H : ask _ _ _ = (_, Ok _) |- _ => apply ask_ok in H as [? ->]
  | H : do_ _ _ = (_, Ok _) |- _ => apply ask_ok in H as [? ->]
  | H : get_address _ _ _ _ _ = (_, Ok _) |- _ => apply ask_ok in H as [? ->]
  | H : mret _ _ = (_, Ok _) |- _ => apply mgr_ret_ok in H as [? ->]; simplify_eq
  | H : (let '(_, _) := ?p in _) _ = _ |- _ => destruct p
  | u : () |- _ => destruct u
  end.

(** The calls that an operation can make, whether it succeeds or not. *)
Class Only {A} (Q : Call → Prop) (m : Mgr A) : Prop :=
  only log : ∃ tail, (m log).1 = log ++ tail ∧ Forall Q tail.
Section Only.
Context (Q : Call → Prop).
#[global] Instance only_ret {A} (a : A) : Only Q (mret (M:=Mgr) a).
Proof. intros log. exists []. by rewrite app_nil_r. Qed.
#[global] Instance only_lift {E A} `{From E ManagerError} (r : result E A) : Only Q (lift_m r).
Proof. intros log. exists []. by rewrite app_nil_r. Qed.
#[global] Instance only_bind {A B} (m : Mgr A) (f : A → Mgr B) :
  Only Q m → (∀ a, Only Q (f a)) → Only Q (m ≫= f).
Proof.
  intros Hm Hf log. destruct (Hm log) as (t1 & H1 & Q1). unfold mbind, Mgr_bind.
  destruct (m log) as [l [a| |]]; simpl in *; subst; eauto.
  destruct (Hf a (log ++ t1)) as (t2 & -> & Q2). exists (t1 ++ t2). rewrite app_assoc. split; [done|].
  by apply Forall_app.
Qed.
Lemma only_ask {A} (answer : list Call → Call → result ConnectorError A) c : Q c → Only Q (ask answer c).
Proof. intros Hc log. exists [c]. by split; [|constructor]. Qed.
Lemma only_ask_result {A} (answer : list Call → Call → result ConnectorError A) c : Q c → Only Q (ask_result answer c).
Proof. intros Hc log. exists [c]. by split; [|constructor]. Qed.
#[global] Instance only_fold {A B} (f : B → A → Mgr B) b l : (∀ b x, Only Q (f b x)) → Only Q (fold_m f b l).
Proof. intros Hf. revert b. induction l as [|x l IH]; intros b; simpl; apply _. Qed.
End Only.
Lemma only_ok {A} (Q : Call → Prop) (m : Mgr A) `{!Only Q m} log log' r :
  m log = (log', r) → ∃ tail, log' = log ++ tail ∧ Forall Q tail.
Proof. intros Hm. pose proof (only (m:=m) log) as Ho. by rewrite Hm in Ho. Qed.

(** ** Maps in order *)
Lemma ids_perm {V} (m : gmap N V) : ids m ≡ₚ map_to_list m.
Proof.
  apply NoDup_Permutation; [apply NoDup_map_range|apply NoDup_map_to_list|].
  intros [i v]. by rewrite elem_of_map_to_list, <- (elem_of_map_range N.leb).
Qed.
Lemma ids_elem {V} (m : gmap N V) i v : (i, v) ∈ ids m ↔ m !! i = Some v.
Proof. apply elem_of_map_range. Qed.
Lemma ids_NoDup {V} (m : gmap N V) : NoDup (ids m).*1.
Proof. rewrite ids_perm. apply NoDup_fst_map_to_list. Qed.
Lemma ids_dom {V} (m : gmap N V) : list_to_set (ids m).*1 = dom m.
Proof.
  apply set_eq. intros i. rewrite elem_of_list_to_set, list_elem_of_fmap, elem_of_dom. split.
  - intros ([j v] & -> & Hv%ids_elem). by exists v.
  - intros [v Hv%ids_elem]. by exists (i, v).
Qed.
Lemma ids_values {V} (m : gmap N V) v : v ∈ (ids m).*2 ↔ ∃ i, m !! i = Some v.
Proof.
  rewrite list_elem_of_fmap. split.
  - intros ([i w] & -> & Hv%ids_elem). by exists i.
  - intros [i Hv%ids_elem]. by exists (i, v).
Qed.

Lemma elem_of_keys {V} (m : gmap N V) i : i ∈ (map_to_list m).*1 ↔ is_Some (m !! i).
Proof.
  rewrite list_elem_of_fmap. split.
  - intros ([j v] & -> & Hv%elem_of_map_to_list). by exists v.
  - intros [v Hv%elem_of_map_to_list]. by exists (i, v).
Qed.
Lemma Forall2_impl_in {A B} (P Q : A → B → Prop) l k :
  Forall2 P l k → (∀ x y, x ∈ l → P x y → Q x y) → Forall2 Q l k.
Proof.
  induction 1 as [|x y l k Hp _ IH]; intros Hq; constructor.
  - apply Hq; [constructor|done].
  - apply IH. intros x' y' Hx. apply Hq. by constructor.
Qed.

(** ** What a description of a program must satisfy *)
Lemma ensure_m_ok c e : ensure_m c e = Ok () ↔ c = true.
Proof. unfold ensure_m. destruct c; naive_solver. Qed.
Lemma remove_ids_ok missing keys set rest :
  NoDup keys →
  remove_ids missing keys set = Ok rest ↔ list_to_set keys ⊆ set ∧ rest = set ∖ list_to_set keys.
Proof.
  intros Hnd. revert set. induction Hnd as [|i keys Hi Hnd IH]; intros set; simpl.
  - rewrite difference_empty_L. split; [intros [= <-]|intros [_ ->]]; set_solver.
  - case_bool_decide as Hin.
    + rewrite IH. rewrite difference_difference_l_L. split; intros [Hs ->]; split; try done; [set_solver|].
      intros j Hj. apply elem_of_difference. split; [set_solver|]. apply elem_of_list_to_set in Hj. set_solver.
    + split; [done|]. intros [Hs _]. set_solver.
Qed.
Lemma remove_ids_empty missing {V} (m : gmap N V) set :
  (∃ rest, remove_ids missing (ids m).*1 set = Ok rest ∧ rest = ∅) ↔ set = dom m.
Proof.
  setoid_rewrite (remove_ids_ok missing _ set _ (ids_NoDup m)). rewrite ids_dom. split.
  - intros (rest & [Hs ->] & He). apply (anti_symm (⊆)); [by apply empty_difference_subseteq_L|done].
  - intros ->. exists ∅. split_and!; [done| |done]. by rewrite difference_diag_L.
Qed.

Lemma mapM_result_total {E A B} (f : A → result E B) l :
  (∀ x, x ∈ l → ∃ y, f x = Ok y) → ∃ k, mapM f l = Ok k.
Proof.
  induction l as [|x l IH]; intros Hl; [by exists []|].
  destruct (Hl x) as [y Hy]; [constructor|]. destruct IH as [k Hk]; [intros; apply Hl; by constructor|].
  exists (y :: k). simpl. by rewrite Hy; simpl; rewrite Hk.
Qed.
Section Verified.
Context `{CosmMath} `{HashOrder} `{LibrarySerde} `{AhoCorasick}.
(** An account is linked when a link has it as input or output; the configuration of a
    library names it by its id. *)
Definition linked (self : ProgramConfig) (i : N) : Prop :=
  ∃ k l, pc_links self !! k = Some l ∧ (i ∈ input_accounts_id l ∨ i ∈ output_accounts_id l).
Definition named (self : ProgramConfig) (i : N) : Prop :=
  ∃ k l js, pc_libraries self !! k = Some l ∧ get_account_ids (li_config l) = Ok js ∧ i ∈ js.
Record well_described (self : ProgramConfig) : Prop := {
  wd_id : pc_id self = 0%N;
  wd_owner : pc_owner self ≠ "";
  wd_data : pc_authorization_data self = AuthorizationData_default;
  wd_authorizations : pc_authorizations self ≠ [];
  wd_linked i : is_Some (pc_accounts self !! i) ↔ linked self i;
  wd_libraries i : is_Some (pc_libraries self !! i) ↔ ∃ k l, pc_links self !! k = Some l ∧ library_id l = i;
  wd_readable k l : pc_libraries self !! k = Some l → ∃ js, get_account_ids (li_config l) = Ok js;
  wd_named i : is_Some (pc_accounts self !! i) ↔ named self i;
}.
Lemma elem_of_link_accounts links i :
  i ∈ link_accounts links ↔ ∃ k l, links !! k = Some l ∧ (i ∈ input_accounts_id l ∨ i ∈ output_accounts_id l).
Proof.
  unfold link_accounts. rewrite elem_of_list_to_set, list_elem_of_bind. setoid_rewrite elem_of_app.
  setoid_rewrite ids_values. naive_solver.
Qed.
Lemma elem_of_link_libraries links i :
  i ∈ link_libraries links ↔ ∃ k l, links !! k = Some l ∧ library_id l = i.
Proof.
  unfold link_libraries. rewrite elem_of_list_to_set, list_elem_of_fmap. setoid_rewrite ids_values. naive_solver.
Qed.
Lemma found_ids libraries found i :
  mapM (λ l, get_account_ids (li_config l)) (ids libraries).*2 = Ok found →
  i ∈ (list_to_set (mjoin found) : gset N) ↔
    ∃ k l js, libraries !! k = Some l ∧ get_account_ids (li_config l) = Ok js ∧ i ∈ js.
Proof.
  intros Hf%mapM_result_Forall2. rewrite elem_of_list_to_set, list_elem_of_join. split.
  - intros (js & Hi & His). eapply Forall2_elem_r in Hf as (l & Hl & Hg); [|done].
    apply ids_values in Hl as [k Hk]. by exists k, l, js.
  - intros (k & l & js & Hk & Hg & Hi). eapply Forall2_elem_l in Hf as (js' & His & Hg');
      [|by apply ids_values; exists k]. simpl in Hg'. rewrite Hg in Hg'. injection Hg' as <-. by exists js.
Qed.
Lemma config_accounts_ok libraries set :
  config_accounts libraries = Ok set ↔
  (∀ k l, libraries !! k = Some l → ∃ js, get_account_ids (li_config l) = Ok js) ∧
  (∀ i, i ∈ set ↔ ∃ k l js, libraries !! k = Some l ∧ get_account_ids (li_config l) = Ok js ∧ i ∈ js).
Proof.
  unfold config_accounts. split.
  - intros (found & Hf%map_err_r_ok & [= <-])%bind_result_ok. split; [|by intros i; apply found_ids].
    apply mapM_result_Forall2 in Hf. intros k l Hl.
    eapply Forall2_elem_l in Hf as (js & _ & His); [by exists js|]. apply ids_values. by exists k.
  - intros [Hr Hset].
    destruct (mapM_result_total (λ l, get_account_ids (li_config l)) (ids libraries).*2) as [found Hf];
      [intros l [k Hk]%ids_values; eauto|].
    rewrite Hf. simpl. f_equal. apply set_eq. intros i. by rewrite Hset, (found_ids _ _ _ Hf).
Qed.
(** [verify_new_config] accepts exactly the descriptions that fit together. *)
Lemma verify_new_config_iff self :
  verify_new_config self = Ok () ↔
  pc_id self = 0%N ∧ pc_owner self ≠ "" ∧ pc_authorization_data self = AuthorizationData_default ∧
  pc_authorizations self ≠ [] ∧ link_accounts (pc_links self) = dom (pc_accounts self) ∧
  link_libraries (pc_links self) = dom (pc_libraries self) ∧
  config_accounts (pc_libraries self) = Ok (dom (pc_accounts self)).
Proof.
  unfold verify_new_config. split.
  - intros Hv. repeat apply bind_result_ok in Hv as (? & ? & Hv).
    repeat match goal with u : () |- _ => destruct u | He : ensure_m _ _ = Ok _ |- _ => apply ensure_m_ok in He end.
    repeat match goal with He : bool_decide _ = true |- _ => apply bool_decide_eq_true_1 in He end. subst.
    repeat match goal with
    | Hr : remove_ids ?e _ ?s = Ok ∅ |- _ =>
        let Hs := fresh "Hs" in pose proof (proj1 (remove_ids_empty e _ s) (ex_intro _ ∅ (conj Hr eq_refl))) as Hs; clear Hr
    | Hn : negb (bool_decide _) = true |- _ => apply negb_true_iff, bool_decide_eq_false_1 in Hn
    | Hn : (_ =? _)%N = true |- _ => apply N.eqb_eq in Hn
    end.
    rewrite union_empty_l_L in *. subst. split_and!; try done. by intros Ha; rewrite Ha in H6.
  - intros (-> & Ho & -> & Ha & Hla & Hll & Hca).
    assert (∀ e {V} (m : gmap N V), remove_ids e (ids m).*1 (dom m) = Ok ∅) as Hre.
    { intros e V m. by destruct (proj2 (remove_ids_empty e m (dom m)) eq_refl) as (? & Hr & ->). }
    rewrite (bool_decide_eq_false_2 _ Ho).
    rewrite (bool_decide_eq_true_2 (AuthorizationData_default = AuthorizationData_default)) by done.
    rewrite (bool_decide_eq_false_2 (length _ = 0)) by (by intros Hl%nil_length_inv).
    rewrite Hla, Hll, Hca. simpl. rewrite Hre. simpl. rewrite Hre. simpl. by rewrite union_empty_l_L, Hre.
Qed.
Lemma verify_new_config_ok self : verify_new_config self = Ok () ↔ well_described self.
Proof.
  rewrite verify_new_config_iff, config_accounts_ok. split.
  - intros (? & ? & ? & ? & Hla & Hll & Hr & Hn). split; try done.
    + intros i. by rewrite <- elem_of_dom, <- Hla, elem_of_link_accounts.
    + intros i. by rewrite <- elem_of_dom, <- Hll, elem_of_link_libraries.
    + intros i. by rewrite <- elem_of_dom, Hn.
  - intros []. split_and!; try done.
    + apply set_eq. intros i. by rewrite elem_of_link_accounts, elem_of_dom, wd_linked0.
    + apply set_eq. intros i. by rewrite elem_of_link_libraries, elem_of_dom, wd_libraries0.
    + intros i. by rewrite elem_of_dom, wd_named0.
Qed.
End Verified.

(** ** Which calls are made *)
Definition made_account (c : Call) : option (Domain * N * string * InstantiateAccountData) :=
  match c with InstantiateAccount d pid processor data => Some (d, pid, processor, data) | _ => None end.
Definition made_library (c : Call) : option (Domain * N * string * N * LibraryConfig * Binary) :=
  match c with
  | InstantiateLibrary d pid processor id config salt => Some (d, pid, processor, id, config, salt)
  | _ => None
  end.
(** The three calls that hand the program over come last. *)
Definition early (c : Call) : Prop :=
  match c with
  | AddAuthorizations _ _ _ | ChangeAuthorizationOwner _ _ _ | SaveProgramConfig _ _ | UpdateProgramConfig _ _ => False
  | _ => True
  end.
Definition quiet (c : Call) : Prop := made_account c = None ∧ made_library c = None ∧ early c.
Lemma quiet_made tail : Forall quiet tail → omap made_account tail = [] ∧ omap made_library tail = [].
Proof.
  induction 1 as [|c tail (Ha & Hl & _) _ [IHa IHl]]; [done|]. simpl. rewrite Ha, Hl. done.
Qed.
Lemma quiet_early tail : Forall quiet tail → Forall early tail.
Proof. intros Hq. eapply Forall_impl; [exact Hq|]. by intros c (_ & _ & ?). Qed.

(** The address of a contract depends on what it is, not on when it is asked for: the code,
    the creator and the salt determine it. *)
Class AddressesFixed `{Chains} : Prop :=
  chain_address_fixed log d pid name extra_salt :
    chain_address log (GetAddress d pid name extra_salt) = chain_address [] (GetAddress d pid name extra_salt).

Section Wiring.
Context `{CosmMath} `{HashOrder} `{LibrarySerde} `{AhoCorasick} `{Chains} `{ManagerOrder} (gc : GlobalConfig).

#[local] Instance connector_only Q held d : Q (Connect d) → Only Q (get_or_create_connector held d).
Proof.
  intros Hq log. unfold get_or_create_connector. destruct (shard_locked held d); [|destruct (existsb _ log)].
  - exists []. by rewrite app_nil_r.
  - exists []. by rewrite app_nil_r.
  - exists [Connect d]. by split; [|constructor].
Qed.
#[local] Instance do_only (Q : Call → Prop) c : Q c → Only Q (do_ c).
Proof. apply only_ask. Qed.
#[local] Instance get_address_only (Q : Call → Prop) d i n x :
  Q (GetAddress d i n x) → Only Q (get_address d i n x).
Proof. apply only_ask. Qed.
#[local] Instance ask_only {A} (Q : Call → Prop) (answer : list Call → Call → result ConnectorError A) c :
  Q c → Only Q (ask answer c).
Proof. apply only_ask. Qed.
#[local] Instance ask_result_only {A} (Q : Call → Prop) (answer : list Call → Call → result ConnectorError A) c :
  Q c → Only Q (ask_result answer c).
Proof. apply only_ask_result. Qed.
#[local] Hint Extern 1 (quiet _) => (split_and!; done) : typeclass_instances.
#[local] Hint Extern 1 (early _) => exact I : typeclass_instances.
#[local] Hint Extern 2 (Only _ (let '(_, _) := ?p in _)) => destruct p : typeclass_instances.
#[local] Hint Extern 2 (Only _ (match ?p with _ => _ end)) => destruct p : typeclass_instances.

#[local] Instance init_domain_quiet pid addr data d : Only quiet (init_domain gc pid addr data d).
Proof. unfold init_domain. apply _. Qed.
#[local] Instance predict_account_quiet pid st ia : Only quiet (predict_account pid st ia).
Proof. unfold predict_account. apply _. Qed.
#[local] Instance prepare_link_quiet pid st l : Only quiet (prepare_link pid st l).
Proof. unfold prepare_link. apply _. Qed.
#[local] Instance verify_quiet self datas : Only quiet (verify_init_was_successful self datas).
Proof. unfold verify_init_was_successful, each_m, on_domain. apply _. Qed.
#[local] Instance instantiate_link_early pid data libraries salts k :
  Only early (instantiate_link pid data libraries salts k).
Proof. unfold instantiate_link. apply _. Qed.
#[local] Instance instantiate_account_early pid self d : Only early (instantiate_account pid self d).
Proof. unfold instantiate_account. apply _. Qed.

(** ** The addresses of accounts *)
Definition account_address (pid i : N) (a : AccountInfo) (addr : string) (salt : Binary) : Prop :=
  ∃ log, chain_address log (GetAddress (acc_domain a) pid (AccountType_to_string (acc_ty a))
           ("account_" +:+ pretty i)%string) = Ok (addr, salt).
(** An account before and after the prediction. *)
Definition predicted (pid i : N) (a : AccountInfo) (accounts : gmap N AccountInfo)
    (datas : gmap N InstantiateAccountData) : Prop :=
  ∃ addr salt, account_address pid i a addr salt ∧
    accounts !! i = Some (mkAccountInfo (acc_name a) (AccAddr addr) (acc_domain a) (Some addr)) ∧
    datas !! i = Some (mkInstantiateAccountData i a addr salt []).
Lemma predict_account_ok pid accounts datas i a accounts' datas' log log' :
  predict_account pid (accounts, datas) (i, a) log = (log', Ok (accounts', datas')) →
  (∀ j, j ≠ i → accounts' !! j = accounts !! j ∧ datas' !! j = datas !! j) ∧
  match acc_ty a with
  | AccAddr _ => accounts' = accounts ∧ datas' = datas
  | Base _ => predicted pid i a accounts' datas'
  end.
Proof.
  unfold predict_account. destruct (acc_ty a) as [addr|admin] eqn:Hty; intros Hp; mgr_inv; [done|].
  split; [intros j Hj; by rewrite !lookup_insert_ne|].
  eexists _, _. split; [eexists; rewrite Hty; eassumption|]. by rewrite !lookup_insert_eq.
Qed.
Lemma predict_accounts_ok pid l accounts datas accounts' datas' log log' :
  NoDup l.*1 → fold_m (predict_account pid) (accounts, datas) l log = (log', Ok (accounts', datas')) →
  (∀ j, j ∉ l.*1 → accounts' !! j = accounts !! j ∧ datas' !! j = datas !! j) ∧
  ∀ i a, (i, a) ∈ l →
    match acc_ty a with
    | AccAddr _ => accounts' !! i = accounts !! i ∧ datas' !! i = datas !! i
    | Base _ => predicted pid i a accounts' datas'
    end.
Proof.
  intros Hnd. revert accounts datas log. induction l as [|[i a] l IH]; intros accounts datas log; simpl.
  - intros [[= <- <-] ->]%mgr_ret_ok. split; [done|]. by intros i a ?%not_elem_of_nil.
  - intros ([accs ds] & l1 & Hp%predict_account_ok & Hl)%mgr_bind_ok. apply NoDup_cons in Hnd as [Hi Hnd].
    apply IH in Hl as [Hother Hin]; [|done]. destruct Hp as [Hne Hia]. split.
    + intros j [Hj ?]%not_elem_of_cons. destruct (Hother j) as [-> ->]; [done|]. by apply Hne.
    + intros j b [[= -> ->]|Hjb]%elem_of_cons.
      * destruct (Hother i) as [Ha Hd]; [done|]. destruct (acc_ty a); [by destruct Hia as [-> ->]|].
        unfold predicted in *. by rewrite Ha, Hd.
      * specialize (Hin j b Hjb). destruct (acc_ty b); [|done]. destruct Hin as [-> ->]. apply Hne.
        intros ->. apply Hi. apply list_elem_of_fmap. by exists (i, b).
Qed.

(** ** The libraries of an account *)
Definition add_libraries (addrs : list string) (d : InstantiateAccountData) : InstantiateAccountData :=
  mkInstantiateAccountData (iad_id d) (iad_info d) (iad_addr d) (iad_salt d) (iad_approved_libraries d ++ addrs).
Definition occurrences (i : N) (l : list N) : nat := length (filter (λ j, j = i) l).
Lemma add_libraries_nil d : add_libraries [] d = d.
Proof. destruct d. unfold add_libraries. simpl. by rewrite app_nil_r. Qed.
Lemma add_libraries_app xs ys d : add_libraries ys (add_libraries xs d) = add_libraries (xs ++ ys) d.
Proof. unfold add_libraries. simpl. by rewrite app_assoc. Qed.
Lemma approve_inputs_ok lid addr inputs datas ps rs datas' ps' rs' :
  approve_inputs lid addr inputs datas ps rs = Ok (datas', ps', rs') →
  (∀ i, i ∈ inputs → is_Some (datas !! i)) ∧
  ∀ i, datas' !! i = add_libraries (replicate (occurrences i inputs) addr) <$> datas !! i.
Proof.
  revert datas ps rs. induction inputs as [|j inputs IH]; intros datas ps rs; simpl.
  - intros [= <- _ _]. split; [by intros ? ?%not_elem_of_nil|]. intros i. unfold occurrences. simpl.
    destruct (datas !! i); simpl; [by rewrite add_libraries_nil|done].
  - intros (d & Hd & Hr)%bind_result_ok. unfold init_data in Hd.
    destruct (datas !! j) as [d'|] eqn:Hj; simpl in Hd; simplify_eq. apply IH in Hr as [Hin Hd]. split.
    + intros i [->|Hi]%elem_of_cons; [done|]. destruct (decide (i = j)) as [->|]; [done|].
      specialize (Hin i Hi). by rewrite lookup_insert_ne in Hin.
    + intros i. rewrite Hd. unfold occurrences. rewrite filter_cons. destruct (decide (j = i)) as [->|Hne].
      * rewrite lookup_insert_eq, Hj. simpl. f_equal. change (add_library addr d) with (add_libraries [addr] d).
        by rewrite add_libraries_app.
      * by rewrite lookup_insert_ne.
Qed.
Lemma list_outputs_ok lid outputs datas ps rs ps' rs' :
  list_outputs lid outputs datas ps rs = Ok (ps', rs') → ∀ i, i ∈ outputs → is_Some (datas !! i).
Proof.
  revert ps rs. induction outputs as [|j outputs IH]; intros ps rs; simpl; [by intros _ i ?%not_elem_of_nil|].
  intros (d & Hd & Hr)%bind_result_ok i [->|Hi]%elem_of_cons; [|by eapply IH]. unfold init_data in Hd.
  destruct (datas !! j); simpl in Hd; [done|simplify_eq].
Qed.
Lemma map_config_name (f : ∀ C, ConfigSerde C → C → result MLibraryError C) c c' :
  map_config f c = Ok c' → LibraryConfig_to_string c' = LibraryConfig_to_string c.
Proof. destruct c; simpl; try done; by intros (? & _ & [= <-])%bind_result_ok. Qed.

(** ** Links *)
Context `{!AddressesFixed}.
Definition library_address (pid i : N) (l : LibraryInfo) : string :=
  match chain_address [] (GetAddress (li_domain l) pid (LibraryConfig_to_string (li_config l))
          ("library_" +:+ pretty i)%string) with Ok (addr, _) => addr | _ => "" end.
(** The libraries that an account approves, by the links that have it as input. *)
Definition approvals (pid : N) (libraries : gmap N LibraryInfo) (links : list Link) (i : N) : list string :=
  l ← links; replicate (occurrences i (input_accounts_id l))
               (from_option (library_address pid (library_id l)) "" (libraries !! library_id l)).
(** A library that is ready is the one described, with its address. *)
Definition ready (pid i : N) (l l' : LibraryInfo) : Prop :=
  li_name l' = li_name l ∧ li_domain l' = li_domain l ∧
  LibraryConfig_to_string (li_config l') = LibraryConfig_to_string (li_config l) ∧
  li_addr l' = Some (library_address pid i l).
Definition same_library (l l' : LibraryInfo) : Prop :=
  li_name l' = li_name l ∧ li_domain l' = li_domain l ∧
  LibraryConfig_to_string (li_config l') = LibraryConfig_to_string (li_config l).
Lemma same_library_address pid i l l' : same_library l l' → library_address pid i l' = library_address pid i l.
Proof. intros (_ & Hd & Hn). unfold library_address. by rewrite Hd, Hn. Qed.
Lemma prepare_link_ok pid libraries datas salts link libraries' datas' salts' log log' :
  prepare_link pid (libraries, datas, salts) link log = (log', Ok (libraries', datas', salts')) →
  let i := library_id link in
  ∃ l l' salt, libraries !! i = Some l ∧ ready pid i l l' ∧ libraries' = <[i := l']> libraries ∧
    salts' = <[i := salt]> salts ∧
    (∀ j, j ∈ input_accounts_id link ++ output_accounts_id link → is_Some (datas !! j)) ∧
    ∀ j, datas' !! j =
      add_libraries (replicate (occurrences j (input_accounts_id link)) (library_address pid i l)) <$> datas !! j.
Proof.
  intros Hp. cbn beta iota delta [prepare_link] in Hp. mgr_inv.
  match goal with Hl : get_library _ _ = Ok ?l |- _ => rename l into lib; rename Hl into Hlib end.
  unfold get_library in Hlib. destruct (libraries !! library_id link) as [lib'|] eqn:Hl; simpl in Hlib; simplify_eq.
  match goal with Ha : chain_address _ _ = Ok (?a, _) |- _ =>
    rewrite chain_address_fixed in Ha;
    assert (library_address pid (library_id link) lib = a) as Hs by (unfold library_address; by rewrite Ha) end.
  match goal with Ha : approve_inputs _ _ _ _ _ _ = Ok _ |- _ => apply approve_inputs_ok in Ha as [Hin Hd] end.
  match goal with Ha : list_outputs _ _ _ _ _ = Ok _ |- _ => pose proof (list_outputs_ok _ _ _ _ _ _ _ Ha) as Hout end.
  match goal with Ha : replace_config _ _ _ = Ok _ |- _ =>
    apply bind_result_ok in Ha as (? & _ & Hname%map_config_name) end.
  eexists lib, _, _. split_and!; [done| |done|done| |by rewrite Hs].
  - by rewrite <- Hs.
  - intros j [Hj|Hj]%elem_of_app; [by apply Hin|]. specialize (Hout j Hj). rewrite Hd in Hout.
    by destruct (datas !! j); [|destruct Hout].
Qed.
(** The salt that is kept for a library is the one of its address. *)
Definition salted (pid : N) (libraries : gmap N LibraryInfo) (salts : gmap N Binary) (i : N) : Prop :=
  ∃ l addr salt, libraries !! i = Some l ∧ li_addr l = Some addr ∧ salts !! i = Some salt ∧
    chain_address [] (GetAddress (li_domain l) pid (LibraryConfig_to_string (li_config l))
      ("library_" +:+ pretty i)%string) = Ok (addr, salt).
Lemma prepare_link_salted pid libraries datas salts k libraries' datas' salts' log log' i :
  prepare_link pid (libraries, datas, salts) k log = (log', Ok (libraries', datas', salts')) →
  i = library_id k ∨ salted pid libraries salts i → salted pid libraries' salts' i.
Proof.
  intros Hp Hi. cbn beta iota delta [prepare_link] in Hp. mgr_inv. unfold salted.
  destruct (decide (i = library_id k)) as [->|Hne].
  - rewrite !lookup_insert_eq. do 3 eexists. split_and!; [done..|]. simpl.
    match goal with Ha : replace_config _ _ _ = Ok _ |- _ =>
      apply bind_result_ok in Ha as (? & _ & ->%map_config_name) end.
    match goal with Ha : chain_address _ _ = Ok _ |- _ => by rewrite chain_address_fixed in Ha end.
  - destruct Hi as [?|Hi]; [done|]. by rewrite !lookup_insert_ne.
Qed.
Lemma prepare_links_salted pid links libraries datas salts libraries' datas' salts' log log' i :
  fold_m (prepare_link pid) (libraries, datas, salts) links log = (log', Ok (libraries', datas', salts')) →
  (∃ k, k ∈ links ∧ library_id k = i) ∨ salted pid libraries salts i → salted pid libraries' salts' i.
Proof.
  revert libraries datas salts log. induction links as [|k links IH]; intros libraries datas salts log; simpl.
  - intros [[= -> -> ->] _]%mgr_ret_ok [(? & ?%not_elem_of_nil & _)|?]; done.
  - intros ([[l1 d1] s1] & log1 & Hk & Hl)%mgr_bind_ok Hi. apply (IH _ _ _ _ Hl).
    destruct Hi as [(k' & [->|Hk']%elem_of_cons & <-)|Hi]; [right|left; eauto|right].
    all: eapply prepare_link_salted; [exact Hk|auto].
Qed.
Lemma ready_same pid i l0 l l' : same_library l0 l → ready pid i l l' → ready pid i l0 l' ∧ same_library l0 l'.
Proof.
  intros Hs (Hn & Hd & Hc & Ha). rewrite (same_library_address _ _ _ _ Hs) in Ha. destruct Hs as (? & ? & ?).
  unfold ready, same_library. split_and!; congruence.
Qed.
(** A library that is ready in both maps. *)
Definition ready_in (pid i : N) (libraries libraries' : gmap N LibraryInfo) : Prop :=
  ∃ l l', libraries !! i = Some l ∧ libraries' !! i = Some l' ∧ ready pid i l l'.
Lemma prepare_links_ok pid links libraries0 libraries datas salts libraries' datas' salts' log log' :
  fold_m (prepare_link pid) (libraries, datas, salts) links log = (log', Ok (libraries', datas', salts')) →
  (∀ i, option_Forall2 same_library (libraries0 !! i) (libraries !! i)) →
  (∀ i, libraries' !! i = libraries !! i ∨ ready_in pid i libraries0 libraries') ∧
  (∀ k, k ∈ links → ready_in pid (library_id k) libraries0 libraries') ∧
  (∀ k j, k ∈ links → j ∈ input_accounts_id k ++ output_accounts_id k → is_Some (datas !! j)) ∧
  ∀ j, datas' !! j = add_libraries (approvals pid libraries0 links j) <$> datas !! j.
Proof.
  revert libraries datas salts log. induction links as [|k links IH]; intros libraries datas salts log; simpl.
  - intros [[= -> -> ->] ->]%mgr_ret_ok Hsame.
    split_and!; [by left|by intros ? ?%not_elem_of_nil|by intros ? ? ?%not_elem_of_nil|].
    intros j. destruct (datas !! j); simpl; [by rewrite add_libraries_nil|done].
  - intros ([[libraries1 datas1] salts1] & l1 & Hk%prepare_link_ok & Hl)%mgr_bind_ok Hsame.
    destruct Hk as (l & l' & salt & Hlk & Hready & -> & -> & Hdef & Hds).
    assert (∃ l0, libraries0 !! library_id k = Some l0 ∧ same_library l0 l) as (l0 & Hl0 & Hs).
    { specialize (Hsame (library_id k)). rewrite Hlk in Hsame. inversion Hsame; eauto. }
    destruct (ready_same _ _ _ _ _ Hs Hready) as [Hr0 Hs0].
    apply IH in Hl as (Hlib & Hin & Hdef' & Hds').
    2:{ intros i. destruct (decide (i = library_id k)) as [->|]; [|by rewrite lookup_insert_ne].
        rewrite lookup_insert_eq, Hl0. by constructor. }
    assert (ready_in pid (library_id k) libraries0 libraries') as Hk.
    { destruct (Hlib (library_id k)) as [He|He]; [|done]. rewrite lookup_insert_eq in He. by exists l0, l'. }
    split_and!.
    + intros i. destruct (decide (i = library_id k)) as [->|]; [by right|]. specialize (Hlib i).
      by rewrite lookup_insert_ne in Hlib.
    + intros k' [->|Hk']%elem_of_cons; [done|]. by apply Hin.
    + intros k' j [->|Hk']%elem_of_cons Hj; [by apply Hdef|]. specialize (Hdef' k' j Hk' Hj). rewrite Hds in Hdef'.
      by destruct (datas !! j); [|destruct Hdef'].
    + intros j. rewrite Hds', Hds. destruct (datas !! j) as [d|]; simpl; [|done]. rewrite add_libraries_app, Hl0.
      simpl. by rewrite (same_library_address _ _ _ _ Hs).
Qed.

(** ** Contracts *)
Lemma connector_quiet held d log log' r :
  get_or_create_connector held d log = (log', r) → ∃ tail, log' = log ++ tail ∧ Forall quiet tail.
Proof. intros Hc. by eapply (only_ok quiet) in Hc; [|apply _]. Qed.
Lemma instantiate_link_ok pid data libraries salts k log log' u :
  instantiate_link pid data libraries salts k log = (log', Ok u) →
  ∃ l processor salt, libraries !! library_id k = Some l ∧ salts !! library_id k = Some salt ∧
    processor_addrs data !! Domain_to_string (li_domain l) = Some processor ∧
    omap made_library log' =
      omap made_library log ++ [(li_domain l, pid, processor, library_id k, li_config l, salt)] ∧
    omap made_account log' = omap made_account log.
Proof.
  unfold instantiate_link. intros Hp. mgr_inv.
  match goal with Hc : get_or_create_connector _ _ _ = _ |- _ =>
    apply connector_quiet in Hc as (tail & -> & [Ha Hl]%quiet_made) end.
  unfold get_library, get_processor_account_on_domain in *.
  destruct (libraries !! library_id k) as [l|]; simpl in *; simplify_eq.
  match goal with Hp : ok_or_r ?o _ = Ok _ |- _ => destruct o eqn:Hpr; simpl in Hp; simplify_eq end.
  match goal with Hp : expect_r ?o = Ok _ |- _ => destruct o eqn:Hsa; simpl in Hp; simplify_eq end.
  eexists _, _, _. split_and!; [done|done|done|..]; rewrite !omap_app; simpl; rewrite ?Ha, ?Hl, ?app_nil_r; done.
Qed.

(** The call that instantiates the library of a link, for the saved program, under the
    processor of its domain and with the salt that its chain turns into the saved address. *)
Definition library_made (self : ProgramConfig) (k : Link)
    (m : Domain * N * string * N * LibraryConfig * Binary) : Prop :=
  ∃ l addr salt processor, pc_libraries self !! library_id k = Some l ∧ li_addr l = Some addr ∧
    chain_address [] (GetAddress (li_domain l) (pc_id self) (LibraryConfig_to_string (li_config l))
      ("library_" +:+ pretty (library_id k))%string) = Ok (addr, salt) ∧
    processor_addrs (pc_authorization_data self) !! Domain_to_string (li_domain l) = Some processor ∧
    m = (li_domain l, pc_id self, processor, library_id k, li_config l, salt).
(** The call that instantiates an account. *)
Definition account_call (self : ProgramConfig) (d : N * InstantiateAccountData)
    (m : Domain * N * string * InstantiateAccountData) : Prop :=
  ∃ a processor, pc_accounts self !! d.1 = Some a ∧
    processor_addrs (pc_authorization_data self) !! Domain_to_string (acc_domain a) = Some processor ∧
    m = (acc_domain a, pc_id self, processor, d.2).
Lemma instantiate_links_ok self salts links log log' u :
  (∀ k, k ∈ links → salted (pc_id self) (pc_libraries self) salts (library_id k)) →
  each_m (instantiate_link (pc_id self) (pc_authorization_data self) (pc_libraries self) salts) links log =
    (log', Ok u) →
  ∃ made, omap made_library log' = omap made_library log ++ made ∧ Forall2 (library_made self) links made ∧
    omap made_account log' = omap made_account log.
Proof.
  intros Hs. unfold each_m. revert log u. induction links as [|k links IH]; intros log u; simpl.
  - intros [_ ->]%mgr_ret_ok. exists []. by rewrite app_nil_r.
  - intros ([] & l1 & (l & p & salt & Hl & Hsa & Hp & Hm & Ha)%instantiate_link_ok & Hrest)%mgr_bind_ok.
    apply IH in Hrest as (made & Hm' & Hf & Ha'); [|intros; apply Hs; by constructor].
    destruct (Hs k) as (l' & addr & salt' & Hl' & Hadr & Hsa' & Hc); [constructor|].
    rewrite Hl in Hl'. rewrite Hsa in Hsa'. simplify_eq.
    eexists (_ :: made). split_and!; [by rewrite Hm', Hm, <- app_assoc| |congruence].
    constructor; [by exists l', addr, salt', p|done].
Qed.
Lemma instantiate_accounts_ok self ds log log' u :
  each_m (instantiate_account (pc_id self) self) ds log = (log', Ok u) →
  ∃ made, omap made_account log' = omap made_account log ++ made ∧ Forall2 (account_call self) ds made ∧
    omap made_library log' = omap made_library log.
Proof.
  unfold each_m. revert log u. induction ds as [|d ds IH]; intros log u; simpl.
  - intros [_ ->]%mgr_ret_ok. exists []. by rewrite app_nil_r.
  - intros ([] & l1 & Hd & (made & Hm' & Hf & Hl')%IH)%mgr_bind_ok. unfold instantiate_account in Hd. mgr_inv.
    match goal with Hc : get_or_create_connector _ _ _ = _ |- _ =>
      apply connector_quiet in Hc as (tail & -> & [Ha Hl]%quiet_made) end.
    unfold get_account, get_processor_addr in *.
    destruct (pc_accounts self !! d.1) as [a|] eqn:Hacc; simpl in *; simplify_eq.
    match goal with Hp : ok_or_r ?o _ = Ok _ |- _ => destruct o eqn:Hpr; simpl in Hp; simplify_eq end.
    rewrite !omap_app in *. simpl in *. rewrite ?Ha, ?Hl, ?app_nil_r in *.
    eexists (_ :: made). split_and!; [by rewrite Hm', <- app_assoc|constructor; [by eexists _, _|done]|done].
Qed.

(** ** Authorizations *)

(** An address in the place of an id. *)
Definition resolved (self : ProgramConfig) (l l' : LibraryAccountType) : Prop :=
  ∃ addr, l' = LibAddr addr ∧
  match l with
  | LibAddr a => addr = a
  | LibAccountId i => ∃ a, pc_accounts self !! i = Some a ∧ acc_addr a = Some addr
  | LibLibraryId i => ∃ lib, pc_libraries self !! i = Some lib ∧ li_addr lib = Some addr
  end.
Definition subroutine_resolved (self : ProgramConfig) (s s' : Subroutine) : Prop :=
  match s, s' with
  | Atomic a, Atomic a' =>
      Forall2 (λ f f', ∃ l', resolved self (af_contract_address f) l' ∧
        f' = mkAtomicFunction (af_domain f) (af_message_details f) l') (as_functions a) (as_functions a') ∧
      as_retry_logic a' = as_retry_logic a ∧ as_expiration_time a' = as_expiration_time a
  | NonAtomic n, NonAtomic n' =>
      Forall2 (λ f f', ∃ l', resolved self (nf_contract_address f) l' ∧
        f' = mkNonAtomicFunction (nf_domain f) (nf_message_details f) l' (nf_retry_logic f) (callback_confirmation f))
        (ns_functions n) (ns_functions n') ∧
      ns_expiration_time n' = ns_expiration_time n
  | _, _ => False
  end.
Definition authorization_resolved (self : ProgramConfig) (a a' : AuthorizationInfo) : Prop :=
  ∃ sub, subroutine_resolved self (ai_subroutine a) sub ∧
    a' = mkAuthorizationInfo (ai_label a) (ai_mode a) (ai_not_before a) (ai_duration a)
           (ai_max_concurrent_executions a) sub (ai_priority a).
Lemma resolve_ok datas libraries self l l' :
  (∀ i d, datas !! i = Some d → ∃ a, pc_accounts self !! i = Some a ∧ acc_addr a = Some (iad_addr d)) →
  pc_libraries self = libraries → resolve datas libraries l = Ok l' → resolved self l l'.
Proof.
  intros Hd <-. destruct l as [a|i|i]; simpl.
  - intros [= <-]. by exists a.
  - intros (d & Hi & [= <-])%bind_result_ok. destruct (datas !! i) as [d'|] eqn:Hdi; simplify_eq/=.
    exists (iad_addr d). eauto.
  - intros (lib & Hi & (addr & Ha & [= <-])%bind_result_ok)%bind_result_ok.
    destruct (pc_libraries self !! i) as [lib'|] eqn:Hl; simplify_eq/=.
    destruct (li_addr lib) as [addr'|] eqn:Hla; simplify_eq/=. exists addr. eauto.
Qed.
Lemma resolve_authorization_ok datas libraries self a a' :
  (∀ i d, datas !! i = Some d → ∃ a, pc_accounts self !! i = Some a ∧ acc_addr a = Some (iad_addr d)) →
  pc_libraries self = libraries → resolve_authorization datas libraries a = Ok a' → authorization_resolved self a a'.
Proof.
  intros Hd Hl (sub & Hs & [= <-])%bind_result_ok. exists sub. split; [|done].
  destruct (ai_subroutine a) as [s|s]; apply bind_result_ok in Hs as (fs & Hfs%mapM_result_Forall2 & [= <-]); simpl.
  - split; [|done]. eapply Forall2_impl; [exact Hfs|]. intros f f' (l' & Hr & [= <-])%bind_result_ok.
    exists l'. split; [by eapply resolve_ok|done].
  - split; [|done]. eapply Forall2_impl; [exact Hfs|]. intros f f' (l' & Hr & [= <-])%bind_result_ok.
    exists l'. split; [by eapply resolve_ok|done].
Qed.

(** ** A whole run *)

Lemma init_domains_addr pid addr ds data data' log log' :
  fold_m (init_domain gc pid addr) data ds log = (log', Ok data') →
  authorization_addr data' = authorization_addr data.
Proof.
  revert data log. induction ds as [|d ds IH]; intros data log; simpl; [by intros [-> _]%mgr_ret_ok|].
  intros (data1 & l1 & Hd & ->%IH)%mgr_bind_ok. unfold init_domain in Hd. case_bool_decide; mgr_inv; done.
Qed.
(** What the loops of [init] leave behind. *)
Lemma init_ok self log self' :
  init gc self [] = (log, Ok self') →
  ∃ pid data accounts datas0 libraries datas salts l1 l2 l3 l4 l5 l6 before,
    verify_new_config self = Ok () ∧
    fold_m (predict_account pid) (pc_accounts self, ∅) (ids (pc_accounts self)) l1 = (l2, Ok (accounts, datas0)) ∧
    fold_m (prepare_link pid) (pc_libraries self, datas0, ∅) (ids (pc_links self)).*2 l2 =
      (l3, Ok (libraries, datas, salts)) ∧
    each_m (instantiate_link pid data libraries salts) (ids (pc_links self)).*2 l3 = (l4, Ok ()) ∧
    each_m (instantiate_account pid (set_parts accounts libraries (pc_authorizations self) data (set_id pid self)))
      (iter_map datas) l4 = (l5, Ok ()) ∧
    mapM (resolve_authorization datas libraries) (pc_authorizations self) = Ok (pc_authorizations self') ∧
    self' = set_parts accounts libraries (pc_authorizations self') data (set_id pid self) ∧
    Forall quiet l1 ∧ before = l5 ++ l6 ∧ Forall quiet l6 ∧
    log = before ++ [AddAuthorizations neutron_domain (authorization_addr data) (pc_authorizations self');
                     ChangeAuthorizationOwner neutron_domain (authorization_addr data) (pc_owner self);
                     SaveProgramConfig neutron_domain self'].
Proof.
  intros Hi. unfold init in Hi. mgr_inv.
  match goal with Hd : fold_m (init_domain _ _ _) _ _ _ = _ |- _ =>
    pose proof (init_domains_addr _ _ _ _ _ _ _ Hd) as Haddr;
    eapply (only_ok quiet) in Hd as (t1 & -> & Q1); [|apply _] end.
  match goal with Hd : get_or_create_connector _ _ [] = _ |- _ => apply connector_quiet in Hd as (t0 & -> & Q0) end.
  match goal with Hd : verify_init_was_successful _ _ _ = _ |- _ =>
    eapply (only_ok quiet) in Hd as (t2 & -> & Q2); [|apply _] end.
  match goal with Hd : get_or_create_connector _ _ (_ ++ t2) = _ |- _ => apply connector_quiet in Hd as (t3 & -> & Q3) end.
  do 7 eexists. eexists _, _, _, _, _, (t2 ++ t3), _.
  split_and!; [done|eassumption..| |done| |done|by apply Forall_app|].
  - done.
  - rewrite !Forall_app. split_and!; try done; by repeat constructor.
  - rewrite Haddr. by rewrite <- !app_assoc.
Qed.

(** The call that instantiates the account [i]: with its predicted address, under the
    processor of its domain, and with the libraries that the links give it. *)
Definition account_made (self self' : ProgramConfig) (i : N) (m : Domain * N * string * InstantiateAccountData) : Prop :=
  ∃ a addr salt processor, pc_accounts self !! i = Some a ∧ account_address (pc_id self') i a addr salt ∧
    pc_accounts self' !! i = Some (mkAccountInfo (acc_name a) (AccAddr addr) (acc_domain a) (Some addr)) ∧
    processor_addrs (pc_authorization_data self') !! Domain_to_string (acc_domain a) = Some processor ∧
    m = (acc_domain a, pc_id self', processor,
         mkInstantiateAccountData i a addr salt
           (approvals (pc_id self') (pc_libraries self) (ids (pc_links self)).*2 i)).
Definition brought (a : AccountInfo) : Prop := match acc_ty a with Base _ => True | AccAddr _ => False end.
(** What is known of the accounts after the links were prepared. *)
Lemma accounts_prepared self pid accounts datas0 libraries datas salts l1 l2 l3 :
  verify_new_config self = Ok () →
  fold_m (predict_account pid) (pc_accounts self, ∅) (ids (pc_accounts self)) l1 = (l2, Ok (accounts, datas0)) →
  fold_m (prepare_link pid) (pc_libraries self, datas0, ∅) (ids (pc_links self)).*2 l2 =
    (l3, Ok (libraries, datas, salts)) →
  (∀ i, datas !! i = None ↔ pc_accounts self !! i = None) ∧
  ∀ i a, pc_accounts self !! i = Some a → brought a ∧
    ∃ addr salt, account_address pid i a addr salt ∧
      accounts !! i = Some (mkAccountInfo (acc_name a) (AccAddr addr) (acc_domain a) (Some addr)) ∧
      datas !! i = Some (mkInstantiateAccountData i a addr salt
                           (approvals pid (pc_libraries self) (ids (pc_links self)).*2 i)).
Proof.
  intros Hv%verify_new_config_ok [Hother Hpred]%predict_accounts_ok Hl; [|apply ids_NoDup].
  eapply (prepare_links_ok _ _ (pc_libraries self)) in Hl as (_ & _ & Hdef & Hdatas);
    [|intros i; by destruct (pc_libraries self !! i); constructor].
  assert (∀ i, pc_accounts self !! i = None → datas0 !! i = None) as Hnone.
  { intros i Hi. destruct (Hother i) as [_ ->]; [|apply lookup_empty].
    intros ([j a] & -> & Ha%ids_elem)%list_elem_of_fmap. simpl in *. congruence. }
  assert (∀ i a, pc_accounts self !! i = Some a → brought a ∧ predicted pid i a accounts datas0) as Hsome.
  { intros i a Ha. specialize (Hpred i a (proj2 (ids_elem _ _ _) Ha)).
    destruct (proj1 (wd_linked _ Hv i) (ex_intro _ a Ha)) as (k & l & Hk & Hio).
    assert (is_Some (datas0 !! i)) as [d Hd].
    { apply (Hdef l); [apply ids_values; by exists k|by rewrite elem_of_app]. }
    unfold brought. destruct (acc_ty a) as [addr|]; [|done]. destruct Hpred as [_ He].
    rewrite He, lookup_empty in Hd. done. }
  split.
  - intros i. rewrite Hdatas, fmap_None. split; [|apply Hnone]. intros Hi.
    destruct (pc_accounts self !! i) as [a|] eqn:Ha; [|done].
    destruct (Hsome i a Ha) as (_ & ? & ? & _ & _ & Hd). congruence.
  - intros i a Ha. destruct (Hsome i a Ha) as (Hb & addr & salt & Hp & Hacc & Hd). split; [done|].
    exists addr, salt. split_and!; [done..|]. by rewrite Hdatas, Hd.
Qed.

Lemma accounts_made `{!ManagerOrderLaws} self self' datas made :
  (∀ i, datas !! i = None ↔ pc_accounts self !! i = None) →
  (∀ i a, pc_accounts self !! i = Some a → brought a ∧
    ∃ addr salt, account_address (pc_id self') i a addr salt ∧
      pc_accounts self' !! i = Some (mkAccountInfo (acc_name a) (AccAddr addr) (acc_domain a) (Some addr)) ∧
      datas !! i = Some (mkInstantiateAccountData i a addr salt
                           (approvals (pc_id self') (pc_libraries self) (ids (pc_links self)).*2 i))) →
  Forall2 (account_call self') (iter_map datas) made →
  ∃ is_, is_ ≡ₚ (ids (pc_accounts self)).*1 ∧ Forall2 (account_made self self') is_ made.
Proof.
  intros Hnone Hacc Hmade. exists (iter_map datas).*1. split.
  - rewrite iter_map_perm, ids_perm. apply NoDup_Permutation; [apply NoDup_fst_map_to_list..|]. intros i.
    rewrite !elem_of_keys, <- !not_eq_None_Some. by rewrite Hnone.
  - apply Forall2_fmap_l. eapply Forall2_impl_in; [exact Hmade|]. intros [i d] m Hi (b & processor & Hb & Hpr & ->).
    rewrite iter_map_perm, elem_of_map_to_list in Hi. simpl in *.
    destruct (pc_accounts self !! i) as [a|] eqn:Ha; [|by rewrite (proj2 (Hnone i) Ha) in Hi].
    destruct (Hacc i a Ha) as (_ & addr & salt & Hadr & Hb' & Hd). rewrite Hb in Hb'. simplify_eq. simpl in *.
    exists a, addr, salt, processor. by split_and!.
Qed.

(** C5 For every description of a program, every configuration of the manager and every
    behaviour of the chains under which the address of a contract depends only on what it
    is: when [init] succeeds, the program is wired as described.  The description fitted
    together and brought all its accounts along; each link instantiated its library once, in
    order, on the library's domain, for the saved program id, under the processor of that
    domain, with the saved configuration and with the salt for which its chain predicted
    the saved address; every account was instantiated exactly once, for the same program id
    and with the salt of its predicted and saved address, with exactly the libraries of the links that have it as an
    input approved; every function of an authorization points at the address of the account
    or library that it named; and the authorizations, the owner and the saved program are
    handed over last, after everything else and in this order. *)
Theorem init_wires_program `{!ManagerOrderLaws} self log self' :
  init gc self [] = (log, Ok self') →
  well_described self ∧ (∀ i a, pc_accounts self !! i = Some a → brought a) ∧
  (∀ i, is_Some (pc_libraries self !! i) → ready_in (pc_id self') i (pc_libraries self) (pc_libraries self')) ∧
  Forall2 (library_made self') (ids (pc_links self)).*2 (omap made_library log) ∧
  (∃ is_, is_ ≡ₚ (ids (pc_accounts self)).*1 ∧ Forall2 (account_made self self') is_ (omap made_account log)) ∧
  Forall2 (authorization_resolved self') (pc_authorizations self) (pc_authorizations self') ∧
  ∃ before, Forall early before ∧
    let authorization := authorization_addr (pc_authorization_data self') in
    log = before ++ [AddAuthorizations neutron_domain authorization (pc_authorizations self');
                     ChangeAuthorizationOwner neutron_domain authorization (pc_owner self);
                     SaveProgramConfig neutron_domain self'].
Proof.
  intros (pid & data & accounts & datas0 & libraries & datas & salts & l1 & l2 & l3 & l4 & l5 & l6 & before &
    Hv & Hp & Hl & Hil & Hia & Hau & Hself & Q1 & Hbefore & Q6 & Hlog)%init_ok.
  pose proof (accounts_prepared _ _ _ _ _ _ _ _ _ _ Hv Hp Hl) as [Hnone Hacc].
  pose proof (proj1 (verify_new_config_ok self) Hv) as Hwd.
  pose proof Hl as Hlibs. eapply (prepare_links_ok _ _ (pc_libraries self)) in Hlibs as (_ & Hready & _);
    [|intros i; by destruct (pc_libraries self !! i); constructor].
  assert (Forall quiet l3) as Q3.
  { eapply (only_ok quiet) in Hp as (t2 & -> & Q2); [|apply _].
    eapply (only_ok quiet) in Hl as (t3 & -> & Q3); [|apply _]. by rewrite !Forall_app. }
  destruct (quiet_made _ Q3) as [Ha3 Hl3]. destruct (quiet_made _ Q6) as [Ha6 Hl6].
  assert (Forall early l5) as Q5.
  { eapply (only_ok early) in Hia as (t5 & -> & Q5); [|apply _].
    eapply (only_ok early) in Hil as (t4 & -> & Q4); [|apply _].
    rewrite !Forall_app. split_and!; try done. by apply quiet_early. }
  eapply (instantiate_links_ok (set_parts accounts libraries [] data (set_id pid self))) in Hil as (libs & Hlm & Hlf & Hla);
    [|intros k Hk; eapply prepare_links_salted; [exact Hl|left; by exists k]].
  eapply (instantiate_accounts_ok (set_parts accounts libraries (pc_authorizations self) data (set_id pid self)))
    in Hia as (accs & Ham & Haf & Hal).
  assert (pc_id self' = pid ∧ pc_accounts self' = accounts ∧ pc_libraries self' = libraries ∧
          pc_authorization_data self' = data) as (Hid & Hac & Hlb & Hda) by (by rewrite Hself).
  rewrite Hid, Hlb, Hda. subst log before. rewrite !omap_app. simpl. rewrite Hal, Hlm, Ham, Hla, Ha3, Hl3, Ha6, Hl6.
  rewrite !app_nil_r. simpl. split_and!.
  - done.
  - intros i a Ha. by apply (Hacc i a).
  - intros i Hi. destruct (proj1 (wd_libraries _ Hwd i) Hi) as (k & l & Hk & <-). apply Hready, ids_values. by exists k.
  - eapply Forall2_impl; [exact Hlf|]. unfold library_made. by rewrite Hid, Hlb, Hda.
  - apply (accounts_made _ _ datas); [done|by rewrite Hid, Hac|].
    eapply Forall2_impl; [exact Haf|]. unfold account_call. by rewrite Hid, Hac, Hda.
  - apply mapM_result_Forall2 in Hau. eapply Forall2_impl; [exact Hau|]. intros a a' Ha.
    apply (resolve_authorization_ok datas libraries); [|done..]. intros i d Hd. rewrite Hac.
    destruct (pc_accounts self !! i) as [b|] eqn:Hb; [|by rewrite (proj2 (Hnone i) Hb) in Hd].
    destruct (Hacc i b Hb) as (_ & addr & salt & _ & Hb' & Hd'). rewrite Hd in Hd'. simplify_eq. eauto.
  - exists (l5 ++ l6). rewrite Forall_app. split; [split; [done|by apply quiet_early]|done].
Qed.
End Wiring.
