(* ===== verification/Connector.v ===== *)
(** * The program manager: the connector to a chain

    [program-manager/src/domain/cosmos_cw.rs] and [mock_api.rs]: every method of the trait
    [Connector] as requests to a node of the chain.  What the nodes answer, and the hashes
    and texts of addresses, are parameters.  [node_chains] makes of the connectors the
    chains that [ProgramManager] runs on. *)
From Stdlib Require Import Strings.Ascii Strings.Byte.
From S2P Require Import Prelude Platform Types Format Accounts LibraryBase ProgramRegistry.
From S2P Require Import ManagerLibrary ProgramManager.

Module Connector.
Import Manager ProgramManager.

(** ** What a connector relies on *)
(** Transactions of the module [wasm] (the funds are always empty). *)
Inductive TxMsg :=
| MsgExecuteContract (sender contract : string) (msg : Binary)
| MsgInstantiateContract2 (sender admin : string) (code_id : N) (label : string) (msg salt : Binary)
| MsgUpdateAdmin (sender new_admin contract : string).
(** The answer to a transaction, with its debug text. *)
Record TxResponse := mkTxResponse {
  tx_code : N;
  tx_hash : string;
  tx_events : list (string * list (string * string));
  tx_debug : string;
}.
(** The requests to the node of a chain. *)
Inductive Request :=
| ReqBroadcast (chain : string) (m : TxMsg)
| ReqGetTx (chain hash : string)
| ReqSmart (chain address : string) (query_data : Binary)
| ReqCode (chain : string) (code_id : N)
| ReqContractInfo (chain address : string).
(** The answers, after the requests made before; an error whose text the code replaces is a
    [None].  The last three stand for the clients and the wallet of a new connector. *)
Class Node := {
  node_broadcast : list Request → string → TxMsg → result string (option TxResponse);
  node_get_tx : list Request → string → string → option (option TxResponse);
  node_smart : list Request → string → string → Binary → option Binary;
  node_code : list Request → string → N → option (option Binary);
  node_contract_info : list Request → string → string → option (option N);
  node_client : string → bool;
  decimal_from_str : string → result string N;
  wallet_from_seed_phrase : ChainInfo → N → N → option string;
}.
(** Hashes, [instantiate2_address] of [cosmwasm_std], and the crate [bech32]. *)
Class CosmosHash := {
  sha256 : Binary → Binary;
  sha512 : Binary → Binary;
  instantiate2_address : Binary → Binary → Binary → option Binary;
  bech32_decode : string → option (string * Binary);
  hrp_parse : string → bool;
  bech32_encode : string → Binary → option string;
}.
(** [serde_json::to_vec]. *)
Class ToVec (T : Type) := serde_to_vec : T → result string Binary.
(** The queries to other contracts that the connector makes. *)
Inductive RegistryQuery := RegGetConfig (id : N).
Inductive ProcessorQuery := ProcGetConfig.
Inductive AuthorizationQuery := AuthGetExternalDomain (name : string).
Class ConnectorSerde := {
  vec_registry :: ToVec ProgramRegistry.ExecuteMsg;
  vec_registry_query :: ToVec RegistryQuery;
  vec_processor_query :: ToVec ProcessorQuery;
  vec_authorization_query :: ToVec AuthorizationQuery;
  vec_account :: ToVec AccInstantiateMsg;
  vec_authorization :: ToVec AuthInstantiateMsg;
  vec_processor :: ToVec ProcInstantiateMsg;
  vec_authorization_msg :: ToVec AuthorizationExecuteMsg;
  vec_processor_msg :: ToVec ProcessorExecuteMsg;
  json_program_response :: JsonCodec ProgramRegistry.ProgramResponse;
  json_program_config :: JsonCodec ProgramConfig;
  json_processor_config :: JsonCodec Types.Config;
  json_external_domain :: JsonCodec ExternalDomain;
}.
(** The order in which a [HashMap] of code ids is searched. *)
Class CodeOrder := iter_codes : gmap string N → list (string * N).

(** ** [mock_api.rs] *)
Definition bytes (s : string) : Binary := String.list_byte_of_string s.
Definition eq_ignore_ascii_case (s t : string) : bool :=
  let lower (a : ascii) : N :=
    let n := Ascii.N_of_ascii a in if ((65 <=? n) && (n <=? 90))%N then (n + 32)%N else n in
  bool_decide (lower <$> String.list_ascii_of_string s = lower <$> String.list_ascii_of_string t).
Definition validate_length (b : Binary) : result StdError unit :=
  if (1 <=? length b) && (length b <=? 255) then Ok () else Err (GenericErr "Invalid canonical address length").
Section Api.
Context `{CosmosHash}.
Definition addr_canonicalize (bech32_prefix input : string) : result StdError Binary :=
  match bech32_decode input with
  | None => Err (GenericErr "Error decoding bech32")
  | Some (hrp, data) =>
      if negb (eq_ignore_ascii_case hrp bech32_prefix) then Err (GenericErr "Wrong bech32 prefix") else
      _ ← validate_length data;
      Ok data
  end.
Definition addr_humanize (bech32_prefix : string) (canonical : Binary) : result StdError Addr :=
  _ ← validate_length canonical;
  if hrp_parse bech32_prefix then ok_or_r (bech32_encode bech32_prefix canonical) (GenericErr "Bech32 encoding error")
  else Err (GenericErr "Invalid bech32 prefix").
Definition mock_addr_validate (bech32_prefix input : string) : result StdError Addr :=
  canonical ← addr_canonicalize bech32_prefix input;
  normalized ← addr_humanize bech32_prefix canonical;
  if negb (bool_decide (input = normalized)) then Err (GenericErr "Invalid input: address not normalized") else Ok input.
End Api.

(** ** Requests *)
Definition Conn (A : Type) : Type := list Request → list Request * result CosmosCosmwasmError A.
#[global] Instance Conn_ret : MRet Conn := λ A a reqs, (reqs, Ok a).
#[global] Instance Conn_bind : MBind Conn := λ A B f m reqs,
  match m reqs with
  | (reqs, Ok a) => f a reqs
  | (reqs, Err e) => (reqs, Err e)
  | (reqs, Panic) => (reqs, Panic)
  end.
Definition lift_c {A} (r : result CosmosCosmwasmError A) : Conn A := λ reqs, (reqs, r).
Definition request {A} (answer : list Request → A) (r : Request) : Conn A := λ reqs, (reqs ++ [r], Ok (answer reqs)).
Definition context_c {A} (o : option A) (text : string) : Conn A := lift_c (ok_or_r o (CwError text)).
Definition to_vec {T} `{ToVec T} (x : T) : Conn Binary := lift_c (map_err_r CwSerdeJsonError (serde_to_vec x)).
Definition from_json_c {T} `{JsonCodec T} (b : Binary) : Conn T := lift_c (map_err_r CwStdError (from_json b)).
Definition fail_c {A} (text : string) : Conn A := lift_c (Err (CwError text)).

Record Connector := mkConnector {
  is_main_chain : bool;
  wallet : string;
  code_ids : gmap string N;
  chain_name : string;
  api_prefix : string;
}.
Definition POLYTONE_TIMEOUT : N := 300.
Section Methods.
Context `{CosmMath} `{HashOrder} `{LibrarySerde} `{Node} `{CosmosHash} `{ConnectorSerde} `{CodeOrder}.
Context (gc : GlobalConfig).

Definition new (chain_name : string) : result CosmosCosmwasmError Connector :=
  chain_info ← map_err_r CwConfigError (get_chain_info gc chain_name);
  code_ids ← map_err_r CwConfigError (get_code_ids gc chain_name);
  _ ← (if node_client (ch_grpc chain_info) then Ok () else
       Err (CwError ("Failed to create new client for: " +:+ ch_name chain_info)%string));
  gas_price ← map_err_r CwGrpcError (decimal_from_str (ch_gas_price chain_info));
  gas_adj ← map_err_r CwGrpcError (decimal_from_str "2");
  wallet ← ok_or_r (wallet_from_seed_phrase chain_info gas_price gas_adj)
             (CwError ("Failed to create new wallet for " +:+ ch_name chain_info)%string);
  Ok (mkConnector (bool_decide (ch_name chain_info = NEUTRON_CHAIN)) wallet code_ids (ch_name chain_info)
        (ch_prefix chain_info)).

(** ** Helpers *)
Section Self.
Context (self : Connector).
(** The transaction is looked up every few seconds, at most [retry] times. *)
Fixpoint query_tx_hash (hash : string) (retry : nat) (err : string) : Conn (option TxResponse) :=
  match retry with
  | O => fail_c ("'query_tx_hash': " +:+ err +:+ " failed, Max retry reached")%string
  | S retry =>
      res ← request (λ reqs, node_get_tx reqs (chain_name self) hash) (ReqGetTx (chain_name self) hash);
      match res with
      | Some r => mret r
      | None => query_tx_hash hash retry err
      end
  end.
Definition broadcast_tx (msg : TxMsg) (err_id : string) : Conn (option TxResponse) :=
  res ← request (λ reqs, node_broadcast reqs (chain_name self) msg) (ReqBroadcast (chain_name self) msg);
  res ← lift_c (map_err_r CwError res);
  res ← context_c res ("'" +:+ err_id +:+ "' failed to get tx_response")%string;
  if negb (tx_code res =? 0)%N then fail_c ("Failed " +:+ err_id +:+ ": " +:+ tx_debug res)%string else
  query_tx_hash (tx_hash res) 15 err_id.
Definition smart_contract_state (address : string) (query_data : Binary) (text : string) : Conn Binary :=
  res ← request (λ reqs, node_smart reqs (chain_name self) address query_data)
          (ReqSmart (chain_name self) address query_data);
  context_c res text.
Definition connector_bridge_info (main_chain sender_chain receive_chain : string)
    : result CosmosCosmwasmError PolytoneSingleChainInfo :=
  let '(sender_chain, other_chain) :=
    if bool_decide (main_chain = sender_chain) then (sender_chain, receive_chain) else (receive_chain, sender_chain) in
  bridge ← map_err_r CwConfigError (get_bridge_info gc sender_chain other_chain);
  ok_or_r (bridge_polytone_info bridge !! receive_chain) (CwError ("Bridge info not found for: " +:+ other_chain)%string).
Definition get_checksum (code_id : N) : Conn Binary :=
  code_res ← request (λ reqs, node_code reqs (chain_name self) code_id) (ReqCode (chain_name self) code_id);
  code_info ← context_c code_res ("Code request failed for: " +:+ pretty code_id)%string;
  context_c code_info ("Failed to parse the response of code id: " +:+ pretty code_id)%string.
Definition get_code_id_of_addr (addr : string) : Conn N :=
  res ← request (λ reqs, node_contract_info reqs (chain_name self) addr) (ReqContractInfo (chain_name self) addr);
  info ← context_c res ("Failed to query address info: " +:+ addr)%string;
  context_c info ("No contract info found: " +:+ addr)%string.
Definition get_contract_name_by_address (addr : string) : Conn string :=
  code_id ← get_code_id_of_addr addr;
  found ← context_c (find (λ kv : string * N, (kv.2 =? code_id)%N) (iter_codes (code_ids self)))
            ("Code id not found: " +:+ pretty code_id +:+ " | " +:+ addr)%string;
  mret found.1.
Definition code_id_for (name shown : string) : Conn N :=
  context_c (code_ids self !! name) ("Code id not found for: " +:+ shown)%string.
Definition execute_contract (contract : string) (msg : Binary) (err_id : string) : Conn (option TxResponse) :=
  broadcast_tx (MsgExecuteContract (wallet self) contract msg) err_id.

(** ** The trait [Connector] *)
Definition only_neutron {A} (f : Conn A) : Conn A :=
  if negb (bool_decide (chain_name self = NEUTRON_CHAIN)) then fail_c "Should only be implemented on neutron connector"
  else f.
(** The id in the event of the registry; a missing attribute is a panic.  Values are texts:
    one that is not UTF-8 would be refused before it is parsed. *)
Definition reserved_id (registry_addr : string) (e : string * list (string * string))
    : result CosmosCosmwasmError (option string) :=
  if negb (bool_decide (e.1 = "wasm")) then Ok None else
  a0 ← expect_r (e.2 !! 0);
  if negb (bool_decide (a0 = ("_contract_address", registry_addr))) then Ok None else
  a1 ← expect_r (e.2 !! 1);
  if negb (bool_decide (a1 = ("method", "reserve_id"))) then Ok None else
  a2 ← expect_r (e.2 !! 2);
  Ok (Some a2.2).
Fixpoint find_reserved (registry_addr : string) (events : list (string * list (string * string)))
    : result CosmosCosmwasmError (option string) :=
  match events with
  | [] => Ok None
  | e :: events =>
      found ← reserved_id registry_addr e;
      match found with Some id => Ok (Some id) | None => find_reserved registry_addr events end
  end.
Definition reserve_program_id : Conn N :=
  only_neutron (
    let registry_addr := gc_registry_addr gc in
    msg ← to_vec (ProgramRegistry.ReserveId (wallet self));
    res ← execute_contract registry_addr msg "reserve_program_id";
    res ← context_c res "'reserve_program_id' Failed to get `tx_response`";
    found ← lift_c (find_reserved registry_addr (tx_events res));
    id ← context_c found "'reserve_program_id' Failed to find the event with the id";
    context_c (parse_u64 id) "'reserve_program_id' Failed to parse string to u64").
Definition contract_salt (id : N) (contract_name extra_salt : string) : Binary :=
  sha256 (bytes contract_name ++ bytes (pretty id) ++ bytes extra_salt ++ bytes (gc_registry_addr gc)).
(** The address of a contract with this code, creator and salt. *)
Definition address2 (checksum : Binary) (creator : string) (salt : Binary) : result CosmosCosmwasmError string :=
  canonical ← match addr_canonicalize (api_prefix self) creator with Ok c => Ok c | _ => Panic end;
  addr_canonical ← ok_or_r (instantiate2_address checksum canonical salt) (CwError "Failed to instantiate2 address");
  map_err_r CwStdError (addr_humanize (api_prefix self) addr_canonical).
Definition connector_get_address (id : N) (contract_name extra_salt : string) : Conn (string * Binary) :=
  code_id ← code_id_for contract_name contract_name;
  checksum ← get_checksum code_id;
  let salt := contract_salt id contract_name extra_salt in
  addr ← lift_c (address2 checksum (wallet self) salt);
  mret (addr, salt).
Definition get_address_bridge (sender_addr main_chain sender_chain receiving_chain : string) : Conn string :=
  code_id ← code_id_for "polytone_proxy" "polytone_proxy";
  info ← lift_c (connector_bridge_info main_chain sender_chain receiving_chain);
  checksum ← get_checksum code_id;
  let salt := sha512 (bytes (connection_id info) ++ bytes (other_note_port info) ++ bytes sender_addr) in
  lift_c (address2 checksum (voice_addr info) salt).
Definition connector_instantiate_account (program_id : N) (processor_addr : string) (data : InstantiateAccountData)
    : Conn unit :=
  let ty := acc_ty (iad_info data) in
  code_id ← code_id_for (AccountType_to_string ty) (AccountType_to_string ty);
  match ty with
  | Base admin =>
      msg ← to_vec (mkAccInstantiateMsg (default processor_addr admin) (iad_approved_libraries data));
      _ ← broadcast_tx (MsgInstantiateContract2 (wallet self) processor_addr code_id
             ("program-" +:+ pretty program_id +:+ "|account-" +:+ pretty (iad_id data))%string msg (iad_salt data))
             "instantiate_account";
      mret ()
  | AccAddr _ => mret ()
  end.
Definition instantiate_library (program_id : N) (processor_addr : string) (library_id : N)
    (library_config : LibraryConfig) (salt : Binary) : Conn unit :=
  let name := LibraryConfig_to_string library_config in
  code_id ← code_id_for name name;
  msg ← lift_c (map_err_r CwLibraryError (get_instantiate_msg library_config processor_addr processor_addr));
  _ ← broadcast_tx (MsgInstantiateContract2 (wallet self) processor_addr code_id
         ("program-" +:+ pretty program_id +:+ "|library-" +:+ name +:+ "-" +:+ pretty library_id)%string msg salt)
         "instantiate_library";
  mret ().
Definition instantiate_authorization (program_id : N) (salt : Binary) (processor_addr : string) : Conn unit :=
  if negb (is_main_chain self) then fail_c "Authorization contract can only be instantiated on the main chain" else
  code_id ← code_id_for "valence_authorization" "authorization";
  msg ← to_vec (mkAuthInstantiateMsg (wallet self) [] processor_addr);
  _ ← broadcast_tx (MsgInstantiateContract2 (wallet self) (wallet self) code_id
         ("valence-authorization-" +:+ pretty program_id)%string msg salt) "instantiate_authorization";
  mret ().
Definition change_authorization_owner (authorization_addr owner : string) : Conn unit :=
  if bool_decide (wallet self = owner) then mret () else
  msg ← to_vec (UpdateOwnership (TransferOwnership owner None));
  _ ← execute_contract authorization_addr msg "change_authorization_owner";
  _ ← broadcast_tx (MsgUpdateAdmin (wallet self) owner authorization_addr) "change_authorization_admin";
  mret ().
Definition instantiate_processor (program_id : N) (salt : Binary) (admin authorization : string)
    (polytone_config : option PolytoneContracts) : Conn unit :=
  code_id ← code_id_for "valence_processor" "processor";
  msg ← to_vec (mkProcInstantiateMsg authorization polytone_config);
  _ ← broadcast_tx (MsgInstantiateContract2 (wallet self) admin code_id
         ("valence-processor-" +:+ pretty program_id)%string msg salt) "instantiate_processor";
  mret ().
Definition add_external_domain (main_domain domain authorization_addr processor_addr
    processor_bridge_account_addr : string) : Conn unit :=
  if negb (is_main_chain self)
  then fail_c "Adding external domain is only possible on main domain in authorization contract" else
  bridge ← lift_c (connector_bridge_info main_domain domain main_domain);
  let external_domain := mkExternalDomainInfo domain
    (EnvCosmwasmInfo (PolytoneInfo (mkPolytoneConnectorsInfo
       (mkPolytoneNoteInfo (note_addr bridge) POLYTONE_TIMEOUT) processor_bridge_account_addr))) processor_addr in
  msg ← to_vec (PermissionedAction (AddExternalDomains [external_domain]));
  _ ← execute_contract authorization_addr msg "add_external_domain";
  mret ().
Definition add_authorizations (authorization_addr : string) (authorizations : list AuthorizationInfo) : Conn unit :=
  if negb (is_main_chain self)
  then fail_c "Adding authorizations is only possible on main domain in authorization contract" else
  msg ← to_vec (PermissionedAction (CreateAuthorizations authorizations));
  _ ← execute_contract authorization_addr msg "add_authorizations";
  mret ().

(** Whether the creation of a bridge account should be tried again, asked at most
    [retry_amount] + 1 times while it is pending. *)
Fixpoint should_retry_processor_bridge_account_creation (processor_addr : string) (retry_amount : nat) : Conn bool :=
  query_data ← to_vec ProcGetConfig;
  data ← smart_contract_state processor_addr query_data
           "'_should_retry_processor_bridge_account_creation' Failed to query the processor";
  config_res ← from_json_c (T:=Types.Config) data;
  match processor_domain config_res with
  | ProcMain => fail_c
      "'_should_retry_processor_bridge_account_creation' Processor domain is main, should be external"
  | ProcExternal polytone =>
      match proxy_on_main_domain_state polytone with
      | ProxyTimedOut => mret true
      | ProxyPendingResponse =>
          match retry_amount with
          | O => fail_c "'_should_retry_processor_bridge_account_creation' Max retry reached"
          | S retry_amount => should_retry_processor_bridge_account_creation processor_addr retry_amount
          end
      | ProxyCreated => mret false
      | ProxyUnexpectedError err =>
          fail_c ("'_should_retry_processor_bridge_account_creation' UnexpectedError: " +:+ err)%string
      end
  end.
Fixpoint should_retry_authorization_bridge_account_creation (authorization_addr domain : string) (retry_amount : nat)
    : Conn bool :=
  query_data ← to_vec (AuthGetExternalDomain domain);
  data ← smart_contract_state authorization_addr query_data
           "'_should_retry_authorization_bridge_account_creation' Failed to query the authorization";
  res ← from_json_c (T:=ExternalDomain) data;
  match execution_environment res with
  | EnvEvm _ _ => mret false
  | EnvCosmwasm (Polytone_ polytone_connectors) =>
      match note_state (polytone_note polytone_connectors) with
      | ProxyTimedOut => mret true
      | ProxyPendingResponse =>
          match retry_amount with
          | O => fail_c "'_should_retry_authorization_bridge_account_creation' Max retry reached"
          | S retry_amount => should_retry_authorization_bridge_account_creation authorization_addr domain retry_amount
          end
      | ProxyCreated => mret false
      | ProxyUnexpectedError err =>
          fail_c ("'_should_retry_authorization_bridge_account_creation' UnexpectedError: " +:+ err)%string
      end
  end.
Fixpoint instantiate_processor_bridge_account (processor_addr : string) (retry : nat) : Conn unit :=
  should_retry ← should_retry_processor_bridge_account_creation processor_addr 5;
  if should_retry : bool then
    match retry with
    | O => fail_c "'instantiate_processor_bridge_account', max retry reached"
    | S retry =>
        msg ← to_vec (ProcPermissionlessAction ProcRetryBridgeCreation);
        _ ← execute_contract processor_addr msg "instantiate_processor_bridge_account";
        instantiate_processor_bridge_account processor_addr retry
    end
  else mret ().
Fixpoint instantiate_authorization_bridge_account (authorization_addr domain : string) (retry : nat) : Conn unit :=
  should_retry ← should_retry_authorization_bridge_account_creation authorization_addr domain 5;
  if should_retry : bool then
    match retry with
    | O => fail_c "'instantiate_authorization_bridge_account', max retry reached"
    | S retry =>
        msg ← to_vec (PermissionlessAction (RetryBridgeCreation domain));
        _ ← execute_contract authorization_addr msg "instantiate_authorization_bridge_account";
        instantiate_authorization_bridge_account authorization_addr domain retry
    end
  else mret ().

Definition query_program_registry (id : N) : Conn ProgramRegistry.ProgramResponse :=
  if negb (bool_decide (chain_name self = NEUTRON_CHAIN)) then fail_c "program registry only exists on neutron chain" else
  query_data ← to_vec (RegGetConfig id);
  data ← smart_contract_state (gc_registry_addr gc) query_data
           "'query_program_registry' Failed to query program registry";
  from_json_c data.
(** [VariantNames]. *)
Definition AccountType_VARIANTS : list string := ["Addr"; "valence_base_account"].
Definition LibraryConfig_VARIANTS : list string :=
  ["none"; "valence_forwarder_library"; "valence_splitter_library"; "valence_reverse_splitter_library";
   "valence_astroport_lper"; "valence_astroport_withdrawer"; "valence_osmosis_gamm_lper";
   "valence_osmosis_gamm_withdrawer"; "valence_generic_ibc_transfer_library";
   "valence_neutron_ibc_transfer_library"; "valence_osmosis_cl_lper"; "valence_osmosis_cl_withdrawer";
   "valence_drop_liquid_staker"; "valence_drop_liquid_unstaker"; "valence_mars_lending"; "valence_duality_lper";
   "valence_duality_withdrawer"; "valence_magma_lper"; "valence_magma_withdrawer"; "valence_vortex_lper"].
Definition one_of (variants : list string) (contract_name text : string) : Conn unit :=
  if existsb (λ x, bool_decide (x = contract_name)) variants then mret () else fail_c text.
Definition verify_account (account_addr : string) : Conn unit :=
  contract_name ← get_contract_name_by_address account_addr;
  one_of AccountType_VARIANTS contract_name "'verify_account' Code id doesn't match any account type".
Definition verify_library (library_addr : option string) : Conn unit :=
  library_addr ← context_c library_addr "'verify_library' Library address is empty";
  contract_name ← get_contract_name_by_address library_addr;
  one_of LibraryConfig_VARIANTS contract_name "'verify_account' Code id doesn't match any account type".
Definition verify_processor (processor_addr : string) : Conn unit :=
  contract_name ← get_contract_name_by_address processor_addr;
  if negb (bool_decide (contract_name = "valence_processor"))
  then fail_c "'verify_processor' Code id isn't of processor code id" else mret ().
Definition verify_bridge_account (bridge_addr : string) : Conn unit :=
  _ ← get_code_id_of_addr bridge_addr;
  mret ().
Definition verify_authorization_addr (addr : string) : Conn unit :=
  code_id ← code_id_for "valence_authorization" "authorization";
  code_id_on_chain ← get_code_id_of_addr addr;
  if negb (code_id_on_chain =? code_id)%N
  then fail_c "'verify_authorization_addr' Code id doesn't match authorization" else mret ().
Definition without_address (config : ProgramConfig) : bool :=
  existsb (λ l, bool_decide (li_addr l = None)) (ids (pc_libraries config)).*2.
(** The configurations of the libraries are not kept in the registry. *)
Definition strip_configs (config : ProgramConfig) : ProgramConfig :=
  mkProgramConfig (pc_id config) (pc_name config) (pc_owner config) (pc_links config) (pc_accounts config)
    ((λ l, mkLibraryInfo (li_name l) (li_domain l) NoConfig (li_addr l)) <$> pc_libraries config)
    (pc_authorizations config) (pc_authorization_data config).
Definition save_program_config (config : ProgramConfig) : Conn unit :=
  only_neutron (
    if without_address config then fail_c "Before saving program config each library must have an address" else
    let config := strip_configs config in
    program_binary ← lift_c (map_err_r CwStdError (to_json_binary config));
    msg ← to_vec (ProgramRegistry.SaveProgram (pc_id config) (pc_owner config) program_binary);
    _ ← execute_contract (gc_registry_addr gc) msg "save_program_config";
    mret ()).
Definition update_program_config (config : ProgramConfig) : Conn unit :=
  only_neutron (
    if without_address config then fail_c "Before saving program config each library must have an address" else
    program_binary ← lift_c (map_err_r CwStdError (to_json_binary config));
    msg ← to_vec (ProgramRegistry.UpdateProgram (pc_id config) program_binary);
    _ ← execute_contract (gc_registry_addr gc) msg "update_program_config";
    mret ()).
Definition get_program_config (id : N) : Conn ProgramConfig :=
  only_neutron (
    query_data ← to_vec (RegGetConfig id);
    data ← smart_contract_state (gc_registry_addr gc) query_data "Failed to query the program config from registry";
    res ← from_json_c (T:=ProgramRegistry.ProgramResponse) data;
    from_json_c (ProgramRegistry.pr_program_config res)).
End Self.

(** ** A call of the manager *)
Inductive Answer :=
| Done
| Address (addr : string) (salt : Binary)
| BridgeAddress (addr : string)
| ProgramId (id : N)
| RegistryAnswer (r : ProgramRegistry.ProgramResponse)
| ProgramAnswer (c : ProgramConfig).
Definition on_chain (d : Domain) (f : Connector → Conn Answer) : Conn Answer :=
  self ← lift_c (new (get_chain_name d));
  f self.
Definition done_c (m : Conn unit) : Conn Answer := _ ← m; mret Done.
Definition perform (c : Call) : Conn Answer :=
  match c with
  | Connect d => on_chain d (λ _, mret Done)
  | GetAddress d program_id contract_name extra_salt =>
      on_chain d (λ self, '(addr, salt) ← connector_get_address self program_id contract_name extra_salt;
                          mret (Address addr salt))
  | GetAddressBridge d sender_addr main_chain sender_chain receiving_chain =>
      on_chain d (λ self, addr ← get_address_bridge self sender_addr main_chain sender_chain receiving_chain;
                          mret (BridgeAddress addr))
  | InstantiateAccount d program_id processor_addr data =>
      on_chain d (λ self, done_c (connector_instantiate_account self program_id processor_addr data))
  | InstantiateLibrary d program_id processor_addr library_id library_config salt =>
      on_chain d (λ self, done_c (instantiate_library self program_id processor_addr library_id library_config salt))
  | InstantiateProcessor d program_id salt admin authorization polytone_config =>
      on_chain d (λ self, done_c (instantiate_processor self program_id salt admin authorization polytone_config))
  | InstantiateProcessorBridgeAccount d processor_addr retry =>
      on_chain d (λ self, done_c (instantiate_processor_bridge_account self processor_addr (N.to_nat retry)))
  | VerifyAccount d account_addr => on_chain d (λ self, done_c (verify_account self account_addr))
  | VerifyLibrary d library_addr => on_chain d (λ self, done_c (verify_library self library_addr))
  | VerifyProcessor d processor_addr => on_chain d (λ self, done_c (verify_processor self processor_addr))
  | VerifyBridgeAccount d bridge_addr => on_chain d (λ self, done_c (verify_bridge_account self bridge_addr))
  | ReserveProgramId d => on_chain d (λ self, id ← reserve_program_id self; mret (ProgramId id))
  | InstantiateAuthorization d program_id salt processor_addr =>
      on_chain d (λ self, done_c (instantiate_authorization self program_id salt processor_addr))
  | AddAuthorizations d authorization_addr authorizations =>
      on_chain d (λ self, done_c (add_authorizations self authorization_addr authorizations))
  | InstantiateAuthorizationBridgeAccount d authorization_addr domain retry =>
      on_chain d (λ self,
        done_c (instantiate_authorization_bridge_account self authorization_addr domain (N.to_nat retry)))
  | AddExternalDomain d main_domain domain authorization_addr processor_addr bridge_account_addr =>
      on_chain d (λ self,
        done_c (add_external_domain self main_domain domain authorization_addr processor_addr bridge_account_addr))
  | ChangeAuthorizationOwner d authorization_addr owner =>
      on_chain d (λ self, done_c (change_authorization_owner self authorization_addr owner))
  | QueryProgramRegistry d id => on_chain d (λ self, r ← query_program_registry self id; mret (RegistryAnswer r))
  | VerifyAuthorizationAddr d addr => on_chain d (λ self, done_c (verify_authorization_addr self addr))
  | SaveProgramConfig d config => on_chain d (λ self, done_c (save_program_config self config))
  | UpdateProgramConfig d config => on_chain d (λ self, done_c (update_program_config self config))
  | GetProgramConfig d id => on_chain d (λ self, c ← get_program_config self id; mret (ProgramAnswer c))
  end.
(** The requests that calls lead to, and the answer to the next call. *)
Definition requests (log : list Call) : list Request := foldl (λ reqs c, (perform c reqs).1) [] log.
Definition answer {A} (pick : Answer → option A) (log : list Call) (c : Call) : result ConnectorError A :=
  match (perform c (requests log)).2 with
  | Ok a => expect_r (pick a)
  | Err e => Err (CosmosCosmwasmErr e)
  | Panic => Panic
  end.
(** [get_api]: addresses are checked for the prefix of the chain. *)
Definition api_platform (base : Platform) (prefix : string) : Platform := {|
  addr_validate := mock_addr_validate prefix;
  timestamp_seconds := timestamp_seconds (Platform:=base);
  timestamp_plus_seconds := timestamp_plus_seconds (Platform:=base);
  is_expired := is_expired (Platform:=base);
  duration_after := duration_after (Platform:=base);
  must_pay := must_pay (Platform:=base);
  hex_from_hex := hex_from_hex (Platform:=base);
|}.
Definition node_chains (base : Platform) : Chains := {|
  chain_done := answer (λ a, match a with Done => Some () | _ => None end);
  chain_address := answer (λ a, match a with Address addr salt => Some (addr, salt) | _ => None end);
  chain_bridge_address := answer (λ a, match a with BridgeAddress addr => Some addr | _ => None end);
  chain_program_id := answer (λ a, match a with ProgramId id => Some id | _ => None end);
  chain_registry := answer (λ a, match a with RegistryAnswer r => Some r | _ => None end);
  chain_program := answer (λ a, match a with ProgramAnswer c => Some c | _ => None end);
  chain_api d := api_platform base (match new (get_chain_name d) with Ok self => api_prefix self | _ => "" end);
|}.
End Methods.
End Connector.
