(* ===== verification/ManagerProgress.v ===== *)
(** * The program manager: a program that can be deployed is deployed

    When the chains answer, [ProgramConfig::init] reaches its end: the loops over domains,
    accounts, links and authorizations meet nothing that is missing, and the checks at the
    end read back the domains that the loops wrote. *)
From Stdlib Require Import Strings.Ascii.
From S2P Require Import Prelude Platform Types Format Accounts LibraryBase LibraryAccount ProgramRegistry.
From S2P Require Import ManagerLibrary ProgramManager ProgramManagerTheorems.
Import Manager ProgramManager.

(** ** Domains and their texts *)
Definition plain (name : string) : Prop := ∀ a b, name ≠ (a +:+ ":" +:+ b)%string.
Lemma split_once_plain name : plain name → split_once name = (name, None).
Proof.
  induction name as [|c name IH]; intros Hp; [done|].
  assert (plain name) as Hn by (intros a b ->; by apply (Hp (String c a) b)).
  assert (c ≠ ":"%char) as Hc by (intros ->; by apply (Hp "" name)).
  cbn [split_once]. rewrite (IH Hn). by destruct c as [[] [] [] [] [] [] [] []].
Qed.
Lemma neutron_plain : plain (get_chain_name neutron_domain).
Proof. intros a b. do 8 (destruct a as [|? a]; [done|]). done. Qed.
Lemma from_string_to_string d : plain (get_chain_name d) → from_string (Domain_to_string d) = Ok d.
Proof.
  destruct d as [name]. intros Hp. unfold from_string.
  assert (split_once (Domain_to_string (CosmosCosmwasm name)) = ("CosmosCosmwasm", Some name)) as -> by reflexivity.
  rewrite bool_decide_eq_true_2 by done. simpl. by rewrite (split_once_plain name Hp).
Qed.

(** ** Runs that succeed *)
Definition completes {A} (m : Mgr A) (log : list Call) : Prop := ∃ log' a, m log = (log', Ok a).
Lemma completes_bind {A B} (m : Mgr A) (f : A → Mgr B) log :
  completes m log → (∀ log' a, m log = (log', Ok a) → completes (f a) log') → completes (m ≫= f) log.
Proof.
  intros (log' & a & Hm) Hf. destruct (Hf _ _ Hm) as (log'' & b & Hb). exists log'', b. apply mgr_bind_ok. eauto.
Qed.
Lemma completes_ret {A} (a : A) log : completes (mret (M:=Mgr) a) log.
Proof. by eexists _, _. Qed.
Lemma completes_lift {E A} `{From E ManagerError} (r : result E A) log : (∃ a, r = Ok a) → completes (lift_m r) log.
Proof. intros [a ->]. by eexists _, _. Qed.
Lemma completes_each {A} (f : A → Mgr unit) l log : (∀ x log, x ∈ l → completes (f x) log) → completes (each_m f l) log.
Proof.
  unfold each_m. revert log. induction l as [|x l IH]; intros log Hf; simpl; [apply completes_ret|].
  apply completes_bind; [apply Hf; constructor|]. intros log' [] _. apply IH. intros y log'' Hy. apply Hf. by constructor.
Qed.

(** ** Chains that answer, and programs they can carry *)
Class Willing `{Chains} : Prop := {
  willing_done log c : chain_done log c = Ok ();
  willing_address log c : ∃ r, chain_address log c = Ok r;
  willing_bridge_address log c : ∃ addr, chain_bridge_address log c = Ok addr;
  willing_program_id log c : ∃ id, chain_program_id log c = Ok id;
  willing_registry log c : ∃ e, chain_registry log c = Err e;
}.
Section Progress.
Context `{CosmMath} `{HashOrder} `{LibrarySerde} `{AhoCorasick} `{Chains} `{ManagerOrder} (gc : GlobalConfig).
(** What a function of an authorization may name. *)
Definition known (self : ProgramConfig) (l : LibraryAccountType) : Prop :=
  match l with
  | LibAddr _ => True
  | LibAccountId i => is_Some (pc_accounts self !! i)
  | LibLibraryId i => is_Some (pc_libraries self !! i)
  end.
Definition functions_known (self : ProgramConfig) (a : AuthorizationInfo) : Prop :=
  match ai_subroutine a with
  | Atomic s => Forall (λ f, known self (af_contract_address f)) (as_functions s)
  | NonAtomic s => Forall (λ f, known self (nf_contract_address f)) (ns_functions s)
  end.
(** The configuration of the library of a link is still one, and valid, when the ids of the
    link's accounts become addresses in its text. *)
Definition link_ids (k : Link) : list N := input_accounts_id k ++ output_accounts_id k.
Definition given_address (addr : string) : Prop := ∃ log c salt, chain_address log c = Ok (addr, salt).
Definition replaceable (k : Link) (l : LibraryInfo) : Prop :=
  ∀ address : N → string, (∀ i, i ∈ link_ids k → given_address (address i)) →
  ∃ c, replace_config (li_config l) (link_ids k ≫= account_patterns)
         (link_ids k ≫= λ i, account_replacements (address i)) = Ok c ∧
       pre_validate_config (chain_api (li_domain l)) c = Ok ().
Record deployable (self : ProgramConfig) : Prop := {
  dp_described : well_described self;
  dp_brought i a : pc_accounts self !! i = Some a → brought a;
  dp_bridges d : d ∈ get_all_domains self → d ≠ neutron_domain →
    ∃ b, get_bridge_info gc NEUTRON_CHAIN (get_chain_name d) = Ok b;
  dp_names d : d ∈ get_all_domains self → plain (get_chain_name d);
  dp_once : NoDup (library_id <$> (ids (pc_links self)).*2);
  dp_configs i k l : pc_links self !! i = Some k → pc_libraries self !! library_id k = Some l → replaceable k l;
  dp_functions a : a ∈ pc_authorizations self → functions_known self a;
}.
Context `{!Willing} `{!AddressesFixed}.

Lemma completes_do c log : completes (do_ c) log.
Proof. unfold do_, ask, completes. rewrite willing_done. by eexists _, _. Qed.
Lemma completes_connector_held held d log :
  shard_locked held d = false → completes (get_or_create_connector held d) log.
Proof.
  intros Hs. unfold get_or_create_connector, completes. rewrite Hs. destruct (existsb _ log); [by eexists _, _|].
  apply completes_do.
Qed.
Lemma completes_connector d log : completes (get_or_create_connector [] d) log.
Proof. by apply completes_connector_held. Qed.
Lemma completes_get_address d i n x log : completes (get_address d i n x) log.
Proof. unfold get_address, ask, completes. destruct (willing_address log (GetAddress d i n x)) as [r ->]. by eexists _, _. Qed.
Lemma completes_bridge_address c log : completes (ask chain_bridge_address c) log.
Proof. unfold ask, completes. destruct (willing_bridge_address log c) as [r ->]. by eexists _, _. Qed.
Lemma completes_program_id c log : completes (ask chain_program_id c) log.
Proof. unfold ask, completes. destruct (willing_program_id log c) as [r ->]. by eexists _, _. Qed.
(** One step of a run. *)
Ltac break_results := repeat match goal with u : () |- _ => destruct u | p : _ * _ |- _ => destruct p end; simpl.
Ltac step :=
  first
    [ apply completes_ret | apply completes_do | apply completes_connector | apply completes_get_address
    | apply completes_bridge_address | apply completes_program_id
    | apply completes_bind; [step|let Hm := fresh "Hm" in intros ? ? Hm; break_results] ].

(** ** Domains *)
(** The parts of the authorization data that name domains. *)
Definition names_of (ds : list Domain) (m : gmap string string) : Prop :=
  ∀ k v, m !! k = Some v → ∃ d, k = Domain_to_string d ∧ d ∈ ds.
Lemma names_of_insert ds d v m : names_of ds m → d ∈ ds → names_of ds (<[Domain_to_string d := v]> m).
Proof. intros Hm Hd k w. destruct (decide (k = Domain_to_string d)) as [->|]; [eauto|]. rewrite lookup_insert_ne by done. apply Hm. Qed.
Definition domains_ready (all done_ : list Domain) (data : AuthorizationData) : Prop :=
  names_of all (processor_addrs data) ∧ names_of all (authorization_bridge_addrs data) ∧
  ∀ d, d ∈ done_ → is_Some (processor_addrs data !! Domain_to_string d).
Lemma main_domain_ready ds addr processor :
  domains_ready (neutron_domain :: ds) [neutron_domain]
    (set_processor_addr neutron_domain processor (set_authorization_addr addr AuthorizationData_default)).
Proof.
  split; [|split].
  - apply names_of_insert; [|constructor]. intros k v. simpl. by rewrite lookup_empty.
  - intros k v. simpl. by rewrite lookup_empty.
  - intros d ->%list_elem_of_singleton. simpl. by rewrite lookup_insert_eq.
Qed.
(** A domain in another shard than the main one, whose connector [init] holds while it visits
    the others. *)
Definition apart (d : Domain) : Prop := d ≠ neutron_domain → connector_shard d ≠ connector_shard neutron_domain.
Lemma shard_locked_neutron d : shard_locked [neutron_domain] d = true ↔ connector_shard d = connector_shard neutron_domain.
Proof. unfold shard_locked. simpl. rewrite orb_false_r, N.eqb_eq. done. Qed.
Lemma init_domain_apart pid addr data d log log' data' : init_domain gc pid addr data d log = (log', Ok data') → apart d.
Proof.
  unfold init_domain. intros Hi Hd. rewrite bool_decide_eq_false_2 in Hi by done.
  apply mgr_bind_ok in Hi as ([] & l & Hc & _). unfold get_or_create_connector in Hc.
  intros Hs%shard_locked_neutron. by rewrite Hs in Hc.
Qed.
Lemma init_domains_apart pid addr data ds log log' data' :
  fold_m (init_domain gc pid addr) data ds log = (log', Ok data') → Forall apart ds.
Proof.
  revert data log. induction ds as [|d ds IH]; intros data log; simpl; [constructor|].
  intros (data1 & l1 & Hd%init_domain_apart & Hds%IH)%mgr_bind_ok. by constructor.
Qed.
Lemma init_domain_succeeds pid addr data d log :
  (d ≠ neutron_domain → ∃ b, get_bridge_info gc NEUTRON_CHAIN (get_chain_name d) = Ok b) → apart d →
  completes (init_domain gc pid addr data d) log.
Proof.
  intros Hb Hs. unfold init_domain. case_bool_decide as Hd; [step|]. destruct (Hb Hd) as [b Hbr].
  apply completes_bind; [apply completes_connector_held, not_true_is_false; by rewrite shard_locked_neutron; apply Hs|].
  intros ? [] _. do 2 step. apply completes_bind; [apply completes_lift; unfold get_polytone_info; rewrite Hbr; by eexists|].
  intros. repeat step.
Qed.
Lemma init_domain_ready pid addr data d all done_ log log' data' :
  init_domain gc pid addr data d log = (log', Ok data') → d ∈ all → neutron_domain ∈ done_ →
  domains_ready all done_ data → domains_ready all (d :: done_) data'.
Proof.
  unfold init_domain. intros Hi Hd Hn (Hp & Ha & Hdone). case_bool_decide as Hne.
  - mgr_inv. split_and!; [done..|]. intros d' [->|]%elem_of_cons; by apply Hdone.
  - mgr_inv. split_and!; [by apply names_of_insert..|]. simpl. intros d' Hd'. apply lookup_insert_is_Some.
    destruct (decide (Domain_to_string d = Domain_to_string d')) as [|Hns]; [by left|right; split; [done|]].
    apply elem_of_cons in Hd' as [->|]; [done|by apply Hdone].
Qed.
Lemma init_domains_succeed pid addr data ds all done_ log :
  (∀ d, d ∈ ds → d ≠ neutron_domain → ∃ b, get_bridge_info gc NEUTRON_CHAIN (get_chain_name d) = Ok b) →
  Forall apart ds → (∀ d, d ∈ ds → d ∈ all) → neutron_domain ∈ done_ → domains_ready all done_ data →
  ∃ log' data', fold_m (init_domain gc pid addr) data ds log = (log', Ok data') ∧ domains_ready all (ds ++ done_) data'.
Proof.
  revert data done_ log. induction ds as [|d ds IH]; intros data done_ log Hb Hs Hall Hn Hr; simpl; [by eexists _, _|].
  apply Forall_cons in Hs as [Hs Hss].
  destruct (init_domain_succeeds pid addr data d log) as (l1 & data1 & Hd1); [intros; apply Hb; [constructor|done]|done|].
  pose proof (init_domain_ready _ _ _ _ _ _ _ _ _ Hd1 (Hall d ltac:(constructor)) Hn Hr) as Hr1.
  destruct (IH data1 (d :: done_) l1) as (l2 & data2 & Hd2 & Hp & Ha & Hd);
    [intros; apply Hb; [by constructor|done]|done|intros; apply Hall; by constructor|by constructor|done|].
  exists l2, data2. rewrite mgr_bind_ok. split; [eauto|]. split_and!; [done..|]. intros d' Hd'. apply Hd. set_solver.
Qed.

(** ** Accounts *)
Lemma predict_accounts_succeed pid st l log : completes (fold_m (predict_account pid) st l) log.
Proof.
  revert st log. induction l as [|[i a] l IH]; intros [accounts datas] log; simpl; [step|].
  apply completes_bind; [|intros; apply IH]. destruct (acc_ty a); repeat step.
Qed.
(** ** Links *)
Lemma approve_inputs_patterns lid addr inputs datas ps rs (address : N → string) :
  (∀ i, i ∈ inputs → ∃ d, datas !! i = Some d ∧ iad_addr d = address i) →
  ∃ datas', approve_inputs lid addr inputs datas ps rs =
    Ok (datas', ps ++ (inputs ≫= account_patterns), rs ++ (inputs ≫= λ i, account_replacements (address i))).
Proof.
  revert datas ps rs. induction inputs as [|j inputs IH]; intros datas ps rs Hin.
  - exists datas. simpl. by rewrite !app_nil_r.
  - destruct (Hin j) as (d & Hd & Ha); [constructor|]. cbn [approve_inputs]. unfold init_data. rewrite Hd.
    cbn [ok_or_r mbind result_bind].
    destruct (IH (<[j := add_library addr d]> datas) (ps ++ account_patterns j) (rs ++ account_replacements (iad_addr d)))
      as [datas' ->].
    + intros i Hi. destruct (decide (i = j)) as [->|]; [|rewrite lookup_insert_ne by done; apply Hin; by constructor].
      rewrite lookup_insert_eq. by exists (add_library addr d).
    + exists datas'. rewrite Ha. by rewrite !bind_cons, !app_assoc.
Qed.
Lemma list_outputs_patterns lid outputs datas ps rs (address : N → string) :
  (∀ i, i ∈ outputs → ∃ d, datas !! i = Some d ∧ iad_addr d = address i) →
  list_outputs lid outputs datas ps rs =
    Ok (ps ++ (outputs ≫= account_patterns), rs ++ (outputs ≫= λ i, account_replacements (address i))).
Proof.
  revert ps rs. induction outputs as [|j outputs IH]; intros ps rs Hin; [by rewrite !app_nil_r|].
  destruct (Hin j) as (d & Hd & Ha); [constructor|]. cbn [list_outputs]. unfold init_data. rewrite Hd.
  cbn [ok_or_r mbind result_bind]. rewrite IH by (intros; apply Hin; by constructor).
  by rewrite Ha, !bind_cons, !app_assoc.
Qed.
Definition addressed (datas : gmap N InstantiateAccountData) (address : N → string) (i : N) : Prop :=
  given_address (address i) ∧ ∃ d, datas !! i = Some d ∧ iad_addr d = address i.
Lemma addressed_more datas datas' address i (addrs : list string) :
  datas' !! i = add_libraries addrs <$> datas !! i → addressed datas address i → addressed datas' address i.
Proof. intros Hd (Hg & d & Hi & Ha). split; [done|]. rewrite Hd, Hi. by exists (add_libraries addrs d). Qed.
Lemma prepare_link_succeeds pid libraries datas salts k l address log :
  libraries !! library_id k = Some l → (∀ i, i ∈ link_ids k → addressed datas address i) → replaceable k l →
  completes (prepare_link pid (libraries, datas, salts) k) log.
Proof.
  intros Hl Hd Hr. unfold link_ids in Hd. setoid_rewrite elem_of_app in Hd. unfold prepare_link.
  apply completes_bind; [apply completes_lift; unfold get_library; rewrite Hl; by eexists|].
  intros ? ? [Hg ->]%lift_m_ok. unfold get_library in Hg. rewrite Hl in Hg. injection Hg as <-. do 2 step.
  rename s into addr.
  destruct (approve_inputs_patterns (library_id k) addr (input_accounts_id k) datas [] [] address)
    as [datas' Hin]; [intros i Hi; by apply Hd; left|].
  pose proof (approve_inputs_ok _ _ _ _ _ _ _ _ _ Hin) as [_ Hd'].
  pose proof (list_outputs_patterns (library_id k) (output_accounts_id k) datas') as Hout.
  rewrite Hin. apply completes_bind; [apply completes_lift; by eexists|]. intros ? ? [[= <-] ->]%lift_m_ok.
  rewrite (Hout _ _ address) by (intros i Hi; eapply addressed_more; [apply Hd'|by apply Hd; right]).
  apply completes_bind; [apply completes_lift; by eexists|]. intros ? ? [[= <-] ->]%lift_m_ok. simpl.
  destruct (Hr address) as (c & Hc & Hv); [intros i Hi%elem_of_app; by apply Hd|].
  unfold link_ids in Hc. rewrite !bind_app in Hc. rewrite Hc.
  apply completes_bind; [apply completes_lift; by eexists|]. intros ? ? [[= <-] ->]%lift_m_ok.
  rewrite Hv. apply completes_bind; [apply completes_lift; by eexists|]. intros. apply completes_ret.
Qed.
Lemma prepare_links_succeed pid links libraries datas salts address log :
  NoDup (library_id <$> links) →
  (∀ k, k ∈ links → ∃ l, libraries !! library_id k = Some l ∧ replaceable k l) →
  (∀ k i, k ∈ links → i ∈ link_ids k → addressed datas address i) →
  ∃ log' libraries' datas' salts',
    fold_m (prepare_link pid) (libraries, datas, salts) links log = (log', Ok (libraries', datas', salts')) ∧
    ∀ i, is_Some (salts !! i) ∨ i ∈ library_id <$> links → is_Some (salts' !! i).
Proof.
  revert libraries datas salts log. induction links as [|k links IH]; intros libraries datas salts log Hnd Hl Hd; simpl.
  { do 4 eexists. split; [done|]. by intros i [?|?%not_elem_of_nil]. }
  destruct (Hl k) as (l & Hlk & Hr); [constructor|]. apply NoDup_cons in Hnd as [Hk Hnd].
  destruct (prepare_link_succeeds pid libraries datas salts k l address log) as (l1 & [[libs1 datas1] salts1] & Hp);
    [done|intros; apply (Hd k); [constructor|done]|done|].
  pose proof (prepare_link_ok _ _ _ _ _ _ _ _ _ _ Hp) as (l2 & l' & salt & _ & _ & -> & -> & _ & Hds).
  destruct (IH (<[library_id k := l']> libraries) datas1 (<[library_id k := salt]> salts) l1)
    as (log' & libraries' & datas' & salts' & Hf & Hs); [done| | |].
  - intros k' Hk'. rewrite lookup_insert_ne; [apply Hl; by constructor|]. intros He. apply Hk. rewrite He.
    by apply list_elem_of_fmap_2.
  - intros k' i Hk' Hi. eapply addressed_more; [apply Hds|]. apply (Hd k'); [by constructor|done].
  - exists log', libraries', datas', salts'. split; [apply mgr_bind_ok; by eexists _, _|].
    intros i Hi. apply Hs. destruct (decide (i = library_id k)) as [->|Hne]; [left; by rewrite lookup_insert_eq|].
    rewrite lookup_insert_ne by done. destruct Hi as [|[|]%elem_of_cons]; [by left|done|by right].
Qed.

(** ** Contracts and authorizations *)
Lemma instantiate_link_succeeds pid data libraries salts k l processor log :
  libraries !! library_id k = Some l → processor_addrs data !! Domain_to_string (li_domain l) = Some processor →
  is_Some (salts !! library_id k) → completes (instantiate_link pid data libraries salts k) log.
Proof.
  intros Hl Hp [salt Hs]. unfold instantiate_link, get_library, get_processor_account_on_domain. rewrite Hl, Hs.
  apply completes_bind; [apply completes_lift; by eexists|]. intros ? ? [[= <-] ->]%lift_m_ok. step. rewrite Hp.
  apply completes_bind; [apply completes_lift; by eexists|]. intros ? ? _.
  apply completes_bind; [apply completes_lift; by eexists|]. intros. step.
Qed.
Lemma instantiate_account_succeeds pid self d a processor log :
  pc_accounts self !! d.1 = Some a →
  processor_addrs (pc_authorization_data self) !! Domain_to_string (acc_domain a) = Some processor →
  completes (instantiate_account pid self d) log.
Proof.
  intros Ha Hp. unfold instantiate_account, get_account, get_processor_addr. rewrite Ha.
  apply completes_bind; [apply completes_lift; by eexists|]. intros ? ? [[= <-] ->]%lift_m_ok. step. rewrite Hp.
  apply completes_bind; [apply completes_lift; by eexists|]. intros. step.
Qed.
Section Resolve.
Context (datas : gmap N InstantiateAccountData) (libraries : gmap N LibraryInfo) (self : ProgramConfig).
Hypothesis Hdatas : ∀ i, is_Some (pc_accounts self !! i) → is_Some (datas !! i).
Hypothesis Hlibraries : ∀ i, is_Some (pc_libraries self !! i) → ∃ l addr, libraries !! i = Some l ∧ li_addr l = Some addr.
Lemma resolve_total l : known self l → ∃ l', resolve datas libraries l = Ok l'.
Proof.
  destruct l as [a|i|i]; simpl; [by eexists|intros [d ->]%Hdatas; by eexists|].
  intros (lib & addr & -> & Ha)%Hlibraries. simpl. rewrite Ha. by eexists.
Qed.
Lemma resolve_authorization_total a : functions_known self a → ∃ a', resolve_authorization datas libraries a = Ok a'.
Proof.
  unfold functions_known, resolve_authorization. destruct (ai_subroutine a) as [s|s]; rewrite Forall_forall; intros Hf.
  - destruct (mapM_result_total (resolve_atomic datas libraries) (as_functions s)) as [fs ->]; [|by eexists].
    intros f Hin. unfold resolve_atomic. destruct (resolve_total _ (Hf f Hin)) as [l' ->]. by eexists.
  - destruct (mapM_result_total (resolve_non_atomic datas libraries) (ns_functions s)) as [fs ->]; [|by eexists].
    intros f Hin. unfold resolve_non_atomic. destruct (resolve_total _ (Hf f Hin)) as [l' ->]. by eexists.
Qed.
End Resolve.

(** ** The checks at the end *)
Lemma by_name_elem {V} (m : gmap string V) i v : (i, v) ∈ by_name m ↔ m !! i = Some v.
Proof. apply elem_of_map_range. Qed.
Lemma on_domain_succeeds d c log : plain (get_chain_name d) → completes (on_domain (Domain_to_string d) c) log.
Proof.
  intros Hp. unfold on_domain. rewrite (from_string_to_string _ Hp).
  apply completes_bind; [apply completes_lift; by eexists|]. intros. repeat step.
Qed.
Lemma verify_init_succeeds self datas all log :
  (∀ d, d ∈ all → plain (get_chain_name d)) →
  names_of all (processor_addrs (pc_authorization_data self)) →
  names_of all (authorization_bridge_addrs (pc_authorization_data self)) →
  completes (verify_init_was_successful self datas) log.
Proof.
  intros Hall Hp Hb. unfold verify_init_was_successful. step.
  apply completes_bind; [by eexists _, _|]. intros ? found [= _ <-].
  match goal with |- context [chain_registry ?l ?c] => destruct (willing_registry l c) as [e ->] end. do 2 step.
  apply completes_bind; [apply completes_each; intros; repeat step|]. intros ? _ _.
  apply completes_bind; [apply completes_each; intros; repeat step|]. intros ? _ _.
  apply completes_bind; [apply completes_each|intros ? _ _].
  { intros [k v] ? (d & -> & Hd%Hall)%by_name_elem%Hp. by apply on_domain_succeeds. }
  apply completes_bind; [apply completes_each|intros ? _ _].
  { intros [k v] ? (d & -> & Hd%Hall)%by_name_elem%Hb. by apply on_domain_succeeds. }
  apply completes_each. intros. repeat step.
Qed.

(** ** From the accounts on *)
Lemma account_domain self i a : pc_accounts self !! i = Some a → acc_domain a ∈ get_all_domains self.
Proof.
  intros Ha. unfold get_all_domains. rewrite elem_of_list_to_set, elem_of_app. left.
  apply list_elem_of_fmap_2, ids_values. by exists i.
Qed.
Lemma library_domain self i l : pc_libraries self !! i = Some l → li_domain l ∈ get_all_domains self.
Proof.
  intros Hl. unfold get_all_domains. rewrite elem_of_list_to_set, elem_of_app. right.
  apply list_elem_of_fmap_2, ids_values. by exists i.
Qed.
Lemma links_prepared self pid accounts datas0 log0 log :
  deployable self →
  fold_m (predict_account pid) (pc_accounts self, ∅) (ids (pc_accounts self)) log0 = (log, Ok (accounts, datas0)) →
  ∃ log' libraries datas salts,
    fold_m (prepare_link pid) (pc_libraries self, datas0, ∅) (ids (pc_links self)).*2 log =
      (log', Ok (libraries, datas, salts)) ∧
    (∀ k, k ∈ (ids (pc_links self)).*2 → is_Some (salts !! library_id k)) ∧
    ∀ i, is_Some (pc_libraries self !! i) → ready_in pid i (pc_libraries self) libraries.
Proof.
  intros [] Hp. pose proof (predict_accounts_ok _ _ _ _ _ _ _ _ (ids_NoDup _) Hp) as [_ Hacc].
  set (address i := from_option iad_addr "" (datas0 !! i)).
  assert (∀ k i, k ∈ (ids (pc_links self)).*2 → i ∈ link_ids k → addressed datas0 address i) as Had.
  { intros k i [j Hj]%ids_values Hi%elem_of_app.
    destruct (proj2 (wd_linked _ dp_described0 i)) as [a Ha]; [by exists j, k|].
    specialize (Hacc i a (proj2 (ids_elem _ _ _) Ha)). pose proof (dp_brought0 i a Ha) as Hb. unfold brought in Hb.
    destruct (acc_ty a); [done|]. destruct Hacc as (addr & salt & [l Hl] & _ & Hd).
    unfold addressed, address. rewrite Hd. simpl. split; [by eexists _, _, _|by eexists]. }
  destruct (prepare_links_succeed pid (ids (pc_links self)).*2 (pc_libraries self) datas0 ∅ address log)
    as (log' & libraries & datas & salts & Hf & Hs); [done| |done|].
  { intros k [j Hj]%ids_values. destruct (proj2 (wd_libraries _ dp_described0 (library_id k))) as [l Hl];
      [by exists j, k|]. exists l. split; [done|]. by eapply dp_configs0. }
  exists log', libraries, datas, salts. split_and!; [done| |].
  - intros k Hk. apply Hs. right. by apply list_elem_of_fmap_2.
  - eapply (prepare_links_ok _ _ (pc_libraries self)) in Hf as (_ & Hready & _);
      [|intros i; by destruct (pc_libraries self !! i); constructor].
    intros i (j & k & Hj & <-)%(wd_libraries _ dp_described0). apply Hready, ids_values. by exists j.
Qed.
Lemma init_rest_succeeds `{!ManagerOrderLaws} self pid accounts datas0 libraries datas salts data l1 l2 l3 log :
  deployable self →
  fold_m (predict_account pid) (pc_accounts self, ∅) (ids (pc_accounts self)) l1 = (l2, Ok (accounts, datas0)) →
  fold_m (prepare_link pid) (pc_libraries self, datas0, ∅) (ids (pc_links self)).*2 l2 =
    (l3, Ok (libraries, datas, salts)) →
  (∀ k, k ∈ (ids (pc_links self)).*2 → is_Some (salts !! library_id k)) →
  (∀ i, is_Some (pc_libraries self !! i) → ready_in pid i (pc_libraries self) libraries) →
  (∀ d, d ∈ get_all_domains self → is_Some (processor_addrs data !! Domain_to_string d)) →
  completes (each_m (instantiate_link pid data libraries salts) (ids (pc_links self)).*2) log ∧
  (∀ authorizations log, completes (each_m (instantiate_account pid
     (set_parts accounts libraries authorizations data (set_id pid self))) (iter_map datas)) log) ∧
  ∃ authorizations, mapM (resolve_authorization datas libraries) (pc_authorizations self) = Ok authorizations.
Proof.
  intros [] Hp Hl Hs Hr Hd.
  destruct (accounts_prepared _ _ _ _ _ _ _ _ _ _ (proj2 (verify_new_config_ok self) dp_described0) Hp Hl) as [Hn Ha].
  split_and!.
  - apply completes_each. intros k log' Hk. pose proof (Hs k Hk) as Hsalt. apply ids_values in Hk as [j Hk].
    destruct (Hr (library_id k)) as (l & l' & Hl0 & Hl' & _ & Hdom & _); [apply (wd_libraries _ dp_described0); eauto|].
    destruct (Hd (li_domain l)) as [p Hpr]; [by eapply library_domain|].
    eapply instantiate_link_succeeds; [done|by rewrite Hdom|done].
  - intros authorizations log'. apply completes_each. intros [i d] log'' Hi. rewrite iter_map_perm, elem_of_map_to_list in Hi.
    destruct (pc_accounts self !! i) as [a|] eqn:Hia; [|by rewrite (proj2 (Hn i) Hia) in Hi].
    destruct (Ha i a Hia) as (_ & addr & salt & _ & Hacc & _).
    destruct (Hd (acc_domain a)) as [p Hpr]; [by eapply account_domain|].
    eapply instantiate_account_succeeds; simpl; [done|exact Hpr].
  - apply mapM_result_total. intros a Hin. apply (resolve_authorization_total datas libraries self); [| |by apply dp_functions0].
    + intros i [b Hb]. destruct (Ha i b Hb) as (_ & addr & salt & _ & _ & ->). done.
    + intros i Hi. destruct (Hr i Hi) as (l & l' & _ & Hl' & _ & _ & _ & Haddr). eauto.
Qed.

Lemma init_succeeds `{!ManagerOrderLaws} self :
  deployable self → (∀ d, d ∈ get_all_domains self → apart d) → completes (init gc self) [].
Proof.
  intros Hdp Hapart. destruct (Hdp). pose proof (proj2 (verify_new_config_ok self) dp_described0) as Hv.
  unfold init. rewrite Hv.
  apply completes_bind; [apply completes_lift; by eexists|]. intros ? _ [_ ->]%lift_m_ok. do 6 step.
  match goal with |- completes (fold_m (init_domain gc ?pid ?addr) ?data ?ds ≫= _) ?log =>
    destruct (init_domains_succeed pid addr data ds (neutron_domain :: ds) [neutron_domain] log)
      as (l1 & data' & Hdom & Hnames & Hbridges & Hprocessors) end.
  { intros d Hd. apply dp_bridges0. by rewrite iter_domains_perm, elem_of_elements in Hd. }
  { apply Forall_forall. intros d Hd. apply Hapart. by rewrite iter_domains_perm, elem_of_elements in Hd. }
  { intros d. by constructor. }
  { constructor. }
  { rewrite (wd_data _ dp_described0). apply main_domain_ready. }
  apply completes_bind; [by eexists _, _|]. rewrite Hdom. intros ? ? [= <- <-].
  apply completes_bind; [apply predict_accounts_succeed|]. intros l2 [accounts datas0] Hp.
  destruct (links_prepared _ _ _ _ _ _ Hdp Hp) as (l3 & libraries & datas & salts & Hl & Hs & Hr).
  apply completes_bind; [by do 2 eexists|]. rewrite Hl. intros ? ? [= <- <-].
  destruct (init_rest_succeeds self a accounts datas0 libraries datas salts data' _ l2 l3 l3 Hdp Hp Hl Hs Hr)
    as (Hlinks & Haccounts & authorizations & Hau).
  { intros d Hd. apply Hprocessors. rewrite elem_of_app, iter_domains_perm, elem_of_elements. by left. }
  apply completes_bind; [done|]. intros ? [] _. apply completes_bind; [apply Haccounts|]. intros ? [] _. rewrite Hau.
  apply completes_bind; [apply completes_lift; by eexists|]. intros ? ? [[= <-] ->]%lift_m_ok.
  apply completes_bind; [|intros; repeat step].
  apply (verify_init_succeeds _ _ (neutron_domain :: iter_domains (get_all_domains self))); [|done..].
  intros d [->|Hd]%elem_of_cons; [apply neutron_plain|].
  apply dp_names0. by rewrite iter_domains_perm, elem_of_elements in Hd.
Qed.
Lemma init_apart `{!ManagerOrderLaws} self log self' d :
  init gc self [] = (log, Ok self') → d ∈ get_all_domains self → apart d.
Proof.
  intros Hi Hd. unfold init in Hi. mgr_inv.
  match goal with Hf : fold_m (init_domain _ _ _) _ _ _ = _ |- _ => apply init_domains_apart in Hf; rename Hf into Hs end.
  rewrite Forall_forall in Hs. apply Hs. by rewrite iter_domains_perm, elem_of_elements.
Qed.

End Progress.

(** * The program manager: a program on two chains

    Instances of the parameters of the program manager, a description of a program with a
    forwarder between two accounts on a chain other than the main one, and its deployment. *)
From Stdlib Require Import Strings.Byte.
From S2P Require Import Codec LibraryCodec Forwarder.
Import Manager ProgramManager.

(** ** [aho_corasick] with its standard matches: the first to end, the longest of these *)
Definition ends_with (s p : chars) : bool := bool_decide (is_Some (strip_prefix (reverse p) (reverse s))).
Definition match_at (patterns : list chars) (seen : chars) : option nat :=
  foldr (λ ip best,
    if ends_with seen ip.2 && negb (bool_decide (ip.2 = [])) then
      match best with
      | Some j => if length (default [] (patterns !! j)) <=? length ip.2 then Some ip.1 else Some j
      | None => Some ip.1
      end
    else best) None (zip (seq 0 (length patterns)) patterns).
(** Each match is its pattern and where it ends. *)
Fixpoint matches (patterns : list chars) (seen rest : chars) (pos : nat) : list (nat * nat) :=
  match rest with
  | [] => []
  | a :: rest =>
      match match_at patterns (seen ++ [a]) with
      | Some j => (j, S pos) :: matches patterns [] rest (S pos)
      | None => matches patterns (seen ++ [a]) rest (S pos)
      end
  end.
Fixpoint replace_matches (patterns replace_with : list chars) (seen rest : chars) : chars :=
  match rest with
  | [] => seen
  | a :: rest =>
      match match_at patterns (seen ++ [a]) with
      | Some j => take (S (length seen) - length (default [] (patterns !! j))) (seen ++ [a]) ++
                  default [] (replace_with !! j) ++ replace_matches patterns replace_with [] rest
      | None => replace_matches patterns replace_with (seen ++ [a]) rest
      end
  end.
Notation of_text := String.list_ascii_of_string.
Notation to_text := String.string_of_list_ascii.
#[local] Instance ref_aho_corasick : AhoCorasick := {
  ac_new _ := Ok ();
  ac_match_ends patterns s := (matches (of_text <$> patterns) [] (of_text s) 0).*2;
  ac_replace_all patterns replace_with s :=
    to_text (replace_matches (of_text <$> patterns) (of_text <$> replace_with) [] (of_text s));
}.

(** ** [serde_json] at the configuration of a forwarder without limits *)
Definition dq : string := String (Ascii.ascii_of_nat 34) "".
Definition quoted (s : string) : string := (dq +:+ s +:+ dq)%string.
Definition account_text (l : LibraryAccountType) : string :=
  match l with
  | LibAddr a => "{" +:+ quoted "|library_account_addr|" +:+ ":" +:+ quoted a +:+ "}"
  | LibAccountId i => "{" +:+ quoted "|account_id|" +:+ ":" +:+ pretty i +:+ "}"
  | LibLibraryId i => "{" +:+ quoted "|library_id|" +:+ ":" +:+ pretty i +:+ "}"
  end%string.
Definition input_text : string := ("{" +:+ quoted "input_addr" +:+ ":")%string.
Definition output_text : string := ("," +:+ quoted "output_addr" +:+ ":")%string.
Definition rest_text : string :=
  ("," +:+ quoted "forwarding_configs" +:+ ":[]," +:+ quoted "forwarding_constraints" +:+ ":{}}")%string.
(** What stands before the next occurrence of a character, and what after it. *)
Fixpoint until (c : ascii) (s : chars) : option (chars * chars) :=
  match s with
  | [] => None
  | a :: s => if bool_decide (a = c) then Some ([], s) else '(p, q) ← until c s; Some (a :: p, q)
  end.
Definition read_address (name : string) (s : chars) : option (LibraryAccountType * chars) :=
  s ← strip_prefix (of_text ("{" +:+ quoted name +:+ ":" +:+ dq)%string) s;
  '(a, s) ← until (Ascii.ascii_of_nat 34) s;
  s ← strip_prefix (of_text "}") s;
  Some (LibAddr (to_text a), s).
Definition read_id (name : string) (f : N → LibraryAccountType) (s : chars) : option (LibraryAccountType * chars) :=
  s ← strip_prefix (of_text ("{" +:+ quoted name +:+ ":")%string) s;
  '(d, s) ← until "}"%char s;
  n ← parse_u64 (to_text d);
  Some (f n, s).
Definition first_of {A} (x y : option A) : option A := match x with Some _ => x | None => y end.
Definition read_account (s : chars) : option (LibraryAccountType * chars) :=
  first_of (read_address "|library_account_addr|" s) (first_of (read_address "library_account_addr" s)
    (first_of (read_id "|account_id|" LibAccountId s) (read_id "|library_id|" LibLibraryId s))).
Definition read_config (s : chars) : option Forwarder.LibraryConfig :=
  s ← strip_prefix (of_text input_text) s;
  '(a, s) ← read_account s;
  s ← strip_prefix (of_text output_text) s;
  '(b, s) ← read_account s;
  s ← strip_prefix (of_text rest_text) s;
  match s with [] => Some (Forwarder.mkLibraryConfig a b [] (Forwarder.mkForwardingConstraints None)) | _ => None end.
#[local] Instance ref_forwarder_serde : ConfigSerde Forwarder.LibraryConfig := {
  serde_to_string c :=
    match Forwarder.raw_forwarding_configs c, Forwarder.min_interval (Forwarder.raw_forwarding_constraints c) with
    | [], None => Ok (input_text +:+ account_text (Forwarder.raw_input_addr c) +:+ output_text +:+
                      account_text (Forwarder.raw_output_addr c) +:+ rest_text)%string
    | _, _ => Err "unsupported"
    end;
  serde_from_str s := match read_config (of_text s) with Some c => Ok c | None => Err "parse" end;
  instantiate_to_vec _ := Ok [];
}.
#[local] Instance ref_no_serde C : ConfigSerde C | 100 := {
  serde_to_string _ := Err "unsupported";
  serde_from_str _ := Err "unsupported";
  instantiate_to_vec _ := Err "unsupported";
}.
#[local] Instance ref_library_serde : LibrarySerde. Proof. split; apply _. Defined.

(** ** Chains that give few addresses *)
Inductive ref_given (addr : string) : Prop :=
| given_acc1 : addr = "osmo1input" → ref_given addr
| given_acc2 : addr = "osmo1output" → ref_given addr
| given_lib : addr = "osmo1library" → ref_given addr
| given_auth : addr = "neutron1authorization" → ref_given addr
| given_other : addr = "processor" → ref_given addr.
Definition ref_address (c : Call) : string :=
  match c with
  | GetAddress _ _ _ extra_salt =>
      if bool_decide (extra_salt = "account_1") then "osmo1input"
      else if bool_decide (extra_salt = "account_2") then "osmo1output"
      else if bool_decide (extra_salt = "library_7") then "osmo1library"
      else if bool_decide (extra_salt = "valence_authorization") then "neutron1authorization"
      else "processor"
  | _ => "processor"
  end.
#[local] Instance ref_chains : Chains := {
  chain_done _ _ := Ok ();
  chain_address _ c := Ok (ref_address c, String.list_byte_of_string (ref_address c));
  chain_bridge_address _ _ := Ok "proxy";
  chain_program_id _ _ := Ok 1%N;
  chain_registry _ _ := Err (CosmosCosmwasmErr (CwError "not found"));
  chain_program _ _ := Err (CosmosCosmwasmErr (CwError "not found"));
  chain_api _ := ref_platform;
}.
#[local] Instance ref_willing : Willing.
Proof. split; simpl; eauto. Qed.
#[local] Instance ref_addresses_fixed : AddressesFixed.
Proof. by intros. Qed.
#[local] Instance ref_manager_order : ManagerOrder := {
  iter_map V m := map_to_list m;
  iter_domains := elements;
  connector_shard d := if bool_decide (d = neutron_domain) then 0%N else 1%N;
}.
#[local] Instance ref_manager_order_laws : ManagerOrderLaws.
Proof. by split. Qed.
Lemma given_ref addr : given_address addr → ref_given addr.
Proof.
  intros (log & c & salt & [= <- _]). unfold ref_address. destruct c; try by apply given_other.
  repeat case_bool_decide; by constructor.
Qed.

(** ** A program: a forwarder on another chain *)
Definition osmosis : Domain := CosmosCosmwasm "osmosis".
Definition ref_account (name : string) : AccountInfo := mkAccountInfo name (Base None) osmosis None.
Definition ref_function : AtomicFunction :=
  mkAtomicFunction (DomainExternal "osmosis") (mkMessageDetails TyCosmwasmExecuteMsg (mkMessage "forward" None))
    (LibLibraryId 7).
Definition ref_authorization : AuthorizationInfo :=
  mkAuthorizationInfo "forward" PermissionlessInfo Never Forever None
    (Atomic (mkAtomicSubroutine [ref_function] None None)) None.
Definition ref_library : LibraryInfo :=
  mkLibraryInfo "forwarder" osmosis (ValenceForwarderLibrary
    (Forwarder.mkLibraryConfig (LibAccountId 1) (LibAccountId 2) [] (Forwarder.mkForwardingConstraints None))) None.
Definition ref_link : Link := mkLink [1%N] [2%N] 7.
Definition ref_program : ProgramConfig :=
  mkProgramConfig 0 "program" "neutron1owner" {[ 0%N := ref_link ]}
    {[ 1%N := ref_account "input"; 2%N := ref_account "output" ]} {[ 7%N := ref_library ]}
    [ref_authorization] AuthorizationData_default.
Definition ref_note : PolytoneSingleChainInfo := mkPolytoneSingleChainInfo "voice" "note" "port" "connection-0" "channel-0".
Definition ref_global : GlobalConfig :=
  mkGlobalConfig ∅ ∅ {[ NEUTRON_CHAIN := {[ "osmosis" := Polytone {[ "osmosis" := ref_note ]} ]} ]} "registry".
Lemma ref_domains d : d ∈ get_all_domains ref_program → d = osmosis.
Proof.
  unfold get_all_domains. rewrite elem_of_list_to_set. intros Hd.
  assert (Hl : (acc_domain <$> (ids (pc_accounts ref_program)).*2) ++
               (li_domain <$> (ids (pc_libraries ref_program)).*2) = replicate 3 osmosis) by (by vm_compute).
  rewrite Hl in Hd. by apply elem_of_replicate in Hd as [-> _].
Qed.
Definition ref_replaced (a1 a2 : string) : LibraryConfig :=
  ValenceForwarderLibrary
    (Forwarder.mkLibraryConfig (LibAddr a1) (LibAddr a2) [] (Forwarder.mkForwardingConstraints None)).
Lemma ref_replaced_ok a1 a2 : ref_given a1 → ref_given a2 →
  replace_config (li_config ref_library) (account_patterns 1 ++ account_patterns 2 ++ [])
    (account_replacements a1 ++ account_replacements a2 ++ []) = Ok (ref_replaced a1 a2) ∧
  pre_validate_config (chain_api osmosis) (ref_replaced a1 a2) = Ok ().
Proof. intros [->| ->| ->| ->| ->] [->| ->| ->| ->| ->]; split; by vm_compute. Qed.
Lemma ref_replaceable : replaceable ref_link ref_library.
Proof.
  intros address Ha. exists (ref_replaced (address 1%N) (address 2%N)).
  apply ref_replaced_ok; apply given_ref, Ha; [left|right; left].
Qed.
Lemma ref_deployable : deployable ref_global ref_program.
Proof.
  split.
  - apply verify_new_config_ok. by vm_compute.
  - intros i a. unfold ref_program. simpl. rewrite lookup_insert_Some, lookup_singleton_Some. by intros [[_ <-]|(_ & _ & <-)].
  - intros d ->%ref_domains _. by eexists.
  - intros d ->%ref_domains a b. do 8 (destruct a as [|? a]; [done|]). done.
  - vm_compute. apply NoDup_singleton.
  - intros i k l. unfold ref_program. simpl. rewrite lookup_singleton_Some. intros [_ <-].
    rewrite lookup_singleton_Some. intros [_ <-]. apply ref_replaceable.
  - intros a ->%list_elem_of_singleton. constructor; [|constructor]. simpl. by eexists.
Qed.
(** The same order of iteration, with a map of one shard. *)
Definition one_shard : ManagerOrder :=
  {| iter_map V m := map_to_list m; iter_domains := elements; connector_shard _ := 0%N |}.
Definition ref_run : list Call * result ManagerError ProgramConfig := init ref_global ref_program [].
Definition ref_deployed : ProgramConfig := match ref_run.2 with Ok p => p | _ => ref_program end.
(** The forwarder is on its chain under the processor there, with the salt of its address; the
    input account approves it and the output account nothing. *)
Lemma init_wires_program_witness :
  Forall2 (library_made ref_deployed) (ids (pc_links ref_program)).*2 (omap made_library ref_run.1) ∧
  omap made_library ref_run.1 =
    [(osmosis, 1%N, "processor", 7%N, ref_replaced "osmo1input" "osmo1output",
      String.list_byte_of_string "osmo1library")] ∧
  (λ m : Domain * N * string * InstantiateAccountData, (iad_addr m.2, iad_approved_libraries m.2)) <$>
    omap made_account ref_run.1 = [("osmo1output", []); ("osmo1input", ["osmo1library"])].
Proof.
  assert (init ref_global ref_program [] = (ref_run.1, Ok ref_deployed)) as Hrun by (by vm_compute).
  split; [|split; vm_compute; reflexivity]. by apply (init_wires_program ref_global) in Hrun as (_ & _ & _ & Hl & _).
Defined.
