(* ===== verification/ConnectorTheorems.v ===== *)
(** * The program manager: what its connectors send

    The requests of the connectors are bounded and say what the manager means: the retries
    for a bridge account, the transactions that instantiate the contracts of a program at
    the addresses that are saved, and the registry that keeps the program. *)
From Stdlib Require Import Strings.Byte.
From S2P Require Import Prelude Platform Types Format Accounts LibraryBase ProgramRegistry.
From S2P Require Import Codec LibraryCodec Forwarder ManagerLibrary ProgramManager ProgramManagerTheorems Connector ManagerProgress.
Import Manager ProgramManager Connector.

(** ** Requests *)
Lemma conn_bind_ok {A B} (m : Conn A) (f : A → Conn B) reqs reqs' b :
  (m ≫= f) reqs = (reqs', Ok b) → ∃ a reqs1, m reqs = (reqs1, Ok a) ∧ f a reqs1 = (reqs', Ok b).
Proof. unfold mbind, Conn_bind. destruct (m reqs) as [l [a| |]]; intros; simplify_eq. eauto. Qed.
Lemma conn_ret_ok {A} (a b : A) reqs reqs' : mret (M:=Conn) a reqs = (reqs', Ok b) → a = b ∧ reqs' = reqs.
Proof. by intros [= -> ->]. Qed.
Lemma lift_c_ok {A} (r : result CosmosCosmwasmError A) a reqs reqs' :
  lift_c r reqs = (reqs', Ok a) → r = Ok a ∧ reqs' = reqs.
Proof. by intros [= -> ->]. Qed.
Lemma context_c_ok {A} (o : option A) text a reqs reqs' :
  context_c o text reqs = (reqs', Ok a) → o = Some a ∧ reqs' = reqs.
Proof. intros [Ho ->]%lift_c_ok. by destruct o; simplify_eq/=. Qed.
Lemma request_ok {A} (answer : list Request → A) r a reqs reqs' :
  request answer r reqs = (reqs', Ok a) → answer reqs = a ∧ reqs' = reqs ++ [r].
Proof. by intros [= -> ->]. Qed.
Ltac conn_inv :=
  repeat match goal with
  | H : mbind _ _ _ = (_, Ok _) |- _ => apply conn_bind_ok in H as (? & ? & ? & ?)
  | H : context_c _ _ _ = (_, Ok _) |- _ => apply context_c_ok in H as [? ->]
  | H : code_id_for _ _ _ _ = (_, Ok _) |- _ => apply context_c_ok in H as [? ->]
  | H : to_vec _ _ = (_, Ok _) |- _ => apply lift_c_ok in H as [? ->]
  | H : lift_c _ _ = (_, Ok _) |- _ => apply lift_c_ok in H as [? ->]
  | H : request _ _ _ = (_, Ok _) |- _ => apply request_ok in H as [? ->]
  | H : mret _ _ = (_, Ok _) |- _ => apply conn_ret_ok in H as [? ->]; simplify_eq
  | H : fail_c _ _ = (_, Ok _) |- _ => by apply lift_c_ok in H as [? _]
  | H : (let '(_, _) := ?p in _) _ = _ |- _ => destruct p
  | u : () |- _ => destruct u
  end.

(** Requests are only added. *)
Class Grows {A} (m : Conn A) : Prop := grows reqs : ∃ tail, (m reqs).1 = reqs ++ tail.
#[global] Instance grows_lift {A} (r : result CosmosCosmwasmError A) : Grows (lift_c r).
Proof. intros reqs. exists []. by rewrite app_nil_r. Qed.
#[global] Instance grows_ret {A} (a : A) : Grows (mret (M:=Conn) a).
Proof. intros reqs. exists []. by rewrite app_nil_r. Qed.
#[global] Instance grows_request {A} (answer : list Request → A) r : Grows (request answer r).
Proof. intros reqs. by eexists. Qed.
#[global] Instance grows_bind {A B} (m : Conn A) (f : A → Conn B) : Grows m → (∀ a, Grows (f a)) → Grows (m ≫= f).
Proof.
  intros Hm Hf reqs. destruct (Hm reqs) as [t1 H1]. unfold mbind, Conn_bind.
  destruct (m reqs) as [l [a| |]]; simpl in *; subst; eauto. destruct (Hf a (reqs ++ t1)) as [t2 ->].
  exists (t1 ++ t2). by rewrite app_assoc.
Qed.

(** How many requests an operation makes at most, how many of them transactions, and which. *)
Definition sent (r : Request) : option (string * TxMsg) :=
  match r with ReqBroadcast chain m => Some (chain, m) | _ => None end.
Class Spends {A} (Q : Request → Prop) (n b : nat) (m : Conn A) : Prop :=
  spends reqs : ∃ tail, (m reqs).1 = reqs ++ tail ∧ Forall Q tail ∧ length tail ≤ n ∧ length (omap sent tail) ≤ b.
Section Spends.
Context (Q : Request → Prop).
#[global] Instance spends_lift {A} (r : result CosmosCosmwasmError A) : Spends Q 0 0 (lift_c r).
Proof. intros reqs. exists []. rewrite app_nil_r. split_and!; simpl; done || lia. Qed.
#[global] Instance spends_ret {A} (a : A) : Spends Q 0 0 (mret (M:=Conn) a).
Proof. intros reqs. exists []. rewrite app_nil_r. split_and!; simpl; done || lia. Qed.
Lemma spends_request {A} (answer : list Request → A) r : Q r → Spends Q 1 (length (omap sent [r])) (request answer r).
Proof. intros Hq reqs. exists [r]. split_and!; [done|by constructor|simpl; lia..]. Qed.
Lemma spends_bind {A B} n1 b1 n2 b2 (m : Conn A) (f : A → Conn B) :
  Spends Q n1 b1 m → (∀ a, Spends Q n2 b2 (f a)) → Spends Q (n1 + n2) (b1 + b2) (m ≫= f).
Proof.
  intros Hm Hf reqs. destruct (Hm reqs) as (t1 & H1 & Q1 & N1 & B1). unfold mbind, Conn_bind.
  destruct (m reqs) as [l r]; simpl in *; subst. destruct r as [a| |]; [|by exists t1; split_and!; try done; lia..].
  destruct (Hf a (reqs ++ t1)) as (t2 & -> & Q2 & N2 & B2). exists (t1 ++ t2). rewrite <- app_assoc.
  rewrite Forall_app, omap_app, !length_app. split_and!; [done..|lia|lia].
Qed.
Lemma spends_weaken {A} n1 b1 n2 b2 (m : Conn A) : Spends Q n1 b1 m → n1 ≤ n2 → b1 ≤ b2 → Spends Q n2 b2 m.
Proof. intros Hm ? ? reqs. destruct (Hm reqs) as (t & ? & ? & ? & ?). exists t. split_and!; [done..|lia|lia]. Qed.
End Spends.

Section Connectors.
Context `{CosmMath} `{HashOrder} `{LibrarySerde} `{Node} `{CosmosHash} `{ConnectorSerde} `{CodeOrder}.
Context (gc : GlobalConfig).

Section Self.
Context (self : Connector).

(** ** Transactions *)
Definition lookup_tx (r : Request) : Prop := ∃ hash, r = ReqGetTx (chain_name self) hash.
Lemma query_tx_hash_spends (Q : Request → Prop) hash retry err :
  (∀ r, lookup_tx r → Q r) → Spends Q retry 0 (query_tx_hash self hash retry err).
Proof.
  intros Hq. induction retry as [|retry IH]; simpl; [apply _|].
  apply (spends_bind _ 1 0 retry 0); [apply spends_request, Hq; by eexists|].
  intros [r|]; [eapply spends_weaken; [apply _|lia..]|done].
Qed.
Lemma broadcast_tx_spends (Q : Request → Prop) m err :
  (∀ r, lookup_tx r → Q r) → Q (ReqBroadcast (chain_name self) m) → Spends Q 16 1 (broadcast_tx self m err).
Proof.
  intros Hl Hm. apply (spends_bind _ 1 1 15 0); [by apply spends_request|]. intros a.
  apply (spends_bind _ 0 0 15 0); [apply _|]. intros o. apply (spends_bind _ 0 0 15 0); [apply _|]. intros r.
  destruct (negb _); [eapply spends_weaken; [apply _|lia..]|by apply query_tx_hash_spends].
Qed.
(** A transaction that succeeds is the first request, and the others look it up. *)
Lemma broadcast_tx_ok m err r reqs reqs' :
  broadcast_tx self m err reqs = (reqs', Ok r) →
  ∃ tail, reqs' = reqs ++ ReqBroadcast (chain_name self) m :: tail ∧ Forall lookup_tx tail.
Proof.
  unfold broadcast_tx. intros Hb. conn_inv. destruct (negb _); conn_inv.
  match goal with Hq : query_tx_hash _ ?h ?n ?e ?l = _ |- _ =>
    destruct (query_tx_hash_spends lookup_tx h n e (λ _ Hr, Hr) l) as (tail & Ht & Hf & _); rewrite Hq in Ht end.
  simpl in Ht. subst. exists tail. by rewrite <- app_assoc.
Qed.

(** A transaction that is found on the chain counts, also when it failed there: only the
    answer to its broadcast is checked. *)
Lemma broadcast_tx_found m err reqs hash found :
  node_broadcast reqs (chain_name self) m = Ok (Some (mkTxResponse 0 hash [] "")) →
  node_get_tx (reqs ++ [ReqBroadcast (chain_name self) m]) (chain_name self) hash = Some (Some found) →
  (broadcast_tx self m err reqs).2 = Ok (Some found).
Proof.
  intros Hb Hg. unfold broadcast_tx, query_tx_hash, request, context_c, lift_c, mbind, Conn_bind. simpl.
  rewrite Hb. simpl. by rewrite Hg.
Qed.

(** ** Bridge accounts

    A contract is asked for the state of a bridge account, again while it is pending; the
    answer says whether its creation has to be tried again.  [verdict] reads it. *)
Section Bridge.
Context (address : string) (query msg : result string Binary).
Context (verdict : Binary → result CosmosCosmwasmError (option bool)).
Context (unanswered max_retry err_id max_creation : string).
Context (should_retry : nat → Conn bool) (create : nat → Conn unit).
Context (should_retry_eq : ∀ n reqs, should_retry n reqs =
  (query_data ← lift_c (map_err_r CwSerdeJsonError query);
   data ← smart_contract_state self address query_data unanswered;
   v ← lift_c (verdict data);
   match v, n with
   | Some b, _ => mret b
   | None, O => fail_c max_retry
   | None, S n => should_retry n
   end) reqs).
Context (create_eq : ∀ n reqs, create n reqs =
  (b ← should_retry 5;
   if b : bool then
     match n with
     | O => fail_c max_creation
     | S n =>
         m ← lift_c (map_err_r CwSerdeJsonError msg);
         _ ← execute_contract self address m err_id;
         create n
     end
   else mret ()) reqs).
(** The requests are queries to the contract, the message that tries again, and look-ups. *)
Definition bridge_request (r : Request) : Prop :=
  lookup_tx r ∨ (∃ q, query = Ok q ∧ r = ReqSmart (chain_name self) address q) ∨
  ∃ m, msg = Ok m ∧ r = ReqBroadcast (chain_name self) (MsgExecuteContract (wallet self) address m).
Lemma spends_ext {A} Q n b (m m' : Conn A) : (∀ reqs, m reqs = m' reqs) → Spends Q n b m' → Spends Q n b m.
Proof. intros He Hs reqs. rewrite He. apply Hs. Qed.
Lemma spends_lift_bind {A B} Q n b (r : result CosmosCosmwasmError A) (f : A → Conn B) :
  (∀ a, r = Ok a → Spends Q n b (f a)) → Spends Q n b (lift_c r ≫= f).
Proof.
  intros Hf. destruct r as [a| |].
  - eapply spends_ext; [|apply (Hf a eq_refl)]. done.
  - intros reqs. exists []. rewrite app_nil_r. split_and!; simpl; done || lia.
  - intros reqs. exists []. rewrite app_nil_r. split_and!; simpl; done || lia.
Qed.
Lemma should_retry_spends n : Spends bridge_request (n + 1) 0 (should_retry n).
Proof.
  induction n as [|n IH]; eapply spends_ext; try apply should_retry_eq; apply spends_lift_bind; intros q Hq%map_err_r_ok.
  all: apply (spends_bind _ 1 0 _ 0).
  1,3: apply (spends_bind _ 1 0 0 0); [apply spends_request; right; left; by exists q|intros a; apply _].
  all: intros data; apply spends_lift_bind; intros [b|] _; try done; eapply spends_weaken; try apply _; lia.
Qed.
Lemma create_spends n : Spends bridge_request (22 * n + 6) n (create n).
Proof.
  induction n as [|n IH]; eapply spends_ext; try apply create_eq.
  - apply (spends_bind _ 6 0 0 0); [apply (should_retry_spends 5)|]. intros []; apply _.
  - apply (spends_weaken _ (6 + (22 * n + 22)) (0 + (1 + n))); [|lia..]. apply spends_bind; [apply (should_retry_spends 5)|].
    intros []; [|eapply spends_weaken; [apply _|lia..]]. apply spends_lift_bind. intros m Hm%map_err_r_ok.
    apply (spends_weaken _ (16 + (22 * n + 6)) (1 + n)); [|lia..]. apply spends_bind; [|by intros].
    apply broadcast_tx_spends; [by left|]. right. right. by exists m.
Qed.
(** Success: the last request is a query, and its answer says that nothing has to be tried. *)
Definition settled (reqs : list Request) : Prop :=
  ∃ before q data, reqs = before ++ [ReqSmart (chain_name self) address q] ∧
    query = Ok q ∧ node_smart before (chain_name self) address q = Some data ∧ verdict data = Ok (Some false).
Lemma should_retry_false n reqs reqs' : should_retry n reqs = (reqs', Ok false) → settled reqs'.
Proof.
  revert reqs. induction n as [|n IH]; intros reqs; rewrite should_retry_eq; intros Hs; conn_inv.
  all: unfold smart_contract_state in *; conn_inv; case_match; conn_inv.
  all: try (by eapply IH).
  all: eexists _, _, _; split_and!; [done|by eapply map_err_r_ok|done..].
Qed.
Lemma create_settled n reqs reqs' : create n reqs = (reqs', Ok ()) → settled reqs'.
Proof.
  revert reqs. induction n as [|n IH]; intros reqs; rewrite create_eq; intros Hc; conn_inv.
  all: case_match; conn_inv; subst; first [by eapply IH|by eapply should_retry_false].
Qed.
(** The creation of a bridge account: what is asked and sent, how often, and what success
    means. *)
Definition careful (retry : nat) (run : Conn unit) : Prop :=
  ∀ reqs, ∃ tail, (run reqs).1 = reqs ++ tail ∧ Forall bridge_request tail ∧
    length tail ≤ 22 * retry + 6 ∧ length (omap sent tail) ≤ retry ∧
    ((run reqs).2 = Ok () → settled (reqs ++ tail)).
Lemma create_careful n : careful n (create n).
Proof.
  intros reqs. destruct (create_spends n reqs) as (tail & Ht & ? & ? & ?). exists tail. split_and!; [done..|]. intros Ho.
  apply (create_settled n reqs). rewrite <- Ht, <- Ho. by destruct (create n reqs).
Qed.
End Bridge.

(** What the state of a proxy means: try again, wait, or done. *)
Definition proxy_verdict (st : PolytoneProxyState) (text : string → string)
    : result CosmosCosmwasmError (option bool) :=
  match st with
  | ProxyTimedOut => Ok (Some true)
  | ProxyPendingResponse => Ok None
  | ProxyCreated => Ok (Some false)
  | ProxyUnexpectedError err => Err (CwError (text err))
  end.
Definition processor_verdict (data : Binary) : result CosmosCosmwasmError (option bool) :=
  config ← map_err_r CwStdError (from_json (A:=Types.Config) data);
  match processor_domain config with
  | ProcMain => Err (CwError "'_should_retry_processor_bridge_account_creation' Processor domain is main, should be external")
  | ProcExternal polytone => proxy_verdict (proxy_on_main_domain_state polytone)
      (λ err, "'_should_retry_processor_bridge_account_creation' UnexpectedError: " +:+ err)%string
  end.
Definition authorization_verdict (data : Binary) : result CosmosCosmwasmError (option bool) :=
  domain ← map_err_r CwStdError (from_json (A:=ExternalDomain) data);
  match execution_environment domain with
  | EnvEvm _ _ => Ok (Some false)
  | EnvCosmwasm (Polytone_ polytone) => proxy_verdict (note_state (polytone_note polytone))
      (λ err, "'_should_retry_authorization_bridge_account_creation' UnexpectedError: " +:+ err)%string
  end.
Lemma conn_bind_ext {A B} (m : Conn A) (f g : A → Conn B) reqs :
  (∀ a reqs, f a reqs = g a reqs) → (m ≫= f) reqs = (m ≫= g) reqs.
Proof. intros He. unfold mbind, Conn_bind. by destruct (m reqs) as [l [a| |]]. Qed.

Lemma bridge_accounts_careful address domain retry :
  careful address (serde_to_vec ProcGetConfig) (serde_to_vec (ProcPermissionlessAction ProcRetryBridgeCreation))
    processor_verdict retry (instantiate_processor_bridge_account self address retry) ∧
  careful address (serde_to_vec (AuthGetExternalDomain domain))
    (serde_to_vec (PermissionlessAction (RetryBridgeCreation domain)))
    authorization_verdict retry (instantiate_authorization_bridge_account self address domain retry).
Proof.
  split.
  - apply (create_careful _ _ _ _
      "'_should_retry_processor_bridge_account_creation' Failed to query the processor"
      "'_should_retry_processor_bridge_account_creation' Max retry reached"
      "instantiate_processor_bridge_account" "'instantiate_processor_bridge_account', max retry reached"
      (should_retry_processor_bridge_account_creation self address) (instantiate_processor_bridge_account self address));
      [|by intros []].
    intros n reqs. destruct n; simpl; apply conn_bind_ext; intros q reqs1; apply conn_bind_ext; intros data reqs2.
    all: unfold processor_verdict, from_json_c, lift_c, mbind, Conn_bind; simpl; destruct (map_err_r _ _) as [c| |]; try done.
    all: simpl; destruct (processor_domain c) as [|p]; try done; simpl; by destruct (proxy_on_main_domain_state p).
  - apply (create_careful _ _ _ _
      "'_should_retry_authorization_bridge_account_creation' Failed to query the authorization"
      "'_should_retry_authorization_bridge_account_creation' Max retry reached"
      "instantiate_authorization_bridge_account" "'instantiate_authorization_bridge_account', max retry reached"
      (should_retry_authorization_bridge_account_creation self address domain)
      (instantiate_authorization_bridge_account self address domain));
      [|by intros []].
    intros n reqs. destruct n; simpl; apply conn_bind_ext; intros q reqs1; apply conn_bind_ext; intros data reqs2.
    all: unfold authorization_verdict, from_json_c, lift_c, mbind, Conn_bind; simpl; destruct (map_err_r _ _) as [c| |]; try done.
    all: simpl; destruct (execution_environment c) as [[p]|]; try done; simpl; by destruct (note_state (polytone_note p)).
Qed.
(** C24 For every state of the chains and every number of retries: the creation of a bridge
    account, of a processor or of the authorization contract, comes to an end after at most
    22 requests for each retry and 6 more.  All of them are queries of that contract for the
    state of the account, look-ups of transactions, or the message that tries the creation
    again, which is sent at most once for each retry.  When the creation succeeds, the last
    thing seen was an answer that says that the account exists (or that the domain has none). *)
Theorem bridge_account_bounded address domain retry :
  careful address (serde_to_vec ProcGetConfig) (serde_to_vec (ProcPermissionlessAction ProcRetryBridgeCreation))
    processor_verdict retry (instantiate_processor_bridge_account self address retry) ∧
  careful address (serde_to_vec (AuthGetExternalDomain domain))
    (serde_to_vec (PermissionlessAction (RetryBridgeCreation domain)))
    authorization_verdict retry (instantiate_authorization_bridge_account self address domain retry).
Proof. apply bridge_accounts_careful. Qed.
End Self.

(** ** Every call only adds requests *)
#[local] Hint Extern 2 (Grows (let '(_, _) := ?p in _)) => destruct p : typeclass_instances.
#[local] Hint Extern 2 (Grows (match ?p with _ => _ end)) => destruct p : typeclass_instances.
#[local] Instance query_tx_hash_grows self hash retry err : Grows (query_tx_hash self hash retry err).
Proof. induction retry; simpl; unfold fail_c; apply _. Qed.
#[local] Instance broadcast_tx_grows self m err : Grows (broadcast_tx self m err).
Proof. unfold broadcast_tx, context_c, fail_c. apply _. Qed.
#[local] Instance smart_grows self addr q text : Grows (smart_contract_state self addr q text).
Proof. unfold smart_contract_state, context_c. apply _. Qed.
#[local] Instance processor_bridge_grows self addr retry : Grows (instantiate_processor_bridge_account self addr retry).
Proof. intros reqs. destruct (bridge_accounts_careful self addr "" retry) as [Hc _]. destruct (Hc reqs) as (t & ? & _). by exists t. Qed.
#[local] Instance authorization_bridge_grows self addr domain retry :
  Grows (instantiate_authorization_bridge_account self addr domain retry).
Proof. intros reqs. destruct (bridge_accounts_careful self addr domain retry) as [_ Hc]. destruct (Hc reqs) as (t & ? & _). by exists t. Qed.
#[local] Hint Extern 1 (Grows (to_vec _)) => unfold to_vec : typeclass_instances.
#[local] Hint Extern 1 (Grows (from_json_c _)) => unfold from_json_c : typeclass_instances.
#[local] Hint Extern 1 (Grows (fail_c _)) => unfold fail_c : typeclass_instances.
#[local] Hint Extern 1 (Grows (context_c _ _)) => unfold context_c : typeclass_instances.
#[local] Hint Extern 1 (Grows (code_id_for _ _ _)) => unfold code_id_for, context_c : typeclass_instances.
#[local] Hint Extern 1 (Grows (execute_contract _ _ _ _)) => unfold execute_contract : typeclass_instances.
#[local] Hint Extern 1 (Grows (get_code_id_of_addr _ _)) => unfold get_code_id_of_addr : typeclass_instances.
#[local] Hint Extern 1 (Grows (get_contract_name_by_address _ _)) => unfold get_contract_name_by_address : typeclass_instances.
#[local] Hint Extern 1 (Grows (get_checksum _ _)) => unfold get_checksum : typeclass_instances.
#[local] Hint Extern 1 (Grows (one_of _ _ _)) => unfold one_of : typeclass_instances.
#[local] Hint Extern 1 (Grows (only_neutron _ _)) => unfold only_neutron : typeclass_instances.
#[local] Instance perform_grows c : Grows (perform gc c).
Proof.
  destruct c; simpl; unfold on_chain, done_c, connector_get_address, get_address_bridge, connector_instantiate_account,
    instantiate_library, instantiate_processor, verify_account, verify_library, verify_processor, verify_bridge_account,
    reserve_program_id, instantiate_authorization, add_authorizations, add_external_domain, change_authorization_owner,
    query_program_registry, verify_authorization_addr, save_program_config, update_program_config, get_program_config.
  all: apply _.
Qed.
Lemma requests_app log tail : ∃ reqs, requests gc (log ++ tail) = requests gc log ++ reqs.
Proof.
  induction tail as [|c tail IH] using rev_ind; [exists []; by rewrite !app_nil_r|]. destruct IH as [reqs IH].
  rewrite app_assoc. unfold requests in *. rewrite foldl_app. simpl. rewrite IH.
  destruct (perform_grows c (foldl (λ reqs c, (perform gc c reqs).1) [] log ++ reqs)) as [t ->].
  exists (reqs ++ t). by rewrite app_assoc.
Qed.

(** ** Addresses *)

(** The address that a chain gives to the contract of a transaction. *)
Definition contract_address (self : Connector) (reqs : list Request) (m : TxMsg) : option string :=
  match m with
  | MsgInstantiateContract2 sender _ code_id _ _ salt =>
      checksum ← mjoin (node_code reqs (chain_name self) code_id);
      match address2 self checksum sender salt with Ok addr => Some addr | _ => None end
  | _ => None
  end.
(** The instantiation of a contract at an address of a domain was broadcast. *)
Definition deployed (reqs : list Request) (d : Domain) (addr : string) : Prop :=
  ∃ self m before after, new gc (get_chain_name d) = Ok self ∧
    reqs = before ++ ReqBroadcast (chain_name self) m :: after ∧ contract_address self before m = Some addr.
(** The code behind a code id does not change. *)
Class CodesFixed : Prop := node_code_fixed reqs chain code_id : node_code reqs chain code_id = node_code [] chain code_id.
Context `{!CodesFixed}.

Lemma on_chain_ok d f reqs reqs' a :
  on_chain gc d f reqs = (reqs', Ok a) → ∃ self, new gc (get_chain_name d) = Ok self ∧ f self reqs = (reqs', Ok a).
Proof. intros Ho. unfold on_chain in Ho. conn_inv. eauto. Qed.
Lemma deployed_app reqs tail d addr : deployed reqs d addr → deployed (reqs ++ tail) d addr.
Proof.
  intros (self & m & before & after & Hn & -> & Hc). exists self, m, before, (after ++ tail). by rewrite <- app_assoc.
Qed.
Lemma get_address_ok self pid name extra addr salt reqs reqs' :
  connector_get_address gc self pid name extra reqs = (reqs', Ok (addr, salt)) →
  ∃ code_id checksum, code_ids self !! name = Some code_id ∧
    node_code [] (chain_name self) code_id = Some (Some checksum) ∧
    address2 self checksum (wallet self) salt = Ok addr.
Proof.
  unfold connector_get_address, get_checksum. intros Hg. conn_inv. eexists _, _. split_and!; [done| |done].
  rewrite <- (node_code_fixed reqs). congruence.
Qed.
(** The contract that a call instantiates. *)
Definition made_contract (c : Call) : option (Domain * string * Binary) :=
  match c with
  | InstantiateAccount d _ _ data =>
      match acc_ty (iad_info data) with
      | Base _ => Some (d, AccountType_to_string (acc_ty (iad_info data)), iad_salt data)
      | AccAddr _ => None
      end
  | InstantiateLibrary d _ _ _ config salt => Some (d, LibraryConfig_to_string config, salt)
  | InstantiateAuthorization d _ salt _ => Some (d, "valence_authorization", salt)
  | InstantiateProcessor d _ salt _ _ _ => Some (d, "valence_processor", salt)
  | _ => None
  end.
(** The call is one transaction of the wallet, with this code and salt. *)
Lemma made_contract_sent c d name salt reqs reqs' a :
  made_contract c = Some (d, name, salt) → perform gc c reqs = (reqs', Ok a) →
  ∃ self code_id admin label msg tail, new gc (get_chain_name d) = Ok self ∧ code_ids self !! name = Some code_id ∧
    reqs' = reqs ++ ReqBroadcast (chain_name self)
      (MsgInstantiateContract2 (wallet self) admin code_id label msg salt) :: tail.
Proof.
  intros Hm Hp. destruct c; simplify_eq/=; try (destruct (acc_ty (iad_info data)) eqn:Hty; simplify_eq/=);
    apply on_chain_ok in Hp as (self & Hn & Hf); exists self; unfold done_c, connector_instantiate_account,
      instantiate_library, instantiate_processor, instantiate_authorization in Hf; rewrite ?Hty in Hf.
  all: try (destruct (negb (is_main_chain self))); conn_inv.
  all: match goal with Hb : broadcast_tx _ _ _ _ = _ |- _ => apply broadcast_tx_ok in Hb as (tail & -> & _) end.
  all: do 5 eexists; split_and!; done.
Qed.
(** A contract that is instantiated with the salt of a prediction gets the address that was
    predicted. *)
Lemma predicted_deployed c d pid name extra addr salt reqs reqs1 reqs2 reqs3 a :
  perform gc (GetAddress d pid name extra) reqs = (reqs1, Ok (Address addr salt)) →
  made_contract c = Some (d, name, salt) → perform gc c reqs2 = (reqs3, Ok a) → deployed reqs3 d addr.
Proof.
  intros (self & Hn & Hg)%on_chain_ok Hm Hp. conn_inv.
  match goal with Hg : connector_get_address _ _ _ _ _ _ = _ |- _ =>
    apply get_address_ok in Hg as (code & checksum & Hcode & Hsum & Haddr) end.
  destruct (made_contract_sent _ _ _ _ _ _ _ Hm Hp) as (self' & code' & admin & label & msg & tail & Hn' & Hcode' & ->).
  rewrite Hn in Hn'. injection Hn' as <-. rewrite Hcode in Hcode'. injection Hcode' as <-.
  exists self. do 3 eexists. split_and!; [done|done|]. simpl. by rewrite node_code_fixed, Hsum; simpl; rewrite Haddr.
Qed.

(** ** The calls of the manager on these chains *)
Lemma node_done_ok base log c :
  @chain_done (node_chains gc base) log c = Ok () → ∃ reqs, perform gc c (requests gc log) = (reqs, Ok Done).
Proof.
  simpl. unfold answer. destruct (perform gc c (requests gc log)) as [reqs [a| |]]; simpl; try done.
  destruct a; simpl; try done. eauto.
Qed.
Lemma node_address_ok base log d pid name extra addr salt :
  @chain_address (node_chains gc base) log (GetAddress d pid name extra) = Ok (addr, salt) →
  ∃ reqs, perform gc (GetAddress d pid name extra) (requests gc log) = (reqs, Ok (Address addr salt)).
Proof.
  simpl chain_address. unfold answer.
  destruct (perform gc (GetAddress d pid name extra) (requests gc log)) as [reqs [a| |]]; simpl; try done.
  destruct a; simpl; try done. intros; simplify_eq. eauto.
Qed.
Lemma get_address_fixed d pid name extra reqs :
  (perform gc (GetAddress d pid name extra) reqs).2 = (perform gc (GetAddress d pid name extra) []).2.
Proof.
  simpl. unfold on_chain, lift_c, mbind, Conn_bind. destruct (new gc (get_chain_name d)) as [self| |]; try done.
  unfold connector_get_address, code_id_for, get_checksum, context_c, lift_c, request, mbind, Conn_bind, mret, Conn_ret.
  destruct (ok_or_r _ _) as [code| |]; simpl; try done. rewrite (node_code_fixed reqs).
  repeat (destruct (ok_or_r _ _); simpl; try done). by destruct (address2 _ _ _ _).
Qed.
#[global] Instance node_addresses_fixed base : AddressesFixed (H:=node_chains gc base).
Proof. intros log d pid name extra. simpl chain_address. unfold answer. by rewrite (get_address_fixed _ _ _ _ (requests gc log)). Qed.
End Connectors.

(** ** Where the contracts of a program are *)
Section Placed.
Context `{CosmMath} `{HashOrder} `{LibrarySerde} `{AhoCorasick} `{Chains} `{ManagerOrder} (gc : GlobalConfig).
Context `{!AddressesFixed}.

(** A call that succeeded instantiated a contract with the salt of its predicted address. *)
Definition placed (log : list Call) (d : Domain) (addr : string) : Prop :=
  ∃ pre c post pid name extra salt, log = pre ++ c :: post ∧ chain_done pre c = Ok () ∧
    made_contract c = Some (d, name, salt) ∧ chain_address [] (GetAddress d pid name extra) = Ok (addr, salt).
Lemma placed_app log tail d addr : placed log d addr → placed (log ++ tail) d addr.
Proof.
  intros (pre & c & post & pid & name & extra & salt & -> & Hp). exists pre, c, (post ++ tail), pid, name, extra, salt.
  by rewrite <- app_assoc.
Qed.
Lemma placed_snoc log c d pid name extra addr salt :
  chain_done log c = Ok () → made_contract c = Some (d, name, salt) →
  chain_address [] (GetAddress d pid name extra) = Ok (addr, salt) → placed (log ++ [c]) d addr.
Proof. intros. exists log, c, [], pid, name, extra, salt. by split_and!. Qed.
Lemma only_placed {A} (m : Mgr A) log log' r d addr :
  Only (λ _, True) m → m log = (log', r) → placed log d addr → placed log' d addr.
Proof. intros Hm Hr Hp. apply (only_ok (λ _, True)) in Hr as (t & -> & _); [by apply placed_app|done]. Qed.

Abbreviation Any := (Only (λ _, True)).
#[local] Instance any_ask {A} (answer : list Call → Call → result ConnectorError A) c : Any (ask answer c).
Proof. by apply only_ask. Qed.
#[local] Instance any_ask_result {A} (answer : list Call → Call → result ConnectorError A) c : Any (ask_result answer c).
Proof. by apply only_ask_result. Qed.
#[local] Instance any_connector held d : Any (get_or_create_connector held d).
Proof.
  intros log. unfold get_or_create_connector. destruct (shard_locked held d); [|destruct (existsb _ log)].
  - exists []. by rewrite app_nil_r.
  - exists []. by rewrite app_nil_r.
  - exists [Connect d]. by split; [|repeat constructor].
Qed.
#[local] Instance any_do c : Any (do_ c).
Proof. apply any_ask. Qed.
#[local] Instance any_address d i n x : Any (get_address d i n x).
Proof. apply any_ask. Qed.
#[local] Hint Extern 2 (Only _ (let '(_, _) := ?p in _)) => destruct p : typeclass_instances.
#[local] Hint Extern 2 (Only _ (match ?p with _ => _ end)) => destruct p : typeclass_instances.
#[local] Instance any_link pid data libraries salts k : Any (instantiate_link pid data libraries salts k).
Proof. unfold instantiate_link. apply _. Qed.
#[local] Instance any_account pid self d : Any (instantiate_account pid self d).
Proof. unfold instantiate_account. apply _. Qed.
#[local] Instance any_domain pid addr data d : Any (init_domain gc pid addr data d).
Proof. unfold init_domain. apply _. Qed.
#[local] Instance any_predict pid st ia : Any (predict_account pid st ia).
Proof. unfold predict_account. apply _. Qed.
#[local] Instance any_prepare pid st l : Any (prepare_link pid st l).
Proof. unfold prepare_link. apply _. Qed.
#[local] Instance any_each {A} (f : A → Mgr unit) l : (∀ x, Any (f x)) → Any (each_m f l).
Proof. unfold each_m. apply _. Qed.
#[local] Instance any_verify self datas : Any (verify_init_was_successful self datas).
Proof. unfold verify_init_was_successful, on_domain. apply _. Qed.
(** One of the steps of a loop is enough. *)
Lemma each_placed {A} (f : A → Mgr unit) l x log log' d addr `{∀ y, Any (f y)} :
  each_m f l log = (log', Ok ()) → x ∈ l →
  (∀ log log', f x log = (log', Ok ()) → placed log' d addr) → placed log' d addr.
Proof.
  intros Hm Hx Hf. unfold each_m in *. revert log Hm. induction l as [|y l IH]; intros log; [by apply not_elem_of_nil in Hx|].
  simpl. intros ([] & l1 & Hy & Hl)%mgr_bind_ok. apply elem_of_cons in Hx as [<-|Hx]; [|by eapply IH].
  eapply only_placed; [|exact Hl|by eapply Hf]. by apply (any_each f l).
Qed.

(** Libraries. *)
Lemma instantiate_link_placed pid data libraries salts k log log' :
  instantiate_link pid data libraries salts k log = (log', Ok ()) →
  salted pid libraries salts (library_id k) →
  ∃ l addr, libraries !! library_id k = Some l ∧ li_addr l = Some addr ∧ placed log' (li_domain l) addr.
Proof.
  intros Hm (l & addr & salt & Hl & Ha & Hs & Hc). exists l, addr. split_and!; [done..|].
  unfold instantiate_link, get_library in Hm. mgr_inv. rewrite Hl, Hs in *. simplify_eq/=.
  eapply placed_snoc; [eassumption|done|done].
Qed.
(** Accounts. *)
Lemma instantiate_account_placed pid self i d log log' :
  instantiate_account pid self (i, d) log = (log', Ok ()) →
  brought (iad_info d) → account_address pid i (iad_info d) (iad_addr d) (iad_salt d) →
  (acc_domain <$> pc_accounts self !! i) = Some (acc_domain (iad_info d)) →
  placed log' (acc_domain (iad_info d)) (iad_addr d).
Proof.
  intros Hm Hb [l0 Hc] Ha. unfold instantiate_account, get_account in Hm. mgr_inv. simpl in *.
  destruct (pc_accounts self !! i) as [a|]; simplify_eq/=. rewrite chain_address_fixed in Hc.
  eapply placed_snoc; [eassumption| |exact Hc]. unfold brought in Hb. simpl. rewrite Ha. by destruct (acc_ty (iad_info d)).
Qed.
(** Processors. *)
Lemma init_domains_placed pid addr ds data data' log log' :
  fold_m (init_domain gc pid addr) data ds log = (log', Ok data') →
  (∀ d p, processor_addrs data !! Domain_to_string d = Some p → placed log d p) →
  ∀ d p, processor_addrs data' !! Domain_to_string d = Some p → placed log' d p.
Proof.
  revert data log. induction ds as [|d ds IH]; intros data log; simpl; [by intros [-> ->]%mgr_ret_ok|].
  intros (data1 & l1 & Hd & Hds)%mgr_bind_ok Hdata. apply (IH _ _ Hds). clear IH Hds. intros d' p Hp.
  pose proof Hd as Hmono. unfold init_domain in Hd. case_bool_decide; mgr_inv; [by apply Hdata|]. simpl in *.
  apply lookup_insert_Some in Hp as [[Heq <-]|[Hne Hp]]; [|eapply only_placed; [|exact Hmono|by apply Hdata]; apply _].
  assert (d' = d) as -> by (destruct d, d'; simpl in Heq; by simplify_eq).
  do 3 apply placed_app. eapply placed_snoc; [eassumption|done|]. erewrite <- chain_address_fixed. eassumption.
Qed.
Lemma libraries_placed self pid data datas0 libraries datas salts l1 l2 l3 :
  verify_new_config self = Ok () →
  fold_m (prepare_link pid) (pc_libraries self, datas0, ∅) (ids (pc_links self)).*2 l1 =
    (l2, Ok (libraries, datas, salts)) →
  each_m (instantiate_link pid data libraries salts) (ids (pc_links self)).*2 l2 = (l3, Ok ()) →
  ∀ i l, libraries !! i = Some l → ∃ addr, li_addr l = Some addr ∧ placed l3 (li_domain l) addr.
Proof.
  intros Hv%verify_new_config_ok Hp Hm i l Hl. pose proof Hp as Hk.
  eapply (prepare_links_ok _ _ (pc_libraries self)) in Hk as (Hlib & _);
    [|intros j; by destruct (pc_libraries self !! j); constructor].
  assert (is_Some (pc_libraries self !! i)) as Hi.
  { destruct (Hlib i) as [He|(l0 & _ & He & _)]; [by rewrite <- He; eexists|by eexists]. }
  apply (wd_libraries _ Hv) in Hi as (j & k & Hk & <-).
  assert (k ∈ (ids (pc_links self)).*2) as Hin by (apply ids_values; eauto).
  assert (salted pid libraries salts (library_id k)) as Hs by (eapply prepare_links_salted; eauto).
  pose proof Hs as (l' & addr & _ & Hl' & Ha & _). simplify_eq. exists addr. split; [done|].
  apply (each_placed _ _ _ _ _ _ _ Hm Hin).
  intros log log' (l'' & addr' & ? & ? & Hpl)%instantiate_link_placed; [|done]. by simplify_eq.
Qed.
Lemma accounts_placed `{!ManagerOrderLaws} self pid accounts datas0 libraries datas salts data l1 l2 l3 l4 l5 :
  verify_new_config self = Ok () →
  fold_m (predict_account pid) (pc_accounts self, ∅) (ids (pc_accounts self)) l1 = (l2, Ok (accounts, datas0)) →
  fold_m (prepare_link pid) (pc_libraries self, datas0, ∅) (ids (pc_links self)).*2 l2 =
    (l3, Ok (libraries, datas, salts)) →
  each_m (instantiate_account pid (set_parts accounts libraries (pc_authorizations self) data (set_id pid self)))
    (iter_map datas) l4 = (l5, Ok ()) →
  ∀ i a, accounts !! i = Some a → ∃ addr, acc_addr a = Some addr ∧ placed l5 (acc_domain a) addr.
Proof.
  intros Hv Hp Hl Hm i a Ha.
  assert (is_Some (pc_accounts self !! i)) as [a0 Ha0].
  { destruct (pc_accounts self !! i) eqn:He; [by eexists|]. apply predict_accounts_ok in Hp as [Hother _]; [|apply ids_NoDup].
    destruct (Hother i) as [Hn _]; [|congruence]. intros ([j b] & -> & Hb%ids_elem)%list_elem_of_fmap. simpl in *. congruence. }
  destruct (accounts_prepared _ _ _ _ _ _ _ _ _ _ Hv Hp Hl) as [_ Hacc].
  destruct (Hacc i a0 Ha0) as (Hb & addr & salt & Hadr & Ha' & Hd). rewrite Ha in Ha'. simplify_eq.
  exists addr. split; [done|]. apply elem_of_map_to_list in Hd. rewrite <- iter_map_perm in Hd.
  apply (each_placed _ _ _ _ _ _ _ Hm Hd). intros log log' Hi. apply instantiate_account_placed in Hi; try done.
  simpl. by rewrite Ha.
Qed.
Lemma init_placed `{!ManagerOrderLaws} self log self' :
  init gc self [] = (log, Ok self') →
  let data := pc_authorization_data self' in
  placed log neutron_domain (authorization_addr data) ∧
  (∀ d p, processor_addrs data !! Domain_to_string d = Some p → placed log d p) ∧
  (∀ i l, pc_libraries self' !! i = Some l → ∃ addr, li_addr l = Some addr ∧ placed log (li_domain l) addr) ∧
  (∀ i a, pc_accounts self' !! i = Some a → ∃ addr, acc_addr a = Some addr ∧ placed log (acc_domain a) addr).
Proof.
  intros Hi. unfold init in Hi. mgr_inv. simpl in *.
  repeat match goal with Ha : chain_address _ _ = _ |- _ => rewrite chain_address_fixed in Ha end.
  match goal with Hv : verify_new_config self = Ok () |- _ => rename Hv into Hver end.
  match goal with Hv : verify_init_was_successful _ _ ?l = (?l', _),
    Hc : get_or_create_connector _ _ ?l' = (?l'', _) |- _ =>
    assert (∀ d a, placed l d a → placed l'' d a) as Hend by
      (intros d a Hp; eapply only_placed; [|exact Hc|eapply only_placed; [|exact Hv|exact Hp]]; apply _) end.
  match goal with Hf : fold_m (init_domain _ _ _) _ _ ?l = (?l', Ok ?data),
    Hp : fold_m (predict_account _) _ _ ?l' = (?l1, _), Hq : fold_m (prepare_link _) _ _ ?l1 = (?l2, _),
    Hr : each_m (instantiate_link _ _ _ _) _ _ = (?l3, _),
    Hs : each_m (instantiate_account _ _) _ ?l3 = (?l4, _) |- _ =>
    assert (∀ d a, placed l3 d a → placed l4 d a) as Hlast by
      (intros d a Hx; eapply only_placed; [|exact Hs|exact Hx]; apply _);
    assert (∀ d a, placed l' d a → placed l4 d a) as Hmid by
      (intros d a Hx; apply Hlast; eapply only_placed; [|exact Hr|
         eapply only_placed; [|exact Hq|eapply only_placed; [|exact Hp|exact Hx]]]; apply _);
    assert (∀ d a, placed l d a → placed l4 d a) as Hall by
      (intros d a Hx; apply Hmid; eapply only_placed; [|exact Hf|exact Hx]; apply _);
    pose proof (libraries_placed _ _ _ _ _ _ _ _ _ _ Hver Hq Hr) as Hlibs;
    pose proof (accounts_placed _ _ _ _ _ _ _ _ _ _ _ _ _ Hver Hp Hq Hs) as Haccs;
    pose proof (init_domains_addr _ _ _ _ _ _ _ _ Hf) as Haddr;
    pose proof (init_domains_placed _ _ _ _ _ _ _ Hf) as Hprocs
  end.
  assert (Hdata := wd_data _ (proj1 (verify_new_config_ok self) Hver)).
  split_and!.
  - do 3 apply placed_app. rewrite Haddr. apply Hend, Hall, placed_app.
    eapply placed_snoc; [eassumption|done|eassumption].
  - intros d p Hp. do 3 apply placed_app. apply Hend, Hmid, Hprocs; [|done]. clear d p Hp.
    intros d p Hp. simpl in Hp. rewrite Hdata in Hp. apply lookup_insert_Some in Hp as [[Heq <-]|[_ Hp]]; [|done].
    assert (d = neutron_domain) as -> by (destruct d; simpl in Heq; by simplify_eq).
    eapply placed_snoc; [eassumption|done|eassumption].
  - intros i l1 (addr & Ha & Hp)%Hlibs. exists addr. split; [done|]. do 3 apply placed_app. by apply Hend, Hlast.
  - intros i a (addr & Ha & Hp)%Haccs. exists addr. split; [done|]. do 3 apply placed_app. by apply Hend.
Qed.
End Placed.

(** What the manager placed is on its chain. *)
Lemma placed_deployed
    `{CosmMath} `{HashOrder} `{LibrarySerde} `{Node} `{CosmosHash} `{ConnectorSerde} `{CodeOrder} `{!CodesFixed}
    gc base log d addr :
  @placed (node_chains gc base) log d addr → deployed gc (requests gc log) d addr.
Proof.
  intros (pre & c & post & pid & name & extra & salt & -> & [reqs Hdone]%node_done_ok & Hm & [reqs1 Ha]%node_address_ok).
  change (pre ++ c :: post) with (pre ++ [c] ++ post). rewrite app_assoc.
  destruct (requests_app gc (pre ++ [c]) post) as [tail ->]. apply deployed_app.
  assert (requests gc (pre ++ [c]) = reqs) as -> by (unfold requests in *; rewrite foldl_app; simpl; by rewrite Hdone).
  by eapply predicted_deployed.
Qed.

(** C6 For every description of a program, every configuration of the manager and every
    behaviour of the nodes under which a code id stands for one code: when [init] succeeds
    through the connectors, every address of the program that is saved, of the authorization
    contract, of a processor, of a library and of an account, is the one that its chain gives
    to the contract of a transaction that the manager broadcast there. *)
Theorem init_contracts_deployed
    `{CosmMath} `{HashOrder} `{LibrarySerde} `{Node} `{CosmosHash} `{ConnectorSerde} `{CodeOrder}
    `{AhoCorasick} `{ManagerOrder} `{!ManagerOrderLaws} `{!CodesFixed} gc base self log self' :
  @init _ _ _ _ (node_chains gc base) _ gc self [] = (log, Ok self') →
  let data := pc_authorization_data self' in
  let reqs := requests gc log in
  deployed gc reqs neutron_domain (authorization_addr data) ∧
  (∀ d p, processor_addrs data !! Domain_to_string d = Some p → deployed gc reqs d p) ∧
  (∀ i l, pc_libraries self' !! i = Some l → ∃ addr, li_addr l = Some addr ∧ deployed gc reqs (li_domain l) addr) ∧
  (∀ i a, pc_accounts self' !! i = Some a → ∃ addr, acc_addr a = Some addr ∧ deployed gc reqs (acc_domain a) addr).
Proof.
  intros (Hau & Hpr & Hli & Hac)%init_placed; [|apply _..].
  assert (∀ d a, @placed (node_chains gc base) log d a → deployed gc (requests gc log) d a) as Hd.
  { intros d a. apply placed_deployed. }
  split_and!; naive_solver.
Qed.

(** ** The registry of programs *)
Section Registry.
Context `{CosmMath} `{HashOrder} `{LibrarySerde} `{Node} `{CosmosHash} `{ConnectorSerde} `{CodeOrder} `{Platform}.
Context (gc : GlobalConfig) (self : Connector).

Lemma only_neutron_ok {A} (f : Conn A) a reqs reqs' :
  only_neutron self f reqs = (reqs', Ok a) → chain_name self = NEUTRON_CHAIN ∧ f reqs = (reqs', Ok a).
Proof. unfold only_neutron. case_bool_decide; simpl; [done|]. by intros [? _]%lift_c_ok. Qed.
Lemma execute_contract_ok contract msg err reqs reqs' r :
  execute_contract self contract msg err reqs = (reqs', Ok r) →
  ∃ tail, reqs' = reqs ++ ReqBroadcast (chain_name self) (MsgExecuteContract (wallet self) contract msg) :: tail ∧
    Forall (lookup_tx self) tail.
Proof. apply broadcast_tx_ok. Qed.
(** What the registry keeps after it accepted a program. *)
Lemma registry_saved env info id owner program s r s' :
  ProgramRegistry.execute env info (ProgramRegistry.SaveProgram id owner program) s = Ok (r, s') →
  ∃ o, addr_validate owner = Ok o ∧ ProgramRegistry.s_programs s' !! id = Some program ∧
    ProgramRegistry.s_programs_owners s' !! id = Some o.
Proof.
  simpl. unfold ProgramRegistry.save_program. intros He. run_inv.
  eexists. split_and!; [eassumption|simpl; apply lookup_insert_eq..].
Qed.
Lemma registry_update_iff env info id program s o p :
  ProgramRegistry.s_programs s !! id = Some p → ProgramRegistry.s_programs_owners s !! id = Some o →
  (∃ r, ProgramRegistry.execute env info (ProgramRegistry.UpdateProgram id program) s = Ok r) ↔ o = info_sender info.
Proof.
  intros Hp Ho. simpl. unfold ProgramRegistry.update_program. split.
  - intros [[r s'] He]. run_inv.
    by apply bool_decide_neq_false.
  - intros ->. unfold map_load, map_may_load, mbind, Exec_bind. simpl. rewrite Ho. simpl.
    rewrite bool_decide_eq_false_2 by (intros Hn; by apply Hn). simpl. rewrite Hp. by eexists.
Qed.

(** C23 For every connector, program and behaviour of the node: a save that succeeds
    broadcasts one transaction, of the manager's wallet to the registry, with the id, the
    owner and the program without the configurations of its libraries, followed only
    by look-ups of transactions.  When the registry accepts it, a
    later read of the id from a node that answers as the registry gives exactly that program
    (its text is assumed to read as the program it was written for); and the registry then
    accepts an update of the program from the manager if and only if the owner that was named
    is the manager's wallet, with any other owner it answers [UnauthorizedToUpdate]. *)
Theorem saved_program_read_back config reqs reqs' :
  (∀ b, to_json_binary (strip_configs config) = Ok b → from_json b = Ok (strip_configs config)) →
  save_program_config gc self config reqs = (reqs', Ok ()) →
  ∃ program msg tail,
    to_json_binary (strip_configs config) = Ok program ∧
    serde_to_vec (ProgramRegistry.SaveProgram (pc_id config) (pc_owner config) program) = Ok msg ∧
    reqs' = reqs ++ ReqBroadcast NEUTRON_CHAIN (MsgExecuteContract (wallet self) (gc_registry_addr gc) msg) :: tail ∧
    Forall (lookup_tx self) tail ∧
    ∀ env s r s', ProgramRegistry.execute env (mkInfo (wallet self) [])
      (ProgramRegistry.SaveProgram (pc_id config) (pc_owner config) program) s = Ok (r, s') →
      (∀ q data later,
        serde_to_vec (RegGetConfig (pc_id config)) = Ok q →
        node_smart later NEUTRON_CHAIN (gc_registry_addr gc) q = Some data →
        from_json data = ProgramRegistry.get_config s' (pc_id config) →
        (get_program_config gc self (pc_id config) later).2 = Ok (strip_configs config)) ∧
      (∀ env' program',
        let update := ProgramRegistry.execute env' (mkInfo (wallet self) [])
                        (ProgramRegistry.UpdateProgram (pc_id config) program') s' in
        ((∃ r, update = Ok r) ↔ addr_validate (pc_owner config) = Ok (wallet self)) ∧
        ∀ o, addr_validate (pc_owner config) = Ok o → o ≠ wallet self →
          update = Err (ProgramRegistry.UnauthorizedToUpdate o)).
Proof.
  intros Hjson [Hn Hs]%only_neutron_ok. destruct (without_address config); cbv zeta in Hs; conn_inv.
  match goal with Hx : execute_contract _ _ _ _ _ = _ |- _ => apply execute_contract_ok in Hx as (tail & -> & Htail) end.
  do 3 eexists. split_and!; [by eapply map_err_r_ok|by eapply map_err_r_ok|by rewrite <- Hn|done|].
  intros env s r s' (o & Ho & Hp & How)%registry_saved. split.
  - intros q data later Hq Hsm Hg. unfold ProgramRegistry.get_config in Hg. rewrite Hp in Hg.
    unfold get_program_config, only_neutron, smart_contract_state, request, from_json_c, context_c, to_vec, lift_c,
      mbind, Conn_bind.
    rewrite bool_decide_eq_true_2 by done. simpl. rewrite Hq. simpl. rewrite Hn, Hsm. simpl.
    rewrite Hg. simpl.
    match goal with Hj : map_err_r _ (to_json_binary _) = Ok _ |- _ => apply map_err_r_ok in Hj; by rewrite (Hjson _ Hj) end.
  - intros env' program'. cbv zeta. split.
    + rewrite (registry_update_iff _ _ _ _ _ _ _ Hp How). simpl. rewrite Ho. naive_solver.
    + intros o' Ho' Hne. rewrite Ho in Ho'. simplify_eq. unfold ProgramRegistry.execute, ProgramRegistry.update_program, map_load, mbind, Exec_bind. simpl.
      rewrite How. simpl. by rewrite bool_decide_eq_true_2.
Qed.
End Registry.

(** ** Nodes of two chains

    The texts of addresses are a prefix, a [1] and the canonical address; the address of a
    contract is its salt, and hashes keep their input. *)
Fixpoint split_one (s : list byte) : option (list byte * list byte) :=
  match s with
  | [] => None
  | a :: s => if Byte.eqb a "1"%byte then Some ([], s) else '(p, q) ← split_one s; Some (a :: p, q)
  end.
Definition text (b : list byte) : string := String.string_of_list_byte b.
#[local] Instance ref_hash : CosmosHash := {
  sha256 b := b;
  sha512 b := b;
  instantiate2_address _ _ salt := Some salt;
  bech32_decode s := '(p, q) ← split_one (bytes s); Some (text p, q);
  hrp_parse _ := true;
  bech32_encode hrp b := Some (hrp +:+ "1" +:+ text b)%string;
}.
Definition ref_codes : gmap string N :=
  {[ "valence_authorization" := 1%N; "valence_processor" := 2%N; "polytone_proxy" := 3%N;
     "valence_base_account" := 4%N; "valence_forwarder_library" := 5%N ]}.
#[local] Instance ref_code_order : CodeOrder := map_to_list.
Definition ref_found : TxResponse :=
  mkTxResponse 0 "hash" [("wasm", [("_contract_address", "neutron1registry"); ("method", "reserve_id"); ("id", "1")])] "".
Definition of_kind (prefix addr : string) (kv : string * N) : bool :=
  String.prefix (prefix +:+ "1" +:+ kv.1)%string addr.
#[local] Instance ref_node : Node := {
  node_broadcast _ _ _ := Ok (Some (mkTxResponse 0 "hash" [] ""));
  node_get_tx _ _ _ := Some (Some ref_found);
  node_smart reqs _ addr _ :=
    if bool_decide (addr = "neutron1registry") then (match reqs with [] => Some [] | _ => None end) else Some [];
  node_code _ _ _ := Some (Some []);
  node_contract_info _ chain addr :=
    Some (Some (from_option snd 0%N (find (of_kind (if bool_decide (chain = NEUTRON_CHAIN) then "neutron" else "osmo") addr)
                                      (map_to_list ref_codes))));
  node_client _ := true;
  decimal_from_str _ := Ok 1%N;
  wallet_from_seed_phrase info _ _ := Some (ch_prefix info +:+ "1manager")%string;
}.
#[local] Instance ref_codes_fixed : CodesFixed.
Proof. by intros. Qed.
Definition ref_chain (name prefix : string) : ChainInfo := mkChainInfo name "rpc" "grpc" prefix "0.1" "untrn" 118.
Definition ref_bridge : Bridge :=
  Polytone {[ "osmosis" := mkPolytoneSingleChainInfo "osmo1voice" "osmo1note" "port" "connection-0" "channel-0";
              NEUTRON_CHAIN := mkPolytoneSingleChainInfo "neutron1voice" "neutron1note" "port" "connection-1" "channel-1" ]}.
Definition ref_config : GlobalConfig :=
  mkGlobalConfig {[ NEUTRON_CHAIN := ref_chain NEUTRON_CHAIN "neutron"; "osmosis" := ref_chain "osmosis" "osmo" ]}
    {[ NEUTRON_CHAIN := ref_codes; "osmosis" := ref_codes ]} {[ NEUTRON_CHAIN := {[ "osmosis" := ref_bridge ]} ]}
    "neutron1registry".
#[local] Instance ref_vec T : ToVec T := λ _, Ok [].
Definition ref_json {T} (x : T) : JsonCodec T := {| to_json_binary _ := Ok []; from_json _ := Ok x |}.
#[local] Existing Instances ref_aho_corasick ref_library_serde ref_manager_order ref_manager_order_laws.
(** A program after its deployment: the library has an address. *)
Definition ref_saved : ProgramConfig :=
  set_parts ∅ {[ 7%N := mkLibraryInfo "forwarder" osmosis NoConfig (Some "osmo1library") ]} [] AuthorizationData_default
    (set_id 1 ref_program).
#[local] Instance ref_connector_serde : ConnectorSerde := {
  json_program_response := ref_json (ProgramRegistry.mkProgramResponse 1 []);
  json_program_config := ref_json ref_saved;
  json_processor_config := ref_json (mkConfig "authorization" (ProcExternal (mkPolytone "p" "n" 1 ProxyCreated)) Active);
  json_external_domain := ref_json (mkExternalDomain "osmosis"
    (EnvCosmwasm (Polytone_ (mkPolytoneConnectors (mkPolytoneNote "n" 1 ProxyCreated) "p"))) "processor");
}.
Definition ref_deployment : list Call * result ManagerError ProgramConfig :=
  @init _ _ _ _ (node_chains ref_config ref_platform) _ ref_config ref_program [].
Definition ref_on_chains : ProgramConfig := match ref_deployment.2 with Ok p => p | _ => ref_program end.
Lemma ref_deployment_ok : ref_deployment = (ref_deployment.1, Ok ref_on_chains).
Proof.
  assert (match ref_deployment.2 with Ok _ => true | _ => false end = true) as Hok by (vm_compute; reflexivity).
  unfold ref_on_chains. destruct ref_deployment as [log [p| |]]; [reflexivity|discriminate Hok..].
Qed.
(** The forwarder is where its salt puts it. *)
Lemma init_contracts_deployed_witness :
  deployed ref_config (requests ref_config ref_deployment.1) osmosis
    "osmo1valence_forwarder_library1library_7neutron1registry".
Proof.
  destruct (init_contracts_deployed _ _ _ _ _ ref_deployment_ok) as (_ & _ & Hl & _).
  assert (∃ l, pc_libraries ref_on_chains !! 7%N = Some l ∧ li_domain l = osmosis ∧
    li_addr l = Some "osmo1valence_forwarder_library1library_7neutron1registry") as (l & H7 & Hd & Ha)
    by (vm_compute; eexists; split_and!; reflexivity).
  destruct (Hl 7%N l H7) as (addr & Ha' & Hdep). rewrite Ha in Ha'. injection Ha' as <-. by rewrite Hd in Hdep.
Defined.
Definition ref_connector : Connector :=
  match new ref_config NEUTRON_CHAIN with Ok c => c | _ => mkConnector false "" ∅ "" "" end.
Definition ref_registry : ProgramRegistry.storage :=
  ProgramRegistry.mkStorage None None (Some 1%N) {[ 1%N := wallet ref_connector ]} ∅ ∅.
Definition ref_registry_tx (sender : string) (m : ProgramRegistry.ExecuteMsg) :=
  ProgramRegistry.execute (mkEnv (mkBlock 1 1) "neutron1registry") (mkInfo sender []) m.
Definition ref_kept : ProgramRegistry.storage :=
  after (ref_registry_tx "neutron1manager" (ProgramRegistry.SaveProgram 1 "neutron1owner" [])) ref_registry.
(** A program of another owner is saved and read; the manager cannot update it. *)
Lemma saved_program_read_back_witness :
  (get_program_config ref_config ref_connector 1 []).2 = Ok ref_saved ∧
  ref_registry_tx "neutron1manager" (ProgramRegistry.UpdateProgram 1 []) ref_kept =
    Err (ProgramRegistry.UnauthorizedToUpdate "neutron1owner").
Proof.
  destruct (saved_program_read_back ref_config ref_connector ref_saved [] (save_program_config ref_config ref_connector ref_saved []).1)
    as (program & msg & tail & Hp & _ & _ & _ & Hreg); [by intros ? _|by vm_compute|].
  injection Hp as <-.
  destruct (after_ok (ref_registry_tx "neutron1manager" (ProgramRegistry.SaveProgram 1 "neutron1owner" [])) ref_registry)
    as [r Hr]; [by vm_compute|].
  destruct (Hreg (mkEnv (mkBlock 1 1) "neutron1registry") ref_registry r ref_kept Hr) as [Hread Hupd]. split.
  - by apply (Hread [] []).
  - by apply (Hupd (mkEnv (mkBlock 1 1) "neutron1registry") []).
Defined.
