(* ===== verification/ProgramChanges.v ===== *)
(** * The program manager: changes of a program

    [program-manager/src/program_update.rs], [program_migration.rs] and
    [program_config_builder.rs].  An update or a migration saves the new description of a
    program in the registry and returns messages that its owner has to send. *)
From S2P Require Import Prelude Platform Types Format Accounts LibraryBase LibraryAccount ProgramRegistry.
From S2P Require Import AuthorizationUtils ManagerLibrary ProgramManager.

Module ProgramChanges.
Import Builders Manager ProgramManager.

(** ** [program_update.rs] *)
Inductive AuthorizationInfoUpdate :=
| Add (info : AuthorizationInfo)
| Modify (label : string) (not_before expiration : option Expiration) (max_concurrent_executions : option N)
    (priority : option Priority)
| Disable (label : string)
| Enable (label : string).
Record ProgramConfigUpdate := mkProgramConfigUpdate {
  pu_id : N;
  pu_owner : option string;
  pu_libraries : gmap N LibraryConfigUpdate;
  pu_authorizations : list AuthorizationInfoUpdate;
}.
Definition has_label (label : string) (authorizations : list AuthorizationInfo) : bool :=
  existsb (λ auth, bool_decide (ai_label auth = label)) authorizations.
Definition verify_authorization_not_exists (authorizations : list AuthorizationInfo) (label : string)
    : result ManagerError unit :=
  if has_label label authorizations then Err (AuthorizationLabelExists label) else Ok ().
Definition verify_authorization_exists (authorizations : list AuthorizationInfo) (label : string)
    : result ManagerError unit :=
  if negb (has_label label authorizations) then Err (AuthorizationLabelNotFound label) else Ok ().
(** [context] on a result. *)
Definition context_r {E A} (text : string) (r : result E A) : result ManagerError A :=
  map_err_r (λ _, ErrorContext text) r.
(** [unwrap] of a result. *)
Definition unwrap_r {E A} (r : result E A) : result ManagerError A := match r with Ok a => Ok a | _ => Panic end.
Definition set_owner (owner : string) (self : ProgramConfig) : ProgramConfig :=
  mkProgramConfig (pc_id self) (pc_name self) owner (pc_links self) (pc_accounts self) (pc_libraries self)
    (pc_authorizations self) (pc_authorization_data self).
Definition set_authorizations (authorizations : list AuthorizationInfo) (self : ProgramConfig) : ProgramConfig :=
  mkProgramConfig (pc_id self) (pc_name self) (pc_owner self) (pc_links self) (pc_accounts self) (pc_libraries self)
    authorizations (pc_authorization_data self).
(** [iter_mut().find] of the first authorization with a label. *)
Fixpoint alter_label (label : string) (f : AuthorizationInfo → AuthorizationInfo) (l : list AuthorizationInfo)
    : list AuthorizationInfo :=
  match l with
  | [] => []
  | a :: l => if bool_decide (ai_label a = label) then f a :: l else a :: alter_label label f l
  end.
Definition modify_saved (not_before : option Expiration) (max_concurrent_executions : option N)
    (priority : option Priority) (a : AuthorizationInfo) : AuthorizationInfo :=
  mkAuthorizationInfo (ai_label a) (ai_mode a) (default (ai_not_before a) not_before) (ai_duration a)
    max_concurrent_executions (ai_subroutine a) priority.
(** The domain of a contract, as the manager names it for the authorization contract. *)
Definition domain_for_authorization (d : Domain) : Types.Domain :=
  if bool_decide (d = neutron_domain) then DomainMain else DomainExternal (Domain_to_string d).
(** An authorization of the owner to call one function of one contract. *)
Definition owner_authorization (label owner : string) (domain : Types.Domain) (addr function_ : string)
    : AuthorizationInfo :=
  AuthorizationBuilder_build
    (with_subroutine
      (AtomicSubroutineBuilder_build (with_function
        (AtomicFunctionBuilder_build (with_message_details
          (mkMessageDetails TyCosmwasmExecuteMsg (mkMessage function_ None))
          (with_contract_address (LibAddr addr) (with_domain domain AtomicFunctionBuilder_new))))
        AtomicSubroutineBuilder_new))
      (with_priority High
        (with_mode (PermissionedInfo (WithoutCallLimitInfo [owner]))
          (with_label label AuthorizationBuilder_new)))).
Definition missing_library_text (id : N) : string :=
  ("Library id is missing from the list of libraries: " +:+ pretty id)%string.

Section Changes.
Context `{CosmMath} `{HashOrder} `{LibrarySerde} `{UpdateSerde} `{AhoCorasick} `{Chains} `{ManagerOrder}.
Context `{CwDenom} `{JsonCodec AuthorizationExecuteMsg} `{JsonCodec OwnableAction} `{JsonCodec AccountExecuteMsg}.
Context (gc : GlobalConfig).

(** A message to the authorization contract of a program. *)
Definition to_authorization (config : ProgramConfig) (msg : Binary) : CosmosMsg :=
  CosmosWasm (WasmExecute (authorization_addr (pc_authorization_data config)) msg []).
(** The state of [update]: the description, the messages and the new authorizations. *)
Definition UpdateState : Type := ProgramConfig * list CosmosMsg * list AuthorizationInfo.
Definition update_owner (owner : option string) (config : ProgramConfig)
    : result ManagerError (ProgramConfig * list CosmosMsg) :=
  match owner with
  | Some new_owner =>
      let config := set_owner new_owner config in
      msg ← context_r "Failed binary parsing TransferOwnership" (to_json_binary (TransferOwnership new_owner None));
      Ok (config, [to_authorization config msg])
  | None => Ok (config, [])
  end.
Definition insert_first (config : ProgramConfig) (label : string) (msg : Binary) : result ManagerError CosmosMsg :=
  m ← context_r "Failed binary parsing InsertMsgs"
        (to_json_binary (PermissionedAction (PermInsertMsgs label 0 High [CosmwasmExecuteMsg msg])));
  Ok (to_authorization config m).
Definition update_library (st : UpdateState) (u : N * LibraryConfigUpdate) : result ManagerError UpdateState :=
  let '(config, instructions, new_authorizations) := st in
  let '(id, library_update) := u in
  library ← ok_or_r (pc_libraries config !! id) (ErrorContext (missing_library_text id));
  let label := ("update_library_" +:+ pretty id)%string in
  '(config, new_authorizations) ←
    (if has_label label (pc_authorizations config) then Ok (config, new_authorizations) else
     addr ← expect_r (li_addr library);
     let authorization_info :=
       owner_authorization label (pc_owner config) (domain_for_authorization (li_domain library)) addr "update_config" in
     Ok (set_authorizations (pc_authorizations config ++ [authorization_info]) config,
         new_authorizations ++ [authorization_info]));
  update_config_msg ← context_r "Failed binary parsing get_update_msg" (get_update_msg library_update);
  m ← insert_first config label update_config_msg;
  Ok (config, instructions ++ [m], new_authorizations).
Definition update_authorization (st : UpdateState) (u : AuthorizationInfoUpdate) : result ManagerError UpdateState :=
  let '(config, instructions, new_authorizations) := st in
  match u with
  | Add authorization_info =>
      _ ← verify_authorization_not_exists (pc_authorizations config) (ai_label authorization_info);
      Ok (set_authorizations (pc_authorizations config ++ [authorization_info]) config, instructions,
          new_authorizations ++ [authorization_info])
  | Modify label not_before expiration max_concurrent_executions priority =>
      _ ← verify_authorization_exists (pc_authorizations config) label;
      m ← context_r "Failed binary parsing AuthorizationInfoUpdate::Modify"
            (to_json_binary (PermissionedAction
               (ModifyAuthorization label not_before expiration max_concurrent_executions priority)));
      _ ← (if has_label label (pc_authorizations config) then Ok ()
           else Err (ErrorContext ("Failed to find authorization " +:+ label)%string));
      Ok (set_authorizations
            (alter_label label (modify_saved not_before max_concurrent_executions priority) (pc_authorizations config))
            config,
          instructions ++ [to_authorization config m], new_authorizations)
  | Disable label =>
      _ ← verify_authorization_exists (pc_authorizations config) label;
      m ← unwrap_r (to_json_binary (PermissionedAction (DisableAuthorization label)));
      Ok (config, instructions ++ [to_authorization config m], new_authorizations)
  | Enable label =>
      _ ← verify_authorization_exists (pc_authorizations config) label;
      m ← unwrap_r (to_json_binary (PermissionedAction (EnableAuthorization label)));
      Ok (config, instructions ++ [to_authorization config m], new_authorizations)
  end.
(** A loop over results. *)
Fixpoint fold_r {E A B} (f : B → A → result E B) (b : B) (l : list A) : result E B :=
  match l with
  | [] => Ok b
  | x :: l => b ← f b x; fold_r f b l
  end.
Definition create_first (config : ProgramConfig) (new_authorizations : list AuthorizationInfo)
    : result ManagerError CosmosMsg :=
  m ← unwrap_r (to_json_binary (PermissionedAction (CreateAuthorizations new_authorizations)));
  Ok (to_authorization config m).
(** What [update] makes of the description that it read. *)
Definition change (self : ProgramConfigUpdate) (config : ProgramConfig)
    : result ManagerError (ProgramConfig * list CosmosMsg) :=
  '(config, instructions) ← update_owner (pu_owner self) config;
  st ← fold_r update_library (config, instructions, []) (ids (pu_libraries self));
  '(config, instructions, new_authorizations) ← fold_r update_authorization st (pu_authorizations self);
  first ← create_first config new_authorizations;
  Ok (config, first :: instructions).
Definition update (self : ProgramConfigUpdate) : Mgr (list CosmosMsg) :=
  _ ← get_or_create_connector [] neutron_domain;
  _ ← lift_m (if (pu_id self =? 0)%N then Err InvalidProgramId else Ok ());
  config ← ask chain_program (GetProgramConfig neutron_domain (pu_id self));
  '(config, instructions) ← lift_m (change self config);
  _ ← do_ (UpdateProgramConfig neutron_domain config);
  mret instructions.

(** ** [program_migration.rs] *)
Record FundsTransfer := mkFundsTransfer {
  ft_from : string;
  ft_to : LibraryAccountType;
  ft_domain : Domain;
  ft_funds : Coin;
}.
Record ProgramConfigMigrate := mkProgramConfigMigrate {
  pm_old_id : N;
  pm_new_program : ProgramConfig;
  pm_transfer_funds : list FundsTransfer;
}.
Record MigrateResponse := mkMigrateResponse {
  mr_instructions : list CosmosMsg;
  mr_pause_processor_messages : list CosmosMsg;
  mr_new_config : ProgramConfig;
}.
(** The search of an account by its address, in order; an account without one is a panic. *)
Fixpoint find_account (addr : string) (accounts : list (N * AccountInfo)) : result ManagerError (option N) :=
  match accounts with
  | [] => Ok None
  | (id, info) :: accounts =>
      a ← expect_r (acc_addr info);
      if bool_decide (a = addr) then Ok (Some id) else find_account addr accounts
  end.
Definition account_id_of (l : LibraryAccountType) : result ManagerError N := expect_r (get_account_id l).
Definition verify_transfer (old_config new_program : ProgramConfig) (t : FundsTransfer) : result ManagerError unit :=
  _ ← (if (coin_amount (ft_funds t) =? 0)%N then
         to ← match lib_to_string (ft_to t) with
              | Ok to => Ok to
              | Err e => Err (Generic (std_error_to_string e))
              | Panic => Panic
              end;
         Err (FundsTransferAmountZero (ft_from t) to)
       else Ok ());
  found ← find_account (ft_from t) (ids (pc_accounts old_config));
  _ ← (if bool_decide (found = None) then Err (AccountNotFoundInOldProgram (ft_from t)) else Ok ());
  funds_transfer_to_id ← account_id_of (ft_to t);
  if bool_decide (pc_accounts new_program !! funds_transfer_to_id = None)
  then Err (AccountIdWasNotFound funds_transfer_to_id) else Ok ().
Definition verify_config_migration (self : ProgramConfigMigrate) (old_config : ProgramConfig)
    : result ManagerError unit :=
  _ ← (if (pm_old_id self =? 0)%N then Err InvalidProgramId else Ok ());
  fold_r (λ _, verify_transfer old_config (pm_new_program self)) () (pm_transfer_funds self).
(** The state of [migrate]: the old program, the messages and the new authorizations. *)
Definition transfer_funds (new_program : ProgramConfig) (st : UpdateState) (t : FundsTransfer)
    : result ManagerError UpdateState :=
  let '(old_config, instructions, new_authorizations) := st in
  found ← find_account (ft_from t) (ids (pc_accounts old_config));
  account_id ← expect_r found;
  let label := ("account_id_" +:+ pretty account_id)%string in
  let '(old_config, new_authorizations) :=
    if has_label label (pc_authorizations old_config) then (old_config, new_authorizations) else
    let authorization_info :=
      owner_authorization label (pc_owner old_config) (domain_for_authorization (ft_domain t)) (ft_from t) "execute_msg" in
    (set_authorizations (pc_authorizations old_config ++ [authorization_info]) old_config,
     new_authorizations ++ [authorization_info]) in
  to_id ← account_id_of (ft_to t);
  account ← get_account new_program to_id;
  send_to_addr ← ok_or_r (acc_addr account)
    (ErrorContext ("Account id: " +:+ pretty to_id +:+ " doesn't have address in new config")%string);
  account_execute_msg ← context_r "Migrate: failed to parse to binary Account::ExecuteMsg"
    (to_json_binary (AccExecuteMsg [CosmosBankSend send_to_addr [ft_funds t]]));
  m ← insert_first old_config label account_execute_msg;
  Ok (old_config, instructions ++ [m], new_authorizations).
Definition pause_processor (old_config : ProgramConfig) (p : string * string) : result ManagerError CosmosMsg :=
  domain ← from_string p.1;
  let domain := if bool_decide (domain = neutron_domain) then DomainMain else DomainExternal p.1 in
  m ← unwrap_r (to_json_binary (PermissionedAction (PauseProcessor domain)));
  Ok (to_authorization old_config m).
(** The old program as it is saved, and the messages to its authorization contract. *)
Definition leave (self : ProgramConfigMigrate) (new_program old_config : ProgramConfig)
    : result ManagerError (ProgramConfig * list CosmosMsg * list CosmosMsg) :=
  '(old_config, instructions, new_authorizations) ←
    fold_r (transfer_funds new_program) (old_config, [], []) (pm_transfer_funds self);
  first ← create_first old_config new_authorizations;
  pauses ← mapM (pause_processor old_config) (by_name (processor_addrs (pc_authorization_data old_config)));
  Ok (old_config, first :: instructions, pauses).
Definition migrate (self : ProgramConfigMigrate) : Mgr MigrateResponse :=
  _ ← get_or_create_connector [] neutron_domain;
  old_config ← ask chain_program (GetProgramConfig neutron_domain (pm_old_id self));
  _ ← lift_m (verify_config_migration self old_config);
  new_program ← init gc (pm_new_program self);
  '(old_config, instructions, pauses) ← lift_m (leave self new_program old_config);
  _ ← get_or_create_connector [] neutron_domain;
  _ ← do_ (UpdateProgramConfig neutron_domain old_config);
  mret (mkMigrateResponse instructions pauses new_program).

(** ** [lib.rs]: each with connectors of its own *)
Definition init_program (program_config : ProgramConfig) : list Call * result ManagerError ProgramConfig :=
  init gc program_config [].
Definition update_program (program_config : ProgramConfigUpdate) : list Call * result ManagerError (list CosmosMsg) :=
  update program_config [].
Definition migrate_program (program_config : ProgramConfigMigrate) : list Call * result ManagerError MigrateResponse :=
  migrate program_config [].
End Changes.

(** ** [program_config_builder.rs] *)
Record ProgramConfigBuilder := mkProgramConfigBuilder {
  pb_account_id : N;
  pb_library_id : N;
  pb_link_id : N;
  pb_program_config : ProgramConfig;
}.
Definition ProgramConfigBuilder_new (name owner : string) : ProgramConfigBuilder :=
  mkProgramConfigBuilder 0 0 0 (mkProgramConfig 0 name owner ∅ ∅ ∅ [] AuthorizationData_default).
Definition builder_set_owner (owner : string) (self : ProgramConfigBuilder) : ProgramConfigBuilder :=
  mkProgramConfigBuilder (pb_account_id self) (pb_library_id self) (pb_link_id self)
    (set_owner owner (pb_program_config self)).
Definition builder_set (accounts : gmap N AccountInfo) (libraries : gmap N LibraryInfo) (links : gmap N Link)
    (self : ProgramConfig) : ProgramConfig :=
  mkProgramConfig (pc_id self) (pc_name self) (pc_owner self) links accounts libraries (pc_authorizations self)
    (pc_authorization_data self).
(** A [None] is a panic. *)
Definition add_account (info : AccountInfo) (self : ProgramConfigBuilder)
    : option (LibraryAccountType * ProgramConfigBuilder) :=
  let id := pb_account_id self in
  let c := pb_program_config self in
  next ← checked_add u64_max id 1;
  if bool_decide (is_Some (pc_accounts c !! id)) then None else
  Some (LibAccountId id,
        mkProgramConfigBuilder next (pb_library_id self) (pb_link_id self)
          (builder_set (<[id := info]> (pc_accounts c)) (pc_libraries c) (pc_links c) c)).
Definition add_library (info : LibraryInfo) (self : ProgramConfigBuilder)
    : option (LibraryAccountType * ProgramConfigBuilder) :=
  let id := pb_library_id self in
  let c := pb_program_config self in
  next ← checked_add u64_max id 1;
  if bool_decide (is_Some (pc_libraries c !! id)) then None else
  Some (LibLibraryId id,
        mkProgramConfigBuilder (pb_account_id self) next (pb_link_id self)
          (builder_set (pc_accounts c) (<[id := info]> (pc_libraries c)) (pc_links c) c)).
Definition add_link (library : LibraryAccountType) (inputs outputs : list LibraryAccountType)
    (self : ProgramConfigBuilder) : option ProgramConfigBuilder :=
  let id := pb_link_id self in
  let c := pb_program_config self in
  next ← checked_add u64_max id 1;
  inputs ← mapM get_account_id inputs;
  outputs ← mapM get_account_id outputs;
  library_id ← get_library_id library;
  Some (mkProgramConfigBuilder (pb_account_id self) (pb_library_id self) next
          (builder_set (pc_accounts c) (pc_libraries c) (<[id := mkLink inputs outputs library_id]> (pc_links c)) c)).
Definition add_authorization (authorization : AuthorizationInfo) (self : ProgramConfigBuilder) : ProgramConfigBuilder :=
  let c := pb_program_config self in
  mkProgramConfigBuilder (pb_account_id self) (pb_library_id self) (pb_link_id self)
    (set_authorizations (pc_authorizations c ++ [authorization]) c).
Definition builder_build (self : ProgramConfigBuilder) : ProgramConfig := pb_program_config self.
End ProgramChanges.
