(* ===== verification/ProgramChangesTheorems.v ===== *)
(** * The program manager: an update agrees with the authorization contract

    The messages that [update] returns, sent by the owner in order, bring the authorization
    contract to the description that [update] saved in the registry. *)
From S2P Require Import Prelude Platform Types Format Accounts LibraryBase LibraryAccount ProgramRegistry.
From S2P Require Import AuthorizationUtils Authorization AuthorizationFacts AuthorizationInvariants.
From S2P Require Import ManagerLibrary ProgramManager ProgramManagerTheorems ManagerProgress.
From S2P Require Import ProgramChanges.
Import Builders Manager ProgramManager ProgramChanges.

(** ** Labels *)
Notation labels := (fmap (M:=list) ai_label).
Lemma has_label_spec label l : has_label label l = true ↔ label ∈ labels l.
Proof.
  unfold has_label. rewrite existsb_exists, list_elem_of_fmap. split.
  - intros (a & Ha & He%bool_decide_eq_true_1). exists a. by rewrite list_elem_of_In.
  - intros (a & -> & Ha). exists a. rewrite <- list_elem_of_In. by rewrite bool_decide_eq_true_2.
Qed.
Lemma alter_label_labels label f l : (∀ a, ai_label (f a) = ai_label a) → labels (alter_label label f l) = labels l.
Proof.
  intros Hf. induction l as [|a l IH]; [done|]. cbn [alter_label].
  case_bool_decide; rewrite !fmap_cons; [by rewrite Hf|by rewrite IH].
Qed.
Lemma alter_label_app label f l k : label ∈ labels l → alter_label label f (l ++ k) = alter_label label f l ++ k.
Proof.
  induction l as [|a l IH]; simpl; [by intros ?%not_elem_of_nil|]. case_bool_decide as Ha; [done|].
  intros [->|Hl]%elem_of_cons; [done|]. by rewrite IH.
Qed.
Lemma elem_of_alter_label label f l b :
  NoDup (labels l) → (∀ a, ai_label (f a) = ai_label a) →
  b ∈ alter_label label f l ↔ ∃ a, a ∈ l ∧ b = if bool_decide (ai_label a = label) then f a else a.
Proof.
  intros Hnd Hf. induction l as [|a l IH]; simpl.
  { split; [by intros ?%not_elem_of_nil|]. by intros (? & ?%not_elem_of_nil & _). }
  apply NoDup_cons in Hnd as [Ha Hnd]. setoid_rewrite elem_of_cons. case_bool_decide as Hl; simpl.
  - rewrite elem_of_cons. split.
    + intros [->|Hb]; [exists a; by rewrite bool_decide_eq_true_2; auto|]. exists b. split; [by right|].
      rewrite bool_decide_eq_false_2; [done|]. intros He. apply Ha. rewrite Hl, <- He. by apply list_elem_of_fmap_2.
    + intros (c & [->|Hc] & ->); [left; by rewrite bool_decide_eq_true_2|right].
      rewrite bool_decide_eq_false_2; [done|]. intros He. apply Ha. rewrite Hl, <- He. by apply list_elem_of_fmap_2.
  - rewrite elem_of_cons, IH by done. split.
    + intros [->|(c & Hc & ->)]; [exists a; by rewrite bool_decide_eq_false_2; auto|eauto].
    + intros (c & [->|Hc] & ->); [left; by rewrite bool_decide_eq_false_2|eauto].
Qed.

(** ** What a message does to the list of authorizations *)
Definition apply_msg (l : list AuthorizationInfo) (w : PermissionedMsg) : list AuthorizationInfo :=
  match w with
  | ModifyAuthorization label nb _ mc pr => alter_label label (modify_saved nb mc pr) l
  | _ => l
  end.
(** The messages of an update after the first, which refer to a known label. *)
Definition refers (known_labels : list string) (w : PermissionedMsg) : Prop :=
  match w with
  | PermInsertMsgs label _ _ _ | ModifyAuthorization label _ _ _ _
  | DisableAuthorization label | EnableAuthorization label => label ∈ known_labels
  | _ => False
  end.
Lemma refers_mono known more w : refers known w → refers (known ++ more) w.
Proof. destruct w; simpl; try done; intros; rewrite elem_of_app; by left. Qed.
Lemma apply_msg_labels l w : labels (apply_msg l w) = labels l.
Proof. destruct w; simpl; try done. by apply alter_label_labels. Qed.
Lemma apply_msgs_labels ws l : labels (foldl apply_msg l ws) = labels l.
Proof. revert l. induction ws as [|w ws IH]; intros l; simpl; [done|]. by rewrite IH, apply_msg_labels. Qed.
Lemma apply_msgs_app ws l k : Forall (refers (labels l)) ws → foldl apply_msg (l ++ k) ws = foldl apply_msg l ws ++ k.
Proof.
  revert l. induction ws as [|w ws IH]; intros l Hr; simpl; [done|]. apply Forall_cons in Hr as [Hw Hr].
  assert (apply_msg (l ++ k) w = apply_msg l w ++ k) as -> by (destruct w; simpl in *; try done; by apply alter_label_app).
  apply IH. by rewrite apply_msg_labels.
Qed.

Section Update.
Context `{CosmMath} `{HashOrder} `{LibrarySerde} `{UpdateSerde} `{AhoCorasick} `{Chains} `{ManagerOrder}.
Context `{CwDenom} `{JsonCodec AuthorizationExecuteMsg} `{JsonCodec OwnableAction} `{JsonCodec AccountExecuteMsg}.

(** A message as it goes to the contract. *)
Definition wire (addr : string) (w : PermissionedMsg) (m : CosmosMsg) : Prop :=
  ∃ b, to_json_binary (PermissionedAction w) = Ok b ∧ m = CosmosWasm (WasmExecute addr b []).
(** The part of a description that an update of the authorizations keeps. *)
Definition frame (c : ProgramConfig) := (pc_id c, pc_name c, pc_owner c, pc_links c, pc_accounts c, pc_libraries c,
                                         pc_authorization_data c).
Record built (config0 : ProgramConfig) (st : UpdateState) (ws : list PermissionedMsg) : Prop := {
  b_frame : frame st.1.1 = frame config0;
  b_wire : Forall2 (wire (authorization_addr (pc_authorization_data config0))) ws st.1.2;
  b_refers : Forall (refers (labels (pc_authorizations config0 ++ st.2))) ws;
  b_list : pc_authorizations st.1.1 = foldl apply_msg (pc_authorizations config0 ++ st.2) ws;
  b_labels : NoDup (labels (pc_authorizations config0 ++ st.2));
}.
Lemma built_add config0 config instructions new ws info :
  built config0 (config, instructions, new) ws → has_label (ai_label info) (pc_authorizations config) = false →
  built config0 (set_authorizations (pc_authorizations config ++ [info]) config, instructions, new ++ [info]) ws.
Proof.
  intros [Hf Hw Hr Hl Hn] Hno. simpl in *.
  assert (ai_label info ∉ labels (pc_authorizations config0 ++ new)) as Hnew.
  { rewrite <- (apply_msgs_labels ws), <- Hl, <- has_label_spec, Hno. done. }
  split; simpl; [done|done| | |]; rewrite !app_assoc.
  - rewrite fmap_app. eapply Forall_impl; [exact Hr|]. intros w. apply refers_mono.
  - by rewrite apply_msgs_app, Hl.
  - rewrite fmap_app, NoDup_app. split_and!; [done| |apply NoDup_singleton].
    intros x Hx ->%list_elem_of_singleton. done.
Qed.
Lemma built_msg config0 config config' instructions new ws w m :
  built config0 (config, instructions, new) ws →
  frame config' = frame config → pc_authorizations config' = apply_msg (pc_authorizations config) w →
  wire (authorization_addr (pc_authorization_data config)) w m →
  refers (labels (pc_authorizations config)) w →
  built config0 (config', instructions ++ [m], new) (ws ++ [w]).
Proof.
  intros [Hf Hw Hr Hl Hn] Hf' Hl' Hwire Href. simpl in *.
  rewrite Hl, apply_msgs_labels in Href.
  assert (pc_authorization_data config = pc_authorization_data config0) as Hd by (unfold frame in Hf; congruence).
  split; simpl; [congruence| | | |done].
  - rewrite <- Hd. apply Forall2_app; [by rewrite Hd|]. by repeat constructor.
  - apply Forall_app. split; [done|]. by repeat constructor.
  - by rewrite foldl_app, <- Hl.
Qed.
Lemma context_r_ok {E A} text (r : result E A) a : context_r text r = Ok a → r = Ok a.
Proof. unfold context_r. destruct r; simpl; congruence. Qed.
Lemma unwrap_r_ok {E A} (r : result E A) a : unwrap_r r = Ok a → r = Ok a.
Proof. destruct r; simpl; congruence. Qed.

Lemma update_library_built config0 st ws u st' :
  built config0 st ws → update_library st u = Ok st' → ∃ w, built config0 st' (ws ++ [w]).
Proof.
  destruct st as [[config instructions] new], u as [id lu]. intros Hb Hu.
  apply bind_result_ok in Hu as (lib & _ & Hu). apply bind_result_ok in Hu as ([config1 new1] & Hc & Hu).
  apply bind_result_ok in Hu as (um & _ & Hu). apply bind_result_ok in Hu as (m & Hm & [= <-]).
  apply bind_result_ok in Hm as (b & Hj%context_r_ok & [= <-]).
  set (label := ("update_library_" +:+ pretty id)%string) in *.
  assert (built config0 (config1, instructions, new1) ws ∧ label ∈ labels (pc_authorizations config1)) as [Hb1 Hl].
  { destruct (has_label label (pc_authorizations config)) eqn:Hh.
    - injection Hc as <- <-. split; [done|]. by apply has_label_spec.
    - apply bind_result_ok in Hc as (addr & _ & [= <- <-]). split; [by apply built_add|]. simpl.
      rewrite fmap_app, elem_of_app. right. by left. }
  eexists. eapply built_msg; [exact Hb1|done| |by exists b|exact Hl]. done.
Qed.
Lemma update_authorization_built config0 st ws u st' :
  built config0 st ws → update_authorization st u = Ok st' → ∃ ws', built config0 st' (ws ++ ws').
Proof.
  destruct st as [[config instructions] new]. intros Hb.
  assert (∀ label, verify_authorization_exists (pc_authorizations config) label = Ok () →
    label ∈ labels (pc_authorizations config)) as Hex.
  { intros label. unfold verify_authorization_exists. rewrite <- has_label_spec. by destruct (has_label _ _). }
  destruct u as [info|label nb ex mc pr|label|label]; simpl.
  - intros ([] & Hv & [= <-])%bind_result_ok. exists []. rewrite app_nil_r. apply built_add; [done|].
    unfold verify_authorization_not_exists in Hv. by destruct (has_label _ _).
  - intros ([] & Hv%Hex & (b & Hj%context_r_ok & (_ & _ & [= <-])%bind_result_ok)%bind_result_ok)%bind_result_ok.
    eexists [_]. eapply built_msg; [exact Hb|done| |by exists b|exact Hv]. done.
  - intros ([] & Hv%Hex & (b & Hj%unwrap_r_ok & [= <-])%bind_result_ok)%bind_result_ok.
    eexists [_]. eapply built_msg; [exact Hb|done| |by exists b|exact Hv]. done.
  - intros ([] & Hv%Hex & (b & Hj%unwrap_r_ok & [= <-])%bind_result_ok)%bind_result_ok.
    eexists [_]. eapply built_msg; [exact Hb|done| |by exists b|exact Hv]. done.
Qed.
Lemma fold_built {A} config0 (f : UpdateState → A → result ManagerError UpdateState) l st ws st' :
  (∀ st ws x st', built config0 st ws → f st x = Ok st' → ∃ ws', built config0 st' (ws ++ ws')) →
  built config0 st ws → fold_r f st l = Ok st' → ∃ ws', built config0 st' (ws ++ ws').
Proof.
  intros Hf. revert st ws. induction l as [|x l IH]; intros st ws Hb; simpl.
  - intros [= <-]. exists []. by rewrite app_nil_r.
  - intros (st1 & Hx & Hl)%bind_result_ok. destruct (Hf _ _ _ _ Hb Hx) as [ws1 Hb1].
    destruct (IH _ _ Hb1 Hl) as [ws2 Hb2]. exists (ws1 ++ ws2). by rewrite app_assoc.
Qed.
Definition update_label (id : N) : string := ("update_library_" +:+ pretty id)%string.
(** An authorization that an update of a library brings along. *)
Definition made_for (libraries : gmap N LibraryInfo) (info : AuthorizationInfo) : Prop :=
  ∃ id lib owner addr, libraries !! id = Some lib ∧
    info = owner_authorization (update_label id) owner (domain_for_authorization (li_domain lib)) addr "update_config".
Lemma update_library_new config0 st id u st' ws :
  built config0 st ws → update_library st (id, u) = Ok st' →
  ∃ more, st'.2 = st.2 ++ more ∧ Forall (made_for (pc_libraries config0)) more ∧
    update_label id ∈ labels (pc_authorizations config0 ++ st'.2).
Proof.
  intros Hb Hu. destruct (update_library_built _ _ _ _ _ Hb Hu) as [w Hb'].
  destruct st as [[config instructions] new]. pose proof (b_frame _ _ _ Hb) as Hf. unfold frame in Hf. simpl in Hf.
  apply bind_result_ok in Hu as (lib & Hlib & Hu). apply bind_result_ok in Hu as ([config1 new1] & Hc & Hu).
  apply bind_result_ok in Hu as (um & _ & Hu). apply bind_result_ok in Hu as (m & _ & [= <-]). simpl in *.
  assert (pc_libraries config0 !! id = Some lib) as Hl.
  { destruct (pc_libraries config !! id) eqn:He; simpl in Hlib; simplify_eq. congruence. }
  pose proof (b_list _ _ _ Hb') as Hbl. simpl in Hbl.
  rewrite <- (apply_msgs_labels (ws ++ [w])), <- Hbl. fold (update_label id) in *.
  destruct (has_label (update_label id) (pc_authorizations config)) eqn:Hh.
  - injection Hc as <- <-. exists []. rewrite app_nil_r. split_and!; [done|constructor|]. by apply has_label_spec.
  - apply bind_result_ok in Hc as (addr & _ & [= <- <-]). eexists. split_and!; [done| |].
    + constructor; [|constructor]. by exists id, lib, (pc_owner config), addr.
    + simpl. rewrite fmap_app, elem_of_app. right. by left.
Qed.
Lemma update_libraries_new config0 us st ws st' :
  built config0 st ws → fold_r update_library st us = Ok st' →
  ∃ more, st'.2 = st.2 ++ more ∧ Forall (made_for (pc_libraries config0)) more ∧
    ∀ id u, (id, u) ∈ us → update_label id ∈ labels (pc_authorizations config0 ++ st'.2).
Proof.
  revert st ws. induction us as [|[id u] us IH]; intros st ws Hb; simpl.
  - intros [= <-]. exists []. rewrite app_nil_r. split_and!; [done|constructor|]. by intros ? ? ?%not_elem_of_nil.
  - intros (st1 & Hu & Hus)%bind_result_ok. destruct (update_library_built _ _ _ _ _ Hb Hu) as [w Hb1].
    destruct (update_library_new _ _ _ _ _ _ Hb Hu) as (m1 & Hm1 & Hf1 & Hin).
    destruct (IH _ _ Hb1 Hus) as (m2 & Hm2 & Hf2 & Hall). exists (m1 ++ m2).
    split_and!; [by rewrite Hm2, Hm1, app_assoc|by apply Forall_app|]. intros i v [[= -> ->]|Hi]%elem_of_cons.
    + rewrite Hm2. rewrite !fmap_app, !elem_of_app in *. naive_solver.
    + by eapply Hall.
Qed.
Lemma update_authorizations_new us st st' : fold_r update_authorization st us = Ok st' → ∃ more, st'.2 = st.2 ++ more.
Proof.
  revert st. induction us as [|u us IH]; intros st; simpl; [intros [= <-]; exists []; by rewrite app_nil_r|].
  intros (st1 & Hu & (m2 & ->)%IH)%bind_result_ok.
  assert (∃ m1, st1.2 = st.2 ++ m1) as [m1 ->]; [|exists (m1 ++ m2); by rewrite app_assoc].
  destruct st as [[config instructions] new], u; simpl in Hu; repeat apply bind_result_ok in Hu as (? & _ & Hu);
    injection Hu as <-; simpl; solve [by eexists|by exists []; rewrite app_nil_r].
Qed.
(** What [update] saves and returns when it keeps the owner. *)
Lemma change_built self config config' msgs :
  pu_owner self = None → NoDup (labels (pc_authorizations config)) → change self config = Ok (config', msgs) →
  ∃ new first rest ws, msgs = first :: rest ∧ built config (config', rest, new) ws ∧
    wire (authorization_addr (pc_authorization_data config)) (CreateAuthorizations new) first ∧
    ∃ libs more, new = libs ++ more ∧ Forall (made_for (pc_libraries config)) libs ∧
      ∀ id u, pu_libraries self !! id = Some u → update_label id ∈ labels (pc_authorizations config ++ libs).
Proof.
  intros Ho Hnd Hc. unfold change in Hc. rewrite Ho in Hc. simpl in Hc.
  apply bind_result_ok in Hc as (st1 & H1' & Hc). apply bind_result_ok in Hc as ([[config2 instr2] new2] & H2' & Hc).
  apply bind_result_ok in Hc as (first & (b & Hj%unwrap_r_ok & [= <-])%bind_result_ok & [= <- <-]).
  assert (built config (config, [], []) []) as Hb0.
  { split; simpl; [done|constructor|constructor| |]; by rewrite app_nil_r. }
  destruct (update_libraries_new _ _ _ _ _ Hb0 H1') as (libs & Hlibs & Hmade & Hall).
  destruct (update_authorizations_new _ _ _ H2') as (more & Hmore). simpl in Hlibs, Hmore.
  eapply (fold_built config) in H1' as [ws1 Hb1]; [| |exact Hb0].
  2:{ intros st ws u st' Hb Hu. destruct (update_library_built _ _ _ _ _ Hb Hu) as [w Hw]. by exists [w]. }
  eapply (fold_built config) in H2' as [ws2 Hb2]; [|by intros; eapply update_authorization_built|exact Hb1].
  eexists new2, _, instr2, _. split; [done|]. split; [exact Hb2|]. split.
  - exists b. split; [done|]. destruct Hb2 as [Hf _ _ _ _]. unfold to_authorization, frame in *. simpl in Hf. congruence.
  - exists libs, more. split_and!; [congruence|done|]. intros id u Hu. rewrite <- Hlibs. apply (Hall id u). by apply ids_elem.
Qed.

(** ** The saved authorizations, exactly *)

(** What the update says of an authorization: each [Modify] of its label sets the concurrency
    and the priority, and the start when it names one; nothing else touches it. *)
Definition modified_by (a : AuthorizationInfo) (u : AuthorizationInfoUpdate) : AuthorizationInfo :=
  match u with
  | Modify label nb _ mc pr =>
      if decide (label = ai_label a) then
        mkAuthorizationInfo (ai_label a) (ai_mode a) (match nb with Some e => e | None => ai_not_before a end)
          (ai_duration a) mc (ai_subroutine a) pr
      else a
  | _ => a
  end.
Definition modified (us : list AuthorizationInfoUpdate) (a : AuthorizationInfo) : AuthorizationInfo :=
  foldl modified_by a us.
Definition added_by (u : AuthorizationInfoUpdate) : option AuthorizationInfo :=
  match u with Add info => Some info | _ => None end.
(** The authorization that the update of a library brings along when the program has none of
    its label. *)
Definition library_authorization (config : ProgramConfig) (id : N) : option AuthorizationInfo :=
  if decide (update_label id ∈ labels (pc_authorizations config)) then None else
  lib ← pc_libraries config !! id;
  addr ← li_addr lib;
  Some (owner_authorization (update_label id) (pc_owner config) (domain_for_authorization (li_domain lib)) addr
          "update_config").
Lemma library_authorization_label config id info : library_authorization config id = Some info → ai_label info = update_label id.
Proof. unfold library_authorization. case_decide; [done|]. by intros (lib & _ & (addr & _ & [= <-])%bind_Some)%bind_Some. Qed.
Lemma update_library_exact config0 config instructions new id u st' :
  frame config = frame config0 →
  (update_label id ∈ labels (pc_authorizations config) ↔ update_label id ∈ labels (pc_authorizations config0)) →
  update_library (config, instructions, new) (id, u) = Ok st' →
  frame st'.1.1 = frame config0 ∧
  pc_authorizations st'.1.1 = pc_authorizations config ++ option_list (library_authorization config0 id).
Proof.
  unfold frame. intros Hf Hl Hu.
  assert (pc_libraries config = pc_libraries config0 ∧ pc_owner config = pc_owner config0) as [Hlibs Ho] by (split; congruence).
  apply bind_result_ok in Hu as (lib & Hlib & Hu). apply bind_result_ok in Hu as ([config1 new1] & Hc & Hu).
  apply bind_result_ok in Hu as (um & _ & Hu). apply bind_result_ok in Hu as (m & _ & [= <-]). simpl.
  unfold library_authorization. fold (update_label id) in Hc.
  destruct (has_label (update_label id) (pc_authorizations config)) eqn:Hh.
  - injection Hc as <- <-. rewrite decide_True by (by apply Hl, has_label_spec). by rewrite app_nil_r.
  - apply bind_result_ok in Hc as (addr & Ha & [= <- <-]). rewrite decide_False by (rewrite <- Hl, <- has_label_spec; congruence).
    rewrite <- Hlibs, <- Ho. destruct (pc_libraries config !! id) as [lib'|]; simplify_eq/=.
    destruct (li_addr lib) as [addr0|]; simplify_eq/=. split; [congruence|done].
Qed.
Lemma update_libraries_exact config0 us st st' :
  NoDup us.*1 → frame st.1.1 = frame config0 →
  (∀ id, id ∈ us.*1 →
    update_label id ∈ labels (pc_authorizations st.1.1) ↔ update_label id ∈ labels (pc_authorizations config0)) →
  fold_r update_library st us = Ok st' →
  frame st'.1.1 = frame config0 ∧
  pc_authorizations st'.1.1 = pc_authorizations st.1.1 ++ omap (library_authorization config0) us.*1.
Proof.
  revert st. induction us as [|[id u] us IH]; intros [[config instructions] new] Hnd Hf Hl; simpl.
  { intros [= <-]. by rewrite app_nil_r. }
  intros (st1 & Hu & Hus)%bind_result_ok. apply NoDup_cons in Hnd as [Hid Hnd].
  apply (update_library_exact config0) in Hu as [Hf1 Hl1]; [|done|apply (Hl id); by left].
  apply IH in Hus as [Hf' Hl']; [|done|done|].
  - split; [done|]. rewrite Hl', Hl1. simpl. rewrite <- app_assoc. by destruct (library_authorization config0 id).
  - intros j Hj. rewrite Hl1, fmap_app, elem_of_app, (Hl j) by (by right). split; [|by left]. intros [?|Hin]; [done|].
    destruct (library_authorization config0 id) as [info|] eqn:Hi; [|by apply not_elem_of_nil in Hin].
    apply library_authorization_label in Hi. apply list_elem_of_singleton in Hin. rewrite Hi in Hin.
    apply (inj (String.append "update_library_")), (inj pretty) in Hin as ->. done.
Qed.
(** A label that is added was not there before. *)
Lemma update_authorizations_fresh us st st' info :
  fold_r update_authorization st us = Ok st' → info ∈ omap added_by us →
  ai_label info ∉ labels (pc_authorizations st.1.1).
Proof.
  revert st. induction us as [|u us IH]; intros [[config instructions] new]; simpl; [by intros _ ?%not_elem_of_nil|].
  intros (st1 & Hu & Hus)%bind_result_ok Hin.
  assert (∀ x, x ∈ labels (pc_authorizations config) → x ∈ labels (pc_authorizations st1.1.1)) as Hkeep.
  { intros x. destruct u; simpl in Hu; repeat apply bind_result_ok in Hu as (? & _ & Hu); injection Hu as <-; simpl; try done.
    - rewrite fmap_app, elem_of_app. by left.
    - by rewrite alter_label_labels. }
  destruct u as [i| | |]; simpl in Hin; try (by intros Hx%Hkeep; eapply IH).
  apply elem_of_cons in Hin as [->|Hin]; [|by intros Hx%Hkeep; eapply IH].
  simpl in Hu. apply bind_result_ok in Hu as ([] & Hv & _). unfold verify_authorization_not_exists in Hv.
  rewrite <- has_label_spec. by destruct (has_label _ _).
Qed.
Lemma alter_label_modified label nb ex mc pr l :
  NoDup (labels l) →
  alter_label label (modify_saved nb mc pr) l = (λ a, modified_by a (Modify label nb ex mc pr)) <$> l.
Proof.
  induction l as [|a l IH]; intros Hnd; [done|]. cbn [alter_label]. rewrite fmap_cons. apply NoDup_cons in Hnd as [Ha Hnd].
  simpl modified_by at 1. case_bool_decide as He.
  - rewrite decide_True by done. f_equal. apply list_eq_same_length with (length l); rewrite ?length_fmap; try done.
    intros i x y _ Hx. rewrite list_lookup_fmap, Hx. simpl. intros [= <-]. rewrite decide_False; [done|].
    intros ->. apply Ha. rewrite He. apply list_elem_of_fmap_2. by eapply list_elem_of_lookup_2.
  - rewrite decide_False by congruence. by rewrite IH.
Qed.
Lemma update_authorizations_exact us st st' :
  NoDup (labels (pc_authorizations st.1.1)) → fold_r update_authorization st us = Ok st' →
  pc_authorizations st'.1.1 = modified us <$> (pc_authorizations st.1.1 ++ omap added_by us).
Proof.
  revert st. induction us as [|u us IH]; intros [[config instructions] new] Hnd; simpl.
  { intros [= <-]. rewrite app_nil_r. symmetry. apply list_fmap_id. }
  intros (st1 & Hu & Hus)%bind_result_ok. pose proof (IH st1) as IH1.
  destruct u as [info|x nb ex mc pr|x|x]; simpl in Hu.
  - apply bind_result_ok in Hu as ([] & Hv & [= <-]). rewrite IH1; [|simpl|done]; simpl; [by rewrite <- app_assoc|].
    unfold verify_authorization_not_exists in Hv. destruct (has_label _ _) eqn:Hh; [done|].
    rewrite fmap_app, NoDup_app. split_and!; [done| |apply NoDup_singleton]. intros y Hy ->%list_elem_of_singleton.
    apply has_label_spec in Hy. congruence.
  - apply bind_result_ok in Hu as ([] & Hv & Hu). apply bind_result_ok in Hu as (b & _ & Hu).
    apply bind_result_ok in Hu as (? & _ & [= <-]). rewrite IH1; [|by simpl; rewrite alter_label_labels|done]. simpl.
    rewrite (alter_label_modified _ _ ex) by done. rewrite !fmap_app. f_equal; [by rewrite <- list_fmap_compose|].
    apply list_fmap_ext. intros i a Ha%list_elem_of_lookup_2. unfold modified. simpl. rewrite decide_False; [done|].
    intros ->. eapply update_authorizations_fresh in Hus; [|exact Ha]. simpl in Hus. apply Hus.
    rewrite alter_label_labels by done. unfold verify_authorization_exists in Hv. apply has_label_spec. by destruct (has_label _ _).
  - apply bind_result_ok in Hu as ([] & _ & Hu). apply bind_result_ok in Hu as (b & _ & [= <-]). by apply IH1.
  - apply bind_result_ok in Hu as ([] & _ & Hu). apply bind_result_ok in Hu as (b & _ & [= <-]). by apply IH1.
Qed.
(** All that [update] saves when it keeps the owner. *)
Lemma change_exact self config config' msgs :
  pu_owner self = None → NoDup (labels (pc_authorizations config)) → change self config = Ok (config', msgs) →
  pc_authorizations config' = modified (pu_authorizations self) <$>
    (pc_authorizations config ++ omap (library_authorization config) (ids (pu_libraries self)).*1 ++
     omap added_by (pu_authorizations self)).
Proof.
  intros Ho Hnd Hc. unfold change in Hc. rewrite Ho in Hc. simpl in Hc.
  apply bind_result_ok in Hc as (st1 & H1' & Hc). apply bind_result_ok in Hc as ([[config2 instr2] new2] & H2' & Hc).
  apply bind_result_ok in Hc as (first & _ & [= <- <-]).
  assert (built config (config, [], []) []) as Hb0.
  { split; simpl; [done|constructor|constructor| |]; by rewrite app_nil_r. }
  pose proof H1' as Hb1. eapply (fold_built config) in Hb1 as [ws [_ _ _ Hl1 Hn1]]; [| |exact Hb0].
  2:{ intros st ws u st' Hb Hu. destruct (update_library_built _ _ _ _ _ Hb Hu) as [w Hw]. by exists [w]. }
  apply (update_libraries_exact config) in H1' as [_ Hlibs]; [|apply ids_NoDup|done|done].
  apply update_authorizations_exact in H2'; [|by rewrite Hl1, apply_msgs_labels].
  simpl in H2'. by rewrite H2', Hlibs, <- app_assoc.
Qed.

(** ** Migration *)
Lemma find_account_ok addr l i : find_account addr l = Ok (Some i) → ∃ a, (i, a) ∈ l ∧ acc_addr a = Some addr.
Proof.
  induction l as [|[j a] l IH]; simpl; [done|]. intros (b & Hb & Hf)%bind_result_ok.
  destruct (acc_addr a) as [b'|] eqn:Ha; simplify_eq/=. case_bool_decide as He.
  - injection Hf as <-. exists a. split; [by left|]. by rewrite Ha, He.
  - destruct (IH Hf) as (c & Hc & Hac). exists c. split; [by right|done].
Qed.
Definition account_label (i : N) : string := ("account_id_" +:+ pretty i)%string.
(** The message of a transfer: from an account of the old program, which executes it as its
    owner asks, to an account of the new one. *)
Definition transfer_msg (old new_program : ProgramConfig) (t : FundsTransfer) (w : PermissionedMsg) : Prop :=
  ∃ i account to_id to addr b, pc_accounts old !! i = Some account ∧ acc_addr account = Some (ft_from t) ∧
    ft_to t = LibAccountId to_id ∧ pc_accounts new_program !! to_id = Some to ∧ acc_addr to = Some addr ∧
    to_json_binary (AccExecuteMsg [CosmosBankSend addr [ft_funds t]]) = Ok b ∧
    w = PermInsertMsgs (account_label i) 0 High [CosmwasmExecuteMsg b].
(** An authorization that is made for transfers: the owner of the program may have an account
    of it execute messages. *)
Definition transfer_authorization (old : ProgramConfig) (ts : list FundsTransfer) (info : AuthorizationInfo) : Prop :=
  ∃ t i account, t ∈ ts ∧ pc_accounts old !! i = Some account ∧ acc_addr account = Some (ft_from t) ∧
    account_label i ∉ labels (pc_authorizations old) ∧
    info = owner_authorization (account_label i) (pc_owner old) (domain_for_authorization (ft_domain t)) (ft_from t)
             "execute_msg".
Lemma transfer_authorization_mono old ts ts' info :
  ts ⊆ ts' → transfer_authorization old ts info → transfer_authorization old ts' info.
Proof. intros Hts (t & i & a & Ht & Hrest). exists t, i, a. split; [by apply Hts|done]. Qed.
Lemma transfer_funds_built config0 new_program st ws t st' :
  built config0 st ws → transfer_funds new_program st t = Ok st' →
  ∃ w more, built config0 st' (ws ++ [w]) ∧ transfer_msg config0 new_program t w ∧ st'.2 = st.2 ++ more ∧
    Forall (transfer_authorization config0 [t]) more.
Proof.
  destruct st as [[config instructions] new]. intros Hb Ht.
  assert (pc_accounts config = pc_accounts config0 ∧ pc_owner config = pc_owner config0) as [Hacc Hown]
    by (pose proof (b_frame _ _ _ Hb) as Hf; unfold frame in Hf; simpl in Hf; split; congruence).
  apply bind_result_ok in Ht as (found & Hf & Ht). apply bind_result_ok in Ht as (i & Hi & Ht).
  destruct found as [i'|]; simplify_eq/=. apply find_account_ok in Hf as (account & Hin%ids_elem & Hfrom).
  fold (account_label i) in Ht. set (label := account_label i) in *.
  match goal with Ht : (let '(_, _) := ?p in _) = _ |- _ => destruct p as [config1 new1] eqn:Hc end.
  apply bind_result_ok in Ht as (to_id & Hto & Ht). apply bind_result_ok in Ht as (to & Hget & Ht).
  apply bind_result_ok in Ht as (addr & Haddr & Ht). apply bind_result_ok in Ht as (b & Hj%context_r_ok & Ht).
  apply bind_result_ok in Ht as (m & (c & Hm%context_r_ok & [= <-])%bind_result_ok & [= <-]).
  rewrite Hacc in Hin.
  assert (built config0 (config1, instructions, new1) ws ∧ label ∈ labels (pc_authorizations config1) ∧
    ∃ more, new1 = new ++ more ∧ Forall (transfer_authorization config0 [t]) more) as (Hb1 & Hl & more & Hnew & Hmore).
  { destruct (has_label label (pc_authorizations config)) eqn:Hh; injection Hc as <- <-.
    - split_and!; [done|by apply has_label_spec|]. exists []. by rewrite app_nil_r.
    - split_and!; [by apply built_add|simpl; rewrite fmap_app, elem_of_app; right; by left|]. eexists. split; [done|].
      constructor; [|constructor]. exists t, i, account. rewrite Hown. split_and!; [by left|done|done| |done].
      intros Hold. pose proof (b_list _ _ _ Hb) as Hbl. simpl in Hbl. apply not_true_iff_false in Hh. apply Hh.
      apply has_label_spec. rewrite Hbl, apply_msgs_labels, fmap_app, elem_of_app. by left. }
  eexists _, more. split; [eapply built_msg; [exact Hb1|done| |by exists c|exact Hl]; done|]. split; [|done].
  destruct (ft_to t) as [|j|] eqn:Hft; simplify_eq/=. unfold get_account in Hget.
  destruct (pc_accounts new_program !! to_id) as [to'|] eqn:Hnew; simplify_eq/=.
  destruct (acc_addr to) as [addr'|] eqn:Hta; simplify_eq/=.
  injection Hto as <-. exists i, account, j, to, addr, b. by split_and!.
Qed.
Lemma transfers_built config0 new_program ts st ws st' :
  built config0 st ws → fold_r (transfer_funds new_program) st ts = Ok st' →
  ∃ ws' more, built config0 st' (ws ++ ws') ∧ Forall2 (transfer_msg config0 new_program) ts ws' ∧
    st'.2 = st.2 ++ more ∧ Forall (transfer_authorization config0 ts) more.
Proof.
  revert st ws. induction ts as [|t ts IH]; intros st ws Hb; simpl.
  - intros [= <-]. exists [], []. by rewrite !app_nil_r.
  - intros (st1 & Ht & Hts)%bind_result_ok.
    destruct (transfer_funds_built _ _ _ _ _ _ Hb Ht) as (w & m1 & Hw & Hm & Hn1 & Hf1).
    destruct (IH _ _ Hw Hts) as (ws' & m2 & Hws & Hms & Hn2 & Hf2). exists (w :: ws'), (m1 ++ m2).
    rewrite cons_middle, app_assoc, Hn2, Hn1, Forall_app, app_assoc. split_and!; [done|by constructor|done| |].
    all: eapply Forall_impl; [eassumption|]; intros info; apply transfer_authorization_mono; set_solver.
Qed.
Lemma transfers_apply old new_program ts ws l :
  Forall2 (transfer_msg old new_program) ts ws → foldl apply_msg l ws = l.
Proof. induction 1 as [|t w ts ws (i & a & k & c & d & b & _ & _ & _ & _ & _ & _ & ->) _ IH]; [done|]. exact IH. Qed.
Lemma verify_transfers_ok old new_program ts :
  fold_r (λ _, verify_transfer old new_program) () ts = Ok () → Forall (λ t, coin_amount (ft_funds t) ≠ 0%N) ts.
Proof.
  induction ts as [|t ts IH]; simpl; [constructor|]. intros ([] & Ht & Hts)%bind_result_ok. constructor; [|by apply IH].
  apply bind_result_ok in Ht as (u & Hz & _). destruct (coin_amount (ft_funds t) =? 0)%N eqn:He; [|by apply N.eqb_neq].
  apply bind_result_ok in Hz as (to & _ & Hz). done.
Qed.

(** C13 For every migration, every configuration of the manager and every behaviour of the
    chains: when [migrate] succeeds, the new program was deployed by [init], and the old
    program is saved last.  When the authorizations of the old program have different
    labels, it is saved unchanged but for the new authorizations behind them, each of which
    lets its owner have one account of the old program, the sender of a transfer, execute
    messages on the domain of that transfer, and is made only when the old program has none
    of its label.  The messages for the owner of the old program create these
    authorizations first, and then insert, in order, one message for each transfer: the
    bank transfer of the given amount, never zero, to the saved address of the named
    account of the new program, under the label of the account of the old program that has
    the given sender; that label has a new authorization or the one that the old program
    had under it, which is used as it is. *)
Theorem migrate_moves_funds gc self log log' r :
  migrate gc self log = (log', Ok r) →
  ∃ l1 l2 l3 old old',
    chain_program l1 (GetProgramConfig neutron_domain (pm_old_id self)) = Ok old ∧
    init gc (pm_new_program self) l2 = (l3, Ok (mr_new_config r)) ∧
    last log' = Some (UpdateProgramConfig neutron_domain old') ∧
    Forall (λ t, coin_amount (ft_funds t) ≠ 0%N) (pm_transfer_funds self) ∧
    (NoDup (labels (pc_authorizations old)) →
     ∃ new first rest ws, mr_instructions r = first :: rest ∧
       frame old' = frame old ∧ pc_authorizations old' = pc_authorizations old ++ new ∧
       NoDup (labels (pc_authorizations old')) ∧ Forall (transfer_authorization old (pm_transfer_funds self)) new ∧
       wire (authorization_addr (pc_authorization_data old)) (CreateAuthorizations new) first ∧
       Forall2 (wire (authorization_addr (pc_authorization_data old))) ws rest ∧
       Forall2 (transfer_msg old (mr_new_config r)) (pm_transfer_funds self) ws ∧
       Forall (refers (labels (pc_authorizations old'))) ws).
Proof.
  intros Hm. unfold migrate in Hm. mgr_inv. simpl in *.
  match goal with Hv : verify_config_migration _ _ = Ok _ |- _ =>
    apply bind_result_ok in Hv as ([] & _ & Hamounts%verify_transfers_ok) end.
  match goal with Hl : leave _ _ _ = Ok _ |- _ => rename Hl into Hleave end.
  apply bind_result_ok in Hleave as ([[old1 instr1] new1] & Hts & Hleave).
  apply bind_result_ok in Hleave as (first & (b & Hj%unwrap_r_ok & [= <-])%bind_result_ok & Hleave).
  apply bind_result_ok in Hleave as (pauses & _ & [= <- <- <-]).
  do 5 eexists. split_and!; [eassumption|eassumption|by rewrite last_snoc|done|].
  intros Hnd. match goal with Ht : fold_r _ (?c, [], []) _ = _ |- _ => assert (built c (c, [], []) []) as Hb0 end.
  { split; simpl; [done|constructor|constructor| |]; by rewrite app_nil_r. }
  destruct (transfers_built _ _ _ _ _ _ Hb0 Hts) as (ws & more & [Hf Hw Hr Hl Hn] & Hms & Hnew & Hmore). simpl in *. subst new1.
  rewrite (transfers_apply _ _ _ _ _ Hms) in Hl. eexists more, _, instr1, ws. split_and!; try done.
  - by rewrite Hl.
  - exists b. split; [done|]. unfold to_authorization, frame in *. congruence.
  - by rewrite Hl.
Qed.
End Update.

(** ** The authorization contract *)
Import Authorization.
Section Contract.
Context `{CPl : Platform} `{CSj : SerdeJson} `{COw : CwOwnable} `{CTf : TokenFactoryProto}.
Context `{CPe : JsonCodec ProcessorExecuteMsg} `{CPo : JsonCodec PolytoneExecuteMsg}.
Context `{CHy : JsonCodec HyperlaneExecuteMsg} `{CPc : JsonCodec AuthPolytoneCallbackMsg}.
Context `{CZk : JsonCodec ZkMessage} `{CIa : JsonCodec InternalAuthorizationMsg}.
Implicit Types (s : storage) (l : list AuthorizationInfo).

(** An authorization of the contract, and what is saved about it. *)
Definition described (info : AuthorizationInfo) (a : Authorization) : Prop :=
  label a = ai_label info ∧ subroutine a = ai_subroutine info ∧ not_before a = ai_not_before info ∧
  into_mode_validated (ai_mode info) = Some (mode a).
Record agrees l s : Prop := {
  ag_stored info : info ∈ l → ∃ a, s_authorizations s !! ai_label info = Some a ∧ described info a;
  ag_known x a : s_authorizations s !! x = Some a → x ∈ labels l;
}.
Lemma agrees_frame l s s' : s_authorizations s' = s_authorizations s → agrees l s → agrees l s'.
Proof. intros He [Hs Hk]. split; rewrite He; eauto. Qed.
Lemma into_authorization_described info block a : into_authorization info block = Some a → described info a.
Proof.
  unfold into_authorization. intros (e & _ & (m & Hm & [= <-])%bind_Some)%bind_Some. by split_and!.
Qed.
Lemma create_authorization_agrees q env info l s r s' :
  create_authorization q env info s = Ok (r, s') → ai_label info ∉ labels l → agrees l s → agrees (l ++ [info]) s'.
Proof.
  unfold create_authorization. intros Hc Hnew [Hs Hk]. auth_inv.
  match goal with Ha : into_authorization _ _ = Some _ |- _ =>
    pose proof (into_authorization_described _ _ _ Ha) as Hd; pose proof (proj1 Hd) as Hl end.
  split; simpl.
  - intros i [Hi| ->%list_elem_of_singleton]%elem_of_app; rewrite Hl.
    + rewrite lookup_insert_ne; [by apply Hs|]. intros He. apply Hnew. rewrite He. by apply list_elem_of_fmap_2.
    + rewrite lookup_insert_eq. eauto.
  - intros y b. rewrite fmap_app, elem_of_app, Hl. intros [[<- _]|[_ Hx]]%lookup_insert_Some; [right; by left|left; eauto].
Qed.
Lemma create_authorizations_agrees q env new l s (acc : list CosmosMsg) r s' :
  fold_each new acc (λ acc info, msgs ← create_authorization q env info; mret (acc ++ msgs)) s = Ok (r, s') →
  NoDup (labels (l ++ new)) → agrees l s → agrees (l ++ new) s'.
Proof.
  revert l s acc. induction new as [|info new IH]; intros l s acc; simpl.
  - intros [_ <-]%mret_ok. by rewrite app_nil_r.
  - intros (acc1 & s1 & H1 & Hn)%Exec_bind_ok Hnd Ha. rewrite cons_middle, app_assoc in *.
    apply Exec_bind_ok in H1 as (msgs & s2 & Hc & [_ <-]%mret_ok). eapply IH; [exact Hn|done|].
    eapply create_authorization_agrees; [exact Hc| |done].
    rewrite !fmap_app in Hnd. apply NoDup_app in Hnd as (Hnd & _ & _). apply NoDup_app in Hnd as (_ & Hx & _).
    intros Hin. apply (Hx _ Hin). by left.
Qed.
Lemma modify_authorization_agrees q x nb ex mc pr l s r s' :
  modify_authorization q x nb ex mc pr s = Ok (r, s') → NoDup (labels l) → agrees l s →
  agrees (alter_label x (modify_saved nb mc pr) l) s'.
Proof.
  unfold modify_authorization. intros Hm Hnd [Hs Hk]. auth_inv.
  match goal with Ha : s_authorizations _ !! x = Some ?b |- _ => rename Ha into Hx; rename b into a end. split; simpl.
  - intros i (j & Hj & ->)%(elem_of_alter_label _ _ _ _ Hnd); [|done]. destruct (Hs j Hj) as (b & Hb & Hd).
    case_bool_decide as He; [|by exists b; rewrite lookup_insert_ne].
    simpl. rewrite He, lookup_insert_eq. eexists. split; [done|]. rewrite He, Hx in Hb. injection Hb as <-.
    destruct Hd as (? & ? & Hnb & ?). split_and!; simpl; try done. by rewrite Hnb.
  - intros y b. rewrite alter_label_labels by done. intros [[<- _]|[_ Hy]]%lookup_insert_Some; eauto.
Qed.
Lemma switch_authorization_agrees x st l s u s' :
  switch_authorization x st s = Ok (u, s') → agrees l s → agrees l s'.
Proof.
  unfold switch_authorization. intros Hm [Hs Hk]. auth_case; [|by split].
  match goal with Ha : s_authorizations s !! x = Some ?b |- _ => rename Ha into Hx; rename b into a end. split; simpl.
  - intros i Hi. destruct (Hs i Hi) as (b & Hb & Hd). destruct (decide (x = ai_label i)) as [->|].
    + rewrite lookup_insert_eq. eexists. split; [done|]. rewrite Hx in Hb. by injection Hb as <-.
    + rewrite lookup_insert_ne by done. eauto.
  - intros y b [[<- _]|[_ Hy]]%lookup_insert_Some; eauto.
Qed.
Lemma execute_permissioned_agrees q env w ls l s r s' :
  execute_permissioned q env w s = Ok (r, s') → refers ls w → NoDup (labels l) → agrees l s → agrees (apply_msg l w) s'.
Proof.
  destruct w; simpl; try done; intros Hx _ Hnd Ha.
  - by eapply modify_authorization_agrees.
  - apply Exec_bind_ok in Hx as (? & ? & Hx & [_ <-]%mret_ok). by eapply switch_authorization_agrees.
  - apply Exec_bind_ok in Hx as (? & ? & Hx & [_ <-]%mret_ok). by eapply switch_authorization_agrees.
  - apply insert_messages_ok in Hx as (a & d & ad & id & m & _ & _ & _ & _ & _ & _ & _ & _ & ->).
    by apply (agrees_frame _ s).
Qed.
Context `{CAe : JsonCodec AuthorizationExecuteMsg}.
(** Messages that the contract accepted, one after the other. *)
Inductive accepted : list CosmosMsg → storage → storage → Prop :=
| accepted_nil s : accepted [] s s
| accepted_cons q env info addr b funds w r ms s s1 s2 :
    from_json b = Ok w → execute q env info w s = Ok (r, s1) → accepted ms s1 s2 →
    accepted (CosmosWasm (WasmExecute addr b funds) :: ms) s s2.
Lemma accepted_wire_inv `{!JsonCodecLaws AuthorizationExecuteMsg} addr w m ms s s' :
  wire addr w m → accepted (m :: ms) s s' →
  ∃ q env r s1, execute_permissioned q env w s = Ok (r, s1) ∧ accepted ms s1 s'.
Proof.
  intros (b & Hb & ->) Ha. inversion Ha as [|q env info a b' f w' r ms' s1 s2 s3 Hw Hx Hrest]; subst.
  rewrite (from_to_json _ _ Hb) in Hw. injection Hw as <-. simpl in Hx.
  apply Exec_bind_ok in Hx as (u & s4 & Ho & Hx). pose proof (read_only _ _ _ Ho) as ->.
  by exists q, env, r, s2.
Qed.
Lemma accepted_all `{!JsonCodecLaws AuthorizationExecuteMsg} addr ls ws ms l s s' :
  Forall2 (wire addr) ws ms → Forall (refers ls) ws → NoDup (labels l) → agrees l s → accepted ms s s' →
  agrees (foldl apply_msg l ws) s'.
Proof.
  intros Hw. revert l s. induction Hw as [|w m ws ms Hw _ IH]; intros l s Hr Hnd Ha Hacc; simpl.
  - by inversion Hacc; subst.
  - apply Forall_cons in Hr as [Hrw Hr]. destruct (accepted_wire_inv _ _ _ _ _ _ Hw Hacc) as (q & env & r & s1 & Hx & Hms).
    eapply IH; [done|by rewrite apply_msg_labels| |exact Hms]. by eapply execute_permissioned_agrees.
Qed.
Context `{CosmMath} `{HashOrder} `{LibrarySerde} `{UpdateSerde} `{AhoCorasick} `{Chains} `{ManagerOrder}.
Context `{CwDenom} `{JsonCodec OwnableAction} `{JsonCodec AccountExecuteMsg}.
Lemma change_agrees `{!JsonCodecLaws AuthorizationExecuteMsg} self config config' msgs s s' :
  pu_owner self = None → NoDup (labels (pc_authorizations config)) → change self config = Ok (config', msgs) →
  agrees (pc_authorizations config) s → accepted msgs s s' →
  agrees (pc_authorizations config') s' ∧ NoDup (labels (pc_authorizations config')).
Proof.
  intros Ho Hnd Hc Ha Hacc.
  destruct (change_built _ _ _ _ Ho Hnd Hc) as (new & first & rest & ws & -> & [Hf Hw Hr Hl Hn] & Hfirst & _).
  destruct (accepted_wire_inv _ _ _ _ _ _ Hfirst Hacc) as (q & env & r & s1 & Hx & Hms). simpl in *.
  apply Exec_bind_ok in Hx as (tm & s2 & Hx & [_ <-]%mret_ok).
  eapply create_authorizations_agrees in Hx; [|exact Hn|exact Ha].
  rewrite Hl. split; [by eapply accepted_all|]. by rewrite apply_msgs_labels.
Qed.
(** What [update] asks the chains. *)
Lemma update_run self log log' msgs :
  update self log = (log', Ok msgs) →
  ∃ calls config config', pu_id self ≠ 0%N ∧
    chain_program calls (GetProgramConfig neutron_domain (pu_id self)) = Ok config ∧
    change self config = Ok (config', msgs) ∧
    log' = calls ++ [GetProgramConfig neutron_domain (pu_id self); UpdateProgramConfig neutron_domain config'].
Proof.
  intros Hu. unfold update in Hu. mgr_inv. destruct (pu_id self =? 0)%N eqn:Hid; [done|]. apply N.eqb_neq in Hid.
  do 3 eexists. split_and!; [done|eassumption|eassumption|]. by rewrite <- app_assoc.
Qed.

(** C12 For every update that keeps the owner of a program whose authorizations have different
    labels, and every behaviour of the chains: when [update] succeeds, the program that it
    saved last is the old one but for the authorizations, which are the old ones, then one
    of the owner for each updated library that had none, then the added ones, in order, each
    as it was unless the update modifies its label, and then with the start (if one is
    named), the concurrency and the priority of that modification.  For every state of the
    authorization contract that agrees with the old program, when the contract accepts the
    messages that [update] returned, in order, it agrees with the program that was saved: it
    has the same labels, and under each of them the subroutine, the mode and the start that
    are saved. *)
Theorem update_agrees_with_contract `{!JsonCodecLaws AuthorizationExecuteMsg} self log log' msgs :
  update self log = (log', Ok msgs) → pu_owner self = None →
  ∃ calls config config',
    chain_program calls (GetProgramConfig neutron_domain (pu_id self)) = Ok config ∧
    log' = calls ++ [GetProgramConfig neutron_domain (pu_id self); UpdateProgramConfig neutron_domain config'] ∧
    (NoDup (labels (pc_authorizations config)) →
     frame config' = frame config ∧
     pc_authorizations config' = modified (pu_authorizations self) <$>
       (pc_authorizations config ++ omap (library_authorization config) (ids (pu_libraries self)).*1 ++
        omap added_by (pu_authorizations self)) ∧
     ∀ s s', agrees (pc_authorizations config) s → accepted msgs s s' →
       agrees (pc_authorizations config') s' ∧ NoDup (labels (pc_authorizations config'))).
Proof.
  intros (calls & config & config' & Hid & Hp & Hc & Hlog)%update_run Ho. exists calls, config, config'. split_and!; [done..|].
  intros Hnd. split_and!; [|by eapply change_exact|intros s s'; by apply (change_agrees self)].
  destruct (change_built _ _ _ _ Ho Hnd Hc) as (new & first & rest & ws & -> & [Hf _ _ _ _] & _). exact Hf.
Qed.

(** ** Libraries on other domains *)
Lemma create_authorizations_valid q env new s (acc : list CosmosMsg) r s' info :
  fold_each new acc (λ acc info, msgs ← create_authorization q env info; mret (acc ++ msgs)) s = Ok (r, s') →
  info ∈ new → ∃ a, described info a ∧ valid_authorization (s_external_domains s) a.
Proof.
  revert s acc. induction new as [|i new IH]; intros s acc; simpl; [by intros _ ?%not_elem_of_nil|].
  intros (acc1 & s1 & (ms & s2 & Hc & [_ <-]%mret_ok)%Exec_bind_ok & Hn)%Exec_bind_ok Hin.
  unfold create_authorization in Hc. auth_inv.
  match goal with Hv : validate _ _ _ = _, Ha : into_authorization _ _ = Some ?b |- _ =>
    apply validate_ok in Hv; apply into_authorization_described in Ha; rename b into a end.
  apply elem_of_cons in Hin as [->|Hin]; [by exists a|]. by apply IH in Hn.
Qed.
Lemma owner_authorization_domain info a domains lbl owner d addr f :
  described info a → info = owner_authorization lbl owner d addr f → valid_authorization domains a →
  domain_accepts domains d TyCosmwasmExecuteMsg.
Proof.
  intros (_ & Hs & _) -> [_ (d' & Hd & Hf) _]. unfold authorization_domain, sub_functions in *. rewrite Hs in *.
  simpl in *. apply Forall_cons in Hf as [(He & Ha & _) _]. simpl in *. by rewrite He.
Qed.
Lemma domain_text_not_plain d : ¬ plain (Domain_to_string d).
Proof. destruct d as [name]. intros Hp. by apply (Hp "CosmosCosmwasm" name). Qed.

(** For every update that touches a library on another domain for the first time, and
    every state of the authorization contract whose external domains are named, as [init]
    names them, by their chain: the contract does not accept the messages that [update]
    returns, because the new authorization is for a domain that has no such name. *)
Theorem update_elsewhere_refused `{!JsonCodecLaws AuthorizationExecuteMsg} self config config' msgs id u lib s s' :
  change self config = Ok (config', msgs) → pu_owner self = None → NoDup (labels (pc_authorizations config)) →
  pu_libraries self !! id = Some u → pc_libraries config !! id = Some lib → li_domain lib ≠ neutron_domain →
  update_label id ∉ labels (pc_authorizations config) →
  (∀ n, is_Some (s_external_domains s !! n) → plain n) → ¬ accepted msgs s s'.
Proof.
  intros Hc Ho Hnd Hu Hlib Hdom Hnew Hplain Hacc.
  destruct (change_built _ _ _ _ Ho Hnd Hc) as (new & first & rest & ws & -> & Hb & Hfirst & libs & more & -> & Hmade & Hall).
  destruct (accepted_wire_inv _ _ _ _ _ _ Hfirst Hacc) as (q & env & r & s1 & Hx & _). simpl in Hx.
  apply Exec_bind_ok in Hx as (tm & s2 & Hx & _).
  assert (∃ owner addr, owner_authorization (update_label id) owner
            (domain_for_authorization (li_domain lib)) addr "update_config" ∈ libs ++ more) as (owner & addr & Hin).
  { pose proof (Hall id u Hu) as Hin. rewrite fmap_app, elem_of_app in Hin. destruct Hin as [|Hin]; [done|].
    apply list_elem_of_fmap in Hin as (info & Hl & Hin). rewrite Forall_forall in Hmade.
    destruct (Hmade _ Hin) as (j & lib' & owner & addr & Hj & ->). simpl in Hl.
    apply (inj (String.append "update_library_")), (inj pretty) in Hl as <-. rewrite Hlib in Hj. injection Hj as <-.
    exists owner, addr. apply elem_of_app. by left. }
  destruct (create_authorizations_valid _ _ _ _ _ _ _ _ Hx Hin) as (a & Hd & Hv).
  pose proof (owner_authorization_domain _ _ _ _ _ _ _ _ Hd eq_refl Hv) as Hacc'.
  unfold domain_for_authorization in Hacc'. rewrite bool_decide_eq_false_2 in Hacc' by done.
  destruct Hacc' as (ed & Hed & _). eapply domain_text_not_plain, Hplain. by exists ed.
Qed.
End Contract.

(** ** A deployed program, and changes of it *)
From Stdlib Require Import Strings.Byte.
From S2P Require Import Codec LibraryCodec Forwarder Samples.
#[local] Instance ref_no_codec A : JsonCodec A | 100 := {
  to_json_binary _ := Ok [];
  from_json _ := Err (GenericErr "unsupported");
}.
(** The texts of messages, which are left unevaluated. *)
Definition message_text (w : AuthorizationExecuteMsg) : Binary := bits_of_positive (encode w).
Definition account_text (w : AccountExecuteMsg) : Binary := bits_of_positive (encode w).
#[local] Instance ref_message_codec : JsonCodec AuthorizationExecuteMsg := {
  to_json_binary w := Ok (message_text w);
  from_json := from_json (JsonCodec:=ref_codec);
}.
#[local] Instance ref_message_codec_laws : JsonCodecLaws AuthorizationExecuteMsg.
Proof. split; [by eexists|]. intros w b [= <-]. by apply (from_to_json (A:=AuthorizationExecuteMsg) (H:=ref_codec)). Qed.
#[local] Instance ref_account_codec : JsonCodec AccountExecuteMsg := {
  to_json_binary w := Ok (account_text w);
  from_json := from_json (JsonCodec:=ref_codec);
}.
#[local] Instance ref_update_serde : UpdateSerde. Proof. split; apply _. Defined.
#[local] Existing Instances ref_library_serde ref_aho_corasick ref_manager_order.
Definition old_account : AccountInfo :=
  mkAccountInfo "input" (AccAddr "neutron1old") neutron_domain (Some "neutron1old").
Definition old_library : LibraryInfo := mkLibraryInfo "forwarder" osmosis (li_config ref_library) (Some "osmo1forwarder").
Definition old_program : ProgramConfig :=
  mkProgramConfig 5 "program" "owner" ∅ {[ 1%N := old_account ]} {[ 7%N := old_library ]}
    [sample_swap DomainMain TyCosmwasmExecuteMsg]
    (set_processor_addr neutron_domain "processor" (set_authorization_addr "contract" AuthorizationData_default)).
#[local] Instance ref_old_chains : Chains := {
  chain_done _ _ := Ok ();
  chain_address _ c := Ok (match c with GetAddress _ _ _ extra => "neutron1" +:+ extra | _ => "neutron1" end, []);
  chain_bridge_address _ _ := Ok "proxy";
  chain_program_id _ _ := Ok 6%N;
  chain_registry _ _ := Err (CosmosCosmwasmErr (CwError "not found"));
  chain_program _ _ := Ok old_program;
  chain_api _ := ref_platform;
}.
Definition swap_update : ProgramConfigUpdate :=
  mkProgramConfigUpdate 5 None ∅ [Modify "swap" (Some (AtHeight 9)) None (Some 2%N) (Some High); Disable "swap"].
Definition swap_msgs : list CosmosMsg := match (update swap_update []).2 with Ok m => m | _ => [] end.
Definition swap_log : list Call := (update swap_update []).1.
Lemma swap_run : update swap_update [] = (swap_log, Ok swap_msgs).
Proof. vm_compute. reflexivity. Qed.
Definition swap_state : storage := sample_s2 DomainMain TyCosmwasmExecuteMsg.
Definition owner_sends (height : N) (w : PermissionedMsg) (s : storage) : storage :=
  after (execute sample_q (sample_env height) sample_owner (PermissionedAction w)) s.
Definition swap_after : storage :=
  owner_sends 7 (DisableAuthorization "swap")
    (owner_sends 6 (ModifyAuthorization "swap" (Some (AtHeight 9)) None (Some 2%N) (Some High))
      (owner_sends 5 (CreateAuthorizations []) swap_state)).
Definition sent (w : PermissionedMsg) : CosmosMsg :=
  CosmosWasm (WasmExecute "contract" (message_text (PermissionedAction w)) []).
Lemma accepted_send w ms height s s' :
  succeeds (execute sample_q (sample_env height) sample_owner (PermissionedAction w)) s = true →
  accepted ms (owner_sends height w s) s' → accepted (sent w :: ms) s s'.
Proof. intros [r Hr]%after_ok Hms. econstructor; [by apply from_to_json|exact Hr|exact Hms]. Qed.
Lemma swap_accepted : accepted swap_msgs swap_state swap_after.
Proof.
  replace swap_msgs with [sent (CreateAuthorizations []);
    sent (ModifyAuthorization "swap" (Some (AtHeight 9)) None (Some 2%N) (Some High));
    sent (DisableAuthorization "swap")] by (vm_compute; reflexivity).
  apply (accepted_send _ _ 5); [vm_compute; reflexivity|]. apply (accepted_send _ _ 6); [vm_compute; reflexivity|].
  apply (accepted_send _ _ 7); [vm_compute; reflexivity|]. constructor.
Qed.
Lemma swap_agrees : agrees (pc_authorizations old_program) swap_state.
Proof.
  split.
  - intros info ->%list_elem_of_singleton. eexists. split; [vm_compute; reflexivity|]. vm_compute. done.
  - intros x a Hx. assert (s_authorizations swap_state = {[ "swap" := default (mkAuthorization "" Permissionless Never Never 0
      (Atomic (mkAtomicSubroutine [] None None)) Medium Enabled) (s_authorizations swap_state !! "swap") ]}) as He
      by (vm_compute; reflexivity).
    rewrite He in Hx. apply lookup_singleton_Some in Hx as [<- _]. by left.
Qed.
(** A modified and disabled authorization. *)
Lemma update_agrees_with_contract_witness :
  ∃ config', last swap_log = Some (UpdateProgramConfig neutron_domain config') ∧
    agrees (pc_authorizations config') swap_after ∧
    ai_max_concurrent_executions <$> pc_authorizations config' = [Some 2%N].
Proof.
  destruct (update_agrees_with_contract swap_update [] swap_log swap_msgs swap_run eq_refl)
    as (calls & config & config' & Hp & Hlog & Hrest). injection Hp as <-. exists config'. split.
  - rewrite Hlog. by rewrite last_app.
  - destruct Hrest as (_ & Hl & Hrest); [apply NoDup_singleton|]. split; [|by rewrite Hl].
    apply (Hrest swap_state swap_after swap_agrees swap_accepted).
Defined.
Definition forwarder_update : ProgramConfigUpdate :=
  mkProgramConfigUpdate 5 None {[ 7%N := ForwarderUpdate (Forwarder.mkLibraryConfigUpdate None None None None) ]} [].
Definition forwarder_change : result ManagerError (ProgramConfig * list CosmosMsg) := change forwarder_update old_program.
Definition forwarder_changed : ProgramConfig * list CosmosMsg :=
  match forwarder_change with Ok c => c | _ => (old_program, []) end.
Lemma forwarder_change_ok : forwarder_change = Ok forwarder_changed.
Proof. lazy -[message_text account_text]. reflexivity. Qed.
(** The forwarder is on another chain, and the contract knows its domains by their names. *)
Lemma update_elsewhere_refused_witness :
  length forwarder_changed.2 = 2 ∧ ∀ s', ¬ accepted forwarder_changed.2 sample_s1 s'.
Proof.
  split; [lazy -[message_text account_text]; reflexivity|]. intros s'.
  apply (update_elsewhere_refused forwarder_update old_program forwarder_changed.1 forwarder_changed.2 7
    (ForwarderUpdate (Forwarder.mkLibraryConfigUpdate None None None None)) old_library).
  - rewrite <- surjective_pairing. exact forwarder_change_ok.
  - done.
  - apply NoDup_singleton.
  - vm_compute. reflexivity.
  - vm_compute. reflexivity.
  - done.
  - vm_compute. by intros ?%list_elem_of_singleton.
  - intros n [d Hd%elem_of_map_to_list]. apply (list_elem_of_fmap_2 fst) in Hd.
    assert ((map_to_list (s_external_domains sample_s1)).*1 = ["ethereum"; "juno"]) as He by (vm_compute; reflexivity).
    rewrite He in Hd. simpl in Hd.
    apply elem_of_cons in Hd as [->| ->%list_elem_of_singleton]; intros a b; do 9 (destruct a as [|? a]; [done|]); done.
Defined.
(** The program of the reference on the main domain only, and the move of funds there. *)
Definition main_function : AtomicFunction :=
  mkAtomicFunction DomainMain (af_message_details ref_function) (LibLibraryId 7).
Definition main_program : ProgramConfig :=
  mkProgramConfig 0 "program" "neutron1owner" {[ 0%N := ref_link ]}
    {[ 1%N := mkAccountInfo "input" (Base None) neutron_domain None;
       2%N := mkAccountInfo "output" (Base None) neutron_domain None ]}
    {[ 7%N := mkLibraryInfo "forwarder" neutron_domain (li_config ref_library) None ]}
    [mkAuthorizationInfo "forward" PermissionlessInfo Never Forever None
       (Atomic (mkAtomicSubroutine [main_function] None None)) None] AuthorizationData_default.
Definition main_transfer : FundsTransfer :=
  mkFundsTransfer "neutron1old" (LibAccountId 1) neutron_domain (mkCoin "untrn" 40).
Definition ref_migration : ProgramConfigMigrate := mkProgramConfigMigrate 5 main_program [main_transfer].
Section Texts.
Context (text : AuthorizationExecuteMsg → Binary) (account : AccountExecuteMsg → Binary).
#[local] Instance text_codec : JsonCodec AuthorizationExecuteMsg :=
  { to_json_binary w := Ok (text w); from_json := from_json (JsonCodec:=ref_codec) }.
#[local] Instance account_codec : JsonCodec AccountExecuteMsg :=
  { to_json_binary w := Ok (account w); from_json := from_json (JsonCodec:=ref_codec) }.
Definition migration_run : list Call * result ManagerError MigrateResponse := migrate ref_global ref_migration [].
Definition migrated : MigrateResponse :=
  match migration_run.2 with Ok r => r | _ => mkMigrateResponse [] [] main_program end.
Lemma migration_run_ok : migration_run = (migration_run.1, Ok migrated) ∧ length (mr_instructions migrated) = 2.
Proof. vm_compute. done. Qed.
End Texts.
(** One transfer on the main domain, from the account of the old program, with an
    authorization made for it. *)
Lemma migrate_moves_funds_witness :
  let r := migrated message_text account_text in
  length (mr_instructions r) = 2 ∧
  ∃ new first rest ws, mr_instructions r = first :: rest ∧ Forall2 (wire "contract") ws rest ∧
    wire "contract" (CreateAuthorizations new) first ∧ Forall (transfer_authorization old_program [main_transfer]) new ∧
    Forall2 (transfer_msg old_program (mr_new_config r)) [main_transfer] ws.
Proof.
  intros r. destruct (migration_run_ok message_text account_text) as [Hrun Hlen]. split; [exact Hlen|].
  destruct (migrate_moves_funds ref_global ref_migration [] _ r Hrun)
    as (l1 & l2 & l3 & old & old' & Hold & _ & _ & _ & Hrest). injection Hold as <-.
  destruct Hrest as (new & first & rest & ws & Hi & _ & _ & _ & Hnew & Hfirst & Hws & Hts & _); [apply NoDup_singleton|].
  exists new, first, rest, ws. exact (conj Hi (conj Hws (conj Hfirst (conj Hnew Hts)))).
Defined.
