(* ===== verification/MainLedger.v ===== *)
(** * Authorization: the executions on the main domain

    What the authorization contract keeps about the executions it sent to the
    processor of its own chain, and which messages it sends to that processor. *)
From S2P Require Import Prelude Platform Types AuthorizationUtils Authorization AuthorizationFacts AuthorizationInvariants.
From S2P Require Import Processor ProcessorLifecycle ProcessorReports.
Import Authorization.

(** The results of the executions on the main domain. *)
Definition main_result (cb : ProcessorCallbackInfo) : option ExecutionResult :=
  match cb_domain cb with DomainMain => Some (cb_execution_result cb) | DomainExternal _ => None end.
Definition main_results (s : storage) : gmap N ExecutionResult :=
  omap main_result (s_processor_callbacks s).

(** The message is for neither of the two contracts of the main domain. *)
Definition away (auth proc : Addr) (m : CosmosMsg) : Prop :=
  match m with
  | CosmosWasm (WasmExecute addr _ _) => addr ≠ auth ∧ addr ≠ proc
  | _ => True
  end.
(** No bridge of an external domain is one of the two contracts. *)
Definition separate (auth proc : Addr) (s : storage) : Prop :=
  ∀ name d, s_external_domains s !! name = Some d →
    get_connector_address (execution_environment d) ≠ auth ∧
    get_connector_address (execution_environment d) ≠ proc.

(** The record of an execution belongs to an authorization; on the main domain only
    the processor may report, no bridge is involved, and the result is open or final. *)
Definition fits (proc : Addr) (s : storage) (cb : ProcessorCallbackInfo) : Prop :=
  is_Some (mode_of s (cb_label cb)) ∧
  (cb_domain cb = DomainMain →
     cb_processor_callback_address cb = proc ∧ cb_bridge_callback_address cb = None ∧
     (cb_execution_result cb = InProcess ∨ final (cb_execution_result cb) = true)).
(** What the contract knows of its main domain: the processor, counters that agree
    with the executions, and records that fit. *)
Record ledger (auth proc : Addr) (s : storage) : Prop := {
  lg_processor : s_processor_on_main_domain s = Some proc;
  lg_accounted : accounted s;
  lg_fits id cb : s_processor_callbacks s !! id = Some cb → fits proc s cb;
  lg_separate : separate auth proc s;
}.

Section MainResults.
Implicit Types s : storage.
Lemma main_results_lookup s id :
  main_results s !! id = s_processor_callbacks s !! id ≫= main_result.
Proof. apply lookup_omap. Qed.
Lemma main_results_same s s' :
  s_processor_callbacks s' = s_processor_callbacks s → main_results s' = main_results s.
Proof. unfold main_results. by intros ->. Qed.
Lemma main_results_put s s' id cb r :
  s_processor_callbacks s' = <[id := cb]> (s_processor_callbacks s) → main_result cb = Some r →
  main_results s' = <[id := r]> (main_results s).
Proof. unfold main_results. intros -> Hr. by rewrite (omap_insert_Some _ _ _ _ r). Qed.
Lemma main_results_other s s' id cb :
  s_processor_callbacks s' = <[id := cb]> (s_processor_callbacks s) → main_result cb = None →
  main_results s !! id = None → main_results s' = main_results s.
Proof.
  unfold main_results. intros -> Hr Hn. rewrite omap_insert_None by done. by apply delete_id.
Qed.
Lemma main_results_fresh s id :
  accounted s → s_execution_id s = Some id → s_processor_callbacks s !! id = None.
Proof.
  intros [_ (n & Hn & Hlt)] Hid. destruct (s_processor_callbacks s !! id) as [cb|] eqn:Hcb; [|done].
  apply Hlt in Hcb. simplify_eq. lia.
Qed.
End MainResults.

(** ** What never changes *)
(** The processor of the main domain is kept, and so are the labels. *)
Definition labels_le (s s' : storage) : Prop :=
  s_processor_on_main_domain s' = s_processor_on_main_domain s ∧
  ∀ l, is_Some (mode_of s l) → is_Some (mode_of s' l).
#[global] Instance labels_le_preorder : PreOrder labels_le.
Proof.
  split; [by split|]. intros s1 s2 s3 [H1 H2] [H3 H4]. split; [congruence|auto].
Qed.
Definition labels (s : storage) :=
  (s_processor_on_main_domain s, s_authorizations s, s_zk_authorizations s).
Lemma labels_frame s s' : labels s' = labels s → labels_le s s'.
Proof. unfold labels. intros [= Hp Ha Hz]. split; [done|]. unfold mode_of. by rewrite Ha, Hz. Qed.
Lemma labels_save_authorization l a s :
  labels_le s (lset AUTHORIZATIONS (<[l := a]> (s_authorizations s)) s).
Proof.
  split; [done|]. intros l'. unfold mode_of. simpl. rewrite lookup_insert.
  case_decide; [by eexists|done].
Qed.
Lemma labels_save_zk l a s :
  labels_le s (lset ZK_AUTHORIZATIONS (<[l := a]> (s_zk_authorizations s)) s).
Proof.
  split; [done|]. intros l'. unfold mode_of. simpl. case_match; [done|]. rewrite lookup_insert.
  case_decide; [by eexists|done].
Qed.

Create HintDb labels.
Section Growth.
Context `{CPl : Platform} `{CSj : SerdeJson} `{COw : CwOwnable} `{CTf : TokenFactoryProto}.
Context `{CPe : JsonCodec ProcessorExecuteMsg} `{CPo : JsonCodec PolytoneExecuteMsg}.
Context `{CHy : JsonCodec HyperlaneExecuteMsg} `{CPc : JsonCodec AuthPolytoneCallbackMsg}.
Context `{CZk : JsonCodec ZkMessage} `{CIa : JsonCodec InternalAuthorizationMsg}.
Implicit Types s : storage.
#[local] Hint Extern 1 (labels_le _ _) =>
  first [by apply labels_frame | exact (labels_save_authorization _ _ _)
        | exact (labels_save_zk _ _ _)] : labels.

Lemma fold_each_labels {A B} (l : list A) (acc : B)
    (body : B → A → Exec storage ContractError B) s r s' :
  (∀ acc x s r s', body acc x s = Ok (r, s') → labels_le s s') →
  fold_each l acc body s = Ok (r, s') → labels_le s s'.
Proof.
  intros Hb Hf. eapply (fold_each_invariant (labels_le s)); [|reflexivity|exact Hf].
  intros acc' x s1 r1 s2 H1 H2%Hb. by etrans.
Qed.
Lemma permissioned_labels q env msg s r s' :
  execute_permissioned q env msg s = Ok (r, s') → labels_le s s'.
Proof.
  intros Hrun. destruct msg; simpl in Hrun.
  1: unfold add_external_domains in Hrun.
  2: unfold create_authorizations in Hrun.
  3: unfold create_zk_authorizations in Hrun.
  1-3: auth_inv; eapply fold_each_labels; [|done]; intros acc d s1 r1 s2 Hb; simpl in Hb;
    unfold add_external_domain, create_authorization, create_zk_authorization in Hb;
    auth_case; auto with labels.
  all: try (apply insert_messages_ok in Hrun as
    (a & d & ad & id & m & _ & _ & _ & _ & _ & _ & _ & _ & ->); auto with labels).
  all: unfold modify_authorization, modify_zk_authorization, disable_authorization,
    enable_authorization, switch_authorization, set_verification_router,
    update_zk_authorization_route in *; auth_case; auto with labels.
Qed.
Lemma execute_labels q env info msg s r s' :
  execute q env info msg s = Ok (r, s') → labels_le s s'.
Proof.
  intros Hrun. destruct msg as [act|om|pm|pm|[id res]|cm|hm]; simpl in Hrun.
  - unfold update_ownership in Hrun. auth_case; auto with labels.
  - auth_inv. destruct om; unfold add_sub_owner, remove_sub_owner in *; auth_inv; auto with labels.
  - auth_inv. by eapply permissioned_labels.
  - destruct pm; simpl in Hrun.
    + apply send_msgs_ok in Hrun as (a & d & ad & id & m & _ & _ & _ & _ & _ & _ & _ & _ & _ & ->).
      auto with labels.
    + apply retry_msgs_ok in Hrun as (cb & _ & _ & a & _ & Hs). repeat case_match;
        first [destruct Hs as [-> _]|destruct Hs as (_ & _ & -> & _)]; auto with labels.
    + unfold retry_bridge_creation in Hrun. auth_case; auto with labels.
    + apply execute_zk_authorization_ok in Hrun as
        (a & ? & zm & m & _ & _ & _ & _ & _ & _ & _ & _ & _ & _ & _ & _ & Hs).
      pose proof (record_block_frame a (zm_block_number zm) s) as (_ & ? & _ & _ & _ & ? & ?).
      apply labels_frame. unfold labels. cbv zeta in Hs. destruct (zk_batch_msgs (zm_message zm));
        [destruct Hs as (? & ? & _ & _ & _ & _ & ->)|rewrite Hs]; simpl; congruence.
  - apply process_processor_callback_ok in Hrun as (? & ? & ? & _ & _ & _ & -> & _). auto with labels.
  - unfold process_polytone_callback in Hrun. auth_inv. case_match.
    + match goal with H : polytone_execution_callback _ _ _ _ _ = _ |- _ =>
        apply polytone_execution_callback_ok in H as (cb & _ & _ & [[-> _]|(? & _ & -> & _)]) end;
        auto with labels.
    + unfold polytone_proxy_callback in *. auth_case; auto with labels.
  - apply process_hyperlane_callback_ok in Hrun as (? & ? & ? & ? & ? & _ & _ & _ & _ & _ & -> & _).
    auto with labels.
Qed.
(** A transaction uses at most one execution id. *)
Lemma start_next id cb s j :
  s_execution_id s = Some j → (j < u64_max)%N → s_execution_id s = Some id →
  ∃ j', s_execution_id (start id cb s) = Some j' ∧ (j' ≤ j + 1)%N.
Proof.
  intros Hj Hlt Hid. simplify_eq. eexists. split; [done|]. unfold wrapping_add.
  by rewrite N.mod_small by lia.
Qed.
Lemma execute_next q env info msg s r s' j :
  execute q env info msg s = Ok (r, s') → s_execution_id s = Some j → (j < u64_max)%N →
  ∃ j', s_execution_id s' = Some j' ∧ (j' ≤ j + 1)%N.
Proof.
  intros Hrun Hj Hlt.
  assert (s_execution_id s' = s_execution_id s → ∃ j', s_execution_id s' = Some j' ∧ (j' ≤ j + 1)%N)
    as Hsame by (intros ->; exists j; split; [done|lia]).
  destruct msg as [act|om|pm|pm|[id res]|cm|hm]; simpl in Hrun.
  - apply Hsame. unfold update_ownership in Hrun. by auth_case.
  - apply Hsame. auth_inv. destruct om; unfold add_sub_owner, remove_sub_owner in *; by auth_inv.
  - auth_inv. destruct pm; try (apply Hsame;
      apply permissioned_counters in Hrun as [= _ _ ?]; [done|naive_solver]).
    apply insert_messages_ok in Hrun as (a & d & ad & id & m & _ & _ & _ & _ & ? & _ & _ & _ & ->).
    by apply start_next.
  - destruct pm; simpl in Hrun.
    + apply send_msgs_ok in Hrun as (a & d & ad & id & m & _ & _ & _ & _ & _ & ? & _ & _ & _ & ->).
      by apply start_next.
    + apply Hsame. apply retry_msgs_ok in Hrun as (cb & _ & _ & a & _ & Hs). repeat case_match;
        first [by destruct Hs as [-> _]|by destruct Hs as (_ & _ & -> & _)].
    + apply Hsame. unfold retry_bridge_creation in Hrun. by auth_case.
    + apply execute_zk_authorization_ok in Hrun as
        (a & ? & zm & m & _ & _ & _ & _ & _ & _ & _ & _ & _ & _ & _ & _ & Hs).
      pose proof (record_block_frame a (zm_block_number zm) s) as (_ & _ & _ & Hid & _).
      cbv zeta in Hs. destruct (zk_batch_msgs (zm_message zm)); [|apply Hsame; by rewrite Hs].
      destruct Hs as (id & ad & ? & _ & _ & _ & ->). apply start_next; congruence.
  - apply Hsame. by apply process_processor_callback_ok in Hrun as (? & ? & ? & _ & _ & _ & -> & _).
  - apply Hsame. unfold process_polytone_callback in Hrun. auth_inv. case_match.
    + match goal with H : polytone_execution_callback _ _ _ _ _ = _ |- _ =>
        by apply polytone_execution_callback_ok in H as (cb & _ & _ & [[-> _]|(? & _ & -> & _)]) end.
    + unfold polytone_proxy_callback in *. by auth_case.
  - apply Hsame. by apply process_hyperlane_callback_ok in Hrun as
      (? & ? & ? & ? & ? & _ & _ & _ & _ & _ & -> & _).
Qed.
End Growth.

(** ** The messages that leave *)
Section Messages.
Context `{CPl : Platform} `{CSj : SerdeJson} `{COw : CwOwnable} `{CTf : TokenFactoryProto}.
Context `{CPe : JsonCodec ProcessorExecuteMsg} `{CPo : JsonCodec PolytoneExecuteMsg}.
Context `{CHy : JsonCodec HyperlaneExecuteMsg} `{CPc : JsonCodec AuthPolytoneCallbackMsg}.
Context `{CZk : JsonCodec ZkMessage} `{CIa : JsonCodec InternalAuthorizationMsg}.
Context (auth proc : Addr).
Implicit Types s : storage.

(** What a transaction sends to the processor of the main domain: nothing; or one
    command that hands over no batch, and the executions stay as they are; or one
    batch, under an id that is new, and the execution is recorded as open. *)
Inductive sends s (msgs : list CosmosMsg) s' : Prop :=
| sends_away :
    Forall (away auth proc) msgs → main_results s' = main_results s → sends s msgs s'
| sends_command cmd body :
    to_json_binary (AuthorizationModuleAction cmd) = Ok body →
    msgs = [CosmosWasm (WasmExecute proc body [])] →
    accepted (AuthorizationModuleAction cmd) = [] →
    main_results s' = main_results s → sends s msgs s'
| sends_batch cmd body id :
    to_json_binary (AuthorizationModuleAction cmd) = Ok body →
    msgs = [CosmosWasm (WasmExecute proc body [])] →
    accepted (AuthorizationModuleAction cmd) = [id] → main_results s !! id = None →
    main_results s' = <[id := InProcess]> (main_results s) → sends s msgs s'.

(** A message for the processor of a domain goes to it or to the bridge. *)
Definition bound_for s (d : Domain) (bytes : Binary) (m : CosmosMsg) : Prop :=
  match d with
  | DomainMain => m = CosmosWasm (WasmExecute proc bytes [])
  | DomainExternal _ => away auth proc m
  end.
Lemma create_msg_bound bytes d cr s m s' :
  s_processor_on_main_domain s = Some proc → separate auth proc s →
  create_msg_for_processor bytes d cr s = Ok (m, s') → bound_for s d bytes m.
Proof.
  intros Hp Hsep Hm. unfold create_msg_for_processor, create_msg_for_main_domain in Hm.
  destruct d as [|name]; auth_inv; [done|].
  rename select (_ !! name = Some _) into Hd. pose proof (Hsep _ _ Hd) as Hne. simpl.
  destruct (execution_environment _) as [[c]|e [c]]; auth_inv; simpl in Hne;
    unfold create_msg_for_polytone, create_msg_for_hyperlane in *;
    repeat match goal with H : mbind _ _ = Ok _ |- _ => apply bind_result_ok in H as (? & ? & H) end;
    match goal with H : mret _ = Ok _ |- _ => by injection H as <- end.
Qed.
Lemma dispatched_bound q env s d id cmd enc m :
  s_processor_on_main_domain s = Some proc → separate auth proc s →
  dispatched q env s d id cmd enc m →
  match d with
  | DomainMain => ∃ body, to_json_binary (AuthorizationModuleAction cmd) = Ok body ∧
                          m = CosmosWasm (WasmExecute proc body [])
  | DomainExternal _ => away auth proc m
  end.
Proof.
  intros Hp Hsep Hd. destruct d as [|name]; simpl in Hd.
  - destruct Hd as (p & body & Hp' & Hb & ->). simplify_eq. eauto.
  - destruct Hd as (d & Hd & Hm). pose proof (Hsep _ _ Hd) as Hne.
    destruct (execution_environment d) as [[c]|e [c]]; simpl in Hne.
    + by destruct Hm as (? & ? & ? & _ & _ & _ & ->).
    + by destruct Hm as (? & ? & ? & ? & _ & _ & _ & _ & ->).
Qed.

Lemma permission_msgs_away env l m s ms s' :
  permission_msgs env l m s = Ok (ms, s') → Forall (away auth proc) ms.
Proof.
  unfold permission_msgs, create_denom_msg, mint_msg. intros Hrun.
  destruct m as [[ps|ps]|]; auth_inv; [| |done].
  all: match goal with H : fold_each _ _ _ _ = _ |- _ =>
    apply (fold_each_rule (λ ms _, Forall (away auth proc) ms)) in H; [done| |] end.
  all: try match goal with H : _ <$> _ = Some _ |- _ =>
    apply fmap_Some in H as (? & _ & ->) end; try (by repeat constructor).
  all: intros acc x s1 r s2 Hacc Hb; simpl in Hb; auth_inv;
    match goal with H : CosmosStargate _ <$> _ = Some _ |- _ => apply fmap_Some in H as (? & _ & ->) end;
    apply Forall_app; by split; [|repeat constructor].
Qed.
Lemma sub_msgs_new (ms : list CosmosMsg) : sub_msg <$> (SubMsg_new <$> ms) = ms.
Proof. induction ms as [|m ms IH]; [done|]. cbn. by rewrite IH. Qed.

(** The proxies of new domains are created through the bridges of these domains. *)
Lemma add_external_domains_away env ds s r s' :
  separate auth proc s' → add_external_domains env ds s = Ok (r, s') →
  Forall (away auth proc) (sub_msg <$> resp_messages r).
Proof.
  intros Hsep Hrun. unfold add_external_domains in Hrun. auth_inv. rewrite sub_msgs_new.
  match goal with H : fold_each _ _ _ _ = Ok (?ms, _) |- _ => rename H into Hf; rename ms into msgs end.
  apply (fold_each_rule (λ ms s1, Forall (λ m, ∃ name d body,
    s_external_domains s1 !! name = Some d ∧
    m = CosmosWasm (WasmExecute (get_connector_address (execution_environment d)) body [])) ms)) in Hf.
  - eapply Forall_impl; [exact Hf|]. intros m (name & d & body & Hd & ->). by apply (Hsep _ _ Hd).
  - intros ms d s1 ms' s2 Hms Hb. simpl in Hb. unfold add_external_domain in Hb. auth_inv.
    rename x into ed. match goal with H : false = bool_decide _ |- _ =>
      symmetry in H; apply bool_decide_eq_false_1, eq_None_not_Some in H; rename H into Hnew end.
    set (s3 := mkStorage _ _ _ _ _ _ _ _ _ _ _ _ _) in Hb.
    assert (Forall (λ m, ∃ name d body, s_external_domains s3 !! name = Some d ∧
      m = CosmosWasm (WasmExecute (get_connector_address (execution_environment d)) body [])) ms) as Hms3.
    { eapply Forall_impl; [exact Hms|]. intros m (name & d0 & body & Hd & ->). exists name, d0, body.
      split; [|done]. simpl. by rewrite lookup_insert_ne by congruence. }
    destruct (execution_environment ed) as [[c]|] eqn:Henv; auth_inv; [|done].
    unfold create_proxy_msg in *. auth_inv. apply Forall_app. split; [done|]. constructor; [|done].
    eexists _, ed, _. split; [apply lookup_insert_eq|]. by rewrite Henv.
  - done.
Qed.
Lemma create_authorizations_away q env l s r s' :
  create_authorizations q env l s = Ok (r, s') →
  Forall (away auth proc) (sub_msg <$> resp_messages r).
Proof.
  unfold create_authorizations. intros. auth_inv. rewrite sub_msgs_new.
  match goal with H : fold_each _ _ _ _ = _ |- _ =>
    apply (fold_each_rule (λ ms _, Forall (away auth proc) ms)) in H; [done| |done] end.
  intros ms a s1 ms' s2 Hms Hb. simpl in Hb. unfold create_authorization in Hb. auth_inv.
  apply Forall_app. split; [done|by eapply permission_msgs_away].
Qed.
Lemma create_zk_authorizations_away env l s r s' :
  create_zk_authorizations env l s = Ok (r, s') →
  Forall (away auth proc) (sub_msg <$> resp_messages r).
Proof.
  unfold create_zk_authorizations. intros. auth_inv. rewrite sub_msgs_new.
  match goal with H : fold_each _ _ _ _ = _ |- _ =>
    apply (fold_each_rule (λ ms _, Forall (away auth proc) ms)) in H; [done| |done] end.
  intros ms a s1 ms' s2 Hms Hb. simpl in Hb. unfold create_zk_authorization in Hb. auth_inv.
  apply Forall_app. split; [done|by eapply permission_msgs_away].
Qed.
Lemma mint_authorizations_away env l ms s r s' :
  mint_authorizations env l ms s = Ok (r, s') →
  Forall (away auth proc) (sub_msg <$> resp_messages r).
Proof.
  unfold mint_authorizations. intros. auth_inv. rewrite sub_msgs_new. case_match; auth_inv.
  match goal with H : mapM _ _ = Some _ |- _ => apply mapM_Some in H; rename H into Hms end.
  eapply Forall2_Forall_r; [exact Hms|]. apply Forall_true. intros x m Hx.
  unfold mint_msg in Hx. by apply fmap_Some in Hx as (? & _ & ->).
Qed.

(** The commands of the owners to the processor of a domain. *)
Lemma domain_command q d cmd enc bytes m s s1 s2 :
  s_processor_on_main_domain s = Some proc → separate auth proc s →
  accepted (AuthorizationModuleAction cmd) = [] →
  encode_for_domain q d cmd enc s = Ok (bytes, s1) →
  create_msg_for_processor bytes d None s = Ok (m, s2) → sends s [m] s.
Proof.
  intros Hp Hsep Hacc Henc Hm%create_msg_bound; [|done..]. destruct d as [|name]; simpl in *.
  - unfold of_result in Henc. case_match; simplify_eq. by eapply sends_command.
  - apply sends_away; [|done]. by constructor.
Qed.

(** At most one record changes, to one that fits. *)
Definition books s s' : Prop :=
  s_processor_callbacks s' = s_processor_callbacks s ∨
  ∃ id cb, s_processor_callbacks s' = <[id := cb]> (s_processor_callbacks s) ∧ fits proc s cb.
Definition effect s (msgs : list CosmosMsg) s' : Prop := sends s msgs s' ∧ books s s'.

Lemma effect_none s msgs s' :
  Forall (away auth proc) msgs → s_processor_callbacks s' = s_processor_callbacks s →
  effect s msgs s'.
Proof. intros Hm Hc. split; [|by left]. apply sends_away; [done|by apply main_results_same]. Qed.
Lemma books_ledger s s' :
  ledger auth proc s → labels_le s s' → accounted s' → separate auth proc s' → books s s' →
  ledger auth proc s'.
Proof.
  intros [Hp _ Hf _] [Hp' Hl] Ha Hsep Hb.
  assert (∀ cb, fits proc s cb → fits proc s' cb) as Hmono by (intros cb [? ?]; split; auto).
  split; [congruence|done| |done]. destruct Hb as [->|(i & c & -> & Hc)]; [eauto|].
  intros id cb [[<- <-]|[_ ?]]%lookup_insert_Some; eauto.
Qed.

(** A batch is started in a domain. *)
Lemma start_effect q env s s' d id addrs cmd enc m now who l ttl ms :
  ledger auth proc s → s_execution_id s = Some id → is_Some (mode_of s l) →
  domain_callbacks s d = Some addrs → dispatched q env s d id cmd enc m →
  accepted (AuthorizationModuleAction cmd) = [id] →
  s_processor_callbacks s' =
    <[id := new_callback now id who addrs d l ttl ms]> (s_processor_callbacks s) →
  effect s [m] s'.
Proof.
  intros [Hp Ha _ Hsep] Hid Hl Hcb Hm Hacc Hs'. apply dispatched_bound in Hm; [|done..].
  pose proof (main_results_fresh s id Ha Hid) as Hfresh.
  assert (main_results s !! id = None) as Hnone by (by rewrite main_results_lookup, Hfresh).
  destruct d as [|name]; simpl in Hcb.
  - rewrite Hp in Hcb. simplify_eq/=. destruct Hm as (body & Hb & ->). split.
    + eapply sends_batch; [exact Hb|done|done|done|by eapply main_results_put].
    + right. eexists _, _. split; [exact Hs'|]. split; [done|]. intros _. eauto.
  - split.
    + apply sends_away; [by constructor|]. by eapply main_results_other.
    + right. eexists _, _. by split; [exact Hs'|].
Qed.
(** The result of an execution outside of the main domain is recorded. *)
Lemma record_effect s s' id cb res now msgs :
  ledger auth proc s → s_processor_callbacks s !! id = Some cb → cb_domain cb ≠ DomainMain →
  s_processor_callbacks s' = <[id := set_result res now cb]> (s_processor_callbacks s) →
  Forall (away auth proc) msgs → effect s msgs s'.
Proof.
  intros Hlg Hcb Hd Hs' Hm. destruct (lg_fits _ _ _ Hlg _ _ Hcb) as [Hl _].
  assert (main_result cb = None ∧ ∀ r, main_result (set_result r now cb) = None) as [Hnone Hnone'].
  { unfold main_result. simpl. by destruct (cb_domain cb). }
  split.
  - apply sends_away; [done|]. eapply main_results_other; [exact Hs'|done|].
    by rewrite main_results_lookup, Hcb.
  - right. eexists _, _. split; [exact Hs'|]. by split.
Qed.
Lemma settlement_away env cb m r msgs :
  settlement env cb m r msgs → Forall (away auth proc) msgs.
Proof.
  unfold settlement, burn_msg. destruct (paid_by _ _); [|by intros ->].
  case_match; [|intros ->; by repeat constructor].
  intros (b & (? & _ & ->)%fmap_Some & ->). by repeat constructor.
Qed.

(** A retriable timeout is never on the main domain. *)
Lemma timeout_elsewhere s id cb :
  ledger auth proc s → s_processor_callbacks s !! id = Some cb →
  cb_execution_result cb = Timeout true → cb_domain cb ≠ DomainMain.
Proof.
  intros Hlg Hcb Hres Hd. destruct (lg_fits _ _ _ Hlg _ _ Hcb) as [_ Hm].
  destruct (Hm Hd) as (_ & _ & [?|Hf]); [congruence|]. by rewrite Hres in Hf.
Qed.
Lemma retry_msgs_away env id s r s' :
  ledger auth proc s → retry_msgs env id s = Ok (r, s') →
  Forall (away auth proc) (sub_msg <$> resp_messages r).
Proof.
  intros Hlg Hrun. pose proof Hrun as (cb' & Hcb' & Hres & _)%retry_msgs_ok.
  pose proof (timeout_elsewhere _ _ _ Hlg Hcb' Hres) as Hd.
  unfold retry_msgs in Hrun. auth_inv. rewrite sub_msgs_new.
  match goal with H : (if ?b then _ else _) _ = Ok _ |- _ => destruct b end.
  - unfold resend_msgs in *. auth_inv.
    match goal with H : create_msg_for_processor _ _ _ _ = _ |- _ => apply create_msg_bound in H;
      [rename H into Hm|apply Hlg|apply (lg_separate _ _ _ Hlg)] end.
    destruct (cb_domain _); [done|]. by repeat constructor.
  - unfold give_up_msgs, refund_msg in *. destruct (cb_initiator _); auth_case; by repeat constructor.
Qed.
Lemma retry_effect env id s r s' :
  ledger auth proc s → retry_msgs env id s = Ok (r, s') → effect s (sub_msg <$> resp_messages r) s'.
Proof.
  intros Hlg Hrun. pose proof (retry_msgs_away _ _ _ _ _ Hlg Hrun) as Hm.
  apply retry_msgs_ok in Hrun as (cb & Hcb & Hres & a & _ & Hs).
  pose proof (timeout_elsewhere _ _ _ Hlg Hcb Hres) as Hd.
  destruct (ttl_expired env cb); [destruct (paid_by _ _)|].
  - destruct Hs as [-> _]. by eapply record_effect.
  - destruct Hs as [-> _]. by apply effect_none.
  - destruct Hs as (_ & _ & -> & _). by eapply record_effect.
Qed.

Lemma authorization_mode s l a : s_authorizations s !! l = Some a → is_Some (mode_of s l).
Proof. unfold mode_of. intros ->. by eexists. Qed.
Lemma zk_authorization_mode s l a : s_zk_authorizations s !! l = Some a → is_Some (mode_of s l).
Proof. unfold mode_of. intros ->. case_match; by eexists. Qed.


Lemma permissioned_effect q env msg s r s' :
  ledger auth proc s → separate auth proc s' → execute_permissioned q env msg s = Ok (r, s') →
  effect s (sub_msg <$> resp_messages r) s'.
Proof.
  intros Hlg Hsep Hrun. pose proof Hlg as [Hp Ha _ Hsep0].
  assert ((∀ l i p ms, msg ≠ PermInsertMsgs l i p ms) →
    Forall (away auth proc) (sub_msg <$> resp_messages r) →
    effect s (sub_msg <$> resp_messages r) s') as Hquiet.
  { intros Hins Hm. apply effect_none; [done|].
    by pose proof (permissioned_counters _ _ _ _ _ _ Hins Hrun) as [= _ -> _]. }
  destruct msg; simpl in Hrun.
  - apply Hquiet; [done|by eapply add_external_domains_away; [exact Hsep|]].
  - apply Hquiet; [done|by eapply create_authorizations_away].
  - apply Hquiet; [done|by eapply create_zk_authorizations_away].
  - apply Hquiet; [done|]. unfold modify_authorization in Hrun. auth_inv. constructor.
  - apply Hquiet; [done|]. unfold modify_zk_authorization in Hrun. auth_inv. constructor.
  - apply Hquiet; [done|]. unfold disable_authorization in Hrun. auth_inv. constructor.
  - apply Hquiet; [done|]. unfold enable_authorization in Hrun. auth_inv. constructor.
  - apply Hquiet; [done|by eapply mint_authorizations_away].
  - unfold evict_messages in Hrun. auth_inv. split; [|by left].
    eapply domain_command; [exact Hp|exact Hsep0| |eassumption|eassumption]. done.
  - apply insert_messages_ok in Hrun as (a & d & ad & id & m & Hl & _ & _ & _ & ? & ? & ? & -> & ->).
    eapply start_effect; try done. by eapply authorization_mode.
  - unfold pause_processor in Hrun. auth_inv. split; [|by left].
    eapply domain_command; [exact Hp|exact Hsep0| |eassumption|eassumption]. done.
  - unfold resume_processor in Hrun. auth_inv. split; [|by left].
    eapply domain_command; [exact Hp|exact Hsep0| |eassumption|eassumption]. done.
  - apply Hquiet; [done|]. unfold set_verification_router in Hrun. auth_inv. constructor.
  - apply Hquiet; [done|]. unfold update_zk_authorization_route in Hrun. auth_inv. constructor.
Qed.

(** A ZK message that is no batch is a command to the processor of its domain. *)
Lemma zk_command_sends q env info l inputs proof payload zm s r s' :
  s_processor_on_main_domain s = Some proc → separate auth proc s →
  execute_zk_authorization q env info l inputs proof payload s = Ok (r, s') →
  from_json (drop 32 inputs) = Ok zm → zk_batch_msgs (zm_message zm) = None →
  sends s (sub_msg <$> resp_messages r) s'.
Proof.
  intros Hp Hsep Hrun Hzm Hnone. unfold execute_zk_authorization in Hrun. auth_inv.
  match goal with H : slice_from _ _ = Some _ |- _ =>
    unfold slice_from in H; case_bool_decide; simplify_eq end.
  match goal with H : check_last_block _ (zm_block_number ?z) _ = _ |- _ =>
    assert (z = zm) as -> by congruence end.
  rewrite Hnone in *. auth_inv.
  match goal with H : check_last_block ?a ?n s = Ok (_, ?s1) |- _ =>
    apply check_last_block_ok in H as [_ ->];
    pose proof (record_block_frame a n s) as (Hd & Hpr & _ & _ & Hcb & _) end.
  match goal with H : create_msg_for_processor _ _ _ _ = Ok _ |- _ =>
    apply create_msg_bound in H; [rename H into Hm|congruence|unfold separate; by rewrite Hd] end.
  assert (accepted (AuthorizationModuleAction (zm_message zm)) = []) as Hacc.
  { by destruct (zm_message zm). }
  apply main_results_same in Hcb. destruct (zm_domain zm); simpl in Hm.
  - rewrite Hm. by eapply sends_command.
  - apply sends_away; [by constructor|done].
Qed.
Lemma zk_effect q env info l inputs proof payload s r s' :
  ledger auth proc s → execute_zk_authorization q env info l inputs proof payload s = Ok (r, s') →
  effect s (sub_msg <$> resp_messages r) s'.
Proof.
  intros Hlg Hrun. pose proof Hlg as [Hp Ha _ Hsep]. pose proof Hrun as
    (a & router & zm & m & Hl & _ & _ & _ & _ & _ & Hj & _ & _ & _ & _ & Hr & Hs)
    %execute_zk_authorization_ok.
  pose proof (record_block_frame a (zm_block_number zm) s) as (_ & _ & _ & _ & Hcb & _ & _).
  cbv zeta in Hs. destruct (zk_batch_msgs (zm_message zm)) as [ms|] eqn:Hb.
  - destruct Hs as (id & ad & Hid & _ & Hd & Hm & ->). rewrite Hr. cbn.
    eapply start_effect; [done|done|by eapply zk_authorization_mode|done|done| |].
    + by destruct (zm_message zm).
    + simpl. by rewrite Hcb.
  - split; [by eapply zk_command_sends|]. left. by rewrite Hs.
Qed.

(** The reports that arrive from outside are about other domains: an EVM processor
    reports only executions that were sent to an external domain. *)
Definition own_reports (q : Querier) s (msg : AuthorizationExecuteMsg) : Prop :=
  match msg with
  | AuthHyperlaneCallback hm =>
      ∀ e b id res cb,
        query_decode q (broker_address e) (encoder_version e) (HyperlaneCallback (hm_body hm)) = Ok b →
        from_json b = Ok (ProcessorCallback id res) →
        s_processor_callbacks s !! id = Some cb → cb_domain cb ≠ DomainMain
  | _ => True
  end.

Lemma execute_effect q env info msg s r s' :
  ledger auth proc s → separate auth proc s' → own_reports q s msg → info_sender info ≠ proc →
  execute q env info msg s = Ok (r, s') → effect s (sub_msg <$> resp_messages r) s'.
Proof.
  intros Hlg Hsep Hown Hsender Hrun. destruct msg as [act|om|pm|pm|[id res]|cm|hm]; simpl in Hrun, Hown.
  - unfold update_ownership in Hrun. auth_case; by apply effect_none.
  - auth_inv. destruct om; unfold add_sub_owner, remove_sub_owner in *; auth_inv; by apply effect_none.
  - auth_inv. by eapply permissioned_effect.
  - destruct pm; simpl in Hrun.
    + apply send_msgs_ok in Hrun as (a & d & ad & id & m & Hl & _ & _ & _ & _ & ? & ? & ? & -> & ->).
      eapply start_effect; try done. by eapply authorization_mode.
    + by eapply retry_effect.
    + unfold retry_bridge_creation in Hrun. auth_inv. rename select (_ !! _ = Some _) into Hd.
      destruct (execution_environment _) as [[c]|e [c]] eqn:Henv; auth_inv.
      pose proof (lg_separate _ _ _ Hlg _ _ Hd) as Hne. rewrite Henv in Hne.
      unfold create_proxy_msg in *. auth_inv. apply effect_none; [|done].
      by apply Forall_singleton.
    + by eapply zk_effect.
  - apply process_processor_callback_ok in Hrun as (cb & m & msgs & Hcb & Hs & _ & -> & _ & Hset & ->).
    simpl. rewrite sub_msgs_new. eapply record_effect; [done|done| |done|by eapply settlement_away].
    intros Hd. destruct (lg_fits _ _ _ Hlg _ _ Hcb) as [_ Hm]. destruct (Hm Hd). congruence.
  - unfold process_polytone_callback in Hrun. auth_inv. rewrite sub_msgs_new. case_match.
    + match goal with H : polytone_execution_callback _ _ _ _ _ = _ |- _ =>
        apply polytone_execution_callback_ok in H as
          (cb & Hcb & Hbr & [(-> & -> & _)|(res & _ & -> & Hc)]) end; [by apply effect_none|].
      eapply record_effect; [done|done| |done|].
      { intros Hd. destruct (lg_fits _ _ _ Hlg _ _ Hcb) as [_ Hm].
        destruct (Hm Hd) as (_ & Hb & _). congruence. }
      destruct Hc as [(_ & _ & _ & m & _ & Hset)|[(? & _ & _ & _ & _ & ->)|(? & _ & _ & ->)]];
        [|done..]. case_match; [by eapply settlement_away|by subst].
    + unfold polytone_proxy_callback in *. auth_case; by apply effect_none.
  - apply process_hyperlane_callback_ok in Hrun as
      (? & ? & ? & ? & cb & _ & Hq & Hj & Hcb & _ & -> & ->).
    eapply record_effect; [done|done|by eapply Hown|done|constructor].
Qed.
(** A message from outside keeps the ledger. *)
Lemma execute_ledger q env info msg s r s' :
  ledger auth proc s → ids_left s → honest q s msg → own_reports q s msg →
  separate auth proc s' → info_sender info ≠ proc → execute q env info msg s = Ok (r, s') →
  ledger auth proc s' ∧ sends s (sub_msg <$> resp_messages r) s'.
Proof.
  intros Hlg Hid Hh Hown Hsep Hs Hrun.
  destruct (execute_effect q env info msg s r s') as [Hsend Hbooks]; [done..|].
  split; [|done]. eapply books_ledger; [done|by eapply execute_labels| |done|done].
  eapply execute_accounted; try done. apply Hlg.
Qed.
End Messages.
