(* ===== verification/MainDomain.v ===== *)
(** * The main domain: authorization contract and processor in one world

    The two contracts of the main domain run in the same transactions: the host
    delivers what the authorization contract sends to the processor, and the reports
    of the processor back.  The two storages stay in step along every run. *)
From S2P Require Import Prelude Platform Types Queue Processor ProcessorFacts ProcessorLifecycle.
From S2P Require Import ProcessorReports AuthorizationUtils Authorization AuthorizationFacts AuthorizationInvariants AuthorizationTheorems AuthorizationSettlement MainLedger.
From S2P Require Import Codec Samples.

Record World := mkWorld { w_auth : Authorization.storage; w_proc : Processor.storage }.

Section Routing.
Context `{CPl : Platform} `{CSj : SerdeJson} `{COw : CwOwnable} `{CTf : TokenFactoryProto}.
Context `{CAe : JsonCodec AuthorizationExecuteMsg} `{CPe : JsonCodec ProcessorExecuteMsg}.
Context `{CPo : JsonCodec PolytoneExecuteMsg} `{CPp : JsonCodec ProcPolytoneCallbackMsg}.
Context `{CHy : JsonCodec HyperlaneExecuteMsg} `{CPc : JsonCodec AuthPolytoneCallbackMsg}.
Context `{CZk : JsonCodec ZkMessage} `{CIa : JsonCodec InternalAuthorizationMsg}.
Context (q : Authorization.Querier) (auth proc : Addr).

(** The host delivers a message of a contract: to the authorization contract, to the
    processor with the reply it asks for ([outcome] is how the call of the library
    ended), or elsewhere.  Messages are delivered in order, depth first; an error of
    a contract reverts the transaction ([None]).  The fuel bounds the depth. *)
Fixpoint route (fuel : nat) (block : BlockInfo) (outcome : SubMsgResult) (sender : Addr)
    (m : CosmosMsg) (w : World) : option World :=
  match fuel with
  | O => None
  | S fuel =>
      match m with
      | CosmosWasm (WasmExecute addr body funds) =>
          if bool_decide (addr = auth) then
            match from_json body with
            | Ok msg =>
                match Authorization.execute q (mkEnv block auth) (mkInfo sender funds) msg (w_auth w) with
                | Ok (r, sa) =>
                    foldl (λ ow m, w ← ow; route fuel block outcome auth m w)
                      (Some (mkWorld sa (w_proc w))) (sub_msg <$> resp_messages r)
                | _ => None
                end
            | _ => None
            end
          else if bool_decide (addr = proc) then
            match from_json body with
            | Ok msg =>
                match run_tx (mkEnv block proc) (mkInfo sender funds) msg outcome (w_proc w) with
                | Ok (out, sp) =>
                    foldl (λ ow m, w ← ow; route fuel block outcome proc m w)
                      (Some (mkWorld (w_auth w) sp)) (sub_msg <$> out)
                | _ => None
                end
            | _ => None
            end
          else Some w
      | _ => Some w
      end
  end.
Definition route_all (fuel : nat) (block : BlockInfo) (outcome : SubMsgResult) (sender : Addr)
    (ms : list CosmosMsg) (w : World) : option World :=
  foldl (λ ow m, w ← ow; route fuel block outcome sender m w) (Some w) ms.

(** A transaction sent to one of the contracts.  A command, its report and the
    settlement of the report are three deliveries deep. *)
Definition depth : nat := 3.
Definition auth_tx (block : BlockInfo) (outcome : SubMsgResult) (info : MessageInfo)
    (msg : AuthorizationExecuteMsg) (w : World) : option World :=
  match Authorization.execute q (mkEnv block auth) info msg (w_auth w) with
  | Ok (r, sa) =>
      route_all depth block outcome auth (sub_msg <$> resp_messages r) (mkWorld sa (w_proc w))
  | _ => None
  end.
Definition proc_tx (block : BlockInfo) (outcome : SubMsgResult) (info : MessageInfo)
    (msg : ProcessorExecuteMsg) (w : World) : option World :=
  match run_tx (mkEnv block proc) info msg outcome (w_proc w) with
  | Ok (out, sp) => route_all depth block outcome proc (sub_msg <$> out) (mkWorld (w_auth w) sp)
  | _ => None
  end.

(** A contract confirms only a call that succeeded. *)
Definition confirmed (sp : Processor.storage) (msg : ProcessorExecuteMsg) : Prop :=
  match msg with
  | InternalProcessorAction (LibraryCallback id _) => ∃ qs, reps sp qs ∧ queued qs id = 0%nat
  | _ => True
  end.

(** The transactions of accounts and contracts other than the two.  External domains
    report their own executions, once; no bridge is one of the two contracts. *)
Inductive main_step : World → World → Prop :=
| main_auth block outcome info msg r sa w w' :
    info_sender info ≠ auth → info_sender info ≠ proc →
    honest q (w_auth w) msg → own_reports q (w_auth w) msg →
    Authorization.execute q (mkEnv block auth) info msg (w_auth w) = Ok (r, sa) →
    separate auth proc sa →
    auth_tx block outcome info msg w = Some w' → main_step w w'
| main_proc block outcome info msg w w' :
    info_sender info ≠ auth → info_sender info ≠ proc → confirmed (w_proc w) msg →
    proc_tx block outcome info msg w = Some w' → main_step w w'.

Lemma route_all_nil fuel block outcome sender w : route_all fuel block outcome sender [] w = Some w.
Proof. done. Qed.
Lemma route_all_one fuel block outcome sender m w :
  route_all fuel block outcome sender [m] w = route fuel block outcome sender m w.
Proof. done. Qed.
Lemma route_away fuel block outcome sender m w :
  away auth proc m → route (S fuel) block outcome sender m w = Some w.
Proof.
  destruct m as [[addr body funds| |]| | |]; simpl; [|done..]. intros [Ha Hp].
  by rewrite !bool_decide_eq_false_2.
Qed.
Lemma route_all_away fuel block outcome sender ms w :
  Forall (away auth proc) ms → route_all (S fuel) block outcome sender ms w = Some w.
Proof.
  unfold route_all. induction 1 as [|m ms Hm _ IH]; [done|].
  cbn [foldl mbind option_bind]. by rewrite (route_away _ _ _ _ _ _ Hm).
Qed.

(** ** The two storages in step *)
(** How often an execution with this result was handed over, and reported. *)
Definition stage (r : option ExecutionResult) : nat * nat :=
  match r with None => (0, 0) | Some InProcess => (1, 0) | Some _ => (1, 1) end.
Definition staged (sa : Authorization.storage) (acc rep : list N) : Prop :=
  ∀ id, (occ id acc, occ id rep) = stage (main_results sa !! id).
(** There is room for [n] more transactions in the counters of the queues and in the
    execution ids. *)
Record synced (w : World) (n : N) : Prop := {
  sy_ledger : ledger auth proc (w_auth w);
  sy_wired : on_main auth (w_proc w);
  sy_ids : ∃ j, Authorization.s_execution_id (w_auth w) = Some j ∧ (j + n ≤ u64_max)%N;
  sy_tally : ∃ acc rep, tracked (w_proc w) acc rep n ∧ staged (w_auth w) acc rep;
}.

Context `{!TokenFactoryProtoLaws}.
Context `{!JsonCodecLaws AuthorizationExecuteMsg} `{!JsonCodecLaws ProcessorExecuteMsg}.
Context `{!JsonCodecLaws PolytoneExecuteMsg} `{!JsonCodecLaws ProcPolytoneCallbackMsg}.

Lemma in_process_current s id cb :
  accounted s → Authorization.s_processor_callbacks s !! id = Some cb →
  cb_execution_result cb = InProcess → (0 < current s (cb_label cb))%N.
Proof.
  intros [Hc _] Hcb Hin. rewrite Hc.
  pose proof (in_process_insert (Authorization.s_processor_callbacks s) id
    (Authorization.set_result Success 0 cb) (cb_label cb)) as Hi.
  rewrite Hcb in Hi. unfold weight in Hi. rewrite decide_True in Hi by done.
  rewrite decide_False in Hi by (by intros [_ ?]). lia.
Qed.

(** The authorization contract accepts a final report of an execution it has open. *)
Lemma open_report_accepted fuel block outcome sa sp id res m :
  ledger auth proc sa → main_results sa !! id = Some InProcess → reports auth id res m →
  ∃ sa', route (S (S fuel)) block outcome proc m (mkWorld sa sp) = Some (mkWorld sa' sp) ∧
    ledger auth proc sa' ∧ main_results sa' = <[id := res]> (main_results sa) ∧
    Authorization.s_execution_id sa' = Authorization.s_execution_id sa.
Proof.
  intros Hlg Hmain (Hfin & payload & Hpl & ->).
  rewrite main_results_lookup in Hmain.
  destruct (Authorization.s_processor_callbacks sa !! id) as [cb|] eqn:Hcb; [|done].
  simpl in Hmain. unfold main_result in Hmain. destruct (cb_domain cb) eqn:Hd; [|done].
  injection Hmain as Hin. pose proof (lg_fits _ _ _ Hlg _ _ Hcb) as [[md Hmd] Hf].
  destruct (Hf Hd) as (Haddr & Hbr & _).
  pose proof (in_process_current _ _ _ (lg_accounted _ _ _ Hlg) Hcb Hin) as Hpos.
  destruct (process_processor_callback_run (mkEnv block auth) (mkInfo proc []) id res sa cb md)
    as (msgs & Hset & Hrun); [done|done|done|done|].
  set (sa' := settle id _ sa) in Hrun. exists sa'. split_and!.
  - cbn [route]. rewrite bool_decide_eq_true_2 by done. rewrite (from_to_json _ _ Hpl).
    cbn [Authorization.execute w_auth w_proc]. rewrite Hrun. cbn [resp_messages].
    rewrite sub_msgs_new. apply route_all_away. by eapply settlement_away.
  - eapply books_ledger; [exact Hlg|by apply labels_frame| |apply (lg_separate _ _ _ Hlg)|].
    + eapply accounted_settle; [apply Hlg|done|done|done| |done]. simpl. by intros ->.
    + right. eexists _, _. split; [done|]. split; [by eexists|]. intros _. eauto.
  - eapply main_results_put; [done|]. unfold main_result. simpl. by rewrite Hd.
  - done.
Qed.
(** The executions reported by a list of messages. *)
Definition report_ids (c : Config) (ms : list CosmosMsg) : list N := fst <$> omap (report_of c) ms.
Lemma report_ids_one c id res m :
  processor_domain c = ProcMain → reports (authorization_contract c) id res m →
  report_ids c [m] = [id].
Proof.
  intros Hd (_ & payload & Hp & ->). unfold report_ids. cbn [omap list_omap].
  unfold report_of. rewrite Hd, (direct_report_of c id res) by (eexists; eauto). done.
Qed.
Lemma reported_main env info msg outcome c s ms s' :
  on_main auth s → Processor.s_config s = Some c →
  run_tx env info msg outcome s = Ok (SubMsg_new <$> ms, s') →
  reported c msg (SubMsg_new <$> ms) = report_ids c ms.
Proof.
  intros (c' & Hc' & _ & _ & Hp)%on_main_config Hc Hrun. unfold reported, report_ids.
  destruct msg as [|[|id|]| |]; try by rewrite reports_new.
  exfalso. unfold run_tx in Hrun. apply Exec_bind_ok in Hrun as (r & s1 & Hex & _).
  simpl in Hex. unfold Processor.retry_callback in Hex.
  apply Exec_bind_ok in Hex as (pc & ? & [Hpc ->]%map_err_ok%map_load_ok & _).
  cbn in Hpc. by rewrite Hp in Hpc.
Qed.

Lemma staged_report sa sa' id res acc rep :
  staged sa acc rep → main_results sa !! id = Some InProcess → final res = true →
  main_results sa' = <[id := res]> (main_results sa) → staged sa' acc (id :: rep).
Proof.
  intros Hst Hin Hfin Hm id'. rewrite Hm, occ_cons. specialize (Hst id').
  destruct (decide (id = id')) as [<-|Hne].
  - rewrite lookup_insert_eq, decide_True by done. rewrite Hin in Hst. simpl in Hst.
    injection Hst as -> ->. by destruct res.
  - rewrite lookup_insert_ne by done. by rewrite decide_False by congruence.
Qed.

(** The reports of the processor are accepted. *)
Lemma reports_routed fuel block outcome sa sp c acc rep n ms :
  ledger auth proc sa → authorization_contract c = auth → processor_domain c = ProcMain →
  (ms = [] ∨ ∃ id res m, ms = [m] ∧ reports auth id res m) →
  tracked sp acc (report_ids c ms ++ rep) n → staged sa acc rep →
  ∃ sa', route_all (S (S fuel)) block outcome proc ms (mkWorld sa sp) = Some (mkWorld sa' sp) ∧
    ledger auth proc sa' ∧ staged sa' acc (report_ids c ms ++ rep) ∧
    Authorization.s_execution_id sa' = Authorization.s_execution_id sa.
Proof.
  intros Hlg Ha Hd Hms (qs & _ & _ & _ & Ht) Hst.
  destruct Hms as [->|(id & res & m & -> & Hrep)]; [by exists sa|].
  rewrite (report_ids_one c id res m) in * by congruence. cbn [app] in *.
  pose proof (tally_count _ _ _ _ Ht id) as Hc. pose proof (tally_once _ _ _ _ Ht id) as Ho.
  rewrite occ_cons, decide_True in Hc by done.
  assert (main_results sa !! id = Some InProcess) as Hin.
  { specialize (Hst id). unfold stage in Hst. repeat case_match; try done; injection Hst as ? ?; lia. }
  destruct (open_report_accepted fuel block outcome sa sp id res m Hlg Hin Hrep)
    as (sa' & Hr & Hlg' & Hm & Hid).
  exists sa'. rewrite route_all_one. split_and!; [done|done| |done].
  eapply staged_report; [done|done|apply Hrep|done].
Qed.

(** A transaction of the processor, with the delivery of its reports. *)
Lemma processor_routed fuel block outcome info msg sa sp acc rep n out sp' :
  ledger auth proc sa → on_main auth sp → tracked sp acc rep (n + 1) →
  info_sender info ≠ proc → well_behaved sp acc msg → staged sa (accepted msg ++ acc) rep →
  run_tx (mkEnv block proc) info msg outcome sp = Ok (out, sp') →
  ∃ w', route_all (S (S fuel)) block outcome proc (sub_msg <$> out) (mkWorld sa sp') = Some w' ∧
    w_proc w' = sp' ∧ ledger auth proc (w_auth w') ∧ on_main auth (w_proc w') ∧
    (∃ acc rep, tracked (w_proc w') acc rep n ∧ staged (w_auth w') acc rep) ∧
    Authorization.s_execution_id (w_auth w') = Authorization.s_execution_id sa.
Proof.
  intros Hlg Hm Htr Hself Hwb Hst Hrun. pose proof Hm as (c & Hc & Ha & Hd & _)%on_main_config.
  destruct (run_tx_emits auth (mkEnv block proc) _ _ _ _ _ _ Hm Hself Hrun) as (ms & -> & Hl & Hms).
  assert (life_step (sp, acc, rep)
    (sp', accepted msg ++ acc, reported c msg (SubMsg_new <$> ms) ++ rep)) as Hstep by (by apply (life_tx (mkEnv block proc) info msg outcome)).
  apply (life_step_tracked n) in Hstep; [|done]. rewrite (reported_main _ _ _ _ _ _ _ _ Hm Hc Hrun) in Hstep.
  rewrite sub_msgs_new.
  destruct (reports_routed fuel block outcome sa sp' c _ rep n ms Hlg Ha Hd Hms Hstep Hst)
    as (sa' & Hr & Hlg' & Hst' & Hid).
  eexists. split_and!; [exact Hr|done|done| |by eauto|done]. unfold on_main in *. simpl. congruence.
Qed.
Context (Hdistinct : auth ≠ proc).

Lemma staged_accept sa sa' id acc rep :
  staged sa acc rep → main_results sa !! id = None →
  main_results sa' = <[id := InProcess]> (main_results sa) → staged sa' (id :: acc) rep.
Proof.
  intros Hst Hnone Hm id'. rewrite Hm, occ_cons. specialize (Hst id').
  destruct (decide (id = id')) as [<-|Hne].
  - rewrite lookup_insert_eq, decide_True by done. rewrite Hnone in Hst. simpl in Hst.
    by injection Hst as -> ->.
  - rewrite lookup_insert_ne by done. by rewrite decide_False by congruence.
Qed.
Lemma staged_same sa sa' acc rep :
  main_results sa' = main_results sa → staged sa acc rep → staged sa' acc rep.
Proof. intros Hm Hst id. by rewrite Hm. Qed.
Lemma tracked_less sp acc rep n : tracked sp acc rep (n + 1) → tracked sp acc rep n.
Proof. intros Ht. eapply tracked_frame; [|..|exact Ht]; [done|lia]. Qed.

(** The command of the authorization contract reaches the processor. *)
Lemma command_routed fuel block outcome sa sp acc rep n cmd body w' :
  ledger auth proc sa → on_main auth sp → tracked sp acc rep (n + 1) →
  well_behaved sp acc (AuthorizationModuleAction cmd) →
  staged sa (accepted (AuthorizationModuleAction cmd) ++ acc) rep →
  to_json_binary (AuthorizationModuleAction cmd) = Ok body →
  route_all (S (S (S fuel))) block outcome auth [CosmosWasm (WasmExecute proc body [])]
    (mkWorld sa sp) = Some w' →
  ledger auth proc (w_auth w') ∧ on_main auth (w_proc w') ∧
  (∃ acc rep, tracked (w_proc w') acc rep n ∧ staged (w_auth w') acc rep) ∧
  Authorization.s_execution_id (w_auth w') = Authorization.s_execution_id sa.
Proof.
  intros Hlg Hm Htr Hwb Hst Hb Hroute. rewrite route_all_one in Hroute.
  remember (S (S fuel)) as f eqn:Hf. cbn [route] in Hroute.
  rewrite (bool_decide_eq_false_2 (proc = auth)), (bool_decide_eq_true_2 (proc = proc)),
    (from_to_json _ _ Hb) in Hroute by done.
  cbn [w_auth w_proc] in Hroute.
  destruct (run_tx _ _ _ _ _) as [[out sp']| |] eqn:Hrun; [|done..]. subst f.
  destruct (processor_routed fuel block outcome (mkInfo auth []) _ sa sp acc rep n out sp'
    Hlg Hm Htr Hdistinct Hwb Hst Hrun) as (w2 & Hr & _ & ? & ? & ? & ?).
  change (route_all (S (S fuel)) block outcome proc (sub_msg <$> out) (mkWorld sa sp') = Some w') in Hroute.
  rewrite Hr in Hroute. by injection Hroute as <-.
Qed.

Lemma auth_step_synced block outcome info msg r sa w w' n :
  synced w (n + 1) → info_sender info ≠ proc → honest q (w_auth w) msg →
  own_reports q (w_auth w) msg →
  Authorization.execute q (mkEnv block auth) info msg (w_auth w) = Ok (r, sa) →
  separate auth proc sa → auth_tx block outcome info msg w = Some w' → synced w' n.
Proof.
  intros [Hlg Hm (j & Hj & Hjn) (acc & rep & Htr & Hst)] Hs Hh Hown Hex Hsep Htx.
  unfold auth_tx in Htx. rewrite Hex in Htx.
  assert (ids_left (w_auth w)) as Hleft by (intros j' Hj'; simplify_eq; lia).
  destruct (execute_ledger auth proc q _ _ _ _ _ _ Hlg Hleft Hh Hown Hsep Hs Hex) as [Hlg' Hsends].
  destruct (execute_next _ _ _ _ _ _ _ _ Hex Hj) as (j' & Hj' & Hle); [lia|].
  assert (∀ w2 : World, ledger auth proc (w_auth w2) ∧ on_main auth (w_proc w2) ∧
    (∃ acc rep, tracked (w_proc w2) acc rep n ∧ staged (w_auth w2) acc rep) ∧
    Authorization.s_execution_id (w_auth w2) = Authorization.s_execution_id sa → synced w2 n) as Hdone.
  { intros w2 (? & ? & ? & Hid). split; [done|done| |done]. exists j'. split; [congruence|lia]. }
  apply Hdone. destruct Hsends as [Haway Hres|cmd body Hb Hms Hacc Hres|cmd body id Hb Hms Hacc Hnone Hres];
    [|rewrite Hms in Htx..].
  - unfold depth in Htx. rewrite route_all_away in Htx by done. injection Htx as <-.
    split_and!; [done|done| |done]. exists acc, rep.
    split; [by apply tracked_less|by eapply staged_same].
  - eapply command_routed; [done|done|exact Htr| | |exact Hb|exact Htx].
    + unfold well_behaved. rewrite Hacc. constructor.
    + rewrite Hacc. by eapply staged_same.
  - eapply command_routed; [done|done|exact Htr| | |exact Hb|exact Htx].
    + unfold well_behaved. rewrite Hacc. constructor; [|done]. specialize (Hst id).
      rewrite Hnone in Hst. by injection Hst as ->.
    + rewrite Hacc. by eapply staged_accept.
Qed.

(** A transaction of the processor that its own code accepts goes through, with the
    reports it sends, and leaves the contracts in step. *)
Lemma proc_tx_synced block outcome info msg w out sp n :
  synced w (n + 1) → info_sender info ≠ auth → info_sender info ≠ proc → confirmed (w_proc w) msg →
  run_tx (mkEnv block proc) info msg outcome (w_proc w) = Ok (out, sp) →
  ∃ w', proc_tx block outcome info msg w = Some w' ∧ w_proc w' = sp ∧ synced w' n.
Proof.
  intros [Hlg Hm (j & Hj & Hjn) (acc & rep & Htr & Hst)] Ha Hp Hconf Hrun.
  pose proof (run_tx_accepted auth _ _ _ _ _ _ _ Hm Ha Hrun) as Hacc.
  destruct (processor_routed 1 block outcome info msg (w_auth w) (w_proc w) acc rep n out sp)
    as (w' & Hr & ? & ? & ? & ? & Hid); try done.
  { unfold well_behaved. destruct msg as [am| |[id body|b]|]; simpl in *; try constructor; try done.
    rewrite Hacc. constructor. }
  { by rewrite Hacc. }
  exists w'. unfold proc_tx. rewrite Hrun. split_and!; [done|done|]. split; [done|done| |done].
  exists j. split; [congruence|lia].
Qed.
Lemma main_step_synced w w' n : main_step w w' → synced w (n + 1) → synced w' n.
Proof.
  intros [block outcome info msg r sa w1 w2|block outcome info msg w1 w2] ; intros.
  - by eapply auth_step_synced.
  - rename select (proc_tx _ _ _ _ _ = _) into Htx. pose proof Htx as Htx'. unfold proc_tx in Htx'.
    destruct (run_tx _ _ _ _ _) as [[out sp]| |] eqn:Hrun; [|done..].
    edestruct proc_tx_synced as (w3 & Hw3 & _ & ?); [done..|]. congruence.
Qed.
Lemma main_run_synced k w w' n : nsteps main_step k w w' → synced w (N.of_nat k + n) → synced w' n.
Proof.
  revert w. induction k as [|k IH]; intros w Hrun Hsy.
  - by inversion Hrun; subst.
  - inversion Hrun as [|? ? w1 ? Hstep Hrest]; subst. eapply IH; [exact Hrest|].
    eapply main_step_synced; [exact Hstep|].
    by replace (N.of_nat k + n + 1)%N with (N.of_nat (S k) + n)%N by lia.
Qed.
End Routing.

(** ** Runs from the instantiation *)
Section Runs.
Context `{CPl : Platform} `{CSj : SerdeJson} `{COw : CwOwnable} `{CTf : TokenFactoryProto}.
Context `{CAe : JsonCodec AuthorizationExecuteMsg} `{CPe : JsonCodec ProcessorExecuteMsg}.
Context `{CPo : JsonCodec PolytoneExecuteMsg} `{CPp : JsonCodec ProcPolytoneCallbackMsg}.
Context `{CHy : JsonCodec HyperlaneExecuteMsg} `{CPc : JsonCodec AuthPolytoneCallbackMsg}.
Context `{CZk : JsonCodec ZkMessage} `{CIa : JsonCodec InternalAuthorizationMsg}.

(** Both contracts have just been instantiated and know each other's address. *)
Inductive deployed (auth proc : Addr) : World → Prop :=
| Deployed enva infoa ima ra sa envp infop imp rp sp :
    Authorization.instantiate enva infoa ima Authorization.empty_storage = Ok (ra, sa) →
    Processor.instantiate envp infop imp Processor.empty_storage = Ok (rp, sp) →
    addr_validate (ai_processor ima) = Ok proc → im_authorization_contract imp = auth →
    im_polytone_contracts imp = None → deployed auth proc (mkWorld sa sp).

Context `{!JsonCodecLaws AuthorizationExecuteMsg} `{!JsonCodecLaws ProcessorExecuteMsg}.
Context `{!JsonCodecLaws PolytoneExecuteMsg} `{!JsonCodecLaws ProcPolytoneCallbackMsg}.

Lemma deployed_synced auth proc w n : deployed auth proc w → (n + 2 ≤ u64_max)%N → synced auth proc w n.
Proof.
  intros [enva infoa ima ra sa envp infop imp rp sp Ha Hp Haddr Hauth Hpoly] Hn.
  pose proof (instantiate_ok _ _ _ _ _ Ha) as (Hreg & Hcur & Hcbs & Hid).
  unfold registry in Hreg. injection Hreg as _ _ Hdom.
  assert (Authorization.s_processor_on_main_domain sa = Some proc) as Hproc.
  { unfold Authorization.instantiate in Ha. run_inv. congruence. }
  split.
  - split; simpl; [done| | |].
    + split; [|exists 0%N; split; [done|by rewrite Hcbs]].
      intros l. unfold current. by rewrite Hcur, Hcbs.
    + by rewrite Hcbs.
    + intros name d. by rewrite Hdom.
  - unfold Processor.instantiate in Hp. rewrite Hpoly in Hp. run_inv.
    by eapply config_on_main.
  - exists 0%N. split; [done|lia].
  - exists [], []. split; [by eapply instantiate_tracked|]. intros id.
    cbn [w_auth]. by rewrite main_results_lookup, Hcbs.
Qed.
End Runs.

(** A sample run: two external domains are added, an authorization is created, the user
    sends a message, and the processor executes it. *)
Definition sample_block (height : N) : BlockInfo := mkBlock height (height * 5000000000).
Definition sample_world : World :=
  mkWorld sample_s0 (after (Processor.instantiate (mkEnv (sample_block 1) "processor") sample_owner
    (mkProcInstantiateMsg "contract" None)) Processor.empty_storage).
Definition sample_auth_tx (height : N) (info : MessageInfo) (msg : AuthorizationExecuteMsg)
    (w : World) : option World :=
  auth_tx sample_q "contract" "processor" (sample_block height) SubMsgOk info msg w.
Definition sample_add : AuthorizationExecuteMsg :=
  PermissionedAction (AddExternalDomains [sample_polytone_domain; sample_evm_domain]).
Definition sample_create : AuthorizationExecuteMsg :=
  PermissionedAction (CreateAuthorizations [sample_swap DomainMain TyCosmwasmExecuteMsg]).
Definition sample_world1 : World := default sample_world (sample_auth_tx 2 sample_owner sample_add sample_world).
Definition sample_world2 : World := default sample_world (sample_auth_tx 3 sample_owner sample_create sample_world1).
Definition sample_world3 : World :=
  default sample_world (sample_auth_tx 4 sample_user (sample_send sample_msg None) sample_world2).
Definition sample_main_tick : ProcessorExecuteMsg := ProcPermissionlessAction Tick.
Definition sample_world4 : World :=
  default sample_world (proc_tx sample_q "contract" "processor" (sample_block 5) SubMsgOk
    (mkInfo "keeper" []) sample_main_tick sample_world3).

(** What a step needs, as a computation. *)
Definition sample_ready (height : N) (info : MessageInfo) (msg : AuthorizationExecuteMsg) (w : World)
    : bool :=
  bool_decide (info_sender info ≠ "contract") && bool_decide (info_sender info ≠ "processor") &&
  succeeds (Authorization.execute sample_q (mkEnv (sample_block height) "contract") info msg) (w_auth w) &&
  bool_decide (map_Forall (λ _ d, get_connector_address (execution_environment d) ≠ "contract" ∧
      get_connector_address (execution_environment d) ≠ "processor")
    (Authorization.s_external_domains (after (Authorization.execute sample_q
       (mkEnv (sample_block height) "contract") info msg) (w_auth w)))) &&
  bool_decide (is_Some (sample_auth_tx height info msg w)).
Lemma sample_step height info msg w :
  honest sample_q (w_auth w) msg → own_reports sample_q (w_auth w) msg →
  sample_ready height info msg w = true →
  main_step sample_q "contract" "processor" w (default sample_world (sample_auth_tx height info msg w)).
Proof.
  intros Hh Hown Hready. unfold sample_ready in Hready. rewrite !andb_true_iff in Hready.
  destruct Hready as [[[[H1 H2] H3] H4] H5].
  apply bool_decide_eq_true_1 in H1, H2, H4, H5. apply after_ok in H3 as [r Hr].
  destruct H5 as [w' Hw']. rewrite Hw'.
  eapply (main_auth _ _ _ (sample_block height) SubMsgOk info msg r);
    [exact H1|exact H2|exact Hh|exact Hown|exact Hr|exact H4|exact Hw'].
Qed.
Lemma sample_deployed : deployed "contract" "processor" sample_world.
Proof.
  destruct sample_init_ok as [ra Ha].
  destruct (after_ok (Processor.instantiate (mkEnv (sample_block 1) "processor") sample_owner
    (mkProcInstantiateMsg "contract" None)) Processor.empty_storage) as [rp Hp]; [vm_compute; reflexivity|].
  eapply (Deployed _ _ (sample_env 1) sample_owner); [exact Ha|exact Hp|reflexivity|reflexivity|reflexivity].
Qed.
Lemma sample_run3 : nsteps (main_step sample_q "contract" "processor") 3 sample_world sample_world3.
Proof.
  eapply nsteps_l; [apply (sample_step 2 sample_owner sample_add)|
    eapply nsteps_l; [apply (sample_step 3 sample_owner sample_create)|
      eapply nsteps_l; [apply (sample_step 4 sample_user (sample_send sample_msg None))|apply nsteps_O]]].
  all: first [exact I | vm_compute; reflexivity].
Qed.
Lemma sample_run4 : nsteps (main_step sample_q "contract" "processor") 4 sample_world sample_world4.
Proof.
  eapply nsteps_r; [exact sample_run3|].
  eapply (main_proc _ _ _ (sample_block 5) SubMsgOk (mkInfo "keeper" []) sample_main_tick); [done|done|done|].
  unfold sample_world4.
  assert (is_Some (proc_tx sample_q "contract" "processor" (sample_block 5) SubMsgOk
    (mkInfo "keeper" []) sample_main_tick sample_world3)) as [w' ->]; [|done].
  apply (bool_decide_unpack _). vm_compute. exact I.
Qed.

(** C2 The two contracts of the main domain stay in step.  After any number of
    transactions since their instantiation, sent by anybody else, with every message
    delivered within its transaction: an execution on the main domain that the
    authorization contract has open is with the processor exactly once, in a queue or
    waiting for its confirmation, and every batch with the processor is such an open
    execution; an execution that is closed has a final result and has left the
    processor; and the counter of each label is the number of its open executions.
    What is assumed about the rest: a contract confirms only calls that succeeded,
    external domains report their own executions, once, and no bridge is one of the
    two contracts. *)
Theorem main_domain_in_step
    `{Platform} `{SerdeJson} `{CwOwnable} `{TokenFactoryProto} `{!TokenFactoryProtoLaws}
    `{JsonCodec AuthorizationExecuteMsg} `{JsonCodec ProcessorExecuteMsg}
    `{JsonCodec PolytoneExecuteMsg} `{JsonCodec ProcPolytoneCallbackMsg}
    `{JsonCodec HyperlaneExecuteMsg} `{JsonCodec AuthPolytoneCallbackMsg}
    `{JsonCodec ZkMessage} `{JsonCodec InternalAuthorizationMsg}
    `{!JsonCodecLaws AuthorizationExecuteMsg} `{!JsonCodecLaws ProcessorExecuteMsg}
    `{!JsonCodecLaws PolytoneExecuteMsg} `{!JsonCodecLaws ProcPolytoneCallbackMsg}
    (q : Authorization.Querier) (auth proc : Addr) (w0 w : World) (k : nat) :
  auth ≠ proc → deployed auth proc w0 → nsteps (main_step q auth proc) k w0 w →
  (N.of_nat k + 2 ≤ u64_max)%N →
  ∃ qs, reps (w_proc w) qs ∧
    (∀ id, let live := (queued qs id + if awaiting (w_proc w) qs id then 1 else 0)%nat in
       match main_results (w_auth w) !! id with
       | Some InProcess => live = 1%nat
       | Some res => live = 0%nat ∧ final res = true
       | None => live = 0%nat
       end) ∧
    ∀ l, current (w_auth w) l = in_process (Authorization.s_processor_callbacks (w_auth w)) l.
Proof.
  intros Hne Hdep Hrun Hk. apply (deployed_synced _ _ _ (N.of_nat k + 0)) in Hdep; [|lia].
  apply (main_run_synced q auth proc Hne _ _ _ 0) in Hrun; [|done].
  destruct Hrun as [Hlg _ _ (acc & rep & (qs & Hs & _ & _ & Ht) & Hst)]. exists qs.
  split_and!; [done| |apply Hlg].
  intros id live. pose proof (tally_count _ _ _ _ Ht id) as Hc. specialize (Hst id).
  assert (∀ res, main_results (w_auth w) !! id = Some res → res = InProcess ∨ final res = true) as Hfin.
  { intros res. rewrite main_results_lookup. intros (cb & Hcb & Hres)%bind_Some.
    unfold main_result in Hres. destruct (cb_domain cb) eqn:Hd; simplify_eq.
    destruct (lg_fits _ _ _ Hlg _ _ Hcb) as [_ Hm]. by apply Hm. }
  destruct (main_results (w_auth w) !! id) as [res|]; [|injection Hst as ? ?; unfold live; lia].
  destruct (Hfin res eq_refl) as [->|Hf]; [injection Hst as ? ?; unfold live; lia|].
  destruct res; try done; injection Hst as ? ?; (split; [unfold live; lia|done]).
Qed.

(** The message of the user is with the processor, and after the tick it is not. *)
Lemma main_domain_in_step_witness :
  (∃ qs, reps (w_proc sample_world3) qs ∧ main_results (w_auth sample_world3) !! 0%N = Some InProcess ∧
     (queued qs 0 + if awaiting (w_proc sample_world3) qs 0 then 1 else 0)%nat = 1%nat) ∧
  ∃ qs, reps (w_proc sample_world4) qs ∧ main_results (w_auth sample_world4) !! 0%N = Some Success ∧
     (queued qs 0 + if awaiting (w_proc sample_world4) qs 0 then 1 else 0)%nat = 0%nat.
Proof.
  assert (main_results (w_auth sample_world3) !! 0%N = Some InProcess) as H3 by (vm_compute; reflexivity).
  assert (main_results (w_auth sample_world4) !! 0%N = Some Success) as H4 by (vm_compute; reflexivity).
  split.
  - destruct (main_domain_in_step sample_q "contract" "processor" sample_world sample_world3 3)
      as (qs & Hs & Hl & _); [done|exact sample_deployed|exact sample_run3|by apply N.leb_le|].
    exists qs. split; [exact Hs|]. split; [exact H3|]. specialize (Hl 0%N). rewrite H3 in Hl. exact Hl.
  - destruct (main_domain_in_step sample_q "contract" "processor" sample_world sample_world4 4)
      as (qs & Hs & Hl & _); [done|exact sample_deployed|exact sample_run4|by apply N.leb_le|].
    exists qs. split; [exact Hs|]. split; [exact H4|]. specialize (Hl 0%N). rewrite H4 in Hl.
    destruct Hl as [Hl _]. exact Hl.
Defined.

(** C3 The processor of the main domain is not blocked by its authorization contract, as
    long as the rest behaves.  What is assumed about the rest, in the transactions so far and
    in this one: a contract confirms only calls that succeeded (no confirmation of an
    execution that is back in a queue), external domains report their own executions, once,
    no bridge is one of the two contracts, and nothing is sent in the name of the two
    contracts.  Then, in every state that the two contracts reach in fewer than [u64::MAX - 2]
    transactions, one more transaction that the processor itself accepts (a tick, a confirmation) goes through with the reports it sends:
    the authorization contract refuses none of them.  Without the first two assumptions it
    can refuse one: [failed_attempt_confirmable], [hyperlane_report_any_domain]. *)
Theorem main_reports_never_refused
    `{Platform} `{SerdeJson} `{CwOwnable} `{TokenFactoryProto} `{!TokenFactoryProtoLaws}
    `{JsonCodec AuthorizationExecuteMsg} `{JsonCodec ProcessorExecuteMsg}
    `{JsonCodec PolytoneExecuteMsg} `{JsonCodec ProcPolytoneCallbackMsg}
    `{JsonCodec HyperlaneExecuteMsg} `{JsonCodec AuthPolytoneCallbackMsg}
    `{JsonCodec ZkMessage} `{JsonCodec InternalAuthorizationMsg}
    `{!JsonCodecLaws AuthorizationExecuteMsg} `{!JsonCodecLaws ProcessorExecuteMsg}
    `{!JsonCodecLaws PolytoneExecuteMsg} `{!JsonCodecLaws ProcPolytoneCallbackMsg}
    (q : Authorization.Querier) (auth proc : Addr) (w0 w : World) (k : nat) (block : BlockInfo)
    (outcome : SubMsgResult) (info : MessageInfo) (msg : ProcessorExecuteMsg)
    (out : list SubMsg) (sp : Processor.storage) :
  auth ≠ proc → deployed auth proc w0 → nsteps (main_step q auth proc) k w0 w →
  (N.of_nat k + 3 ≤ u64_max)%N →
  info_sender info ≠ auth → info_sender info ≠ proc → confirmed (w_proc w) msg →
  run_tx (mkEnv block proc) info msg outcome (w_proc w) = Ok (out, sp) →
  ∃ sa, proc_tx q auth proc block outcome info msg w = Some (mkWorld sa sp).
Proof.
  intros Hne Hdep Hrun Hk Ha Hp Hconf Htx.
  apply (deployed_synced _ _ _ (N.of_nat k + (0 + 1))) in Hdep; [|lia].
  apply (main_run_synced q auth proc Hne _ _ _ (0 + 1)) in Hrun; [|done].
  destruct (proc_tx_synced q auth proc _ _ _ _ _ _ _ _ Hrun Ha Hp Hconf Htx) as ([sa sp'] & Hw' & Hsp & _).
  simpl in Hsp. subst sp'. by exists sa.
Qed.

Lemma main_reports_never_refused_witness :
  ∃ out sp sa,
    run_tx (mkEnv (sample_block 5) "processor") (mkInfo "keeper" []) sample_main_tick SubMsgOk
      (w_proc sample_world3) = Ok (out, sp) ∧
    proc_tx sample_q "contract" "processor" (sample_block 5) SubMsgOk (mkInfo "keeper" []) sample_main_tick
      sample_world3 = Some (mkWorld sa sp).
Proof.
  destruct (after_ok (run_tx (mkEnv (sample_block 5) "processor") (mkInfo "keeper" []) sample_main_tick
    SubMsgOk) (w_proc sample_world3)) as [out Hout]; [vm_compute; reflexivity|].
  edestruct (main_reports_never_refused sample_q "contract" "processor" sample_world sample_world3 3
    (sample_block 5) SubMsgOk (mkInfo "keeper" []) sample_main_tick out) as [sa Hsa];
    [done|exact sample_deployed|exact sample_run3|by apply N.leb_le|done|done|done|exact Hout|].
  exists out. eexists. exists sa. split; [exact Hout|exact Hsa].
Defined.
