(* ===== verification/System.v ===== *)
(** * The two contracts together

    Messages of one contract are executed by the other: the authorization contract
    and the processor of the main domain, with their message formats. *)
From Stdlib Require Import Strings.Byte.
From S2P Require Import Prelude Platform Types Queue Processor ProcessorFacts ProcessorProofs.
From S2P Require Import ProcessorRuns AuthorizationUtils Authorization AuthorizationFacts AuthorizationInvariants AuthorizationTheorems AuthorizationSettlement Codec.
From S2P Require Import Samples.

(** ** Delivery of a message by the host *)
Section Delivery.
Context `{CPl : Platform} `{CSj : SerdeJson} `{COw : CwOwnable} `{CTf : TokenFactoryProto}.
Context `{CAe : JsonCodec AuthorizationExecuteMsg} `{CPe : JsonCodec ProcessorExecuteMsg}.
Context `{CPo : JsonCodec PolytoneExecuteMsg} `{CPp : JsonCodec ProcPolytoneCallbackMsg}.
Context `{CHy : JsonCodec HyperlaneExecuteMsg} `{CPc : JsonCodec AuthPolytoneCallbackMsg}.
Context `{CZk : JsonCodec ZkMessage} `{CIa : JsonCodec InternalAuthorizationMsg}.

(** The contract at [env_contract env] executes a message that [sender] sent; [None]
    when the message is not for it or cannot be parsed. *)
Definition to_processor (env : Env) (sender : Addr) (m : CosmosMsg) (s : Processor.storage)
    : option (result Processor.ContractError (Response * Processor.storage)) :=
  match m with
  | CosmosWasm (WasmExecute addr body funds) =>
      if bool_decide (addr = env_contract env) then
        match from_json body with
        | Ok msg => Some (Processor.execute env (mkInfo sender funds) msg s)
        | _ => None
        end
      else None
  | _ => None
  end.
Definition to_authorization (q : Authorization.Querier) (env : Env) (sender : Addr) (m : CosmosMsg)
    (s : Authorization.storage)
    : option (result Authorization.ContractError (Response * Authorization.storage)) :=
  match m with
  | CosmosWasm (WasmExecute addr body funds) =>
      if bool_decide (addr = env_contract env) then
        match from_json body with
        | Ok msg => Some (Authorization.execute q env (mkInfo sender funds) msg s)
        | _ => None
        end
      else None
  | _ => None
  end.

Context `{!JsonCodecLaws AuthorizationExecuteMsg} `{!JsonCodecLaws ProcessorExecuteMsg}.

Lemma to_processor_run env sender body msg s :
  to_json_binary msg = Ok body →
  to_processor env sender (CosmosWasm (WasmExecute (env_contract env) body [])) s =
    Some (Processor.execute env (mkInfo sender []) msg s).
Proof.
  intros Hb%from_to_json. simpl. rewrite bool_decide_eq_true_2 by done. by rewrite Hb.
Qed.
Lemma to_authorization_run q env sender body msg s :
  to_json_binary msg = Ok body →
  to_authorization q env sender (CosmosWasm (WasmExecute (env_contract env) body [])) s =
    Some (Authorization.execute q env (mkInfo sender []) msg s).
Proof.
  intros Hb%from_to_json. simpl. rewrite bool_decide_eq_true_2 by done. by rewrite Hb.
Qed.

(** A command of the authorization contract reaches the processor of the main domain. *)
Lemma command_run (env : Env) (c : Config) cmd body s :
  Processor.s_config s = Some c → processor_domain c = ProcMain →
  to_json_binary (AuthorizationModuleAction cmd) = Ok body →
  to_processor env (authorization_contract c)
    (CosmosWasm (WasmExecute (env_contract env) body [])) s =
  Some (match cmd with
        | EnqueueMsgs id msgs subroutine priority expiration_time =>
            Processor.enqueue_messages env id msgs subroutine priority expiration_time s
        | EvictMsgs queue_position priority =>
            Processor.evict_messages env queue_position priority s
        | InsertMsgs queue_position id msgs subroutine priority expiration_time =>
            Processor.insert_messages env queue_position id msgs subroutine priority
              expiration_time s
        | Pause => Processor.pause_processor s
        | Resume => Processor.resume_processor s
        end).
Proof.
  intros Hc Hd Hb. rewrite (to_processor_run _ _ _ _ _ Hb). f_equal. simpl.
  unfold mbind, Exec_bind, item_load, fail_if. cbn [lget Processor.CONFIG]. rewrite Hc, Hd.
  rewrite bool_decide_neq by done. by destruct cmd.
Qed.
End Delivery.

(** The main domain is wired: each contract knows the other's address. *)
Record wired (auth proc : Addr) (sa : Authorization.storage) (c : Config) : Prop := {
  wired_processor : Authorization.s_processor_on_main_domain sa = Some proc;
  wired_authorization : authorization_contract c = auth;
  wired_domain : processor_domain c = ProcMain;
}.

(** The batch the processor gets for an accepted [send_msgs]. *)
Definition sent_batch `{Platform} (env : Env) (a : Authorization) (id : N)
    (ms : list ProcessorMessage) : MessageBatch :=
  mkMessageBatch id ms (subroutine a) (priority a)
    (Authorization.batch_expiration env (subroutine a)) None.

Section EndToEnd.
Context `{CPl : Platform} `{CSj : SerdeJson} `{COw : CwOwnable} `{CTf : TokenFactoryProto}.
Context `{CAe : JsonCodec AuthorizationExecuteMsg} `{CPe : JsonCodec ProcessorExecuteMsg}.
Context `{CPo : JsonCodec PolytoneExecuteMsg} `{CPp : JsonCodec ProcPolytoneCallbackMsg}.
Context `{CHy : JsonCodec HyperlaneExecuteMsg} `{CPc : JsonCodec AuthPolytoneCallbackMsg}.
Context `{CZk : JsonCodec ZkMessage} `{CIa : JsonCodec InternalAuthorizationMsg}.
Context `{!JsonCodecLaws AuthorizationExecuteMsg} `{!JsonCodecLaws ProcessorExecuteMsg}.
Context `{!JsonCodecLaws PolytoneExecuteMsg} `{!JsonCodecLaws ProcPolytoneCallbackMsg}.

Lemma send_reaches_queue q env info l ttl ms sa sa' r envp sp qs c a m :
  wired (env_contract env) (env_contract envp) sa c →
  Authorization.send_msgs q env info l ttl ms sa = Ok (r, sa') →
  Authorization.s_authorizations sa !! l = Some a → authorization_domain a = Some DomainMain →
  Processor.s_config sp = Some c → reps sp qs → room sp (m + 1) →
  Processor.batch_expired (Authorization.batch_expiration env (subroutine a)) envp = false →
  ∃ id msg queue,
    let b := sent_batch env a id ms in
    let sp' := lset Processor.EXECUTION_ID_TO_BATCH
                 (<[id := b]> (Processor.s_execution_id_to_batch sp))
                 (lset (Processor.get_queue_map (priority a)) queue sp) in
    Authorization.s_execution_id sa = Some id ∧ resp_messages r = [SubMsg_new msg] ∧
    to_processor envp (env_contract env) msg sp =
      Some (Ok (mkResponse [] [("method", "enqueue_messages")], sp')) ∧
    reps sp' (upd qs (priority a) (qs (priority a) ++ [b])) ∧ room sp' m.
Proof.
  intros [Hw1 Hw2 Hw3] Hsend Ha Hdom Hc Hs Hr Hexp.
  apply send_msgs_ok in Hsend as
    (a' & domain & addrs & id & msg & Ha' & _ & _ & _ & Hdom' & Hid & _ & Hd & -> & _).
  simplify_eq. destruct Hd as (proc & body & Hproc & Hb & ->). simplify_eq.
  destruct (enqueue_run envp id ms (subroutine a') (priority a') _ sp qs m Hs Hr Hexp)
    as (queue & Hrun & Hs' & Hr').
  eexists id, _, queue. cbv zeta. split_and!; [done|done| |exact Hs'|exact Hr'].
  rewrite <-Hw2. rewrite (command_run envp c _ _ sp Hc Hw3 Hb). by rewrite Hrun.
Qed.

(** The report of a success comes back from the processor of the main domain. *)
Lemma report_accepted `{!TokenFactoryProtoLaws} q env info l ttl ms sa sa' r id a c enva self msg
    (res : ExecutionResult) :
  wired (env_contract enva) self sa c →
  accounted sa → Authorization.send_msgs q env info l ttl ms sa = Ok (r, sa') →
  Authorization.s_authorizations sa !! l = Some a → authorization_domain a = Some DomainMain →
  Authorization.s_execution_id sa = Some id → reports_to_authorization c id res msg →
  ∃ cb msgs sa2,
    Authorization.s_processor_callbacks sa' !! id = Some cb ∧
    cb_initiator cb = InitUser (info_sender info) ∧ cb_label cb = l ∧
    to_authorization q enva self msg sa' =
      Some (Ok (mkResponse (SubMsg_new <$> msgs)
        [("action", "process_processor_callback"); ("execution_id", pretty id)], sa2)) ∧
    settlement enva cb (mode a) res msgs ∧
    current sa2 l = current sa l ∧
    cb_execution_result <$> Authorization.s_processor_callbacks sa2 !! id = Some res.
Proof.
  intros [Hw1 Hw2 Hw3] Hacc Hsend Ha Hdom Hid (payload & Hp & ->).
  apply send_msgs_ok in Hsend as
    (a' & domain & addrs & id' & msg & Ha' & _ & _ & _ & Hdom' & Hid' & Hcb & _ & _ & ->).
  rewrite Hid in Hid'. injection Hid' as <-. simplify_eq. simpl in Hcb. rewrite Hw1 in Hcb. simpl in Hcb. simplify_eq.
  set (cb := new_callback _ _ _ _ _ _ _ _). set (sa1 := start id cb sa).
  assert (Authorization.s_processor_callbacks sa1 !! id = Some cb) as Hlook by apply lookup_insert_eq.
  assert (current sa1 l = current sa l + 1)%N as Hcur.
  { unfold sa1, current. simpl. by rewrite lookup_insert_eq. }
  destruct (process_processor_callback_run enva (mkInfo self []) id res sa1 cb (mode a'))
    as (msgs & Hset & Hrun); [done|done|simpl; lia| |].
  { unfold mode_of. simpl. by rewrite Ha'. }
  eexists cb, msgs, _. split_and!; [done|done|done| |done| |].
  - rewrite Hw2. rewrite (to_authorization_run q enva self payload _ sa1 Hp). simpl. by rewrite Hrun.
  - unfold settle, current at 1. simpl. rewrite lookup_insert_eq. simpl in *. lia.
  - simpl. by rewrite lookup_insert_eq.
Qed.
End EndToEnd.

(** A processor with empty queues and nothing about the execution [id]. *)
Record idle (sp : Processor.storage) (c : Config) (id : N) : Prop := {
  idle_reps : reps sp (λ _, []);
  idle_config : Processor.s_config sp = Some c;
  idle_active : proc_state c = Active;
  idle_index : Processor.s_non_atomic_batch_current_function_index sp !! id = None;
  idle_pending : Processor.s_pending_callback sp !! id = None;
}.

(** C1 End to end.  A user's messages for a non-atomic authorization on the main domain,
    none of whose functions waits for a confirmation and whose batches do not expire, sent
    with a call-limit token to an idle and active processor with room in its queues, which
    can turn each message into a call, are executed to the end: the message that leaves the authorization contract is accepted by the
    processor; [n] successful ticks call the [n] functions, each once and in order;
    the single report of the processor is accepted by the authorization contract,
    which records [Success] for that execution, gives the slot of the label back and
    burns the user's token; nothing of the batch stays in the processor. *)
Theorem user_batch_end_to_end
    `{Platform} `{SerdeJson} `{CwOwnable} `{TokenFactoryProto} `{!TokenFactoryProtoLaws}
    `{JsonCodec AuthorizationExecuteMsg} `{JsonCodec ProcessorExecuteMsg}
    `{JsonCodec PolytoneExecuteMsg} `{JsonCodec ProcPolytoneCallbackMsg}
    `{JsonCodec HyperlaneExecuteMsg} `{JsonCodec AuthPolytoneCallbackMsg}
    `{JsonCodec ZkMessage} `{JsonCodec InternalAuthorizationMsg}
    `{!JsonCodecLaws AuthorizationExecuteMsg} `{!JsonCodecLaws ProcessorExecuteMsg}
    `{!JsonCodecLaws PolytoneExecuteMsg} `{!JsonCodecLaws ProcPolytoneCallbackMsg}
    (q : Authorization.Querier) (env env' envp : Env) (info : MessageInfo) (l : string)
    (ttl : option Expiration) (ms : list ProcessorMessage) (sa sa1 : Authorization.storage)
    (r : Response) (a : Authorization) (ps : list (string * N)) (id n : N) (c : Config)
    (sp : Processor.storage) (sub : NonAtomicSubroutine) (dispatch : N → WasmMsg)
    (envs : list Env) :
  accounted sa → wired (env_contract env) (env_contract envp) sa c →
  env_contract env' = env_contract env →
  Authorization.send_msgs q env info l ttl ms sa = Ok (r, sa1) →
  Authorization.s_authorizations sa !! l = Some a → authorization_domain a = Some DomainMain →
  mode a = Permissioned (WithCallLimit ps) → Authorization.s_execution_id sa = Some id →
  idle sp c id → room sp (n + 1) →
  plain_non_atomic (sent_batch env a id ms) sub n dispatch → (0 < n)%N → vec_len envs = n →
  ∃ msg sp1 rs sp2 report burn sa2,
    resp_messages r = [SubMsg_new msg] ∧
    to_processor envp (env_contract env) msg sp =
      Some (Ok (mkResponse [] [("method", "enqueue_messages")], sp1)) ∧
    run_ticks ((λ e, (e, SubMsgOk)) <$> envs) sp1 = Ok (rs, sp2) ∧
    rs.*1 = (λ k, [SubMsg_reply_always (dispatch k) id]) <$> N_range 0 n ∧
    concat (rs.*2) = [SubMsg_new report] ∧ batch_gone sp2 (sent_batch env a id ms) ∧
    to_authorization q env' (env_contract envp) report sa1 =
      Some (Ok (mkResponse [SubMsg_new burn]
        [("action", "process_processor_callback"); ("execution_id", pretty id)], sa2)) ∧
    Authorization.burn_msg (env_contract env) 1
      (Authorization.build_tokenfactory_denom (env_contract env) l) = Some burn ∧
    current sa2 l = current sa l ∧
    cb_execution_result <$> Authorization.s_processor_callbacks sa2 !! id = Some Success.
Proof.
  intros Hacc Hw Henv' Hsend Ha Hdom Hmode Hid Hidle Hroom Hpl Hn Hlen.
  assert (batch_expiration_time (sent_batch env a id ms) = None) as Hexp by apply Hpl.
  simpl in Hexp.
  edestruct (send_reaches_queue q env info l ttl ms sa sa1 r envp sp (λ _, []) c a n Hw
    Hsend Ha Hdom (idle_config _ _ _ Hidle) (idle_reps _ _ _ Hidle) Hroom)
    as (id' & msg & queue & Hid' & Hmsg & Hdel & Hs1 & Hr1).
  { by rewrite Hexp. }
  rewrite Hid in Hid'. injection Hid' as <-. set (b := sent_batch env a id ms) in *.
  set (sp1 := lset Processor.EXECUTION_ID_TO_BATCH _ _) in *.
  assert (at_function sp1 (upd (λ _, []) (priority a) ([] ++ [b])) c b 0) as Hat.
  { pose proof Hidle as [_ Hc Hact Hi Hpd]. split; try done.
    - unfold sp1. by destruct (priority a).
    - unfold next_queue, b. simpl. by destruct (priority a).
    - by rewrite upd_eq.
    - unfold sp1. destruct (priority a); simpl; by rewrite Hi.
    - unfold sp1. destruct (priority a); apply lookup_insert_eq.
    - unfold sp1. by destruct (priority a). }
  destruct (run_from_function envs sp1 _ c b sub n dispatch 0 Hpl Hat) as
    (rs & sp2 & report & el & Hrun & Hfst & Hsnd & _ & Hcb & Hgone).
  { by rewrite N.sub_0_r. } { done. } { unfold vec_len in Hlen. lia. }
  unfold is_callback in Hcb. rewrite (wired_domain _ _ _ _ Hw) in Hcb.
  rewrite <-Henv' in Hw.
  destruct (report_accepted q env info l ttl ms sa sa1 r id a c env' (env_contract envp) report Success
    Hw Hacc Hsend Ha Hdom Hid Hcb) as (cb & msgs & sa2 & _ & Hini & Hlab & Hto & Hset & Hcur & Hres).
  unfold settlement in Hset. rewrite Hini, Hmode, Hlab, Henv' in Hset. simpl in Hset.
  destruct Hset as (burn & Hburn & ->).
  exists msg, sp1, rs, sp2, report, burn, sa2. by split_and!.
Qed.

(** The sample: the authorization contract is at ["contract"], the processor of the
    main domain at ["processor"]. *)
Definition sample_main_config : Config := mkConfig "contract" ProcMain Active.
Definition sample_idle : Processor.storage :=
  Processor.mkStorage None (Some sample_main_config) QueueMap.new QueueMap.new ∅ ∅ ∅ ∅.
Definition sample_proc_env (height : N) : Env :=
  mkEnv (mkBlock height (height * 5000000000)) "processor".
Definition sample_sender : Authorization.storage := sample_s2 DomainMain TyCosmwasmExecuteMsg.

Lemma sample_idle_reps : reps sample_idle (λ _, []).
Proof. intros []; apply new_rep. Qed.
Lemma sample_idle_room n : (n ≤ 1000)%N → room sample_idle n.
Proof. intros Hn []; (transitivity (1003%N); [cbn; lia|by apply N.leb_le]). Qed.
Lemma sample_wired : wired "contract" "processor" sample_sender sample_main_config.
Proof. split; vm_compute; reflexivity. Qed.

Lemma user_batch_end_to_end_witness :
  ∃ r a msg sp1 rs sp2 report burn sa2,
    Authorization.send_msgs sample_q (sample_env 4) sample_user "swap" None [sample_msg]
      sample_sender = Ok (r, sample_main3) ∧
    resp_messages r = [SubMsg_new msg] ∧
    to_processor (sample_proc_env 4) "contract" msg sample_idle =
      Some (Ok (mkResponse [] [("method", "enqueue_messages")], sp1)) ∧
    run_ticks ((λ e, (e, SubMsgOk)) <$> [sample_proc_env 5]) sp1 = Ok (rs, sp2) ∧
    rs.*1 = (λ k : N, [SubMsg_reply_always (WasmExecute "library" [x7b; x7d] []) 0]) <$> N_range 0 1 ∧
    concat (rs.*2) = [SubMsg_new report] ∧ batch_gone sp2 (sent_batch (sample_env 4) a 0 [sample_msg]) ∧
    to_authorization sample_q (sample_env 6) "processor" report sample_main3 =
      Some (Ok (mkResponse [SubMsg_new burn]
        [("action", "process_processor_callback"); ("execution_id", pretty 0%N)], sa2)) ∧
    Authorization.burn_msg "contract" 1
      (Authorization.build_tokenfactory_denom "contract" "swap") = Some burn ∧
    current sa2 "swap" = current sample_sender "swap" ∧
    cb_execution_result <$> Authorization.s_processor_callbacks sa2 !! 0%N = Some Success.
Proof.
  destruct (after_ok (Authorization.send_msgs sample_q (sample_env 4) sample_user "swap" None
    [sample_msg]) sample_sender) as [r Hr]; [vm_compute; reflexivity|].
  destruct (Authorization.s_authorizations sample_sender !! "swap") as [a|] eqn:Ha;
    [|vm_compute in Ha; discriminate].
  exists r, a.
  edestruct (user_batch_end_to_end sample_q (sample_env 4) (sample_env 6) (sample_proc_env 4)
    sample_user "swap" None [sample_msg] sample_sender sample_main3 r a [("user", 3%N)] 0 1
    sample_main_config sample_idle
    (mkNonAtomicSubroutine [mkNonAtomicFunction DomainMain (mkMessageDetails TyCosmwasmExecuteMsg
       (mkMessage "msg" None)) (LibAddr "library") None None] None)
    (λ _, WasmExecute "library" [x7b; x7d] []) [sample_proc_env 5]
    sample_main2_accounted sample_wired eq_refl Hr Ha)
    as (msg & sp1 & rs & sp2 & report & burn & sa2 & Hall).
  all: try (vm_compute in Ha; injection Ha as <-).
  - reflexivity.
  - reflexivity.
  - vm_compute. reflexivity.
  - split; [apply sample_idle_reps|reflexivity..].
  - apply sample_idle_room. by apply N.leb_le.
  - split; try reflexivity; try (by apply N.leb_le).
    + intros k Hk. assert (k = 0)%N as -> by lia. by eexists.
    + intros k Hk. assert (k = 0)%N as -> by lia. reflexivity.
  - by apply N.ltb_lt.
  - reflexivity.
  - exists msg, sp1, rs, sp2, report, burn, sa2. split; [exact Hr|exact Hall].
Defined.

(** What a user sends is what the processor queues: on the main domain, the message
    that leaves the authorization contract for an accepted [send_msgs] is accepted by
    the processor and appends to the queue of the authorization's priority exactly
    one batch, with the execution id the authorization contract recorded, the user's
    messages, and the subroutine, priority and expiration of the authorization. *)
Theorem sent_batch_is_queued
    `{Platform} `{SerdeJson} `{CwOwnable} `{TokenFactoryProto}
    `{JsonCodec AuthorizationExecuteMsg} `{JsonCodec ProcessorExecuteMsg}
    `{JsonCodec PolytoneExecuteMsg} `{JsonCodec ProcPolytoneCallbackMsg}
    `{JsonCodec HyperlaneExecuteMsg} `{JsonCodec AuthPolytoneCallbackMsg}
    `{!JsonCodecLaws ProcessorExecuteMsg}
    (q : Authorization.Querier) (env envp : Env) (info : MessageInfo) (l : string)
    (ttl : option Expiration) (ms : list ProcessorMessage) (sa sa' : Authorization.storage)
    (r : Response) (sp : Processor.storage) (qs : Priority → list MessageBatch) (c : Config)
    (a : Authorization) :
  wired (env_contract env) (env_contract envp) sa c →
  Authorization.send_msgs q env info l ttl ms sa = Ok (r, sa') →
  Authorization.s_authorizations sa !! l = Some a → authorization_domain a = Some DomainMain →
  Processor.s_config sp = Some c → reps sp qs → room sp 1 →
  Processor.batch_expired (Authorization.batch_expiration env (subroutine a)) envp = false →
  ∃ id msg sp', Authorization.s_execution_id sa = Some id ∧
    resp_messages r = [SubMsg_new msg] ∧
    to_processor envp (env_contract env) msg sp =
      Some (Ok (mkResponse [] [("method", "enqueue_messages")], sp')) ∧
    reps sp' (upd qs (priority a) (qs (priority a) ++ [sent_batch env a id ms])) ∧
    Processor.s_execution_id_to_batch sp' !! id = Some (sent_batch env a id ms).
Proof.
  intros Hw Hsend Ha Hdom Hc Hs Hr Hexp.
  destruct (send_reaches_queue q env info l ttl ms sa sa' r envp sp qs c a 0 Hw Hsend Ha Hdom Hc Hs
    Hr Hexp) as (id & msg & queue & Hid & Hmsg & Hto & Hs' & _).
  eexists id, msg, _. split_and!; [done|done|exact Hto|exact Hs'|].
  destruct (priority a); apply lookup_insert_eq.
Qed.

Lemma sent_batch_is_queued_witness :
  ∃ r id msg sp' a, Authorization.s_authorizations sample_sender !! "swap" = Some a ∧
    Authorization.s_execution_id sample_sender = Some id ∧ resp_messages r = [SubMsg_new msg] ∧
    to_processor (sample_proc_env 4) "contract" msg sample_idle =
      Some (Ok (mkResponse [] [("method", "enqueue_messages")], sp')) ∧
    reps sp' (upd (λ _, []) (priority a) [sent_batch (sample_env 4) a id [sample_msg]]).
Proof.
  destruct (after_ok (Authorization.send_msgs sample_q (sample_env 4) sample_user "swap" None
    [sample_msg]) sample_sender) as [r Hr]; [vm_compute; reflexivity|].
  destruct (Authorization.s_authorizations sample_sender !! "swap") as [a|] eqn:Ha;
    [|vm_compute in Ha; discriminate].
  edestruct (sent_batch_is_queued sample_q (sample_env 4) (sample_proc_env 4) sample_user "swap" None
    [sample_msg] sample_sender _ r sample_idle (λ _, []) sample_main_config a sample_wired Hr Ha)
    as (id & msg & sp' & Hid & Hm & Hto & Hs & _).
  all: try (vm_compute in Ha; injection Ha as <-).
  - reflexivity.
  - reflexivity.
  - apply sample_idle_reps.
  - apply sample_idle_room. by apply N.leb_le.
  - reflexivity.
  - exists r, id, msg, sp'. eexists. split; [reflexivity|]. split_and!; [exact Hid|exact Hm|exact Hto|exact Hs].
Defined.
